(* ===== verification/_CoqProject ===== *)
-Q . S2P
Prelude.v
StdMap.v
Memory.v
IntervalMap.v
ConsistencyTracker.v
Serializer.v
Protocol.v
ProtocolTypes.v
Interfaces.v
World.v
WorldInv.v
View.v
ObjectSegment.v
Object.v
Calm.v
ObjectAccess.v
ObjectData.v
ObjectFlush.v
ObjectCow.v
Container.v
System.v
Fabric.v
Hooks.v
Requests.v
Rdma.v
LibfabricDomain.v
FabricObjects.v
ClientRegistry.v
Tcp.v
TcpConnect.v
TcpSessions.v
Connection.v
Dispatch.v
ConnectionInv.v
ConnectionSend.v
ConnectionOpen.v
ConnectionPoll.v
ConnectionLoop.v
ConnectionJoin.v
ConnectionRdma.v
PingPong.v
Client.v
ClientRdma.v
ClientSession.v
MemoryBackend.v
MemoryCache.v
MemoryBalance.v
Provider.v
ServerMemory.v
ServerHooks.v
ServerInv.v
ServerRequests.v
ServerWrites.v
ServerControl.v
ServerRdma.v
ServerFetch.v
EndToEnd.v
ServerLife.v
Machine.v
FabricMachine.v
TcpWitnesses.v
Witnesses.v
RequestWitnesses.v
ConnectionWitnesses.v
ServerWitnesses.v
PingWitnesses.v
ClientWitnesses.v
EndToEndWitnesses.v
ClientPool.v
ServerThreads.v
Config.v
ServerStart.v
Clovis.v
Mero.v
