(* ===== verification/Prelude.v ===== *)
(** * IO Catcher: a verification development

    IO Catcher (src/src) is a cache server for objects.  A client connects by TCP to
    be known, then sends its requests as libfabric messages; the server keeps the
    objects in segments of memory over a storage backend, serves reads and writes in
    the message itself or by RDMA, copies objects by copy-on-write, flushes them to
    the storage, and tracks the ranges that the clients map.  The development models
    these parts as executable definitions and proves what makes them correct.

    ** The parts of the program and the files

    The bottom layer, shared by the others:
    - [Prelude]: faults, the state-and-abort monad [M], its weakest precondition
      [wp F m Q s] (the program returns with [Q] or aborts with a fault allowed by
      [F]; [wp never] is total correctness), machine integers, tactics.
    - [StdMap]: std::map as the sources use it.  [Memory]: the address space, memcpy,
      memset, little-endian integers.  [IntervalMap]: maps of disjoint intervals.
    - [Interfaces]: the classes MemoryBackend and StorageBackend as type classes with
      the laws the objects rely on.  [System]: libc and the memory side of libfabric.
      [Fabric]: the messages, the RDMA operations and the completion queue.
    The server (src/src/server/core, src/src/server/backends):
    - [ConsistencyTracker]: ConsistencyTracker.cpp, the ranges mapped by the clients.
    - [World], [WorldInv], [View], [ObjectSegment], [Object], [Calm], [ObjectAccess],
      [ObjectData], [ObjectFlush], [ObjectCow]: Object.cpp and ObjectSegment.cpp.
      [World] is the state (objects, shared segment memories with their reference
      counts, memory, backends), [WorldInv] its invariant [world_ok], [View] the
      bytes an object shows ([obj_view]), [Object] the methods, [Calm] what every
      method leaves alone, and the other files the theorems: access, data, flush,
      copy-on-write.
    - [Container]: Container.cpp, the objects by identifier ([container_ok]).
    - [MemoryBackend], [MemoryCache], [MemoryBalance], [Provider]: the memory
      backends; [Provider] shows that each of their combinations implements the
      interface of the objects.
    - [Mero]: StorageBackendMero.cpp, in its three builds.
    - [Config]: Config.cpp.  [ServerThreads]: the threads of Server.cpp and how they
      stop.  [ServerStart]: the constructor of Server.cpp, with the table of the
      hooks, and [ServerLife] its settings and its destructor, on the state of the
      whole process.
    The network (src/src/base/network):
    - [Serializer], [Protocol]: Serializer_inlined.hpp, Protocol.hpp and
      Protocol_inlined.hpp, the messages and their bytes; [ProtocolTypes] what is
      known of a message whose bytes are anything.
    - [LibfabricDomain]: LibfabricDomain.cpp, memory regions and message buffers;
      [FabricObjects] the objects of libfabric that the constructors of the domain and
      of the connection open and their destructors close.
    - [Connection], [Dispatch]: LibfabricConnection.cpp, the sending and the
      receiving side; [ConnectionInv] is the invariant [conn_ok] (who owns each
      action, message buffer and receive buffer), [ConnectionSend],
      [ConnectionPoll], [ConnectionLoop], [ConnectionRdma] the theorems;
      [ConnectionOpen] what a new connection establishes and [ConnectionJoin] the
      handshake of a client with the server.
    - [ClientRegistry], [Tcp], [TcpSessions]: ClientRegistry.cpp, TcpServer.cpp,
      TcpClient.cpp and the callbacks of Server::setupTcpServer; [TcpConnect] the
      address that a client connects to.
    The requests (src/src/server/hooks):
    - [Hooks]: the handlers, with what they ask of the connection kept in the state;
      [Requests] the theorems on requests served at once, [Rdma] those on RDMA.
    - [PingPong]: HookPingPong.cpp, on the state of the connection.
    - [ServerHooks]: the handlers on the state of the whole process, where the
      connection, the objects and the memory backend share one memory and one system.
      [ServerMemory] has the memory backends keep the blocks of the others,
      [ServerInv] is the invariant [server_ok] of the process: the blocks in use are
      those of the objects ([own]) and those of the connection ([rest]), apart from
      each other, each part in its own invariant.  [ServerRequests] (flush, read),
      [ServerWrites], [ServerControl] (mappings and copies), [ServerRdma] (large
      reads and the completions) and [ServerFetch] (large writes) have the theorems
      on the requests.
    The client (src/src/client):
    - [Client]: Actions.cpp over the model of the connection; [ClientRdma] the reads
      and writes of more bytes than go in a message.
    - [ClientPool]: the connections of ioc-client.cpp shared by the threads.
    - [ClientSession]: the functions of ioc-client.cpp for a program of one thread,
      from the opening of the client to the end of its calls.
    [EndToEnd] puts the client and the server together: a write and a read from the call
    to its result, through the bytes of both messages.
    Concrete instances ([Machine], [FabricMachine]) and the theorems applied on them
    ([Witnesses], [RequestWitnesses], [ConnectionWitnesses], [ServerWitnesses],
    [PingWitnesses], [ClientWitnesses], [EndToEndWitnesses], [TcpWitnesses]): the hypotheses can hold together.

    ** How the code is translated

    A C++ method that changes state is a function [S -> res (A * S)] written with the
    notation [let! x := m in k]; a failing assert, assume or IOC_FATAL, an exhausted
    resource, a null or dangling pointer and a read out of bounds are distinct
    faults.  Pointers are addresses in tables of the state: objects, control blocks
    of shared pointers, post actions, TCP clients; so aliasing, double release and
    use after release are visible.  size_t arithmetic wraps ([+u], [-u]); int and
    int32_t are reduced by [i32].  libc, libfabric, the sockets, libevent, the
    storage and argp are parameters (type classes), and what the code relies on is
    stated next to each.  Threads are modelled where the code shares state between
    them without a single lock around each method ([ClientPool], [ServerThreads]):
    a step is one access to the shared state and memory is sequentially consistent.
    A class whose methods each hold its mutex ([ConsistencyTracker],
    [ClientRegistry]) is a sequence of calls.

    ** What the theorems show

    - Objects: a read returns the bytes the object shows, a write changes exactly the
      bytes it was asked to, of that object only, in spite of shared memory; every
      operation keeps [world_ok]; a flush that returns 0 leaves the storage equal to
      the object; copies by copy-on-write show the contents of their source; the
      destruction of the container gives every block back once.
    - Memory backends: blocks never meet, are given back to where they came from,
      and every combination refines the interface of the objects.
    - Mero storage: which byte of the buffer goes to which byte of the object; the
      right one below 2 GiB for one group of data units or for whole groups.  Within
      these bounds it is a storage as [StorageOk] asks, and outside it is not.
    - Serializer and protocol: round trip of every message, no access outside the
      buffer, computeSize equal to what packing writes; any bytes unpack to values of
      their types or stop.
    - Requests: on the whole process, from the bytes of the request in its receive
      buffer to the bytes of the answer on the network or the RDMA operations, what
      a write, a read, a flush, a mapping and a copy do to what the server shows, to
      the storage and to the ranges; on the events, a write followed by a read, and a
      write by RDMA in whatever order its operations complete.  While the operations
      of a large write are under way, libfabric may write in the memory they were
      given and nothing else the server shows moves ([fetching], [shown_under]).
    - Connection: the ownership invariant is kept by each turn of poll; a message is
      sent and an RDMA operation posted once whatever the refusals; completions are
      handled once, in order; the loop on the queue ends; only authenticated
      requests reach a hook.
    - TCP: the sessions of the TCP server, the registry, the descriptors and the
      events agree; a client reads the identity that the registry accepts; a client
      that leaves loses its identity and its ranges.
    - End to end: the bytes that a client writes are those that the server shows, and
      the bytes that it reads are those that the server showed.
    - Client: what each action sends and returns; a whole program of calls, with the
      connection that the first one opens; one thread at a time on a connection;
      nobody is stuck.
    - Server: the constructor establishes the invariant of the process, and each
      request has its handler; the destructor gives back every block and closes every
      object of libfabric, in an order that libfabric accepts.
    - Threads: stop waits for the threads it stops and always can.
    - Errors: theorems on what the code does wrong: a flush that fails forgets the
      dirty data, a full copy drops what is stored after the last segment, a flush
      loses a write whose RDMA is under way, an early stop, a write to Mero that
      stores the wrong bytes or at the wrong offset.

    ** Bounds and fuel

    Loops that are not structural take fuel, and a theorem says that it is enough or
    what running out of it means: the copy-on-write of a range takes [2 * length + 4]
    turns; [Hooks.groups] takes the length of its list; the groups of [Mero] take one
    turn more than the number of blocks; the loops of the connection
    end when libfabric stops refusing ([patient]: fewer refusals and completions than
    the fuel); in [Client], running out of fuel is a client that still waits for its
    server, the only fault that is not an end, and a session of [n] calls takes five
    turns more than [n] and than the turns of the wait for its number; the search of a port takes one turn
    for each port; reads that answer EINTR are repeated.  An access fits in what a
    memory backend can give ([mp_max], at least 2^31), and in 2^31 bytes where
    buildIovec is used, which goes through int; offsets are below 2^63; the TCP server accepts fewer than 2^31 connections, because its
    counter is an int; the nvdimm backend allocates less than 2^60 bytes at once.

    ** Not modelled

    Libc, libfabric, libevent, the resolver, argp and the client library of Mero are
    outside the sources and are parameters; logging and the demos, benchmarks and
    vendored libraries are left out.  The process of the server has one memory
    backend: Server::setMemoryBackend and Server::setNvdimm, which delete the old
    backend under the segments that came from it, are modelled in the container
    only.  A request is served on the whole process when no large write is
    under way; what a remote peer writes by itself in memory registered for it is
    not an event of the model.  The memory of the hook objects, the measures of time and the text of
    the messages are left out.  The destruction of the server is proved with no action
    pending: with one, the code uses what it has deleted. *)

From stdpp Require Export base numbers gmap list strings.
From Stdlib Require Export ZArith Lia Sorted.
#[global] Open Scope Z_scope.

(** ** Faults and the state-and-abort monad

    A failing [assert], [assume] or [IOC_FATAL] stops the process, a failed
    allocation is reported by [assume], a null or dangling pointer is undefined
    behaviour.  Every such outcome is an [Abort] with its reason; a C++ function
    that changes state is a function [S -> res (A * S)]. *)
Inductive fault : Type :=
| FAssert        (** a failing [assert()] *)
| FAssume        (** a failing [assume()] / [IOC_FATAL()] of Debug.hpp *)
| FOutOfMemory   (** [malloc] or [mmap] gave no memory *)
| FSystem        (** another system or network call failed, as reported by [assume()] *)
| FNullPointer   (** dereference of a null or dangling pointer *)
| FOverrun       (** a read past the end of a buffer or of an array *)
| FFuel.         (** a loop of the model ran out of fuel *)

#[export] Instance fault_eq_dec : EqDecision fault.
Proof. solve_decision. Defined.

Inductive res (A : Type) : Type :=
| Ok (a : A)
| Abort (f : fault).
Arguments Ok {A} a.
Arguments Abort {A} f.

Definition M (S A : Type) : Type := S -> res (A * S).

Definition ret {S A : Type} (a : A) : M S A := fun s => Ok (a, s).
Definition bind {S A B : Type} (m : M S A) (k : A -> M S B) : M S B :=
  fun s => match m s with Ok (a, s') => k a s' | Abort f => Abort f end.
Definition abort {S A : Type} (f : fault) : M S A := fun _ => Abort f.
Definition get {S : Type} : M S S := fun s => Ok (s, s).
Definition put {S : Type} (s : S) : M S unit := fun _ => Ok (tt, s).
Definition gets {S A : Type} (f : S -> A) : M S A := fun s => Ok (f s, s).
Definition modify {S : Type} (f : S -> S) : M S unit := fun s => Ok (tt, f s).
Definition guard_ {S : Type} (f : fault) (b : bool) : M S unit :=
  if b then ret tt else abort f.
Definition assert_ {S : Type} (b : bool) : M S unit := guard_ FAssert b.
Definition assume_ {S : Type} (b : bool) : M S unit := guard_ FAssume b.
Definition of_option {S A : Type} (f : fault) (o : option A) : M S A :=
  match o with Some a => ret a | None => abort f end.

Declare Scope prog_scope.
Delimit Scope prog_scope with prog.
Notation "'let!' x := m 'in' k" := (bind m (fun x => k))
  (at level 10, x pattern, m at level 100, k at level 200,
   format "'[v' 'let!'  x  :=  m  'in' '/' k ']'") : prog_scope.
Notation "m ;; k" := (bind m (fun _ => k))
  (at level 100, k at level 200, right associativity) : prog_scope.
#[global] Open Scope prog_scope.

(** Iterating a monadic body over a list ([for (auto & it : list)]). *)
Fixpoint for_each {S A : Type} (l : list A) (body : A -> M S unit) : M S unit :=
  match l with
  | [] => ret tt
  | x :: l' => body x ;; for_each l' body
  end.

(** A loop carrying an accumulator. *)
Fixpoint fold_m {S A B : Type} (f : B -> A -> M S B) (b : B) (l : list A) : M S B :=
  match l with
  | [] => ret b
  | x :: l' => let! b' := f b x in fold_m f b' l'
  end.

(** ** A weakest precondition for the monad

    [wp F m Q s]: started in [s], the program [m] either returns a value and a
    state that satisfy [Q], or aborts with a fault allowed by [F].  With
    [F := never] this is total correctness. *)
Definition wp {S A : Type} (F : fault -> Prop) (m : M S A) (Q : A -> S -> Prop) (s : S) : Prop :=
  match m s with Ok (a, s') => Q a s' | Abort f => F f end.

Definition never : fault -> Prop := fun _ => False.
Definition any : fault -> Prop := fun _ => True.
(** The faults of a process that runs out of resources. *)
Definition resource : fault -> Prop := fun f => f = FOutOfMemory \/ f = FSystem.
Definition only (f : fault) : fault -> Prop := fun g => g = f.

Section wp_rules.
Context {S : Type} (F : fault -> Prop).
Implicit Types s : S.

Lemma wp_ret {A} (a : A) (Q : A -> S -> Prop) s : Q a s -> wp F (ret a) Q s.
Proof. done. Qed.

Lemma wp_bind {A B} (m : M S A) (k : A -> M S B) Q s :
  wp F m (fun a s' => wp F (k a) Q s') s -> wp F (bind m k) Q s.
Proof. unfold wp, bind. by destruct (m s) as [[a s']|f]. Qed.

Lemma wp_mono {A} (m : M S A) (P Q : A -> S -> Prop) s :
  wp F m P s -> (forall a s', P a s' -> Q a s') -> wp F m Q s.
Proof. unfold wp. destruct (m s) as [[a s']|f]; auto. Qed.

(** What holds of every run that returns. *)
Lemma wp_also {A} (m : M S A) P Q s : wp F m P s -> wp any m Q s -> wp F m (fun a s' => P a s' /\ Q a s') s.
Proof. unfold wp. by destruct (m s) as [[a s']|f]. Qed.

Lemma wp_conj {A} (m : M S A) (P Q : A -> S -> Prop) s :
  wp F m P s -> wp F m Q s -> wp F m (fun a s' => P a s' /\ Q a s') s.
Proof. unfold wp. destruct (m s) as [[a s']|f]; auto. Qed.

Lemma wp_gets {A} (f : S -> A) (Q : A -> S -> Prop) s : Q (f s) s -> wp F (gets f) Q s.
Proof. done. Qed.

Lemma wp_modify (f : S -> S) (Q : unit -> S -> Prop) s : Q tt (f s) -> wp F (modify f) Q s.
Proof. done. Qed.

Lemma wp_guard b f (Q : unit -> S -> Prop) s :
  b = true -> Q tt s -> wp F (guard_ f b) Q s.
Proof. by intros ->. Qed.

Lemma wp_of_option {A} f (o : option A) (a : A) (Q : A -> S -> Prop) s :
  o = Some a -> Q a s -> wp F (of_option f o) Q s.
Proof. by intros ->. Qed.

Lemma wp_Ok {A} (m : M S A) (Q : A -> S -> Prop) s a s' :
  m s = Ok (a, s') -> wp F m Q s -> Q a s'.
Proof. unfold wp. by intros ->. Qed.

Lemma wp_of_Ok {A} (m : M S A) (Q : A -> S -> Prop) s a s' :
  m s = Ok (a, s') -> Q a s' -> wp F m Q s.
Proof. unfold wp. by intros ->. Qed.
End wp_rules.

Lemma wp_weaken {S A} (F G : fault -> Prop) (m : M S A) Q s :
  (forall f, F f -> G f) -> wp F m Q s -> wp G m Q s.
Proof. unfold wp. destruct (m s) as [[a s']|f]; auto. Qed.

Lemma wp_never {S A} (F : fault -> Prop) (m : M S A) Q s : wp never m Q s -> wp F m Q s.
Proof. by apply wp_weaken. Qed.

(** A program that returns does so in a state that satisfies the condition. *)
Definition returns {S A} (m : M S A) (s : S) : bool := match m s with Ok _ => true | Abort _ => false end.
Lemma wp_returns {S A} F (m : M S A) Q s : wp F m Q s -> returns m s = true -> exists a s', m s = Ok (a, s') /\ Q a s'.
Proof. unfold wp, returns. destruct (m s) as [[a s']|f]; eauto; discriminate. Qed.

(** The loop rule: an invariant indexed by the elements still to visit. *)
Lemma wp_for_each {S A} F (I : list A -> S -> Prop) (body : A -> M S unit) l s :
  I l s ->
  (forall x l' s', I (x :: l') s' -> wp F (body x) (fun _ s'' => I l' s'') s') ->
  wp F (for_each l body) (fun _ s' => I [] s') s.
Proof.
  intros H0 Hstep. revert s H0. induction l as [|x l IH]; intros s H0; simpl.
  - by apply wp_ret.
  - apply wp_bind. eapply wp_mono; [by apply Hstep|]. intros [] s' H1. by apply IH.
Qed.

Lemma wp_fold_m {S A B} F (I : list A -> B -> S -> Prop) (f : B -> A -> M S B) l b s :
  I l b s ->
  (forall x l' b' s', I (x :: l') b' s' -> wp F (f b' x) (fun b'' s'' => I l' b'' s'') s') ->
  wp F (fold_m f b l) (fun b' s' => I [] b' s') s.
Proof.
  intros H0 Hstep. revert b s H0. induction l as [|x l IH]; intros b s H0; simpl.
  - by apply wp_ret.
  - apply wp_bind. eapply wp_mono; [by apply Hstep|]. intros b' s' H1. by apply IH.
Qed.

(** One step of symbolic execution. *)
Ltac wp_step :=
  match goal with
  | |- wp _ (bind _ _) _ _ => apply wp_bind
  | |- wp _ (ret _) _ _ => apply wp_ret
  | |- wp _ (gets _) _ _ => apply wp_gets
  | |- wp _ (modify _) _ _ => apply wp_modify
  | |- wp _ (assert_ _) _ _ => apply wp_guard
  | |- wp _ (assume_ _) _ _ => apply wp_guard
  | |- wp _ (guard_ _ _) _ _ => apply wp_guard
  end.
(** A step whose result is known. *)
Ltac wp_run H := eapply wp_bind, wp_of_Ok; [exact H|]; cbn beta.
Ltac wp_steps := repeat (wp_step; cbn beta).

(** ** Machine integers

    [size_t] and [uint64_t] are integers of [[0, 2^64)] whose operations wrap;
    the conversions to [int], [int32_t] and [int64_t] reduce to the signed
    representative. *)
Definition two64 : Z := 18446744073709551616.
Definition two63 : Z := 9223372036854775808.
Definition u64 (x : Z) : Z := x mod two64.
Definition swrap (w : Z) (x : Z) : Z := (x + 2 ^ (w - 1)) mod 2 ^ w - 2 ^ (w - 1).
Definition i32 (x : Z) : Z := swrap 32 x.
Definition i64 (x : Z) : Z := swrap 64 x.
Definition is_u64 (x : Z) : Prop := 0 <= x < two64.

Notation "a +u b" := (u64 (a + b)) (at level 50, left associativity) : Z_scope.
Notation "a -u b" := (u64 (a - b)) (at level 50, left associativity) : Z_scope.
Notation "a *u b" := (u64 (a * b)) (at level 40, left associativity) : Z_scope.

Lemma u64_small x : 0 <= x < two64 -> u64 x = x.
Proof. intros. by apply Z.mod_small. Qed.

Lemma u64_range x : 0 <= u64 x < two64.
Proof. by apply Z.mod_pos_bound. Qed.

Lemma u64_u64 x : u64 (u64 x) = u64 x.
Proof. apply u64_small, u64_range. Qed.

Lemma swrap_small w x : 0 < w -> - 2 ^ (w - 1) <= x < 2 ^ (w - 1) -> swrap w x = x.
Proof.
  intros Hw Hx. unfold swrap.
  assert (2 ^ w = 2 * 2 ^ (w - 1)) as ->.
  { rewrite <- Z.pow_succ_r by lia. f_equal. lia. }
  rewrite Z.mod_small; lia.
Qed.

Lemma i32_small x : -2147483648 <= x < 2147483648 -> i32 x = x.
Proof. intros. by apply swrap_small. Qed.

Lemma i32_range x : -2147483648 <= i32 x < 2147483648.
Proof.
  unfold i32, swrap. change (2 ^ 32) with 4294967296. change (2 ^ (32 - 1)) with 2147483648.
  pose proof (Z.mod_pos_bound (x + 2147483648) 4294967296). lia.
Qed.

Lemma i64_small x : -9223372036854775808 <= x < 9223372036854775808 -> i64 x = x.
Proof. intros. by apply swrap_small. Qed.

#[global] Opaque two64.
Lemma two64_eq : two64 = 18446744073709551616.
Proof. reflexivity. Qed.

#[global] Opaque two63.
Lemma two63_eq : two63 = 9223372036854775808.
Proof. reflexivity. Qed.
Lemma two63_two64 : 0 < two63 < two64.
Proof. rewrite two63_eq, two64_eq. lia. Qed.
Lemma i64_id x : 0 <= x < two63 -> i64 x = x.
Proof. rewrite two63_eq. intros. apply i64_small. lia. Qed.
Lemma u64_i64 x n : - two63 <= x < two63 -> 0 <= n < two63 -> u64 x = n -> x = n.
Proof.
  rewrite two63_eq. intros Hx Hn. unfold u64. rewrite two64_eq. intros Hu.
  pose proof (Z.mod_pos_bound x 18446744073709551616). pose proof (Z.div_mod x 18446744073709551616). lia.
Qed.

(** Removes the wrap-arounds whose operands are in range. *)
Ltac u64_arith := unfold is_u64 in *; rewrite ?two64_eq in *; lia.
Ltac u64_simpl := repeat (rewrite u64_small by u64_arith).

(** Boolean comparisons in the hypotheses and the goal, then [lia]. *)
Ltac zbool :=
  repeat match goal with
  | H : context [andb _ _ = true] |- _ => rewrite andb_true_iff in H
  | H : context [andb _ _ = false] |- _ => rewrite andb_false_iff in H
  | H : context [orb _ _ = true] |- _ => rewrite orb_true_iff in H
  | H : context [orb _ _ = false] |- _ => rewrite orb_false_iff in H
  | H : context [negb _ = true] |- _ => rewrite negb_true_iff in H
  | H : context [negb _ = false] |- _ => rewrite negb_false_iff in H
  | H : context [(_ <=? _) = true] |- _ => rewrite Z.leb_le in H
  | H : context [(_ <=? _) = false] |- _ => rewrite Z.leb_gt in H
  | H : context [(_ <? _) = true] |- _ => rewrite Z.ltb_lt in H
  | H : context [(_ <? _) = false] |- _ => rewrite Z.ltb_ge in H
  | H : context [(_ =? _) = true] |- _ => rewrite Z.eqb_eq in H
  | H : context [(_ =? _) = false] |- _ => rewrite Z.eqb_neq in H
  end.
Ltac zlia := zbool; rewrite ?two64_eq in *; lia.

(** ** Lists *)
Lemma Forall_sub {A} (P : A -> Prop) (l l' : list A) : sublist l l' -> Forall P l' -> Forall P l.
Proof. induction 1; intros HP; try done; apply Forall_cons in HP as [? ?]; auto. Qed.

Lemma sublist_map {A B} (f : A -> B) (l l' : list A) : sublist l l' -> sublist (f <$> l) (f <$> l').
Proof. induction 1; simpl; by constructor. Qed.

(** ** Hint databases of the development *)
Create HintDb iocdb.
#[export] Hint Resolve u64_range i32_range : iocdb.
