(* ===== verification/StdMap.v ===== *)
(** * std::map

    The ordered map of the C++ library as the sources use it: [find],
    [operator[]] assignment, [erase], [lower_bound], iteration in key order.
    A map is the list of its bindings in key order; an iterator is the suffix of
    that list that starts at the element it points to ([[]] is [end()]).  The
    key order is the [operator<] of the key type, an instance of [Less]. *)

From S2P Require Import Prelude.

Class Less (K : Type) := less : K -> K -> bool.

(** What [std::map] requires of [operator<]: a strict total order. *)
Class LessOk (K : Type) `{Less K} : Prop := {
  less_irrefl : forall k : K, less k k = false;
  less_trans : forall a b c : K, less a b = true -> less b c = true -> less a c = true;
  less_total : forall a b : K, less a b = false -> less b a = false -> a = b;
}.

#[export] Instance Z_less : Less Z := Z.ltb.
#[export] Instance Z_less_ok : LessOk Z.
Proof. split; unfold less, Z_less; intros; lia. Qed.

Definition stdmap (K V : Type) : Type := list (K * V).

Section stdmap.
Context {K V : Type} `{Less K}.
Implicit Types (m : stdmap K V) (k : K) (v : V).

(** [map.find(k)]: the element with key [k], if any. *)
Fixpoint sm_find k m : option V :=
  match m with
  | [] => None
  | (k', v) :: m' => if less k' k then sm_find k m' else if less k k' then None else Some v
  end.

(** [map[k] = v]. *)
Fixpoint sm_insert k v m : stdmap K V :=
  match m with
  | [] => [(k, v)]
  | (k', v') :: m' =>
      if less k' k then (k', v') :: sm_insert k v m'
      else if less k k' then (k, v) :: (k', v') :: m' else (k, v) :: m'
  end.

(** [map.erase(k)]. *)
Fixpoint sm_erase k m : stdmap K V :=
  match m with
  | [] => []
  | (k', v') :: m' =>
      if less k' k then (k', v') :: sm_erase k m'
      else if less k k' then (k', v') :: m' else m'
  end.

(** [map.lower_bound(k)]: the first element whose key is not less than [k]. *)
Fixpoint sm_lower_bound k m : stdmap K V :=
  match m with
  | [] => []
  | (k', v') :: m' => if less k' k then sm_lower_bound k m' else (k', v') :: m'
  end.

Definition key_lt (a b : K * V) : Prop := less a.1 b.1 = true.
Definition sm_ok m : Prop := StronglySorted key_lt m.

Definition all_less m k : Prop := Forall (fun e : K * V => less e.1 k = true) m.
Definition all_greater k m : Prop := Forall (fun e : K * V => less k e.1 = true) m.

Context `{!LessOk K}.

Lemma less_antisym a b : less a b = true -> less b a = false.
Proof.
  intros Hab. destruct (less b a) eqn:Hba; [|done].
  pose proof (less_trans _ _ _ Hab Hba) as Haa. by rewrite less_irrefl in Haa.
Qed.

Lemma less_ge_trans a b c : less a b = true -> less c b = false -> less a c = true.
Proof.
  intros Hab Hcb. destruct (less b c) eqn:Hbc; [by eapply less_trans|].
  by rewrite <- (less_total _ _ Hbc Hcb).
Qed.

Lemma less_neq a b : less a b = true -> a <> b.
Proof. intros Hab ->. by rewrite less_irrefl in Hab. Qed.

(** The three outcomes of the two comparisons every operation makes. *)
Inductive key_cmp (a b : K) : bool -> bool -> Prop :=
| KLt : less a b = true -> a <> b -> key_cmp a b true false
| KEq : a = b -> key_cmp a b false false
| KGt : less b a = true -> a <> b -> key_cmp a b false true.

Lemma key_cmp_spec a b : key_cmp a b (less a b) (less b a).
Proof.
  destruct (less a b) eqn:Hab.
  - rewrite (less_antisym _ _ Hab). constructor; [done|by apply less_neq].
  - destruct (less b a) eqn:Hba.
    + constructor; [done|]. apply not_eq_sym. by apply less_neq.
    + constructor. by apply less_total.
Qed.

Lemma sm_ok_nil : sm_ok [].
Proof. constructor. Qed.

Lemma sm_ok_cons k v m : sm_ok ((k, v) :: m) <-> sm_ok m /\ all_greater k m.
Proof.
  split; [intros Hs; apply StronglySorted_inv in Hs; exact Hs|].
  intros [? ?]. by constructor.
Qed.

Lemma all_greater_find k m : all_greater k m -> sm_find k m = None.
Proof.
  destruct m as [|[k' v'] m]; [done|]. intros [Hk _]%Forall_cons. simpl in *.
  by rewrite (less_antisym _ _ Hk), Hk.
Qed.

Lemma sm_find_In k v m : sm_ok m -> sm_find k m = Some v <-> In (k, v) m.
Proof.
  induction m as [|[k' v'] m IH]; [by intros|].
  intros [Hm Hall]%sm_ok_cons. simpl.
  destruct (key_cmp_spec k' k) as [Hlt Hne| ->|Hlt Hne].
  - rewrite IH by done. split; [by right|]. by intros [[=]|?].
  - split; [intros [= ->]; by left|]. intros [[=]|Hin]; [congruence|].
    apply (Forall_forall _ _) with (x := (k, v)) in Hall; [|by apply list_elem_of_In].
    simpl in Hall. by rewrite less_irrefl in Hall.
  - split; [done|]. intros [[=]|Hin]; [congruence|].
    apply (Forall_forall _ _) with (x := (k, v)) in Hall; [|by apply list_elem_of_In].
    simpl in Hall. pose proof (less_antisym _ _ Hlt). congruence.
Qed.

Lemma sm_find_insert_eq k v m : sm_find k (sm_insert k v m) = Some v.
Proof.
  induction m as [|[k' v'] m IH]; simpl.
  - by rewrite less_irrefl.
  - destruct (key_cmp_spec k' k) as [Hlt Hne| ->|Hlt Hne]; simpl.
    + by rewrite Hlt.
    + by rewrite less_irrefl.
    + by rewrite less_irrefl.
Qed.

Lemma sm_find_insert_ne k k' v m : k <> k' -> sm_find k' (sm_insert k v m) = sm_find k' m.
Proof.
  intros Hne. induction m as [|[k1 v1] m IH]; simpl.
  - by destruct (key_cmp_spec k k').
  - destruct (key_cmp_spec k1 k) as [Hlt Hn| ->|Hlt Hn]; simpl.
    + by rewrite IH.
    + by destruct (key_cmp_spec k k').
    + destruct (key_cmp_spec k k') as [Hlt' Hn'| ->|Hlt' Hn']; [done|done|].
      assert (less k' k1 = true) as Hk by by eapply less_trans.
      by rewrite (less_antisym _ _ Hk), Hk.
Qed.

Lemma all_greater_insert a k v m :
  less a k = true -> all_greater a m -> all_greater a (sm_insert k v m).
Proof.
  intros Hak. induction m as [|[k' v'] m IH]; simpl; intros Hm.
  - by repeat constructor.
  - apply Forall_cons in Hm as [Hk' Hm].
    destruct (less k' k), (less k k'); repeat constructor; try done; by apply IH.
Qed.

Lemma sm_ok_insert k v m : sm_ok m -> sm_ok (sm_insert k v m).
Proof.
  induction m as [|[k' v'] m IH]; simpl.
  - intros _. apply sm_ok_cons. by split; constructor.
  - intros [Hm Hall]%sm_ok_cons.
    destruct (key_cmp_spec k' k) as [Hlt Hn| ->|Hlt Hn]; apply sm_ok_cons.
    + split; [auto|]. by apply all_greater_insert.
    + done.
    + split; [by apply sm_ok_cons|]. constructor; [done|].
      eapply Forall_impl; [exact Hall|]. intros e He. by eapply less_trans.
Qed.

Lemma sm_insert_In k v m k' v' :
  sm_ok m -> In (k', v') (sm_insert k v m) <-> (k', v') = (k, v) \/ (k' <> k /\ In (k', v') m).
Proof.
  intros Hok. rewrite <- !sm_find_In by auto using sm_ok_insert.
  split.
  - intros Hf. destruct (key_cmp_spec k' k) as [_ Hne| ->|_ Hne].
    + right. by rewrite sm_find_insert_ne in Hf by done.
    + rewrite sm_find_insert_eq in Hf. left. congruence.
    + right. by rewrite sm_find_insert_ne in Hf by done.
  - intros [[= -> ->]|[Hne Hf]]; [apply sm_find_insert_eq|]. by rewrite sm_find_insert_ne.
Qed.

Lemma sm_insert_insert k v v' m : sm_insert k v' (sm_insert k v m) = sm_insert k v' m.
Proof.
  induction m as [|[k' v0] m IH]; simpl; [by rewrite less_irrefl|].
  destruct (key_cmp_spec k' k) as [Hlt Hne| ->|Hlt Hne]; simpl.
  - rewrite Hlt. by rewrite IH.
  - by rewrite less_irrefl.
  - by rewrite less_irrefl.
Qed.

Lemma sm_insert_length_new k v m :
  sm_find k m = None -> sm_ok m -> length (sm_insert k v m) = Datatypes.S (length m).
Proof.
  induction m as [|[k' v'] m IH]; simpl; [done|].
  intros Hf [Hm _]%sm_ok_cons.
  destruct (key_cmp_spec k' k); simpl; [by rewrite IH|done|done].
Qed.

Lemma all_find_None k m : sm_ok m -> (forall v, In (k, v) m -> False) -> sm_find k m = None.
Proof.
  intros Hok Hn. destruct (sm_find k m) as [v|] eqn:E; [|done]. apply (sm_find_In _ _ _ Hok) in E. by destruct (Hn v).
Qed.

Lemma sm_erase_insert k v m : sm_find k m = None -> sm_ok m -> sm_erase k (sm_insert k v m) = m.
Proof.
  induction m as [|[k' v'] m IH]; simpl; [by rewrite less_irrefl|]. intros Hf [Hm Hall]%sm_ok_cons.
  destruct (key_cmp_spec k' k) as [Hlt Hne| ->|Hlt Hne]; simpl.
  - rewrite Hlt. by rewrite IH.
  - done.
  - by rewrite less_irrefl.
Qed.

Lemma sm_ok_erase k m : sm_ok m -> sm_ok (sm_erase k m).
Proof.
  induction m as [|[k' v'] m IH]; simpl; [done|].
  intros [Hm Hall]%sm_ok_cons.
  destruct (key_cmp_spec k' k) as [Hlt Hn| ->|Hlt Hn]; [|done|by apply sm_ok_cons].
  apply sm_ok_cons. split; [auto|]. clear -Hall.
  induction m as [|[k1 v1] m IH]; simpl; [done|]. apply Forall_cons in Hall as [? ?].
  destruct (less k1 k), (less k k1); repeat constructor; try done; by apply IH.
Qed.

Lemma sm_find_erase_eq k m : sm_ok m -> sm_find k (sm_erase k m) = None.
Proof.
  induction m as [|[k' v'] m IH]; simpl; [done|].
  intros [Hm Hall]%sm_ok_cons.
  destruct (key_cmp_spec k' k) as [Hlt Hn| ->|Hlt Hn]; simpl.
  - rewrite Hlt. auto.
  - by apply all_greater_find.
  - by rewrite (less_antisym _ _ Hlt), Hlt.
Qed.

Lemma sm_find_erase_ne k k' m : sm_ok m -> k <> k' -> sm_find k' (sm_erase k m) = sm_find k' m.
Proof.
  intros Hok Hne. induction m as [|[k1 v1] m IH]; simpl; [done|].
  apply sm_ok_cons in Hok as [Hm Hall].
  destruct (key_cmp_spec k1 k) as [Hlt Hn| ->|Hlt Hn]; simpl.
  - by rewrite IH.
  - destruct (key_cmp_spec k k') as [Hlt' Hn'| ->|Hlt' Hn']; [done|done|].
    apply all_greater_find. eapply Forall_impl; [exact Hall|].
    intros e He. by eapply less_trans.
  - done.
Qed.

(** [lower_bound] splits the map at the key. *)
Lemma sm_lower_bound_split k m :
  exists pre, m = pre ++ sm_lower_bound k m /\ all_less pre k.
Proof.
  induction m as [|[k' v'] m (pre & Hm & Hpre)]; simpl.
  - exists []. by split; [|constructor].
  - destruct (less k' k) eqn:Hk; [|exists []; by split; [|constructor]].
    exists ((k', v') :: pre). split; [simpl; by rewrite <- Hm|by constructor].
Qed.

Lemma sm_lower_bound_ge k m :
  sm_ok m -> Forall (fun e : K * V => less e.1 k = false) (sm_lower_bound k m).
Proof.
  induction m as [|[k' v'] m IH]; simpl; [done|].
  intros [Hm Hall]%sm_ok_cons. destruct (less k' k) eqn:Hk; [auto|].
  constructor; [done|]. eapply Forall_impl; [exact Hall|]. intros e He. simpl in *.
  destruct (less e.1 k) eqn:Hek; [|done].
  by rewrite (less_trans _ _ _ He Hek) in Hk.
Qed.

Lemma sm_ok_app m1 m2 : sm_ok (m1 ++ m2) -> sm_ok m1 /\ sm_ok m2.
Proof.
  induction m1 as [|[k v] m1 IH]; simpl; [by split; [constructor|]|].
  intros [Hm Hall]%sm_ok_cons. destruct (IH Hm) as [H1 H2]. split; [|done].
  apply sm_ok_cons. split; [done|]. by apply Forall_app in Hall as [? ?].
Qed.

Lemma sm_ok_lower_bound k m : sm_ok m -> sm_ok (sm_lower_bound k m).
Proof.
  destruct (sm_lower_bound_split k m) as (pre & Hm & _). intros Hok.
  rewrite Hm in Hok. by apply sm_ok_app in Hok as [_ ?].
Qed.

(** Where a new key goes when everything is on one side of it. *)
(** The elements, in any order. *)
Lemma sm_insert_perm k v m : sm_find k m = None -> sm_insert k v m ≡ₚ (k, v) :: m.
Proof.
  induction m as [|[k' v'] m IH]; simpl; [done|]. destruct (key_cmp_spec k' k); simpl; intros Hf; [|done|done].
  rewrite IH by done. apply Permutation_swap.
Qed.
Lemma sm_erase_perm k v m : sm_find k m = Some v -> m ≡ₚ (k, v) :: sm_erase k m.
Proof.
  induction m as [|[k' v'] m IH]; simpl; [done|]. destruct (key_cmp_spec k' k) as [| ->|]; simpl; intros Hf; [|by injection Hf as ->|done].
  rewrite IH at 1 by done. apply Permutation_swap.
Qed.

Lemma sm_insert_app k v m1 m2 :
  all_less m1 k -> sm_insert k v (m1 ++ m2) = m1 ++ sm_insert k v m2.
Proof.
  induction m1 as [|[k' v'] m1 IH]; simpl; [done|].
  intros [Hk Hm]%Forall_cons. simpl in Hk. rewrite Hk. by rewrite IH.
Qed.

Lemma sm_insert_front k v m :
  all_greater k m -> sm_insert k v m = (k, v) :: m.
Proof.
  destruct m as [|[k' v'] m]; [done|]. intros [Hk _]%Forall_cons. simpl in *.
  by rewrite (less_antisym _ _ Hk), Hk.
Qed.
End stdmap.

(** Changing the values of a map element by element keeps its keys. *)
Lemma all_greater_keys {K V W} `{Less K} k (m : stdmap K V) (m' : stdmap K W) :
  map fst m = map fst m' -> all_greater k m -> all_greater k m'.
Proof.
  unfold all_greater. intros Hk Hm.
  assert (Forall (fun x => less k x = true) (map fst m')) as Hm'.
  { rewrite <- Hk. by apply Forall_fmap. }
  by apply Forall_fmap in Hm'.
Qed.

Lemma sm_ok_keys {K V W} `{Less K} (m : stdmap K V) (m' : stdmap K W) :
  map fst m = map fst m' -> sm_ok m -> sm_ok m'.
Proof.
  revert m'. induction m as [|[k v] m IH]; intros [|[k' v'] m'] Hk; try done; [constructor|].
  simpl in Hk. apply (inj2 cons) in Hk as [<- Hk]. intros [Hm Hall]%StronglySorted_inv.
  constructor; [by apply IH|]. by apply (all_greater_keys k m m').
Qed.

#[export] Hint Resolve sm_ok_nil sm_ok_insert sm_ok_erase sm_ok_lower_bound : iocdb.
