(* ===== verification/Memory.v ===== *)
(** * Byte-addressed memory

    The address space of the process: a byte at every address, pointers are
    addresses, [memcpy], [memset] and the loads and stores of little-endian
    integers.  A write outside the buffer it was meant for changes the
    neighbouring bytes, as it does in C. *)

From S2P Require Import Prelude.
From Stdlib Require Export Init.Byte.
From Stdlib Require Import Strings.Byte.

#[export] Instance byte_eq_dec : EqDecision byte := Byte.byte_eq_dec.

Definition byte_of_Z (z : Z) : byte :=
  match Byte.of_N (Z.to_N (z mod 256)) with Some b => b | None => x00 end.
Definition Z_of_byte (b : byte) : Z := Z.of_N (Byte.to_N b).

Lemma Z_of_byte_range b : 0 <= Z_of_byte b < 256.
Proof. unfold Z_of_byte. pose proof (Byte.to_N_bounded b). lia. Qed.

Lemma Z_of_byte_of_Z z : Z_of_byte (byte_of_Z z) = z mod 256.
Proof.
  unfold byte_of_Z, Z_of_byte. pose proof (Z.mod_pos_bound z 256).
  destruct (Byte.of_N _) as [b|] eqn:E.
  - apply Byte.to_of_N in E. rewrite E. lia.
  - apply Byte.of_N_None_iff in E. lia.
Qed.

Lemma byte_of_Z_of_byte b : byte_of_Z (Z_of_byte b) = b.
Proof.
  unfold byte_of_Z. rewrite Z.mod_small by apply Z_of_byte_range.
  unfold Z_of_byte. by rewrite N2Z.id, Byte.of_to_N.
Qed.

(** ** Little-endian integers *)
Fixpoint le_split (n : nat) (z : Z) : list byte :=
  match n with
  | O => []
  | S n' => byte_of_Z z :: le_split n' (z / 256)
  end.

Fixpoint le_combine (l : list byte) : Z :=
  match l with
  | [] => 0
  | b :: l' => Z_of_byte b + 256 * le_combine l'
  end.

Lemma le_split_length n z : length (le_split n z) = n.
Proof. revert z; induction n as [|n IH]; intros z; simpl; [done|by rewrite IH]. Qed.

Lemma le_combine_split n z : le_combine (le_split n z) = z mod 256 ^ Z.of_nat n.
Proof.
  revert z; induction n as [|n IH]; intros z; simpl le_combine.
  - by rewrite Z.mod_1_r.
  - rewrite Z_of_byte_of_Z, IH, Nat2Z.inj_succ, Z.pow_succ_r by lia.
    by rewrite Z.rem_mul_r by lia.
Qed.

Lemma le_combine_split_small n z : 0 <= z < 256 ^ Z.of_nat n -> le_combine (le_split n z) = z.
Proof. intros. rewrite le_combine_split. by apply Z.mod_small. Qed.

Lemma byte_of_Z_add b x : byte_of_Z (Z_of_byte b + 256 * x) = b.
Proof.
  unfold byte_of_Z. replace ((Z_of_byte b + 256 * x) mod 256) with (Z_of_byte b mod 256).
  - by destruct b.
  - rewrite (Z.mul_comm 256 x). symmetry. apply Z_mod_plus_full.
Qed.

Lemma le_split_combine l : le_split (length l) (le_combine l) = l.
Proof.
  induction l as [|b l IH]; [done|]. simpl. rewrite byte_of_Z_add. f_equal.
  replace ((Z_of_byte b + 256 * le_combine l) / 256) with (le_combine l); [done|].
  rewrite (Z.mul_comm 256), Z.div_add by done. rewrite Z.div_small; [lia|]. by destruct b.
Qed.

Lemma le_combine_range l : 0 <= le_combine l < 256 ^ Z.of_nat (length l).
Proof.
  induction l as [|b l IH]; simpl le_combine; [done|].
  rewrite length_cons, Nat2Z.inj_succ, Z.pow_succ_r by lia.
  pose proof (Z_of_byte_range b). nia.
Qed.

(** ** The address space *)
Definition mem : Type := Z -> byte.

(** [n] bytes from address [p]. *)
Definition rd (m : mem) (p n : Z) : list byte := (fun i => m (p + i)) <$> seqZ 0 n.

(** The bytes of [l] stored from address [p]. *)
Definition wr (m : mem) (p : Z) (l : list byte) : mem :=
  fun a => if (p <=? a) && (a <? p + Z.of_nat (length l))
           then nth (Z.to_nat (a - p)) l x00 else m a.

Definition memcpy (m : mem) (dst src n : Z) : mem :=
  fun a => if (dst <=? a) && (a <? dst + n) then m (src + (a - dst)) else m a.

Definition memset (m : mem) (p : Z) (v : byte) (n : Z) : mem :=
  fun a => if (p <=? a) && (a <? p + n) then v else m a.

(** The intervals [[p, p+n)] and [[q, q+k)] do not meet. *)
Definition disjoint (p n q k : Z) : Prop := p + n <= q \/ q + k <= p.

Lemma rd_length m p n : 0 <= n -> Z.of_nat (length (rd m p n)) = n.
Proof. intros. unfold rd. rewrite length_fmap, length_seqZ. lia. Qed.

Lemma rd_length_nat m p n : length (rd m p n) = Z.to_nat n.
Proof. unfold rd. by rewrite length_fmap, length_seqZ. Qed.

Lemma rd_ext m m' p n :
  (forall a, p <= a < p + n -> m a = m' a) -> rd m p n = rd m' p n.
Proof.
  intros He. unfold rd. apply list_fmap_ext. intros i x Hx.
  apply lookup_seqZ in Hx as [-> Hlt]. apply He. lia.
Qed.

Lemma rd_lookup m p n i : (i < Z.to_nat n)%nat -> rd m p n !! i = Some (m (p + Z.of_nat i)).
Proof.
  intros Hi. unfold rd. rewrite list_lookup_fmap, lookup_seqZ_lt by lia. simpl. do 2 f_equal.
Qed.

Lemma rd_app m p n k : 0 <= n -> 0 <= k -> rd m p (n + k) = rd m p n ++ rd m (p + n) k.
Proof.
  intros Hn Hk. apply list_eq. intros i.
  destruct (decide (i < Z.to_nat n)%nat) as [Hi|Hi].
  - rewrite lookup_app_l by (rewrite rd_length_nat; lia). rewrite !rd_lookup by lia. done.
  - rewrite lookup_app_r by (rewrite rd_length_nat; lia). rewrite rd_length_nat.
    destruct (decide (i < Z.to_nat (n + k))%nat) as [Hj|Hj].
    + rewrite !rd_lookup by lia. do 2 f_equal. lia.
    + rewrite !lookup_ge_None_2; [done|rewrite rd_length_nat; lia|rewrite rd_length_nat; lia].
Qed.

Lemma rd_0 m p : rd m p 0 = [].
Proof. done. Qed.

Lemma wr_out m p l a : ~ (p <= a < p + Z.of_nat (length l)) -> wr m p l a = m a.
Proof. intros Ha. unfold wr. case_match; [lia|done]. Qed.

Lemma wr_in m p l i b : l !! i = Some b -> wr m p l (p + Z.of_nat i) = b.
Proof.
  intros Hi. pose proof (lookup_lt_Some _ _ _ Hi). unfold wr. case_match; [|lia].
  replace (Z.to_nat (p + Z.of_nat i - p)) with i by lia.
  by apply nth_lookup_Some.
Qed.

Lemma rd_wr m p l : rd (wr m p l) p (Z.of_nat (length l)) = l.
Proof.
  apply list_eq. intros i. destruct (l !! i) as [b|] eqn:Hi.
  - pose proof (lookup_lt_Some _ _ _ Hi). rewrite rd_lookup by lia. f_equal. by apply wr_in.
  - apply lookup_ge_None in Hi. apply lookup_ge_None_2. rewrite rd_length_nat. lia.
Qed.

Lemma rd_wr_len m p l n : n = Z.of_nat (length l) -> rd (wr m p l) p n = l.
Proof. intros ->. apply rd_wr. Qed.

Lemma rd_wr_disjoint m p l q n :
  disjoint p (Z.of_nat (length l)) q n -> rd (wr m p l) q n = rd m q n.
Proof. intros Hd. apply rd_ext. intros a Ha. apply wr_out. unfold disjoint in Hd. lia. Qed.

Lemma wr_app m p l1 l2 a :
  wr m p (l1 ++ l2) a = wr (wr m p l1) (p + Z.of_nat (length l1)) l2 a.
Proof.
  unfold wr. rewrite length_app, Nat2Z.inj_add.
  repeat case_match; try (exfalso; zlia); try done.
  - rewrite app_nth2 by zlia. f_equal. zlia.
  - by rewrite app_nth1 by zlia.
Qed.

Lemma wr_ext m m' p l a : m a = m' a -> wr m p l a = wr m' p l a.
Proof. intros He. unfold wr. by case_match. Qed.

Lemma memcpy_wr m dst src n a : 0 <= n -> memcpy m dst src n a = wr m dst (rd m src n) a.
Proof.
  intros Hn. unfold memcpy, wr. rewrite rd_length by done.
  case_match; [|done]. symmetry. apply nth_lookup_Some.
  rewrite rd_lookup by zlia. do 2 f_equal. zlia.
Qed.

Lemma memcpy_out m dst src n a : ~ (dst <= a < dst + n) -> memcpy m dst src n a = m a.
Proof. intros Ha. unfold memcpy. case_match; [lia|done]. Qed.

Lemma memcpy_in m dst src n a : dst <= a < dst + n -> memcpy m dst src n a = m (src + (a - dst)).
Proof. intros Ha. unfold memcpy. case_match; [done|lia]. Qed.

Lemma rd_memcpy_disjoint m dst src n q k :
  disjoint dst n q k -> rd (memcpy m dst src n) q k = rd m q k.
Proof. intros Hd. apply rd_ext. intros a Ha. apply memcpy_out. unfold disjoint in Hd. lia. Qed.

Lemma rd_memcpy m dst src n : rd (memcpy m dst src n) dst n = rd m src n.
Proof.
  unfold rd. apply list_fmap_ext. intros i x Hx. apply lookup_seqZ in Hx as [-> Hlt].
  rewrite memcpy_in by lia. f_equal. lia.
Qed.

Lemma memset_out m p v n a : ~ (p <= a < p + n) -> memset m p v n a = m a.
Proof. intros Ha. unfold memset. case_match; [lia|done]. Qed.

Lemma memset_in m p v n a : p <= a < p + n -> memset m p v n a = v.
Proof. intros Ha. unfold memset. case_match; [done|lia]. Qed.

Lemma disjoint_sym p n q k : disjoint p n q k -> disjoint q k p n.
Proof. unfold disjoint. lia. Qed.

#[export] Hint Resolve disjoint_sym : iocdb.

#[global] Opaque le_split.
#[global] Arguments rd : simpl never.
