(* ===== verification/IntervalMap.v ===== *)
(** * Maps of disjoint intervals indexed by their last byte

    Both [Object::segmentMap] and [LibfabricDomain::segments] register an
    interval [[off, off+size)] under the key [off + size - 1], "to be able to use
    lower_bound() to quick search".  This file proves what that search relies
    on, once for both maps: [interval_chain] is the invariant, [im_cover_spec]
    the correctness of the search. *)

From S2P Require Import Prelude StdMap.

Section interval_map.
Context {V : Type} (off size : V -> Z).
Implicit Types (m : stdmap Z V) (lo : Z).

Definition iend (v : V) : Z := off v + size v.

(** The intervals follow each other from [lo] on without meeting, each keyed
    by its last byte. *)
Fixpoint interval_chain lo m : Prop :=
  match m with
  | [] => True
  | (k, v) :: m' => lo <= off v /\ 0 < size v /\ k = iend v - 1 /\ interval_chain (iend v) m'
  end.

(** The end of the last interval. *)
Fixpoint chain_end lo m : Z :=
  match m with
  | [] => lo
  | (_, v) :: m' => chain_end (iend v) m'
  end.

Lemma chain_weaken lo lo' m : lo' <= lo -> interval_chain lo m -> interval_chain lo' m.
Proof. destruct m as [|[k v] m]; simpl; [done|]. intros ? (? & ? & ? & ?). repeat split; try done; lia. Qed.

Lemma chain_end_ge lo m : interval_chain lo m -> lo <= chain_end lo m.
Proof.
  revert lo. induction m as [|[k v] m IH]; simpl; [lia|].
  intros lo (? & ? & ? & Hc). apply IH in Hc. unfold iend in *. lia.
Qed.

Lemma chain_app lo m1 m2 :
  interval_chain lo (m1 ++ m2) <-> interval_chain lo m1 /\ interval_chain (chain_end lo m1) m2.
Proof.
  revert lo. induction m1 as [|[k v] m1 IH]; intros lo; simpl; [tauto|].
  rewrite IH. tauto.
Qed.

Lemma chain_In lo m k v :
  interval_chain lo m -> In (k, v) m -> lo <= off v /\ 0 < size v /\ k = iend v - 1.
Proof.
  revert lo. induction m as [|[k' v'] m IH]; simpl; [done|].
  intros lo (? & ? & ? & Hc) [[= -> ->]|Hin]; [done|].
  destruct (IH _ Hc Hin) as (? & ? & ?). unfold iend in *. repeat split; try done; lia.
Qed.

Lemma chain_end_In lo m k v :
  interval_chain lo m -> In (k, v) m -> iend v <= chain_end lo m.
Proof.
  revert lo. induction m as [|[k' v'] m IH]; simpl; [done|].
  intros lo (? & ? & ? & Hc) [[= -> ->]|Hin]; [by apply chain_end_ge|by eapply IH].
Qed.

Lemma chain_sorted lo m : interval_chain lo m -> sm_ok m.
Proof.
  revert lo. induction m as [|[k v] m IH]; intros lo Hc; [constructor|].
  destruct Hc as (? & ? & ? & Hc). constructor; [by eapply IH|].
  apply Forall_forall. intros [k' v'] Hin%list_elem_of_In.
  destruct (chain_In _ _ _ _ Hc Hin) as (? & ? & ?). unfold key_lt, less, Z_less, iend in *. simpl. lia.
Qed.

(** Two intervals of the chain are the same binding or do not meet. *)
Lemma chain_disjoint lo m k1 v1 k2 v2 :
  interval_chain lo m -> In (k1, v1) m -> In (k2, v2) m ->
  (k1, v1) = (k2, v2) \/ iend v1 <= off v2 \/ iend v2 <= off v1.
Proof.
  revert lo. induction m as [|[k v] m IH]; simpl; [done|].
  intros lo (Ha & Hb & He & Hc) [[= -> ->]|Hi] [[= -> ->]|Hj]; [by left| | |by eapply IH].
  - destruct (chain_In _ _ _ _ Hc Hj) as (? & _). right; left. done.
  - destruct (chain_In _ _ _ _ Hc Hi) as (? & _). right; right. done.
Qed.

(** At most one interval covers a byte. *)
Lemma chain_cover_unique lo m k1 v1 k2 v2 x :
  interval_chain lo m -> In (k1, v1) m -> In (k2, v2) m ->
  off v1 <= x < iend v1 -> off v2 <= x < iend v2 -> (k1, v1) = (k2, v2).
Proof.
  intros Hc H1 H2 Hx1 Hx2.
  destruct (chain_disjoint _ _ _ _ _ _ Hc H1 H2) as [?|[?|?]]; [done|lia|lia].
Qed.

(** [lower_bound(p)] skips exactly the intervals that end at or before [p]. *)
Lemma chain_lower_bound lo m p :
  interval_chain lo m ->
  exists pre, m = pre ++ sm_lower_bound p m /\
    Forall (fun e : Z * V => iend e.2 <= p) pre /\
    Forall (fun e : Z * V => p < iend e.2) (sm_lower_bound p m).
Proof.
  intros Hc. destruct (sm_lower_bound_split p m) as (pre & Hm & Hpre).
  exists pre. split; [done|]. split.
  - apply Forall_forall. intros [k v] Hin. unfold all_less in Hpre. rewrite Forall_forall in Hpre.
    specialize (Hpre _ Hin). unfold less, Z_less in Hpre. simpl in *.
    destruct (chain_In lo m k v Hc) as (_ & _ & ->).
    { rewrite Hm. apply in_or_app. left. by apply list_elem_of_In. }
    lia.
  - pose proof (sm_lower_bound_ge p m (chain_sorted _ _ Hc)) as Hge.
    apply Forall_forall. intros [k v] Hin. rewrite Forall_forall in Hge.
    specialize (Hge _ Hin). unfold less, Z_less in Hge. simpl in *.
    destruct (chain_In lo m k v Hc) as (_ & _ & ->).
    { rewrite Hm. apply in_or_app. right. by apply list_elem_of_In. }
    lia.
Qed.

(** The search of the sources: take [lower_bound(p)], keep it when it starts
    at or before [p]. *)
Definition im_cover (p : Z) m : option (Z * V) :=
  match sm_lower_bound p m with
  | (k, v) :: _ => if off v <=? p then Some (k, v) else None
  | [] => None
  end.

Lemma im_cover_spec lo m p k v :
  interval_chain lo m ->
  im_cover p m = Some (k, v) <-> In (k, v) m /\ off v <= p < iend v.
Proof.
  intros Hc. destruct (chain_lower_bound lo m p Hc) as (pre & Hm & Hpre & Hge).
  unfold im_cover. split.
  - intros Hf. destruct (sm_lower_bound p m) as [|[k' v'] post]; [done|].
    destruct (off v' <=? p) eqn:Ho; [|done]. injection Hf as -> ->. apply Forall_cons in Hge as [Hge _]. simpl in Hge.
    split; [rewrite Hm; apply in_or_app; right; by left|lia].
  - intros [Hin Hp].
    assert (In (k, v) (sm_lower_bound p m)) as Hin'.
    { rewrite Hm in Hin. apply in_app_or in Hin as [Hin|Hin]; [|done]. exfalso.
      rewrite Forall_forall in Hpre. apply list_elem_of_In in Hin.
      specialize (Hpre _ Hin). simpl in Hpre. lia. }
    rewrite Hm in Hc. apply chain_app in Hc as [_ Hc].
    destruct (sm_lower_bound p m) as [|[k' v'] post]; [done|].
    apply Forall_cons in Hge as [Hge _]. simpl in *.
    destruct Hc as (? & ? & ? & Hc). destruct Hin' as [[= -> ->]|Hin'].
    + destruct (off v <=? p) eqn:Ho; [done|lia].
    + destruct (chain_In _ _ _ _ Hc Hin') as (? & _). lia.
Qed.

(** Inserting an interval that meets none of the others. *)
Lemma chain_insert lo m v :
  interval_chain lo m -> lo <= off v -> 0 < size v ->
  (forall k' v', In (k', v') m -> iend v' <= off v \/ iend v <= off v') ->
  interval_chain lo (sm_insert (iend v - 1) v m).
Proof.
  revert lo. induction m as [|[k' v'] m IH]; intros lo Hc Hlo Hsz Hd; simpl.
  - done.
  - destruct Hc as (Hlo' & Hsz' & -> & Hc).
    destruct (Hd (iend v' - 1) v') as [Hb|Ha]; [by left| |]; unfold less, Z_less.
    + assert ((iend v' - 1 <? iend v - 1) = true) as ->.
      { apply Z.ltb_lt. unfold iend in *. lia. }
      simpl. repeat split; try done. apply IH; try done. intros k1 v1 Hin. apply (Hd k1 v1). by right.
    + assert ((iend v' - 1 <? iend v - 1) = false) as ->.
      { apply Z.ltb_ge. unfold iend in *. lia. }
      assert ((iend v - 1 <? iend v' - 1) = true) as ->.
      { apply Z.ltb_lt. unfold iend in *. lia. }
      simpl. repeat split; try done.
Qed.

Lemma chain_end_insert lo m v :
  interval_chain lo m -> 0 < size v ->
  (forall k' v', In (k', v') m -> iend v' <= off v \/ iend v <= off v') ->
  lo <= off v ->
  chain_end lo (sm_insert (iend v - 1) v m) = Z.max (chain_end lo m) (iend v).
Proof.
  revert lo. induction m as [|[k' v'] m IH]; intros lo Hc Hsz Hd Hlo; simpl.
  - unfold iend. lia.
  - destruct Hc as (Hlo' & Hsz' & -> & Hc). pose proof (chain_end_ge _ _ Hc).
    destruct (Hd (iend v' - 1) v') as [Hb|Ha]; [by left| |]; unfold less, Z_less.
    + assert ((iend v' - 1 <? iend v - 1) = true) as ->.
      { apply Z.ltb_lt. unfold iend in *. lia. }
      simpl. apply IH; try done. intros k1 v1 Hin. apply (Hd k1 v1). by right.
    + assert ((iend v' - 1 <? iend v - 1) = false) as ->.
      { apply Z.ltb_ge. unfold iend in *. lia. }
      assert ((iend v - 1 <? iend v' - 1) = true) as ->.
      { apply Z.ltb_lt. unfold iend in *. lia. }
      simpl. unfold iend in *. lia.
Qed.

(** Replacing an interval by another at the same place. *)
Lemma chain_replace lo m k v v' :
  interval_chain lo m -> sm_find k m = Some v -> off v' = off v -> size v' = size v ->
  interval_chain lo (sm_insert k v' m) /\ chain_end lo (sm_insert k v' m) = chain_end lo m.
Proof.
  intros Hc Hf Ho Hs. revert lo Hc. induction m as [|[k1 v1] m IH]; intros lo Hc; simpl in *; [done|].
  destruct Hc as (? & ? & ? & Hc).
  destruct (key_cmp_spec k1 k) as [Hlt Hne| ->|Hlt Hne]; [|simplify_eq|done]; simpl.
  - destruct (IH Hf _ Hc) as [? ?]. done.
  - unfold iend in *. by rewrite Ho, Hs.
Qed.

Lemma chain_erase lo m k : interval_chain lo m -> interval_chain lo (sm_erase k m).
Proof.
  revert lo. induction m as [|[k1 v1] m IH]; intros lo Hc; simpl in *; [done|]. destruct Hc as (? & ? & ? & Hc).
  destruct (less k1 k); [simpl; auto|]. destruct (less k k1); [done|].
  eapply chain_weaken; [|exact Hc]. unfold iend. lia.
Qed.

Lemma sm_insert_In_fresh lo m v k' v' :
  interval_chain lo m ->
  (forall k1 v1, In (k1, v1) m -> iend v1 <= off v \/ iend v <= off v1) -> 0 < size v ->
  In (k', v') (sm_insert (iend v - 1) v m) <-> (k', v') = (iend v - 1, v) \/ In (k', v') m.
Proof.
  revert lo. induction m as [|[k1 v1] m IH]; intros lo Hc Hd Hsz; simpl; [intuition congruence|].
  destruct Hc as (Hlo' & Hsz' & -> & Hc).
  assert (iend v1 - 1 <> iend v - 1) as Hne.
  { destruct (Hd (iend v1 - 1) v1); [by left| |]; unfold iend in *; lia. }
  unfold less, Z_less. destruct (iend v1 - 1 <? iend v - 1) eqn:E1.
  - simpl. rewrite (IH _ Hc); [|intros; eapply Hd; by right|done]. intuition congruence.
  - destruct (iend v - 1 <? iend v1 - 1) eqn:E2; [|lia]. simpl. intuition congruence.
Qed.
End interval_map.

(** The chain only depends on the positions and sizes of the values it holds. *)
Lemma chain_ext {V W} (off size : V -> Z) (off' size' : W -> Z) lo (m : stdmap Z V) (m' : stdmap Z W) :
  Forall2 (fun e e' => e.1 = e'.1 /\ off e.2 = off' e'.2 /\ size e.2 = size' e'.2) m m' ->
  interval_chain off size lo m -> interval_chain off' size' lo m'.
Proof.
  intros HF. revert lo. induction HF as [|[k v] [k' v'] m m' (Hk & Ho & Hs) HF IH]; [done|].
  simpl in *. unfold iend. rewrite <- Ho, <- Hs, <- Hk. intros lo (? & ? & ? & Hc).
  repeat split; try done. by apply IH.
Qed.

Lemma chain_ext_id {V} (off size off' size' : V -> Z) lo (m : stdmap Z V) :
  (forall k v, In (k, v) m -> off v = off' v /\ size v = size' v) ->
  interval_chain off size lo m -> interval_chain off' size' lo m.
Proof.
  intros He. apply chain_ext. apply Forall2_same_length_lookup. split; [done|].
  intros i [k v] [k' v'] H1 H2. simplify_eq. simpl. split; [done|]. eapply He.
  apply list_elem_of_In. by eapply list_elem_of_lookup_2.
Qed.

Lemma chain_end_ext_id {V} (off size off' size' : V -> Z) lo (m : stdmap Z V) :
  (forall k v, In (k, v) m -> off v = off' v /\ size v = size' v) ->
  chain_end off size lo m = chain_end off' size' lo m.
Proof.
  revert lo. induction m as [|[k v] m IH]; intros lo He; simpl; [done|].
  destruct (He k v) as [E1 E2]; [by left|]. unfold iend. rewrite E1, E2.
  apply IH. intros k' v' Hin. apply (He k'). by right.
Qed.
