(* ===== verification/ConsistencyTracker.v ===== *)
(** * ConsistencyTracker

    Model of src/src/server/core/ConsistencyTracker.{hpp,cpp}: the list of the
    ranges mapped by the clients of one object.  Every public operation runs
    under the object's mutex, so an execution is a sequence of whole operations
    issued by any clients in any order ([tracker_step], [reachable]). *)

From S2P Require Import Prelude.

Module ConsistencyTracker.

Inductive ConsistencyAccessMode : Type :=
| CONSIST_ACCESS_MODE_READ
| CONSIST_ACCESS_MODE_WRITE.

#[export] Instance ConsistencyAccessMode_eq_dec : EqDecision ConsistencyAccessMode.
Proof. solve_decision. Defined.

Record ConsistencyRange : Type := mkRange {
  tcpClientId : Z;
  id : Z;
  offset : Z;
  size : Z;
  accessMode : ConsistencyAccessMode;
}.

#[export] Instance ConsistencyRange_eq_dec : EqDecision ConsistencyRange.
Proof. solve_decision. Defined.

Record Tracker : Type := mkTracker {
  ranges : list ConsistencyRange;
  nextId : Z;
}.

Definition mode_eqb (a b : ConsistencyAccessMode) : bool := bool_decide (a = b).

(** ConsistencyTracker::ConsistencyTracker *)
Definition init : Tracker := mkTracker [] 1.

(** ConsistencyTracker::overlap *)
Definition overlap (offset1 size1 offset2 size2 : Z) : bool :=
  if (offset1 >=? offset2) && (offset1 <? offset2 +u size2) then true
  else if (offset2 >=? offset1) && (offset2 <? offset1 +u size1) then true
  else false.

(** The test of the loop of ConsistencyTracker::hasCollision. *)
Definition collides (off sz : Z) (mode : ConsistencyAccessMode) (it : ConsistencyRange) : bool :=
  overlap off sz (offset it) (size it)
  && (negb (mode_eqb mode (accessMode it)) || mode_eqb (accessMode it) CONSIST_ACCESS_MODE_WRITE).

(** ConsistencyTracker::hasCollision *)
Definition hasCollision (t : Tracker) (off sz : Z) (mode : ConsistencyAccessMode) : bool :=
  existsb (collides off sz mode) (ranges t).

(** ConsistencyTracker::registerRange *)
Definition registerRange (client off sz : Z) (mode : ConsistencyAccessMode) (t : Tracker)
  : Z * Tracker :=
  if hasCollision t off sz mode then (-1, t)
  else
    let range := mkRange client (nextId t) off sz mode in
    (id range, mkTracker (ranges t ++ [range]) (i32 (nextId t + 1))).

(** The test of the loop of ConsistencyTracker::unregisterRange. *)
Definition matches (client rid off sz : Z) (mode : ConsistencyAccessMode) (it : ConsistencyRange)
  : bool :=
  (tcpClientId it =? client) && (offset it =? off) && (size it =? sz)
  && mode_eqb (accessMode it) mode && (id it =? rid).

(** [ranges.erase(it)] of the first match; [None] when the loop finds none. *)
Fixpoint erase_first (p : ConsistencyRange -> bool) (l : list ConsistencyRange)
  : option (list ConsistencyRange) :=
  match l with
  | [] => None
  | x :: l' => if p x then Some l' else cons x <$> erase_first p l'
  end.

(** ConsistencyTracker::unregisterRange *)
Definition unregisterRange (client rid off sz : Z) (mode : ConsistencyAccessMode) (t : Tracker)
  : bool * Tracker :=
  match erase_first (matches client rid off sz mode) (ranges t) with
  | Some l => (true, mkTracker l (nextId t))
  | None => (false, t)
  end.

(** The erasing loop of ConsistencyTracker::clientDisconnect. *)
Fixpoint erase_client (client : Z) (l : list ConsistencyRange) : list ConsistencyRange :=
  match l with
  | [] => []
  | it :: l' => if tcpClientId it =? client then erase_client client l' else it :: erase_client client l'
  end.

(** ConsistencyTracker::clientDisconnect *)
Definition clientDisconnect (client : Z) (t : Tracker) : Tracker :=
  mkTracker (erase_client client (ranges t)) (nextId t).

(** ** Abstract specification *)

(** Two byte ranges meet. *)
Definition meets (o1 s1 o2 s2 : Z) : Prop := exists x, o1 <= x < o1 + s1 /\ o2 <= x < o2 + s2.

(** The end of the range, offset + size, is a size_t. *)
Definition bounded (r : ConsistencyRange) : Prop := 0 <= offset r /\ offset r + size r < two64.

(** Two mappings conflict when they share a byte and one of them may write. *)
Definition conflict (a b : ConsistencyRange) : Prop :=
  meets (offset a) (size a) (offset b) (size b) /\
  (accessMode a = CONSIST_ACCESS_MODE_WRITE \/ accessMode b = CONSIST_ACCESS_MODE_WRITE).

(** No two registered mappings conflict, but for those that reach the end of the
    addresses. *)
Definition exclusive (t : Tracker) : Prop :=
  ForallOrdPairs (fun a b => bounded a -> bounded b -> ~ conflict a b) (ranges t).

(** The test of the code for two mappings, which overlap computes with sums that wrap. *)
Definition clash (a b : ConsistencyRange) : Prop :=
  overlap (offset a) (size a) (offset b) (size b) = true /\
  (accessMode a = CONSIST_ACCESS_MODE_WRITE \/ accessMode b = CONSIST_ACCESS_MODE_WRITE).

Record ids_ok (t : Tracker) : Prop := {
  ids_nodup : NoDup (id <$> ranges t);
  ids_bound : Forall (fun r => 1 <= id r < nextId t) (ranges t);
  ids_next : 1 <= nextId t;
}.

(** One operation of one client, as run under the mutex. *)
Inductive tracker_op : Type :=
| OpRegister (client off sz : Z) (mode : ConsistencyAccessMode)
| OpUnregister (client rid off sz : Z) (mode : ConsistencyAccessMode)
| OpDisconnect (client : Z).

Definition run_op (op : tracker_op) (t : Tracker) : Tracker :=
  match op with
  | OpRegister client off sz mode => (registerRange client off sz mode t).2
  | OpUnregister client rid off sz mode => (unregisterRange client rid off sz mode t).2
  | OpDisconnect client => clientDisconnect client t
  end.

(** The states an object's tracker takes, with the number of operations run. *)
Inductive reachable : nat -> Tracker -> Prop :=
| reach_init : reachable 0 init
| reach_step n t op : reachable n t -> reachable (S n) (run_op op t).

(** ** Lemmas *)

Lemma mode_eqb_eq a b : mode_eqb a b = true <-> a = b.
Proof. unfold mode_eqb. apply bool_decide_eq_true. Qed.

Lemma mode_eqb_refl a : mode_eqb a a = true.
Proof. by apply mode_eqb_eq. Qed.

Lemma overlap_true o1 s1 o2 s2 :
  overlap o1 s1 o2 s2 = true <->
  (o2 <= o1 < o2 +u s2) \/ (o1 <= o2 < o1 +u s1).
Proof. unfold overlap. repeat case_match; lia. Qed.

Lemma overlap_sym o1 s1 o2 s2 : overlap o1 s1 o2 s2 = overlap o2 s2 o1 s1.
Proof. apply eq_true_iff_eq. rewrite !overlap_true. tauto. Qed.

(** [overlap] decides whether two non-empty ranges share a byte, as long as
    their ends do not wrap around 2^64. *)
Lemma overlap_meets o1 s1 o2 s2 :
  0 <= o1 -> 0 < s1 -> o1 + s1 < two64 -> 0 <= o2 -> 0 < s2 -> o2 + s2 < two64 ->
  overlap o1 s1 o2 s2 = true <-> meets o1 s1 o2 s2.
Proof.
  intros. rewrite overlap_true. rewrite !u64_small by lia. unfold meets. split.
  - intros [?|?]; [exists o1|exists o2]; lia.
  - intros (x & ? & ?). lia.
Qed.

(** For bounded ranges the test of the code misses no conflict, and refuses nothing else
    when they are not empty. *)
Lemma conflict_clash a b : bounded a -> bounded b -> conflict a b -> clash a b.
Proof.
  intros [Ha Ha'] [Hb Hb'] [(x & Hx & Hy) Hm]. split; [|done]. apply overlap_meets; try lia. by exists x.
Qed.
Lemma clash_conflict a b : bounded a -> bounded b -> 0 < size a -> 0 < size b -> clash a b <-> conflict a b.
Proof. intros [] [] ? ?. unfold clash, conflict. by rewrite overlap_meets. Qed.

Lemma collides_clash client rid off sz mode it :
  collides off sz mode it = true <-> clash it (mkRange client rid off sz mode).
Proof.
  unfold collides, clash. simpl.
  rewrite andb_true_iff, orb_true_iff, negb_true_iff, (overlap_sym off).
  assert (mode_eqb mode (accessMode it) = false <-> mode <> accessMode it) as ->.
  { rewrite <- not_true_iff_false, mode_eqb_eq. tauto. }
  rewrite mode_eqb_eq.
  destruct mode, (accessMode it); intuition congruence.
Qed.

Lemma hasCollision_false t client rid off sz mode :
  hasCollision t off sz mode = false <->
  Forall (fun it => ~ clash it (mkRange client rid off sz mode)) (ranges t).
Proof.
  unfold hasCollision. rewrite Forall_forall. split.
  - intros Hf it Hin Hc. apply (collides_clash client rid) in Hc.
    assert (existsb (collides off sz mode) (ranges t) = true); [|congruence].
    apply existsb_exists. exists it. split; [by apply list_elem_of_In|done].
  - intros Hall. apply not_true_iff_false. intros (it & Hin & Hc)%existsb_exists.
    apply (collides_clash client rid) in Hc. eapply Hall; [|done]. by apply list_elem_of_In.
Qed.

Lemma hasCollision_true t client rid off sz mode :
  hasCollision t off sz mode = true <->
  exists it, it ∈ ranges t /\ clash it (mkRange client rid off sz mode).
Proof.
  unfold hasCollision. rewrite existsb_exists.
  setoid_rewrite list_elem_of_In. by setoid_rewrite <- collides_clash.
Qed.

Lemma erase_first_Some p l l' :
  erase_first p l = Some l' ->
  exists l1 x l2, l = l1 ++ x :: l2 /\ l' = l1 ++ l2 /\ p x = true /\ Forall (fun y => p y = false) l1.
Proof.
  revert l'. induction l as [|y l IH]; intros l' Hl; simpl in Hl; [done|].
  destruct (p y) eqn:Hy; simplify_eq.
  - exists [], y, l'. by repeat split.
  - destruct (erase_first p l) as [l0|] eqn:E; simplify_eq/=.
    destruct (IH l0 eq_refl) as (l1 & x & l2 & -> & -> & Hx & H1).
    exists (y :: l1), x, l2. repeat split; try done. by constructor.
Qed.

Lemma erase_first_None p l : erase_first p l = None <-> Forall (fun y => p y = false) l.
Proof.
  induction l as [|y l IH]; simpl; [split; constructor|].
  rewrite Forall_cons, <- IH. destruct (p y) eqn:Hy; [by split; [|intros []]|].
  destruct (erase_first p l); simpl; by split; [|intros []].
Qed.

Lemma erase_first_app p l x :
  Forall (fun y => p y = false) l -> p x = true -> erase_first p (l ++ [x]) = Some l.
Proof.
  intros Hl Hx. induction l as [|y l IH]; simpl; [by rewrite Hx|].
  apply Forall_cons in Hl as [-> Hl]. by rewrite IH.
Qed.

Lemma erase_client_filter client l :
  erase_client client l = filter (fun it => tcpClientId it <> client) l.
Proof.
  induction l as [|x l IH]; [done|]. simpl. rewrite filter_cons, IH.
  destruct (Z.eqb_spec (tcpClientId x) client); case_decide; done.
Qed.

Lemma ForallOrdPairs_sublist {A} (R : A -> A -> Prop) l l' :
  sublist l' l -> ForallOrdPairs R l -> ForallOrdPairs R l'.
Proof.
  induction 1 as [|x l1 l2 Hs IH|x l1 l2 Hs IH]; intros HR; inversion_clear HR; auto; constructor; auto.
  by eapply Forall_sub.
Qed.

Lemma ForallOrdPairs_snoc {A} (R : A -> A -> Prop) l x :
  ForallOrdPairs R l -> Forall (fun y => R y x) l -> ForallOrdPairs R (l ++ [x]).
Proof.
  induction 1 as [|y l Hy Hl IH]; intros Hx; simpl; [by repeat constructor|].
  apply Forall_cons in Hx as [? ?]. constructor; [|by apply IH].
  apply Forall_app. by repeat constructor.
Qed.

Lemma registerRange_cases client off sz mode t :
  (Forall (fun it => ~ clash it (mkRange client (nextId t) off sz mode)) (ranges t) /\
   registerRange client off sz mode t =
     (nextId t, mkTracker (ranges t ++ [mkRange client (nextId t) off sz mode]) (i32 (nextId t + 1))))
  \/ (Exists (fun it => clash it (mkRange client (nextId t) off sz mode)) (ranges t) /\
      registerRange client off sz mode t = (-1, t)).
Proof.
  unfold registerRange. destruct (hasCollision t off sz mode) eqn:Hc.
  - right. split; [|done]. apply existsb_exists in Hc as (it & Hin & Hc).
    apply Exists_exists. exists it. split; [by apply list_elem_of_In|].
    by apply (collides_clash client (nextId t)).
  - left. split; [|done]. by apply hasCollision_false.
Qed.

Lemma registerRange_conflict client off sz mode t :
  let proper r := bounded r /\ 0 < size r in
  let new := mkRange client (nextId t) off sz mode in
  Forall proper (ranges t) -> proper new ->
  (Forall (fun it => ~ conflict it new) (ranges t) /\
   registerRange client off sz mode t = (nextId t, mkTracker (ranges t ++ [new]) (i32 (nextId t + 1))))
  \/ (Exists (fun it => conflict it new) (ranges t) /\ registerRange client off sz mode t = (-1, t)).
Proof.
  intros proper new Hp [Hb Hz]. assert (forall it, it ∈ ranges t -> clash it new <-> conflict it new) as Hiff.
  { rewrite Forall_forall in Hp. intros it [? ?]%Hp. by apply clash_conflict. }
  destruct (registerRange_cases client off sz mode t) as [[Hno E]|[Hex E]]; [left|right]; (split; [|exact E]).
  - rewrite Forall_forall in *. intros it Hin Hc. by apply (Hno it Hin), Hiff.
  - rewrite Exists_exists in *. destruct Hex as (it & Hin & Hc). exists it. split; [done|]. by apply Hiff.
Qed.

Lemma unregisterRange_sublist client rid off sz mode t :
  sublist (ranges (unregisterRange client rid off sz mode t).2) (ranges t).
Proof.
  unfold unregisterRange. destruct (erase_first _ _) as [l|] eqn:E; [|done]. simpl.
  apply erase_first_Some in E as (l1 & x & l2 & -> & -> & _).
  apply sublist_app; [done|]. by constructor.
Qed.

Lemma clientDisconnect_sublist client t :
  sublist (ranges (clientDisconnect client t)) (ranges t).
Proof. simpl. rewrite erase_client_filter. apply sublist_filter. Qed.

Lemma run_op_exclusive op t : exclusive t -> exclusive (run_op op t).
Proof.
  intros Hex. unfold exclusive in *. destruct op as [client off sz mode|client rid off sz mode|client]; simpl.
  - destruct (registerRange_cases client off sz mode t) as [[Hno ->]|[_ ->]]; [|done].
    apply ForallOrdPairs_snoc; [done|]. eapply Forall_impl; [exact Hno|]. intros it Hc Hb Hb' Hx. by apply Hc, conflict_clash.
  - eapply ForallOrdPairs_sublist; [apply unregisterRange_sublist|done].
  - eapply ForallOrdPairs_sublist; [apply (clientDisconnect_sublist client t)|done].
Qed.

(** What exclusivity says of two of the mappings. *)
Lemma exclusive_pair t i j a b :
  exclusive t -> (i < j)%nat -> ranges t !! i = Some a -> ranges t !! j = Some b -> bounded a -> bounded b -> ~ conflict a b.
Proof.
  unfold exclusive. intros Hex. revert i j. induction Hex as [|r l Hr _ IH]; intros i j Hij Hi Hj; [done|].
  destruct j as [|j]; [lia|]. simpl in Hj. destruct i as [|i]; simpl in Hi; [|by apply (IH i j); [lia|..]].
  injection Hi as ->. rewrite Forall_forall in Hr. apply Hr. by eapply list_elem_of_lookup_2.
Qed.

Lemma ids_ok_sublist l t :
  sublist l (ranges t) -> ids_ok t -> ids_ok (mkTracker l (nextId t)).
Proof.
  intros Hs [Hnd Hb Hn]. constructor; [|  |done]; simpl.
  - eapply sublist_NoDup; [exact Hnd|]. by apply sublist_map.
  - by eapply Forall_sub.
Qed.

Lemma registerRange_ids client off sz mode t :
  ids_ok t -> nextId t < 2147483647 -> ids_ok (registerRange client off sz mode t).2.
Proof.
  intros Hok Hn. destruct (registerRange_cases client off sz mode t) as [[_ ->]|[_ ->]]; [|done].
  destruct Hok as [Hnd Hb H1]. rewrite i32_small by lia. constructor; simpl; [| |lia].
  - rewrite fmap_app. apply NoDup_app. split; [done|]. split; [|apply NoDup_singleton].
    intros x (r & -> & Hr)%list_elem_of_fmap [=]%list_elem_of_singleton.
    rewrite Forall_forall in Hb. specialize (Hb r Hr). lia.
  - apply Forall_app. split; [|constructor; [simpl; lia|constructor]].
    eapply Forall_impl; [exact Hb|]. simpl. lia.
Qed.

Lemma registerRange_nextId client off sz mode t :
  1 <= nextId t < 2147483647 ->
  nextId t <= nextId (registerRange client off sz mode t).2 <= nextId t + 1.
Proof.
  intros Hn. destruct (registerRange_cases client off sz mode t) as [[_ ->]|[_ ->]]; simpl; [|lia].
  rewrite i32_small; lia.
Qed.

Lemma run_op_ids op t :
  ids_ok t -> nextId t < 2147483647 ->
  ids_ok (run_op op t) /\ nextId (run_op op t) <= nextId t + 1.
Proof.
  intros Hok Hn. destruct op as [client off sz mode|client rid off sz mode|client]; simpl.
  - split; [by apply registerRange_ids|].
    apply registerRange_nextId. destruct Hok; lia.
  - unfold unregisterRange. destruct (erase_first _ _) as [l|] eqn:E; simpl; [|split; [done|lia]].
    split; [|lia]. apply ids_ok_sublist; [|done].
    pose proof (unregisterRange_sublist client rid off sz mode t) as Hs.
    unfold unregisterRange in Hs. by rewrite E in Hs.
  - split; [|lia]. apply ids_ok_sublist; [|done]. apply (clientDisconnect_sublist client t).
Qed.

Lemma matches_self client rid off sz mode :
  matches client rid off sz mode (mkRange client rid off sz mode) = true.
Proof. unfold matches. simpl. rewrite !Z.eqb_refl, mode_eqb_refl. done. Qed.

Lemma matches_spec client rid off sz mode it :
  matches client rid off sz mode it = true <-> it = mkRange client rid off sz mode.
Proof.
  split; [|intros ->; apply matches_self].
  unfold matches. rewrite !andb_true_iff, !Z.eqb_eq, mode_eqb_eq. destruct it; simpl.
  intros ((((-> & ->) & ->) & ->) & ->). done.
Qed.

(** ** Properties *)

(** C14: write exclusivity.  Whatever the sequence of register, unregister and
    disconnect operations issued by the clients, when two of the mappings registered on
    the object share a byte [x], both are read mappings; the mappings are those whose
    end, offset + size, is below 2^64, where the sum of the code does not wrap. *)
Theorem tracker_exclusive n t i j a b x :
  reachable n t -> i <> j -> ranges t !! i = Some a -> ranges t !! j = Some b -> bounded a -> bounded b ->
  offset a <= x < offset a + size a -> offset b <= x < offset b + size b ->
  accessMode a = CONSIST_ACCESS_MODE_READ /\ accessMode b = CONSIST_ACCESS_MODE_READ.
Proof.
  intros Hr Hij Ha Hb Hba Hbb Hxa Hxb.
  assert (exclusive t) as Hex by (clear -Hr; induction Hr as [|n' t' op _ IH]; [constructor|]; by apply run_op_exclusive).
  assert (~ conflict a b /\ ~ conflict b a -> accessMode a = CONSIST_ACCESS_MODE_READ /\ accessMode b = CONSIST_ACCESS_MODE_READ) as Hmodes.
  { unfold conflict, meets. destruct (accessMode a), (accessMode b); naive_solver. }
  assert (forall a b, conflict a b -> conflict b a) as Hsym by (unfold conflict, meets; naive_solver).
  apply Hmodes. destruct (Nat.lt_total i j) as [Hlt|[?|Hlt]]; [|done|].
  - assert (~ conflict a b) as Hc by by eapply (exclusive_pair t i j). auto.
  - assert (~ conflict b a) as Hc by by eapply (exclusive_pair t j i). auto.
Qed.

Lemma tracker_exclusive_witness :
  let t := run_op (OpRegister 8 50 100 CONSIST_ACCESS_MODE_READ) (run_op (OpRegister 7 0 100 CONSIST_ACCESS_MODE_READ) init) in
  accessMode (mkRange 7 1 0 100 CONSIST_ACCESS_MODE_READ) = CONSIST_ACCESS_MODE_READ /\
  ranges t = [mkRange 7 1 0 100 CONSIST_ACCESS_MODE_READ; mkRange 8 2 50 100 CONSIST_ACCESS_MODE_READ].
Proof.
  intros t. split; [|reflexivity].
  apply (tracker_exclusive 2 t 0 1 (mkRange 7 1 0 100 CONSIST_ACCESS_MODE_READ) (mkRange 8 2 50 100 CONSIST_ACCESS_MODE_READ) 60);
    [by repeat constructor|done|reflexivity|reflexivity|..]; unfold bounded; simpl; rewrite ?two64_eq; lia.
Defined.

(** [registerRange] on every branch.  It fails with -1 and changes nothing
    exactly when a registered range overlaps it; otherwise it answers the next
    identifier, appends the new range and moves to the following identifier. *)
Theorem registerRange_spec client off sz mode t :
  let new := mkRange client (nextId t) off sz mode in
  (Exists (fun it => clash it new) (ranges t) -> registerRange client off sz mode t = (-1, t)) /\
  (~ Exists (fun it => clash it new) (ranges t) ->
   registerRange client off sz mode t =
     (nextId t, mkTracker (ranges t ++ [new]) (i32 (nextId t + 1)))).
Proof.
  intros new. destruct (registerRange_cases client off sz mode t) as [[Hno ->]|[Hex ->]].
  - split; [|done]. intros (it & Hin & Hc)%Exists_exists.
    rewrite Forall_forall in Hno. by destruct (Hno it Hin).
  - split; done.
Qed.

(** identifiers are unique.  As long as fewer than 2^31 - 2 operations ran,
    the registered ranges carry distinct positive identifiers below the next
    one, so an identifier answered to a client designates one mapping and is
    never mistaken for the error code -1. *)
Theorem tracker_ids n t :
  reachable n t -> Z.of_nat n < 2147483646 -> ids_ok t /\ nextId t <= 1 + Z.of_nat n.
Proof.
  induction 1 as [|n t op _ IH]; intros Hn.
  - split; [|done]. constructor; simpl; [constructor|constructor|lia].
  - destruct IH as [Hok Hid]; [lia|]. destruct (run_op_ids op t Hok) as [? ?]; [lia|].
    split; [done|lia].
Qed.

Lemma tracker_ids_witness :
  ids_ok (run_op (OpUnregister 7 1 0 100 CONSIST_ACCESS_MODE_READ)
            (run_op (OpRegister 7 0 100 CONSIST_ACCESS_MODE_READ) init)) /\
  nextId (run_op (OpUnregister 7 1 0 100 CONSIST_ACCESS_MODE_READ)
            (run_op (OpRegister 7 0 100 CONSIST_ACCESS_MODE_READ) init)) <= 3.
Proof. apply (tracker_ids 2); [by repeat constructor|done]. Defined.

(** register and unregister round trip.  In a tracker with unique
    identifiers, a client that registers a range and unregisters it with the
    answered identifier gets a success, and the registered ranges are again what
    they were before. *)
Theorem register_unregister client off sz mode t rid t' :
  ids_ok t -> registerRange client off sz mode t = (rid, t') -> rid <> -1 ->
  unregisterRange client rid off sz mode t' = (true, mkTracker (ranges t) (nextId t')).
Proof.
  intros Hok Hreg Hrid.
  destruct (registerRange_cases client off sz mode t) as [[_ E]|[_ E]]; rewrite E in Hreg; simplify_eq.
  unfold unregisterRange. simpl. rewrite erase_first_app; [done| |apply matches_self].
  apply Forall_forall. intros r Hr. apply not_true_iff_false. rewrite matches_spec. intros ->.
  pose proof (ids_bound _ Hok) as Hb. rewrite Forall_forall in Hb. specialize (Hb _ Hr).
  simpl in Hb. lia.
Qed.

Lemma register_unregister_witness :
  unregisterRange 7 1 0 100 CONSIST_ACCESS_MODE_WRITE
    (registerRange 7 0 100 CONSIST_ACCESS_MODE_WRITE init).2 = (true, mkTracker [] 2).
Proof.
  apply (register_unregister 7 0 100 CONSIST_ACCESS_MODE_WRITE init); [|reflexivity|done].
  by constructor; [constructor|constructor|].
Defined.

(** a disconnection releases the client's mappings and only them.  After it
    no range of the client is left, the ranges of the other clients are kept in
    order, and a range collides exactly when it conflicts with a range of
    another client. *)
Theorem clientDisconnect_spec client t c rid off sz mode :
  let t' := clientDisconnect client t in
  (forall r, r ∈ ranges t' <-> r ∈ ranges t /\ tcpClientId r <> client) /\
  sublist (ranges t') (ranges t) /\ nextId t' = nextId t /\
  (hasCollision t' off sz mode = true <->
   exists r, r ∈ ranges t /\ tcpClientId r <> client /\ clash r (mkRange c rid off sz mode)).
Proof.
  intros t'. assert (forall r, r ∈ ranges t' <-> r ∈ ranges t /\ tcpClientId r <> client) as Hin.
  { intros r. simpl. rewrite erase_client_filter, list_elem_of_filter. tauto. }
  split; [exact Hin|]. split; [apply clientDisconnect_sublist|]. split; [done|].
  rewrite (hasCollision_true t' c rid). setoid_rewrite Hin. clear.
  split; [intros (r & [? ?] & ?)|intros (r & ? & ? & ?)]; exists r; tauto.
Qed.

Lemma overlap_meets_witness :
  overlap 0 4096 4095 10 = true <-> meets 0 4096 4095 10.
Proof. apply overlap_meets; rewrite ?two64_eq; lia. Defined.

(** a range that ends at 2^64 is not protected: its end wraps to 0 and
    [overlap] does not even see that it meets itself, so two clients can both
    map it in write mode. *)
Theorem overlap_wraps :
  overlap (two64 - 4096) 4096 (two64 - 4096) 4096 = false /\
  (registerRange 2 (two64 - 4096) 4096 CONSIST_ACCESS_MODE_WRITE
     (registerRange 1 (two64 - 4096) 4096 CONSIST_ACCESS_MODE_WRITE init).2).1 = 2.
Proof. rewrite two64_eq. by vm_compute. Qed.

End ConsistencyTracker.
