(* ===== verification/Serializer.v ===== *)
(** * Serializer

    Model of src/src/base/network/Serializer.hpp and Serializer_inlined.hpp: one
    [apply] method per field type, whose meaning (pack, unpack, print, measure)
    is chosen by the action the serializer was built with.  The serializer reads
    and writes the process memory ([Memory.mem]) through its buffer pointer; an
    [apply] on a field returns the field's new value, which only unpacking
    changes.  The output stream of the printing action is the list of the items
    inserted in it. *)

From S2P Require Import Prelude Memory.

Module Serializer.

Inductive SerializerAction : Type :=
| SERIALIZER_PACK
| SERIALIZER_UNPACK
| SERIALIZER_STRINGIFY
| SERIALIZER_SIZE
| SERIALIZER_UNSET.

#[export] Instance SerializerAction_eq_dec : EqDecision SerializerAction.
Proof. solve_decision. Defined.

(** What is inserted in the [std::ostream]. *)
Inductive out_item : Type :=
| OStr (s : string)
| OInt (z : Z)
| OPtr (p : Z)
| OMember            (** the address of a member of the printed structure *)
| OBytes (l : list byte)
| OQuote.  (** the character of code 34 *)

(** class SerializerBase *)
Record Ser : Type := mkSer {
  s_mem : mem;
  buffer : Z;
  size : Z;
  cursor : Z;
  action : SerializerAction;
  out : list out_item;
  outFirst : bool;
  root : bool;
}.

Definition set_mem (f : mem -> mem) (st : Ser) : Ser :=
  mkSer (f (s_mem st)) (buffer st) (size st) (cursor st) (action st) (out st) (outFirst st) (root st).
Definition set_cursor (c : Z) (st : Ser) : Ser :=
  mkSer (s_mem st) (buffer st) (size st) c (action st) (out st) (outFirst st) (root st).
Definition set_outFirst (b : bool) (st : Ser) : Ser :=
  mkSer (s_mem st) (buffer st) (size st) (cursor st) (action st) (out st) b (root st).
Definition set_root (b : bool) (st : Ser) : Ser :=
  mkSer (s_mem st) (buffer st) (size st) (cursor st) (action st) (out st) (outFirst st) b.
Definition emit (l : list out_item) (st : Ser) : Ser :=
  mkSer (s_mem st) (buffer st) (size st) (cursor st) (action st) (out st ++ l) (outFirst st) (root st).

(** SERIALIZER_ACTION_DEFINED *)
Definition action_defined (a : SerializerAction) : bool :=
  match a with SERIALIZER_UNSET => false | _ => true end.

(** SerializerBase::SerializerBase(void * buffer, size_t size, SerializerAction action) *)
Definition init_buffer (m : mem) (buf sz : Z) (act : SerializerAction) : res Ser :=
  let checked := match act with
                 | SERIALIZER_UNSET | SERIALIZER_SIZE => true
                 | _ => negb (buf =? 0) && (sz >? 0)
                 end in
  if negb checked then Abort FAssert
  else if bool_decide (act = SERIALIZER_STRINGIFY) then Abort FAssert
  else Ok (mkSer m buf sz 0 act [] false true).

(** SerializerBase::SerializerBase(std::ostream * out) *)
Definition init_stream (m : mem) : Ser :=
  mkSer m 0 0 0 SERIALIZER_STRINGIFY [] true true.

(** SerializerBase::checkSize *)
Definition checkSize (fieldName : string) (sz : Z) : M Ser unit :=
  let! st := get in
  if bool_decide (action st = SERIALIZER_STRINGIFY) then ret tt
  else assume_ (cursor st +u sz <=? size st).

(** [outFirst ? "" : ", "] followed by the field name. *)
Definition field_prefix (st : Ser) (fieldName : string) : list out_item :=
  [OStr (if outFirst st then "" else ", "); OStr fieldName; OStr ": "].

(** The common body of the [apply] overloads on scalar types: [n] is
    [sizeof(value)], [enc] the stored representation, [dec] its reading. *)
Definition apply_scalar {A} (n : Z) (enc : A -> list byte) (dec : list byte -> A)
    (print : A -> list out_item) (fieldName : string) (value : A) : M Ser A :=
  let! st := get in
  assert_ (action_defined (action st)) ;;
  checkSize fieldName n ;;
  let! value' :=
    match action st with
    | SERIALIZER_PACK =>
        modify (set_mem (fun m => wr m (buffer st + cursor st) (enc value))) ;; ret value
    | SERIALIZER_UNPACK => ret (dec (rd (s_mem st) (buffer st + cursor st) n))
    | SERIALIZER_STRINGIFY => modify (emit (field_prefix st fieldName ++ print value)) ;; ret value
    | SERIALIZER_SIZE => ret value
    | SERIALIZER_UNSET => abort FAssume
    end in
  modify (fun st => set_outFirst false (set_cursor (cursor st +u n) st)) ;;
  ret value'.

(** SerializerBase::apply(const char * fieldName, bool & value) *)
Definition apply_bool : string -> bool -> M Ser bool :=
  apply_scalar 1 (fun b : bool => [if b then x01 else x00])
    (fun l => negb (le_combine l =? 0)) (fun b => [OStr (if b then "true" else "false")]).

(** SerializerBase::apply(const char * fieldName, uint32_t & value) *)
Definition apply_u32 : string -> Z -> M Ser Z :=
  apply_scalar 4 (le_split 4) le_combine (fun v => [OInt v]).

(** SerializerBase::apply(const char * fieldName, int32_t & value) *)
Definition apply_i32 : string -> Z -> M Ser Z :=
  apply_scalar 4 (le_split 4) (fun l => i32 (le_combine l)) (fun v => [OInt v]).

(** SerializerBase::apply(const char * fieldName, int64_t & value) *)
Definition apply_i64 : string -> Z -> M Ser Z :=
  apply_scalar 8 (le_split 8) (fun l => i64 (le_combine l)) (fun v => [OInt v]).

(** SerializerBase::apply(const char * fieldName, uint64_t & value) *)
Definition apply_u64 : string -> Z -> M Ser Z :=
  apply_scalar 8 (le_split 8) le_combine (fun v => [OInt v]).

(** SerializerBase::apply(const char * fieldName, void * buffer, size_t size),
    on a buffer of the process memory. *)
Definition apply_raw (fieldName : string) (ptr n : Z) : M Ser unit :=
  assert_ (negb (ptr =? 0)) ;;
  let! st := get in
  assert_ (action_defined (action st)) ;;
  checkSize fieldName n ;;
  match action st with
  | SERIALIZER_PACK => modify (set_mem (fun m => memcpy m (buffer st + cursor st) ptr n))
  | SERIALIZER_UNPACK => modify (set_mem (fun m => memcpy m ptr (buffer st + cursor st) n))
  | SERIALIZER_STRINGIFY => modify (emit (field_prefix st fieldName ++ [OPtr ptr]))
  | SERIALIZER_SIZE => ret tt
  | SERIALIZER_UNSET => abort FAssume
  end ;;
  modify (fun st => set_outFirst false (set_cursor (cursor st +u n) st)).

(** The same method on an array member of the structure being serialized, whose
    bytes are the value (printing shows its address). *)
Definition apply_array (n : Z) : string -> list byte -> M Ser (list byte) :=
  apply_scalar n (fun l => l) (fun l => l) (fun _ => [OMember]).

(** SerializerBase::apply(const char * fieldName, const void * buffer, size_t size),
    where the [size] bytes at [ptr] are [data]. *)
Definition apply_const_raw (fieldName : string) (ptr : Z) (data : list byte) : M Ser unit :=
  assert_ (negb (ptr =? 0)) ;;
  let! st := get in
  assert_ (action_defined (action st)) ;;
  assert_ (negb (bool_decide (action st = SERIALIZER_UNPACK))) ;;
  checkSize fieldName (Z.of_nat (length data)) ;;
  match action st with
  | SERIALIZER_PACK => modify (set_mem (fun m => wr m (buffer st + cursor st) data))
  | SERIALIZER_UNPACK => abort FAssume
  | SERIALIZER_STRINGIFY => modify (emit (field_prefix st fieldName ++ [OQuote; OPtr ptr; OQuote]))
  | SERIALIZER_SIZE => ret tt
  | SERIALIZER_UNSET => abort FAssume
  end ;;
  modify (fun st => set_outFirst false (set_cursor (cursor st +u Z.of_nat (length data)) st)).

(** SerializerBase::serializeOrPoint *)
Definition serializeOrPoint (fieldName : string) (ptr n : Z) : M Ser Z :=
  let! st := get in
  assert_ (action_defined (action st)) ;;
  checkSize fieldName n ;;
  let! ptr' :=
    match action st with
    | SERIALIZER_PACK =>
        modify (set_mem (fun m => memcpy m (buffer st + cursor st) ptr n)) ;; ret ptr
    | SERIALIZER_UNPACK => ret (buffer st + cursor st)
    | SERIALIZER_STRINGIFY => modify (emit (field_prefix st fieldName ++ [OPtr ptr])) ;; ret ptr
    | SERIALIZER_SIZE => ret ptr
    | SERIALIZER_UNSET => abort FAssume
    end in
  modify (fun st => set_cursor (cursor st +u n) st) ;;
  ret ptr'.

(** Where the C++ library keeps the characters of a string: [value.c_str()],
    which is never null. *)
Class StringStorage := {
  c_str : list byte -> Z;
  c_str_nonnull : forall l, c_str l <> 0;
}.

(** SerializerBase::apply(const char * fieldName, const std::string & value) *)
Definition apply_const_string `{StringStorage} (fieldName : string) (value : list byte) : M Ser unit :=
  let! st := get in
  assert_ (action_defined (action st)) ;;
  assert_ (negb (bool_decide (action st = SERIALIZER_UNPACK))) ;;
  match action st with
  | SERIALIZER_PACK =>
      let len := Z.of_nat (length value) +u 1 in
      checkSize fieldName (4 +u len) ;;
      let! _ := apply_u64 fieldName len in
      apply_const_raw fieldName (c_str value) (value ++ [x00])
  | SERIALIZER_UNPACK => abort FAssume
  | SERIALIZER_STRINGIFY => modify (emit (field_prefix st fieldName ++ [OQuote; OBytes value; OQuote]))
  | SERIALIZER_SIZE => ret tt
  | SERIALIZER_UNSET => abort FAssume
  end ;;
  modify (set_outFirst false).

(** [value = str]: the bytes up to the first null one.  [None] when there is
    none in [l], the rest of the buffer: the copy would run past it. *)
Fixpoint c_string (l : list byte) : option (list byte) :=
  match l with
  | [] => None
  | b :: l' => if decide (b = x00) then Some [] else cons b <$> c_string l'
  end.

(** The SERIALIZER_UNPACK case of the next method, once the length is known. *)
Definition load_string (fieldName : string) (len : Z) : M Ser (list byte) :=
  checkSize fieldName len ;;
  let! st1 := get in
  let str := buffer st1 + cursor st1 in
  assume_ (bool_decide (s_mem st1 (u64 (str + (len -u 1))) = x00)) ;;
  let! v := of_option FOverrun (c_string (rd (s_mem st1) str (size st1 - cursor st1))) in
  modify (fun st => set_cursor (cursor st +u len) st) ;;
  ret v.

(** SerializerBase::apply(const char * fieldName, std::string & value) *)
Definition apply_string `{StringStorage} (fieldName : string) (value : list byte) : M Ser (list byte) :=
  let! st := get in
  assert_ (action_defined (action st)) ;;
  let! value' :=
    match action st with
    | SERIALIZER_PACK => apply_const_string fieldName value ;; ret value
    | SERIALIZER_UNPACK =>
        let! len := apply_u64 fieldName 0 in load_string fieldName len
    | SERIALIZER_STRINGIFY =>
        modify (emit (field_prefix st fieldName ++ [OQuote; OBytes value; OQuote])) ;; ret value
    | SERIALIZER_SIZE => ret value
    | SERIALIZER_UNSET => abort FAssume
    end in
  modify (set_outFirst false) ;;
  ret value'.

(** SerializerBase::apply(const char * fieldName, T & value): [def] is the
    structure's applySerializerDef. *)
Definition apply_struct {T} (def : T -> M Ser T) (fieldName : string) (value : T) : M Ser T :=
  let! st := get in
  (if bool_decide (action st = SERIALIZER_STRINGIFY) then
     modify (fun st =>
       set_outFirst true
         (emit [OStr (if outFirst st then "" else ", "); OStr (if root st then "" else fieldName);
                OStr (if root st then "" else ": "); OStr "{ "] st))
   else ret tt) ;;
  modify (set_root false) ;;
  let! value' := def value in
  let! st2 := get in
  (if bool_decide (action st2 = SERIALIZER_STRINGIFY) then
     modify (emit [OStr (if outFirst st2 then "" else " "); OStr "}"])
   else ret tt) ;;
  modify (set_outFirst false) ;;
  ret value'.

(** DeSerializer::pop *)
Definition pop {T} (def : T -> M Ser T) (value : T) : M Ser T := apply_struct def "pop" value.

(** SerializerBase::stringify *)
Definition stringify {T} (def : T -> M Ser T) (m : mem) (value : T) : res (list out_item) :=
  match apply_struct def "value" value (init_stream m) with
  | Ok (_, st) => Ok (out st)
  | Abort f => Abort f
  end.

(** SerializerBase::computeSize *)
Definition computeSize {T} (def : T -> M Ser T) (m : mem) (value : T) : res Z :=
  match init_buffer m 0 (two64 - 1) SERIALIZER_SIZE with
  | Ok st => match apply_struct def "value" value st with
             | Ok (_, st) => Ok (cursor st)
             | Abort f => Abort f
             end
  | Abort f => Abort f
  end.

(** ** Specification *)

(** The part of the serializer an [apply] never changes. *)
Definition same_config (st st' : Ser) : Prop :=
  buffer st' = buffer st /\ size st' = size st /\ action st' = action st.

(** [n] more bytes fit. *)
Definition room (st : Ser) (n : Z) : Prop :=
  0 <= cursor st /\ 0 <= n /\ cursor st + n <= size st < two64.

(** [st'] is [st] after packing the bytes [l]. *)
Definition packed (st : Ser) (l : list byte) (st' : Ser) : Prop :=
  same_config st st' /\ cursor st' = cursor st + Z.of_nat (length l) /\
  (forall a, s_mem st' a = wr (s_mem st) (buffer st + cursor st) l a).

(** [st'] is [st] after reading [n] bytes. *)
Definition skipped (st : Ser) (n : Z) (st' : Ser) : Prop :=
  same_config st st' /\ cursor st' = cursor st + n /\ s_mem st' = s_mem st.

Definition packs {A} (d : M Ser A) (a : A) (l : list byte) (st : Ser) : Prop :=
  exists st', d st = Ok (a, st') /\ packed st l st'.

Definition skips {A} (d : M Ser A) (a : A) (n : Z) (st : Ser) : Prop :=
  exists st', d st = Ok (a, st') /\ skipped st n st'.

(** A serializer about to unpack the bytes [l]. *)
Definition holds (st : Ser) (l : list byte) : Prop :=
  action st = SERIALIZER_UNPACK /\ room st (Z.of_nat (length l)) /\
  rd (s_mem st) (buffer st + cursor st) (Z.of_nat (length l)) = l.

(** A serializer about to pack [n] bytes, whether or not they fit. *)
Definition packing (st : Ser) (n : Z) : Prop :=
  action st = SERIALIZER_PACK /\ 0 <= cursor st <= size st /\ size st < two64 /\
  0 <= n /\ cursor st + n < two64.

(** Packing the bytes [l]: done when they fit, refused by [checkSize] otherwise. *)
Definition pack_spec {A} (d : M Ser A) (a : A) (l : list byte) (st : Ser) : Prop :=
  if decide (cursor st + Z.of_nat (length l) <= size st) then packs d a l st
  else d st = Abort FAssume.

Definition sizing (st : Ser) (n : Z) : Prop := action st = SERIALIZER_SIZE /\ room st n.

(** ** Lemmas *)

Lemma packed_trans st l st' l' st'' :
  packed st l st' -> packed st' l' st'' -> packed st (l ++ l') st''.
Proof.
  intros ((Hb & Hs & Ha) & Hc & Hm) ((Hb' & Hs' & Ha') & Hc' & Hm').
  repeat split; try congruence.
  - rewrite Hc', Hc, length_app. lia.
  - intros a. rewrite Hm', wr_app, Hb, Hc, Z.add_assoc.
    by apply wr_ext.
Qed.

Lemma packing_app st (l l' : list byte) :
  packing st (Z.of_nat (length (l ++ l'))) -> packing st (Z.of_nat (length l)).
Proof. rewrite length_app. unfold packing. intros (? & ? & ? & ? & ?). repeat split; try done; lia. Qed.

Lemma packed_packing st l st' (l' : list byte) :
  packed st l st' -> cursor st + Z.of_nat (length l) <= size st ->
  packing st (Z.of_nat (length l) + Z.of_nat (length l')) -> packing st' (Z.of_nat (length l')).
Proof.
  intros ((Hb & Hs & Ha) & Hc & _) Hle (Hact & ? & ? & ? & ?).
  split; [congruence|]. rewrite Hs, Hc. lia.
Qed.

Lemma pack_spec_seq {A B} (d : M Ser A) (k : A -> M Ser B) a b l l' st :
  packing st (Z.of_nat (length (l ++ l'))) ->
  (packing st (Z.of_nat (length l)) -> pack_spec d a l st) ->
  (forall st', packed st l st' -> packing st' (Z.of_nat (length l')) -> pack_spec (k a) b l' st') ->
  pack_spec (bind d k) b (l ++ l') st.
Proof.
  intros Hp Hd Hk. specialize (Hd (packing_app _ _ _ Hp)). unfold pack_spec in *.
  rewrite length_app, Nat2Z.inj_add in *. destruct (decide (_ <= _)) as [Hle|Hgt] in Hd.
  - destruct Hd as (st1 & E1 & P1).
    assert (packing st1 (Z.of_nat (length l'))) as Hp1 by by eapply packed_packing.
    specialize (Hk st1 P1 Hp1). pose proof P1 as ((Hb & Hs & Ha) & Hc & _). rewrite Hc, Hs in Hk.
    destruct (decide (_ <= _)) as [Hle'|Hgt'] in Hk.
    + rewrite decide_True by lia. destruct Hk as (st2 & E2 & P2).
      exists st2. split; [unfold bind; by rewrite E1|]. by eapply packed_trans.
    + rewrite decide_False by lia. unfold bind. by rewrite E1.
  - rewrite decide_False by lia. unfold bind. by rewrite Hd.
Qed.

Lemma holds_app st l l' : holds st (l ++ l') -> holds st l.
Proof.
  intros (Ha & (H1 & H2 & H3) & Hr). rewrite length_app in *.
  split; [done|]. split; [unfold room; lia|].
  rewrite Nat2Z.inj_add, rd_app in Hr by lia.
  apply app_inj_1 in Hr as [? _]; [done|]. rewrite rd_length_nat. lia.
Qed.

Lemma holds_skipped st l l' st' :
  holds st (l ++ l') -> skipped st (Z.of_nat (length l)) st' -> holds st' l'.
Proof.
  intros (Ha & (H1 & H2 & H3) & Hr) ((Hb & Hs & Hact) & Hc & Hm). rewrite length_app in *.
  split; [congruence|]. split; [unfold room; rewrite Hc, Hs; lia|].
  rewrite Nat2Z.inj_add, rd_app in Hr by lia.
  apply app_inj_1 in Hr as [_ Hr]; [|rewrite rd_length_nat; lia].
  rewrite Hm, Hb, Hc, Z.add_assoc. done.
Qed.

Lemma skipped_trans st n st' n' st'' :
  skipped st n st' -> skipped st' n' st'' -> skipped st (n + n') st''.
Proof.
  intros ((Hb & Hs & Ha) & Hc & Hm) ((Hb' & Hs' & Ha') & Hc' & Hm').
  repeat split; try congruence. lia.
Qed.

Lemma unpacks_seq {A B} (d : M Ser A) (k : A -> M Ser B) a b l l' st :
  holds st (l ++ l') ->
  (holds st l -> skips d a (Z.of_nat (length l)) st) ->
  (forall st', skipped st (Z.of_nat (length l)) st' -> holds st' l' ->
     skips (k a) b (Z.of_nat (length l')) st') ->
  skips (bind d k) b (Z.of_nat (length (l ++ l'))) st.
Proof.
  intros Hh Hd Hk. destruct (Hd (holds_app _ _ _ Hh)) as (st1 & E1 & P1).
  destruct (Hk st1 P1 (holds_skipped _ _ _ _ Hh P1)) as (st2 & E2 & P2).
  exists st2. split; [unfold bind; by rewrite E1|].
  rewrite length_app, Nat2Z.inj_add. by eapply skipped_trans.
Qed.

Lemma sizes_seq {A B} (d : M Ser A) (k : A -> M Ser B) a b n n' st :
  sizing st (n + n') -> 0 <= n -> 0 <= n' ->
  (sizing st n -> skips d a n st) ->
  (forall st', skipped st n st' -> sizing st' n' -> skips (k a) b n' st') ->
  skips (bind d k) b (n + n') st.
Proof.
  intros (Ha & H1 & H2 & H3) Hn Hn' Hd Hk.
  destruct Hd as (st1 & E1 & P1); [split; [done|unfold room; lia]|].
  destruct (Hk st1 P1) as (st2 & E2 & P2).
  { destruct P1 as ((Hb & Hs & Hact) & Hc & Hm). split; [congruence|]. unfold room. rewrite Hc, Hs. lia. }
  exists st2. split; [unfold bind; by rewrite E1|]. by eapply skipped_trans.
Qed.

Lemma packs_ret {A} (a : A) st : packs (ret a) a [] st.
Proof.
  exists st. split; [done|]. repeat split; [simpl; lia|]. intros x. symmetry. apply wr_out. simpl. lia.
Qed.

Lemma pack_spec_ret {A} (a : A) st : packing st 0 -> pack_spec (ret a) a [] st.
Proof.
  intros (_ & ? & _). unfold pack_spec. rewrite decide_True by (simpl; lia). apply packs_ret.
Qed.

Lemma skips_ret {A} (a : A) st : skips (ret a) a 0 st.
Proof. exists st. split; [done|]. repeat split. lia. Qed.

(** Running [checkSize] when there is room. *)
Lemma checkSize_ok name n st : room st n -> checkSize name n st = Ok (tt, st).
Proof.
  intros (H1 & H2 & H3). unfold checkSize, bind, get. case_bool_decide; [done|].
  unfold assume_, guard_. rewrite u64_small by lia.
  destruct (cursor st + n <=? size st) eqn:E; [done|lia].
Qed.

(** [checkSize] refuses what does not fit, as long as the sum does not wrap. *)
Lemma checkSize_ko name n st :
  action st <> SERIALIZER_STRINGIFY -> 0 <= cursor st -> 0 <= n -> cursor st + n < two64 ->
  size st < cursor st + n -> checkSize name n st = Abort FAssume.
Proof.
  intros Ha H1 H2 H3 H4. unfold checkSize, bind, get. case_bool_decide; [done|].
  unfold assume_, guard_. rewrite u64_small by lia.
  destruct (cursor st + n <=? size st) eqn:E; [lia|done].
Qed.

(** Runs an [apply] whose [checkSize] succeeds. *)
Local Ltac run_apply Ha :=
  unfold packs, skips, apply_scalar, serializeOrPoint, bind, get;
  rewrite Ha; simpl; rewrite checkSize_ok by done; simpl; eexists; split; [done|];
  match goal with H : room _ _ |- _ => destruct H as (? & ? & ?) end;
  repeat split; simpl; try done; rewrite ?rd_length, ?u64_small by lia; try lia; try done.

(** Splits a packing goal on whether there is room. *)
Local Ltac pack_cases Ha :=
  unfold pack_spec; rewrite ?rd_length by lia; case_decide;
  [|unfold apply_scalar, serializeOrPoint, bind, get; rewrite Ha; simpl;
    rewrite checkSize_ko; [done|by rewrite Ha|lia|lia|lia|lia]].

Section scalar.
Context {A : Type} (n : Z) (enc : A -> list byte) (dec : list byte -> A) (print : A -> list out_item).

Lemma apply_scalar_pack name v st :
  Z.of_nat (length (enc v)) = n -> packing st n ->
  pack_spec (apply_scalar n enc dec print name v) v (enc v) st.
Proof.
  intros Hn (Ha & ? & ? & ? & ?). pack_cases Ha.
  assert (room st n) by (unfold room; lia). run_apply Ha.
Qed.

Lemma apply_scalar_unpack name v l st :
  Z.of_nat (length l) = n -> holds st l ->
  skips (apply_scalar n enc dec print name v) (dec l) n st.
Proof. intros Hn (Ha & Hr & Hl). rewrite Hn in *. rewrite <- Hl. run_apply Ha. Qed.

Lemma apply_scalar_size name v st :
  sizing st n -> skips (apply_scalar n enc dec print name v) v n st.
Proof. intros (Ha & Hr). run_apply Ha. Qed.
End scalar.

Lemma serializeOrPoint_pack name ptr n st :
  packing st n -> pack_spec (serializeOrPoint name ptr n) ptr (rd (s_mem st) ptr n) st.
Proof.
  intros (Ha & ? & ? & ? & ?). pack_cases Ha.
  assert (room st n) by (unfold room; lia). run_apply Ha. intros a. by apply memcpy_wr.
Qed.

Lemma serializeOrPoint_unpack name ptr n st :
  action st = SERIALIZER_UNPACK -> room st n ->
  skips (serializeOrPoint name ptr n) (buffer st + cursor st) n st.
Proof. intros Ha Hr. run_apply Ha. Qed.

Lemma serializeOrPoint_size name ptr n st :
  sizing st n -> skips (serializeOrPoint name ptr n) ptr n st.
Proof. intros (Ha & Hr). run_apply Ha. Qed.

Lemma apply_raw_pack name ptr n st :
  ptr <> 0 -> packing st n -> pack_spec (apply_raw name ptr n) tt (rd (s_mem st) ptr n) st.
Proof.
  intros Hp%Z.eqb_neq (Ha & ? & ? & ? & ?).
  unfold pack_spec, packs, apply_raw, bind, get. rewrite Hp, rd_length by lia. simpl. rewrite Ha. simpl.
  case_decide.
  - assert (room st n) by (unfold room; lia). rewrite checkSize_ok by done. simpl.
    eexists; split; [done|]. repeat split; simpl; rewrite ?rd_length, ?u64_small by lia; try done.
    intros a. by apply memcpy_wr.
  - by rewrite checkSize_ko; [|rewrite Ha|lia|lia|lia|lia].
Qed.

Lemma apply_raw_size name ptr n st :
  ptr <> 0 -> sizing st n -> skips (apply_raw name ptr n) tt n st.
Proof.
  intros Hp%Z.eqb_neq (Ha & Hr). unfold skips, apply_raw, bind, get. rewrite Hp. simpl. rewrite Ha. simpl.
  rewrite checkSize_ok by done. simpl. destruct Hr as (? & ? & ?).
  eexists; split; [done|]. repeat split; simpl; rewrite ?u64_small by lia; try done.
Qed.

Lemma apply_const_raw_pack name ptr data st :
  ptr <> 0 -> packing st (Z.of_nat (length data)) -> pack_spec (apply_const_raw name ptr data) tt data st.
Proof.
  intros Hp%Z.eqb_neq (Ha & ? & ? & ? & ?).
  unfold pack_spec, packs, apply_const_raw, bind, get. rewrite Hp. simpl. rewrite Ha. simpl.
  case_decide.
  - rewrite checkSize_ok by (unfold room; lia). simpl.
    eexists; split; [done|]. repeat split; simpl; rewrite ?u64_small by lia; try done.
  - by rewrite checkSize_ko; [|rewrite Ha|lia|lia|lia|lia].
Qed.

(** A structure packs, unpacks and measures what its definition does. *)
Lemma apply_struct_run {T} (def : T -> M Ser T) name v v' st st' :
  action st <> SERIALIZER_STRINGIFY -> action st' = action st ->
  def v (set_root false st) = Ok (v', st') ->
  apply_struct def name v st = Ok (v', set_outFirst false st').
Proof.
  intros Ha Ha' E. unfold apply_struct, bind, get. rewrite bool_decide_eq_false_2 by done. simpl.
  rewrite E. rewrite bool_decide_eq_false_2 by congruence. done.
Qed.

Lemma apply_struct_abort {T} (def : T -> M Ser T) name v f st :
  action st <> SERIALIZER_STRINGIFY -> def v (set_root false st) = Abort f ->
  apply_struct def name v st = Abort f.
Proof.
  intros Ha E. unfold apply_struct, bind, get. rewrite bool_decide_eq_false_2 by done. simpl.
  by rewrite E.
Qed.

Lemma apply_struct_pack {T} (def : T -> M Ser T) name v l st :
  action st = SERIALIZER_PACK ->
  pack_spec (def v) v l (set_root false st) -> pack_spec (apply_struct def name v) v l st.
Proof.
  intros Ha. unfold pack_spec. simpl. case_decide.
  - intros (st' & E & (Hb & Hs & Hact) & Hc & Hm).
    exists (set_outFirst false st'). split; [|done].
    apply apply_struct_run; [by rewrite Ha|done|done].
  - intros E. apply apply_struct_abort; [by rewrite Ha|done].
Qed.

Lemma apply_struct_skips {T} (def : T -> M Ser T) name v v' n st :
  action st <> SERIALIZER_STRINGIFY ->
  skips (def v) v' n (set_root false st) -> skips (apply_struct def name v) v' n st.
Proof.
  intros Ha (st' & E & (Hb & Hs & Hact) & Hc & Hm).
  exists (set_outFirst false st'). split; [|done].
  by apply apply_struct_run.
Qed.


(** *** Strings *)
Section strings.
Context `{StringStorage}.

(** The stored form of a string: its length with the final null byte, the
    characters, the null byte. *)
Definition string_bytes (value : list byte) : list byte :=
  le_split 8 (Z.of_nat (length value) + 1) ++ (value ++ [x00]).

Lemma string_bytes_length value :
  Z.of_nat (length (string_bytes value)) = 9 + Z.of_nat (length value).
Proof. unfold string_bytes. rewrite !length_app, le_split_length. simpl. lia. Qed.

Lemma pack_spec_outFirst (d : M Ser unit) l st :
  pack_spec d tt l st -> pack_spec (d ;; modify (set_outFirst false)) tt l st.
Proof.
  unfold pack_spec, bind. case_decide.
  - intros (st' & E & P). exists (set_outFirst false st'). by rewrite E.
  - by intros ->.
Qed.

Lemma apply_const_string_pack name value st :
  packing st (9 + Z.of_nat (length value)) ->
  pack_spec (apply_const_string name value) tt (string_bytes value) st.
Proof.
  intros Hp. pose proof Hp as (Ha & ? & ? & ? & ?).
  set (body := let! _ := apply_u64 name (Z.of_nat (length value) + 1) in
               apply_const_raw name (c_str value) (value ++ [x00])).
  assert (pack_spec (body ;; modify (set_outFirst false)) tt (string_bytes value) st) as Hb.
  { apply pack_spec_outFirst. unfold body, string_bytes. eapply pack_spec_seq.
    - fold (string_bytes value). by rewrite string_bytes_length.
    - intros Hp1. rewrite le_split_length in Hp1.
      apply (apply_scalar_pack 8); [by rewrite le_split_length|done].
    - intros st' _ Hp2. apply apply_const_raw_pack; [apply c_str_nonnull|done]. }
  revert Hb. unfold pack_spec, packs. rewrite string_bytes_length.
  assert (apply_const_string name value st =
    (if decide (cursor st + (5 + Z.of_nat (length value)) <= size st)
     then (body ;; modify (set_outFirst false)) st else Abort FAssume)) as ->.
  { unfold apply_const_string, bind, get. rewrite Ha. simpl.
    rewrite (u64_small (Z.of_nat (length value) + 1)), (u64_small (4 + _)) by lia. case_decide.
    - rewrite checkSize_ok by (unfold room; lia). simpl. done.
    - rewrite checkSize_ko; [done|by rewrite Ha|lia|lia|lia|lia]. }
  case_decide; [by rewrite decide_True by lia|]. case_decide; [done|]. done.
Qed.

Lemma apply_string_pack name value st :
  packing st (9 + Z.of_nat (length value)) ->
  pack_spec (apply_string name value) value (string_bytes value) st.
Proof.
  intros Hp. pose proof (apply_const_string_pack name value st Hp) as Hs.
  destruct Hp as (Ha & _). revert Hs. unfold pack_spec, packs, apply_string, bind, get.
  rewrite Ha. simpl. case_decide.
  - intros (st' & E & P). exists (set_outFirst false st'). by rewrite E.
  - by intros ->.
Qed.

Lemma c_string_app value rest : x00 ∉ value -> c_string (value ++ x00 :: rest) = Some value.
Proof.
  induction value as [|b value IH]; intros Hn; simpl; [done|].
  apply not_elem_of_cons in Hn as [Hb Hn]. rewrite decide_False by done. by rewrite IH.
Qed.

(** The bytes up to the end of the buffer start with those held. *)
Lemma holds_rest st l :
  holds st l -> exists rest, rd (s_mem st) (buffer st + cursor st) (size st - cursor st) = l ++ rest.
Proof.
  intros (_ & (? & ? & ?) & Hl). eexists.
  replace (size st - cursor st)
    with (Z.of_nat (length l) + (size st - cursor st - Z.of_nat (length l))) by lia.
  rewrite rd_app, Hl by lia. done.
Qed.

(** The last byte held. *)
Lemma holds_last st l b :
  holds st (l ++ [b]) -> s_mem st (buffer st + cursor st + Z.of_nat (length l)) = b.
Proof.
  intros (_ & _ & Hl). rewrite length_app in Hl. apply (f_equal (lookup (length l))) in Hl.
  rewrite rd_lookup in Hl by (simpl; lia).
  rewrite lookup_app_r, Nat.sub_diag in Hl by lia. by injection Hl.
Qed.

Lemma apply_string_unpack name old value st :
  x00 ∉ value -> 0 <= buffer st -> buffer st + size st <= two64 ->
  holds st (string_bytes value) ->
  skips (apply_string name old) value (Z.of_nat (length (string_bytes value))) st.
Proof.
  intros Hn Hb0 Hb1 Hh. pose proof Hh as (Ha & (Hr1 & Hr2 & Hr3) & _).
  rewrite string_bytes_length in Hr2, Hr3.
  assert (skips (let! len := apply_u64 name 0 in load_string name len) value
            (Z.of_nat (length (string_bytes value))) st) as Hs.
  { unfold string_bytes in *. eapply unpacks_seq; [exact Hh| |].
    - intros Hh1. rewrite le_split_length.
      pose proof (apply_scalar_unpack 8 (le_split 8) le_combine (fun v => [OInt v]) name 0
                    (le_split 8 (Z.of_nat (length value) + 1)) st eq_refl Hh1) as Hu.
      rewrite le_combine_split_small in Hu; [exact Hu|]. change (256 ^ Z.of_nat 8) with 18446744073709551616.
      rewrite two64_eq in *. lia.
    - intros st' ((Eb & Es & Ea) & Ec & Em) Hh2. rewrite le_split_length in Ec.
      pose proof (holds_last _ _ _ Hh2) as Hlast. destruct (holds_rest _ _ Hh2) as (rest & Erest).
      pose proof Hh2 as (Ha' & (? & ? & ?) & _). rewrite length_app in *. simpl in *.
      unfold skips, load_string, bind, get. rewrite checkSize_ok by (unfold room; lia). cbn beta iota.
      rewrite (u64_small (Z.of_nat (length value) + 1 - 1)) by lia.
      rewrite (u64_small (buffer st' + cursor st' + _)) by lia.
      replace (Z.of_nat (length value) + 1 - 1) with (Z.of_nat (length value)) by lia.
      rewrite Hlast. rewrite Erest. rewrite <- app_assoc. simpl. rewrite c_string_app by done. simpl.
      eexists; split; [done|]. repeat split; simpl; try done. rewrite u64_small; lia. }
  destruct Hs as (st' & E & P). exists (set_outFirst false st'). split; [|done].
  unfold apply_string. unfold bind, get in *. rewrite Ha. simpl. by rewrite E.
Qed.

Lemma apply_string_size name value st :
  sizing st 0 -> skips (apply_string name value) value 0 st.
Proof.
  intros (Ha & _). unfold skips, apply_string, bind, get. rewrite Ha. simpl.
  eexists; split; [done|]. repeat split; simpl. lia.
Qed.
End strings.

(** *** The size check wraps *)

(** [checkSize] adds the requested size to the cursor without an overflow
    check: a size of [2^64 - cursor], read from a message, is accepted whatever
    the size of the buffer, the data pointer is handed out and the cursor goes
    back to the start of the buffer. *)
Theorem size_check_wraps name ptr st :
  action st = SERIALIZER_UNPACK -> 0 < cursor st <= size st -> size st < two64 ->
  exists st', serializeOrPoint name ptr (two64 - cursor st) st = Ok (buffer st + cursor st, st') /\
    cursor st' = 0 /\ size st' = size st.
Proof.
  intros Ha Hc Hs. unfold serializeOrPoint, checkSize, bind, get. rewrite Ha. simpl.
  rewrite bool_decide_eq_false_2 by (by rewrite Ha).
  replace (cursor st + (two64 - cursor st)) with (two64 * 1) by lia.
  assert (u64 (two64 * 1) = 0) as E by reflexivity. unfold assume_, guard_. rewrite E.
  destruct (0 <=? size st) eqn:Hz; [|lia]. simpl.
  eexists; split; [done|]. split; [simpl|done].
  replace (cursor st + (two64 - cursor st)) with (two64 * 1) by lia. exact E.
Qed.

Lemma size_check_wraps_witness :
  exists st', serializeOrPoint "optionalData" 0 (two64 - 57)
     (mkSer (fun _ => x00) 4096 64 57 SERIALIZER_UNPACK [] false true) = Ok (4153, st') /\
    cursor st' = 0 /\ size st' = 64.
Proof.
  refine (size_check_wraps "optionalData" 0
     (mkSer (fun _ => x00) 4096 64 57 SERIALIZER_UNPACK [] false true) _ _ _).
  - reflexivity.
  - simpl. lia.
  - reflexivity.
Defined.

End Serializer.
