(* ===== verification/Protocol.v ===== *)
(** * Protocol

    Model of src/src/base/network/Protocol.hpp, Protocol_inlined.hpp and
    Protocol.cpp: the structures the client and the server exchange, and the
    [applySerializerDef] of each.  A definition [X_applySerializerDef] runs the
    serializer over the fields in the order of the source and returns the
    structure with the fields as the serializer leaves them. *)

From S2P Require Import Prelude Memory Serializer.

Module Protocol.
Import Serializer.

Definition IOC_LF_MAX_ADDR_LEN : Z := 32.
Definition TEST_RDMA_SIZE : Z := 4096.
Definition IOC_EAGER_MAX_WRITE : Z := 32 * 1024.
Definition IOC_EAGER_MAX_READ : Z := 32 * 1024.
Definition IOC_STRUCT_MAX : Z := 64.
Definition IOC_LF_PROTOCOL_VERSION : Z := 2.

Inductive LibfabricMessageType : Type :=
| IOC_LF_MSG_CONNECT_INIT
| IOC_LF_MSG_ASSIGN_ID
| IOC_LF_MSG_BAD_AUTH
| IOC_LF_MSG_FATAL_ERROR
| IOC_LF_MSG_MAX
| IOC_LF_MSG_PING
| IOC_LF_MSG_PONG
| IOC_LF_MSG_OBJ_READ
| IOC_LF_MSG_OBJ_WRITE
| IOC_LF_MSG_OBJ_READ_WRITE_ACK
| IOC_LF_MSG_OBJ_FLUSH
| IOC_LF_MSG_OBJ_FLUSH_ACK
| IOC_LF_MSG_OBJ_CREATE
| IOC_LF_MSG_OBJ_CREATE_ACK
| IOC_LF_MSG_OBJ_RANGE_REGISTER
| IOC_LF_MSG_OBJ_RANGE_REGISTER_ACK
| IOC_LF_MSG_OBJ_RANGE_UNREGISTER
| IOC_LF_MSG_OBJ_RANGE_UNREGISTER_ACK
| IOC_LF_MSG_OBJ_COW
| IOC_LF_MSG_OBJ_COW_ACK.

#[export] Instance LibfabricMessageType_eq_dec : EqDecision LibfabricMessageType.
Proof. solve_decision. Defined.

(** The values of the enumeration. *)
Definition msg_code (t : LibfabricMessageType) : Z :=
  match t with
  | IOC_LF_MSG_CONNECT_INIT => 0
  | IOC_LF_MSG_ASSIGN_ID => 1
  | IOC_LF_MSG_BAD_AUTH => 2
  | IOC_LF_MSG_FATAL_ERROR => 3
  | IOC_LF_MSG_MAX => 4
  | IOC_LF_MSG_PING => 10
  | IOC_LF_MSG_PONG => 11
  | IOC_LF_MSG_OBJ_READ => 100
  | IOC_LF_MSG_OBJ_WRITE => 101
  | IOC_LF_MSG_OBJ_READ_WRITE_ACK => 102
  | IOC_LF_MSG_OBJ_FLUSH => 103
  | IOC_LF_MSG_OBJ_FLUSH_ACK => 104
  | IOC_LF_MSG_OBJ_CREATE => 105
  | IOC_LF_MSG_OBJ_CREATE_ACK => 106
  | IOC_LF_MSG_OBJ_RANGE_REGISTER => 107
  | IOC_LF_MSG_OBJ_RANGE_REGISTER_ACK => 108
  | IOC_LF_MSG_OBJ_RANGE_UNREGISTER => 109
  | IOC_LF_MSG_OBJ_RANGE_UNREGISTER_ACK => 110
  | IOC_LF_MSG_OBJ_COW => 111
  | IOC_LF_MSG_OBJ_COW_ACK => 112
  end.

(** ** The structures *)

Record LibfabricBuffer : Type := mkBuffer { lb_buffer : Z; lb_size : Z }.

Definition LibfabricEmpty : Type := unit.

Record Iov : Type := mkIov { iov_addr : Z; iov_key : Z }.

Record LibfabricPing : Type := mkPing {
  ping_rdmaSize : Z;
  ping_eagerSize : Z;
  ping_rdmaIov : Iov;
  ping_eagerData : Z;
}.

Record LibfabricObjectId : Type := mkObjectId { oid_low : Z; oid_high : Z }.

Record LibfabricMessageHeader : Type := mkHeader {
  hdr_msgType : Z;
  hdr_lfClientId : Z;
  hdr_tcpClientId : Z;
  hdr_tcpClientKey : Z;
}.

Record LibfabricObjReadWriteInfos : Type := mkReadWrite {
  rw_objectId : LibfabricObjectId;
  rw_iov : Iov;
  rw_offset : Z;
  rw_size : Z;
  rw_msgHasData : bool;
  rw_optionalData : Z;
}.

Record LibfabricObjFlushInfos : Type := mkFlush {
  fl_objectId : LibfabricObjectId;
  fl_offset : Z;
  fl_size : Z;
}.

Record LibfabricObjCreateInfos : Type := mkCreate { cr_objectId : LibfabricObjectId }.

Record LibfabricRegisterRange : Type := mkRegister {
  rr_objectId : LibfabricObjectId;
  rr_offset : Z;
  rr_size : Z;
  rr_write : bool;
}.

Record LibfabricUnregisterRange : Type := mkUnregister {
  ur_objectId : LibfabricObjectId;
  ur_offset : Z;
  ur_size : Z;
  ur_id : Z;
  ur_write : bool;
}.

Record LibfabricObjectCow : Type := mkCow {
  cow_sourceObjectId : LibfabricObjectId;
  cow_destObjectId : LibfabricObjectId;
  cow_allowExist : bool;
  cow_rangeOffset : Z;
  cow_rangeSize : Z;
}.

(** [rsp_optionalDataFragments] is [None] for a null pointer, otherwise the
    array it points to. *)
Record LibfabricResponse : Type := mkResponse {
  rsp_msgDataSize : Z;
  rsp_status : Z;
  rsp_msgHasData : bool;
  rsp_optionalData : Z;
  rsp_optionalDataFragments : option (list LibfabricBuffer);
  rsp_optionalDataFragmentCount : Z;
}.

Record LibfabricFirstHandshake : Type := mkHandshake {
  hs_protocolVersion : Z;
  hs_assignLfClientId : Z;
}.

Record LibfabricFirstClientMessage : Type := mkFirstClient { fc_addr : list byte }.

Record LibfabricErrorMessage : Type := mkError { em_errorMessage : list byte }.

#[export] Instance Iov_eq_dec : EqDecision Iov.
Proof. solve_decision. Defined.
#[export] Instance LibfabricObjectId_eq_dec : EqDecision LibfabricObjectId.
Proof. solve_decision. Defined.

(** operator==(const Iov &, const Iov &) *)
Definition Iov_eqb (a b : Iov) : bool := (iov_addr a =? iov_addr b) && (iov_key a =? iov_key b).
(** operator==(const LibfabricObjectId &, const LibfabricObjectId &) *)
Definition LibfabricObjectId_eqb (a b : LibfabricObjectId) : bool :=
  (oid_low a =? oid_low b) && (oid_high a =? oid_high b).

(** ** applySerializerDef *)

Definition Iov_applySerializerDef (v : Iov) : M Ser Iov :=
  let! addr := apply_u64 "addr" (iov_addr v) in
  let! key := apply_u64 "key" (iov_key v) in
  ret (mkIov addr key).

Definition LibfabricPing_applySerializerDef (v : LibfabricPing) : M Ser LibfabricPing :=
  let! rdmaSize := apply_u64 "rdmaSize" (ping_rdmaSize v) in
  let! eagerSize := apply_u64 "eagerSize" (ping_eagerSize v) in
  let! rdmaIov := apply_struct Iov_applySerializerDef "rdmaIov" (ping_rdmaIov v) in
  let! eagerData :=
    if eagerSize >? 0 then serializeOrPoint "eagerData" (ping_eagerData v) eagerSize
    else ret (ping_eagerData v) in
  ret (mkPing rdmaSize eagerSize rdmaIov eagerData).

Definition LibfabricObjectId_applySerializerDef (v : LibfabricObjectId) : M Ser LibfabricObjectId :=
  let! low := apply_i64 "low" (oid_low v) in
  let! high := apply_i64 "high" (oid_high v) in
  ret (mkObjectId low high).

Definition LibfabricMessageHeader_applySerializerDef (v : LibfabricMessageHeader)
    : M Ser LibfabricMessageHeader :=
  let! msgType := apply_u64 "msgType" (hdr_msgType v) in
  let! lfClientId := apply_u64 "lfClientId" (hdr_lfClientId v) in
  let! tcpClientId := apply_u64 "tcpClientId" (hdr_tcpClientId v) in
  let! tcpClientKey := apply_u64 "tcpClientKey" (hdr_tcpClientKey v) in
  ret (mkHeader msgType lfClientId tcpClientId tcpClientKey).

Definition LibfabricObjReadWriteInfos_applySerializerDef (v : LibfabricObjReadWriteInfos)
    : M Ser LibfabricObjReadWriteInfos :=
  let! objectId := apply_struct LibfabricObjectId_applySerializerDef "objectId" (rw_objectId v) in
  let! iov := apply_struct Iov_applySerializerDef "iov" (rw_iov v) in
  let! offset := apply_u64 "offset" (rw_offset v) in
  let! size := apply_u64 "size" (rw_size v) in
  let! msgHasData := apply_bool "msgHasData" (rw_msgHasData v) in
  let! optionalData :=
    if msgHasData then serializeOrPoint "optionalData" (rw_optionalData v) size
    else ret (rw_optionalData v) in
  ret (mkReadWrite objectId iov offset size msgHasData optionalData).

Definition LibfabricObjFlushInfos_applySerializerDef (v : LibfabricObjFlushInfos)
    : M Ser LibfabricObjFlushInfos :=
  let! objectId := apply_struct LibfabricObjectId_applySerializerDef "objectId" (fl_objectId v) in
  let! offset := apply_u64 "objectoffsetId" (fl_offset v) in
  let! size := apply_u64 "size" (fl_size v) in
  ret (mkFlush objectId offset size).

Definition LibfabricObjCreateInfos_applySerializerDef (v : LibfabricObjCreateInfos)
    : M Ser LibfabricObjCreateInfos :=
  let! objectId := apply_struct LibfabricObjectId_applySerializerDef "objectId" (cr_objectId v) in
  ret (mkCreate objectId).

Definition LibfabricRegisterRange_applySerializerDef (v : LibfabricRegisterRange)
    : M Ser LibfabricRegisterRange :=
  let! objectId := apply_struct LibfabricObjectId_applySerializerDef "objectId" (rr_objectId v) in
  let! offset := apply_u64 "offset" (rr_offset v) in
  let! size := apply_u64 "size" (rr_size v) in
  let! write := apply_bool "write" (rr_write v) in
  ret (mkRegister objectId offset size write).

Definition LibfabricUnregisterRange_applySerializerDef (v : LibfabricUnregisterRange)
    : M Ser LibfabricUnregisterRange :=
  let! objectId := apply_struct LibfabricObjectId_applySerializerDef "objectId" (ur_objectId v) in
  let! offset := apply_u64 "offset" (ur_offset v) in
  let! size := apply_u64 "size" (ur_size v) in
  let! id := apply_i32 "id" (ur_id v) in
  let! write := apply_bool "write" (ur_write v) in
  ret (mkUnregister objectId offset size id write).

Definition LibfabricObjectCow_applySerializerDef (v : LibfabricObjectCow) : M Ser LibfabricObjectCow :=
  let! source := apply_struct LibfabricObjectId_applySerializerDef "sourceObjectId" (cow_sourceObjectId v) in
  let! dest := apply_struct LibfabricObjectId_applySerializerDef "destObjectId" (cow_destObjectId v) in
  let! allowExist := apply_bool "allowExist" (cow_allowExist v) in
  let! rangeOffset := apply_u64 "rangeOffset" (cow_rangeOffset v) in
  let! rangeSize := apply_u64 "rangeSize" (cow_rangeSize v) in
  ret (mkCow source dest allowExist rangeOffset rangeSize).

(** LibfabricResponse::initStatusOnly *)
Definition initStatusOnly (status : Z) : LibfabricResponse :=
  mkResponse 0 status false 0 None 0.

(** The loop over the [n] first fragments; reading past the array is undefined. *)
Fixpoint apply_fragments (l : list LibfabricBuffer) (n : nat) : M Ser unit :=
  match n, l with
  | O, _ => ret tt
  | S n', f :: l' =>
      apply_raw "optionalDataFragment" (lb_buffer f) (lb_size f) ;; apply_fragments l' n'
  | S _, [] => abort FOverrun
  end.

Definition packs_or_sizes (a : SerializerAction) : bool :=
  match a with SERIALIZER_PACK | SERIALIZER_SIZE => true | _ => false end.

Definition LibfabricResponse_applySerializerDef (v : LibfabricResponse) : M Ser LibfabricResponse :=
  let! msgDataSize := apply_u64 "msgDataSize" (rsp_msgDataSize v) in
  let! status := apply_i32 "status" (rsp_status v) in
  let! msgHasData := apply_bool "msgHasData" (rsp_msgHasData v) in
  let! optionalData :=
    if msgHasData then
      let! act := gets action in
      match packs_or_sizes act, rsp_optionalDataFragments v with
      | true, Some fragments =>
          assert_ (rsp_optionalData v =? 0) ;;
          apply_fragments fragments (Z.to_nat (rsp_optionalDataFragmentCount v)) ;;
          ret (rsp_optionalData v)
      | _, _ => serializeOrPoint "optionalData" (rsp_optionalData v) msgDataSize
      end
    else ret (rsp_optionalData v) in
  ret (mkResponse msgDataSize status msgHasData optionalData
         (rsp_optionalDataFragments v) (rsp_optionalDataFragmentCount v)).

Definition LibfabricFirstHandshake_applySerializerDef (v : LibfabricFirstHandshake)
    : M Ser LibfabricFirstHandshake :=
  let! protocolVersion := apply_i32 "protocolVersion" (hs_protocolVersion v) in
  let! assignLfClientId := apply_u64 "assignLfClientId" (hs_assignLfClientId v) in
  ret (mkHandshake protocolVersion assignLfClientId).

Definition LibfabricFirstClientMessage_applySerializerDef (v : LibfabricFirstClientMessage)
    : M Ser LibfabricFirstClientMessage :=
  let! addr := apply_array IOC_LF_MAX_ADDR_LEN "addr" (fc_addr v) in
  ret (mkFirstClient addr).

Definition LibfabricEmpty_applySerializerDef (v : LibfabricEmpty) : M Ser LibfabricEmpty := ret v.

Definition LibfabricErrorMessage_applySerializerDef `{StringStorage} (v : LibfabricErrorMessage)
    : M Ser LibfabricErrorMessage :=
  let! errorMessage := apply_string "errorMessage" (em_errorMessage v) in
  ret (mkError errorMessage).

(** ** Specification of a message *)

Abbreviation blen l := (Z.of_nat (length l)).

(** [m_bytes] is the wire format, [m_regions] the memory a message points to,
    [m_payload] the data sent with it; [m_decoded old v p] is what unpacking [v]
    from address [p] over the value [old] gives, and [m_view] the data the
    receiver then has. *)
Class Message (T : Type) := {
  applySerializerDef : T -> M Ser T;
  m_wf : T -> Prop;
  m_regions : T -> list (Z * Z);
  m_payload : mem -> T -> list byte;
  m_bytes : mem -> T -> list byte;
  m_decoded : T -> T -> Z -> T;
  m_view : mem -> T -> list byte;
}.

(** The state of a serializer on the buffer [[buf, buf+sz)] of the memory [m]:
    nothing outside the buffer was changed. *)
Definition on_buffer (m : mem) (buf sz : Z) (st : Ser) : Prop :=
  buffer st = buf /\ size st = sz /\ forall a, ~ (buf <= a < buf + sz) -> s_mem st a = m a.

Definition apart (buf sz : Z) (l : list (Z * Z)) : Prop :=
  Forall (fun r => disjoint buf sz r.1 r.2) l.

Class MessageOk (T : Type) `{Message T} : Prop := {
  pack_ok : forall m buf sz v st,
    m_wf v -> on_buffer m buf sz st -> apart buf sz (m_regions v) ->
    packing st (blen (m_bytes m v)) -> pack_spec (applySerializerDef v) v (m_bytes m v) st;
  unpack_ok : forall m old v st,
    m_wf v -> 0 <= buffer st -> buffer st + size st <= two64 -> holds st (m_bytes m v) ->
    skips (applySerializerDef old) (m_decoded old v (buffer st + cursor st)) (blen (m_bytes m v)) st;
  view_ok : forall m m' old v p,
    m_wf v -> rd m' p (blen (m_bytes m v)) = m_bytes m v -> m_view m' (m_decoded old v p) = m_payload m v;
}.

(** The messages whose definition also measures them. *)
Class MessageSized (T : Type) `{Message T} : Prop :=
  size_ok : forall m v st, m_wf v -> sizing st (blen (m_bytes m v)) ->
    skips (applySerializerDef v) v (blen (m_bytes m v)) st.

(** [Serializer serializer(buf, sz); serializer.apply(name, v);] *)
Definition pack_message {T} `{Message T} (m : mem) (buf sz : Z) (v : T) : res (T * Ser) :=
  match init_buffer m buf sz SERIALIZER_PACK with
  | Ok st => apply_struct applySerializerDef "message" v st
  | Abort f => Abort f
  end.

(** [DeSerializer deserializer(buf, sz); deserializer.pop(old);] *)
Definition unpack_message {T} `{Message T} (m : mem) (buf sz : Z) (old : T) : res (T * Ser) :=
  match init_buffer m buf sz SERIALIZER_UNPACK with
  | Ok st => pop applySerializerDef old st
  | Abort f => Abort f
  end.

(** What packing then unpacking a message gives. *)
Definition roundtrips (T : Type) `{Message T} : Prop := forall m buf sz (old v : T),
  m_wf v -> 0 < buf -> 0 < sz -> buf + sz <= two64 -> blen (m_bytes m v) <= sz ->
  apart buf sz (m_regions v) ->
  exists st1 st2, pack_message m buf sz v = Ok (v, st1) /\
    unpack_message (s_mem st1) buf sz old = Ok (m_decoded old v buf, st2) /\
    cursor st1 = blen (m_bytes m v) /\ cursor st2 = cursor st1 /\
    m_view (s_mem st2) (m_decoded old v buf) = m_payload m v.

(** Packing either fits and writes the message's bytes and nothing else, or is
    refused. *)
Definition packs_safely (T : Type) `{Message T} : Prop := forall m buf sz (v : T),
  m_wf v -> 0 < buf -> 0 < sz < two64 -> blen (m_bytes m v) < two64 -> apart buf sz (m_regions v) ->
  match pack_message m buf sz v with
  | Ok (_, st) => blen (m_bytes m v) <= sz /\ cursor st = blen (m_bytes m v) /\
      rd (s_mem st) buf (blen (m_bytes m v)) = m_bytes m v /\
      forall a, ~ (buf <= a < buf + blen (m_bytes m v)) -> s_mem st a = m a
  | Abort f => f = FAssume /\ sz < blen (m_bytes m v)
  end.

(** [computeSize] announces exactly the bytes that packing produces. *)
Definition measured (T : Type) `{Message T} : Prop := forall m (v : T),
  m_wf v -> blen (m_bytes m v) < two64 -> computeSize applySerializerDef m v = Ok (blen (m_bytes m v)).

Section message.
Context {T : Type} `{MessageOk T}.

Lemma pack_message_spec m buf sz v :
  m_wf v -> 0 < buf -> 0 < sz < two64 -> blen (m_bytes m v) < two64 -> apart buf sz (m_regions v) ->
  pack_spec (apply_struct applySerializerDef "message" v) v (m_bytes m v)
    (mkSer m buf sz 0 SERIALIZER_PACK [] false true) /\
  pack_message m buf sz v =
    apply_struct applySerializerDef "message" v (mkSer m buf sz 0 SERIALIZER_PACK [] false true).
Proof.
  intros Hw Hb Hs Hl Ha. split.
  - apply apply_struct_pack; [done|]. apply (pack_ok m buf sz); try done.
    repeat split; simpl; try done; lia.
  - unfold pack_message, init_buffer. destruct (buf =? 0) eqn:E; [lia|].
    destruct (sz >? 0) eqn:E'; [|lia]. done.
Qed.

Lemma roundtrips_of : roundtrips T.
Proof.
  intros m buf sz old v Hw Hb Hs Hbs Hl Ha.
  destruct (pack_message_spec m buf sz v) as [Hp Heq]; try done; [lia|lia|].
  unfold pack_spec in Hp. rewrite decide_True in Hp by (simpl; lia).
  destruct Hp as (st1 & E1 & (Hb1 & Hs1 & Ha1) & Hc1 & Hm1). simpl in *.
  exists st1.
  set (st := mkSer (s_mem st1) buf sz 0 SERIALIZER_UNPACK [] false true).
  assert (rd (s_mem st1) buf (blen (m_bytes m v)) = m_bytes m v) as Hrd.
  { rewrite (rd_ext _ (wr m buf (m_bytes m v))); [apply rd_wr|].
    intros a _. rewrite Hm1. by rewrite Z.add_0_r. }
  destruct (apply_struct_skips applySerializerDef "pop" old (m_decoded old v buf)
              (blen (m_bytes m v)) st) as (st2 & E2 & (_ & Hc2 & Hm2)).
  { done. }
  { rewrite <- (Z.add_0_r buf). apply (unpack_ok m old v (set_root false st)); [done|simpl; lia|simpl; lia|].
    split; [done|]. split; [unfold room; simpl; lia|]. simpl. by rewrite Z.add_0_r. }
  exists st2. split; [by rewrite Heq|]. split.
  { unfold unpack_message, init_buffer. destruct (buf =? 0) eqn:E; [lia|].
    destruct (sz >? 0) eqn:E'; [|lia]. done. }
  split; [done|]. split; [simpl in Hc2; lia|]. rewrite Hm2. by apply view_ok.
Qed.

Lemma packs_safely_of : packs_safely T.
Proof.
  intros m buf sz v Hw Hb Hs Hl Ha.
  destruct (pack_message_spec m buf sz v) as [Hp Heq]; try done. rewrite Heq.
  unfold pack_spec in Hp. simpl in Hp. case_decide.
  - destruct Hp as (st1 & E1 & _ & Hc1 & Hm1). rewrite E1. simpl in *. split; [lia|]. split; [lia|].
    assert (forall a, s_mem st1 a = wr m buf (m_bytes m v) a) as Hm.
    { intros a. rewrite Hm1. by rewrite Z.add_0_r. }
    split; [|intros a Hout; rewrite Hm; by apply wr_out].
    rewrite (rd_ext _ (wr m buf (m_bytes m v))); [apply rd_wr|done].
  - rewrite Hp. split; [done|lia].
Qed.

Lemma measured_of `{!MessageSized T} : measured T.
Proof.
  intros m v Hw Hl. unfold computeSize. simpl.
  destruct (apply_struct_skips applySerializerDef "value" v v (blen (m_bytes m v))
              (mkSer m 0 (two64 - 1) 0 SERIALIZER_SIZE [] false true)) as (st & E & _ & Hc & _).
  { done. }
  { apply size_ok; [done|]. split; [done|]. unfold room. simpl. lia. }
  unfold init_buffer. simpl. rewrite E. by rewrite Hc.
Qed.
End message.

(** ** Fields *)

Lemma on_buffer_packed m buf sz st l st' :
  on_buffer m buf sz st -> packed st l st' -> 0 <= cursor st -> cursor st' <= size st' ->
  on_buffer m buf sz st'.
Proof.
  intros (<- & <- & Hm) ((Hb & Hs & Ha) & Hc & Hw) H0 Hle. repeat split; try congruence.
  intros a Hout. rewrite Hw, wr_out by lia. by apply Hm.
Qed.

(** Packing a field, then the rest. *)
Lemma pack_field {A B} m buf sz (d : M Ser A) (k : A -> M Ser B) a b l l' st :
  on_buffer m buf sz st -> packing st (blen (l ++ l')) ->
  (packing st (blen l) -> pack_spec d a l st) ->
  (forall st', on_buffer m buf sz st' -> packing st' (blen l') -> pack_spec (k a) b l' st') ->
  pack_spec (bind d k) b (l ++ l') st.
Proof.
  intros Hon Hp Hd Hk. apply (pack_spec_seq _ _ a); [done|done|]. intros st' Hpk Hp'. apply Hk; [|done].
  destruct Hp as (_ & ? & _). destruct Hp' as (_ & ? & _).
  eapply on_buffer_packed; [done|done|lia|lia].
Qed.

(** Unpacking a field, then the rest, keeping track of the position. *)
Lemma unpack_field {A B} (d : M Ser A) (k : A -> M Ser B) a b l l' p bnd st :
  holds st (l ++ l') -> buffer st + cursor st = p -> buffer st + size st <= bnd -> 0 <= buffer st ->
  (holds st l -> skips d a (blen l) st) ->
  (forall st', holds st' l' -> buffer st' + cursor st' = p + blen l -> buffer st' + size st' <= bnd ->
     0 <= buffer st' -> skips (k a) b (blen l') st') ->
  skips (bind d k) b (blen (l ++ l')) st.
Proof.
  intros Hh Hp Hb H0 Hd Hk. apply (unpacks_seq _ _ a); [done|done|].
  intros st' ((Eb & Es & _) & Ec & _) Hh'. apply Hk; [done| | |]; rewrite ?Eb, ?Es, ?Ec; lia.
Qed.

Lemma size_field {A B} (d : M Ser A) (k : A -> M Ser B) a b (l l' : list byte) st :
  sizing st (blen (l ++ l')) ->
  (sizing st (blen l) -> skips d a (blen l) st) ->
  (forall st', sizing st' (blen l') -> skips (k a) b (blen l') st') ->
  skips (bind d k) b (blen (l ++ l')) st.
Proof.
  rewrite length_app, Nat2Z.inj_add. intros Hs Hd Hk.
  apply (sizes_seq _ _ a); [done|lia|lia|done|]. intros st' _. apply Hk.
Qed.

(** *** Scalars *)
Definition is_i32 (x : Z) : Prop := -2147483648 <= x < 2147483648.
Definition is_i64 (x : Z) : Prop := -9223372036854775808 <= x < 9223372036854775808.

Lemma swrap_mod w x : 0 < w -> swrap w (x mod 2 ^ w) = swrap w x.
Proof. intros Hw. unfold swrap. by rewrite Zplus_mod_idemp_l. Qed.

Lemma u64_of_bytes v : is_u64 v -> le_combine (le_split 8 v) = v.
Proof.
  intros Hv. apply le_combine_split_small. change (256 ^ Z.of_nat 8) with 18446744073709551616. u64_arith.
Qed.

Lemma i32_of_bytes v : is_i32 v -> i32 (le_combine (le_split 4 v)) = v.
Proof.
  intros Hv. rewrite le_combine_split. change (256 ^ Z.of_nat 4) with (2 ^ 32).
  unfold i32. rewrite swrap_mod by lia. by apply i32_small.
Qed.

Lemma i64_of_bytes v : is_i64 v -> i64 (le_combine (le_split 8 v)) = v.
Proof.
  intros Hv. rewrite le_combine_split. change (256 ^ Z.of_nat 8) with (2 ^ 64).
  unfold i64. rewrite swrap_mod by lia. by apply i64_small.
Qed.

Definition bool_bytes (b : bool) : list byte := [if b then x01 else x00].

Section scalars.
Implicit Types (name : string) (st : Ser).

Lemma u64_pack name v st : packing st (blen (le_split 8 v)) -> pack_spec (apply_u64 name v) v (le_split 8 v) st.
Proof. intros Hp. rewrite le_split_length in Hp. by apply (apply_scalar_pack 8); [rewrite le_split_length|]. Qed.
Lemma i64_pack name v st : packing st (blen (le_split 8 v)) -> pack_spec (apply_i64 name v) v (le_split 8 v) st.
Proof. intros Hp. rewrite le_split_length in Hp. by apply (apply_scalar_pack 8); [rewrite le_split_length|]. Qed.
Lemma i32_pack name v st : packing st (blen (le_split 4 v)) -> pack_spec (apply_i32 name v) v (le_split 4 v) st.
Proof. intros Hp. rewrite le_split_length in Hp. by apply (apply_scalar_pack 4); [rewrite le_split_length|]. Qed.
Lemma bool_pack name v st : packing st (blen (bool_bytes v)) -> pack_spec (apply_bool name v) v (bool_bytes v) st.
Proof. intros Hp. by apply (apply_scalar_pack 1). Qed.

Lemma u64_unpack name old v st :
  is_u64 v -> holds st (le_split 8 v) -> skips (apply_u64 name old) v (blen (le_split 8 v)) st.
Proof.
  intros Hv Hh. rewrite le_split_length. rewrite <- (u64_of_bytes v Hv) at 1.
  by apply apply_scalar_unpack; [rewrite le_split_length|].
Qed.
Lemma i64_unpack name old v st :
  is_i64 v -> holds st (le_split 8 v) -> skips (apply_i64 name old) v (blen (le_split 8 v)) st.
Proof.
  intros Hv Hh. rewrite le_split_length. rewrite <- (i64_of_bytes v Hv) at 1.
  by apply (apply_scalar_unpack 8 _ (fun l => i64 (le_combine l))); [rewrite le_split_length|].
Qed.
Lemma i32_unpack name old v st :
  is_i32 v -> holds st (le_split 4 v) -> skips (apply_i32 name old) v (blen (le_split 4 v)) st.
Proof.
  intros Hv Hh. rewrite le_split_length. rewrite <- (i32_of_bytes v Hv) at 1.
  by apply (apply_scalar_unpack 4 _ (fun l => i32 (le_combine l))); [rewrite le_split_length|].
Qed.
Lemma bool_unpack name old v st :
  holds st (bool_bytes v) -> skips (apply_bool name old) v (blen (bool_bytes v)) st.
Proof.
  intros Hh. replace v with (negb (le_combine (bool_bytes v) =? 0)) at 1 by (by destruct v).
  by apply (apply_scalar_unpack 1 _ (fun l => negb (le_combine l =? 0))).
Qed.

Lemma u64_size name v st : sizing st (blen (le_split 8 v)) -> skips (apply_u64 name v) v (blen (le_split 8 v)) st.
Proof. rewrite le_split_length. by apply apply_scalar_size. Qed.
Lemma i64_size name v st : sizing st (blen (le_split 8 v)) -> skips (apply_i64 name v) v (blen (le_split 8 v)) st.
Proof. rewrite le_split_length. by apply apply_scalar_size. Qed.
Lemma i32_size name v st : sizing st (blen (le_split 4 v)) -> skips (apply_i32 name v) v (blen (le_split 4 v)) st.
Proof. rewrite le_split_length. by apply apply_scalar_size. Qed.
Lemma bool_size name v st : sizing st (blen (bool_bytes v)) -> skips (apply_bool name v) v (blen (bool_bytes v)) st.
Proof. by apply apply_scalar_size. Qed.
End scalars.
#[global] Opaque bool_bytes.

(** *** Structures and data *)
Lemma struct_pack {T} `{MessageOk T} m buf sz name (v : T) st :
  m_wf v -> on_buffer m buf sz st -> apart buf sz (m_regions v) -> packing st (blen (m_bytes m v)) ->
  pack_spec (apply_struct applySerializerDef name v) v (m_bytes m v) st.
Proof.
  intros Hw Hon Ha Hp. apply apply_struct_pack; [apply Hp|]. by apply (pack_ok m buf sz).
Qed.

Lemma struct_unpack {T} `{MessageOk T} m name (old v : T) p st :
  m_wf v -> holds st (m_bytes m v) -> buffer st + cursor st = p -> buffer st + size st <= two64 -> 0 <= buffer st ->
  skips (apply_struct applySerializerDef name old) (m_decoded old v p) (blen (m_bytes m v)) st.
Proof.
  intros Hw Hh <- Hb Hz. apply apply_struct_skips; [destruct Hh as [-> _]; done|].
  by apply (unpack_ok m old v (set_root false st)).
Qed.

Lemma struct_size {T} `{MessageSized T} m name (v : T) st :
  m_wf v -> sizing st (blen (m_bytes m v)) ->
  skips (apply_struct applySerializerDef name v) v (blen (m_bytes m v)) st.
Proof. intros Hw Hs. apply apply_struct_skips; [destruct Hs as [-> _]; done|]. by apply size_ok. Qed.

(** Data sent by pointer lies outside the buffer, so it is still as in [m]. *)
Lemma region_same m buf sz st p n :
  on_buffer m buf sz st -> disjoint buf sz p n -> rd (s_mem st) p n = rd m p n.
Proof. intros (_ & _ & Hm) Hd. apply rd_ext. intros a Ha. apply Hm. unfold disjoint in Hd. lia. Qed.

Lemma data_pack m buf sz name p n st :
  0 <= n -> on_buffer m buf sz st -> disjoint buf sz p n -> packing st (blen (rd m p n)) ->
  pack_spec (serializeOrPoint name p n) p (rd m p n) st.
Proof.
  intros Hn Hon Hd Hp. rewrite rd_length in Hp by done. rewrite <- (region_same _ _ _ _ _ _ Hon Hd).
  by apply serializeOrPoint_pack.
Qed.

Lemma data_unpack name old l p n st :
  holds st l -> n = blen l -> buffer st + cursor st = p ->
  skips (serializeOrPoint name old n) p (blen l) st.
Proof. intros (Ha & Hr & _) -> <-. by apply serializeOrPoint_unpack. Qed.

Lemma data_size name p n (l : list byte) st :
  n = blen l -> sizing st (blen l) -> skips (serializeOrPoint name p n) p (blen l) st.
Proof. intros -> Hs. by apply serializeOrPoint_size. Qed.

(** Field by field: [pack_fields], [unpack_fields] and [size_fields] walk
    through an [applySerializerDef], leaving the conditions on the fields. *)
Create HintDb pack_db.
Create HintDb unpack_db.
Create HintDb size_db.
#[local] Hint Resolve u64_pack i64_pack i32_pack bool_pack : pack_db.
#[local] Hint Resolve u64_unpack i64_unpack i32_unpack bool_unpack : unpack_db.
#[local] Hint Resolve u64_size i64_size i32_size bool_size : size_db.

Ltac wf_field := first [done | by eauto | solve [repeat split; eauto] | solve [repeat constructor; done]].
Ltac pack_fields :=
  repeat first
    [ apply pack_spec_ret; eassumption
    | eapply pack_field; [eassumption|eassumption
        |intros ?; first [solve [eauto with pack_db]
                         |match goal with |- pack_spec (apply_struct _ _ ?v) _ _ _ =>
                            let T := type of v in
                            let lem := constr:(struct_pack (T := T)) in eapply lem; [wf_field|eassumption|solve [repeat constructor]|eassumption] end]
        |intros ? ? ?] ].
Ltac unpack_fields :=
  repeat first
    [ apply skips_ret
    | eapply unpack_field; [eassumption|eassumption|eassumption|eassumption
        |intros ?; first [solve [eauto with unpack_db]
                         |match goal with m : mem |- skips (apply_struct _ _ ?v) _ _ _ =>
                            let T := type of v in
                            let lem := constr:(struct_unpack (T := T) m) in eapply lem; [wf_field|eassumption..] end]
        |intros ? ? ? ? ?] ].
Ltac size_fields :=
  repeat first
    [ apply skips_ret
    | eapply size_field; [eassumption
        |intros ?; first [solve [eauto with size_db]
                         |match goal with m : mem |- skips (apply_struct _ _ ?v) _ _ _ =>
                            let T := type of v in
                            let lem := constr:(struct_size (T := T) m) in eapply lem; [wf_field|eassumption] end]
        |intros ? ?] ].

(** The three proofs for a message whose fields are all scalars or such
    messages. *)
Ltac pack_message_tac :=
  intros m buf sz v st Hw Hon Ha Hp; destruct v; simpl in *; destruct_and?;
  match goal with |- pack_spec (?f _) _ _ _ => unfold f end; simpl; pack_fields.
Ltac unpack_message_tac :=
  let p := fresh "p" in let Hpos := fresh "Hpos" in
  intros m old v st Hw Hz Hb Hh; destruct v; simpl in *; destruct_and?;
  match goal with |- skips (?f _) _ _ _ => unfold f end; simpl;
  remember (buffer st + cursor st) as p eqn:Hpos; symmetry in Hpos; unpack_fields.
Ltac size_message_tac :=
  intros m v st Hw Hs; destruct v; simpl in *; destruct_and?;
  match goal with |- skips (?f _) _ _ _ => unfold f end; simpl; size_fields.

(** ** The messages *)

#[export] Instance Iov_message : Message Iov := {|
  applySerializerDef := Iov_applySerializerDef;
  m_wf v := is_u64 (iov_addr v) /\ is_u64 (iov_key v);
  m_regions _ := [];
  m_payload _ _ := [];
  m_bytes _ v := le_split 8 (iov_addr v) ++ le_split 8 (iov_key v) ++ [];
  m_decoded _ v _ := v;
  m_view _ _ := [];
|}.
#[export] Instance Iov_message_ok : MessageOk Iov.
Proof. split; [pack_message_tac|unpack_message_tac|done]. Qed.
#[export] Instance Iov_message_sized : MessageSized Iov.
Proof. unfold MessageSized. size_message_tac. Qed.

#[export] Instance LibfabricObjectId_message : Message LibfabricObjectId := {|
  applySerializerDef := LibfabricObjectId_applySerializerDef;
  m_wf v := is_i64 (oid_low v) /\ is_i64 (oid_high v);
  m_regions _ := [];
  m_payload _ _ := [];
  m_bytes _ v := le_split 8 (oid_low v) ++ le_split 8 (oid_high v) ++ [];
  m_decoded _ v _ := v;
  m_view _ _ := [];
|}.
#[export] Instance LibfabricObjectId_message_ok : MessageOk LibfabricObjectId.
Proof. split; [pack_message_tac|unpack_message_tac|done]. Qed.
#[export] Instance LibfabricObjectId_message_sized : MessageSized LibfabricObjectId.
Proof. unfold MessageSized. size_message_tac. Qed.

#[export] Instance LibfabricMessageHeader_message : Message LibfabricMessageHeader := {|
  applySerializerDef := LibfabricMessageHeader_applySerializerDef;
  m_wf v := is_u64 (hdr_msgType v) /\ is_u64 (hdr_lfClientId v) /\ is_u64 (hdr_tcpClientId v) /\ is_u64 (hdr_tcpClientKey v);
  m_regions _ := [];
  m_payload _ _ := [];
  m_bytes _ v := le_split 8 (hdr_msgType v) ++ le_split 8 (hdr_lfClientId v) ++ le_split 8 (hdr_tcpClientId v) ++ le_split 8 (hdr_tcpClientKey v) ++ [];
  m_decoded _ v _ := v;
  m_view _ _ := [];
|}.
#[export] Instance LibfabricMessageHeader_message_ok : MessageOk LibfabricMessageHeader.
Proof. split; [pack_message_tac|unpack_message_tac|done]. Qed.
#[export] Instance LibfabricMessageHeader_message_sized : MessageSized LibfabricMessageHeader.
Proof. unfold MessageSized. size_message_tac. Qed.

#[export] Instance LibfabricObjFlushInfos_message : Message LibfabricObjFlushInfos := {|
  applySerializerDef := LibfabricObjFlushInfos_applySerializerDef;
  m_wf v := m_wf (fl_objectId v) /\ is_u64 (fl_offset v) /\ is_u64 (fl_size v);
  m_regions _ := [];
  m_payload _ _ := [];
  m_bytes m v := m_bytes m (fl_objectId v) ++ le_split 8 (fl_offset v) ++ le_split 8 (fl_size v) ++ [];
  m_decoded _ v _ := v;
  m_view _ _ := [];
|}.
#[export] Instance LibfabricObjFlushInfos_message_ok : MessageOk LibfabricObjFlushInfos.
Proof. split; [pack_message_tac|unpack_message_tac|done]. Qed.
#[export] Instance LibfabricObjFlushInfos_message_sized : MessageSized LibfabricObjFlushInfos.
Proof. unfold MessageSized. size_message_tac. Qed.

#[export] Instance LibfabricObjCreateInfos_message : Message LibfabricObjCreateInfos := {|
  applySerializerDef := LibfabricObjCreateInfos_applySerializerDef;
  m_wf v := m_wf (cr_objectId v);
  m_regions _ := [];
  m_payload _ _ := [];
  m_bytes m v := m_bytes m (cr_objectId v) ++ [];
  m_decoded _ v _ := v;
  m_view _ _ := [];
|}.
#[export] Instance LibfabricObjCreateInfos_message_ok : MessageOk LibfabricObjCreateInfos.
Proof. split; [pack_message_tac|unpack_message_tac|done]. Qed.
#[export] Instance LibfabricObjCreateInfos_message_sized : MessageSized LibfabricObjCreateInfos.
Proof. unfold MessageSized. size_message_tac. Qed.

#[export] Instance LibfabricRegisterRange_message : Message LibfabricRegisterRange := {|
  applySerializerDef := LibfabricRegisterRange_applySerializerDef;
  m_wf v := m_wf (rr_objectId v) /\ is_u64 (rr_offset v) /\ is_u64 (rr_size v);
  m_regions _ := [];
  m_payload _ _ := [];
  m_bytes m v := m_bytes m (rr_objectId v) ++ le_split 8 (rr_offset v) ++ le_split 8 (rr_size v) ++ bool_bytes (rr_write v) ++ [];
  m_decoded _ v _ := v;
  m_view _ _ := [];
|}.
#[export] Instance LibfabricRegisterRange_message_ok : MessageOk LibfabricRegisterRange.
Proof. split; [pack_message_tac|unpack_message_tac|done]. Qed.
#[export] Instance LibfabricRegisterRange_message_sized : MessageSized LibfabricRegisterRange.
Proof. unfold MessageSized. size_message_tac. Qed.

#[export] Instance LibfabricUnregisterRange_message : Message LibfabricUnregisterRange := {|
  applySerializerDef := LibfabricUnregisterRange_applySerializerDef;
  m_wf v := m_wf (ur_objectId v) /\ is_u64 (ur_offset v) /\ is_u64 (ur_size v) /\ is_i32 (ur_id v);
  m_regions _ := [];
  m_payload _ _ := [];
  m_bytes m v := m_bytes m (ur_objectId v) ++ le_split 8 (ur_offset v) ++ le_split 8 (ur_size v) ++ le_split 4 (ur_id v) ++ bool_bytes (ur_write v) ++ [];
  m_decoded _ v _ := v;
  m_view _ _ := [];
|}.
#[export] Instance LibfabricUnregisterRange_message_ok : MessageOk LibfabricUnregisterRange.
Proof. split; [pack_message_tac|unpack_message_tac|done]. Qed.
#[export] Instance LibfabricUnregisterRange_message_sized : MessageSized LibfabricUnregisterRange.
Proof. unfold MessageSized. size_message_tac. Qed.

#[export] Instance LibfabricObjectCow_message : Message LibfabricObjectCow := {|
  applySerializerDef := LibfabricObjectCow_applySerializerDef;
  m_wf v := m_wf (cow_sourceObjectId v) /\ m_wf (cow_destObjectId v) /\ is_u64 (cow_rangeOffset v) /\ is_u64 (cow_rangeSize v);
  m_regions _ := [];
  m_payload _ _ := [];
  m_bytes m v := m_bytes m (cow_sourceObjectId v) ++ m_bytes m (cow_destObjectId v) ++ bool_bytes (cow_allowExist v) ++ le_split 8 (cow_rangeOffset v) ++ le_split 8 (cow_rangeSize v) ++ [];
  m_decoded _ v _ := v;
  m_view _ _ := [];
|}.
#[export] Instance LibfabricObjectCow_message_ok : MessageOk LibfabricObjectCow.
Proof. split; [pack_message_tac|unpack_message_tac|done]. Qed.
#[export] Instance LibfabricObjectCow_message_sized : MessageSized LibfabricObjectCow.
Proof. unfold MessageSized. size_message_tac. Qed.

#[export] Instance LibfabricFirstHandshake_message : Message LibfabricFirstHandshake := {|
  applySerializerDef := LibfabricFirstHandshake_applySerializerDef;
  m_wf v := is_i32 (hs_protocolVersion v) /\ is_u64 (hs_assignLfClientId v);
  m_regions _ := [];
  m_payload _ _ := [];
  m_bytes _ v := le_split 4 (hs_protocolVersion v) ++ le_split 8 (hs_assignLfClientId v) ++ [];
  m_decoded _ v _ := v;
  m_view _ _ := [];
|}.
#[export] Instance LibfabricFirstHandshake_message_ok : MessageOk LibfabricFirstHandshake.
Proof. split; [pack_message_tac|unpack_message_tac|done]. Qed.
#[export] Instance LibfabricFirstHandshake_message_sized : MessageSized LibfabricFirstHandshake.
Proof. unfold MessageSized. size_message_tac. Qed.

#[export] Instance LibfabricEmpty_message : Message LibfabricEmpty := {|
  applySerializerDef := LibfabricEmpty_applySerializerDef;
  m_wf _ := True;
  m_regions _ := [];
  m_payload _ _ := [];
  m_bytes _ _ := [];
  m_decoded _ v _ := v;
  m_view _ _ := [];
|}.
#[export] Instance LibfabricEmpty_message_ok : MessageOk LibfabricEmpty.
Proof.
  split; [| |done].
  - intros m buf sz [] st _ _ _ Hp. by apply pack_spec_ret.
  - intros m [] [] st _ _ _ _. apply skips_ret.
Qed.
#[export] Instance LibfabricEmpty_message_sized : MessageSized LibfabricEmpty.
Proof. intros m [] st _ _. apply skips_ret. Qed.

#[export] Instance LibfabricFirstClientMessage_message : Message LibfabricFirstClientMessage := {|
  applySerializerDef := LibfabricFirstClientMessage_applySerializerDef;
  m_wf v := blen (fc_addr v) = IOC_LF_MAX_ADDR_LEN;
  m_regions _ := [];
  m_payload _ _ := [];
  m_bytes _ v := fc_addr v ++ [];
  m_decoded _ v _ := v;
  m_view _ _ := [];
|}.
#[export] Instance LibfabricFirstClientMessage_message_ok : MessageOk LibfabricFirstClientMessage.
Proof.
  split; [| |done].
  - intros m buf sz [addr] st Hw Hon _ Hp. simpl in *. unfold LibfabricFirstClientMessage_applySerializerDef.
    eapply pack_field; [done|done| |].
    + rewrite Hw. intros ?. by apply (apply_scalar_pack IOC_LF_MAX_ADDR_LEN (fun l => l)).
    + intros. by apply pack_spec_ret.
  - intros m old [addr] st Hw Hz Hb Hh. simpl in *. unfold LibfabricFirstClientMessage_applySerializerDef.
    eapply unpack_field; [done|done|done|done| |].
    + intros Hl. rewrite Hw. by apply (apply_scalar_unpack IOC_LF_MAX_ADDR_LEN (fun l => l) (fun l => l)).
    + intros. apply skips_ret.
Qed.
#[export] Instance LibfabricFirstClientMessage_message_sized : MessageSized LibfabricFirstClientMessage.
Proof.
  intros m [addr] st Hw Hs. simpl in *. unfold LibfabricFirstClientMessage_applySerializerDef.
  eapply size_field; [done| |].
  - rewrite Hw. by apply apply_scalar_size.
  - intros. apply skips_ret.
Qed.

#[export] Instance LibfabricErrorMessage_message `{StringStorage} : Message LibfabricErrorMessage := {|
  applySerializerDef := LibfabricErrorMessage_applySerializerDef;
  m_wf v := x00 ∉ em_errorMessage v;
  m_regions _ := [];
  m_payload _ _ := [];
  m_bytes _ v := string_bytes (em_errorMessage v) ++ [];
  m_decoded _ v _ := v;
  m_view _ _ := [];
|}.
#[export] Instance LibfabricErrorMessage_message_ok `{StringStorage} : MessageOk LibfabricErrorMessage.
Proof.
  split; [| |done].
  - intros m buf sz [msg] st Hw Hon _ Hp. simpl in *. unfold LibfabricErrorMessage_applySerializerDef.
    eapply pack_field; [done|done| |].
    + rewrite string_bytes_length. apply apply_string_pack.
    + intros. by apply pack_spec_ret.
  - intros m old [msg] st Hw Hz Hb Hh. simpl in *. unfold LibfabricErrorMessage_applySerializerDef.
    eapply unpack_field; [done|done|done|done| |].
    + by apply apply_string_unpack.
    + intros. apply skips_ret.
Qed.

(** *** Messages with data *)

(** The data of a message that has one region of [n] bytes at [p]. *)
Definition data_bytes (m : mem) (has : bool) (p n : Z) : list byte := if has then rd m p n else [].
#[global] Arguments data_bytes : simpl never.

Lemma optional_pack m buf sz (has : bool) name p n st :
  0 <= n -> on_buffer m buf sz st -> apart buf sz (if has then [(p, n)] else []) ->
  packing st (blen (data_bytes m has p n)) ->
  pack_spec (if has then serializeOrPoint name p n else ret p) p (data_bytes m has p n) st.
Proof.
  unfold data_bytes. destruct has; intros Hn Hon Ha Hp.
  - apply Forall_cons in Ha as [Ha _]. by apply (data_pack m buf sz).
  - by apply pack_spec_ret.
Qed.

Lemma optional_unpack m (has : bool) name old p0 n p st :
  0 <= n -> holds st (data_bytes m has p0 n) -> buffer st + cursor st = p ->
  skips (if has then serializeOrPoint name old n else ret old) (if has then p else old)
    (blen (data_bytes m has p0 n)) st.
Proof.
  unfold data_bytes. destruct has; intros Hn Hh Hp; [|apply skips_ret].
  apply data_unpack; [done| |done]. by rewrite rd_length.
Qed.

Lemma optional_size m (has : bool) name p n st :
  0 <= n -> sizing st (blen (data_bytes m has p n)) ->
  skips (if has then serializeOrPoint name p n else ret p) p (blen (data_bytes m has p n)) st.
Proof.
  unfold data_bytes. destruct has; intros Hn Hs; [|apply skips_ret].
  apply data_size; [by rewrite rd_length|done].
Qed.

(** The receiver finds the data after the [k] bytes of the fields. *)
Lemma data_view m m' has p n q k (l : list byte) :
  0 <= n -> k = blen l ->
  rd m' q (blen (l ++ data_bytes m has p n ++ [])) = l ++ data_bytes m has p n ++ [] ->
  data_bytes m' has (q + k) n = data_bytes m has p n.
Proof.
  intros Hn Hk Hrd. rewrite app_nil_r, length_app, Nat2Z.inj_add, rd_app in Hrd by lia.
  apply app_inj_1 in Hrd as [_ Hrd]; [|rewrite rd_length_nat; lia].
  unfold data_bytes in *. destruct has; [|done]. by rewrite rd_length, <- Hk in Hrd.
Qed.

#[export] Instance LibfabricPing_message : Message LibfabricPing := {|
  applySerializerDef := LibfabricPing_applySerializerDef;
  m_wf v := is_u64 (ping_rdmaSize v) /\ is_u64 (ping_eagerSize v) /\ m_wf (ping_rdmaIov v);
  m_regions v := if ping_eagerSize v >? 0 then [(ping_eagerData v, ping_eagerSize v)] else [];
  m_payload m v := data_bytes m (ping_eagerSize v >? 0) (ping_eagerData v) (ping_eagerSize v);
  m_bytes m v := le_split 8 (ping_rdmaSize v) ++ le_split 8 (ping_eagerSize v) ++ m_bytes m (ping_rdmaIov v) ++
    data_bytes m (ping_eagerSize v >? 0) (ping_eagerData v) (ping_eagerSize v) ++ [];
  m_decoded old v p := mkPing (ping_rdmaSize v) (ping_eagerSize v) (ping_rdmaIov v)
    (if ping_eagerSize v >? 0 then p + 32 else ping_eagerData old);
  m_view m v := data_bytes m (ping_eagerSize v >? 0) (ping_eagerData v) (ping_eagerSize v);
|}.
#[export] Instance LibfabricPing_message_ok : MessageOk LibfabricPing.
Proof.
  split.
  - pack_message_tac. eapply pack_field; [done|done| |intros; by apply pack_spec_ret].
    intros ?. eapply optional_pack; try done. u64_arith.
  - unpack_message_tac. eapply unpack_field; [done|done|done|done| |intros; apply skips_ret].
    intros ?. rewrite !length_app, !le_split_length in *. eapply optional_unpack; [u64_arith|done|].
    simpl in *. lia.
  - intros m m' old [r e i d] p (? & ? & ?) Hrd. cbn [m_view m_decoded m_payload LibfabricPing_message ping_eagerSize ping_eagerData] in *.
    transitivity (data_bytes m' (e >? 0) (p + 32) e); [unfold data_bytes; by destruct (e >? 0)|].
    eapply (data_view m m' _ d e p 32 (le_split 8 r ++ le_split 8 e ++ m_bytes m i)); [u64_arith| |].
    + simpl. by rewrite !length_app, !le_split_length.
    + rewrite <- !app_assoc. exact Hrd.
Qed.
#[export] Instance LibfabricPing_message_sized : MessageSized LibfabricPing.
Proof.
  unfold MessageSized. size_message_tac. eapply size_field; [done| |intros; apply skips_ret].
  intros ?. apply optional_size; [u64_arith|done].
Qed.

#[export] Instance LibfabricObjReadWriteInfos_message : Message LibfabricObjReadWriteInfos := {|
  applySerializerDef := LibfabricObjReadWriteInfos_applySerializerDef;
  m_wf v := m_wf (rw_objectId v) /\ m_wf (rw_iov v) /\ is_u64 (rw_offset v) /\ is_u64 (rw_size v);
  m_regions v := if rw_msgHasData v then [(rw_optionalData v, rw_size v)] else [];
  m_payload m v := data_bytes m (rw_msgHasData v) (rw_optionalData v) (rw_size v);
  m_bytes m v := m_bytes m (rw_objectId v) ++ m_bytes m (rw_iov v) ++ le_split 8 (rw_offset v) ++
    le_split 8 (rw_size v) ++ bool_bytes (rw_msgHasData v) ++
    data_bytes m (rw_msgHasData v) (rw_optionalData v) (rw_size v) ++ [];
  m_decoded old v p := mkReadWrite (rw_objectId v) (rw_iov v) (rw_offset v) (rw_size v) (rw_msgHasData v)
    (if rw_msgHasData v then p + 49 else rw_optionalData old);
  m_view m v := data_bytes m (rw_msgHasData v) (rw_optionalData v) (rw_size v);
|}.
#[export] Instance LibfabricObjReadWriteInfos_message_ok : MessageOk LibfabricObjReadWriteInfos.
Proof.
  split.
  - pack_message_tac. eapply pack_field; [done|done| |intros; by apply pack_spec_ret].
    intros ?. eapply optional_pack; try done. u64_arith.
  - unpack_message_tac. eapply unpack_field; [done|done|done|done| |intros; apply skips_ret].
    intros ?. rewrite !length_app, !le_split_length in *. eapply optional_unpack; [u64_arith|done|].
    change (blen (bool_bytes rw_msgHasData0)) with 1 in *. simpl in *. lia.
  - intros m m' old [oid iov off sz has d] p (? & ? & ? & ?) Hrd.
    cbn [m_view m_decoded m_payload LibfabricObjReadWriteInfos_message rw_msgHasData rw_optionalData rw_size] in *.
    transitivity (data_bytes m' has (p + 49) sz); [unfold data_bytes; by destruct has|].
    eapply (data_view m m' _ d sz p 49
              (m_bytes m oid ++ m_bytes m iov ++ le_split 8 off ++ le_split 8 sz ++ bool_bytes has)); [u64_arith| |].
    + simpl. rewrite !length_app, !le_split_length. done.
    + rewrite <- !app_assoc. exact Hrd.
Qed.
#[export] Instance LibfabricObjReadWriteInfos_message_sized : MessageSized LibfabricObjReadWriteInfos.
Proof.
  unfold MessageSized. size_message_tac. eapply size_field; [done| |intros; apply skips_ret].
  intros ?. apply optional_size; [u64_arith|done].
Qed.

(** *** The response and its fragments *)

Definition fragments_bytes (m : mem) (l : list LibfabricBuffer) : list byte :=
  concat ((fun f => rd m (lb_buffer f) (lb_size f)) <$> l).

Definition fragments_wf (l : list LibfabricBuffer) : Prop :=
  Forall (fun f => lb_buffer f <> 0 /\ 0 <= lb_size f) l.

Definition fragments_regions (l : list LibfabricBuffer) : list (Z * Z) :=
  (fun f => (lb_buffer f, lb_size f)) <$> l.

Lemma fragments_pack m buf sz l st :
  fragments_wf l -> on_buffer m buf sz st -> apart buf sz (fragments_regions l) ->
  packing st (blen (fragments_bytes m l)) ->
  pack_spec (apply_fragments l (length l)) tt (fragments_bytes m l) st.
Proof.
  unfold fragments_bytes. revert st. induction l as [|f l IH]; intros st Hw Hon Ha Hp; simpl in *.
  - by apply pack_spec_ret.
  - apply Forall_cons in Hw as [[Hf Hs] Hw]. apply Forall_cons in Ha as [Hd Ha]. simpl in Hd.
    eapply pack_field; [done|done| |].
    + intros Hp1. rewrite rd_length in Hp1 by done. rewrite <- (region_same _ _ _ _ _ _ Hon Hd).
      by apply apply_raw_pack.
    + intros st' Hon' Hp'. by apply IH.
Qed.

Lemma fragments_size m l st :
  fragments_wf l -> sizing st (blen (fragments_bytes m l)) ->
  skips (apply_fragments l (length l)) tt (blen (fragments_bytes m l)) st.
Proof.
  unfold fragments_bytes. revert st. induction l as [|f l IH]; intros st Hw Hs; simpl in *; [apply skips_ret|].
  apply Forall_cons in Hw as [[Hf Hn] Hw]. eapply size_field; [done| |].
  - rewrite rd_length by done. by apply apply_raw_size.
  - intros st' Hs'. by apply IH.
Qed.

(** The data of a response, as fragments or in one piece. *)
Definition response_data (m : mem) (v : LibfabricResponse) : list byte :=
  if rsp_msgHasData v then
    match rsp_optionalDataFragments v with
    | Some l => fragments_bytes m l
    | None => rd m (rsp_optionalData v) (rsp_msgDataSize v)
    end
  else [].
#[global] Arguments response_data : simpl never.

(** The announced size is that of the data. *)
Definition response_wf (v : LibfabricResponse) : Prop :=
  is_u64 (rsp_msgDataSize v) /\ is_i32 (rsp_status v) /\
  (rsp_msgHasData v = true -> forall l, rsp_optionalDataFragments v = Some l ->
     rsp_optionalData v = 0 /\ rsp_optionalDataFragmentCount v = Z.of_nat (length l) /\
     fragments_wf l /\ foldr Z.add 0 (lb_size <$> l) = rsp_msgDataSize v).

Lemma fragments_bytes_length m l :
  fragments_wf l -> blen (fragments_bytes m l) = foldr Z.add 0 (lb_size <$> l).
Proof.
  induction l as [|f l IH]; [done|]. intros [[_ Hs] Hw]%Forall_cons.
  change (fragments_bytes m (f :: l)) with (rd m (lb_buffer f) (lb_size f) ++ fragments_bytes m l).
  rewrite length_app, Nat2Z.inj_add, rd_length, IH; done.
Qed.

Lemma response_data_length m v :
  response_wf v -> blen (response_data m v) = if rsp_msgHasData v then rsp_msgDataSize v else 0.
Proof.
  intros (Hs & _ & Hf). unfold response_data. destruct (rsp_msgHasData v) eqn:E; [|done].
  destruct (rsp_optionalDataFragments v) as [l|] eqn:El.
  - destruct (Hf eq_refl l eq_refl) as (_ & _ & Hw & <-). by apply fragments_bytes_length.
  - apply rd_length. u64_arith.
Qed.

Definition response_regions (v : LibfabricResponse) : list (Z * Z) :=
  if rsp_msgHasData v then
    match rsp_optionalDataFragments v with
    | Some l => fragments_regions l
    | None => [(rsp_optionalData v, rsp_msgDataSize v)]
    end
  else [].

#[export] Instance LibfabricResponse_message : Message LibfabricResponse := {|
  applySerializerDef := LibfabricResponse_applySerializerDef;
  m_wf := response_wf;
  m_regions := response_regions;
  m_payload := response_data;
  m_bytes m v := le_split 8 (rsp_msgDataSize v) ++ le_split 4 (rsp_status v) ++
    bool_bytes (rsp_msgHasData v) ++ response_data m v ++ [];
  m_decoded old v p := mkResponse (rsp_msgDataSize v) (rsp_status v) (rsp_msgHasData v)
    (if rsp_msgHasData v then p + 13 else rsp_optionalData old)
    (rsp_optionalDataFragments old) (rsp_optionalDataFragmentCount old);
  m_view m v := data_bytes m (rsp_msgHasData v) (rsp_optionalData v) (rsp_msgDataSize v);
|}.

Lemma bind_unit_ret {A} (d : M Ser unit) (a : A) l st :
  pack_spec d tt l st -> pack_spec (d ;; ret a) a l st.
Proof.
  unfold pack_spec, packs, bind. case_decide; [|by intros ->].
  intros (st' & -> & P). by exists st'.
Qed.

Lemma pack_spec_gets {A B} (f : Ser -> A) (k : A -> M Ser B) a b l st :
  f st = a -> pack_spec (k a) b l st -> pack_spec (let! x := gets f in k x) b l st.
Proof. by intros <-. Qed.

Lemma skips_gets {A B} (f : Ser -> A) (k : A -> M Ser B) a b n st :
  f st = a -> skips (k a) b n st -> skips (let! x := gets f in k x) b n st.
Proof. by intros <-. Qed.

#[export] Instance LibfabricResponse_message_ok : MessageOk LibfabricResponse.
Proof.
  split.
  - intros m buf sz [n s has d fr c] st Hw Hon Ha Hp. pose proof Hw as (? & ? & Hf). simpl in *.
    unfold LibfabricResponse_applySerializerDef. simpl. pack_fields.
    eapply pack_field; [done|done| |intros; by apply pack_spec_ret].
    intros Hp'. unfold response_data, response_regions in *. simpl in *.
    destruct has; [|by apply pack_spec_ret].
    apply pack_spec_gets with (a := SERIALIZER_PACK); [apply Hp'|].
    destruct fr as [l|]; simpl.
    + destruct (Hf eq_refl l eq_refl) as (-> & -> & Hw' & _). rewrite Nat2Z.id.
      apply (bind_unit_ret (apply_fragments l (length l))). by eapply fragments_pack.
    + apply Forall_cons in Ha as [Ha _]. eapply data_pack; try done. u64_arith.
  - intros m old [n s has d fr c] st Hw Hz Hb Hh. pose proof Hw as (? & ? & Hf). simpl in *.
    unfold LibfabricResponse_applySerializerDef. simpl.
    remember (buffer st + cursor st) as p eqn:Hpos; symmetry in Hpos. unpack_fields.
    eapply unpack_field; [done|done|done|done| |intros; apply skips_ret].
    intros Hh'. rewrite (response_data_length m _ Hw). simpl. destruct has; [|apply skips_ret].
    apply skips_gets with (a := SERIALIZER_UNPACK); [apply Hh'|]. simpl.
    pose proof (response_data_length m _ Hw) as Hl. simpl in Hl.
    rewrite <- Hl at 2. apply data_unpack; [done|done|].
    rewrite !le_split_length in *. change (blen (bool_bytes true)) with 1 in *. lia.
  - intros m m' old v p Hw Hrd. pose proof (response_data_length m v Hw) as Hl.
    destruct Hw as (? & _). simpl in *. rewrite app_nil_r in Hrd.
    rewrite !length_app, !le_split_length in Hrd. change (length (bool_bytes (rsp_msgHasData v))) with 1%nat in Hrd.
    unfold data_bytes, response_data in *. destruct (rsp_msgHasData v); [|done].
    set (data := match rsp_optionalDataFragments v with Some _ => _ | None => _ end) in *.
    replace (Z.of_nat (8 + (4 + (1 + length data)))) with (13 + rsp_msgDataSize v) in Hrd by lia.
    rewrite rd_app, !app_assoc in Hrd by u64_arith. apply app_inj_1 in Hrd as [_ Hrd]; [done|].
    rewrite rd_length_nat, !length_app, !le_split_length. done.
Qed.
#[export] Instance LibfabricResponse_message_sized : MessageSized LibfabricResponse.
Proof.
  intros m [n s has d fr c] st Hw Hs. pose proof Hw as (? & ? & Hf). simpl in *.
  unfold LibfabricResponse_applySerializerDef. simpl. size_fields.
  eapply size_field; [done| |intros; apply skips_ret].
  intros Hs'. pose proof (response_data_length m _ Hw) as Hl. unfold response_data in *. simpl in *.
  destruct has; [|apply skips_ret].
  apply skips_gets with (a := SERIALIZER_SIZE); [apply Hs'|].
  destruct fr as [l|]; simpl.
  - destruct (Hf eq_refl l eq_refl) as (-> & -> & Hw' & _). rewrite Nat2Z.id.
    destruct (fragments_size m l _ Hw' Hs') as (st2 & E & P). exists st2. unfold bind. simpl. by rewrite E.
  - by apply data_size.
Qed.

(** ** Properties *)

(** C20: a message of any type, packed by the sender in a buffer it fits in and
    unpacked by the receiver over any previous value, gives back every field,
    the data pointer of the receiver points to the bytes the sender sent
    (gathered from its fragments for a response), and both sides consume the
    same number of bytes. *)
Theorem protocol_roundtrip `{StringStorage} :
  roundtrips Iov /\ roundtrips LibfabricPing /\ roundtrips LibfabricObjectId /\
  roundtrips LibfabricMessageHeader /\ roundtrips LibfabricObjReadWriteInfos /\
  roundtrips LibfabricObjFlushInfos /\ roundtrips LibfabricObjCreateInfos /\
  roundtrips LibfabricRegisterRange /\ roundtrips LibfabricUnregisterRange /\
  roundtrips LibfabricObjectCow /\ roundtrips LibfabricResponse /\
  roundtrips LibfabricFirstHandshake /\ roundtrips LibfabricFirstClientMessage /\
  roundtrips LibfabricEmpty /\ roundtrips LibfabricErrorMessage.
Proof. repeat split; apply roundtrips_of. Qed.

(** A storage for strings, for the concrete instances. *)
Definition some_storage : StringStorage.
Proof. by refine {| c_str := fun _ => 4096 |}. Defined.

Lemma protocol_roundtrip_witness :
  roundtrips LibfabricErrorMessage (H := @LibfabricErrorMessage_message some_storage).
Proof. apply (@protocol_roundtrip some_storage). Defined.

(** C21: packing a message of any type never writes outside the bytes of the
    message: when it does not fit, the size check stops the process; when it
    does, the buffer starts with the wire format and no other byte of the memory
    has changed. *)
Theorem protocol_pack_safe `{StringStorage} :
  packs_safely Iov /\ packs_safely LibfabricPing /\ packs_safely LibfabricObjectId /\
  packs_safely LibfabricMessageHeader /\ packs_safely LibfabricObjReadWriteInfos /\
  packs_safely LibfabricObjFlushInfos /\ packs_safely LibfabricObjCreateInfos /\
  packs_safely LibfabricRegisterRange /\ packs_safely LibfabricUnregisterRange /\
  packs_safely LibfabricObjectCow /\ packs_safely LibfabricResponse /\
  packs_safely LibfabricFirstHandshake /\ packs_safely LibfabricFirstClientMessage /\
  packs_safely LibfabricEmpty /\ packs_safely LibfabricErrorMessage.
Proof. repeat split; apply packs_safely_of. Qed.

Lemma protocol_pack_safe_witness :
  packs_safely LibfabricErrorMessage (H := @LibfabricErrorMessage_message some_storage).
Proof. apply (@protocol_pack_safe some_storage). Defined.

(** C35: [computeSize] of a message of any type but LibfabricErrorMessage is the
    number of bytes packing it takes, data included. *)
Theorem protocol_computeSize :
  measured Iov /\ measured LibfabricPing /\ measured LibfabricObjectId /\
  measured LibfabricMessageHeader /\ measured LibfabricObjReadWriteInfos /\
  measured LibfabricObjFlushInfos /\ measured LibfabricObjCreateInfos /\
  measured LibfabricRegisterRange /\ measured LibfabricUnregisterRange /\
  measured LibfabricObjectCow /\ measured LibfabricResponse /\
  measured LibfabricFirstHandshake /\ measured LibfabricFirstClientMessage /\
  measured LibfabricEmpty.
Proof. repeat split; apply measured_of. Qed.

(** [computeSize] of an error message is 0 whatever its text: a string is
    not counted by the measuring action, although packing it takes its length
    plus nine bytes. *)
Theorem computeSize_string_zero `{StringStorage} m v :
  computeSize LibfabricErrorMessage_applySerializerDef m v = Ok 0 /\
  blen (m_bytes m v) = 9 + blen (em_errorMessage v).
Proof.
  split.
  - unfold computeSize.
    destruct (apply_struct_skips LibfabricErrorMessage_applySerializerDef "value" v v 0
                (mkSer m 0 (two64 - 1) 0 SERIALIZER_SIZE [] false true)) as (st & E & _ & Hc & _).
    { done. }
    { destruct v as [msg]. unfold LibfabricErrorMessage_applySerializerDef. simpl.
      destruct (apply_string_size "errorMessage" msg
        (set_root false (mkSer m 0 (two64 - 1) 0 SERIALIZER_SIZE [] false true))) as (st & E & P).
      { split; [done|]. unfold room. simpl. rewrite two64_eq. lia. }
      exists st. unfold bind. by rewrite E. }
    change (init_buffer m 0 (two64 - 1) SERIALIZER_SIZE)
      with (Ok (mkSer m 0 (two64 - 1) 0 SERIALIZER_SIZE [] false true)).
    cbv iota. rewrite E. by rewrite Hc.
  - simpl. by rewrite app_nil_r, string_bytes_length.
Qed.

Lemma computeSize_string_zero_witness :
  computeSize (@LibfabricErrorMessage_applySerializerDef some_storage) (fun _ => x00) (mkError [x68; x69]) = Ok 0.
Proof. apply (@computeSize_string_zero some_storage). Defined.

(** A request with data, packed then unpacked. *)
Example roundtrip_write_request :
  let m := wr (fun _ => x00) 9000 [x68; x65; x79] in
  let v := mkReadWrite (mkObjectId (-5) 7) (mkIov 1 2) 4096 3 true 9000 in
  match pack_message m 500 200 v with
  | Ok (_, st) =>
      match unpack_message (s_mem st) 500 200 (mkReadWrite (mkObjectId 0 0) (mkIov 0 0) 0 0 false 0) with
      | Ok (v', st') => (v', cursor st', rd (s_mem st') (rw_optionalData v') 3)
      | Abort _ => (v, 0, [])
      end
  | Abort _ => (v, 0, [])
  end = (mkReadWrite (mkObjectId (-5) 7) (mkIov 1 2) 4096 3 true 549, 52, [x68; x65; x79]).
Proof. vm_compute. reflexivity. Qed.

End Protocol.
