(* ===== verification/ProtocolTypes.v ===== *)
(** * Messages of the network are well typed

    What the receiver of a message knows of it when its bytes are anything: the
    fields that DeSerializer::pop gives are values of their C++ types, the data is
    inside the buffer unless its size makes the check of the size wrap, and nothing
    outside the buffer was looked at. *)

From S2P Require Import Prelude Memory Serializer Protocol.

Module ProtocolTypes.
Import Serializer Protocol.

(** A deserializer inside a buffer of less than 2^63 bytes. *)
Definition reading (st : Ser) : Prop :=
  action st = SERIALIZER_UNPACK /\ 0 <= buffer st /\ 0 <= cursor st <= size st /\ size st < two63.

(** [m] has the bytes of the buffer. *)
Definition same_buffer (st : Ser) (m : mem) : Prop :=
  forall a, buffer st <= a < buffer st + size st -> m a = s_mem st a.

Abbreviation on_mem m st := (set_mem (fun _ => m) st).

(** [d] stops on a check, or returns a value that satisfies [P] of the buffer; it
    changes no memory and the memory outside the buffer does not matter. *)
Definition decodes {A} (P : Z -> Z -> A -> Prop) (d : M Ser A) : Prop := forall st, reading st ->
  match d st with
  | Ok (a, st') => P (buffer st) (size st) a /\ reading st' /\ same_config st st' /\ s_mem st' = s_mem st /\
      forall m, same_buffer st m -> d (on_mem m st) = Ok (a, on_mem m st')
  | Abort f => f = FAssume /\ forall m, same_buffer st m -> d (on_mem m st) = Abort f
  end.

Lemma decodes_ret {A} P (a : A) : (forall b n, P b n a) -> decodes P (ret a).
Proof. intros Ha st Hr. by repeat split; try apply Hr. Qed.

Lemma decodes_bind {A B} P Q (d : M Ser A) (k : A -> M Ser B) :
  decodes Q d -> (forall a, (exists b n, Q b n a) -> decodes (fun b n x => Q b n a -> P b n x) (k a)) -> decodes P (bind d k).
Proof.
  intros Hd Hk st Hr. specialize (Hd st Hr). unfold bind. destruct (d st) as [[a st1]|f].
  - destruct Hd as (Ha & Hr1 & (Eb & Es & Ea) & Em & Hm). specialize (Hk a (ex_intro _ _ (ex_intro _ _ Ha)) st1 Hr1).
    assert (forall m, same_buffer st m -> same_buffer st1 m) as Hsb by (intros m; unfold same_buffer; by rewrite Eb, Es, Em).
    destruct (k a st1) as [[b st2]|f].
    + destruct Hk as (Hb & Hr2 & (Eb2 & Es2 & Ea2) & Em2 & Hm2). rewrite Eb, Es in Hb. split; [auto|]. split; [done|].
      split; [split; [congruence|split; congruence]|]. split; [congruence|]. intros m H. rewrite (Hm m H). auto.
    + destruct Hk as [-> Hm2]. split; [done|]. intros m H. rewrite (Hm m H). auto.
  - destruct Hd as [-> Hm]. split; [done|]. intros m H. by rewrite (Hm m H).
Qed.

Lemma decodes_mono {A} (P Q : Z -> Z -> A -> Prop) d : decodes P d -> (forall b n a, P b n a -> Q b n a) -> decodes Q d.
Proof.
  intros Hd Hpq st Hr. specialize (Hd st Hr). destruct (d st) as [[a st1]|f]; [|done]. destruct Hd as (? & ?). split; [auto|done].
Qed.

(** *** Fields *)

Lemma i64_range x : is_i64 (i64 x).
Proof.
  unfold is_i64, i64, swrap. change (2 ^ 64) with 18446744073709551616. change (2 ^ (64 - 1)) with 9223372036854775808.
  pose proof (Z.mod_pos_bound (x + 9223372036854775808) 18446744073709551616). lia.
Qed.

Lemma checkSize_read name n st :
  action st = SERIALIZER_UNPACK -> checkSize name n st = if cursor st +u n <=? size st then Ok (tt, st) else Abort FAssume.
Proof. intros Ha. unfold checkSize, bind, get. rewrite Ha. simpl. by destruct (cursor st +u n <=? size st). Qed.

Lemma decodes_scalar {A} n enc dec print name (v : A) (P : A -> Prop) :
  0 <= n < 64 -> (forall l, blen l = n -> P (dec l)) -> decodes (fun _ _ => P) (apply_scalar n enc dec print name v).
Proof.
  intros Hn HP st (Ha & Hb & Hc & Hs). assert (two64 = 2 * two63 /\ 64 < two63) as [E ?] by (rewrite two63_eq, two64_eq; lia).
  unfold apply_scalar, bind, get. rewrite Ha. simpl. rewrite Ha. simpl. rewrite checkSize_read by done. rewrite u64_small by lia.
  destruct (cursor st + n <=? size st) eqn:Hle.
  - split; [apply HP, rd_length; lia|]. split; [repeat split; simpl; try done; rewrite u64_small; lia|]. split; [done|]. split; [done|].
    intros m Hm. rewrite checkSize_read by done. simpl. rewrite u64_small by lia. rewrite Hle.
    simpl. rewrite (rd_ext m (s_mem st)), u64_small by (try (intros a Hin; apply Hm); lia). done.
  - split; [done|]. intros m Hm. rewrite checkSize_read by done. simpl. rewrite u64_small by lia. by rewrite Hle.
Qed.

Lemma decodes_u64 name v : decodes (fun _ _ => is_u64) (apply_u64 name v).
Proof. apply decodes_scalar; [done|]. intros l Hl. pose proof (le_combine_range l) as Hr. rewrite Hl in Hr. exact Hr. Qed.

Lemma decodes_i64 name v : decodes (fun _ _ => is_i64) (apply_i64 name v).
Proof. apply decodes_scalar; [done|]. intros l _. apply i64_range. Qed.

Lemma decodes_i32 name v : decodes (fun _ _ => is_i32) (apply_i32 name v).
Proof. apply decodes_scalar; [done|]. intros l _. apply i32_range. Qed.

Lemma decodes_bool name v : decodes (fun _ _ _ => True) (apply_bool name v).
Proof. by apply decodes_scalar. Qed.

Lemma decodes_array n name v : 0 <= n < 64 -> decodes (fun _ _ l => blen l = n) (apply_array n name v).
Proof. intros Hn. by apply decodes_scalar. Qed.

(** The data is inside the buffer, unless its size is so large that adding it to
    the size of the buffer wraps. *)
Definition inside (buf sz : Z) (r : Z * Z) : Prop := r.2 + sz < two64 -> buf <= r.1 /\ r.1 + r.2 <= buf + sz.

Lemma decodes_data name p n : is_u64 n -> decodes (fun buf sz q => inside buf sz (q, n)) (serializeOrPoint name p n).
Proof.
  unfold is_u64. intros Hn st (Ha & Hb & Hc & Hs). unfold serializeOrPoint, bind, get. rewrite Ha. simpl. rewrite Ha. simpl. rewrite checkSize_read by done.
  pose proof (u64_range (cursor st + n)) as Hr. destruct (cursor st +u n <=? size st) eqn:Hle.
  - split. { intros Hw. simpl in *. rewrite u64_small in Hle by lia. lia. }
    split; [repeat split; simpl; try done; lia|]. split; [done|]. split; [done|]. intros m Hm. rewrite checkSize_read by done. simpl. by rewrite Hle.
  - split; [done|]. intros m Hm. rewrite checkSize_read by done. simpl. by rewrite Hle.
Qed.

Lemma decodes_struct {T} (P : Z -> Z -> T -> Prop) (def : T -> M Ser T) name v : decodes P (def v) -> decodes P (apply_struct def name v).
Proof.
  intros Hd st Hr. specialize (Hd (set_root false st) Hr). unfold apply_struct, bind, get. pose proof (proj1 Hr) as Ha. rewrite Ha. simpl.
  assert (forall m, same_buffer st m -> same_buffer (set_root false st) m) as Hsb by done. rewrite Ha. simpl.
  destruct (def v (set_root false st)) as [[a st1]|f].
  - destruct Hd as (HP & Hr1 & Hcf & Em & Hm). rewrite (proj1 Hr1). simpl. split; [done|]. split; [done|]. split; [done|]. split; [done|].
    intros m H. specialize (Hm m (Hsb m H)). change (set_root false (on_mem m st)) with (on_mem m (set_root false st)). rewrite Hm. simpl. by rewrite (proj1 Hr1).
  - destruct Hd as [-> Hm]. split; [done|]. intros m H. specialize (Hm m (Hsb m H)).
    change (set_root false (on_mem m st)) with (on_mem m (set_root false st)). by rewrite Hm.
Qed.

(** ** The messages *)

(** Whatever the bytes of the buffer, unpacking over [old] stops on the check of the
    size, or gives a value of type [P] whose data is inside the buffer, changes no
    memory, and depends on nothing outside the buffer. *)
Definition receives {T} `{Message T} (old : T) (P : T -> Prop) : Prop := forall m buf sz,
  0 < buf -> 0 < sz < two63 ->
  match unpack_message m buf sz old with
  | Ok (v, st) => P v /\ Forall (inside buf sz) (m_regions v) /\ s_mem st = m /\ 0 <= cursor st <= sz /\
      forall m', (forall a, buf <= a < buf + sz -> m' a = m a) -> exists st', unpack_message m' buf sz old = Ok (v, st') /\ cursor st' = cursor st
  | Abort f => f = FAssume
  end.

Definition typed {T} `{Message T} (P : T -> Prop) (buf sz : Z) (v : T) : Prop := P v /\ Forall (inside buf sz) (m_regions v).

Lemma receives_of {T} `{Message T} (old : T) P : decodes (typed P) (applySerializerDef old) -> receives old P.
Proof.
  intros Hd m buf sz Hb Hs. unfold unpack_message, init_buffer. destruct (buf =? 0) eqn:E; [lia|]. destruct (sz >? 0) eqn:E'; [|lia]. simpl.
  set (st := mkSer m buf sz 0 SERIALIZER_UNPACK [] false true).
  pose proof (decodes_struct _ _ "pop" old Hd st) as Hp. unfold pop. destruct (apply_struct applySerializerDef "pop" old st) as [[v st1]|f].
  - destruct Hp as ([Hv Hreg] & (_ & _ & Hc & _) & (_ & Es & _) & Em & Hm); [by repeat split; simpl; lia|]. rewrite Es in Hc.
    split_and!; try done; [apply Hc..|]. intros m' Hag. exists (on_mem m' st1). split; [|done]. apply Hm. intros a Ha. by apply Hag.
  - apply Hp. by repeat split; simpl; lia.
Qed.

#[local] Hint Resolve decodes_u64 decodes_i64 decodes_i32 decodes_bool decodes_data : core.

(** Goes through the fields of a definition; [typed_end] ends on the value built. *)
Ltac typed_end := intros; repeat match goal with H : typed _ _ _ _ |- _ => destruct H end; unfold typed; simpl in *; destruct_and?; repeat match goal with |- _ /\ _ => split end; first [assumption|by constructor|by eauto|idtac].
Ltac decode_fields :=
  repeat match goal with
  | |- decodes _ (bind (apply_struct _ _ _) _) => eapply decodes_bind; [apply decodes_struct; solve [eauto]|intros ? (? & ? & ?)]
  | |- decodes _ (bind _ _) => eapply decodes_bind; [solve [eauto]|intros ? (? & ? & ?)]
  | |- decodes _ (ret _) => apply decodes_ret; typed_end
  end.

Lemma decodes_id v : decodes (typed m_wf) (LibfabricObjectId_applySerializerDef v).
Proof. unfold LibfabricObjectId_applySerializerDef. decode_fields. Qed.
Lemma decodes_iov v : decodes (typed m_wf) (Iov_applySerializerDef v).
Proof. unfold Iov_applySerializerDef. decode_fields. Qed.
#[local] Hint Resolve decodes_id decodes_iov : core.

(** The optional data at the end of a message *)
Lemma decodes_optional (has : bool) name p n :
  is_u64 n -> decodes (fun buf sz q => Forall (inside buf sz) (if has then [(q, n)] else [])) (if has then serializeOrPoint name p n else ret p).
Proof.
  intros Hn. destruct has; [|by apply decodes_ret]. eapply decodes_mono; [by apply decodes_data|]. intros b k a Ha. by constructor.
Qed.
#[local] Hint Resolve decodes_optional : core.

Lemma decodes_header v : decodes (typed m_wf) (LibfabricMessageHeader_applySerializerDef v).
Proof. unfold LibfabricMessageHeader_applySerializerDef. decode_fields. Qed.
Lemma decodes_ping v : decodes (typed m_wf) (LibfabricPing_applySerializerDef v).
Proof. unfold LibfabricPing_applySerializerDef. decode_fields. Qed.
Lemma decodes_readWrite v : decodes (typed m_wf) (LibfabricObjReadWriteInfos_applySerializerDef v).
Proof. unfold LibfabricObjReadWriteInfos_applySerializerDef. decode_fields. Qed.
Lemma decodes_flush v : decodes (typed m_wf) (LibfabricObjFlushInfos_applySerializerDef v).
Proof. unfold LibfabricObjFlushInfos_applySerializerDef. decode_fields. Qed.
Lemma decodes_create v : decodes (typed m_wf) (LibfabricObjCreateInfos_applySerializerDef v).
Proof. unfold LibfabricObjCreateInfos_applySerializerDef. decode_fields. Qed.
Lemma decodes_register v : decodes (typed m_wf) (LibfabricRegisterRange_applySerializerDef v).
Proof. unfold LibfabricRegisterRange_applySerializerDef. decode_fields. Qed.
Lemma decodes_unregister v : decodes (typed m_wf) (LibfabricUnregisterRange_applySerializerDef v).
Proof. unfold LibfabricUnregisterRange_applySerializerDef. decode_fields. Qed.
Lemma decodes_cow v : decodes (typed m_wf) (LibfabricObjectCow_applySerializerDef v).
Proof. unfold LibfabricObjectCow_applySerializerDef. decode_fields. Qed.
Lemma decodes_handshake v : decodes (typed m_wf) (LibfabricFirstHandshake_applySerializerDef v).
Proof. unfold LibfabricFirstHandshake_applySerializerDef. decode_fields. Qed.
Lemma decodes_firstClient v : decodes (typed m_wf) (LibfabricFirstClientMessage_applySerializerDef v).
Proof. unfold LibfabricFirstClientMessage_applySerializerDef. eapply decodes_bind; [by apply decodes_array|]. intros l _. by apply decodes_ret. Qed.
Lemma decodes_empty v : decodes (typed m_wf) (LibfabricEmpty_applySerializerDef v).
Proof. by apply decodes_ret. Qed.

Lemma decodes_response v : rsp_optionalDataFragments v = None -> decodes (typed m_wf) (LibfabricResponse_applySerializerDef v).
Proof.
  intros Hv. unfold LibfabricResponse_applySerializerDef. rewrite Hv.
  do 3 (eapply decodes_bind; [solve [eauto]|intros ? (? & ? & ?)]). rename a into n, a1 into has.
  eapply (decodes_bind _ (fun buf sz q => Forall (inside buf sz) (if has then [(q, n)] else []))).
  - destruct has; [|by apply decodes_ret]. intros st Hr. unfold bind at 1, gets. pose proof (proj1 Hr) as Ha. rewrite Ha. simpl.
    assert (decodes (fun buf sz q => Forall (inside buf sz) [(q, n)]) (serializeOrPoint "optionalData" (rsp_optionalData v) n)) as Hd.
    { eapply decodes_mono; [by apply decodes_data|]. intros b k q Hq. by constructor. }
    specialize (Hd st Hr). destruct (serializeOrPoint _ _ _ st) as [[q st1]|f]; [|destruct Hd as [-> Hm]; split; [done|]; intros m Hsb; unfold bind, gets; simpl; rewrite Ha; auto].
    destruct Hd as (? & ? & ? & ? & Hm). split_and!; try done. intros m Hsb. unfold bind, gets. simpl. rewrite Ha. auto.
  - intros q _. apply decodes_ret. intros b k Hq. unfold typed. simpl. unfold response_wf, response_regions. simpl. by repeat match goal with |- _ /\ _ => split end.
Qed.

(** C37: whatever bytes a peer sent, unpacking a message of any type but the error
    message stops on the check of the size, or gives a message whose fields are
    values of their types and whose data is inside the receive buffer, unless the
    announced size is so large that the check wraps.  Unpacking changes no memory and
    depends on no byte outside the buffer. *)
Theorem protocol_receive_typed :
  (forall old : LibfabricMessageHeader, receives old m_wf) /\ (forall old : LibfabricPing, receives old m_wf) /\
  (forall old : LibfabricObjReadWriteInfos, receives old m_wf) /\ (forall old : LibfabricObjFlushInfos, receives old m_wf) /\
  (forall old : LibfabricObjCreateInfos, receives old m_wf) /\ (forall old : LibfabricRegisterRange, receives old m_wf) /\
  (forall old : LibfabricUnregisterRange, receives old m_wf) /\ (forall old : LibfabricObjectCow, receives old m_wf) /\
  (forall old : LibfabricFirstHandshake, receives old m_wf) /\ (forall old : LibfabricFirstClientMessage, receives old m_wf) /\
  (forall old : LibfabricEmpty, receives old m_wf) /\
  (forall old : LibfabricResponse, rsp_optionalDataFragments old = None -> receives old m_wf).
Proof.
  repeat match goal with |- _ /\ _ => split end; intros old; try intros Hold; apply receives_of;
    eauto using decodes_header, decodes_ping, decodes_readWrite, decodes_flush, decodes_create, decodes_register, decodes_unregister,
      decodes_cow, decodes_handshake, decodes_firstClient, decodes_empty, decodes_response.
Qed.

(** A write request whose bytes are all 1 announces more data than the buffer has. *)
Lemma protocol_receive_typed_witness :
  receives (mkReadWrite (mkObjectId 0 0) (mkIov 0 0) 0 0 false 0) m_wf /\
  unpack_message (fun _ => x01) 4096 64 (mkReadWrite (mkObjectId 0 0) (mkIov 0 0) 0 0 false 0) = Abort FAssume.
Proof. split; [apply protocol_receive_typed|reflexivity]. Defined.

End ProtocolTypes.
