(* ===== verification/Interfaces.v ===== *)
(** * Interfaces between the object cache and its backends

    [MemoryProvider] is what src/src/server/core/MemoryBackend.hpp promises to
    the objects: [allocate] hands out memory that nothing else uses until
    [deallocate].  [StorageBackend] is src/src/server/core/StorageBackend.hpp:
    the storage is outside the program, so its operations are parameters;
    [StorageOk] states what a storage does when it reports success.  The pointers to
    the backends are handles, 0 is the null pointer. *)

From S2P Require Import Prelude Memory.

(** ** MemoryBackend *)
Class MemoryProvider (E : Type) := {
  mp_allocate : Z -> Z -> M E Z;            (** backend, size *)
  mp_deallocate : Z -> Z -> Z -> M E unit;  (** backend, address, size *)
}.

(** A block in use: its address is mapped to its size and its backend. *)
Abbreviation blocks := (gmap Z (Z * Z)).

Class MemoryProviderOk (E : Type) `{MemoryProvider E} := {
  (** what a size must be a multiple of *)
  mp_unit : Z;
  mp_unit_pos : 0 < mp_unit;
  (** the largest block it can be asked for *)
  mp_max : Z;
  mp_max_bounds : 2147483648 <= mp_max < two64;
  (** [mp_inv e used]: exactly the blocks [used] are handed out *)
  mp_inv : E -> blocks -> Prop;
  (** the handles of the backends that exist *)
  mp_backend : E -> Z -> Prop;
  mp_range : forall e used p n h,
    mp_inv e used -> used !! p = Some (n, h) -> 0 < p /\ 0 < n <= mp_max /\ p + n <= two64;
  mp_apart : forall e used p n h q k h',
    mp_inv e used -> used !! p = Some (n, h) -> used !! q = Some (k, h') -> p <> q -> disjoint p n q k;
  mp_allocate_ok : forall e used h n,
    mp_inv e used -> mp_backend e h -> 0 < n <= mp_max -> (mp_unit | n) ->
    wp resource (mp_allocate h n)
      (fun p e' => used !! p = None /\ mp_inv e' (<[p := (n, h)]> used) /\
                   forall h', mp_backend e h' -> mp_backend e' h') e;
  mp_deallocate_ok : forall e used p n h,
    mp_inv e used -> mp_backend e h -> used !! p = Some (n, h) -> (mp_unit | n) ->
    wp never (mp_deallocate h p n)
      (fun _ e' => mp_inv e' (delete p used) /\ forall h', mp_backend e h' -> mp_backend e' h') e;
  (** no call makes a backend disappear *)
  mp_allocate_backend : forall e h n p e' h',
    mp_allocate h n e = Ok (p, e') -> mp_backend e h' -> mp_backend e' h';
  mp_deallocate_backend : forall e h p n e' h',
    mp_deallocate h p n e = Ok (tt, e') -> mp_backend e h' -> mp_backend e' h';
}.

(** ** StorageBackend *)
Class StorageBackend (S : Type) := {
  (** backend, high, low, size, offset: the status and the bytes stored in the
      buffer *)
  sb_pread : Z -> Z -> Z -> Z -> Z -> S -> (Z * list byte) * S;
  (** backend, high, low, data, offset: the status *)
  sb_pwrite : Z -> Z -> Z -> list byte -> Z -> S -> Z * S;
  (** backend, high, low: the status *)
  sb_create : Z -> Z -> Z -> S -> Z * S;
  (** the bytes of a buffer just allocated *)
  sb_fresh : S -> Z -> byte;
}.

(** The contents of the objects in the storage. *)
Definition contents : Type := Z -> Z -> Z -> Z -> byte.  (* backend, high, low, offset *)

Definition range_of (f : Z -> byte) (off n : Z) : list byte := (fun i => f (off + i)) <$> seqZ 0 n.

Class StorageOk (S : Type) `{StorageBackend S} := {
  sb_contents : S -> contents;
  sb_pread_fits : forall h hi lo n off s,
    0 <= n -> Z.of_nat (length (sb_pread h hi lo n off s).1.2) <= n;
  (** the status is an [ssize_t] *)
  sb_pread_status : forall h hi lo n off s, - two63 <= (sb_pread h hi lo n off s).1.1 < two63;
  sb_pread_frame : forall h hi lo n off s, sb_contents (sb_pread h hi lo n off s).2 = sb_contents s;
  sb_pread_ok : forall h hi lo n off s,
    0 <= n -> (sb_pread h hi lo n off s).1.1 = n ->
    (sb_pread h hi lo n off s).1.2 = range_of (sb_contents s h hi lo) off n;
  sb_pwrite_frame : forall h hi lo l off s h' hi' lo' x,
    (h', hi', lo') <> (h, hi, lo) \/ x < off \/ off + Z.of_nat (length l) <= x ->
    sb_contents (sb_pwrite h hi lo l off s).2 h' hi' lo' x = sb_contents s h' hi' lo' x;
  sb_pwrite_ok : forall h hi lo l off s,
    (sb_pwrite h hi lo l off s).1 = Z.of_nat (length l) ->
    range_of (sb_contents (sb_pwrite h hi lo l off s).2 h hi lo) off (Z.of_nat (length l)) = l;
  sb_create_frame : forall h hi lo s h' hi' lo' x,
    (h', hi', lo') <> (h, hi, lo) ->
    sb_contents (sb_create h hi lo s).2 h' hi' lo' x = sb_contents s h' hi' lo' x;
}.

Lemma range_of_lookup f off n i :
  (i < Z.to_nat n)%nat -> range_of f off n !! i = Some (f (off + Z.of_nat i)).
Proof. intros Hi. unfold range_of. rewrite list_lookup_fmap, lookup_seqZ_lt by lia. simpl. do 2 f_equal. Qed.

Lemma range_of_length f off n : length (range_of f off n) = Z.to_nat n.
Proof. unfold range_of. by rewrite length_fmap, length_seqZ. Qed.

(** A byte of a written range. *)
Lemma sb_pwrite_at {S} `{StorageOk S} h hi lo l off (s : S) x :
  (sb_pwrite h hi lo l off s).1 = Z.of_nat (length l) -> off <= x < off + Z.of_nat (length l) ->
  sb_contents (sb_pwrite h hi lo l off s).2 h hi lo x = nth (Z.to_nat (x - off)) l x00.
Proof.
  intros Hst Hx. pose proof (sb_pwrite_ok h hi lo l off s Hst) as Hl.
  apply (f_equal (lookup (Z.to_nat (x - off)))) in Hl. rewrite range_of_lookup in Hl by lia.
  replace (off + Z.of_nat (Z.to_nat (x - off))) with x in Hl by lia.
  symmetry in Hl. by rewrite (nth_lookup_Some _ _ _ _ Hl).
Qed.
