(* ===== verification/World.v ===== *)
(** * The state of the object cache

    The records of src/src/server/core/ObjectSegment.hpp, Object.hpp and
    Container.hpp, and the state they live in: the process memory, the memory
    backend, the storage, the control blocks of the [std::shared_ptr] that
    segments share, and the objects, which are reached through pointers. *)

From S2P Require Import Prelude StdMap Memory Interfaces ConsistencyTracker.

(** class ObjectSegmentMemory *)
Record ObjectSegmentMemory : Type := mkSegmentMemory {
  osm_buffer : Z;
  osm_size : Z;
  osm_memoryBackend : Z;
}.

(** class ObjectSegment; [os_memory] names the control block of the shared
    pointer, [None] is [nullptr]. *)
Record ObjectSegment : Type := mkSegment {
  os_memory : option Z;
  os_offset : Z;
  os_dirty : bool;
}.

(** struct ObjectSegmentDescr *)
Record ObjectSegmentDescr : Type := mkDescr {
  d_ptr : Z;
  d_offset : Z;
  d_size : Z;
}.

Inductive ObjectAccessMode : Type := ACCESS_READ | ACCESS_WRITE.
#[export] Instance ObjectAccessMode_eq_dec : EqDecision ObjectAccessMode.
Proof. solve_decision. Defined.

(** struct ObjectId *)
Record ObjectId : Type := mkId { id_low : Z; id_high : Z }.
#[export] Instance ObjectId_eq_dec : EqDecision ObjectId.
Proof. solve_decision. Defined.

(** class Object *)
Record Object : Type := mkObject {
  o_objectId : ObjectId;
  o_segmentMap : stdmap Z ObjectSegment;
  o_alignement : Z;
  o_consistencyTracker : ConsistencyTracker.Tracker;
  o_storageBackend : Z;
  o_memoryBackend : Z;
}.

Definition set_segmentMap (m : stdmap Z ObjectSegment) (o : Object) : Object :=
  mkObject (o_objectId o) m (o_alignement o) (o_consistencyTracker o) (o_storageBackend o) (o_memoryBackend o).
Definition set_tracker (t : ConsistencyTracker.Tracker) (o : Object) : Object :=
  mkObject (o_objectId o) (o_segmentMap o) (o_alignement o) t (o_storageBackend o) (o_memoryBackend o).

Record World {E S : Type} : Type := mkWorld {
  w_mem : mem;
  w_env : E;                                     (** the memory backends *)
  w_store : S;                                   (** the storage *)
  w_shared : gmap Z (ObjectSegmentMemory * Z);   (** shared pointers: target, use count *)
  w_nextShared : Z;
  w_objects : gmap Z Object;                     (** objects by address *)
  w_nextObject : Z;
}.
Arguments World : clear implicits.

Section world.
Context {E S : Type} `{MemoryProvider E} `{StorageBackend S}.
Abbreviation W := (World E S).

Definition set_mem (f : mem -> mem) (w : W) : W :=
  mkWorld _ _ (f (w_mem w)) (w_env w) (w_store w) (w_shared w) (w_nextShared w) (w_objects w) (w_nextObject w).
Definition set_env (e : E) (w : W) : W :=
  mkWorld _ _ (w_mem w) e (w_store w) (w_shared w) (w_nextShared w) (w_objects w) (w_nextObject w).
Definition set_store (s : S) (w : W) : W :=
  mkWorld _ _ (w_mem w) (w_env w) s (w_shared w) (w_nextShared w) (w_objects w) (w_nextObject w).
Definition set_shared (m : gmap Z (ObjectSegmentMemory * Z)) (w : W) : W :=
  mkWorld _ _ (w_mem w) (w_env w) (w_store w) m (w_nextShared w) (w_objects w) (w_nextObject w).
Definition set_objects (m : gmap Z Object) (w : W) : W :=
  mkWorld _ _ (w_mem w) (w_env w) (w_store w) (w_shared w) (w_nextShared w) m (w_nextObject w).
Definition bump_shared (w : W) : W :=
  mkWorld _ _ (w_mem w) (w_env w) (w_store w) (w_shared w) (w_nextShared w + 1) (w_objects w) (w_nextObject w).
Definition bump_object (w : W) : W :=
  mkWorld _ _ (w_mem w) (w_env w) (w_store w) (w_shared w) (w_nextShared w) (w_objects w) (w_nextObject w + 1).

(** A call of the memory backend [h]; a null backend is undefined. *)
Definition backend_allocate (h n : Z) : M W Z := fun w =>
  if h =? 0 then Abort FNullPointer
  else match mp_allocate h n (w_env w) with
       | Ok (p, e) => Ok (p, set_env e w)
       | Abort f => Abort f
       end.
Definition backend_deallocate (h p n : Z) : M W unit := fun w =>
  if h =? 0 then Abort FNullPointer
  else match mp_deallocate h p n (w_env w) with
       | Ok (_, e) => Ok (tt, set_env e w)
       | Abort f => Abort f
       end.

(** *** std::shared_ptr<ObjectSegmentMemory> *)

(** The object a shared pointer points to. *)
Definition shared_get (p : option Z) : M W ObjectSegmentMemory := fun w =>
  match p with
  | Some id => match w_shared w !! id with
               | Some (m, _) => Ok (m, w)
               | None => Abort FNullPointer
               end
  | None => Abort FAssert   (* assert(memory != nullptr) *)
  end.

(** std::make_shared<ObjectSegmentMemory>(...) *)
Definition make_shared (m : ObjectSegmentMemory) : M W Z := fun w =>
  let id := w_nextShared w in
  Ok (id, bump_shared (set_shared (<[id := (m, 1)]> (w_shared w)) w)).

(** Copy construction. *)
Definition shared_copy (p : option Z) : M W unit := fun w =>
  match p with
  | None => Ok (tt, w)
  | Some id => match w_shared w !! id with
               | Some (m, c) => Ok (tt, set_shared (<[id := (m, c + 1)]> (w_shared w)) w)
               | None => Abort FNullPointer
               end
  end.

(** ObjectSegmentMemory::~ObjectSegmentMemory *)
Definition segmentMemory_destroy (m : ObjectSegmentMemory) : M W unit :=
  if osm_buffer m =? 0 then ret tt
  else backend_deallocate (osm_memoryBackend m) (osm_buffer m) (osm_size m).

(** Destruction of a shared pointer; the last one destroys the target. *)
Definition shared_release (p : option Z) : M W unit := fun w =>
  match p with
  | None => Ok (tt, w)
  | Some id => match w_shared w !! id with
               | Some (m, c) =>
                   if c =? 1 then segmentMemory_destroy m (set_shared (delete id (w_shared w)) w)
                   else Ok (tt, set_shared (<[id := (m, c - 1)]> (w_shared w)) w)
               | None => Abort FNullPointer
               end
  end.

(** *** Objects *)
Definition get_obj (this : Z) : M W Object := fun w =>
  match w_objects w !! this with
  | Some o => Ok (o, w)
  | None => Abort FNullPointer
  end.

Definition update_obj (this : Z) (f : Object -> Object) : M W unit := fun w =>
  match w_objects w !! this with
  | Some o => Ok (tt, set_objects (<[this := f o]> (w_objects w)) w)
  | None => Abort FNullPointer
  end.

(** The segment at a key of the map of an object. *)
Definition get_segment (this k : Z) : M W ObjectSegment :=
  let! o := get_obj this in of_option FNullPointer (sm_find k (o_segmentMap o)).

(** Writing back the segment at a key of the map of an object. *)
Definition set_segment (this k : Z) (seg : ObjectSegment) : M W unit :=
  update_obj this (fun o => set_segmentMap (sm_insert k seg (o_segmentMap o)) o).
End world.
