(* ===== verification/WorldInv.v ===== *)
(** * The invariant of the object cache

    [world_ok w tmp blk]: every shared pointer of the objects (and of the list
    [tmp] of those held by the running function) points to a live control block
    whose use count is their number, the control blocks own distinct blocks of
    the memory backend and own all of them (but the block [blk] the running
    function has just allocated), and every object is well formed.  The rules of
    this file say how each primitive of [World] acts on it. *)

From S2P Require Import Prelude StdMap Memory IntervalMap Interfaces World.

(** ** Counting references *)
Definition nref (id : Z) (l : list Z) : nat := length (filter (eq id) l).

Lemma nref_app id l l' : nref id (l ++ l') = (nref id l + nref id l')%nat.
Proof. unfold nref. by rewrite filter_app, length_app. Qed.
Lemma nref_cons id x l : nref id (x :: l) = ((if decide (id = x) then 1 else 0) + nref id l)%nat.
Proof. unfold nref. rewrite filter_cons. by case_decide. Qed.
Lemma nref_nil id : nref id [] = 0%nat.
Proof. done. Qed.
Lemma nref_pos id l : (0 < nref id l)%nat <-> id ∈ l.
Proof.
  induction l as [|x l IH]; [rewrite nref_nil, elem_of_nil; lia|].
  rewrite nref_cons, elem_of_cons, <- IH. case_decide; intuition (subst; try done; lia).
Qed.
Lemma nref_perm id l l' : l ≡ₚ l' -> nref id l = nref id l'.
Proof. intros HP. unfold nref. by rewrite HP. Qed.

Lemma refs_skip (l l' : list Z) x i : i ∈ l ++ x :: l' -> x <> i -> i ∈ l ++ l'.
Proof. rewrite !elem_of_app, elem_of_cons. intros [?|[->|?]]; auto. done. Qed.

Definition seg_refs (m : stdmap Z ObjectSegment) : list Z := omap (fun e => os_memory e.2) m.
Definition obj_refs (o : Object) : list Z := seg_refs (o_segmentMap o).
Definition all_refs (objs : gmap Z Object) : list Z := mjoin ((fun e => obj_refs e.2) <$> map_to_list objs).

Lemma all_refs_insert objs p o :
  objs !! p = None -> all_refs (<[p := o]> objs) ≡ₚ obj_refs o ++ all_refs objs.
Proof. intros Hp. unfold all_refs. by rewrite map_to_list_insert by done. Qed.

Lemma all_refs_delete objs p o :
  objs !! p = Some o -> all_refs objs ≡ₚ obj_refs o ++ all_refs (delete p objs).
Proof.
  intros Hp. rewrite <- all_refs_insert by apply lookup_delete_eq. by rewrite insert_delete_id.
Qed.

Lemma all_refs_update objs p o o' id :
  objs !! p = Some o ->
  (nref id (all_refs (<[p := o']> objs)) + nref id (obj_refs o) =
   nref id (all_refs objs) + nref id (obj_refs o'))%nat.
Proof.
  intros Hp. rewrite <- (insert_delete_eq objs p o').
  rewrite (nref_perm _ _ _ (all_refs_insert (delete p objs) p o' (lookup_delete_eq _ _))).
  rewrite (nref_perm _ _ _ (all_refs_delete _ _ _ Hp)), !nref_app. lia.
Qed.

Definition seg_ref (seg : ObjectSegment) : list Z :=
  match os_memory seg with Some id => [id] | None => [] end.

Lemma seg_refs_cons k seg m : seg_refs ((k, seg) :: m) = seg_ref seg ++ seg_refs m.
Proof. unfold seg_refs, seg_ref. simpl. by destruct (os_memory seg). Qed.

Lemma seg_refs_insert_new k seg m id :
  sm_ok m -> sm_find k m = None ->
  nref id (seg_refs (sm_insert k seg m)) = (nref id (seg_refs m) + nref id (seg_ref seg))%nat.
Proof.
  intros Hok. induction m as [|[k' v'] m IH]; simpl sm_insert; simpl sm_find.
  - intros _. by rewrite seg_refs_cons, nref_app, Nat.add_comm.
  - apply sm_ok_cons in Hok as [Hm _]. intros Hf.
    destruct (key_cmp_spec k' k) as [Hlt Hne| ->|Hlt Hne]; [|done|].
    + rewrite !seg_refs_cons, !nref_app, IH by done. lia.
    + rewrite !seg_refs_cons, !nref_app. lia.
Qed.

Lemma seg_refs_insert_old k seg old m id :
  sm_find k m = Some old ->
  (nref id (seg_refs (sm_insert k seg m)) + nref id (seg_ref old) =
   nref id (seg_refs m) + nref id (seg_ref seg))%nat.
Proof.
  induction m as [|[k' v'] m IH]; simpl sm_insert; simpl sm_find; [done|]. intros Hf.
  destruct (key_cmp_spec k' k) as [Hlt Hne| ->|Hlt Hne]; [|simplify_eq|done].
  - specialize (IH Hf). rewrite !seg_refs_cons, !nref_app. lia.
  - rewrite !seg_refs_cons, !nref_app. lia.
Qed.

Lemma seg_refs_In m k seg id : In (k, seg) m -> os_memory seg = Some id -> id ∈ seg_refs m.
Proof.
  intros Hin Hm. apply list_elem_of_omap. exists (k, seg). split; [by apply list_elem_of_In|done].
Qed.

(** ** What a segment shows *)
Abbreviation shared_map := (gmap Z (ObjectSegmentMemory * Z)).

Definition seg_memory (sh : shared_map) (seg : ObjectSegment) : option ObjectSegmentMemory :=
  id ← os_memory seg; fst <$> sh !! id.
Definition seg_size (sh : shared_map) (seg : ObjectSegment) : Z :=
  match seg_memory sh seg with Some m => osm_size m | None => 0 end.
Definition seg_buffer (sh : shared_map) (seg : ObjectSegment) : Z :=
  match seg_memory sh seg with Some m => osm_buffer m | None => 0 end.

(** The control blocks of [sh] are those of [sh'] that are still there. *)
Definition shared_sub (sh sh' : shared_map) : Prop :=
  forall id m c, sh !! id = Some (m, c) -> exists c', sh' !! id = Some (m, c').

(** ** The invariant *)
Section inv.
Context {E S : Type} `{MemoryProviderOk E} `{StorageBackend S}.
Abbreviation W := (World E S).
Implicit Types (w : W) (sh : shared_map) (used : blocks) (tmp : list Z).

Record shared_ok sh used (blk : option (Z * Z * Z)) : Prop := {
  so_used : forall id m c, sh !! id = Some (m, c) ->
    used !! osm_buffer m = Some (osm_size m, osm_memoryBackend m);
  so_inj : forall id id' m m' c c', sh !! id = Some (m, c) -> sh !! id' = Some (m', c') ->
    osm_buffer m = osm_buffer m' -> id = id';
  so_blk : forall p n h, blk = Some (p, n, h) -> used !! p = Some (n, h) /\
    forall id m c, sh !! id = Some (m, c) -> osm_buffer m <> p;
  so_own : forall p v, used !! p = Some v ->
    (exists id m c, sh !! id = Some (m, c) /\ osm_buffer m = p) \/ exists n h, blk = Some (p, n, h);
}.

(** The alignement of an object suits the memory backend. *)
Definition align_ok (a : Z) : Prop := 0 <= a /\ if a >? 0 then (mp_unit | a) else mp_unit = 1.

Record obj_ok sh (e : E) (o : Object) : Prop := {
  ok_chain : interval_chain os_offset (seg_size sh) 0 (o_segmentMap o);
  ok_end : chain_end os_offset (seg_size sh) 0 (o_segmentMap o) < two63;
  ok_memory : Forall (fun x => is_Some (os_memory x.2)) (o_segmentMap o);
  ok_unit : Forall (fun x => (mp_unit | os_offset x.2)) (o_segmentMap o);
  ok_align : align_ok (o_alignement o);
  ok_backend : mp_backend e (o_memoryBackend o) /\ o_memoryBackend o <> 0;
}.

Record world_ok w tmp (blk : option (Z * Z * Z)) : Prop := {
  wo_env : exists used, mp_inv (w_env w) used /\ shared_ok (w_shared w) used blk;
  wo_count : forall id m c, w_shared w !! id = Some (m, c) ->
    c = Z.of_nat (nref id (all_refs (w_objects w) ++ tmp)) /\ 0 < c;
  wo_live : forall id, id ∈ all_refs (w_objects w) ++ tmp -> is_Some (w_shared w !! id);
  wo_next : forall id, is_Some (w_shared w !! id) -> id < w_nextShared w;
  wo_nexto : 0 < w_nextObject w /\
    forall p, is_Some (w_objects w !! p) -> 0 < p < w_nextObject w;
  wo_mem : forall id m c, w_shared w !! id = Some (m, c) ->
    (mp_unit | osm_size m) /\ mp_backend (w_env w) (osm_memoryBackend m) /\ osm_memoryBackend m <> 0;
  wo_objs : forall p o, w_objects w !! p = Some o -> obj_ok (w_shared w) (w_env w) o;
}.

(** *** Transport *)
Lemma refs_in_all objs p o id : objs !! p = Some o -> id ∈ obj_refs o -> id ∈ all_refs objs.
Proof. intros Hp Hid. rewrite (all_refs_delete _ _ _ Hp). apply elem_of_app. by left. Qed.

(** An object only sees the targets of its own shared pointers. *)
Lemma seg_memory_ext sh sh' seg :
  (forall id, os_memory seg = Some id -> fst <$> sh' !! id = fst <$> sh !! id) ->
  seg_memory sh' seg = seg_memory sh seg.
Proof. unfold seg_memory. destruct (os_memory seg); simpl; auto. Qed.

Lemma obj_ok_ext sh sh' (e e' : E) o :
  (forall id, id ∈ obj_refs o -> fst <$> sh' !! id = fst <$> sh !! id) ->
  (forall h, mp_backend e h -> mp_backend e' h) ->
  obj_ok sh e o -> obj_ok sh' e' o.
Proof.
  intros Hsh He [Hc Hend Hm Hu Ha [Hb Hb0]].
  assert (forall k v, In (k, v) (o_segmentMap o) ->
            os_offset v = os_offset v /\ seg_size sh v = seg_size sh' v) as Hs.
  { intros k v Hin. split; [done|]. unfold seg_size. rewrite (seg_memory_ext sh sh'); [done|].
    intros id Hid. apply Hsh. by eapply seg_refs_In. }
  constructor; try done; [by eapply chain_ext_id| |split; auto].
  by rewrite <- (chain_end_ext_id _ _ _ _ 0 _ Hs).
Qed.

Lemma world_ok_mem w tmp blk f : world_ok w tmp blk -> world_ok (set_mem f w) tmp blk.
Proof. by intros []. Qed.
Lemma world_ok_store w tmp blk s : world_ok w tmp blk -> world_ok (set_store s w) tmp blk.
Proof. by intros []. Qed.

(** *** Memory backend *)
Lemma wp_backend_allocate w tmp h n :
  world_ok w tmp None -> mp_backend (w_env w) h -> h <> 0 -> 0 < n <= mp_max -> (mp_unit | n) ->
  wp resource (backend_allocate h n) (fun p w' => exists e', w' = set_env e' w /\
    0 < p /\ p + n <= two64 /\ world_ok w' tmp (Some (p, n, h)) /\
    (forall id m c, w_shared w !! id = Some (m, c) -> disjoint p n (osm_buffer m) (osm_size m)) /\
    (forall h', mp_backend (w_env w) h' -> mp_backend e' h')) w.
Proof.
  intros Hw Hb Hh Hn Hu. destruct (wo_env _ _ _ Hw) as (used & Hinv & Hso).
  pose proof (mp_allocate_ok _ _ _ _ Hinv Hb Hn Hu) as Hal.
  unfold wp, backend_allocate in *. destruct (h =? 0) eqn:E0; [lia|].
  destruct (mp_allocate h n (w_env w)) as [[p e']|f]; [|done].
  destruct Hal as (Hfresh & Hinv' & Hback). exists e'. split; [done|].
  assert (<[p := (n, h)]> used !! p = Some (n, h)) as Hp by apply lookup_insert_eq.
  destruct (mp_range _ _ _ _ _ Hinv' Hp) as (? & ? & ?).
  assert (forall id m c, w_shared w !! id = Some (m, c) -> osm_buffer m <> p) as Hne.
  { intros id m c Hid. apply (so_used _ _ _ Hso) in Hid. intros Heq. rewrite Heq in Hid. congruence. }
  do 2 (split; [done|]). split; [|split; [|done]].
  - destruct Hw as [_ Hcnt Hlive Hnext Hnexto Hmem Hobjs]. constructor; simpl; try done.
    + exists (<[p := (n, h)]> used). split; [done|]. destruct Hso as [S1 S2 S3 S4]. constructor.
      * intros id m c Hid. rewrite lookup_insert_ne by (apply not_eq_sym; eauto). eauto.
      * done.
      * intros p' n' h' [= <- <- <-]. split; [done|]. eauto.
      * intros q v Hq. destruct (decide (p = q)) as [->|Hpq]; [right; eauto|].
        rewrite lookup_insert_ne in Hq by done. destruct (S4 q v Hq) as [?|(? & ? & [=])]; auto.
    + intros id m c Hid. destruct (Hmem _ _ _ Hid) as (? & ? & ?). auto.
    + intros q o Ho. eapply obj_ok_ext; [done|exact Hback|eauto].
  - intros id m c Hid. eapply (mp_apart e' _ p n h); [exact Hinv'|done| |by apply not_eq_sym, (Hne id m c)].
    rewrite lookup_insert_ne by (apply not_eq_sym; eauto). by eapply so_used.
Qed.

Lemma wp_backend_deallocate w tmp p n h :
  world_ok w tmp (Some (p, n, h)) -> mp_backend (w_env w) h -> h <> 0 -> (mp_unit | n) ->
  wp never (backend_deallocate h p n) (fun _ w' => exists e', w' = set_env e' w /\
    world_ok w' tmp None /\ (forall h', mp_backend (w_env w) h' -> mp_backend e' h')) w.
Proof.
  intros Hw Hb Hh Hu. destruct (wo_env _ _ _ Hw) as (used & Hinv & Hso).
  destruct (so_blk _ _ _ Hso p n h eq_refl) as [Hp Hne].
  pose proof (mp_deallocate_ok _ _ _ _ _ Hinv Hb Hp Hu) as Hal.
  unfold wp, backend_deallocate in *. destruct (h =? 0) eqn:E0; [lia|].
  destruct (mp_deallocate h p n (w_env w)) as [[[] e']|f]; [|done].
  destruct Hal as (Hinv' & Hback). exists e'. split; [done|]. split; [|done].
  destruct Hw as [_ Hcnt Hlive Hnext Hnexto Hmem Hobjs]. constructor; simpl; try done.
  - exists (delete p used). split; [done|]. destruct Hso as [S1 S2 S3 S4]. constructor.
    + intros id m c Hid. rewrite lookup_delete_ne by (apply not_eq_sym; eauto). eauto.
    + done.
    + done.
    + intros q v Hq. destruct (decide (p = q)) as [->|Hpq]; [by rewrite lookup_delete_eq in Hq|].
      rewrite lookup_delete_ne in Hq by done. destruct (S4 q v Hq) as [?|(? & ? & [= -> <- <-])]; auto.
      done.
  - intros id m c Hid. destruct (Hmem _ _ _ Hid) as (? & ? & ?). auto.
  - intros q o Ho. eapply obj_ok_ext; [done|exact Hback|eauto].
Qed.

(** *** Shared pointers *)
Lemma live_get w tmp blk id :
  world_ok w tmp blk -> id ∈ all_refs (w_objects w) ++ tmp ->
  exists m c, w_shared w !! id = Some (m, c) /\ 0 < osm_size m /\ 0 < osm_buffer m /\
    osm_buffer m + osm_size m <= two64 /\ (mp_unit | osm_size m) /\
    mp_backend (w_env w) (osm_memoryBackend m) /\ osm_memoryBackend m <> 0.
Proof.
  intros Hw Hid. destruct (wo_live _ _ _ Hw _ Hid) as [[m c] Hm]. exists m, c. split; [done|].
  destruct (wo_env _ _ _ Hw) as (used & Hinv & Hso).
  destruct (mp_range _ _ _ _ _ Hinv (so_used _ _ _ Hso _ _ _ Hm)) as (? & [? ?] & ?).
  destruct (wo_mem _ _ _ Hw _ _ _ Hm) as (? & ? & ?). done.
Qed.

Lemma shared_max w tmp blk id m c :
  world_ok w tmp blk -> w_shared w !! id = Some (m, c) -> osm_size m <= mp_max.
Proof.
  intros Hw Hm. destruct (wo_env _ _ _ Hw) as (used & Hinv & Hso).
  by destruct (mp_range _ _ _ _ _ Hinv (so_used _ _ _ Hso _ _ _ Hm)) as (? & [? ?] & ?).
Qed.

(** Distinct control blocks have disjoint buffers. *)
Lemma shared_apart w tmp blk id id' m m' c c' :
  world_ok w tmp blk -> w_shared w !! id = Some (m, c) -> w_shared w !! id' = Some (m', c') -> id <> id' ->
  disjoint (osm_buffer m) (osm_size m) (osm_buffer m') (osm_size m').
Proof.
  intros Hw Hm Hm' Hne. destruct (wo_env _ _ _ Hw) as (used & Hinv & Hso).
  eapply mp_apart; [exact Hinv|by eapply so_used|by eapply so_used|].
  intros Heq. by eapply Hne, so_inj.
Qed.

Lemma shared_sub_fst sh sh' id :
  shared_sub sh' sh -> is_Some (sh' !! id) -> fst <$> sh' !! id = fst <$> sh !! id.
Proof. intros Hsub [[m c] Hm]. destruct (Hsub _ _ _ Hm) as [c' ->]. by rewrite Hm. Qed.

Lemma make_shared_ok w tmp p n h :
  world_ok w tmp (Some (p, n, h)) -> mp_backend (w_env w) h -> h <> 0 -> (mp_unit | n) ->
  world_ok (bump_shared (set_shared (<[w_nextShared w := (mkSegmentMemory p n h, 1)]> (w_shared w)) w))
    (w_nextShared w :: tmp) None.
Proof.
  intros Hw Hb Hh Hu. set (id := w_nextShared w).
  assert (w_shared w !! id = None) as Hfresh.
  { apply eq_None_not_Some. intros Hs. pose proof (wo_next _ _ _ Hw _ Hs). unfold id in *. lia. }
  assert (forall i, i ∈ all_refs (w_objects w) ++ tmp -> i <> id) as Hold.
  { intros i Hi ->. destruct (wo_live _ _ _ Hw _ Hi) as [? ?]. congruence. }
  destruct (wo_env _ _ _ Hw) as (used & Hinv & [S1 S2 S3 S4]).
  destruct (S3 p n h eq_refl) as [Hp Hne].
  destruct Hw as [_ Hcnt Hlive Hnext Hnexto Hmem Hobjs]. constructor; simpl.
  - exists used. split; [done|]. constructor.
    + intros i m c [[<- [= <- <-]]|[_ Hi]]%lookup_insert_Some; [done|eauto].
    + intros i i' m m' c c' [[<- [= <- <-]]|[_ Hi]]%lookup_insert_Some
        [[<- [= <- <-]]|[_ Hi']]%lookup_insert_Some Heq; simpl in *; [done| | |by eapply S2].
      * destruct (Hne _ _ _ Hi'); done.
      * destruct (Hne _ _ _ Hi); done.
    + done.
    + intros q v Hq. left. destruct (S4 q v Hq) as [(i & m & c & Hi & Hq')|(n' & h' & [= -> -> ->])].
      * exists i, m, c. split; [|done]. rewrite lookup_insert_ne; [done|congruence].
      * eexists id, _, _. split; [apply lookup_insert_eq|done].
  - intros i m c [[<- [= <- <-]]|[Hi0 Hi]]%lookup_insert_Some.
    + rewrite nref_app, nref_cons, decide_True by done.
      assert (nref id (all_refs (w_objects w) ++ tmp) = 0%nat) as Hz.
      { destruct (nref id _) eqn:En; [done|]. assert (id ∈ all_refs (w_objects w) ++ tmp) as Hi.
        { apply nref_pos. lia. } by apply Hold in Hi. }
      rewrite nref_app in Hz. lia.
    + destruct (Hcnt _ _ _ Hi) as [-> Hpos]. rewrite nref_app in Hpos. rewrite !nref_app, nref_cons, decide_False by done. lia.
  - intros i Hi. rewrite lookup_insert_is_Some. destruct (decide (id = i)) as [->|Hne']; [by left|].
    right. split; [done|]. by apply Hlive, (refs_skip _ _ id).
  - intros i Hi. rewrite lookup_insert_is_Some in Hi. destruct Hi as [<-|[_ Hi]]; [unfold id; lia|].
    apply Hnext in Hi. lia.
  - done.
  - intros i m c [[<- [= <- <-]]|[_ Hi]]%lookup_insert_Some; [done|eauto].
  - intros q o Ho. eapply obj_ok_ext; [|done|by eapply Hobjs].
    intros i Hi. rewrite lookup_insert_ne; [done|]. apply not_eq_sym, Hold. apply elem_of_app. left.
    by eapply refs_in_all.
Qed.

Lemma shared_copy_ok w tmp blk id m c :
  world_ok w tmp blk -> w_shared w !! id = Some (m, c) ->
  world_ok (set_shared (<[id := (m, c + 1)]> (w_shared w)) w) (id :: tmp) blk.
Proof.
  intros Hw Hm. destruct (wo_env _ _ _ Hw) as (used & Hinv & [S1 S2 S3 S4]).
  destruct Hw as [_ Hcnt Hlive Hnext Hnexto Hmem Hobjs].
  assert (forall i m' c', <[id := (m, c + 1)]> (w_shared w) !! i = Some (m', c') ->
            exists c0, w_shared w !! i = Some (m', c0)) as Hback.
  { intros i m' c' [[<- [= <- <-]]|[_ Hi]]%lookup_insert_Some; eauto. }
  constructor; simpl.
  - exists used. split; [done|]. constructor.
    + intros i m' c' Hi. destruct (Hback _ _ _ Hi) as [c0 ?]. eauto.
    + intros i i' m1 m2 c1 c2 Hi Hi' Heq.
      destruct (Hback _ _ _ Hi) as [? ?], (Hback _ _ _ Hi') as [? ?]. eauto.
    + intros p n h Hb. destruct (S3 _ _ _ Hb) as [? Hn]. split; [done|].
      intros i m' c' Hi. destruct (Hback _ _ _ Hi) as [? ?]. eauto.
    + intros q v Hq. destruct (S4 q v Hq) as [(i & m' & c' & Hi & Hq')|?]; [left|by right].
      destruct (decide (i = id)) as [->|Hne].
      * eexists id, m', _. split; [|done]. simplify_eq. apply lookup_insert_eq.
      * exists i, m', c'. split; [|done]. by rewrite lookup_insert_ne.
  - intros i m' c' [[<- [= <- <-]]|[Hne Hi]]%lookup_insert_Some.
    + destruct (Hcnt _ _ _ Hm) as [-> Hpos]. rewrite nref_app in Hpos. rewrite !nref_app, nref_cons, decide_True by done. lia.
    + destruct (Hcnt _ _ _ Hi) as [-> Hpos]. rewrite nref_app in Hpos. rewrite !nref_app, nref_cons, decide_False by done. lia.
  - intros i Hi. rewrite lookup_insert_is_Some. destruct (decide (id = i)) as [->|Hne']; [by left|].
    right. split; [done|]. by apply Hlive, (refs_skip _ _ id).
  - intros i Hi. rewrite lookup_insert_is_Some in Hi. destruct Hi as [<-|[_ Hi]]; eauto.
  - done.
  - intros i m' c' Hi. destruct (Hback _ _ _ Hi) as [? ?]. eauto.
  - intros q o Ho. eapply obj_ok_ext; [|done|by eapply Hobjs].
    intros i Hi. destruct (decide (i = id)) as [->|Hne].
    + by rewrite lookup_insert_eq, Hm.
    + by rewrite lookup_insert_ne.
Qed.

(** What the destruction of a shared pointer leaves alone. *)
Definition released w w' : Prop :=
  w_mem w' = w_mem w /\ w_store w' = w_store w /\ w_objects w' = w_objects w /\
  w_nextObject w' = w_nextObject w /\ shared_sub (w_shared w') (w_shared w) /\
  forall h, mp_backend (w_env w) h -> mp_backend (w_env w') h.

Lemma released_refl w : released w w.
Proof. repeat split; auto. intros id m c Hm. eauto. Qed.

(** Dropping one of several references. *)
Lemma shared_decr_ok w tmp id m c :
  world_ok w (id :: tmp) None -> w_shared w !! id = Some (m, c) -> c <> 1 ->
  world_ok (set_shared (<[id := (m, c - 1)]> (w_shared w)) w) tmp None.
Proof.
  intros Hw Hm Hc. destruct (wo_env _ _ _ Hw) as (used & Hinv & [S1 S2 S3 S4]).
  destruct Hw as [_ Hcnt Hlive Hnext Hnexto Hmem Hobjs].
  assert (forall i m' c', <[id := (m, c - 1)]> (w_shared w) !! i = Some (m', c') ->
            exists c0, w_shared w !! i = Some (m', c0)) as Hback.
  { intros i m' c' [[<- [= <- <-]]|[_ Hi]]%lookup_insert_Some; eauto. }
  constructor; simpl.
  - exists used. split; [done|]. constructor.
    + intros i m' c' Hi. destruct (Hback _ _ _ Hi) as [c0 ?]. eauto.
    + intros i i' m1 m2 c1 c2 Hi Hi' Heq.
      destruct (Hback _ _ _ Hi) as [? ?], (Hback _ _ _ Hi') as [? ?]. eauto.
    + done.
    + intros q v Hq. destruct (S4 q v Hq) as [(i & m' & c' & Hi & Hq')|(? & ? & [=])]. left.
      destruct (decide (i = id)) as [->|Hne].
      * eexists id, m', _. split; [|done]. simplify_eq. apply lookup_insert_eq.
      * exists i, m', c'. split; [|done]. by rewrite lookup_insert_ne.
  - destruct (Hcnt _ _ _ Hm) as [Ec Hpos]. rewrite nref_app, nref_cons, decide_True in Ec by done.
    intros i m' c' [[<- [= <- <-]]|[Hne Hi]]%lookup_insert_Some.
    + rewrite nref_app. lia.
    + destruct (Hcnt _ _ _ Hi) as [-> Hp]. rewrite nref_app, nref_cons, decide_False in * by done.
      rewrite nref_app. lia.
  - intros i Hi. rewrite lookup_insert_is_Some. destruct (decide (id = i)) as [->|Hne']; [by left|].
    right. split; [done|]. apply Hlive. rewrite elem_of_app, elem_of_cons in *. tauto.
  - intros i Hi. rewrite lookup_insert_is_Some in Hi. destruct Hi as [<-|[_ Hi]]; eauto.
  - done.
  - intros i m' c' Hi. destruct (Hback _ _ _ Hi) as [? ?]. eauto.
  - intros q o Ho. eapply obj_ok_ext; [|done|by eapply Hobjs].
    intros i Hi. destruct (decide (i = id)) as [->|Hne].
    + by rewrite lookup_insert_eq, Hm.
    + by rewrite lookup_insert_ne.
Qed.

(** Dropping the last reference: its block is left to free. *)
Lemma shared_last_ok w tmp id m :
  world_ok w (id :: tmp) None -> w_shared w !! id = Some (m, 1) ->
  world_ok (set_shared (delete id (w_shared w)) w) tmp
    (Some (osm_buffer m, osm_size m, osm_memoryBackend m)).
Proof.
  intros Hw Hm. destruct (wo_env _ _ _ Hw) as (used & Hinv & [S1 S2 S3 S4]).
  destruct Hw as [_ Hcnt Hlive Hnext Hnexto Hmem Hobjs].
  assert (id ∉ all_refs (w_objects w) ++ tmp) as Hlast.
  { destruct (Hcnt _ _ _ Hm) as [Ec _]. rewrite nref_app, nref_cons, decide_True in Ec by done.
    rewrite <- nref_pos, nref_app. lia. }
  constructor; simpl.
  - exists used. split; [done|]. constructor.
    + intros i m' c' [_ Hi]%lookup_delete_Some. eauto.
    + intros i i' m1 m2 c1 c2 [_ Hi]%lookup_delete_Some [_ Hi']%lookup_delete_Some. eauto.
    + intros p n h [= <- <- <-]. split; [eauto|].
      intros i m' c' [Hne Hi]%lookup_delete_Some Heq. eapply Hne, S2; [exact Hm|exact Hi|done].
    + intros q v Hq. destruct (S4 q v Hq) as [(i & m' & c' & Hi & Hq')|(? & ? & [=])].
      destruct (decide (i = id)) as [->|Hne].
      * right. simplify_eq. eauto.
      * left. exists i, m', c'. split; [|done]. by rewrite lookup_delete_ne.
  - intros i m' c' [Hne Hi]%lookup_delete_Some.
    destruct (Hcnt _ _ _ Hi) as [-> Hp]. rewrite nref_app, nref_cons, decide_False in * by done.
    rewrite nref_app. lia.
  - intros i Hi. assert (i <> id) as Hne by (intros ->; done). rewrite lookup_delete_ne by done.
    apply Hlive. rewrite elem_of_app, elem_of_cons in *. tauto.
  - intros i Hi. apply Hnext. destruct Hi as [x [_ Hi]%lookup_delete_Some]. eauto.
  - done.
  - intros i m' c' [_ Hi]%lookup_delete_Some. eauto.
  - intros q o Ho. eapply obj_ok_ext; [|done|by eapply Hobjs].
    intros i Hi. rewrite lookup_delete_ne; [done|]. intros <-. apply Hlast, elem_of_app. left.
    by eapply refs_in_all.
Qed.

Lemma wp_shared_release w tmp id :
  world_ok w (id :: tmp) None ->
  wp never (shared_release (Some id)) (fun _ w' => world_ok w' tmp None /\ released w w') w.
Proof.
  intros Hw. destruct (live_get w (id :: tmp) None id Hw) as (m & c & Hm & Hs & Hb & _ & Hu & Hbk & Hb0).
  { rewrite elem_of_app, elem_of_cons. auto. }
  unfold wp, shared_release. rewrite Hm. destruct (c =? 1) eqn:Ec.
  - apply Z.eqb_eq in Ec as ->. pose proof (shared_last_ok _ _ _ _ Hw Hm) as Hw1.
    unfold segmentMemory_destroy. destruct (osm_buffer m =? 0) eqn:E0; [lia|].
    pose proof (wp_backend_deallocate _ _ _ _ _ Hw1 Hbk Hb0 Hu) as Hd. unfold wp in Hd.
    destruct (backend_deallocate _ _ _ _) as [[[] w']|f]; [|done].
    destruct Hd as (e' & -> & Hw' & Hback). split; [done|]. repeat split; auto.
    simpl. intros i m' c' [_ Hi]%lookup_delete_Some. eauto.
  - split; [apply (shared_decr_ok _ _ _ _ c); [done|done|lia]|]. repeat split; auto.
    simpl. intros i m' c' [[<- [= <- <-]]|[_ Hi]]%lookup_insert_Some; eauto.
Qed.

(** *** Objects *)
Lemma update_obj_ok w tmp tmp' blk this o o' :
  world_ok w tmp blk -> w_objects w !! this = Some o ->
  (forall id, nref id (obj_refs o' ++ tmp') = nref id (obj_refs o ++ tmp)) ->
  obj_ok (w_shared w) (w_env w) o' ->
  world_ok (set_objects (<[this := o']> (w_objects w)) w) tmp' blk.
Proof.
  intros Hw Ho Hn Hok. destruct Hw as [Henv Hcnt Hlive Hnext Hnexto Hmem Hobjs].
  assert (forall id, nref id (all_refs (<[this := o']> (w_objects w)) ++ tmp') =
                     nref id (all_refs (w_objects w) ++ tmp)) as Heq.
  { intros id. specialize (Hn id). pose proof (all_refs_update (w_objects w) this o o' id Ho).
    rewrite !nref_app in *. lia. }
  constructor; simpl; try done.
  - intros id m c Hm. rewrite Heq. eauto.
  - intros id Hid. apply Hlive. rewrite <- nref_pos in *. by rewrite <- Heq.
  - destruct Hnexto as [? Hx]. split; [done|]. intros p Hp. apply Hx.
    rewrite lookup_insert_is_Some in Hp. destruct Hp as [<-|[_ ?]]; [by eexists|done].
  - intros p q [[<- <-]|[_ Hp]]%lookup_insert_Some; [done|eauto].
Qed.

Lemma new_obj_ok w tmp blk o :
  world_ok w tmp blk -> obj_refs o = [] -> obj_ok (w_shared w) (w_env w) o ->
  world_ok (bump_object (set_objects (<[w_nextObject w := o]> (w_objects w)) w)) tmp blk.
Proof.
  intros Hw Ho Hok. destruct Hw as [Henv Hcnt Hlive Hnext [Hn0 Hn] Hmem Hobjs].
  assert (w_objects w !! w_nextObject w = None) as Hf.
  { apply eq_None_not_Some. intros Hs%Hn. lia. }
  assert (all_refs (<[w_nextObject w := o]> (w_objects w)) ≡ₚ all_refs (w_objects w)) as Heq.
  { rewrite all_refs_insert by done. by rewrite Ho. }
  constructor; simpl; try done.
  - intros id m c Hm. rewrite (nref_perm id _ (all_refs (w_objects w) ++ tmp)); [eauto|by rewrite Heq].
  - intros id Hid. apply Hlive. by rewrite Heq in Hid.
  - split; [lia|]. intros p Hp. rewrite lookup_insert_is_Some in Hp.
    destruct Hp as [<-|[_ Hp%Hn]]; lia.
  - intros p q [[<- <-]|[_ Hp]]%lookup_insert_Some; [done|eauto].
Qed.
End inv.
