(* ===== verification/View.v ===== *)
(** * The contents of an object

    [obj_view w o x] is the byte an access to offset [x] of the object [o] is
    meant to find: the byte of the segment that covers it, or the one of the
    storage.  [view_le] compares the contents before and after an operation;
    it is the specification of the cache as a whole: caching is invisible. *)

From S2P Require Import Prelude StdMap Memory IntervalMap Interfaces World WorldInv.

Section view.
Context {E S : Type} `{MemoryProviderOk E} `{StorageOk S}.
Abbreviation W := (World E S).
Implicit Types (w : W) (o : Object).

(** The storage behind an object; unknown without a storage backend. *)
Definition stored w o (x : Z) : option byte :=
  if o_storageBackend o =? 0 then None
  else Some (sb_contents (w_store w) (o_storageBackend o) (id_high (o_objectId o)) (id_low (o_objectId o)) x).

Definition obj_view w o (x : Z) : option byte :=
  match im_cover os_offset x (o_segmentMap o) with
  | Some (_, seg) => Some (w_mem w (seg_buffer (w_shared w) seg + (x - os_offset seg)))
  | None => stored w o x
  end.

Definition seg_covers (sh : shared_map) (seg : ObjectSegment) (x : Z) : Prop :=
  os_offset seg <= x < os_offset seg + seg_size sh seg.

(** What no access changes in an object. *)
Definition same_meta o o' : Prop :=
  o_objectId o' = o_objectId o /\ o_alignement o' = o_alignement o /\
  o_consistencyTracker o' = o_consistencyTracker o /\ o_storageBackend o' = o_storageBackend o /\
  o_memoryBackend o' = o_memoryBackend o.

(** Every byte known in [w] is the same in [w'], but those of [X]. *)
Definition view_le (X : Z -> Z -> Prop) w w' : Prop :=
  forall p o, w_objects w !! p = Some o -> exists o', w_objects w' !! p = Some o' /\ same_meta o o' /\
    forall x b, ~ X p x -> obj_view w o x = Some b -> obj_view w' o' x = Some b.

Lemma same_meta_refl o : same_meta o o.
Proof. by repeat split. Qed.
Lemma same_meta_trans o1 o2 o3 : same_meta o1 o2 -> same_meta o2 o3 -> same_meta o1 o3.
Proof. unfold same_meta. intuition congruence. Qed.

Lemma view_le_refl X w : view_le X w w.
Proof. intros p o Ho. exists o. split; [done|]. split; [apply same_meta_refl|done]. Qed.
Lemma view_le_trans X w1 w2 w3 : view_le X w1 w2 -> view_le X w2 w3 -> view_le X w1 w3.
Proof.
  intros H12 H23 p o Ho. destruct (H12 _ _ Ho) as (o2 & Ho2 & Hm & Hv).
  destruct (H23 _ _ Ho2) as (o3 & Ho3 & Hm' & Hv'). exists o3. split; [done|].
  split; [by eapply same_meta_trans|auto].
Qed.
Lemma view_le_weaken (X Y : Z -> Z -> Prop) w w' :
  (forall p x, X p x -> Y p x) -> view_le X w w' -> view_le Y w w'.
Proof.
  intros Hxy Hv p o Ho. destruct (Hv _ _ Ho) as (o' & Ho' & Hm & Hx). exists o'. split; [done|].
  split; [done|]. intros x b Hn. apply Hx. auto.
Qed.

Lemma im_cover_obj sh e o x k seg :
  obj_ok sh e o -> im_cover os_offset x (o_segmentMap o) = Some (k, seg) <->
  In (k, seg) (o_segmentMap o) /\ seg_covers sh seg x.
Proof. intros Hok. apply (im_cover_spec os_offset (seg_size sh) 0). apply ok_chain with (1 := Hok). Qed.

Lemma view_in sh e w o k seg x :
  sh = w_shared w -> obj_ok sh e o -> In (k, seg) (o_segmentMap o) -> seg_covers sh seg x ->
  obj_view w o x = Some (w_mem w (seg_buffer sh seg + (x - os_offset seg))).
Proof.
  intros -> Hok Hin Hx. unfold obj_view.
  by rewrite (proj2 (im_cover_obj _ _ _ _ _ _ Hok) (conj Hin Hx)).
Qed.

Lemma view_out e w o x :
  obj_ok (w_shared w) e o ->
  (forall k seg, In (k, seg) (o_segmentMap o) -> ~ seg_covers (w_shared w) seg x) ->
  obj_view w o x = stored w o x.
Proof.
  intros Hok Hn. unfold obj_view. destruct (im_cover _ _ _) as [[k seg]|] eqn:Ec; [|done].
  apply (im_cover_obj _ _ _ _ _ _ Hok) in Ec as [Hin Hx]. by destruct (Hn k seg Hin).
Qed.

(** A byte is covered by a segment, or by none. *)
Lemma cover_cases sh e o x :
  obj_ok sh e o ->
  (exists k seg, In (k, seg) (o_segmentMap o) /\ seg_covers sh seg x) \/
  (forall k seg, In (k, seg) (o_segmentMap o) -> ~ seg_covers sh seg x).
Proof.
  intros Hok. destruct (im_cover os_offset x (o_segmentMap o)) as [[k seg]|] eqn:Ec.
  - left. exists k, seg. by apply (im_cover_obj _ _ _ _ _ _ Hok).
  - right. intros k seg Hin Hx. by rewrite (proj2 (im_cover_obj _ _ _ _ _ _ Hok) (conj Hin Hx)) in Ec.
Qed.

(** The memory of a segment of a well-formed world. *)
Lemma seg_live w tmp blk p o k seg :
  world_ok w tmp blk -> w_objects w !! p = Some o -> In (k, seg) (o_segmentMap o) ->
  exists id m c, os_memory seg = Some id /\ id ∈ obj_refs o /\ w_shared w !! id = Some (m, c) /\
    seg_buffer (w_shared w) seg = osm_buffer m /\ seg_size (w_shared w) seg = osm_size m /\
    0 < osm_size m /\ 0 < osm_buffer m /\ osm_buffer m + osm_size m <= two64 /\ (mp_unit | osm_size m) /\
    mp_backend (w_env w) (osm_memoryBackend m) /\ osm_memoryBackend m <> 0.
Proof.
  intros Hw Ho Hin. pose proof (ok_memory _ _ _ (wo_objs _ _ _ Hw _ _ Ho)) as Hm.
  rewrite Forall_forall in Hm. destruct (Hm (k, seg)) as [id Hid]; [by apply list_elem_of_In|].
  simpl in Hid. assert (id ∈ obj_refs o) as Hr by by eapply seg_refs_In.
  destruct (live_get w tmp blk id Hw) as (m & c & Hm' & ?).
  { apply elem_of_app. left. by eapply refs_in_all. }
  exists id, m, c. split; [done|]. split; [done|]. split; [done|].
  unfold seg_buffer, seg_size, seg_memory. rewrite Hid. simpl. rewrite Hm'. simpl. tauto.
Qed.

(** An object whose segments, memory and storage are the same has the same
    contents. *)
Lemma obj_view_ext w w' tmp blk p o x :
  world_ok w tmp blk -> w_objects w !! p = Some o ->
  (forall id, id ∈ obj_refs o -> fst <$> w_shared w' !! id = fst <$> w_shared w !! id) ->
  (forall id m c a, id ∈ obj_refs o -> w_shared w !! id = Some (m, c) ->
     osm_buffer m <= a < osm_buffer m + osm_size m -> w_mem w' a = w_mem w a) ->
  (forall y, stored w' o y = stored w o y) ->
  obj_view w' o x = obj_view w o x.
Proof.
  intros Hw Ho Hsh Hmem Hst. pose proof (wo_objs _ _ _ Hw _ _ Ho) as Hok. unfold obj_view.
  destruct (im_cover _ _ _) as [[k seg]|] eqn:Ec; [|done]. f_equal.
  apply (im_cover_obj _ _ _ _ _ _ Hok) in Ec as [Hin Hx].
  destruct (seg_live w tmp blk p o k seg Hw Ho Hin) as (id & m & c & Hid & Hr & Hm & Hb & Hs & _).
  assert (seg_buffer (w_shared w') seg = osm_buffer m) as ->.
  { rewrite <- Hb. unfold seg_buffer. rewrite (seg_memory_ext (w_shared w)); [done|].
    intros i Hi. rewrite Hid in Hi. injection Hi as <-. by apply Hsh. }
  rewrite Hb. apply (Hmem id m c); [done|done|]. unfold seg_covers in Hx. lia.
Qed.

(** A step that keeps the objects and what they see keeps their contents. *)
Lemma view_le_same X w w' tmp blk :
  world_ok w tmp blk -> w_objects w' = w_objects w ->
  sb_contents (w_store w') = sb_contents (w_store w) ->
  (forall id m c, w_shared w !! id = Some (m, c) -> id ∈ all_refs (w_objects w) ->
     fst <$> w_shared w' !! id = Some m /\
     forall a, osm_buffer m <= a < osm_buffer m + osm_size m -> w_mem w' a = w_mem w a) ->
  view_le X w w'.
Proof.
  intros Hw Hobj Hst Hsame p o Ho. exists o. split; [congruence|]. split; [apply same_meta_refl|].
  intros x b _ <-. eapply obj_view_ext; [exact Hw|exact Ho| | |].
  - intros id Hid. assert (id ∈ all_refs (w_objects w)) as Ha by by eapply refs_in_all.
    destruct (wo_live _ _ _ Hw id) as [[m c] Hm]; [apply elem_of_app; by left|].
    destruct (Hsame id m c Hm Ha) as [-> _]. by rewrite Hm.
  - intros id m c a Hid Hm. assert (id ∈ all_refs (w_objects w)) as Ha by by eapply refs_in_all.
    by apply (Hsame id m c Hm Ha).
  - intros y. unfold stored. by rewrite Hst.
Qed.
End view.
