(* ===== verification/ObjectSegment.v ===== *)
(** * ObjectSegment

    Model of src/src/server/core/ObjectSegment.cpp: a segment of an object, whose
    memory is shared between the copies of a copy-on-write until one of them is
    written. *)

From S2P Require Import Prelude StdMap Memory IntervalMap Interfaces World WorldInv View.

Module ObjectSegment.
Section segment.
Context {E S : Type} `{MemoryProvider E} `{StorageBackend S}.
Abbreviation W := (World E S).

(** ObjectSegment::ObjectSegment(void) *)
Definition default_segment : ObjectSegment := mkSegment None 0 false.

(** ObjectSegment::ObjectSegment(offset, size, buffer, memoryBackend) *)
Definition new_segment (offset size buffer memoryBackend : Z) : M W ObjectSegment :=
  let! id := make_shared (mkSegmentMemory buffer size memoryBackend) in
  ret (mkSegment (Some id) offset false).

(** ObjectSegment::getSize *)
Definition getSize (seg : ObjectSegment) : M W Z :=
  let! m := shared_get (os_memory seg) in ret (osm_size m).

(** ObjectSegment::getBuffer *)
Definition getBuffer (seg : ObjectSegment) : M W Z :=
  let! m := shared_get (os_memory seg) in ret (osm_buffer m).

(** ObjectSegment::setDirty *)
Definition setDirty (value : bool) (seg : ObjectSegment) : ObjectSegment :=
  mkSegment (os_memory seg) (os_offset seg) value.

(** ObjectSegment::overlap *)
Definition overlap (seg : ObjectSegment) (segBase segSize : Z) : M W bool :=
  let! m := shared_get (os_memory seg) in
  ret ((os_offset seg <? segBase +u segSize) && (os_offset seg +u osm_size m >? segBase)).

(** ObjectSegment::getSegmentDescr *)
Definition getSegmentDescr (seg : ObjectSegment) : M W ObjectSegmentDescr :=
  let! m := shared_get (os_memory seg) in
  ret (mkDescr (osm_buffer m) (os_offset seg) (osm_size m)).

(** ObjectSegment::isCow: [!memory.unique()] *)
Definition isCow (seg : ObjectSegment) : M W bool := fun w =>
  match os_memory seg with
  | Some id => match w_shared w !! id with
               | Some (_, c) => Ok (negb (c =? 1), w)
               | None => Abort FNullPointer
               end
  | None => Ok (true, w)   (* the use count of a null pointer is 0 *)
  end.

(** ObjectSegment::operator=(ObjectSegment && orig), on the segment at key [k]
    of the object [this]: its memory is given up. *)
Definition move_assign (this k : Z) (orig : ObjectSegment) : M W unit :=
  let! seg := get_segment this k in
  set_segment this k orig ;;
  shared_release (os_memory seg).

(** ObjectSegment::makeCowOf, on the segment at key [k] of the object [this] *)
Definition makeCowOf (this k : Z) (orig : ObjectSegment) : M W unit :=
  let! seg := get_segment this k in
  shared_copy (os_memory orig) ;;
  set_segment this k (mkSegment (os_memory orig) (os_offset orig) (os_dirty orig)) ;;
  shared_release (os_memory seg).

(** ObjectSegment::applyCow, on the segment at key [k] of the object [this] *)
Definition applyCow (this k : Z) : M W unit :=
  let! seg := get_segment this k in
  let! m := shared_get (os_memory seg) in
  let! cow := isCow seg in
  assert_ cow ;;
  let! new_ptr := backend_allocate (osm_memoryBackend m) (osm_size m) in
  assert_ (negb (new_ptr =? 0)) ;;
  modify (set_mem (fun mem => memcpy mem new_ptr (osm_buffer m) (osm_size m))) ;;
  let! id := make_shared (mkSegmentMemory new_ptr (osm_size m) (osm_memoryBackend m)) in
  set_segment this k (mkSegment (Some id) (os_offset seg) (os_dirty seg)) ;;
  shared_release (os_memory seg).
End segment.

(** ** Rules *)
Section rules.
Context {E S : Type} `{MemoryProviderOk E} `{StorageOk S}.
Abbreviation W := (World E S).
Implicit Types (w : W).

(** What is known of the segment at a key. *)
Lemma segment_facts w tmp blk this o k seg :
  world_ok w tmp blk -> w_objects w !! this = Some o -> sm_find k (o_segmentMap o) = Some seg ->
  In (k, seg) (o_segmentMap o) /\ get_segment this k w = Ok (seg, w) /\
  os_offset seg + seg_size (w_shared w) seg < two63 /\ 0 <= os_offset seg /\
  k = os_offset seg + seg_size (w_shared w) seg - 1.
Proof.
  intros Hw Ho Hf. pose proof (wo_objs _ _ _ Hw _ _ Ho) as Hok.
  pose proof (chain_sorted _ _ _ _ (ok_chain _ _ _ Hok)) as Hs.
  pose proof (proj1 (sm_find_In _ _ _ Hs) Hf) as Hin. split; [done|]. split.
  { unfold get_segment, get_obj, bind. rewrite Ho. by rewrite Hf. }
  pose proof (chain_end_In _ _ _ _ _ _ (ok_chain _ _ _ Hok) Hin).
  pose proof (ok_end _ _ _ Hok). unfold iend in *.
  pose proof (chain_In _ _ _ _ _ _ (ok_chain _ _ _ Hok) Hin) as (? & ? & ?). unfold iend in *. lia.
Qed.

(** Replacing a segment by another of the same range, whose control block is
    the reference [id'] in hand; the reference to the old one comes in hand. *)
Lemma swap_segment_ok w tmp this o k seg seg' id id' :
  world_ok w (id' :: tmp) None -> w_objects w !! this = Some o ->
  sm_find k (o_segmentMap o) = Some seg -> os_memory seg = Some id -> os_memory seg' = Some id' ->
  os_offset seg' = os_offset seg -> seg_size (w_shared w) seg' = seg_size (w_shared w) seg ->
  world_ok (set_objects (<[this := set_segmentMap (sm_insert k seg' (o_segmentMap o)) o]> (w_objects w)) w)
    (id :: tmp) None.
Proof.
  intros Hw Ho Hf Hid Hid' Hoff Hsz. pose proof (wo_objs _ _ _ Hw _ _ Ho) as [Hc He Hm Hu Ha Hb].
  pose proof (chain_sorted _ _ _ _ Hc) as Hs.
  destruct (chain_replace os_offset (seg_size (w_shared w)) 0 _ k seg seg' Hc Hf Hoff Hsz) as [Hc' He'].
  eapply update_obj_ok; [exact Hw|exact Ho| |].
  - intros i. unfold obj_refs. simpl. pose proof (seg_refs_insert_old k seg' seg _ i Hf) as Hn.
    unfold seg_ref in Hn. rewrite Hid, Hid' in Hn. rewrite !nref_app, !nref_cons in *. rewrite nref_nil in Hn. lia.
  - constructor; simpl; try done; [by rewrite He'| |]; apply Forall_forall; intros [k1 s1] Hin%list_elem_of_In;
      apply sm_insert_In in Hin as [[= -> ->]|[_ Hin%list_elem_of_In]]; try done; simpl.
    + rewrite Forall_forall in Hm. by apply (Hm (k1, s1)).
    + rewrite Hoff. rewrite Forall_forall in Hu. apply (Hu (k, seg)). by apply list_elem_of_In, sm_find_In.
    + rewrite Forall_forall in Hu. by apply (Hu (k1, s1)).
Qed.

(** The state after a copy-on-write of the segment [seg] of control block [id]
    into the new block [p]. *)
Definition cow_world (w : W) (e : E) (this k p : Z) (o : Object) (seg : ObjectSegment)
    (id : Z) (m : ObjectSegmentMemory) (c : Z) : W :=
  mkWorld _ _ (memcpy (w_mem w) p (osm_buffer m) (osm_size m)) e (w_store w)
    (<[id := (m, c - 1)]>
      (<[w_nextShared w := (mkSegmentMemory p (osm_size m) (osm_memoryBackend m), 1)]> (w_shared w)))
    (w_nextShared w + 1)
    (<[this := set_segmentMap
         (sm_insert k (mkSegment (Some (w_nextShared w)) (os_offset seg) (os_dirty seg)) (o_segmentMap o)) o]>
      (w_objects w))
    (w_nextObject w).

Lemma fresh_shared w tmp blk : world_ok w tmp blk -> w_shared w !! w_nextShared w = None.
Proof. intros Hw. apply eq_None_not_Some. intros Hs%(wo_next _ _ _ Hw). lia. Qed.

Lemma wp_applyCow w tmp this o k seg id m c :
  world_ok w tmp None -> w_objects w !! this = Some o -> sm_find k (o_segmentMap o) = Some seg ->
  os_memory seg = Some id -> w_shared w !! id = Some (m, c) -> c <> 1 ->
  wp resource (applyCow this k) (fun _ w' => exists e' p, w' = cow_world w e' this k p o seg id m c /\
    world_ok w' tmp None /\ 0 < p /\
    forall i mi ci, w_shared w !! i = Some (mi, ci) -> disjoint p (osm_size m) (osm_buffer mi) (osm_size mi)) w.
Proof.
  intros Hw Ho Hf Hid Hm Hc.
  destruct (segment_facts w tmp None this o k seg Hw Ho Hf) as (Hin & Hget & _).
  destruct (seg_live w tmp None this o k seg Hw Ho Hin)
    as (id0 & m0 & c0 & Hid0 & Hr & Hm0 & Hbuf & Hsz & Hn & Hbp & Hbe & Hu & Hbk & Hb0).
  simplify_eq. unfold applyCow.
  wp_run Hget. rewrite Hid. assert (shared_get (Some id) w = Ok (m, w)) as Hsg.
  { unfold shared_get. by rewrite Hm. }
  wp_run Hsg. assert (isCow seg w = Ok (negb (c =? 1), w)) as Hcow.
  { unfold isCow. by rewrite Hid, Hm. }
  wp_run Hcow. apply wp_bind, wp_guard; [lia|]. pose proof (shared_max _ _ _ _ _ _ Hw Hm) as Hmax.
  apply wp_bind. eapply wp_mono; [apply (wp_backend_allocate w tmp); try done; lia|].
  intros p w1 (e' & -> & Hp & _ & Hw1 & Hdis & Hback).
  apply wp_bind, wp_guard; [lia|]. apply wp_bind, wp_modify. set (w2 := set_mem _ _).
  assert (world_ok w2 tmp (Some (p, osm_size m, osm_memoryBackend m))) as Hw2 by by apply world_ok_mem.
  pose proof (make_shared_ok _ _ _ _ _ Hw2 (Hback _ Hbk) Hb0 Hu) as Hw3.
  eapply wp_bind, wp_of_Ok; [reflexivity|]. cbn beta. set (w3 := bump_shared _) in *.
  pose proof (fresh_shared _ _ _ Hw) as Hfr.
  assert (id <> w_nextShared w) as Hne by congruence.
  set (seg' := mkSegment (Some (w_nextShared w)) (os_offset seg) (os_dirty seg)).
  assert (seg_size (w_shared w3) seg' = osm_size m) as Hsz'.
  { unfold seg_size, seg_memory. simpl. by rewrite lookup_insert_eq. }
  assert (seg_size (w_shared w3) seg = osm_size m) as Hsz3.
  { unfold seg_size, seg_memory. rewrite Hid. simpl. by rewrite lookup_insert_ne, Hm. }
  pose proof (swap_segment_ok w3 tmp this o k seg seg' id (w_nextShared w) Hw3 Ho Hf Hid eq_refl eq_refl
                (eq_trans Hsz' (eq_sym Hsz3))) as Hw4.
  eapply wp_bind, wp_of_Ok; [unfold set_segment, update_obj; simpl; rewrite Ho; reflexivity|]. cbn beta.
  set (w4 := set_objects _ w3) in *.
  assert (w_shared w4 !! id = Some (m, c)) as Hm4.
  { simpl. by rewrite lookup_insert_ne. }
  pose proof (shared_decr_ok w4 tmp id m c Hw4 Hm4 Hc) as Hw5.
  eapply wp_of_Ok.
  { unfold shared_release. rewrite Hm4. destruct (c =? 1) eqn:Ec; [lia|]. reflexivity. }
  exists e', p. done.
Qed.

Section cow.
Context (w : W) (tmp : list Z) (e : E) (this k p : Z) (o : Object) (seg : ObjectSegment)
  (id : Z) (m : ObjectSegmentMemory) (c : Z).
Context (Hw : world_ok w tmp None) (Ho : w_objects w !! this = Some o)
  (Hf : sm_find k (o_segmentMap o) = Some seg) (Hid : os_memory seg = Some id)
  (Hm : w_shared w !! id = Some (m, c))
  (Hw' : world_ok (cow_world w e this k p o seg id m c) tmp None)
  (Hdis : forall i mi ci, w_shared w !! i = Some (mi, ci) ->
            disjoint p (osm_size m) (osm_buffer mi) (osm_size mi)).
Let w' := cow_world w e this k p o seg id m c.

(** The other control blocks are untouched, but for the count of [id]. *)
Lemma cow_shared_other i : i <> id -> is_Some (w_shared w !! i) -> w_shared w' !! i = w_shared w !! i.
Proof.
  intros Hne Hi. simpl. rewrite lookup_insert_ne by done. rewrite lookup_insert_ne; [done|].
  intros <-. rewrite (fresh_shared _ _ _ Hw) in Hi. by destruct Hi.
Qed.
Lemma cow_shared_fst i : is_Some (w_shared w !! i) -> fst <$> w_shared w' !! i = fst <$> w_shared w !! i.
Proof.
  intros Hi. destruct (decide (i = id)) as [->|Hne]; [|by rewrite cow_shared_other].
  simpl. by rewrite lookup_insert_eq, Hm.
Qed.
Lemma cow_mem_other i mi ci a :
  w_shared w !! i = Some (mi, ci) -> osm_buffer mi <= a < osm_buffer mi + osm_size mi ->
  w_mem w' a = w_mem w a.
Proof. intros Hi Ha. simpl. apply memcpy_out. pose proof (Hdis _ _ _ Hi). unfold disjoint in *. lia. Qed.
Lemma cow_new : w_shared w' !! w_nextShared w = Some (mkSegmentMemory p (osm_size m) (osm_memoryBackend m), 1).
Proof.
  simpl. rewrite lookup_insert_ne, lookup_insert_eq; [done|]. intros ->.
  by rewrite (fresh_shared _ _ _ Hw) in Hm.
Qed.

Lemma cow_view_this x :
  obj_view w' (set_segmentMap
    (sm_insert k (mkSegment (Some (w_nextShared w)) (os_offset seg) (os_dirty seg)) (o_segmentMap o)) o) x =
  obj_view w o x.
Proof.
  set (seg' := mkSegment _ _ _). set (o' := set_segmentMap _ _).
  assert (w_objects w' !! this = Some o') as Ho' by apply lookup_insert_eq.
  pose proof (wo_objs _ _ _ Hw _ _ Ho) as Hok. pose proof (wo_objs _ _ _ Hw' _ _ Ho') as Hok'.
  pose proof (chain_sorted _ _ _ _ (ok_chain _ _ _ Hok)) as Hs.
  destruct (segment_facts w tmp None this o k seg Hw Ho Hf) as (Hin & _).
  assert (seg_size (w_shared w) seg = osm_size m /\ seg_buffer (w_shared w) seg = osm_buffer m) as [Hz Hb].
  { unfold seg_size, seg_buffer, seg_memory. rewrite Hid. simpl. by rewrite Hm. }
  assert (seg_size (w_shared w') seg' = osm_size m /\ seg_buffer (w_shared w') seg' = p) as [Hz' Hb'].
  { unfold seg_size, seg_buffer, seg_memory. simpl os_memory. cbn [mbind option_bind]. by rewrite cow_new. }
  assert (forall k1 s1, In (k1, s1) (o_segmentMap o) -> seg_memory (w_shared w') s1 = seg_memory (w_shared w) s1) as Hsame.
  { intros k1 s1 Hin1. apply seg_memory_ext. intros i Hi. apply cow_shared_fst.
    apply (wo_live _ _ _ Hw), elem_of_app. left. eapply refs_in_all, seg_refs_In; eauto. }
  destruct (cover_cases _ _ _ x Hok) as [(k1 & s1 & Hin1 & Hx)|Hno].
  - rewrite (view_in _ _ _ _ _ _ _ eq_refl Hok Hin1 Hx).
    destruct (decide (k1 = k)) as [->|Hne].
    + assert (s1 = seg) as -> by (apply (sm_find_In _ _ _ Hs) in Hin1; congruence).
      unfold seg_covers in Hx. rewrite Hz in Hx.
      rewrite (view_in _ _ w' o' k seg' x eq_refl Hok'); [|apply sm_insert_In; [done|by left]|].
      * rewrite Hb', Hb. simpl w_mem. rewrite memcpy_in by (simpl; lia). do 2 f_equal. simpl. lia.
      * unfold seg_covers. rewrite Hz'. done.
    + destruct (seg_live w tmp None this o k1 s1 Hw Ho Hin1) as (i & mi & ci & Hi & _ & Hmi & Hbi & Hsi & _).
      unfold seg_covers in Hx. rewrite Hsi in Hx.
      rewrite (view_in _ _ w' o' k1 s1 x eq_refl Hok'); [|apply sm_insert_In; [done|by right]|].
      * unfold seg_buffer at 1. rewrite (Hsame _ _ Hin1). fold (seg_buffer (w_shared w) s1). rewrite Hbi.
        f_equal. eapply cow_mem_other; [exact Hmi|]. lia.
      * unfold seg_covers, seg_size. rewrite (Hsame _ _ Hin1). fold (seg_size (w_shared w) s1). by rewrite Hsi.
  - rewrite (view_out _ _ _ _ Hok Hno). rewrite (view_out _ _ _ _ Hok'); [done|].
    intros k1 s1 [[= -> ->]|[_ Hin1]]%sm_insert_In Hx; [| |done].
    + apply (Hno k seg Hin). change (seg_covers (w_shared w') seg' x) in Hx.
      unfold seg_covers in *. rewrite Hz. by rewrite Hz' in Hx.
    + apply (Hno k1 s1 Hin1). change (seg_covers (w_shared w') s1 x) in Hx.
      unfold seg_covers, seg_size in *. by rewrite (Hsame _ _ Hin1) in Hx.
Qed.

(** Copy-on-write is invisible. *)
Lemma cow_view X : view_le X w w'.
Proof.
  intros q oq Hq. destruct (decide (q = this)) as [->|Hne].
  - eexists. split; [apply lookup_insert_eq|]. assert (oq = o) as -> by congruence.
    split; [by repeat split|]. intros x b _. by rewrite cow_view_this.
  - exists oq. split; [simpl; by rewrite lookup_insert_ne|]. split; [apply same_meta_refl|].
    intros x b _ <-. eapply obj_view_ext; [exact Hw|exact Hq| | |done].
    + intros i Hi. apply cow_shared_fst, (wo_live _ _ _ Hw), elem_of_app. left. by eapply refs_in_all.
    + intros i mi ci a _ Hmi. by apply (cow_mem_other i mi ci).
Qed.
End cow.
End rules.
End ObjectSegment.
