(* ===== verification/Object.v ===== *)
(** * Object

    Model of src/src/server/core/Object.cpp (and of
    StorageBackend::makeCowSegment): an object is a map of segments, created on
    demand in the gaps of the requested range, flushed to and loaded from the
    storage, and shared with other objects by copy-on-write.  Every method takes
    the address [this] of the object and works on the object table of the world,
    so two names of one object are one object. *)

From S2P Require Import Prelude StdMap Memory IntervalMap Interfaces ConsistencyTracker World WorldInv View ObjectSegment.

Module Object.
Import ObjectSegment.

(** operator<(const ObjectSegmentDescr &, const ObjectSegmentDescr &) *)
Definition descr_less (a b : ObjectSegmentDescr) : bool := d_offset a <? d_offset b.

(** operator<(const ObjectId &, const ObjectId &) *)
Definition ObjectId_less (a b : ObjectId) : bool :=
  if id_high a <? id_high b then true
  else if id_high a =? id_high b then id_low a <? id_low b
  else false.

(** std::list::sort(), which is stable. *)
Fixpoint sort_insert (d : ObjectSegmentDescr) (l : list ObjectSegmentDescr) : list ObjectSegmentDescr :=
  match l with
  | [] => [d]
  | d' :: l' => if descr_less d' d then d' :: sort_insert d l' else d :: d' :: l'
  end.
Definition sort (l : list ObjectSegmentDescr) : list ObjectSegmentDescr := foldr sort_insert [] l.

(** Object::isFullyOverlapped *)
Definition isFullyOverlapped (segOffset segSize reqOffset reqSize : Z) : bool :=
  let segEnd := segOffset +u segSize in
  let reqEnd := reqOffset +u reqSize in
  (segOffset >=? reqOffset) && (segEnd <=? reqEnd).

(** The first loop of Object::buildIovec: the part of a segment in the range,
    the differences going through an [int]. *)
Definition clip (offset size : Z) (it : ObjectSegmentDescr) : ObjectSegmentDescr :=
  let it := if d_offset it <? offset then
              let delta := i32 (offset -u d_offset it) in
              mkDescr (u64 (d_ptr it + delta)) (u64 (d_offset it + delta)) (u64 (d_size it - delta))
            else it in
  if d_offset it +u d_size it >? offset +u size then
    let delta := i32 ((d_offset it +u d_size it) -u (offset +u size)) in
    mkDescr (d_ptr it) (d_offset it) (u64 (d_size it - delta))
  else it.

(** Object::buildIovec: the clipped segments and the array of (base, length). *)
Definition buildIovec (segments : list ObjectSegmentDescr) (offset size : Z)
    : list ObjectSegmentDescr * list (Z * Z) :=
  let segments := map (clip offset size) segments in
  (segments, map (fun it => (d_ptr it, d_size it)) segments).

(** The alignement of the requested range at the start of Object::getBuffers. *)
Definition align_range (alignement base size : Z) : Z * Z :=
  if alignement >? 0 then
    let size := size +u base mod alignement in
    let base := base -u base mod alignement in
    let size := if size mod alignement >? 0 then size +u (alignement -u size mod alignement) else size in
    (base, size)
  else (base, size).

Section object.
Context {E S : Type} `{MemoryProvider E} `{StorageBackend S}.
Abbreviation W := (World E S).

(** [new Object(storageBackend, memBack, objectId, alignement)] *)
Definition new_object (storageBackend memBack : Z) (objectId : ObjectId) (alignement : Z) : M W Z := fun w =>
  let this := w_nextObject w in
  Ok (this, bump_object (set_objects
    (<[this := mkObject objectId [] alignement ConsistencyTracker.init storageBackend memBack]> (w_objects w)) w)).

(** Object::getObjectId *)
Definition getObjectId (this : Z) : M W ObjectId := let! o := get_obj this in ret (o_objectId o).

(** Object::setStorageBackend *)
Definition setStorageBackend (this storageBackend : Z) : M W unit :=
  update_obj this (fun o => mkObject (o_objectId o) (o_segmentMap o) (o_alignement o)
                              (o_consistencyTracker o) storageBackend (o_memoryBackend o)).

(** Object::setMemoryBackend *)
Definition setMemoryBackend (this memoryBackend : Z) : M W unit :=
  update_obj this (fun o => mkObject (o_objectId o) (o_segmentMap o) (o_alignement o)
                              (o_consistencyTracker o) (o_storageBackend o) memoryBackend).

(** Object::forceAlignement *)
Definition forceAlignement (this alignment : Z) : M W unit :=
  let! o := get_obj this in
  assume_ (match o_segmentMap o with [] => true | _ => false end) ;;
  update_obj this (fun o => mkObject (o_objectId o) (o_segmentMap o) alignment
                              (o_consistencyTracker o) (o_storageBackend o) (o_memoryBackend o)).

(** Object::markDirty *)
Definition markDirty (this base size : Z) : M W unit :=
  let! o := get_obj this in
  for_each (o_segmentMap o) (fun '(k, seg) =>
    let! ov := overlap seg base size in
    if ov then set_segment this k (setDirty true seg) else ret tt).

(** Object::pread *)
Definition pread (this buffer size offset : Z) : M W Z :=
  let! o := get_obj this in
  if o_storageBackend o =? 0 then ret (i64 size)
  else fun w =>
    let r := sb_pread (o_storageBackend o) (id_high (o_objectId o)) (id_low (o_objectId o))
               size offset (w_store w) in
    Ok (r.1.1, set_store r.2 (set_mem (fun m => wr m buffer r.1.2) w)).

(** Object::pwrite *)
Definition pwrite (this buffer size offset : Z) : M W Z :=
  let! o := get_obj this in
  if o_storageBackend o =? 0 then ret (i64 size)
  else fun w =>
    let r := sb_pwrite (o_storageBackend o) (id_high (o_objectId o)) (id_low (o_objectId o))
               (rd (w_mem w) buffer size) offset (w_store w) in
    Ok (r.1, set_store r.2 w).

(** Object::create *)
Definition create (this : Z) : M W Z :=
  let! o := get_obj this in
  if o_storageBackend o =? 0 then ret 0
  else fun w =>
    let r := sb_create (o_storageBackend o) (id_high (o_objectId o)) (id_low (o_objectId o)) (w_store w) in
    Ok (r.1, set_store r.2 w).

(** [segmentMap[k]]: creates an empty segment when there is none. *)
Definition touch_segment (this k : Z) : M W unit :=
  let! o := get_obj this in
  match sm_find k (o_segmentMap o) with
  | Some _ => ret tt
  | None => set_segment this k default_segment
  end.

(** Object::loadSegment; [mkDescr 0 0 0] is the error descriptor. *)
Definition loadSegment (this offset size : Z) (load acceptLoadFail : bool) : M W ObjectSegmentDescr :=
  let! o := get_obj this in
  let! buffer := backend_allocate (o_memoryBackend o) size in
  let! failed :=
    if load then
      let! status := pread this buffer size offset in
      ret (negb (u64 status =? size) && negb acceptLoadFail)
    else ret false in
  if failed then backend_deallocate (o_memoryBackend o) buffer size ;; ret (mkDescr 0 0 0)
  else
    let k := (offset +u size) -u 1 in
    touch_segment this k ;;
    let! seg := new_segment offset size buffer (o_memoryBackend o) in
    move_assign this k seg ;;
    let! seg := get_segment this k in
    getSegmentDescr seg.

(** The first loop of Object::getBuffers, from the iterator [lower_bound(base)];
    the condition tested again in the body is the one of the loop. *)
Fixpoint collect (this base size : Z) (mode : ObjectAccessMode) (it : stdmap Z ObjectSegment)
    : M W (list ObjectSegmentDescr) :=
  match it with
  | [] => ret []
  | (k, seg) :: it' =>
      let! ov := overlap seg base size in
      if ov then
        (match mode with
         | ACCESS_WRITE => let! cow := isCow seg in if cow then applyCow this k else ret tt
         | ACCESS_READ => ret tt
         end) ;;
        let! seg := get_segment this k in
        let! d := getSegmentDescr seg in
        let! ds := collect this base size mode it' in
        ret (d :: ds)
      else ret []
  end.

Definition needLoad (load isForWriteOp : bool) (lastOffset size origBase origSize : Z) : bool :=
  if isForWriteOp && isFullyOverlapped lastOffset size origBase origSize then false else load.

(** The second loop of Object::getBuffers: loads the gaps before the segments
    found; the list of the loaded ones, [None] after a failure, and
    [lastOffset]. *)
Fixpoint complete (this : Z) (load isForWriteOp : bool) (origBase origSize : Z)
    (segments : list ObjectSegmentDescr) (lastOffset : Z) : M W (option (list ObjectSegmentDescr) * Z) :=
  match segments with
  | [] => ret (Some [], lastOffset)
  | it :: segments' =>
      let! d :=
        if d_offset it >? lastOffset then
          let size := d_offset it -u lastOffset in
          let! descr := loadSegment this lastOffset size
                          (needLoad load isForWriteOp lastOffset size origBase origSize) isForWriteOp in
          ret (Some descr)
        else ret None in
      match d with
      | Some descr =>
          if d_ptr descr =? 0 then ret (None, lastOffset)
          else
            let! r := complete this load isForWriteOp origBase origSize segments' (d_offset it +u d_size it) in
            ret (cons descr <$> r.1, r.2)
      | None => complete this load isForWriteOp origBase origSize segments' (d_offset it +u d_size it)
      end
  end.

(** Object::getBuffers *)
Definition getBuffers (this base size : Z) (mode : ObjectAccessMode) (load isForWriteOp : bool)
    : M W (bool * list ObjectSegmentDescr) :=
  let! o := get_obj this in
  let origBase := base in
  let origSize := size in
  let '(base, size) := align_range (o_alignement o) base size in
  let! segments := collect this base size mode (sm_lower_bound base (o_segmentMap o)) in
  let! r := complete this load isForWriteOp origBase origSize segments base in
  match r.1 with
  | None => ret (false, [])
  | Some tmp =>
      let segments := segments ++ tmp in
      let lastOffset := r.2 in
      let endOffset := base +u size in
      if lastOffset <? endOffset then
        let size := endOffset -u lastOffset in
        let! descr := loadSegment this lastOffset size
                        (needLoad load isForWriteOp lastOffset size origBase origSize) isForWriteOp in
        if d_ptr descr =? 0 then ret (false, [])
        else ret (true, sort (segments ++ [descr]))
      else ret (true, sort segments)
  end.

(** Object::flush *)
Definition flush (this offset size : Z) : M W Z :=
  let! o := get_obj this in
  fold_m (fun r '(k, seg) =>
    if os_dirty seg then
      let! sel := (if size =? 0 then ret true else overlap seg offset size) in
      if sel then
        let! buffer := getBuffer seg in
        let! sz := getSize seg in
        let! status := pwrite this buffer sz (os_offset seg) in
        set_segment this k (setDirty false seg) ;;
        ret (if status =? i64 sz then r else -1)
      else ret r
    else ret r) 0 (o_segmentMap o).

(** *** Copy on write *)

(** StorageBackend::makeCowSegment: the temporary buffer holds what [pread]
    stores over fresh memory. *)
Definition makeCowSegment (h highOrig lowOrig highDest lowDest offset size : Z) : M W Z := fun w =>
  let r := sb_pread h highOrig lowOrig size offset (w_store w) in
  let buffer := rd (wr (sb_fresh (w_store w)) 0 r.1.2) 0 size in
  if r.1.1 =? i64 size then
    let r' := sb_pwrite h highDest lowDest buffer offset r.2 in
    if r'.1 =? i64 size then Ok (i64 size, set_store r'.2 w)
    else Abort FAssume
  else Abort FAssume.

(** The copy loop of Object::rangeCopyOnWriteSegment over the segments found;
    [ko] is the key of the original segment of the object [orig]. *)
Fixpoint copy_segments (orig ko : Z) (segments : list ObjectSegmentDescr)
    (innerOffset absOffset innerSize : Z) : M W unit :=
  match segments with
  | [] => ret tt
  | it :: segments' =>
      let destOffset := absOffset -u d_offset it in
      let copySize := if d_size it >? innerSize then innerSize else d_size it in
      let! origSegment := get_segment orig ko in
      let! buffer := getBuffer origSegment in
      modify (set_mem (fun m => memcpy m (u64 (d_ptr it + destOffset)) (u64 (buffer + innerOffset)) copySize)) ;;
      copy_segments orig ko segments' (innerOffset +u copySize) (absOffset +u copySize) (innerSize -u copySize)
  end.

(** Object::rangeCopyOnWriteSegment, the original segment being the one at key
    [ko] of the object [orig] *)
Definition rangeCopyOnWriteSegment (this orig ko offset size : Z) : M W unit :=
  let! origSegment := get_segment orig ko in
  let! origSize := getSize origSegment in
  let origOffset := os_offset origSegment in
  let '(innerOffset, innerSize, partial1) :=
    if origOffset <? offset
    then (offset -u origOffset, origSize -u (offset -u origOffset), true)
    else (0, origSize, false) in
  let '(innerSize, partial2) :=
    if offset +u size <? origOffset +u origSize
    then (innerSize -u ((origOffset +u origSize) -u (offset +u size)), true)
    else (innerSize, partial1) in
  let! o := get_obj this in
  let! localPartialOverlap :=
    match sm_lower_bound origOffset (o_segmentMap o) with
    | [] => ret false
    | (_, target) :: _ =>
        let! targetSize := getSize target in
        ret (negb (os_offset target =? origOffset) || negb (targetSize =? origSize))
    end in
  if partial2 || localPartialOverlap then
    let absOffset := origOffset +u innerOffset in
    let! r := getBuffers this absOffset innerSize ACCESS_WRITE true false in
    copy_segments orig ko r.2 innerOffset absOffset innerSize
  else
    let k := (origOffset +u origSize) -u 1 in
    touch_segment this k ;;
    makeCowOf this k origSegment.

(** The element after the one of key [k]. *)
Definition next_key (k : Z) (m : stdmap Z ObjectSegment) : option Z :=
  match sm_lower_bound (k + 1) m with (k', _) :: _ => Some k' | [] => None end.

(** The loop of Object::rangeCopyOnWrite from the iterator at key [it]. *)
Fixpoint cow_loop (fuel : nat) (this orig offset size : Z) (it : option Z) : M W unit :=
  match it with
  | None => ret tt
  | Some k =>
      match fuel with
      | O => abort FFuel
      | Datatypes.S fuel' =>
          let! seg := get_segment orig k in
          let! ov := overlap seg offset size in
          if ov then
            rangeCopyOnWriteSegment this orig k offset size ;;
            let! o := get_obj orig in
            cow_loop fuel' this orig offset size (next_key k (o_segmentMap o))
          else ret tt
      end
  end.

(** Object::rangeCopyOnWrite *)
Definition rangeCopyOnWrite (this orig offset size : Z) : M W unit :=
  let! o := get_obj orig in
  match sm_lower_bound offset (o_segmentMap o) with
  | [] => ret tt
  | (k, seg) :: rest =>
      let! ov := overlap seg offset size in
      let it := if ov then Some k else match rest with (k', _) :: _ => Some k' | [] => None end in
      cow_loop (2 * length (o_segmentMap o) + 4) this orig offset size it
  end.

(** The body of the loop of Object::makeFullCopyOnWrite: [o] is the original,
    [cow] the address of the new object. *)
Definition fullCowSegment (o : Object) (targetObjectId : ObjectId) (cow cursor k : Z) (it : ObjectSegment) : M W Z :=
  (if cursor <? os_offset it then
     let copySize := os_offset it -u cursor in
     (if o_storageBackend o =? 0 then abort FNullPointer else ret tt) ;;
     let! status := makeCowSegment (o_storageBackend o) (id_high (o_objectId o)) (id_low (o_objectId o))
                      (id_high targetObjectId) (id_low targetObjectId) cursor copySize in
     assume_ (status =? i64 copySize)
   else ret tt) ;;
  (touch_segment cow k ;; makeCowOf cow k it) ;;
  let! segment := get_segment cow k in
  (if os_dirty segment then ret tt
   else
     let! buffer := getBuffer segment in
     let! sz := getSize segment in
     let! status := pwrite cow buffer sz (os_offset segment) in
     assume_ (status =? i64 sz)) ;;
  let! sz := getSize it in
  ret (os_offset it +u sz).

(** Object::makeFullCopyOnWrite *)
Definition makeFullCopyOnWrite (this : Z) (targetObjectId : ObjectId) (allowExist : bool) : M W Z :=
  let! o := get_obj this in
  let! cow := new_object (o_storageBackend o) (o_memoryBackend o) targetObjectId (o_alignement o) in
  let! createStatus := create cow in
  assume_ ((createStatus =? 0) || allowExist) ;;
  let! _ := fold_m (fun cursor '(k, it) => fullCowSegment o targetObjectId cow cursor k it) 0 (o_segmentMap o) in
  ret cow.

(** *** Helpers of the unit tests *)

(** Object::getUniqBuffer *)
Definition getUniqBuffer (this base size : Z) (mode : ObjectAccessMode) (load : bool) : M W Z :=
  let! r := getBuffers this base size mode load false in
  match r.2 with
  | [segment] => ret (u64 (d_ptr segment + (base -u d_offset segment)))
  | _ => abort FAssume
  end.

(** Object::fillBuffer *)
Definition fillBuffer (this offset size : Z) (value : byte) : M W unit :=
  let! r := getBuffers this offset size ACCESS_WRITE true false in
  for_each r.2 (fun it =>
    let '(localOffset, localSize) :=
      if d_offset it <? offset
      then (offset -u d_offset it, d_size it -u (offset -u d_offset it)) else (0, d_size it) in
    let localSize := if localOffset +u localSize >? size then size -u localOffset else localSize in
    modify (set_mem (fun m => memset m (d_ptr it + localOffset) value localSize))).

(** Object::checkUniq *)
Definition checkUniq (this offset size : Z) : M W bool :=
  let! r := getBuffers this offset size ACCESS_READ true false in
  match r.2 with
  | [d] => ret ((d_offset d =? offset) && (d_size d =? size))
  | _ => ret false
  end.

(** Object::checkBuffer *)
Definition checkBuffer (this offset size : Z) (value : byte) : M W bool :=
  let! r := getBuffers this offset size ACCESS_WRITE true false in
  let! m := gets w_mem in
  ret (forallb (fun it =>
    let '(localOffset, localSize) :=
      if d_offset it <? offset
      then (offset -u d_offset it, d_size it -u (offset -u d_offset it)) else (0, d_size it) in
    let localSize := if localOffset +u localSize >? size then size else localSize in
    forallb (fun b => bool_decide (b = value)) (rd m (d_ptr it + localOffset) localSize)) r.2).
End object.
End Object.
