(* ===== verification/Calm.v ===== *)
(** * What an access keeps

    The methods of an object change the world in a few ways only: the segments of
    an object, the shared pointers, the storage, the memory backends, and the
    memory of a block that was just allocated.  A [discipline] is an invariant and a
    preorder that these ways keep; the rules compose it along the programs, so that
    a method keeps it because its parts do.  Two of them are used: [calm], for which
    no object is created, deleted or renamed, and [shield], for which the memory
    that belongs to others is left alone. *)

From S2P Require Import Prelude StdMap Memory Interfaces ConsistencyTracker World WorldInv View ObjectSegment Object.

Module Calm.
Import ObjectSegment Object.

(** What the container knows of an object. *)
Definition obj_name (o : Object) : ObjectId * Z := (o_objectId o, o_storageBackend o).

Create HintDb kept discriminated.

Section discipline.
Context {E S : Type} `{MemoryProvider E} `{StorageBackend S}.
Abbreviation W := (World E S).
Implicit Types (w : W).

(** [may_write p n]: the block was handed out, so that its memory may be written. *)
Record discipline : Type := {
  inv : W -> Prop;
  rel : W -> W -> Prop;
  may_write : Z -> Z -> Prop;
  di_pre : PreOrder rel;
  di_shared : forall w m next, inv w ->
    let w' := mkWorld _ _ (w_mem w) (w_env w) (w_store w) m next (w_objects w) (w_nextObject w) in inv w' /\ rel w w';
  di_update : forall w p o f, inv w -> w_objects w !! p = Some o -> obj_name (f o) = obj_name o ->
    let w' := set_objects (<[p := f o]> (w_objects w)) w in inv w' /\ rel w w';
  di_store : forall w s, inv w -> inv (set_store s w) /\ rel w (set_store s w);
  di_copy : forall w p n src, inv w -> may_write p n ->
    let w' := set_mem (fun m => memcpy m p src n) w in inv w' /\ rel w w';
  di_load : forall w h hi lo p n off, inv w -> may_write p n ->
    let w' := set_mem (fun m => wr m p (sb_pread h hi lo n off (w_store w)).1.2) w in inv w' /\ rel w w';
  di_allocate : forall w h n, inv w ->
    wp (fun _ => True) (mp_allocate h n) (fun p e => let w' := set_env e w in inv w' /\ rel w w' /\ may_write p n) (w_env w);
  di_deallocate : forall w h p n, inv w ->
    wp (fun _ => True) (mp_deallocate h p n) (fun _ e => let w' := set_env e w in inv w' /\ rel w w') (w_env w);
}.

Variable d : discipline.
#[local] Existing Instance di_pre.

(** A program that keeps it when it returns. *)
Definition keeps {A} (m : M W A) : Prop :=
  forall w, inv d w -> wp (fun _ => True) m (fun _ w' => inv d w' /\ rel d w w') w.

Lemma keeps_Ok {A} (m : M W A) : (forall w a w', m w = Ok (a, w') -> inv d w -> inv d w' /\ rel d w w') -> keeps m.
Proof. intros Hm w Hw. unfold wp. destruct (m w) as [[a w']|f] eqn:E0; [eauto|done]. Qed.
Lemma keeps_read {A} (m : M W A) : (forall w a w', m w = Ok (a, w') -> w' = w) -> keeps m.
Proof. intros Hm. apply keeps_Ok. intros w a w' ->%Hm Hw. done. Qed.

(** A step that gives the right to write, then the rest. *)
Lemma keeps_bind_post {A B} (P : A -> Prop) (m : M W A) (k : A -> M W B) :
  (forall w, inv d w -> wp (fun _ => True) m (fun a w' => inv d w' /\ rel d w w' /\ P a) w) ->
  (forall a, P a -> keeps (k a)) -> keeps (bind m k).
Proof.
  intros Hm Hk w Hw. apply wp_bind. eapply wp_mono; [by apply Hm|]. intros a w' (Hw' & H12 & HP). cbn beta.
  eapply wp_mono; [by apply Hk|]. intros b w2 [Hw2 H23]. split; [done|]. etrans; [exact H12|exact H23].
Qed.
Lemma keeps_bind {A B} (m : M W A) (k : A -> M W B) : keeps m -> (forall a, keeps (k a)) -> keeps (bind m k).
Proof.
  intros Hm Hk. apply (keeps_bind_post (fun _ => True)); [|auto]. intros w Hw. eapply wp_mono; [by apply Hm|]. by intros a w' [? ?].
Qed.
Lemma keeps_ret {A} (a : A) : keeps (ret a).
Proof. by apply keeps_read; intros w b w' [= <- <-]. Qed.
Lemma keeps_gets {A} (f : W -> A) : keeps (gets f).
Proof. by apply keeps_read; intros w b w' [= <- <-]. Qed.
Lemma keeps_guard f b : keeps (guard_ f b).
Proof. apply keeps_read. intros w a w'. destruct b; by intros [= <- <-]. Qed.
Lemma keeps_of_option {A} f (o : option A) : keeps (of_option f o).
Proof. apply keeps_read. intros w a w'. destruct o; by intros [= <- <-]. Qed.
Lemma keeps_for_each {A} (l : list A) (body : A -> M W unit) : (forall x, keeps (body x)) -> keeps (for_each l body).
Proof. intros Hb. induction l; simpl; [apply keeps_ret|]. by apply keeps_bind. Qed.
Lemma keeps_fold_m {A B} (f : B -> A -> M W B) l b : (forall b x, keeps (f b x)) -> keeps (fold_m f b l).
Proof. intros Hf. revert b. induction l; simpl; intros b; [apply keeps_ret|]. by apply keeps_bind. Qed.

Lemma wp_disciplined F {A} (m : M W A) (Q : A -> W -> Prop) w :
  inv d w -> wp F m Q w -> keeps m -> wp F m (fun a w' => Q a w' /\ inv d w' /\ rel d w w') w.
Proof. intros Hw Hq Hc. specialize (Hc w Hw). revert Hq Hc. unfold wp. by destruct (m w) as [[a w']|f]. Qed.

(** *** The primitives *)
Lemma keeps_get_obj this : keeps (get_obj this).
Proof. apply keeps_read. unfold get_obj. intros w a w'. by case_match; intros [= <- <-]. Qed.
Lemma keeps_shared_get p : keeps (shared_get p).
Proof. apply keeps_read. unfold shared_get. intros w a w'. by repeat case_match; intros [= <- <-]. Qed.
Lemma keeps_isCow seg : keeps (isCow seg).
Proof. apply keeps_read. unfold isCow. intros w a w'. by repeat case_match; intros [= <- <-]. Qed.
Lemma keeps_make_shared m : keeps (make_shared m).
Proof. apply keeps_Ok. intros w a w' [= <- <-] Hw. by apply (di_shared d w). Qed.
Lemma keeps_shared_copy p : keeps (shared_copy p).
Proof.
  apply keeps_Ok. unfold shared_copy. intros w a w'. repeat case_match; intros [= <- <-] Hw; first [by apply (di_shared d w)|by split].
Qed.
Lemma keeps_update_obj this f : (forall o, obj_name (f o) = obj_name o) -> keeps (update_obj this f).
Proof.
  intros Hf. apply keeps_Ok. unfold update_obj. intros w a w'. case_match eqn:Ho; [|done]. intros [= <- <-] Hw. by apply (di_update d w).
Qed.
Lemma wp_may_write h n w :
  inv d w -> wp (fun _ => True) (backend_allocate h n) (fun p w' => inv d w' /\ rel d w w' /\ may_write d p n) w.
Proof.
  intros Hw. unfold wp, backend_allocate. destruct (h =? 0); [done|]. pose proof (di_allocate d w h n Hw) as Ha. unfold wp in Ha.
  by destruct (mp_allocate _ _ _) as [[p e]|].
Qed.
Lemma keeps_deallocate h p n : keeps (backend_deallocate h p n).
Proof.
  intros w Hw. unfold wp, backend_deallocate. destruct (h =? 0); [done|]. pose proof (di_deallocate d w h p n Hw) as Ha. unfold wp in Ha.
  by destruct (mp_deallocate _ _ _ _) as [[[] e]|].
Qed.
Lemma keeps_shared_release p : keeps (shared_release p).
Proof.
  intros w Hw. unfold wp, shared_release. destruct p as [id|]; [|done]. destruct (w_shared w !! id) as [[m c]|]; [|done].
  destruct (di_shared d w (delete id (w_shared w)) (w_nextShared w) Hw) as [Hi Hr].
  destruct (c =? 1); [|by apply (di_shared d w)]. unfold segmentMemory_destroy. destruct (osm_buffer m =? 0); [done|].
  pose proof (keeps_deallocate (osm_memoryBackend m) (osm_buffer m) (osm_size m) (set_shared (delete id (w_shared w)) w) Hi) as Hd.
  unfold wp in Hd. destruct (backend_deallocate _ _ _ _) as [[[] w']|f]; [|done]. destruct Hd as [? ?]. split; [done|]. by etrans.
Qed.
End discipline.
Arguments discipline E S {_ _}.

#[export] Hint Resolve keeps_ret keeps_gets keeps_guard keeps_of_option keeps_bind keeps_for_each keeps_fold_m
  keeps_get_obj keeps_shared_get keeps_make_shared keeps_shared_copy keeps_isCow keeps_update_obj
  keeps_deallocate keeps_shared_release : kept.

(** Splits a program into its parts. *)
Ltac keeps_tac :=
  repeat match goal with
  | |- forall _, _ => intros ?
  | |- keeps _ (bind _ _) => apply keeps_bind
  | |- keeps _ (if ?b then _ else _) => destruct b
  | |- keeps _ (match ?x with _ => _ end) => destruct x
  | |- keeps _ (let '(_, _) := ?x in _) => destruct x
  | |- _ => solve [eauto with kept]
  end.

(** ** The methods *)
Section methods.
Context {E S : Type} `{MemoryProvider E} `{StorageBackend S}.
Variable d : discipline E S.
Abbreviation W := (World E S).

Lemma keeps_get_segment this k : keeps d (get_segment this k).
Proof. unfold get_segment. keeps_tac. Qed.
Lemma keeps_set_segment this k seg : keeps d (set_segment this k seg).
Proof. unfold set_segment. by apply keeps_update_obj. Qed.
#[local] Hint Resolve keeps_get_segment keeps_set_segment : kept.

Lemma keeps_overlap seg b n : keeps d (overlap seg b n).
Proof. unfold overlap. keeps_tac. Qed.
Lemma keeps_descr seg : keeps d (getSegmentDescr seg).
Proof. unfold getSegmentDescr. keeps_tac. Qed.
Lemma keeps_applyCow this k : keeps d (applyCow this k).
Proof.
  unfold applyCow. apply keeps_bind; [keeps_tac|]. intros seg. apply keeps_bind; [keeps_tac|]. intros m.
  apply keeps_bind; [keeps_tac|]. intros cow. apply keeps_bind; [keeps_tac|]. intros _.
  eapply keeps_bind_post; [intros w; apply wp_may_write|]. intros p Hp. apply keeps_bind; [keeps_tac|]. intros _.
  apply keeps_bind; [|keeps_tac]. intros w Hw. by apply (di_copy d).
Qed.
Lemma keeps_touch this k : keeps d (touch_segment this k).
Proof. unfold touch_segment. keeps_tac. Qed.
Lemma keeps_move this k seg : keeps d (move_assign this k seg).
Proof. unfold move_assign. keeps_tac. Qed.
Lemma keeps_new_segment o n b h : keeps d (new_segment o n b h).
Proof. unfold new_segment. keeps_tac. Qed.
Lemma keeps_pread this b n off : may_write d b n -> keeps d (pread this b n off).
Proof.
  intros Hb. unfold pread. apply keeps_bind; [keeps_tac|]. intros o. case_match; [keeps_tac|]. intros w Hw. unfold wp.
  destruct (di_load d w (o_storageBackend o) (id_high (o_objectId o)) (id_low (o_objectId o)) b n off Hw Hb) as [Hi Hr].
  destruct (di_store d _ (sb_pread (o_storageBackend o) (id_high (o_objectId o)) (id_low (o_objectId o)) n off (w_store w)).2 Hi) as [Hi2 Hr2].
  split; [done|]. pose proof (di_pre d). etrans; [exact Hr|exact Hr2].
Qed.
Lemma keeps_pwrite this b n off : keeps d (pwrite this b n off).
Proof. unfold pwrite. apply keeps_bind; [keeps_tac|]. intros o. case_match; [keeps_tac|]. intros w Hw. by apply (di_store d w). Qed.
Lemma keeps_create this : keeps d (create this).
Proof. unfold create. apply keeps_bind; [keeps_tac|]. intros o. case_match; [keeps_tac|]. intros w Hw. by apply (di_store d w). Qed.
#[local] Hint Resolve keeps_overlap keeps_descr keeps_applyCow keeps_touch keeps_move keeps_new_segment keeps_pread keeps_pwrite : kept.

Lemma keeps_loadSegment this off n load af : keeps d (loadSegment this off n load af).
Proof.
  unfold loadSegment. apply keeps_bind; [keeps_tac|]. intros o. eapply keeps_bind_post; [intros w; apply wp_may_write|]. intros p Hp. keeps_tac.
Qed.
#[local] Hint Resolve keeps_loadSegment : kept.

Lemma keeps_collect this b n mode it : keeps d (collect this b n mode it).
Proof. induction it as [|[k seg] it IH]; simpl; keeps_tac. Qed.
Lemma keeps_complete this load wop ob os segs last : keeps d (complete this load wop ob os segs last).
Proof. revert last. induction segs as [|x segs IH]; intros last; simpl; keeps_tac. Qed.
#[local] Hint Resolve keeps_collect keeps_complete : kept.

Lemma keeps_getBuffers this b n mode load wop : keeps d (getBuffers this b n mode load wop).
Proof. unfold getBuffers. keeps_tac. Qed.
Lemma keeps_markDirty this b n : keeps d (markDirty this b n).
Proof. unfold markDirty. apply keeps_bind; [keeps_tac|]. intros o. apply keeps_for_each. intros [k seg]. keeps_tac. Qed.
Lemma keeps_flush this off n : keeps d (flush this off n).
Proof.
  unfold flush, getBuffer, getSize. apply keeps_bind; [keeps_tac|]. intros o. apply keeps_fold_m. intros b [k seg]. keeps_tac.
Qed.
End methods.

(** ** The names of the objects *)
Section calm.
Context {E S : Type} `{MemoryProviderOk E} `{StorageBackend S}.
Abbreviation W := (World E S).
Implicit Types (w : W).

Record calm w w' : Prop := {
  calm_names : forall p, obj_name <$> w_objects w' !! p = obj_name <$> w_objects w !! p;
  calm_backends : forall h, mp_backend (w_env w) h -> mp_backend (w_env w') h;
}.

#[export] Instance calm_preorder : PreOrder calm.
Proof.
  split; [by constructor|]. intros w1 w2 w3 [N1 B1] [N2 B2]. constructor; [|auto]. intros p. by rewrite N2, N1.
Qed.

Program Definition calm_discipline : discipline E S := {| inv := fun _ => True; rel := calm; may_write := fun _ _ => True |}.
Next Obligation. done. Qed.
Next Obligation.
  intros w p o f _ Ho Hf. split; [done|]. constructor; [|done]. intros q. simpl. destruct (decide (q = p)) as [->|Hne].
  - rewrite lookup_insert_eq, Ho. simpl. by rewrite Hf.
  - by rewrite lookup_insert_ne.
Qed.
Next Obligation. done. Qed.
Next Obligation. done. Qed.
Next Obligation. done. Qed.
Next Obligation.
  intros w h n _. unfold wp. destruct (mp_allocate h n (w_env w)) as [[p e]|] eqn:Ea; [|done]. split; [done|]. split; [|done].
  constructor; [done|]. intros h'. by eapply mp_allocate_backend.
Qed.
Next Obligation.
  intros w h p n _. unfold wp. destruct (mp_deallocate h p n (w_env w)) as [[[] e]|] eqn:Ea; [|done]. split; [done|].
  constructor; [done|]. intros h'. by eapply mp_deallocate_backend.
Qed.
Lemma wp_calm F {A} (m : M W A) (Q : A -> W -> Prop) w :
  wp F m Q w -> keeps calm_discipline m -> wp F m (fun a w' => Q a w' /\ calm w w') w.
Proof. intros Hq Hm. eapply wp_mono; [by apply (wp_disciplined calm_discipline)|]. by intros a w' (? & _ & ?). Qed.
End calm.

(** ** The memory of others *)

(** [shielded] are addresses that no block handed out meets. *)
Class Shield (E : Type) `{MemoryProvider E} (si : E -> Prop) (shielded : Z -> Prop) : Prop := {
  si_allocate : forall e h n, si e ->
    wp (fun _ => True) (mp_allocate h n) (fun p e' => si e' /\ 0 <= n /\ forall a, shielded a -> ~ p <= a < p + n) e;
  si_deallocate : forall e h p n, si e -> wp (fun _ => True) (mp_deallocate h p n) (fun _ e' => si e') e;
}.

Section shield.
Context {E S : Type} `{MemoryProvider E} `{StorageOk S} (si : E -> Prop) (shielded : Z -> Prop) `{!Shield E si shielded}.
Abbreviation W := (World E S).
Implicit Types (w : W).

Definition untouched w w' : Prop := forall a, shielded a -> w_mem w' a = w_mem w a.

Program Definition shield_discipline : discipline E S := {|
  inv := fun w => si (w_env w); rel := untouched;
  may_write := fun p n => 0 <= n /\ forall a, shielded a -> ~ p <= a < p + n |}.
Next Obligation. split; [by intros w a|]. intros w1 w2 w3 H12 H23 a Ha. by rewrite H23, H12. Qed.
Next Obligation. done. Qed.
Next Obligation. done. Qed.
Next Obligation. done. Qed.
Next Obligation. intros w p n src Hw [_ Hp]. split; [done|]. intros a Ha. simpl. by apply memcpy_out, Hp. Qed.
Next Obligation.
  intros w h hi lo p n off Hw [Hn Hp]. split; [done|]. intros a Ha. simpl. apply wr_out. specialize (Hp a Ha).
  pose proof (sb_pread_fits h hi lo n off (w_store w) Hn). lia.
Qed.
Next Obligation.
  intros w h n Hw. eapply wp_mono; [by apply si_allocate|]. intros p e (He & Hn & Hp). split; [done|]. split; [done|]. by split.
Qed.
Next Obligation. intros w h p n Hw. eapply wp_mono; [by apply si_deallocate|]. intros [] e He. by split. Qed.
End shield.
End Calm.
