(* ===== verification/ObjectAccess.v ===== *)
(** * Access to the segments of an object

    Correctness of Object::loadSegment and Object::getBuffers: an access returns
    buffers that cover the requested range without hole or overlap, keeps the
    invariant of the cache, and does not change the contents of any object, but
    for the bytes the caller of a write has announced it will overwrite. *)

From S2P Require Import Prelude StdMap Memory IntervalMap Interfaces ConsistencyTracker World WorldInv View ObjectSegment Object.

Module ObjectAccess.
Import ObjectSegment Object.

Section load.
Context {E S : Type} `{MemoryProviderOk E} `{StorageOk S}.
Abbreviation W := (World E S).
Implicit Types (w : W).

(** The state after a segment is registered on the block [p]. *)
Definition load_world (w : W) (this : Z) (o : Object) (offset size p h : Z) : W :=
  set_objects (<[this := set_segmentMap
      (sm_insert (offset + size - 1) (mkSegment (Some (w_nextShared w)) offset false) (o_segmentMap o)) o]>
      (w_objects w))
    (bump_shared (set_shared (<[w_nextShared w := (mkSegmentMemory p size h, 1)]> (w_shared w)) w)).

(** The range meets no segment of the object. *)
Definition gap w (o : Object) (offset size : Z) : Prop :=
  forall k seg, In (k, seg) (o_segmentMap o) ->
    os_offset seg + seg_size (w_shared w) seg <= offset \/ offset + size <= os_offset seg.

Lemma gap_find w tmp blk this o offset size :
  world_ok w tmp blk -> w_objects w !! this = Some o -> gap w o offset size -> 0 < size ->
  sm_find (offset + size - 1) (o_segmentMap o) = None.
Proof.
  intros Hw Ho Hg Hs. destruct (sm_find _ _) as [seg|] eqn:Hf; [|done].
  destruct (segment_facts w tmp blk this o _ seg Hw Ho Hf) as (Hin & _ & _ & _ & Hk).
  destruct (seg_live w tmp blk this o _ seg Hw Ho Hin) as (? & ? & ? & _ & _ & _ & _ & Hz & ? & _).
  rewrite Hz in Hk. destruct (Hg _ _ Hin); lia.
Qed.

(** The registration part of [loadSegment]. *)
Lemma load_tail w this o offset size p h :
  w_objects w !! this = Some o -> sm_find (offset + size - 1) (o_segmentMap o) = None ->
  0 <= offset -> 0 < size -> offset + size < two63 -> w_shared w !! w_nextShared w = None ->
  (let k := (offset +u size) -u 1 in
   touch_segment this k ;;
   let! seg := new_segment offset size p h in
   move_assign this k seg ;;
   let! seg := get_segment this k in
   getSegmentDescr seg) w = Ok (mkDescr p offset size, load_world w this o offset size p h).
Proof.
  intros Ho Hf Hz0 Hs He Hfr. pose proof two63_two64. cbv zeta. rewrite (u64_small (offset + size)) by lia.
  rewrite (u64_small (offset + size - 1)) by lia. set (k := offset + size - 1) in *.
  unfold bind at 1. unfold touch_segment, bind at 1, get_obj at 1. rewrite Ho, Hf.
  unfold set_segment at 1, update_obj. rewrite Ho. unfold bind at 1.
  unfold new_segment, bind at 1, make_shared, ret. simpl w_nextShared.
  unfold bind at 1, move_assign, bind at 1, get_segment at 1, bind at 1, get_obj at 1. simpl.
  rewrite lookup_insert_eq. simpl. rewrite sm_find_insert_eq. simpl.
  unfold bind at 1, set_segment, update_obj. simpl. rewrite lookup_insert_eq. simpl.
  unfold bind, get_segment, bind, get_obj. simpl. rewrite lookup_insert_eq. simpl.
  rewrite sm_find_insert_eq. simpl. unfold getSegmentDescr, bind, shared_get. simpl.
  rewrite lookup_insert_eq. simpl. unfold load_world, set_objects, set_segmentMap, bump_shared, set_shared. simpl.
  by rewrite !insert_insert_eq, sm_insert_insert.
Qed.

Lemma load_world_ok w this o offset size p h :
  world_ok w [] (Some (p, size, h)) -> w_objects w !! this = Some o -> gap w o offset size ->
  0 <= offset -> 0 < size -> offset + size < two63 -> (mp_unit | offset) -> (mp_unit | size) ->
  mp_backend (w_env w) h -> h <> 0 ->
  world_ok (load_world w this o offset size p h) [] None.
Proof.
  intros Hw Ho Hg Hz0 Hs He Hu Hu' Hb Hb0.
  pose proof (gap_find _ _ _ _ _ _ _ Hw Ho Hg Hs) as Hf.
  pose proof (make_shared_ok _ _ _ _ _ Hw Hb Hb0 Hu') as Hw1.
  pose proof (fresh_shared _ _ _ Hw) as Hfr.
  set (w1 := bump_shared _) in *. set (seg := mkSegment (Some (w_nextShared w)) offset false).
  pose proof (wo_objs _ _ _ Hw1 _ _ Ho) as [Hc Hend Hm Huo Ha Hbo].
  assert (seg_size (w_shared w1) seg = size) as Hsz.
  { unfold seg_size, seg_memory. simpl. by rewrite lookup_insert_eq. }
  assert (forall k1 s1, In (k1, s1) (o_segmentMap o) ->
    iend os_offset (seg_size (w_shared w1)) s1 <= os_offset seg \/
    iend os_offset (seg_size (w_shared w1)) seg <= os_offset s1) as Hd.
  { intros k1 s1 Hin. unfold iend. rewrite Hsz.
    assert (seg_size (w_shared w1) s1 = seg_size (w_shared w) s1) as ->; [|by apply (Hg k1)].
    unfold seg_size. rewrite (seg_memory_ext (w_shared w)); [done|]. intros i Hi. simpl.
    rewrite lookup_insert_ne; [done|]. intros <-.
    destruct (wo_live _ _ _ Hw (w_nextShared w)) as [? ?]; [|congruence].
    apply elem_of_app. left. eapply refs_in_all, seg_refs_In; eauto. }
  assert (iend os_offset (seg_size (w_shared w1)) seg = offset + size) as Hie by (unfold iend; by rewrite Hsz).
  unfold load_world. fold w1 seg. change (w_objects w) with (w_objects w1).
  eapply update_obj_ok; [exact Hw1|exact Ho| |].
  - intros i. unfold obj_refs. simpl. rewrite !nref_app, seg_refs_insert_new by (try done; by eapply chain_sorted).
    rewrite nref_nil. unfold seg_ref. simpl. lia.
  - constructor; simpl; try done.
    + rewrite <- Hie. apply chain_insert; try done. by rewrite Hsz.
    + rewrite <- Hie, chain_end_insert; try done; [|by rewrite Hsz]. rewrite Hie. lia.
    + apply Forall_forall. intros [k1 s1] Hin%list_elem_of_In.
      apply sm_insert_In in Hin as [[= -> ->]|[_ Hin%list_elem_of_In]]; [by eexists| |by eapply chain_sorted].
      rewrite Forall_forall in Hm. by apply (Hm (k1, s1)).
    + apply Forall_forall. intros [k1 s1] Hin%list_elem_of_In.
      apply sm_insert_In in Hin as [[= -> ->]|[_ Hin%list_elem_of_In]]; [done| |by eapply chain_sorted].
      rewrite Forall_forall in Huo. by apply (Huo (k1, s1)).
Qed.

(** Registering a segment changes no byte, but those of its range when it does
    not hold what the storage has. *)
Definition loaded_range (this offset size : Z) (fetched : bool) (q x : Z) : Prop :=
  q = this /\ offset <= x < offset + size /\ fetched = false.

Lemma load_shared_old w tmp blk i :
  world_ok w tmp blk -> i ∈ all_refs (w_objects w) ++ tmp -> i <> w_nextShared w.
Proof.
  intros Hw Hi ->. destruct (wo_live _ _ _ Hw _ Hi) as [? Hx].
  by rewrite (fresh_shared _ _ _ Hw) in Hx.
Qed.

Lemma load_seg_memory w tmp blk this o offset size p h q oq k seg :
  world_ok w tmp blk -> w_objects w !! q = Some oq -> In (k, seg) (o_segmentMap oq) ->
  seg_memory (w_shared (load_world w this o offset size p h)) seg = seg_memory (w_shared w) seg.
Proof.
  intros Hw Hq Hin. apply seg_memory_ext. intros i Hi. simpl. rewrite lookup_insert_ne; [done|].
  apply not_eq_sym, (load_shared_old w tmp blk); [done|]. apply elem_of_app. left.
  eapply refs_in_all, seg_refs_In; eauto.
Qed.

Lemma load_view w this o offset size p h fetched :
  world_ok w [] (Some (p, size, h)) -> w_objects w !! this = Some o -> gap w o offset size ->
  0 < size -> world_ok (load_world w this o offset size p h) [] None ->
  (fetched = true -> forall x b, offset <= x < offset + size -> stored w o x = Some b ->
     w_mem w (p + (x - offset)) = b) ->
  view_le (loaded_range this offset size fetched) w (load_world w this o offset size p h).
Proof.
  intros Hw Ho Hg Hs Hw' Hdata q oq Hq. set (w' := load_world _ _ _ _ _ _ _) in *.
  destruct (decide (q = this)) as [->|Hne]; last first.
  { exists oq. split; [simpl; by rewrite lookup_insert_ne|]. split; [apply same_meta_refl|].
    intros x b _ <-. eapply obj_view_ext; [exact Hw|exact Hq| |done|done].
    intros i Hi. simpl. rewrite lookup_insert_ne; [done|].
    apply not_eq_sym, (load_shared_old _ _ _ _ Hw), elem_of_app. left. by eapply refs_in_all. }
  assert (oq = o) as -> by congruence. eexists. split; [apply lookup_insert_eq|]. split; [by repeat split|].
  set (seg := mkSegment _ _ _). set (o' := set_segmentMap _ _).
  assert (w_objects w' !! this = Some o') as Ho' by apply lookup_insert_eq.
  pose proof (wo_objs _ _ _ Hw _ _ Ho) as Hok. pose proof (wo_objs _ _ _ Hw' _ _ Ho') as Hok'.
  pose proof (chain_sorted _ _ _ _ (ok_chain _ _ _ Hok)) as Hsort.
  pose proof (gap_find _ _ _ _ _ _ _ Hw Ho Hg Hs) as Hf.
  assert (seg_size (w_shared w') seg = size /\ seg_buffer (w_shared w') seg = p) as [Hz Hb].
  { unfold seg_size, seg_buffer, seg_memory. simpl. by rewrite lookup_insert_eq. }
  intros x b Hx Hv. destruct (cover_cases _ _ _ x Hok) as [(k1 & s1 & Hin1 & Hx1)|Hno].
  - rewrite (view_in _ _ _ _ _ _ _ eq_refl Hok Hin1 Hx1) in Hv. rewrite <- Hv.
    assert (seg_memory (w_shared w') s1 = seg_memory (w_shared w) s1) as Hsame by by eapply load_seg_memory.
    rewrite (view_in _ _ w' o' k1 s1 x eq_refl Hok').
    + unfold seg_buffer. by rewrite Hsame.
    + apply sm_insert_In; [done|]. right. split; [|done]. intros ->.
      apply (sm_find_In _ _ _ Hsort) in Hin1. congruence.
    + unfold seg_covers, seg_size in *. by rewrite Hsame.
  - rewrite (view_out _ _ _ _ Hok Hno) in Hv.
    destruct (decide (offset <= x < offset + size)) as [Hr|Hr].
    + rewrite (view_in _ _ w' o' (offset + size - 1) seg x eq_refl Hok').
      * rewrite Hb. f_equal. destruct fetched; [by apply Hdata|]. destruct Hx. done.
      * apply sm_insert_In; [done|]. by left.
      * unfold seg_covers. by rewrite Hz.
    + rewrite (view_out _ _ _ _ Hok'); [done|]. intros k1 s1 [[= -> ->]|[_ Hin1]]%sm_insert_In Hx1; [| |done].
      * change (seg_covers (w_shared w') seg x) in Hx1. unfold seg_covers in Hx1. rewrite Hz in Hx1. done.
      * apply (Hno k1 s1 Hin1). change (seg_covers (w_shared w') s1 x) in Hx1.
        assert (seg_memory (w_shared w') s1 = seg_memory (w_shared w) s1) as Hsame by by eapply load_seg_memory.
        unfold seg_covers, seg_size in *. by rewrite Hsame in Hx1.
Qed.

(** Reading the storage only writes the buffer. *)
Lemma pread_run w this o buffer size offset :
  w_objects w !! this = Some o -> 0 <= size < two63 ->
  exists st f s, pread this buffer size offset w = Ok (st, set_store s (set_mem f w)) /\
    sb_contents s = sb_contents (w_store w) /\
    (forall a, ~ (buffer <= a < buffer + size) -> f (w_mem w) a = w_mem w a) /\
    - two63 <= st < two63 /\
    (st = size -> forall x b, offset <= x < offset + size -> stored w o x = Some b ->
       f (w_mem w) (buffer + (x - offset)) = b).
Proof.
  intros Ho Hs. unfold pread, bind, get_obj. rewrite Ho. unfold stored. case_match eqn:Hnull.
  - exists (i64 size), (fun m => m), (w_store w). split; [by destruct w|].
    rewrite i64_id by lia. split; [done|]. split; [done|]. split; [lia|done].
  - set (r := sb_pread _ _ _ _ _ _). exists r.1.1, (fun m => wr m buffer r.1.2), r.2. split; [done|].
    split; [apply sb_pread_frame|].
    pose proof (sb_pread_fits (o_storageBackend o) (id_high (o_objectId o)) (id_low (o_objectId o))
                  size offset (w_store w) (proj1 Hs)) as Hfit. fold r in Hfit.
    split; [intros a Ha; apply wr_out; lia|]. split; [apply sb_pread_status|].
    intros Hst x b Hx [= <-]. unfold r in Hst. pose proof (sb_pread_ok _ _ _ _ _ _ (proj1 Hs) Hst) as Hd.
    fold r in Hd. replace (buffer + (x - offset)) with (buffer + Z.of_nat (Z.to_nat (x - offset))) by lia.
    apply wr_in. rewrite Hd, range_of_lookup by lia. do 2 f_equal. lia.
Qed.

(** What loading a segment does: either the read failed and nothing changed,
    or the range is registered on a new block. *)
Definition load_post w (this : Z) (o : Object) (offset size : Z) (d : ObjectSegmentDescr) (w' : W) : Prop :=
  (d = mkDescr 0 0 0 /\ w_objects w' = w_objects w /\ w_shared w' = w_shared w) \/
  (exists p w2, 0 < p /\ d = mkDescr p offset size /\
     w' = load_world w2 this o offset size p (o_memoryBackend o) /\ world_ok w2 [] (Some (p, size, o_memoryBackend o)) /\
     w_objects w2 = w_objects w /\ w_shared w2 = w_shared w).

(** The storage [h], with the contents it has in [st], serves the reads of the object
    between [lo] and [hi]. *)
Definition reads_in (st : S) (h : Z) (id : ObjectId) (lo hi : Z) : Prop :=
  forall n off s, lo <= off -> 0 < n -> off + n <= hi -> sb_contents s = sb_contents st ->
    (sb_pread h (id_high id) (id_low id) n off s).1.1 = n.

Lemma reads_in_sub st st' h id lo hi lo' hi' :
  reads_in st h id lo hi -> sb_contents st' = sb_contents st -> lo <= lo' -> hi' <= hi -> reads_in st' h id lo' hi'.
Proof. intros Hr Hs Hl Hh n off s ? ? ? Es. apply Hr; try lia. congruence. Qed.

Lemma wp_loadSegment w this o offset size (load acceptLoadFail rel : bool) :
  world_ok w [] None -> w_objects w !! this = Some o -> gap w o offset size ->
  0 <= offset -> 0 < size <= mp_max -> offset + size < two63 -> (mp_unit | offset) -> (mp_unit | size) ->
  (rel = true -> reads_in (w_store w) (o_storageBackend o) (o_objectId o) offset (offset + size)) ->
  wp resource (loadSegment this offset size load acceptLoadFail)
    (fun d w' => world_ok w' [] None /\ sb_contents (w_store w') = sb_contents (w_store w) /\
       view_le (loaded_range this offset size (load && (negb acceptLoadFail || rel))) w w' /\
       load_post w this o offset size d w' /\ (d_ptr d = 0 -> load = true /\ acceptLoadFail = false /\ rel = false)) w.
Proof.
  intros Hw Ho Hg Hz [Hs Hmx] He Hu Hu' Hrel. pose proof two63_two64.
  destruct (ok_backend _ _ _ (wo_objs _ _ _ Hw _ _ Ho)) as [Hb Hb0].
  unfold loadSegment. eapply wp_bind, wp_of_Ok; [unfold get_obj; by rewrite Ho|]. cbn beta.
  apply wp_bind. eapply wp_mono; [apply (wp_backend_allocate w []); try done; lia|].
  intros p w1 (e' & -> & Hp & Hpe & Hw1 & Hdis & Hback). set (w1 := set_env e' w) in *.
  (* any state between the allocation and the registration *)
  assert (forall f s, sb_contents s = sb_contents (w_store w) ->
    (forall a, ~ (p <= a < p + size) -> f (w_mem w) a = w_mem w a) ->
    let w2 := set_store s (set_mem f w1) in
    world_ok w2 [] (Some (p, size, o_memoryBackend o)) /\ forall X, view_le X w w2) as Hmid.
  { intros f s Hc Hf w2. split; [by apply world_ok_store, world_ok_mem|]. intros X.
    eapply view_le_same; [exact Hw|done|exact Hc|]. intros i m c Hi _. split; [simpl; by rewrite Hi|].
    intros a Ha. apply Hf. pose proof (Hdis _ _ _ Hi). unfold disjoint in *. lia. }
  (* the registration *)
  assert (forall f s fetched, sb_contents s = sb_contents (w_store w) ->
    (forall a, ~ (p <= a < p + size) -> f (w_mem w) a = w_mem w a) ->
    (fetched = true -> forall x b, offset <= x < offset + size -> stored w o x = Some b ->
       f (w_mem w) (p + (x - offset)) = b) ->
    wp resource (let k := (offset +u size) -u 1 in
      touch_segment this k ;;
      let! seg := new_segment offset size p (o_memoryBackend o) in
      move_assign this k seg ;;
      let! seg := get_segment this k in
      getSegmentDescr seg)
    (fun d w' => world_ok w' [] None /\ sb_contents (w_store w') = sb_contents (w_store w) /\
       view_le (loaded_range this offset size fetched) w w' /\
       load_post w this o offset size d w' /\ (d_ptr d = 0 -> load = true /\ acceptLoadFail = false /\ rel = false))
    (set_store s (set_mem f w1))) as Hreg.
  { intros f s fetched Hc Hf Hd. destruct (Hmid f s Hc Hf) as [Hw2 Hv]. set (w2 := set_store s _) in *.
    pose proof (gap_find _ _ _ _ _ _ _ Hw Ho Hg Hs) as Hfind.
    eapply wp_of_Ok; [apply (load_tail w2 this o); try done; by eapply fresh_shared|].
    assert (world_ok (load_world w2 this o offset size p (o_memoryBackend o)) [] None) as Hw3.
    { apply load_world_ok; auto. }
    split; [done|]. split; [done|]. split; [|split; [|simpl; lia]].
    - eapply view_le_trans; [apply Hv|]. apply load_view; try done.
      intros Hft x b Hx Hst. apply Hd; [done|done|]. revert Hst. unfold stored. simpl. by rewrite Hc.
    - right. exists p, w2. by split_and!. }
  destruct load; simpl negb.
  - destruct (pread_run w1 this o p size offset) as (st & f & s & Hrun & Hc & Hf & Hst & Hd); [done|lia|].
    apply wp_bind. wp_run Hrun. apply wp_ret. destruct (negb (u64 st =? size) && negb acceptLoadFail) eqn:Efail.
    + destruct (Hmid f s Hc Hf) as [Hw2 Hv]. apply wp_bind. eapply wp_mono.
      { apply wp_never. eapply wp_backend_deallocate; [exact Hw2|by apply Hback|done|done]. }
      intros [] w3 (e3 & -> & Hw3 & _). apply wp_ret. split; [done|]. split; [done|].
      split; [|split; [by left|intros _; apply andb_true_iff in Efail as [Efail Eacc]; split_and!; [done|by destruct acceptLoadFail|]]].
      2: { destruct rel; [|done]. exfalso. assert (st = size) as Hst'.
        { revert Hrun. unfold pread, bind, get_obj. simpl. rewrite Ho. case_match; intros [= <- _]; [apply i64_id; lia|apply Hrel; done || lia]. }
        rewrite Hst', u64_small, Z.eqb_refl in Efail by lia. done. }
      eapply view_le_trans; [apply Hv|]. eapply view_le_same; [exact Hw2|done|done|].
      intros i m c Hi _. split; [simpl in *; by rewrite Hi|done].
    + eapply wp_mono; [apply (Hreg f s (negb acceptLoadFail || rel)); try done|done].
      intros Hft. apply Hd. destruct acceptLoadFail; simpl in Hft.
      * revert Hrun. unfold pread, bind, get_obj. simpl. rewrite Ho. case_match.
        -- intros [= <- _]. apply i64_id. lia.
        -- intros [= <- _]. apply Hrel; done || lia.
      * apply u64_i64; [done|lia|]. zlia.
  - apply wp_bind, wp_ret.
    assert (w1 = set_store (w_store w) (set_mem (fun m => m) w1)) as Heq by by destruct w.
    cbn beta iota. rewrite Heq. apply Hreg; done.
Qed.
End load.

(** ** The segments found *)

(** The ranges of the segments of a map. *)
Definition spans (sh : shared_map) (m : stdmap Z ObjectSegment) : list (Z * Z) :=
  (fun e => (os_offset e.2, seg_size sh e.2)) <$> m.
Definition span (d : ObjectSegmentDescr) : Z * Z := (d_offset d, d_size d).

(** Those that start before [hi]. *)
Fixpoint starts_before (hi : Z) (l : list (Z * Z)) : list (Z * Z) :=
  match l with
  | [] => []
  | r :: l' => if r.1 <? hi then r :: starts_before hi l' else []
  end.

Definition descr_of (sh : shared_map) (seg : ObjectSegment) : ObjectSegmentDescr :=
  mkDescr (seg_buffer sh seg) (os_offset seg) (seg_size sh seg).

(** The memory of the segment is not shared. *)
Definition exclusive (sh : shared_map) (seg : ObjectSegment) : Prop :=
  exists id m, os_memory seg = Some id /\ sh !! id = Some (m, 1).

(** The descriptor is the one of a segment of the object, not shared when it is
    to be written. *)
Definition held {E S} (w : World E S) (o : Object) (mode : ObjectAccessMode) (d : ObjectSegmentDescr) : Prop :=
  exists k seg, sm_find k (o_segmentMap o) = Some seg /\ d = descr_of (w_shared w) seg /\
    (mode = ACCESS_WRITE -> exclusive (w_shared w) seg).

Lemma spans_replace sh k seg seg' m :
  sm_find k m = Some seg -> os_offset seg' = os_offset seg -> seg_size sh seg' = seg_size sh seg ->
  spans sh (sm_insert k seg' m) = spans sh m.
Proof.
  intros Hf Ho Hs. induction m as [|[k1 s1] m IH]; simpl in *; [done|].
  destruct (key_cmp_spec k1 k) as [Hlt Hne| ->|Hlt Hne]; [|simplify_eq|done]; simpl.
  - by rewrite IH.
  - by rewrite Ho, Hs.
Qed.

Lemma spans_ext sh sh' m :
  (forall k seg, In (k, seg) m -> seg_memory sh' seg = seg_memory sh seg) -> spans sh' m = spans sh m.
Proof.
  intros He. unfold spans. apply list_fmap_ext. intros i [k seg] Hi. simpl.
  unfold seg_size. rewrite (He k seg); [done|]. apply list_elem_of_In. by eapply list_elem_of_lookup_2.
Qed.

Section collect.
Context {E S : Type} `{MemoryProviderOk E} `{StorageOk S}.
Abbreviation W := (World E S).
Implicit Types (w : W).

(** The segments whose key is not in [K] are the same, and all the ranges. *)
Definition frame w (o : Object) w' (o' : Object) (K : list Z) : Prop :=
  spans (w_shared w') (o_segmentMap o') = spans (w_shared w) (o_segmentMap o) /\
  forall k seg, k ∉ K -> sm_find k (o_segmentMap o) = Some seg ->
    sm_find k (o_segmentMap o') = Some seg /\
    seg_memory (w_shared w') seg = seg_memory (w_shared w) seg /\
    (exclusive (w_shared w) seg -> exclusive (w_shared w') seg).

Lemma frame_refl w o K : frame w o w o K.
Proof. by split. Qed.
Lemma frame_trans w1 o1 w2 o2 w3 o3 K K' K'' :
  frame w1 o1 w2 o2 K -> frame w2 o2 w3 o3 K' -> (forall k, k ∉ K'' -> (k ∉ K) /\ (k ∉ K')) ->
  frame w1 o1 w3 o3 K''.
Proof.
  intros [Hs Hf] [Hs' Hf'] HK. split; [congruence|]. intros k seg Hk Hfind.
  destruct (HK k Hk) as [Hk1 Hk2]. destruct (Hf k seg Hk1 Hfind) as (Ha & Hb & Hc).
  destruct (Hf' k seg Hk2 Ha) as (Ha' & Hb' & Hc'). split; [done|]. split; [congruence|auto].
Qed.

Lemma held_frame w o w' o' K k seg mode :
  frame w o w' o' K -> k ∉ K -> sm_find k (o_segmentMap o) = Some seg ->
  (mode = ACCESS_WRITE -> exclusive (w_shared w) seg) ->
  held w' o' mode (descr_of (w_shared w) seg).
Proof.
  intros [_ Hf] Hk Hfind Hex. destruct (Hf k seg Hk Hfind) as (Ha & Hb & Hc).
  exists k, seg. split; [done|]. split; [|auto]. unfold descr_of, seg_buffer, seg_size. by rewrite Hb.
Qed.

(** The part of [collect] on one segment: the copy-on-write if needed. *)
Lemma wp_make_writable w this o k seg mode :
  world_ok w [] None -> w_objects w !! this = Some o -> sm_find k (o_segmentMap o) = Some seg ->
  wp resource (match mode with
               | ACCESS_WRITE => let! cow := isCow seg in if cow then applyCow this k else ret tt
               | ACCESS_READ => ret tt
               end)
    (fun _ w' => world_ok w' [] None /\ view_le (fun _ _ => False) w w' /\ w_store w' = w_store w /\
       exists o' seg', w_objects w' !! this = Some o' /\ frame w o w' o' [k] /\
         sm_find k (o_segmentMap o') = Some seg' /\ os_offset seg' = os_offset seg /\
         seg_size (w_shared w') seg' = seg_size (w_shared w) seg /\
         (mode = ACCESS_WRITE -> exclusive (w_shared w') seg')) w.
Proof.
  intros Hw Ho Hf.
  assert (forall w0 : W, w0 = w -> (mode = ACCESS_WRITE -> exclusive (w_shared w) seg) ->
    world_ok w0 [] None /\ view_le (fun _ _ => False) w w0 /\ w_store w0 = w_store w /\
       exists o' seg', w_objects w0 !! this = Some o' /\ frame w o w0 o' [k] /\
         sm_find k (o_segmentMap o') = Some seg' /\ os_offset seg' = os_offset seg /\
         seg_size (w_shared w0) seg' = seg_size (w_shared w) seg /\
         (mode = ACCESS_WRITE -> exclusive (w_shared w0) seg')) as Hsame.
  { intros w0 -> Hex. split; [done|]. split; [apply view_le_refl|]. split; [done|].
    exists o, seg. by split_and!; [|apply frame_refl| | | |]. }
  destruct (segment_facts w [] None this o k seg Hw Ho Hf) as (Hin & _).
  destruct (seg_live w [] None this o k seg Hw Ho Hin) as (id & m & c & Hid & Hr & Hm & Hbuf & Hsz & _).
  destruct mode; [by apply wp_ret, Hsame|].
  eapply wp_bind, wp_of_Ok; [unfold isCow; by rewrite Hid, Hm|]. cbn beta.
  destruct (c =? 1) eqn:Ec; simpl.
  { apply Z.eqb_eq in Ec as ->. apply wp_ret, Hsame; [done|]. intros _. by exists id, m. }
  eapply wp_mono; [apply (wp_applyCow w [] this o k seg id m c); try done; lia|].
  intros _ w' (e' & p & Hw'eq & Hw' & Hp & Hdis). subst w'.
  split; [done|]. split; [by eapply cow_view|]. split; [done|].
  eexists _, _. split; [apply lookup_insert_eq|].
  assert (w_shared (cow_world w e' this k p o seg id m c) !! w_nextShared w =
          Some (mkSegmentMemory p (osm_size m) (osm_memoryBackend m), 1)) as Hnew by (eapply cow_new; eauto).
  assert (seg_size (w_shared (cow_world w e' this k p o seg id m c))
            (mkSegment (Some (w_nextShared w)) (os_offset seg) (os_dirty seg)) = seg_size (w_shared w) seg) as Hsz'.
  { unfold seg_size at 1, seg_memory. cbn [os_memory mbind option_bind]. by rewrite Hnew, Hsz. }
  assert (forall k1 s1, In (k1, s1) (o_segmentMap o) ->
    seg_memory (w_shared (cow_world w e' this k p o seg id m c)) s1 = seg_memory (w_shared w) s1) as Hmem.
  { intros k1 s1 Hin1. apply seg_memory_ext. intros i Hi. eapply cow_shared_fst; try done.
    apply (wo_live _ _ _ Hw), elem_of_app. left. eapply refs_in_all, seg_refs_In; eauto. }
  split; [|split; [apply sm_find_insert_eq|split; [done|split; [done|]]]]; last first.
  { intros _. by eexists _, _. }
  pose proof (chain_sorted _ _ _ _ (ok_chain _ _ _ (wo_objs _ _ _ Hw _ _ Ho))) as Hsort.
  split.
  - cbn [o_segmentMap set_segmentMap]. rewrite (spans_replace _ k seg); [by apply spans_ext|done|done|].
    rewrite Hsz'. unfold seg_size. by rewrite (Hmem k seg Hin).
  - intros k1 s1 Hk1 Hf1. assert (k <> k1) as Hne by (intros ->; apply Hk1; by left).
    split; [cbn [o_segmentMap set_segmentMap]; by rewrite sm_find_insert_ne|].
    pose proof (proj1 (sm_find_In _ _ _ Hsort) Hf1) as Hin1. split; [by apply (Hmem k1)|].
    intros (i & mi & Hi & Hmi). exists i, mi. split; [done|].
    erewrite cow_shared_other; [exact Hmi|exact Hw| |by eexists]. intros ->. simplify_eq.
Qed.

Lemma overlap_run w tmp blk this o k seg base size :
  world_ok w tmp blk -> w_objects w !! this = Some o -> In (k, seg) (o_segmentMap o) ->
  0 <= base -> 0 <= size -> base + size < two63 ->
  overlap seg base size w =
    Ok ((os_offset seg <? base + size) && (base <? os_offset seg + seg_size (w_shared w) seg), w).
Proof.
  intros Hw Ho Hin Hb Hs He. pose proof two63_two64.
  destruct (seg_live w tmp blk this o k seg Hw Ho Hin) as (id & m & c & Hid & Hr & Hm & Hbuf & Hsz & ? & _).
  pose proof (wo_objs _ _ _ Hw _ _ Ho) as Hok.
  pose proof (chain_end_In _ _ _ _ _ _ (ok_chain _ _ _ Hok) Hin) as Hle. unfold iend in Hle.
  pose proof (chain_In _ _ _ _ _ _ (ok_chain _ _ _ Hok) Hin) as (? & ? & ?).
  pose proof (ok_end _ _ _ Hok). rewrite Hsz in *.
  unfold overlap, bind, shared_get. rewrite Hid, Hm. unfold ret. rewrite !u64_small by lia.
  by rewrite Z.gtb_ltb.
Qed.

Lemma getSegmentDescr_run w tmp blk this o k seg :
  world_ok w tmp blk -> w_objects w !! this = Some o -> In (k, seg) (o_segmentMap o) ->
  getSegmentDescr seg w = Ok (descr_of (w_shared w) seg, w).
Proof.
  intros Hw Ho Hin.
  destruct (seg_live w tmp blk this o k seg Hw Ho Hin) as (id & m & c & Hid & Hr & Hm & Hbuf & Hsz & _).
  unfold getSegmentDescr, bind, shared_get, descr_of. by rewrite Hid, Hm, Hbuf, Hsz.
Qed.

Lemma chain_head_fresh off sz lo (k : Z) (v : ObjectSegment) m :
  interval_chain off sz lo ((k, v) :: m) -> k ∉ (fst <$> m : list Z).
Proof.
  intros (_ & ? & -> & Hc) Hin. apply list_elem_of_fmap in Hin as ([k1 v1] & Hk & Hin%list_elem_of_In).
  destruct (chain_In _ _ _ _ _ _ Hc Hin) as (? & ? & ?). simpl in Hk. unfold iend in *. lia.
Qed.

Lemma wp_collect this base size mode it w o lo :
  0 <= base -> 0 < size -> base + size < two63 ->
  world_ok w [] None -> w_objects w !! this = Some o ->
  interval_chain os_offset (seg_size (w_shared w)) lo it ->
  Forall (fun e => base < os_offset e.2 + seg_size (w_shared w) e.2) it ->
  (forall k seg, In (k, seg) it -> sm_find k (o_segmentMap o) = Some seg) ->
  wp resource (collect this base size mode it)
    (fun ds w' => world_ok w' [] None /\ view_le (fun _ _ => False) w w' /\ w_store w' = w_store w /\
       exists o', w_objects w' !! this = Some o' /\ frame w o w' o' (fst <$> it) /\
         Forall (held w' o' mode) ds /\
         span <$> ds = starts_before (base + size) (spans (w_shared w) it)) w.
Proof.
  intros Hb Hs He. revert w o lo. induction it as [|[k seg] it IH]; intros w o lo Hw Ho Hc Hall Hfind; simpl collect.
  { apply wp_ret. split; [done|]. split; [apply view_le_refl|]. split; [done|].
    exists o. split; [done|]. by split; [apply frame_refl|]. }
  pose proof (chain_head_fresh _ _ _ _ _ _ Hc) as Hk. destruct Hc as (_ & _ & _ & Hc).
  apply Forall_cons in Hall as [Hend Hall]. simpl in Hend.
  pose proof (Hfind k seg (or_introl eq_refl)) as Hf.
  destruct (segment_facts w [] None this o k seg Hw Ho Hf) as (Hin & _).
  pose proof (overlap_run w [] None this o k seg base size Hw Ho Hin Hb ltac:(lia) He) as Hov. wp_run Hov.
  assert ((base <? os_offset seg + seg_size (w_shared w) seg) = true) as -> by lia. rewrite andb_true_r.
  simpl starts_before. destruct (os_offset seg <? base + size) eqn:Elt; last first.
  { apply wp_ret. split; [done|]. split; [apply view_le_refl|]. split; [done|].
    exists o. split; [done|]. split; [apply frame_refl|]. done. }
  apply wp_bind. eapply wp_mono; [by apply (wp_make_writable w this o k seg mode)|].
  intros _ w1 (Hw1 & Hv1 & Hst1 & o1 & seg' & Ho1 & Hfr1 & Hf1 & Hoff & Hsz & Hex).
  destruct (segment_facts w1 [] None this o1 k seg' Hw1 Ho1 Hf1) as (Hin1 & Hget1 & _).
  wp_run Hget1. pose proof (getSegmentDescr_run _ _ _ _ _ _ _ Hw1 Ho1 Hin1) as Hd. wp_run Hd.
  assert (forall k2 s2, In (k2, s2) it -> sm_find k2 (o_segmentMap o1) = Some s2 /\
            seg_memory (w_shared w1) s2 = seg_memory (w_shared w) s2) as Hrest.
  { intros k2 s2 Hin2. destruct Hfr1 as [_ Hfr1].
    destruct (Hfr1 k2 s2) as (? & ? & _); [|by apply Hfind; right|done].
    intros ->%list_elem_of_singleton. apply Hk, list_elem_of_fmap. exists (k, s2). by rewrite list_elem_of_In. }
  apply wp_bind. eapply wp_mono; [apply (IH w1 o1 (iend os_offset (seg_size (w_shared w)) seg)); try done|].
  { eapply chain_ext_id; [|exact Hc]. intros k2 s2 Hin2. split; [done|].
    unfold seg_size. by rewrite (proj2 (Hrest _ _ Hin2)). }
  { rewrite Forall_forall in *. intros [k2 s2] Hin2. specialize (Hall _ Hin2). simpl in *.
    unfold seg_size. by rewrite (proj2 (Hrest k2 s2 ltac:(by apply list_elem_of_In))). }
  { intros k2 s2 Hin2. apply (Hrest _ _ Hin2). }
  intros ds w2 (Hw2 & Hv2 & Hst2 & o2 & Ho2 & Hfr2 & Hheld & Hsp). apply wp_ret.
  split; [done|]. split; [by eapply view_le_trans|]. split; [congruence|]. exists o2. split; [done|].
  split; [|split].
  - eapply frame_trans; [exact Hfr1|exact Hfr2|]. intros k0 [Hk1 Hk2]%not_elem_of_cons.
    split; [by intros ->%list_elem_of_singleton|done].
  - constructor; [|done]. eapply held_frame; [exact Hfr2|exact Hk|exact Hf1|exact Hex].
  - rewrite fmap_cons, Hsp. f_equal; [unfold span; simpl; by rewrite Hoff, Hsz|].
    f_equal. apply spans_ext. intros k2 s2 Hin2. apply (Hrest _ _ Hin2).
Qed.
End collect.

(** ** Filling the gaps *)

(** The descriptors follow each other from [lo] to [hi]. *)
Fixpoint tiles (lo hi : Z) (l : list ObjectSegmentDescr) : Prop :=
  match l with
  | [] => lo = hi
  | d :: l' => d_offset d = lo /\ 0 < d_size d /\ tiles (lo + d_size d) hi l'
  end.

Fixpoint span_chain (lo : Z) (l : list (Z * Z)) : Prop :=
  match l with
  | [] => True
  | r :: l' => lo <= r.1 /\ 0 < r.2 /\ span_chain (r.1 + r.2) l'
  end.

Lemma span_chain_spans sh lo m : interval_chain os_offset (seg_size sh) lo m -> span_chain lo (spans sh m).
Proof. revert lo. induction m as [|[k v] m IH]; intros lo; simpl; [done|]. intros (? & ? & _ & ?). auto. Qed.

Lemma span_chain_In lo l r : span_chain lo l -> r ∈ l -> lo <= r.1 /\ 0 < r.2.
Proof.
  revert lo. induction l as [|r' l IH]; intros lo; [by intros _ ?%elem_of_nil|].
  intros (? & ? & Hc) [->|Hin]%elem_of_cons; [done|]. destruct (IH _ Hc Hin). split; [lia|done].
Qed.

Lemma spans_In sh m a n : (a, n) ∈ spans sh m <-> exists k seg, In (k, seg) m /\ a = os_offset seg /\ n = seg_size sh seg.
Proof.
  unfold spans. rewrite list_elem_of_fmap. split.
  - intros ([k seg] & [= -> ->] & Hin%list_elem_of_In). eauto.
  - intros (k & seg & Hin%list_elem_of_In & -> & ->). by exists (k, seg).
Qed.

Lemma tiles_app lo mid hi l l' : tiles lo mid l -> tiles mid hi l' -> tiles lo hi (l ++ l').
Proof. revert lo. induction l as [|d l IH]; intros lo; simpl; [by intros ->|]. intros (? & ? & ?) ?. auto. Qed.

(** A range whose bounds are multiples of [u], shorter than [bnd]. *)
Definition regular (u bnd : Z) (r : Z * Z) : Prop := (u | r.1) /\ (u | r.2) /\ r.2 < bnd.

Section complete.
Context {E S : Type} `{MemoryProviderOk E} `{StorageOk S}.
Abbreviation W := (World E S).
Implicit Types (w : W).

(** Loading a segment keeps the descriptors already found and adds its own. *)
Lemma load_step w this o offset size d w' mode :
  world_ok w [] None -> w_objects w !! this = Some o -> gap w o offset size -> 0 < size ->
  load_post w this o offset size d w' -> d_ptr d <> 0 ->
  exists o', w_objects w' !! this = Some o' /\ same_meta o o' /\ span d = (offset, size) /\
    held w' o' mode d /\ (forall d0, held w o mode d0 -> held w' o' mode d0) /\
    (forall r, r ∈ spans (w_shared w') (o_segmentMap o') -> r = (offset, size) \/ r ∈ spans (w_shared w) (o_segmentMap o)).
Proof.
  intros Hw Ho Hg Hs [(-> & _)|(p & w2 & Hp & -> & -> & Hw2 & Hob2 & Hsh2)] Hd; [done|].
  rewrite <- Hob2 in Ho. assert (gap w2 o offset size) as Hg2 by (unfold gap in *; by rewrite Hsh2).
  pose proof (gap_find _ _ _ _ _ _ _ Hw2 Ho Hg2 Hs) as Hf.
  pose proof (chain_sorted _ _ _ _ (ok_chain _ _ _ (wo_objs _ _ _ Hw2 _ _ Ho))) as Hsort.
  eexists. split; [apply lookup_insert_eq|]. split; [by repeat split|]. split; [done|].
  set (seg := mkSegment (Some (w_nextShared w2)) offset false).
  set (w' := load_world w2 this o offset size p (o_memoryBackend o)).
  assert (seg_memory (w_shared w') seg = Some (mkSegmentMemory p size (o_memoryBackend o))) as Hsm.
  { unfold seg_memory. simpl. by rewrite lookup_insert_eq. }
  assert (forall k1 s1, sm_find k1 (o_segmentMap o) = Some s1 ->
            seg_memory (w_shared w') s1 = seg_memory (w_shared w2) s1) as Hold.
  { intros k1 s1 Hf1%(sm_find_In _ _ _ Hsort). by eapply load_seg_memory. }
  split; [|split].
  - exists (offset + size - 1), seg. split; [apply sm_find_insert_eq|]. split.
    + unfold descr_of, seg_buffer, seg_size. by rewrite Hsm.
    + intros _. eexists _, _. split; [done|]. apply lookup_insert_eq.
  - intros d0 (k1 & s1 & Hf1 & -> & Hex). exists k1, s1. split; [|split].
    + cbn [o_segmentMap set_segmentMap]. rewrite sm_find_insert_ne; [done|]. intros <-. congruence.
    + unfold descr_of, seg_buffer, seg_size. by rewrite (Hold _ _ Hf1), Hsh2.
    + intros Hmode. destruct (Hex Hmode) as (i & m & Hi & Hm). exists i, m. split; [done|].
      rewrite <- Hsh2 in Hm. simpl. rewrite lookup_insert_ne; [done|]. intros <-.
      by rewrite (fresh_shared _ _ _ Hw2) in Hm.
  - intros [a n] Hr. apply spans_In in Hr as (k1 & s1 & Hin & -> & ->).
    apply sm_insert_In in Hin as [[= -> ->]|[_ Hin]]; [| |done].
    + left. fold seg. unfold seg_size. fold w'. by rewrite Hsm.
    + right. apply spans_In. exists k1, s1. split; [done|]. split; [done|].
      unfold seg_size. fold w'. rewrite (Hold k1), Hsh2; [done|]. by apply sm_find_In.
Qed.

Context (this : Z) (load wop rel : bool) (mode : ObjectAccessMode) (origBase origSize base hi : Z)
  (u bnd : Z) (lost : Z -> Prop).
Context (Hu : (mp_unit | u)) (Hbnd : hi - base < bnd) (Hmax : hi - base <= mp_max).
Context (Hbase : 0 <= base) (Hhi : hi < two63)
  (Hlost : forall off n, base <= off -> 0 < n -> off + n <= hi ->
     needLoad load wop off n origBase origSize && (negb wop || rel) = false ->
     forall x, off <= x < off + n -> lost x).

Definition meets (d : ObjectSegmentDescr) : Prop := d_offset d < hi /\ base < d_offset d + d_size d.
Definition losing (q x : Z) : Prop := q = this /\ lost x.

(** The state of [this] while its gaps are filled: every segment is before
    [last], among those found and still to visit, or after the range. *)
Definition filling w (o : Object) (last : Z) (ds : list ObjectSegmentDescr) : Prop :=
  world_ok w [] None /\ w_objects w !! this = Some o /\
  (forall r, r ∈ spans (w_shared w) (o_segmentMap o) -> r.1 + r.2 <= last \/ r ∈ (span <$> ds) \/ hi <= r.1) /\
  base <= last /\ (u | last) /\
  Forall (regular u bnd) (spans (w_shared w) (o_segmentMap o)).

(** The reads of the range succeed, in the states that have the same storage. *)
Definition reading w (o : Object) : Prop := rel = true -> reads_in (w_store w) (o_storageBackend o) (o_objectId o) base hi.
Lemma reading_same w o w' o' : reading w o -> sb_contents (w_store w') = sb_contents (w_store w) -> same_meta o o' -> reading w' o'.
Proof. intros Hr Hs (E1 & _ & _ & E2 & _) Ht. rewrite E1, E2. by eapply reads_in_sub; [apply Hr|..]. Qed.

(** Loading the range [[last, last+n)], before all the segments still to visit. *)
Lemma wp_fill w o last ds n :
  filling w o last ds -> reading w o -> 0 < n -> last + n <= hi -> (u | n) -> span_chain (last + n) (span <$> ds) ->
  wp resource (loadSegment this last n (needLoad load wop last n origBase origSize) wop)
    (fun d w' => world_ok w' [] None /\ sb_contents (w_store w') = sb_contents (w_store w) /\
       view_le losing w w' /\ (d_ptr d = 0 -> load = true /\ wop = false /\ rel = false) /\
       (d_ptr d <> 0 -> exists o', same_meta o o' /\ span d = (last, n) /\ held w' o' mode d /\
          (forall d0, held w o mode d0 -> held w' o' mode d0) /\ filling w' o' (last + n) ds)) w.
Proof.
  intros (Hw & Ho & Hall & Hl & Hul & Hreg) Hrel Hn Hle Hun Hc.
  assert (gap w o last n) as Hg.
  { intros k seg Hin. assert ((os_offset seg, seg_size (w_shared w) seg) ∈ spans (w_shared w) (o_segmentMap o)) as Hr.
    { apply spans_In. eauto. }
    destruct (Hall _ Hr) as [?|[Hd|?]]; simpl in *; [by left| |right; lia].
    right. apply (span_chain_In _ _ _ Hc) in Hd as [? _]. simpl in *. lia. }
  eapply wp_mono; [apply (wp_loadSegment w this o last n _ wop rel); try done; try lia; [by eapply Z.divide_trans..|]|].
  { intros Ht. eapply reads_in_sub; [by apply Hrel|done|lia|lia]. }
  intros d w' (Hw' & Hst & Hv & Hpost & Hz). split; [done|]. split; [done|]. split; [|split].
  - eapply view_le_weaken; [|exact Hv]. intros q x (-> & Hx & Hf). split; [done|].
    eapply Hlost; [|exact Hn| |exact Hf|exact Hx]; lia.
  - intros Hd. destruct (Hz Hd) as (Hl' & ? & ?). split; [|done].
    revert Hl'. unfold needLoad. by destruct (wop && _).
  - intros Hd. destruct (load_step _ _ _ _ _ _ _ mode Hw Ho Hg Hn Hpost Hd)
      as (o' & Ho' & Hmeta & Hsp & Hh & Hkeep & Hspans).
    exists o'. do 4 (split; [done|]). split; [done|]. split; [done|]. split; [|split; [lia|split; [by apply Z.divide_add_r|]]].
    2: { rewrite Forall_forall in *. intros r Hr. destruct (Hspans r Hr) as [->|Hr']; [|auto]. split_and!; simpl; [done|done|lia]. }
    intros r Hr. destruct (Hspans r Hr) as [->|Hr']; [left; simpl; lia|].
    destruct (Hall r Hr') as [?|[?|?]]; [left; lia|by right; left|by right; right].
Qed.

Lemma held_facts w o d :
  world_ok w [] None -> w_objects w !! this = Some o -> held w o mode d ->
  (mp_unit | d_offset d) /\ (mp_unit | d_size d) /\ 0 <= d_offset d /\ 0 < d_size d /\
  d_offset d + d_size d < two63 /\ 0 < d_ptr d /\ d_ptr d + d_size d <= two64.
Proof.
  intros Hw Ho (k & seg & Hf & -> & _).
  destruct (segment_facts w [] None this o k seg Hw Ho Hf) as (Hin & _ & ? & ? & _).
  destruct (seg_live w [] None this o k seg Hw Ho Hin) as (id & m & c & _ & _ & _ & Hb & Hz & ? & ? & ? & ? & _).
  pose proof (ok_unit _ _ _ (wo_objs _ _ _ Hw _ _ Ho)) as Hun. rewrite Forall_forall in Hun.
  specialize (Hun (k, seg) ltac:(by apply list_elem_of_In)). simpl in *. rewrite Hb, Hz in *. done.
Qed.

(** A descriptor found is among the ranges of the object. *)
Lemma held_span w o d :
  world_ok w [] None -> w_objects w !! this = Some o -> held w o mode d ->
  span d ∈ spans (w_shared w) (o_segmentMap o).
Proof.
  intros Hw Ho (k & seg & Hf & -> & _).
  destruct (segment_facts w [] None this o k seg Hw Ho Hf) as (Hin & _). apply spans_In. eauto.
Qed.

Lemma wp_complete ds w o last :
  filling w o last ds -> reading w o -> span_chain last (span <$> ds) -> Forall (held w o mode) ds ->
  Forall meets ds ->
  wp resource (complete this load wop origBase origSize ds last)
    (fun r w' => world_ok w' [] None /\ sb_contents (w_store w') = sb_contents (w_store w) /\
       view_le losing w w' /\
       match r.1 with
       | None => load = true /\ wop = false /\ rel = false
       | Some tmp => exists o' merged, same_meta o o' /\ filling w' o' r.2 [] /\
           (forall d0, held w o mode d0 -> held w' o' mode d0) /\
           Forall (held w' o' mode) merged /\ Forall meets merged /\ merged ≡ₚ ds ++ tmp /\ tiles last r.2 merged
       end) w.
Proof.
  revert w o last. induction ds as [|it ds IH]; intros w o last Hfill Hrel Hc Hheld Hbefore; simpl complete.
  { apply wp_ret. pose proof Hfill as (Hw & Ho & _). split; [done|]. split; [done|]. split; [apply view_le_refl|].
    exists o, []. split; [apply same_meta_refl|]. by split_and!. }
  apply Forall_cons in Hheld as [Hit Hheld]. apply Forall_cons in Hbefore as [Hmt Hbefore]. pose proof Hmt as [Hlt _].
  pose proof Hfill as (Hw & Ho & Hall & Hlast & Hul & Hreg). destruct Hc as (Ha & Hsz & Hc). simpl in Ha, Hsz, Hc.
  destruct (held_facts w o it Hw Ho Hit) as (_ & _ & ? & ? & Hend & _). pose proof two63_two64.
  assert (regular u bnd (span it)) as (Hu1 & Hu2 & _).
  { rewrite Forall_forall in Hreg. apply Hreg. by apply held_span. }
  rewrite (u64_small (d_offset it + d_size it)) by lia.
  (* moving past [it] *)
  assert (forall w1 o1, filling w1 o1 (d_offset it) (it :: ds) -> filling w1 o1 (d_offset it + d_size it) ds) as Hmove.
  { intros w1 o1 (Hw1 & Ho1 & Hall1 & ? & _ & Hreg1). split_and!; try done; [|lia|by apply Z.divide_add_r].
    intros r Hr. destruct (Hall1 r Hr) as [?|[[->|?]%elem_of_cons|?]];
      [left; lia|left; simpl; lia|by right; left|by right; right]. }
  destruct (d_offset it >? last) eqn:Egap.
  - rewrite (u64_small (d_offset it - last)) by lia. apply wp_bind, wp_bind.
    eapply wp_mono; [apply (wp_fill w o last (it :: ds) (d_offset it - last)); try done|].
    { lia. } { lia. } { by apply Z.divide_sub_r. } { simpl. split; [lia|done]. }
    intros d w1 (Hw1 & Hst1 & Hv1 & Hz & Hok). apply wp_ret. cbn beta iota.
    destruct (d_ptr d =? 0) eqn:Ed.
    { apply wp_ret. apply Z.eqb_eq in Ed. split_and!; try done; by apply Hz. }
    destruct (Hok ltac:(lia)) as (o1 & Hmeta & Hsp & Hd & Hkeep & Hfill1).
    replace (last + (d_offset it - last)) with (d_offset it) in Hfill1 by lia.
    apply wp_bind. eapply wp_mono; [apply (IH w1 o1); [by apply Hmove|by eapply reading_same|done| |done]|].
    { eapply Forall_impl; [exact Hheld|done]. }
    intros [tmp last'] w2 (Hw2 & Hst2 & Hv2 & Hr). apply wp_ret. simpl in *.
    split; [done|]. split; [congruence|]. split; [by eapply view_le_trans|].
    destruct tmp as [tmp|]; [|done]. simpl. destruct Hr as (o2 & merged & Hm2 & Hf2 & Hk2 & Hh2 & Hmm & Hp & Ht).
    exists o2, (d :: it :: merged). split; [by eapply same_meta_trans|]. split; [done|]. split; [auto|].
    unfold span in Hsp. injection Hsp as Hs1 Hs2.
    split; [constructor; [|constructor]; auto|]. split; [constructor; [|by constructor]; unfold meets; lia|]. split.
    + rewrite Hp. simpl. rewrite <- Permutation_middle. apply Permutation_swap.
    + simpl. rewrite Hs1, Hs2.
      replace (last + (d_offset it - last)) with (d_offset it) by lia. split_and!; try done; lia.
  - apply wp_bind, wp_ret. cbn beta iota. assert (d_offset it = last) as Heq by lia.
    eapply wp_mono; [apply (IH w o); [apply Hmove; by rewrite Heq|done|done|done|done]|].
    intros [tmp last'] w2 (Hw2 & Hst2 & Hv2 & Hr). simpl in *. split_and!; try done.
    destruct tmp as [tmp|]; [|done]. destruct Hr as (o2 & merged & Hm2 & Hf2 & Hk2 & Hh2 & Hmm & Hp & Ht).
    exists o2, (it :: merged). split_and!; try done; [by constructor; auto|by constructor|by rewrite Hp|by rewrite <- Heq].
Qed.
End complete.

(** ** Sorting *)
Definition descr_le (a b : ObjectSegmentDescr) : Prop := d_offset a <= d_offset b.

Lemma sort_insert_perm d l : sort_insert d l ≡ₚ d :: l.
Proof.
  induction l as [|d' l IH]; simpl; [done|]. destruct (descr_less d' d); [|done].
  rewrite IH. apply Permutation_swap.
Qed.
Lemma sort_perm l : sort l ≡ₚ l.
Proof. induction l as [|d l IH]; simpl; [done|]. by rewrite sort_insert_perm, IH. Qed.

Lemma sort_insert_sorted d l : StronglySorted descr_le l -> StronglySorted descr_le (sort_insert d l).
Proof.
  induction l as [|d' l IH]; simpl; [by repeat constructor|]. intros [Hl Hall]%StronglySorted_inv.
  unfold descr_less. destruct (d_offset d' <? d_offset d) eqn:Elt.
  - constructor; [auto|]. rewrite sort_insert_perm. constructor; [unfold descr_le; lia|done].
  - constructor; [by constructor|]. constructor; [unfold descr_le; lia|].
    eapply Forall_impl; [exact Hall|]. unfold descr_le. intros. lia.
Qed.
Lemma sort_sorted l : StronglySorted descr_le (sort l).
Proof. induction l; simpl; [constructor|]. by apply sort_insert_sorted. Qed.

Lemma tiles_ge lo hi l : tiles lo hi l -> Forall (fun d => lo <= d_offset d) l.
Proof.
  revert lo. induction l as [|d l IH]; intros lo; simpl; [constructor|]. intros (? & ? & Ht).
  constructor; [lia|]. eapply Forall_impl; [exact (IH _ Ht)|]. intros d' ?. simpl in *. lia.
Qed.
Lemma tiles_le lo hi l : tiles lo hi l -> lo <= hi.
Proof. revert lo. induction l as [|d l IH]; intros lo; simpl; [lia|]. intros (? & ? & Ht%IH). lia. Qed.

(** A permutation of tiles sorts to them. *)
Lemma sort_tiles lo hi l l' : tiles lo hi l' -> l' ≡ₚ l -> sort l = l'.
Proof.
  intros Ht Hp. rewrite <- (sort_perm l) in Hp. pose proof (sort_sorted l) as Hs. revert Hp Hs.
  generalize (sort l) as r. clear l. revert lo Ht. induction l' as [|d l' IH]; intros lo Ht r Hp Hs.
  - by apply Permutation_nil in Hp as ->.
  - destruct Ht as (Hd & Hz & Ht). pose proof (tiles_ge _ _ _ Ht) as Hge.
    destruct r as [|d1 r]; [by apply Permutation_sym, Permutation_nil_cons in Hp|].
    apply StronglySorted_inv in Hs as [Hs Hall].
    assert (d1 = d) as ->.
    { assert (d1 ∈ d :: l') as [->|Hin]%elem_of_cons; [rewrite Hp; by left|done|].
      exfalso. assert (d ∈ d1 :: r) as [->|Hin']%elem_of_cons; [rewrite <- Hp; by left| |].
      - rewrite Forall_forall in Hge. specialize (Hge _ Hin). lia.
      - rewrite Forall_forall in Hge, Hall. specialize (Hge _ Hin). specialize (Hall _ Hin').
        unfold descr_le in Hall. lia. }
    f_equal. apply (IH (lo + d_size d)); [done| |done]. by apply Permutation_cons_inv in Hp.
Qed.

(** ** Ranges *)
Lemma starts_before_chain lo hi l : span_chain lo l -> span_chain lo (starts_before hi l).
Proof.
  revert lo. induction l as [|r l IH]; intros lo; simpl; [done|]. intros (? & ? & Hc).
  destruct (r.1 <? hi); [|done]. split_and!; try done. auto.
Qed.
Lemma starts_before_lt hi l : Forall (fun r => r.1 < hi) (starts_before hi l).
Proof. induction l as [|r l IH]; simpl; [constructor|]. destruct (r.1 <? hi) eqn:?; constructor; [lia|done]. Qed.
Lemma starts_before_rest lo hi l r :
  span_chain lo l -> r ∈ l -> r ∈ starts_before hi l \/ hi <= r.1.
Proof.
  revert lo. induction l as [|r' l IH]; intros lo; [by intros _ ?%elem_of_nil|].
  intros (? & ? & Hc) Hin. simpl. destruct (r'.1 <? hi) eqn:E.
  - apply elem_of_cons in Hin as [->|Hin]; [left; by left|].
    destruct (IH _ Hc Hin); [left; by right|by right].
  - right. apply elem_of_cons in Hin as [->|Hin]; [lia|]. destruct (span_chain_In _ _ _ Hc Hin). lia.
Qed.

(** The aligned range contains the requested one, by less than the alignement on
    each side. *)
Lemma align_range_spec a base size base' size' :
  0 <= a -> 0 <= base -> 0 < size -> base + size + a < two63 ->
  align_range a base size = (base', size') ->
  0 <= base' <= base /\ base + size <= base' + size' < two63 /\ 0 < size' /\
  (0 < a -> base - a < base' /\ base' + size' < base + size + a /\ (a | base') /\ (a | size')) /\
  (a = 0 -> base' = base /\ size' = size).
Proof.
  intros Ha Hb Hs He. unfold align_range. pose proof two63_two64. destruct (a >? 0) eqn:Ea.
  - assert (0 < a) as Ha' by lia. pose proof (Z.mod_pos_bound base a Ha'). pose proof (Z.mod_le base a Hb Ha').
    rewrite (u64_small (size + base mod a)), (u64_small (base - base mod a)) by lia.
    set (s1 := size + base mod a). pose proof (Z.mod_pos_bound s1 a Ha').
    assert ((a | base - base mod a)) as Hd1.
    { exists (base / a). pose proof (Z.div_mod base a). lia. }
    destruct (s1 mod a >? 0) eqn:Es; intros [= <- <-].
    + rewrite (u64_small (a - s1 mod a)), (u64_small (s1 + (a - s1 mod a))) by lia.
      assert ((a | s1 + (a - s1 mod a))) as Hd2.
      { exists (s1 / a + 1). pose proof (Z.div_mod s1 a). lia. }
      split_and!; try done; try lia. intros _. split_and!; try done; lia.
    + assert ((a | s1)) as Hd2 by (apply Z.mod_divide; lia).
      split_and!; try done; try lia. intros _. split_and!; try done; lia.
  - intros [= <- <-]. split_and!; lia.
Qed.

(** ** getBuffers *)

(** The bytes an access may change: those of the aligned range when nothing is
    loaded; for a write that loads, the bytes the caller overwrites, and the
    others only if the storage can fail to read ([rel = false]). *)
Definition unloaded (load wop rel : bool) (base size abase asize x : Z) : Prop :=
  abase <= x < abase + asize /\
  if load then wop = true /\ (rel = false \/ base <= x < base + size) else True.

Section getBuffers.
Context {E S : Type} `{MemoryProviderOk E} `{StorageOk S}.
Abbreviation W := (World E S).
Implicit Types (w : W).

Lemma unloaded_gap load wop rel base size abase asize off n :
  0 <= base -> 0 < size -> base + size < two63 -> 0 <= abase -> abase + asize < two63 ->
  abase <= off -> 0 < n -> off + n <= abase + asize ->
  needLoad load wop off n base size && (negb wop || rel) = false ->
  forall x, off <= x < off + n -> unloaded load wop rel base size abase asize x.
Proof.
  intros Hb Hs He Hab Hae Hoff Hn Hle Hf x Hx. pose proof two63_two64. split; [lia|].
  destruct load; [|done]. unfold needLoad, isFullyOverlapped in Hf.
  rewrite !u64_small in Hf by lia. destruct wop; simpl in Hf; [|done]. split; [done|].
  destruct ((off >=? base) && (off + n <=? base + size)) eqn:Efull; [right; zlia|]. left.
  by destruct rel.
Qed.

(** What [getBuffers] returns in a successful access. *)
Definition covers w (this : Z) (o : Object) (mode : ObjectAccessMode) (base size : Z)
    (u bnd : Z) (ds : list ObjectSegmentDescr) : Prop :=
  exists o' lo hi, w_objects w !! this = Some o' /\ same_meta o o' /\ tiles lo hi ds /\
    lo <= base /\ base + size <= hi /\ Forall (held w o' mode) ds /\
    Forall (fun d => d_offset d < base + size /\ base < d_offset d + d_size d) ds /\
    Forall (regular u bnd) (spans (w_shared w) (o_segmentMap o')).

(** The segments collected put the object in the state of filling its gaps. *)
Lemma filling_start w this o abase asize w1 o1 ds mode u bnd :
  world_ok w [] None -> w_objects w !! this = Some o -> world_ok w1 [] None ->
  w_objects w1 !! this = Some o1 -> 0 <= abase -> (u | abase) ->
  Forall (regular u bnd) (spans (w_shared w) (o_segmentMap o)) ->
  spans (w_shared w1) (o_segmentMap o1) = spans (w_shared w) (o_segmentMap o) ->
  Forall (held w1 o1 mode) ds ->
  span <$> ds = starts_before (abase + asize) (spans (w_shared w) (sm_lower_bound abase (o_segmentMap o))) ->
  filling this abase (abase + asize) u bnd w1 o1 abase ds /\ (exists lo, span_chain lo (span <$> ds)) /\
  Forall (meets abase (abase + asize)) ds.
Proof.
  intros Hw Ho Hw1 Ho1 Hb Hu Hreg Hsp Hheld Hds.
  pose proof (ok_chain _ _ _ (wo_objs _ _ _ Hw _ _ Ho)) as Hc.
  destruct (chain_lower_bound _ _ _ _ abase Hc) as (pre & Hm & Hpre & Hpost).
  pose proof Hc as Hc2. rewrite Hm in Hc2. apply chain_app in Hc2 as [_ Hc2].
  set (lb := sm_lower_bound abase (o_segmentMap o)) in *. apply span_chain_spans in Hc2.
  split; [|split].
  - split_and!; try done; [|by rewrite Hsp]. intros r. rewrite Hsp. rewrite Hm. unfold spans. rewrite fmap_app, elem_of_app.
    intros [Hr|Hr].
    + left. apply list_elem_of_fmap in Hr as (e & -> & He). rewrite Forall_forall in Hpre.
      specialize (Hpre _ He). simpl in *. exact Hpre.
    + right. rewrite Hds. by eapply starts_before_rest.
  - rewrite Hds. eexists. by apply starts_before_chain.
  - apply Forall_forall. intros d Hd.
    assert (span d ∈ starts_before (abase + asize) (spans (w_shared w) lb)) as Hin.
    { rewrite <- Hds. apply list_elem_of_fmap. eauto. }
    pose proof (starts_before_lt (abase + asize) (spans (w_shared w) lb)) as Hlt.
    rewrite Forall_forall in Hlt. specialize (Hlt _ Hin). simpl in Hlt.
    assert (span d ∈ spans (w_shared w) lb) as Hin'.
    { clear -Hin. induction (spans (w_shared w) lb) as [|r l IH]; simpl in *; [done|].
      destruct (r.1 <? _); [|by apply elem_of_nil in Hin].
      apply elem_of_cons in Hin as [->|Hin]; [by left|right; auto]. }
    apply list_elem_of_fmap in Hin' as (e & Heq & He). unfold span in Heq. injection Heq as Heq1 Heq2.
    rewrite Forall_forall in Hpost. pose proof (Hpost e He) as Hend. unfold iend in Hend.
    rewrite <- Heq1, <- Heq2 in Hend. done.
Qed.

(** The gaps, from the segments collected. *)
Lemma wp_complete_start this load wop rel mode origBase origSize base hi u bnd lost ds w o :
  (mp_unit | u) -> hi - base < bnd -> hi - base <= mp_max -> (rel = true -> reads_in (w_store w) (o_storageBackend o) (o_objectId o) base hi) ->
  0 <= base -> base < hi -> hi < two63 ->
  (forall off n, base <= off -> 0 < n -> off + n <= hi ->
     needLoad load wop off n origBase origSize && (negb wop || rel) = false ->
     forall x, off <= x < off + n -> lost x) ->
  filling this base hi u bnd w o base ds -> (exists lo, span_chain lo (span <$> ds)) -> Forall (held w o mode) ds ->
  Forall (meets base hi) ds ->
  wp resource (complete this load wop origBase origSize ds base)
    (fun r w' => world_ok w' [] None /\ sb_contents (w_store w') = sb_contents (w_store w) /\
       view_le (losing this lost) w w' /\
       match r.1 with
       | None => load = true /\ wop = false /\ rel = false
       | Some tmp => exists o' merged lo, same_meta o o' /\ filling this base hi u bnd w' o' r.2 [] /\
           Forall (held w' o' mode) merged /\ Forall (meets base hi) merged /\ merged ≡ₚ ds ++ tmp /\ tiles lo r.2 merged /\ lo <= base
       end) w.
Proof.
  intros Hu Hbnd Hmax Hrel Hb Hbh Hh Hlost Hfill [lo Hc] Hheld Hmt.
  assert (span_chain base (span <$> ds) \/ exists it ds', ds = it :: ds' /\ d_offset it < base) as [Hc'|(it & ds' & -> & Hit)].
  { destruct ds as [|it ds]; [by left|]. destruct (decide (base <= d_offset it)); [left|right; exists it, ds; split; [done|lia]].
    destruct Hc as (? & ? & ?). by split_and!. }
  - eapply wp_mono; [by eapply (wp_complete this load wop rel mode origBase origSize base hi u bnd lost)|].
    intros [[tmp|] last'] w' (Hw' & Hst & Hv & Hr); simpl in *; split_and!; try done; try by apply Hr.
    destruct Hr as (o' & merged & Hm & Hf & _ & Hh' & Hmm & Hp & Ht). exists o', merged, base. by split_and!.
  - simpl complete. destruct (d_offset it >? base) eqn:Eg; [lia|]. apply wp_bind, wp_ret. cbn beta iota.
    apply Forall_cons in Hheld as [Hheldit Hheld]. apply Forall_cons in Hmt as [Hmit Hmt].
    pose proof Hmit as [_ Hgit]. destruct Hc as (_ & _ & Hc). simpl in Hc.
    pose proof Hfill as (Hw & Ho & Hall & _ & Hul & Hreg).
    destruct (held_facts this mode w o it Hw Ho Hheldit) as (_ & _ & ? & ? & Hend & _). pose proof two63_two64.
    assert (regular u bnd (span it)) as (Hu1 & Hu2 & _).
    { rewrite Forall_forall in Hreg. apply Hreg. by eapply held_span. }
    rewrite u64_small by lia.
    assert (filling this base hi u bnd w o (d_offset it + d_size it) ds') as Hfill'.
    { split_and!; try done; [|lia|by apply Z.divide_add_r].
      intros r Hr. destruct (Hall r Hr) as [?|[[->|?]%elem_of_cons|?]];
        [left; lia|left; simpl; lia|by right; left|by right; right]. }
    eapply wp_mono; [by eapply (wp_complete this load wop rel mode origBase origSize base hi u bnd lost)|].
    intros [[tmp|] last'] w' (Hw' & Hst & Hv & Hr); simpl in *; split_and!; try done; try by apply Hr.
    destruct Hr as (o' & merged & Hm & Hf & Hkeep & Hh' & Hmm & Hp & Ht). exists o', (it :: merged), (d_offset it).
    split_and!; try done; [by constructor; auto|by constructor|by rewrite Hp|lia].
Qed.

Lemma wp_getBuffers w this o base size mode load wop rel abase asize u bnd :
  world_ok w [] None -> w_objects w !! this = Some o -> 0 <= base -> 0 < size ->
  base + size + o_alignement o < two63 -> (rel = true -> reads_in (w_store w) (o_storageBackend o) (o_objectId o) abase (abase + asize)) ->
  align_range (o_alignement o) base size = (abase, asize) ->
  (mp_unit | u) -> (u | abase) -> (u | asize) -> asize < bnd -> asize <= mp_max ->
  Forall (regular u bnd) (spans (w_shared w) (o_segmentMap o)) ->
  wp resource (getBuffers this base size mode load wop)
    (fun r w' => world_ok w' [] None /\ sb_contents (w_store w') = sb_contents (w_store w) /\
       view_le (losing this (unloaded load wop rel base size abase asize)) w w' /\
       if r.1 then covers w' this o mode abase asize u bnd r.2 else r.2 = [] /\ load = true /\ wop = false /\ rel = false) w.
Proof.
  intros Hw Ho Hb Hs He Hrel Hal Hu Hu1 Hu2 Hbnd Hmax Hreg. pose proof (wo_objs _ _ _ Hw _ _ Ho) as Hok.
  destruct (ok_align _ _ _ Hok) as [Ha0 Hunit].
  destruct (align_range_spec _ _ _ _ _ Ha0 Hb Hs He Hal) as ([Hab1 Hab2] & [Hae1 Hae2] & Hasz & Hdiv & Hzero).
  pose proof (ok_chain _ _ _ Hok) as Hc.
  destruct (chain_lower_bound _ _ _ _ abase Hc) as (pre & Hm & _ & Hpost).
  unfold getBuffers. eapply wp_bind, wp_of_Ok; [unfold get_obj; by rewrite Ho|]. cbn beta zeta. rewrite Hal.
  apply wp_bind. eapply wp_mono.
  { eapply (wp_collect this abase asize mode (sm_lower_bound abase (o_segmentMap o)) w o); try done.
    - rewrite Hm in Hc. by apply chain_app in Hc as [_ Hc].
    - intros k seg Hin. apply sm_find_In; [by eapply chain_sorted|]. rewrite Hm. apply in_or_app. by right. }
  intros ds w1 (Hw1 & Hv1 & Hst1 & o1 & Ho1 & Hfr & Hheld & Hsp).
  assert (same_meta o o1) as Hmeta1.
  { destruct (Hv1 _ _ Ho) as (o1' & Ho1' & ? & _). congruence. }
  assert (forall w' o', same_meta o o' -> sb_contents (w_store w') = sb_contents (w_store w) ->
    rel = true -> reads_in (w_store w') (o_storageBackend o') (o_objectId o') abase (abase + asize)) as Hrel'.
  { intros w' o' (E1 & _ & _ & E2 & _) Es Ht. rewrite E1, E2. by eapply reads_in_sub; [apply Hrel|..]. }
  destruct (filling_start w this o abase asize w1 o1 ds mode u bnd) as (Hfill & Hchain & Hmt); try done; [apply Hfr|].
  pose proof (unloaded_gap load wop rel base size abase asize) as Hgap.
  apply wp_bind. eapply wp_mono.
  { eapply (wp_complete_start this load wop rel mode base size abase (abase + asize) u bnd
             (unloaded load wop rel base size abase asize)); try done; [lia|lia|intros Ht; apply Hrel'; [done|by rewrite Hst1|done]|lia|]. intros. eapply Hgap; eauto; lia. }
  intros [tmp last] w2 (Hw2 & Hst2 & Hv2 & Hr). simpl in Hr |- *.
  assert (view_le (losing this (unloaded load wop rel base size abase asize)) w w2) as Hv.
  { eapply view_le_trans; [|exact Hv2]. eapply view_le_weaken; [|exact Hv1]. done. }
  assert (sb_contents (w_store w2) = sb_contents (w_store w)) as Hst by (rewrite Hst2, Hst1; done).
  destruct tmp as [tmp|]; [|by apply wp_ret; split_and!].
  destruct Hr as (o2 & merged & lo & Hm2 & Hfill2 & Hh2 & Hmm & Hp & Ht & Hlo). pose proof two63_two64.
  assert (same_meta o o2) as Hmeta2 by by eapply same_meta_trans.
  pose proof Hfill2 as (_ & Ho2 & _ & Hlast & Hul2 & Hreg2). rewrite (u64_small (abase + asize)) by lia.
  destruct (last <? abase + asize) eqn:El; last first.
  { apply wp_ret. split_and!; try done. exists o2, lo, last. simpl. rewrite (sort_tiles _ _ _ _ Ht Hp). split_and!; try done; lia. }
  rewrite (u64_small (abase + asize - last)) by lia. apply wp_bind.
  eapply wp_mono; [eapply (wp_fill this load wop rel mode base size abase (abase + asize) u bnd
    (unloaded load wop rel base size abase asize)); try done|].
  { lia. } { lia. } { intros. eapply Hgap; eauto; lia. } { intros Hrl. by apply Hrel'. } { lia. } { lia. }
  { apply Z.divide_sub_r; [by apply Z.divide_add_r|done]. }
  intros d w3 (Hw3 & Hst3 & Hv3 & Hz & Hok3).
  assert (view_le (losing this (unloaded load wop rel base size abase asize)) w w3) as Hv' by by eapply view_le_trans.
  destruct (d_ptr d =? 0) eqn:Ed.
  { apply wp_ret. apply Z.eqb_eq in Ed. destruct (Hz Ed). split_and!; try done; congruence. }
  destruct (Hok3 ltac:(lia)) as (o3 & Hm3 & Hsp3 & Hd3 & Hk3 & Hfill3). apply wp_ret.
  split_and!; try done; [congruence|]. unfold span in Hsp3. injection Hsp3 as Hs1 Hs2.
  assert (tiles lo (abase + asize) (merged ++ [d])) as Ht3.
  { eapply tiles_app; [exact Ht|]. simpl. rewrite Hs1, Hs2. lia. }
  assert (merged ++ [d] ≡ₚ (ds ++ tmp) ++ [d]) as Hp3 by by rewrite Hp.
  exists o3, lo, (abase + asize). simpl. rewrite (sort_tiles _ _ _ _ Ht3 Hp3).
  pose proof Hfill3 as (_ & Ho3 & _ & _ & _ & Hreg3). split_and!; try done; [by eapply same_meta_trans| |].
  - apply Forall_app. split; [|by constructor]. eapply Forall_impl; [exact Hh2|done].
  - apply Forall_app. split; [done|]. constructor; [lia|constructor].
Qed.

(** Every segment is a multiple of the unit of the backend. *)
Lemma regular_unit w tmp blk this o :
  world_ok w tmp blk -> w_objects w !! this = Some o ->
  Forall (regular mp_unit two63) (spans (w_shared w) (o_segmentMap o)).
Proof.
  intros Hw Ho. apply Forall_forall. intros [a n] (k & seg & Hin & -> & ->)%spans_In.
  pose proof (wo_objs _ _ _ Hw _ _ Ho) as Hok. pose proof (ok_unit _ _ _ Hok) as Hun. rewrite Forall_forall in Hun.
  specialize (Hun (k, seg) ltac:(by apply list_elem_of_In)).
  destruct (seg_live w tmp blk this o k seg Hw Ho Hin) as (id & m & c & _ & _ & _ & Hb & Hz & ? & ? & ? & ? & _).
  pose proof (chain_end_In _ _ _ _ _ _ (ok_chain _ _ _ Hok) Hin) as Hle. unfold iend in Hle.
  pose proof (chain_In _ _ _ _ _ _ (ok_chain _ _ _ Hok) Hin) as (? & ? & _).
  pose proof (ok_end _ _ _ Hok). unfold regular. simpl in *. rewrite Hz in *. split_and!; try done. lia.
Qed.

Definition unit_of (a : Z) : Z := if a >? 0 then a else 1.

Lemma align_units a base size abase asize :
  align_ok a -> 0 <= base -> 0 < size -> base + size + a < two63 ->
  align_range a base size = (abase, asize) ->
  (mp_unit | unit_of a) /\ (unit_of a | abase) /\ (unit_of a | asize).
Proof.
  intros [Ha Hunit] Hb Hs He Hal. unfold unit_of.
  destruct (align_range_spec _ _ _ _ _ Ha Hb Hs He Hal) as (_ & _ & _ & Hdiv & _).
  destruct (a >? 0) eqn:Ea.
  - destruct (Hdiv ltac:(lia)) as (_ & _ & ? & ?). done.
  - rewrite Hunit. split_and!; apply Z.divide_1_l.
Qed.

(** The storage serves the reads of the object in the units around the range. *)
Definition readable w (o : Object) (base size : Z) : Prop :=
  let r := align_range (o_alignement o) base size in reads_in (w_store w) (o_storageBackend o) (o_objectId o) r.1 (r.1 + r.2).

(** an access to a range returns, unless the storage failed to read it for
    a read, segments of the object that follow each other without hole or
    overlap from before the range to after it, each private to the object if
    the access is a write; it keeps the invariant of the cache (reference
    counts, disjoint buffers, disjoint segments, nothing leaked) and changes no
    byte of the contents of any object, but the bytes a write is about to
    overwrite and those it could not load.  It can only stop on a lack of
    resources. *)
Theorem getBuffers_correct w this o base size mode load wop rel :
  world_ok w [] None -> w_objects w !! this = Some o -> 0 <= base -> 0 < size ->
  base + size + o_alignement o < two63 -> size + 2 * o_alignement o <= mp_max -> (rel = true -> readable w o base size) ->
  wp resource (getBuffers this base size mode load wop)
    (fun r w' => world_ok w' [] None /\ sb_contents (w_store w') = sb_contents (w_store w) /\
       view_le (fun q x => q = this /\
                  unloaded load wop rel base size (align_range (o_alignement o) base size).1
                    (align_range (o_alignement o) base size).2 x) w w' /\
       if r.1 then
         exists o' lo hi, w_objects w' !! this = Some o' /\ same_meta o o' /\ tiles lo hi r.2 /\
           lo <= base /\ base + size <= hi /\ Forall (held w' o' mode) r.2
       else r.2 = [] /\ load = true /\ wop = false /\ rel = false) w.
Proof.
  intros Hw Ho Hb Hs He Hmx Hrel. unfold readable in Hrel. destruct (align_range (o_alignement o) base size) as [abase asize] eqn:Hal.
  pose proof (wo_objs _ _ _ Hw _ _ Ho) as Hok. pose proof (ok_align _ _ _ Hok) as Ha.
  destruct (align_units _ _ _ _ _ Ha Hb Hs He Hal) as (Hu & Hu1 & Hu2).
  destruct (align_range_spec _ _ _ _ _ (proj1 Ha) Hb Hs He Hal) as ([? ?] & [? ?] & _ & Hdiv & Hzero).
  assert (asize <= mp_max) as Has.
  { destruct (decide (0 < o_alignement o)); [destruct (Hdiv ltac:(lia)); lia|destruct Ha; destruct (Hzero ltac:(lia)); lia]. }
  eapply wp_mono.
  { apply (wp_getBuffers w this o base size mode load wop rel abase asize mp_unit two63); try done.
    - by eapply Z.divide_trans.
    - by eapply Z.divide_trans.
    - lia.
    - by eapply regular_unit. }
  intros [ok ds] w' (Hw' & Hst & Hv & Hr). split_and!; try done. destruct ok; [|done].
  destruct Hr as (o' & lo & hi & ? & ? & ? & ? & ? & ? & _). exists o', lo, hi. split_and!; try done; simpl in *; lia.
Qed.
End getBuffers.

End ObjectAccess.
