(* ===== verification/ObjectData.v ===== *)
(** * Data behind the buffers

    What the buffers returned by Object::getBuffers give access to.  Reading the
    memory they describe, through the vector of Object::buildIovec, gives the
    contents of the object; writing it changes the written bytes of that object
    and no other byte of any object: the copies made by copy-on-write are
    isolated. *)

From S2P Require Import Prelude StdMap Memory IntervalMap Interfaces ConsistencyTracker World WorldInv View ObjectSegment Object ObjectAccess.

Module ObjectData.
Import ObjectSegment Object ObjectAccess.

(** Reading and writing through a vector of (address, length). *)
Definition gather (m : mem) (iov : list (Z * Z)) : list byte := mjoin ((fun v => rd m v.1 v.2) <$> iov).

Fixpoint scatter (m : mem) (iov : list (Z * Z)) (data : list byte) : mem :=
  match iov with
  | [] => m
  | (p, n) :: iov' => scatter (wr m p (take (Z.to_nat n) data)) iov' (drop (Z.to_nat n) data)
  end.

Section data.
Context {E S : Type} `{MemoryProviderOk E} `{StorageOk S}.
Abbreviation W := (World E S).
Implicit Types (w : W).

(** [d] describes a part of a segment of the object [o]. *)
Definition piece w (o : Object) (mode : ObjectAccessMode) (d : ObjectSegmentDescr) : Prop :=
  0 <= d_size d /\ exists d0, held w o mode d0 /\ d_offset d0 <= d_offset d /\
    d_offset d + d_size d <= d_offset d0 + d_size d0 /\ d_ptr d = d_ptr d0 + (d_offset d - d_offset d0).

Lemma held_piece w o mode d : 0 <= d_size d -> held w o mode d -> piece w o mode d.
Proof. intros Hs Hd. split; [done|]. exists d. split_and!; try done; lia. Qed.

(** Its memory is what the object shows. *)
Lemma piece_view w tmp blk this o mode d x :
  world_ok w tmp blk -> w_objects w !! this = Some o -> piece w o mode d ->
  d_offset d <= x < d_offset d + d_size d ->
  obj_view w o x = Some (w_mem w (d_ptr d + (x - d_offset d))).
Proof.
  intros Hw Ho (_ & d0 & (k & seg & Hf & -> & _) & Hlo & Hhi & Hp) Hx. simpl in *.
  pose proof (wo_objs _ _ _ Hw _ _ Ho) as Hok.
  pose proof (chain_sorted _ _ _ _ (ok_chain _ _ _ Hok)) as Hs.
  rewrite (view_in _ _ w o k seg x eq_refl Hok); [|by apply sm_find_In|unfold seg_covers; lia].
  rewrite Hp. do 2 f_equal. lia.
Qed.

(** A segment whose memory is not shared is the only one on its control block. *)
Lemma exclusive_unique w this o k seg id m q oq k' seg' :
  world_ok w [] None -> w_objects w !! this = Some o -> sm_find k (o_segmentMap o) = Some seg ->
  os_memory seg = Some id -> w_shared w !! id = Some (m, 1) ->
  w_objects w !! q = Some oq -> In (k', seg') (o_segmentMap oq) -> os_memory seg' = Some id ->
  q = this /\ k' = k.
Proof.
  intros Hw Ho Hf Hid Hm Hq Hin Hid'.
  destruct (wo_count _ _ _ Hw _ _ _ Hm) as [Hcnt _]. rewrite app_nil_r in Hcnt.
  rewrite (nref_perm _ _ _ (all_refs_delete _ _ _ Ho)), nref_app in Hcnt.
  pose proof (chain_sorted _ _ _ _ (ok_chain _ _ _ (wo_objs _ _ _ Hw _ _ Ho))) as Hs.
  set (none := mkSegment None 0 false).
  pose proof (seg_refs_insert_old k none seg (o_segmentMap o) id Hf) as Hn.
  unfold seg_ref in Hn. rewrite Hid in Hn. simpl in Hn. rewrite nref_cons, decide_True, !nref_nil in Hn by done.
  change (obj_refs o) with (seg_refs (o_segmentMap o)) in Hcnt.
  destruct (decide (q = this)) as [->|Hne].
  - split; [done|]. assert (oq = o) as -> by congruence. destruct (decide (k' = k)) as [|Hk]; [done|].
    assert (0 < nref id (seg_refs (sm_insert k none (o_segmentMap o))))%nat; [|lia].
    apply nref_pos. eapply (seg_refs_In _ k' seg'); [|done]. apply sm_insert_In; [done|]. by right.
  - assert (0 < nref id (all_refs (delete this (w_objects w))))%nat; [|lia].
    apply nref_pos. eapply (refs_in_all _ q oq); [by rewrite lookup_delete_ne|]. by eapply seg_refs_In.
Qed.

(** The contents after a write of [l] at offset [off] of the object [this]. *)
Definition written w w' (this off : Z) (l : list byte) : Prop :=
  world_ok w' [] None /\ w_objects w' = w_objects w /\ w_shared w' = w_shared w /\ w_store w' = w_store w /\
  forall q oq x, w_objects w !! q = Some oq ->
    obj_view w' oq x =
      if decide (q = this /\ off <= x < off + Z.of_nat (length l))
      then Some (nth (Z.to_nat (x - off)) l x00) else obj_view w oq x.

(** Writing one piece. *)
Lemma write_piece w this o d l :
  world_ok w [] None -> w_objects w !! this = Some o -> piece w o ACCESS_WRITE d ->
  Z.of_nat (length l) = d_size d ->
  written w (set_mem (fun m => wr m (d_ptr d) l) w) this (d_offset d) l.
Proof.
  intros Hw Ho Hd Hl. set (w' := set_mem _ w).
  assert (world_ok w' [] None) as Hw' by by apply world_ok_mem. split_and!; try done.
  intros q oq x Hq. pose proof Hd as (Hz & d0 & (k & seg & Hf & -> & Hex) & Hlo & Hhi & Hp). simpl in *.
  destruct (Hex eq_refl) as (id & m & Hid & Hm).
  destruct (segment_facts w [] None this o k seg Hw Ho Hf) as (Hin & _).
  assert (seg_buffer (w_shared w) seg = osm_buffer m /\ seg_size (w_shared w) seg = osm_size m) as [Hb Hs].
  { unfold seg_buffer, seg_size, seg_memory. rewrite Hid. simpl. by rewrite Hm. }
  rewrite Hb, Hs in *. case_decide as Hx.
  - destruct Hx as [-> Hx]. assert (oq = o) as -> by congruence.
    rewrite (piece_view w' [] None this o ACCESS_WRITE d x); [|done|done|done|lia]. f_equal.
    simpl. unfold wr. rewrite Hl.
    assert ((d_ptr d <=? d_ptr d + (x - d_offset d)) && (d_ptr d + (x - d_offset d) <? d_ptr d + d_size d) = true) as ->.
    { apply andb_true_iff. lia. }
    f_equal. lia.
  - pose proof (wo_objs _ _ _ Hw _ _ Hq) as Hokq.
    destruct (cover_cases _ _ _ x Hokq) as [(k1 & s1 & Hin1 & Hx1)|Hno]; last first.
    { rewrite (view_out _ _ _ _ Hokq Hno). by apply (view_out (w_env w) w'). }
    rewrite (view_in _ _ w oq k1 s1 x eq_refl Hokq Hin1 Hx1).
    rewrite (view_in _ (w_env w) w' oq k1 s1 x eq_refl Hokq Hin1 Hx1). f_equal. simpl.
    destruct (seg_live w [] None q oq k1 s1 Hw Hq Hin1) as (i & mi & ci & Hi & _ & Hmi & Hbi & Hsi & _).
    rewrite Hbi. unfold seg_covers in Hx1. rewrite Hsi in Hx1. apply wr_out. rewrite Hl, Hp.
    destruct (decide (i = id)) as [->|Hne].
    + destruct (exclusive_unique w this o k seg id m q oq k1 s1) as [-> ->]; try done.
      assert (oq = o) as -> by congruence.
      apply (sm_find_In _ _ _ (chain_sorted _ _ _ _ (ok_chain _ _ _ Hokq))) in Hin1. simplify_eq.
      intros ?. apply Hx. split; [done|]. lia.
    + pose proof (shared_apart _ _ _ _ _ _ _ _ _ Hw Hmi Hm Hne) as Hap. unfold disjoint in Hap. lia.
Qed.

Lemma written_app w w1 w2 this off l1 l2 :
  written w w1 this off l1 -> written w1 w2 this (off + Z.of_nat (length l1)) l2 ->
  written w w2 this off (l1 ++ l2).
Proof.
  intros (Hw1 & Ho1 & Hs1 & Ht1 & Hv1) (Hw2 & Ho2 & Hs2 & Ht2 & Hv2).
  split_and!; try done; try congruence. intros q oq x Hq. rewrite (Hv2 q oq x) by congruence.
  rewrite length_app. case_decide as Hc.
  - rewrite decide_True by (split; [apply Hc|lia]). f_equal. rewrite app_nth2 by lia. f_equal. lia.
  - rewrite (Hv1 q oq x) by done. case_decide as Hc1.
    + rewrite decide_True by (split; [apply Hc1|lia]). f_equal. rewrite app_nth1 by lia. done.
    + rewrite decide_False; [done|]. intros [-> ?]. destruct (decide (x < off + Z.of_nat (length l1))).
      * apply Hc1. split; [done|lia].
      * apply Hc. split; [done|lia].
Qed.

Lemma written_nil w this off : world_ok w [] None -> written w w this off [].
Proof.
  intros Hw. split_and!; try done. intros q oq x _. rewrite decide_False; [done|]. simpl. lia.
Qed.

Definition iov_of (ds : list ObjectSegmentDescr) : list (Z * Z) := (fun d => (d_ptr d, d_size d)) <$> ds.

Lemma piece_same w w' o mode d : w_shared w' = w_shared w -> piece w o mode d -> piece w' o mode d.
Proof.
  intros Hs (Hz & d0 & (k & seg & Hf & Hd & Hex) & Hr). split; [done|]. exists d0. split; [|done].
  exists k, seg. by rewrite Hs.
Qed.

(** Writing through the buffers that tile a range. *)
Lemma write_tiles w this o ds off hi data :
  world_ok w [] None -> w_objects w !! this = Some o -> Forall (piece w o ACCESS_WRITE) ds ->
  tiles off hi ds -> Z.of_nat (length data) = hi - off ->
  written w (set_mem (fun m => scatter m (iov_of ds) data) w) this off data.
Proof.
  revert w off data. induction ds as [|d ds IH]; intros w off data Hw Ho Hp Ht Hl.
  - simpl in Ht. subst hi. assert (data = []) as -> by (apply nil_length_inv; lia).
    replace (set_mem _ w) with w by (by destruct w). by apply written_nil.
  - apply Forall_cons in Hp as [Hd Hp]. destruct Ht as (<- & Hz & Ht). pose proof (tiles_le _ _ _ Ht).
    set (l1 := take (Z.to_nat (d_size d)) data).
    assert (Z.of_nat (length l1) = d_size d) as Hl1 by (unfold l1; rewrite length_take; lia).
    pose proof (write_piece w this o d l1 Hw Ho Hd Hl1) as Hwr. set (w1 := set_mem _ w) in Hwr.
    set (l2 := drop (Z.to_nat (d_size d)) data).
    assert (data = l1 ++ l2) as Hdata by (symmetry; apply take_drop).
    enough (written w (set_mem (fun m => scatter m (iov_of (d :: ds)) data) w) this (d_offset d) (l1 ++ l2)) as Hx
      by by rewrite <- Hdata in Hx.
    eapply written_app; [exact Hwr|]. rewrite Hl1.
    apply (IH w1 (d_offset d + d_size d) l2); [by apply world_ok_mem|done| |done|].
    + eapply Forall_impl; [exact Hp|]. intros d1. by apply piece_same.
    + unfold l2. rewrite length_drop. lia.
Qed.

(** Reading through them. *)
Lemma gather_tiles w tmp blk this o mode ds off hi :
  world_ok w tmp blk -> w_objects w !! this = Some o -> Forall (piece w o mode) ds -> tiles off hi ds ->
  Z.of_nat (length (gather (w_mem w) (iov_of ds))) = hi - off /\
  forall x, off <= x < hi -> gather (w_mem w) (iov_of ds) !! Z.to_nat (x - off) = obj_view w o x.
Proof.
  intros Hw Ho. revert off. induction ds as [|d ds IH]; intros off Hp Ht.
  - simpl in *. split; [lia|]. intros. lia.
  - apply Forall_cons in Hp as [Hd Hp]. destruct Ht as (<- & Hz & Ht). pose proof (tiles_le _ _ _ Ht).
    destruct (IH _ Hp Ht) as [Hlen Hlk]. change (gather (w_mem w) (iov_of (d :: ds)))
      with (rd (w_mem w) (d_ptr d) (d_size d) ++ gather (w_mem w) (iov_of ds)).
    rewrite length_app, Nat2Z.inj_add, rd_length, Hlen by lia. split; [lia|]. intros x Hx.
    destruct (decide (x < d_offset d + d_size d)) as [Hin|Hout].
    + rewrite lookup_app_l by (rewrite rd_length_nat; lia). rewrite rd_lookup by lia.
      rewrite (piece_view w tmp blk this o mode d x Hw Ho Hd) by lia. do 2 f_equal. lia.
    + rewrite lookup_app_r by (rewrite rd_length_nat; lia). rewrite rd_length_nat.
      rewrite <- (Hlk x) by lia. f_equal. lia.
Qed.

(** *** buildIovec *)

(** The segment meets the range and is cut by less than 2^31 bytes on each side. *)
Definition cuts (off size : Z) (d : ObjectSegmentDescr) : Prop :=
  d_offset d < off + size /\ off < d_offset d + d_size d /\ off - d_offset d < 2147483648 /\
  d_offset d + d_size d - (off + size) < 2147483648.

Lemma clip_spec off size d :
  0 <= off -> 0 < size -> off + size < two63 -> 0 <= d_offset d -> 0 < d_size d -> d_offset d + d_size d < two63 ->
  0 < d_ptr d -> d_ptr d + d_size d <= two64 -> cuts off size d ->
  let d' := clip off size d in
  d_offset d' = Z.max off (d_offset d) /\
  d_offset d' + d_size d' = Z.min (off + size) (d_offset d + d_size d) /\ 0 < d_size d' /\
  d_ptr d' = d_ptr d + (d_offset d' - d_offset d).
Proof.
  intros Ho Hs He Hd0 Hd1 Hd2 Hp0 Hp1 (Hc1 & Hc2 & Hc3 & Hc4). pose proof two63_two64. unfold clip.
  destruct (d_offset d <? off) eqn:E1.
  - rewrite (u64_small (off - d_offset d)) by lia. rewrite (i32_small (off - d_offset d)) by lia.
    rewrite (u64_small (d_ptr d + _)), (u64_small (d_offset d + _)), (u64_small (d_size d - _)) by lia.
    cbn [d_offset d_size d_ptr]. rewrite (u64_small (off + size)) by lia.
    rewrite (u64_small (d_offset d + (off - d_offset d) + (d_size d - (off - d_offset d)))) by lia.
    case_match eqn:E2; cbn [d_offset d_size d_ptr].
    + rewrite (u64_small (d_offset d + (off - d_offset d) + (d_size d - (off - d_offset d)) - _)) by lia.
      rewrite i32_small by lia. rewrite u64_small by lia. lia.
    + lia.
  - rewrite (u64_small (off + size)), (u64_small (d_offset d + d_size d)) by lia.
    case_match eqn:E2; cbn [d_offset d_size d_ptr].
    + rewrite (u64_small (d_offset d + d_size d - _)) by lia. rewrite i32_small by lia.
      rewrite u64_small by lia. lia.
    + lia.
Qed.

(** The clipped segments tile exactly the requested range. *)
Lemma clip_tiles w this o mode off size ds lo hi :
  world_ok w [] None -> w_objects w !! this = Some o -> Forall (held w o mode) ds ->
  0 <= off -> 0 < size -> off + size < two63 -> Forall (cuts off size) ds ->
  tiles lo hi ds -> lo < off + size -> off + size <= hi ->
  tiles (Z.max off lo) (off + size) (clip off size <$> ds) /\
  Forall (piece w o mode) (clip off size <$> ds).
Proof.
  intros Hw Ho Hh H0' Hs He Hcut. revert lo. induction ds as [|d ds IH]; intros lo Ht Hlo Hhi; [simpl in *; lia|].
  apply Forall_cons in Hh as [Hd Hh]. apply Forall_cons in Hcut as [Hc Hcut]. destruct Ht as (<- & Hz & Ht).
  destruct (held_facts this mode w o d Hw Ho Hd) as (_ & _ & ? & ? & ? & ? & ?).
  destruct (clip_spec off size d) as (Eo & Ee & Es & Ep); try done.
  destruct Hc as (Hc1 & Hc2 & _ & _). rewrite fmap_cons.
  assert (piece w o mode (clip off size d)) as Hpc.
  { split; [lia|]. exists d. split; [done|]. split_and!; lia. }
  destruct (decide (d_offset d + d_size d < off + size)) as [Hlt|Hge].
  - destruct (IH Hh Hcut _ Ht Hlt Hhi) as [IHt IHp]. split; [|by constructor].
    simpl. split_and!; [done|done|].
    replace (Z.max off (d_offset d) + d_size (clip off size d)) with (Z.max off (d_offset d + d_size d)) by lia.
    done.
  - destruct ds as [|d' ds].
    + split; [simpl; lia|]. constructor; [exact Hpc|constructor].
    + destruct Ht as (Heq & _). apply Forall_cons in Hcut as [(? & _) _]. lia.
Qed.

(** The object's segments are multiples of its alignement, shorter than 2^31
    bytes: no segment of the aligned range is outside the requested one. *)
Definition regular_obj w (o : Object) : Prop :=
  Forall (regular (unit_of (o_alignement o)) 2147483648) (spans (w_shared w) (o_segmentMap o)).

(** A segment of multiples of [u] that meets the range, whose addresses and
    offsets do not wrap. *)
Definition sound_cut (u base size : Z) (d : ObjectSegmentDescr) : Prop :=
  0 <= d_offset d /\ 0 < d_size d /\ d_offset d + d_size d < two63 /\ 0 < d_ptr d /\
  d_ptr d + d_size d <= two64 /\ cuts base size d /\ (u | d_offset d + d_size d).

(** Buffers for a range, cut to it. *)
Definition cut_buffers w (this : Z) (o : Object) (mode : ObjectAccessMode) (base size : Z)
    (ds : list ObjectSegmentDescr) : Prop :=
  exists o', w_objects w !! this = Some o' /\ same_meta o o' /\ regular_obj w o' /\
    tiles base (base + size) (clip base size <$> ds) /\ Forall (piece w o' mode) (clip base size <$> ds) /\
    Forall (sound_cut (unit_of (o_alignement o)) base size) ds.

Lemma covers_cut w this o mode base size abase asize ds :
  world_ok w [] None -> 0 <= o_alignement o -> 0 <= base -> 0 < size -> base + size + o_alignement o < two63 ->
  align_range (o_alignement o) base size = (abase, asize) ->
  covers w this o mode abase asize (unit_of (o_alignement o)) 2147483648 ds ->
  cut_buffers w this o mode base size ds.
Proof.
  intros Hw Ha Hb Hs He Hal (o' & lo & hi & Ho' & Hmeta & Ht & Hlo & Hhi & Hheld & Hmt & Hreg).
  destruct (align_range_spec _ _ _ _ _ Ha Hb Hs He Hal) as ([? ?] & [? ?] & ? & Hdiv & Hzero).
  exists o'. split; [done|]. split; [done|].
  split; [unfold regular_obj; destruct Hmeta as (_ & -> & _); done|].
  assert (Forall (sound_cut (unit_of (o_alignement o)) base size) ds) as Hsound.
  { apply Forall_forall. intros d Hd. pose proof (proj1 (Forall_forall _ _) Hheld d Hd) as Hhd.
    destruct (held_facts this mode w o' d Hw Ho' Hhd) as (_ & _ & ? & ? & ? & ? & ?).
    destruct (proj1 (Forall_forall _ _) Hmt d Hd) as [Hm1 Hm2].
    pose proof (held_span this mode _ _ _ Hw Ho' Hhd) as Hsp.
    destruct (proj1 (Forall_forall _ _) Hreg _ Hsp) as (Hd1 & Hd2 & Hd3).
    simpl in *. unfold unit_of in *. assert (d_offset d < base + size /\ base < d_offset d + d_size d) as [? ?].
    { destruct (o_alignement o >? 0) eqn:Ea.
      - destruct (Hdiv ltac:(lia)) as (? & ? & [q1 E1] & [q2 E2]). destruct Hd1 as [q3 E3], Hd2 as [q4 E4].
        set (al := o_alignement o) in *. split.
        + assert (q3 + 1 <= q1 + q2) by nia. nia.
        + assert (q1 + 1 <= q3 + q4) by nia. nia.
      - destruct (Hzero ltac:(lia)) as [-> ->]. lia. }
    unfold sound_cut, cuts, unit_of. split_and!; try done; try lia. by apply Z.divide_add_r. }
  assert (Forall (cuts base size) ds) as Hcuts by (eapply Forall_impl; [exact Hsound|]; by intros d (_ & _ & _ & _ & _ & ? & _)).
  assert (lo <= base) as Hlo' by lia.
  destruct (clip_tiles w this o' mode base size ds lo hi) as [Ht' Hp']; try done; try lia.
  rewrite Z.max_l in Ht' by lia. done.
Qed.

(** Reading through the cut buffers. *)
Lemma cut_read w this o base size ds mode :
  world_ok w [] None -> cut_buffers w this o mode base size ds ->
  exists o', w_objects w !! this = Some o' /\
    Z.of_nat (length (gather (w_mem w) (buildIovec ds base size).2)) = size /\
    forall x, base <= x < base + size ->
      gather (w_mem w) (buildIovec ds base size).2 !! Z.to_nat (x - base) = obj_view w o' x.
Proof.
  intros Hw (o' & Ho' & _ & _ & Ht & Hp & _). exists o'. split; [done|].
  destruct (gather_tiles w [] None this o' mode _ _ _ Hw Ho' Hp Ht) as [Hlen Hlk].
  change (buildIovec ds base size).2 with (iov_of (clip base size <$> ds)). split; [lia|done].
Qed.

(** The bytes that a write to a range may change: those of the range and, only when a
    read of the storage fails, those of the units of alignement around it. *)
Definition touched w (o : Object) (base size x : Z) : Prop :=
  let r := align_range (o_alignement o) base size in
  base <= x < base + size \/ ~ readable w o base size /\ r.1 <= x < r.1 + r.2.

(** Writing through them, after an access that lost at most [X]. *)
Lemma cut_write (X : Z -> Z -> Prop) w w1 this o base size ds data :
  world_ok w1 [] None -> cut_buffers w1 this o ACCESS_WRITE base size ds -> Z.of_nat (length data) = size ->
  view_le X w w1 -> (forall x, base <= x < base + size -> X this x) ->
  let w2 := set_mem (fun m => scatter m (buildIovec ds base size).2 data) w1 in
  world_ok w2 [] None /\ view_le X w w2 /\
  exists o', w_objects w2 !! this = Some o' /\ same_meta o o' /\ regular_obj w2 o' /\
    forall x, base <= x < base + size -> obj_view w2 o' x = data !! Z.to_nat (x - base).
Proof.
  intros Hw1 (o1 & Ho1 & Hmeta & Hreg1 & Ht & Hp & _) Hlen Hv HX w2.
  destruct (write_tiles w1 this o1 _ _ _ data Hw1 Ho1 Hp Ht ltac:(lia)) as (Hw2 & Hob2 & Hsh2 & _ & Hv2).
  change (iov_of (clip base size <$> ds)) with (buildIovec ds base size).2 in *. subst w2. split; [done|]. split.
  - intros q oq Hq. destruct (Hv q oq Hq) as (oq1 & Hq1 & Hm1 & Hx1). exists oq1. split; [done|].
    split; [done|]. intros x b Hnx Hvx. rewrite (Hv2 q oq1 x Hq1), decide_False; [by apply Hx1|].
    rewrite Hlen. intros [-> Hx]. by apply Hnx, HX.
  - exists o1. split_and!; try done. intros x Hx. rewrite (Hv2 this o1 x Ho1), decide_True by (split; [done|lia]).
    symmetry. destruct (lookup_lt_is_Some_2 data (Z.to_nat (x - base))) as [b Hb']; [lia|].
    rewrite Hb'. f_equal. symmetry. by apply nth_lookup_Some.
Qed.

(** An access whose data is loaded, cut to the requested range. *)
Lemma wp_cut_case w this o base size mode wop rel :
  world_ok w [] None -> w_objects w !! this = Some o -> regular_obj w o ->
  0 <= base -> 0 < size -> base + size + o_alignement o < two63 ->
  size + 2 * o_alignement o < 2147483648 -> (rel = true -> readable w o base size) ->
  wp resource (getBuffers this base size mode true wop)
    (fun r w' => world_ok w' [] None /\ sb_contents (w_store w') = sb_contents (w_store w) /\
       view_le (fun q x => wop = true /\ q = this /\ (let r := align_range (o_alignement o) base size in r.1 <= x < r.1 + r.2) /\
                  (rel = false \/ base <= x < base + size)) w w' /\
       if r.1 then cut_buffers w' this o mode base size r.2 else r.2 = [] /\ wop = false /\ rel = false) w.
Proof.
  intros Hw Ho Hreg Hb Hs He Hsm Hrel. unfold readable in Hrel. destruct (align_range (o_alignement o) base size) as [abase asize] eqn:Hal.
  pose proof (ok_align _ _ _ (wo_objs _ _ _ Hw _ _ Ho)) as Ha.
  destruct (align_units _ _ _ _ _ Ha Hb Hs He Hal) as (Hu & Hu1 & Hu2).
  destruct (align_range_spec _ _ _ _ _ (proj1 Ha) Hb Hs He Hal) as ([? ?] & [? ?] & ? & Hdiv & Hzero).
  assert (asize < 2147483648) as Has.
  { destruct (decide (0 < o_alignement o)); [destruct (Hdiv ltac:(lia)); lia|destruct Ha; destruct (Hzero ltac:(lia)); lia]. }
  eapply wp_mono.
  { pose proof mp_max_bounds. apply (wp_getBuffers w this o base size mode true wop rel abase asize
                (unit_of (o_alignement o)) 2147483648); try done; lia. }
  intros [ok ds] w' (Hw' & Hst & Hv & Hr). simpl in Hr |- *. split; [done|]. split; [done|]. split.
  - eapply view_le_weaken; [|exact Hv]. intros q x (-> & Hx' & Hx). tauto.
  - destruct ok; [exact (covers_cut _ _ _ _ _ _ _ _ _ Hw' (proj1 Ha) Hb Hs He Hal Hr)|]. by destruct Hr as (-> & _ & -> & ->).
Qed.

(** Such an access fails, or loses bytes that are not those of the range, only when a
    read of the storage does. *)
Lemma wp_cut_buffers w this o base size mode wop :
  world_ok w [] None -> w_objects w !! this = Some o -> regular_obj w o ->
  0 <= base -> 0 < size -> base + size + o_alignement o < two63 -> size + 2 * o_alignement o < 2147483648 ->
  wp resource (getBuffers this base size mode true wop)
    (fun r w' => world_ok w' [] None /\ sb_contents (w_store w') = sb_contents (w_store w) /\
       view_le (fun q x => wop = true /\ q = this /\ touched w o base size x) w w' /\
       if r.1 then cut_buffers w' this o mode base size r.2 else r.2 = [] /\ wop = false /\ ~ readable w o base size) w.
Proof.
  intros Hw Ho Hreg Hb Hs He Hsm.
  pose proof (wp_cut_case w this o base size mode wop false Hw Ho Hreg Hb Hs He Hsm ltac:(done)) as H1'.
  assert (readable w o base size -> _) as H2' by (intros Hr; exact (wp_cut_case w this o base size mode wop true Hw Ho Hreg Hb Hs He Hsm (fun _ => Hr))).
  unfold wp in *. destruct (getBuffers this base size mode true wop w) as [[[ok ds] w']|f]; [|done].
  destruct H1' as (A1 & A2 & A3 & A4). split; [done|]. split; [done|]. split.
  - intros q oq Hq. destruct (A3 q oq Hq) as (oq' & Hq' & Hm & Hx). exists oq'. split; [done|]. split; [done|]. intros x b Hn Hv.
    destruct (decide (obj_view w' oq' x = Some b)) as [|Hne]; [done|]. exfalso. apply Hne, Hx; [|done]. intros (-> & -> & Hin & _).
    apply Hn. split; [done|]. split; [done|]. right. split; [|done]. intros Hr. destruct (H2' Hr) as (_ & _ & B3 & _).
    destruct (B3 _ _ Hq) as (oq2 & Hq2 & _ & Hx2). assert (oq2 = oq') as -> by congruence. apply Hne, Hx2; [|done].
    intros (_ & _ & _ & [[=]|Hxr]). apply Hn. split; [done|]. split; [done|]. by left.
  - destruct ok; [done|]. destruct A4 as (A4 & A5 & _). split; [done|]. split; [done|]. intros Hr. by destruct (H2' Hr) as (_ & _ & _ & _ & _ & [=]).
Qed.

(** A read access only fails when the storage does. *)
Lemma wp_read_buffers w this o base size :
  world_ok w [] None -> w_objects w !! this = Some o -> regular_obj w o ->
  0 <= base -> 0 < size -> base + size + o_alignement o < two63 -> size + 2 * o_alignement o < 2147483648 ->
  wp resource (getBuffers this base size ACCESS_READ true false)
    (fun r w' => world_ok w' [] None /\ sb_contents (w_store w') = sb_contents (w_store w) /\ view_le (fun _ _ => False) w w' /\
       if r.1 then cut_buffers w' this o ACCESS_READ base size r.2 else r.2 = [] /\ ~ readable w o base size) w.
Proof.
  intros Hw Ho Hreg Hb Hs He Hsm. eapply wp_mono; [by apply (wp_cut_buffers w this o base size ACCESS_READ false)|].
  intros [ok ds] w' (Hw' & Hst & Hv & Hr). split; [done|]. split; [done|]. split; [eapply view_le_weaken; [|exact Hv]; by intros q x [[=] _]|].
  destruct ok; [done|]. by destruct Hr as (? & _ & ?).
Qed.

(** C1: reading a range of an object, that is the memory of the vector built
    from the segments of the range, gives exactly the contents the object had
    before the access; the access only fails when the storage cannot serve a
    read of the units of alignement around the range, and then it changes nothing. *)
Theorem object_read w this o base size :
  world_ok w [] None -> w_objects w !! this = Some o -> regular_obj w o ->
  0 <= base -> 0 < size -> base + size + o_alignement o < two63 ->
  size + 2 * o_alignement o < 2147483648 ->
  wp resource (let! r := getBuffers this base size ACCESS_READ true false in
               let! m := gets w_mem in
               ret (r.1, gather m (buildIovec r.2 base size).2))
    (fun r w' => world_ok w' [] None /\ view_le (fun _ _ => False) w w' /\
       if r.1 then Z.of_nat (length r.2) = size /\
         forall x b, base <= x < base + size -> obj_view w o x = Some b -> r.2 !! Z.to_nat (x - base) = Some b
       else r.2 = [] /\ ~ readable w o base size) w.
Proof.
  intros Hw Ho Hreg Hb Hs He Hsm. apply wp_bind. eapply wp_mono; [by apply wp_read_buffers|].
  intros [ok ds] w' (Hw' & _ & Hv' & Hr). apply wp_bind, wp_gets, wp_ret. cbn [fst snd] in *.
  split; [done|]. split; [done|]. destruct ok; [|by destruct Hr as (-> & ?)].
  destruct (cut_read _ _ _ _ _ _ _ Hw' Hr) as (o' & Ho' & Hlen & Hlk). split; [done|].
  intros x b Hx Hvx. rewrite Hlk by done. destruct (Hv' _ _ Ho) as (o1 & Ho1 & _ & Hsame).
  assert (o1 = o') as -> by congruence. apply Hsame; [tauto|done].
Qed.


(** [buildIovec] cuts through an [int]: a segment that starts [2^31] bytes
    before the requested range is cut by [-2^31] bytes instead, so that the
    vector starts at the wrong address with the wrong length. *)
Theorem buildIovec_int_overflow :
  (buildIovec [mkDescr 4294967296 0 4294967296] 2147483648 4096).2 = [(2147483648, 4096 + 4294967296)].
Proof. by vm_compute. Qed.
End data.

End ObjectData.
