(* ===== verification/ObjectFlush.v ===== *)
(** * Dirty segments and their flush

    Correctness of Object::markDirty and Object::flush: the segments that meet a
    written range become dirty, a flush stores the dirty segments of its range,
    and a flush of the whole object that succeeds makes the storage equal to the
    contents of the object. *)

From S2P Require Import Prelude StdMap Memory IntervalMap Interfaces ConsistencyTracker World WorldInv View ObjectSegment Object ObjectAccess.

Module ObjectFlush.
Import ObjectSegment Object ObjectAccess.

(** Replacing an element in place. *)
Lemma sm_insert_at {V} (m1 m2 : stdmap Z V) k v v' :
  sm_ok (m1 ++ (k, v) :: m2) -> sm_insert k v' (m1 ++ (k, v) :: m2) = m1 ++ (k, v') :: m2.
Proof.
  intros Hok. rewrite sm_insert_app.
  - simpl. by rewrite less_irrefl.
  - induction m1 as [|[k1 v1] m1 IH]; [constructor|].
    change (((k1, v1) :: m1) ++ (k, v) :: m2) with ((k1, v1) :: (m1 ++ (k, v) :: m2)) in Hok.
    apply sm_ok_cons in Hok as [Hok Hall]. constructor; [|by apply IH].
    apply Forall_app in Hall as [_ Hall]. by apply Forall_cons in Hall as [? _].
Qed.

Section flush.
Context {E S : Type} `{MemoryProviderOk E} `{StorageOk S}.
Abbreviation W := (World E S).
Implicit Types (w : W).

(** Changing dirty flags, the ranges and the memory being the same. *)
Definition redirty (f : ObjectSegment -> bool) (e : Z * ObjectSegment) : Z * ObjectSegment :=
  (e.1, setDirty (f e.2) e.2).

Lemma redirty_keys f m : map fst (redirty f <$> m) = map fst m.
Proof. induction m as [|[k v] m IH]; simpl; [done|]. by rewrite <- IH. Qed.

Lemma redirty_refs f m : seg_refs (redirty f <$> m) = seg_refs m.
Proof.
  induction m as [|[k v] m IH]; [done|]. rewrite fmap_cons. unfold redirty at 1. rewrite !seg_refs_cons, IH. done.
Qed.

Lemma redirty_In f m k seg :
  In (k, seg) (redirty f <$> m) <-> exists s0, In (k, s0) m /\ seg = setDirty (f s0) s0.
Proof.
  rewrite <- list_elem_of_In, list_elem_of_fmap. split.
  - intros ([k0 s0] & [= -> ->] & Hin%list_elem_of_In). eauto.
  - intros (s0 & Hin%list_elem_of_In & ->). by exists (k, s0).
Qed.

Lemma redirty_obj_ok sh (e : E) o f :
  obj_ok sh e o -> obj_ok sh e (set_segmentMap (redirty f <$> o_segmentMap o) o).
Proof.
  intros [Hc He Hm Hu Ha Hb]. constructor; simpl; try done.
  - eapply chain_ext; [|exact Hc]. apply Forall2_fmap_r, Forall_Forall2_diag, Forall_forall. by intros [k v] _.
  - replace (chain_end _ _ 0 (redirty f <$> o_segmentMap o)) with (chain_end os_offset (seg_size sh) 0 (o_segmentMap o)); [done|].
    clear. generalize 0. induction (o_segmentMap o) as [|[k v] m IH]; intros lo; simpl; [done|]. by rewrite IH.
  - by apply Forall_fmap.
  - by apply Forall_fmap.
Qed.

Definition redirty_world (w : W) (this : Z) (o : Object) (f : ObjectSegment -> bool) : W :=
  set_objects (<[this := set_segmentMap (redirty f <$> o_segmentMap o) o]> (w_objects w)) w.

Lemma redirty_ok w tmp blk this o f :
  world_ok w tmp blk -> w_objects w !! this = Some o -> world_ok (redirty_world w this o f) tmp blk.
Proof.
  intros Hw Ho. eapply update_obj_ok; [exact Hw|exact Ho| |].
  - intros i. unfold obj_refs. simpl. by rewrite redirty_refs.
  - apply redirty_obj_ok. by eapply wo_objs.
Qed.

(** The contents do not depend on the flags. *)
Lemma redirty_view w tmp blk this o f x :
  world_ok w tmp blk -> w_objects w !! this = Some o ->
  obj_view (redirty_world w this o f) (set_segmentMap (redirty f <$> o_segmentMap o) o) x = obj_view w o x.
Proof.
  intros Hw Ho. pose proof (wo_objs _ _ _ Hw _ _ Ho) as Hok.
  pose proof (redirty_obj_ok _ _ _ f Hok) as Hok'. set (w' := redirty_world w this o f).
  destruct (cover_cases _ _ _ x Hok) as [(k & seg & Hin & Hx)|Hno].
  - rewrite (view_in _ _ w o k seg x eq_refl Hok Hin Hx).
    by rewrite (view_in (w_shared w) (w_env w) w' _ k (setDirty (f seg) seg) x eq_refl Hok'); [|apply redirty_In; eauto|].
  - rewrite (view_out _ _ _ _ Hok Hno). rewrite (view_out (w_env w) w' _ x Hok'); [done|].
    intros k seg (s0 & Hin & ->)%redirty_In. apply (Hno k s0 Hin).
Qed.

(** *** markDirty *)
Definition in_range w (base size : Z) (seg : ObjectSegment) : bool :=
  (os_offset seg <? base + size) && (base <? os_offset seg + seg_size (w_shared w) seg).

Lemma markDirty_exec w this o base size :
  world_ok w [] None -> w_objects w !! this = Some o -> 0 <= base -> 0 <= size -> base + size < two63 ->
  markDirty this base size w = Ok (tt, redirty_world w this o (fun seg => os_dirty seg || in_range w base size seg)).
Proof.
  intros Hw Ho Hb Hs He. unfold markDirty, bind at 1, get_obj. rewrite Ho.
  set (f := fun seg => os_dirty seg || in_range w base size seg).
  pose proof (chain_sorted _ _ _ _ (ok_chain _ _ _ (wo_objs _ _ _ Hw _ _ Ho))) as Hsort.
  assert (forall rest done_ w1, o_segmentMap o = done_ ++ rest ->
    w1 = set_objects (<[this := set_segmentMap ((redirty f <$> done_) ++ rest) o]> (w_objects w)) w ->
    for_each rest (fun '(k, seg) =>
      let! ov := overlap seg base size in
      if ov then set_segment this k (setDirty true seg) else ret tt) w1 =
    Ok (tt, redirty_world w this o f)) as Hloop.
  { induction rest as [|[k seg] rest IH]; intros done_ w1 Hm ->.
    - simpl. unfold ret, redirty_world. by rewrite Hm, !app_nil_r.
    - simpl for_each. unfold bind at 1, bind at 1.
      assert (In (k, seg) (o_segmentMap o)) as Hin by (rewrite Hm; apply in_or_app; right; by left).
      pose proof (overlap_run w [] None this o k seg base size Hw Ho Hin Hb Hs He) as Hov.
      assert (overlap seg base size (set_objects (<[this := set_segmentMap ((redirty f <$> done_) ++ (k, seg) :: rest) o]> (w_objects w)) w) =
        Ok (in_range w base size seg, set_objects (<[this := set_segmentMap ((redirty f <$> done_) ++ (k, seg) :: rest) o]> (w_objects w)) w)) as ->.
      { revert Hov. unfold overlap, bind, shared_get. destruct (os_memory seg) as [i|]; [|done]. simpl.
        destruct (w_shared w !! i) as [[mi ci]|]; [|done]. unfold ret. intros [= ->]. done. }
      assert (sm_ok ((redirty f <$> done_) ++ (k, seg) :: rest)) as Hok'.
      { eapply sm_ok_keys; [|exact Hsort]. rewrite Hm, !map_app, redirty_keys. done. }
      assert (forall seg', seg' = setDirty (f seg) seg ->
        set_objects (<[this := set_segmentMap ((redirty f <$> done_) ++ (k, seg') :: rest) o]> (w_objects w)) w =
        set_objects (<[this := set_segmentMap ((redirty f <$> (done_ ++ [(k, seg)])) ++ rest) o]> (w_objects w)) w) as Hnext.
      { intros seg' ->. rewrite fmap_app, <- app_assoc. done. }
      destruct (in_range w base size seg) eqn:Er.
      + unfold set_segment, update_obj. simpl. rewrite lookup_insert_eq. simpl. rewrite insert_insert_eq, sm_insert_at by done.
        apply (IH (done_ ++ [(k, seg)])); [by rewrite <- app_assoc|].
        apply Hnext. unfold f. by rewrite Er, orb_true_r.
      + unfold ret. apply (IH (done_ ++ [(k, seg)])); [by rewrite <- app_assoc|].
        apply Hnext. unfold f. rewrite Er, orb_false_r. by destruct seg. }
  apply (Hloop (o_segmentMap o) []); [done|]. simpl. rewrite insert_id; [by destruct w|]. by destruct o.
Qed.

(** *** flush *)

(** The store and the result after one segment. *)
Definition flush_step w (o : Object) (sel : ObjectSegment -> bool) (acc : S * Z) (seg : ObjectSegment) : S * Z :=
  if os_dirty seg && sel seg then
    if o_storageBackend o =? 0 then acc
    else
      let r := sb_pwrite (o_storageBackend o) (id_high (o_objectId o)) (id_low (o_objectId o))
                 (rd (w_mem w) (seg_buffer (w_shared w) seg) (seg_size (w_shared w) seg)) (os_offset seg) acc.1 in
      (r.2, if r.1 =? i64 (seg_size (w_shared w) seg) then acc.2 else -1)
  else acc.
Definition flush_steps w (o : Object) (sel : ObjectSegment -> bool) (acc : S * Z) (m : stdmap Z ObjectSegment) : S * Z :=
  foldl (fun a e => flush_step w o sel a e.2) acc m.
Definition selected w (offset size : Z) (seg : ObjectSegment) : bool :=
  if size =? 0 then true else in_range w offset size seg.
Definition kept (sel : ObjectSegment -> bool) (seg : ObjectSegment) : bool := os_dirty seg && negb (sel seg).

Lemma flush_exec w this o offset size :
  world_ok w [] None -> w_objects w !! this = Some o -> 0 <= offset -> 0 <= size -> offset + size < two63 ->
  let sel := selected w offset size in
  let acc := flush_steps w o sel (w_store w, 0) (o_segmentMap o) in
  flush this offset size w = Ok (acc.2, set_store acc.1 (redirty_world w this o (kept sel))).
Proof.
  intros Hw Ho Hb Hs He sel acc. unfold flush, bind at 1, get_obj. rewrite Ho.
  pose proof (chain_sorted _ _ _ _ (ok_chain _ _ _ (wo_objs _ _ _ Hw _ _ Ho))) as Hsort.
  set (body := fun r '(k, seg) => _).
  set (mid := fun st done_ rest => set_store st
    (set_objects (<[this := set_segmentMap ((redirty (kept sel) <$> done_) ++ rest) o]> (w_objects w)) w)).
  assert (forall rest done_ st r, o_segmentMap o = done_ ++ rest ->
    fold_m body r rest (mid st done_ rest) =
    Ok ((flush_steps w o sel (st, r) rest).2,
        set_store (flush_steps w o sel (st, r) rest).1 (redirty_world w this o (kept sel)))) as Hloop.
  { induction rest as [|[k seg] rest IH]; intros done_ st r Hm.
    - simpl. unfold ret, redirty_world, mid. by rewrite Hm, !app_nil_r.
    - assert (In (k, seg) (o_segmentMap o)) as Hin by (rewrite Hm; apply in_or_app; right; by left).
      destruct (seg_live w [] None this o k seg Hw Ho Hin) as (i & mi & ci & Hi & _ & Hmi & Hbi & Hsi & Hz & _).
      assert (0 <= os_offset seg /\ os_offset seg + osm_size mi < two63) as [Hoff Hend].
      { pose proof (wo_objs _ _ _ Hw _ _ Ho) as Hok.
        pose proof (chain_end_In _ _ _ _ _ _ (ok_chain _ _ _ Hok) Hin) as Hle. unfold iend in Hle.
        pose proof (chain_In _ _ _ _ _ _ (ok_chain _ _ _ Hok) Hin) as (? & ? & _).
        pose proof (ok_end _ _ _ Hok). rewrite Hsi in *. lia. }
      assert (sm_ok ((redirty (kept sel) <$> done_) ++ (k, seg) :: rest)) as Hok'.
      { eapply sm_ok_keys; [|exact Hsort]. rewrite Hm, !map_app, redirty_keys. done. }
      assert (forall st' seg', seg' = setDirty (kept sel seg) seg ->
        set_store st' (set_objects (<[this := set_segmentMap ((redirty (kept sel) <$> done_) ++ (k, seg') :: rest) o]> (w_objects w)) w) =
        mid st' (done_ ++ [(k, seg)]) rest) as Hnext.
      { intros st' seg' ->. unfold mid. rewrite fmap_app, <- app_assoc. done. }
      assert (o_segmentMap o = (done_ ++ [(k, seg)]) ++ rest) as Hm' by (by rewrite <- app_assoc).
      assert (body r (k, seg) (mid st done_ ((k, seg) :: rest)) =
        Ok ((flush_step w o sel (st, r) seg).2, mid (flush_step w o sel (st, r) seg).1 (done_ ++ [(k, seg)]) rest)) as Hbody.
      { unfold body, flush_step. destruct (os_dirty seg) eqn:Ed; last first.
        { unfold ret. do 2 f_equal. apply Hnext. unfold kept. rewrite Ed. destruct seg; simpl in *. by rewrite Ed. }
        assert ((if size =? 0 then ret true else overlap seg offset size) (mid st done_ ((k, seg) :: rest)) =
          Ok (sel seg, mid st done_ ((k, seg) :: rest))) as Hsel.
        { unfold sel, selected. destruct (size =? 0); [done|].
          pose proof (overlap_run w [] None this o k seg offset size Hw Ho Hin Hb Hs He) as Hov. revert Hov.
          unfold overlap, bind, shared_get. rewrite Hi. simpl. rewrite Hmi. unfold ret. intros [= ->]. done. }
        unfold bind at 1. rewrite Hsel. destruct (sel seg) eqn:Es; last first.
        { unfold ret. do 2 f_equal. apply Hnext. unfold kept. rewrite Ed, Es. destruct seg; simpl in *. by rewrite Ed. }
        simpl. unfold bind at 1, getBuffer, bind at 1, shared_get at 1. rewrite Hi. simpl. rewrite Hmi. simpl.
        unfold bind at 1, getSize, bind at 1, shared_get at 1. rewrite Hi. simpl. rewrite Hmi. simpl.
        unfold bind at 1, pwrite, bind at 1, get_obj. simpl. rewrite lookup_insert_eq. simpl. rewrite Hbi, Hsi.
        destruct (o_storageBackend o =? 0) eqn:Enull; simpl.
        - unfold bind, set_segment, update_obj. simpl. rewrite lookup_insert_eq. simpl. rewrite Z.eqb_refl.
          unfold ret. rewrite insert_insert_eq, sm_insert_at by done. do 2 f_equal.
          rewrite <- (Hnext st (setDirty false seg)); [done|]. unfold kept. by rewrite Ed, Es.
        - unfold bind, set_segment, update_obj. simpl. rewrite lookup_insert_eq. simpl.
          unfold ret. rewrite insert_insert_eq, sm_insert_at by done. do 2 f_equal.
          rewrite <- (Hnext _ (setDirty false seg)); [done|]. unfold kept. by rewrite Ed, Es. }
      change (fold_m body r ((k, seg) :: rest)) with (bind (body r (k, seg)) (fun b' => fold_m body b' rest)).
      unfold bind. rewrite Hbody. rewrite (IH _ _ _ Hm'). unfold flush_steps. simpl.
      by destruct (flush_step w o sel (st, r) seg). }
  etransitivity; [|exact (Hloop (o_segmentMap o) [] (w_store w) 0 eq_refl)]. f_equal. unfold mid. simpl.
  rewrite insert_id; [by destruct w|]. by destruct o.
Qed.

(** *** What the storage holds after a flush *)
Definition storage_key (o : Object) : Z * Z * Z :=
  (o_storageBackend o, id_high (o_objectId o), id_low (o_objectId o)).

(** The other objects are other objects of the storage. *)
Definition own_storage w (this : Z) (o : Object) : Prop :=
  forall q oq, q <> this -> w_objects w !! q = Some oq -> storage_key oq <> storage_key o.

Lemma flush_steps_frame w o sel acc m h hi lo x :
  (forall k seg, In (k, seg) m -> 0 <= seg_size (w_shared w) seg) ->
  ((h, hi, lo) <> storage_key o \/
   forall k seg, In (k, seg) m -> os_dirty seg && sel seg = true -> ~ seg_covers (w_shared w) seg x) ->
  sb_contents (flush_steps w o sel acc m).1 h hi lo x = sb_contents acc.1 h hi lo x.
Proof.
  revert acc. induction m as [|[k seg] m IH]; intros acc Hz Hx; [done|].
  unfold flush_steps. simpl. fold (flush_steps w o sel (flush_step w o sel acc seg) m). rewrite IH.
  - unfold flush_step. destruct (os_dirty seg && sel seg) eqn:Ed; [|done].
    destruct (o_storageBackend o =? 0); [done|]. simpl. apply sb_pwrite_frame.
    destruct Hx as [Hx|Hx]; [by left|]. right. specialize (Hx k seg (or_introl eq_refl) Ed).
    unfold seg_covers in Hx. rewrite rd_length by (apply (Hz k); by left). lia.
  - intros k1 s1 Hin. apply (Hz k1). by right.
  - destruct Hx as [Hx|Hx]; [by left|]. right. intros k1 s1 Hin. apply (Hx k1). by right.
Qed.

Lemma flush_steps_ok w o sel acc m lo :
  interval_chain os_offset (seg_size (w_shared w)) lo m -> 0 <= lo ->
  chain_end os_offset (seg_size (w_shared w)) lo m < two63 -> o_storageBackend o <> 0 ->
  (flush_steps w o sel acc m).2 = 0 ->
  acc.2 = 0 /\ forall k seg x, In (k, seg) m -> os_dirty seg && sel seg = true -> seg_covers (w_shared w) seg x ->
    sb_contents (flush_steps w o sel acc m).1 (o_storageBackend o) (id_high (o_objectId o)) (id_low (o_objectId o)) x =
    w_mem w (seg_buffer (w_shared w) seg + (x - os_offset seg)).
Proof.
  intros Hc Hlo He Hnull. revert acc lo Hc Hlo He. induction m as [|[k seg] m IH]; intros acc lo Hc Hlo He; [by intros|].
  unfold flush_steps. simpl. fold (flush_steps w o sel (flush_step w o sel acc seg) m). intros Hr.
  destruct Hc as (Ha & Hz & _ & Hc). pose proof (chain_end_ge _ _ _ _ Hc) as Hge. simpl in He. unfold iend in *.
  destruct (IH _ _ Hc ltac:(lia) He Hr) as [Hacc Hin].
  unfold flush_step in Hacc. split.
  - destruct (os_dirty seg && sel seg); [|done]. destruct (o_storageBackend o =? 0); [done|].
    simpl in Hacc. by destruct (_ =? _).
  - intros k1 s1 x [[= -> ->]|Hin1] Hd Hx; [|by eapply Hin].
    rewrite flush_steps_frame.
    + unfold flush_step. rewrite Hd in *. destruct (o_storageBackend o =? 0) eqn:E0; [lia|]. simpl in *.
      set (r := sb_pwrite _ _ _ _ _ _) in *.
      destruct (r.1 =? i64 (seg_size (w_shared w) s1)) eqn:Est; [|done].
      rewrite i64_id in Est by lia. unfold seg_covers in Hx.
      assert (r.1 = Z.of_nat (length (rd (w_mem w) (seg_buffer (w_shared w) s1) (seg_size (w_shared w) s1)))) as Hst.
      { rewrite rd_length by lia. lia. }
      unfold r in Hst |- *. rewrite sb_pwrite_at; [|done|rewrite rd_length by lia; lia].
      apply nth_lookup_Some. rewrite rd_lookup by lia. do 2 f_equal. lia.
    + intros k2 s2 Hin2. pose proof (chain_In _ _ _ _ _ _ Hc Hin2). lia.
    + right. intros k2 s2 Hin2 _ Hx2. pose proof (chain_In _ _ _ _ _ _ Hc Hin2) as (? & _).
      unfold seg_covers in *. lia.
Qed.

Lemma flush_result w o sel acc m : acc.2 = 0 \/ acc.2 = -1 ->
  (flush_steps w o sel acc m).2 = 0 \/ (flush_steps w o sel acc m).2 = -1.
Proof.
  revert acc. induction m as [|[k seg] m IH]; intros acc Ha; [done|]. unfold flush_steps. simpl. apply IH.
  unfold flush_step. destruct (os_dirty seg && sel seg); [|done]. destruct (o_storageBackend o =? 0); [done|].
  simpl. destruct (_ =? _); auto.
Qed.

Lemma flush_steps_sticky w o sel acc m : acc.2 <> 0 -> (flush_steps w o sel acc m).2 <> 0.
Proof.
  revert acc. induction m as [|[k seg] m IH]; intros acc Ha; [done|]. unfold flush_steps. simpl. apply IH.
  unfold flush_step. destruct (os_dirty seg && sel seg); [|done]. destruct (o_storageBackend o =? 0); [done|].
  simpl. destruct (_ =? _); [done|lia].
Qed.

Lemma flush_steps_fail w o sel acc m k seg :
  o_storageBackend o <> 0 -> (forall h hi lo l off (s : S), (sb_pwrite h hi lo l off s).1 = -1) ->
  In (k, seg) m -> os_dirty seg && sel seg = true -> 0 <= seg_size (w_shared w) seg < two63 ->
  (flush_steps w o sel acc m).2 <> 0.
Proof.
  intros Hnull Hfail Hin Hd Hz. revert acc. induction m as [|[k1 s1] m IH]; intros acc; [done|].
  unfold flush_steps. simpl. fold (flush_steps w o sel (flush_step w o sel acc s1) m).
  destruct Hin as [[= -> ->]|Hin]; [|by apply IH]. apply flush_steps_sticky.
  unfold flush_step. rewrite Hd. destruct (o_storageBackend o =? 0) eqn:E0; [lia|]. simpl.
  rewrite Hfail, i64_id by done. destruct (-1 =? _) eqn:E1; lia.
Qed.

(** The contents of every object are the same after a flush. *)
Lemma flush_views w this o sel :
  world_ok w [] None -> w_objects w !! this = Some o -> own_storage w this o ->
  let s' := (flush_steps w o sel (w_store w, 0) (o_segmentMap o)).1 in
  let w' := set_store s' (redirty_world w this o (kept sel)) in
  view_le (fun _ _ => False) w w'.
Proof.
  intros Hw Ho Hown s' w' q oq Hq. pose proof (wo_objs _ _ _ Hw _ _ Ho) as Hok.
  pose proof (redirty_ok w [] None this o (kept sel) Hw Ho) as Hw1.
  assert (forall k seg, In (k, seg) (o_segmentMap o) -> 0 <= seg_size (w_shared w) seg) as Hz.
  { intros k seg Hin. pose proof (chain_In _ _ _ _ _ _ (ok_chain _ _ _ Hok) Hin). lia. }
  destruct (decide (q = this)) as [->|Hne].
  - assert (oq = o) as -> by congruence. eexists. split; [apply lookup_insert_eq|]. split; [by repeat split|].
    intros x b _ <-. rewrite <- (redirty_view w [] None this o (kept sel) x Hw Ho).
    pose proof (redirty_obj_ok _ _ _ (kept sel) Hok) as Hok'.
    destruct (cover_cases _ _ _ x Hok') as [(k & seg & Hin & Hx)|Hno].
    + rewrite (view_in _ _ (redirty_world w this o (kept sel)) _ k seg x eq_refl Hok' Hin Hx).
      by rewrite (view_in (w_shared w) (w_env w) w' _ k seg x eq_refl Hok' Hin Hx).
    + rewrite (view_out _ (redirty_world w this o (kept sel)) _ x Hok' Hno).
      rewrite (view_out (w_env w) w' _ x Hok' Hno). unfold stored. simpl. case_match; [done|]. f_equal.
      unfold s'. apply flush_steps_frame; [done|]. right. intros k seg Hin Hd Hx.
      eapply (Hno k (setDirty (kept sel seg) seg)); [apply redirty_In; eauto|exact Hx].
  - exists oq. split; [simpl; by rewrite lookup_insert_ne|]. split; [apply same_meta_refl|].
    intros x b _ <-. eapply obj_view_ext; [exact Hw|exact Hq|done|done|].
    intros y. unfold stored. simpl. case_match; [done|]. f_equal. unfold s'.
    apply flush_steps_frame; [done|]. left. exact (Hown q oq Hne Hq).
Qed.

(** a flush keeps the invariant and the contents of every object, returns
    0 or -1, marks clean the segments of its range, and when it returns 0 the
    storage holds the contents of every dirty segment of the range. *)
Theorem flush_correct w this o offset size :
  world_ok w [] None -> w_objects w !! this = Some o -> own_storage w this o ->
  0 <= offset -> 0 <= size -> offset + size < two63 ->
  wp never (flush this offset size)
    (fun r w' => world_ok w' [] None /\ view_le (fun _ _ => False) w w' /\ (r = 0 \/ r = -1) /\
       w_objects w' !! this = Some (set_segmentMap (redirty (kept (selected w offset size)) <$> o_segmentMap o) o) /\
       (r = 0 -> o_storageBackend o <> 0 -> forall k seg x, In (k, seg) (o_segmentMap o) ->
          os_dirty seg = true -> selected w offset size seg = true -> seg_covers (w_shared w) seg x ->
          stored w' o x = obj_view w o x)) w.
Proof.
  intros Hw Ho Hown Hb Hs He. pose proof (flush_exec w this o offset size Hw Ho Hb Hs He) as Hex.
  cbv zeta in Hex. set (sel := selected w offset size) in *.
  eapply wp_of_Ok; [exact Hex|]. set (acc := flush_steps w o sel (w_store w, 0) (o_segmentMap o)).
  pose proof (wo_objs _ _ _ Hw _ _ Ho) as Hok.
  split; [by apply world_ok_store, redirty_ok|]. split; [by apply flush_views|].
  split; [by apply flush_result; left|]. split; [apply lookup_insert_eq|].
  intros Hr Hnull k seg x Hin Hd Hsel Hx.
  destruct (flush_steps_ok w o sel (w_store w, 0) (o_segmentMap o) 0) as [_ Hst]; try done.
  { apply ok_chain with (1 := Hok). } { apply ok_end with (1 := Hok). }
  rewrite (view_in _ _ w o k seg x eq_refl Hok Hin Hx). unfold stored. simpl.
  destruct (o_storageBackend o =? 0) eqn:E0; [lia|]. f_equal. apply (Hst k); [done|by rewrite Hd, Hsel|done].
Qed.

(** A flush writes the storage of its object only. *)
Lemma flush_frame w this o offset size :
  world_ok w [] None -> w_objects w !! this = Some o -> 0 <= offset -> 0 <= size -> offset + size < two63 ->
  wp never (flush this offset size) (fun _ w' => forall h hi lo x, (h, hi, lo) <> storage_key o ->
    sb_contents (w_store w') h hi lo x = sb_contents (w_store w) h hi lo x) w.
Proof.
  intros Hw Ho Hb Hs He. eapply wp_of_Ok; [exact (flush_exec w this o offset size Hw Ho Hb Hs He)|]. intros h hi lo x Hne. simpl.
  apply flush_steps_frame; [|by left]. intros k seg Hin. pose proof (chain_In _ _ _ _ _ _ (ok_chain _ _ _ (wo_objs _ _ _ Hw _ _ Ho)) Hin). lia.
Qed.

(** The byte is in a segment that a flush has to write. *)
Definition dirty_byte w (o : Object) (x : Z) : Prop :=
  exists k seg, In (k, seg) (o_segmentMap o) /\ os_dirty seg = true /\ seg_covers (w_shared w) seg x.

(** A clean segment is the same as the storage. *)
Definition clean_ok w (o : Object) : Prop :=
  forall k seg x, In (k, seg) (o_segmentMap o) -> os_dirty seg = false -> seg_covers (w_shared w) seg x ->
    stored w o x = obj_view w o x.

Lemma wp_flush_all w this o :
  world_ok w [] None -> w_objects w !! this = Some o -> own_storage w this o ->
  o_storageBackend o <> 0 ->
  wp never (flush this 0 0)
    (fun r w' => exists o', w_objects w' !! this = Some o' /\ same_meta o o' /\
       Forall (fun e => os_dirty e.2 = false) (o_segmentMap o') /\
       (r = 0 -> forall x, dirty_byte w o x \/ stored w o x = obj_view w o x -> stored w' o' x = obj_view w o x)) w.
Proof.
  intros Hw Ho Hown Hnull. pose proof two63_two64.
  pose proof (flush_exec w this o 0 0 Hw Ho ltac:(lia) ltac:(lia) ltac:(lia)) as Hex.
  cbv zeta in Hex. set (sel := selected w 0 0) in *. pose proof (wo_objs _ _ _ Hw _ _ Ho) as Hok.
  eapply wp_of_Ok; [exact Hex|]. set (acc := flush_steps w o sel (w_store w, 0) (o_segmentMap o)).
  eexists. split; [apply lookup_insert_eq|]. split; [by repeat split|]. split.
  - apply Forall_fmap, Forall_forall. intros [k seg] _. simpl. unfold kept, sel, selected. simpl. by destruct (os_dirty seg).
  - intros Hr x Hclean.
    destruct (flush_steps_ok w o sel (w_store w, 0) (o_segmentMap o) 0) as [_ Hst]; try done.
    { apply ok_chain with (1 := Hok). } { apply ok_end with (1 := Hok). }
    assert (forall k seg, In (k, seg) (o_segmentMap o) -> 0 <= seg_size (w_shared w) seg) as Hz.
    { intros k seg Hin. pose proof (chain_In _ _ _ _ _ _ (ok_chain _ _ _ Hok) Hin). lia. }
    assert (forall y, (forall k seg, In (k, seg) (o_segmentMap o) -> os_dirty seg = true -> ~ seg_covers (w_shared w) seg y) ->
      stored (set_store acc.1 (redirty_world w this o (kept sel))) o y = stored w o y) as Hsame.
    { intros y Hy. unfold stored. simpl. case_match; [done|]. f_equal. unfold acc. apply flush_steps_frame; [done|].
      right. intros k seg Hin [Hd _]%andb_true_iff. by apply (Hy k). }
    change (stored (set_store acc.1 (redirty_world w this o (kept sel))) o x = obj_view w o x).
    destruct (cover_cases _ _ _ x Hok) as [(k & seg & Hin & Hx)|Hno].
    + destruct (os_dirty seg) eqn:Ed.
      * rewrite (view_in _ _ w o k seg x eq_refl Hok Hin Hx). unfold stored. simpl.
        destruct (o_storageBackend o =? 0) eqn:E0; [lia|]. f_equal. apply (Hst k); [done|by rewrite Ed|done].
      * destruct Hclean as [(k1 & s1 & Hin1 & Hd1 & Hx1)|Hclean].
        { assert ((k1, s1) = (k, seg)) as [= -> ->] by (eapply chain_cover_unique; [exact (ok_chain _ _ _ Hok)|done|done|exact Hx1|exact Hx]). congruence. }
        rewrite Hsame; [done|]. intros k1 s1 Hin1 Hd1 Hx1.
        assert ((k1, s1) = (k, seg)) as [= -> ->] by (eapply chain_cover_unique; [exact (ok_chain _ _ _ Hok)|done|done|exact Hx1|exact Hx]).
        congruence.
    + rewrite Hsame; [|intros k seg Hin _; by apply (Hno k)]. symmetry. by apply (view_out (w_env w)).
Qed.

(** durability.  When the clean segments agree with the storage, a flush of
    the whole object that returns 0 makes the storage equal to the contents of
    the object, byte for byte, and leaves no dirty segment. *)
Theorem flush_all_durable w this o :
  world_ok w [] None -> w_objects w !! this = Some o -> own_storage w this o ->
  o_storageBackend o <> 0 -> clean_ok w o ->
  wp never (flush this 0 0)
    (fun r w' => exists o', w_objects w' !! this = Some o' /\ same_meta o o' /\
       Forall (fun e => os_dirty e.2 = false) (o_segmentMap o') /\
       (r = 0 -> forall x, stored w' o' x = obj_view w o x)) w.
Proof.
  intros Hw Ho Hown Hnull Hclean. eapply wp_mono; [by apply wp_flush_all|]. intros r w' (o' & Ho' & Hm & Hd & Hdur).
  exists o'. split_and!; try done. intros Hr x. apply Hdur; [done|]. pose proof (wo_objs _ _ _ Hw _ _ Ho) as Hok.
  destruct (cover_cases _ _ _ x Hok) as [(k & seg & Hin & Hx)|Hno]; [|right; symmetry; by apply (view_out (w_env w))].
  destruct (os_dirty seg) eqn:Ed; [left; by exists k, seg|right; by eapply Hclean].
Qed.

(** C36: a flush that fails forgets that the data has to be written: when no
    write reaches the storage and a segment is dirty, [flush] returns -1 and
    nevertheless marks every segment clean, so the next flush does nothing. *)
Theorem flush_failure_forgets w this o k seg :
  world_ok w [] None -> w_objects w !! this = Some o -> o_storageBackend o <> 0 ->
  (forall h hi lo l off (s : S), (sb_pwrite h hi lo l off s).1 = -1) ->
  In (k, seg) (o_segmentMap o) -> os_dirty seg = true ->
  wp never (flush this 0 0)
    (fun r w' => r = -1 /\ exists o', w_objects w' !! this = Some o' /\
       Forall (fun e => os_dirty e.2 = false) (o_segmentMap o')) w.
Proof.
  intros Hw Ho Hnull Hfail Hin Hd. pose proof two63_two64.
  pose proof (flush_exec w this o 0 0 Hw Ho ltac:(lia) ltac:(lia) ltac:(lia)) as Hex.
  cbv zeta in Hex. set (sel := selected w 0 0) in *. pose proof (wo_objs _ _ _ Hw _ _ Ho) as Hok.
  eapply wp_of_Ok; [exact Hex|]. split.
  - destruct (flush_result w o sel (w_store w, 0) (o_segmentMap o) (or_introl eq_refl)) as [Hr|Hr]; [|done].
    destruct (flush_steps_fail w o sel (w_store w, 0) (o_segmentMap o) k seg); try done; [by rewrite Hd|].
    pose proof (chain_In _ _ _ _ _ _ (ok_chain _ _ _ Hok) Hin) as (? & ? & _).
    pose proof (chain_end_In _ _ _ _ _ _ (ok_chain _ _ _ Hok) Hin). pose proof (ok_end _ _ _ Hok).
    unfold iend in *. lia.
  - eexists. split; [apply lookup_insert_eq|]. apply Forall_fmap, Forall_forall. intros [k1 s1] _. simpl.
    unfold kept, sel, selected. simpl. by destruct (os_dirty s1).
Qed.

(** [markDirty] marks exactly the segments that meet the range, keeps the
    marks of the others, and changes neither the invariant nor any content. *)
Theorem markDirty_correct w this o base size :
  world_ok w [] None -> w_objects w !! this = Some o -> 0 <= base -> 0 <= size -> base + size < two63 ->
  wp never (markDirty this base size)
    (fun _ w' => world_ok w' [] None /\ view_le (fun _ _ => False) w w' /\ exists o', w_objects w' !! this = Some o' /\
       same_meta o o' /\
       forall k seg, In (k, seg) (o_segmentMap o') <-> exists s0, In (k, s0) (o_segmentMap o) /\
         os_memory seg = os_memory s0 /\ os_offset seg = os_offset s0 /\
         (os_dirty seg = true <-> os_dirty s0 = true \/
            (os_offset s0 < base + size /\ base < os_offset s0 + seg_size (w_shared w) s0))) w.
Proof.
  intros Hw Ho Hb Hs He. eapply wp_of_Ok; [by apply (markDirty_exec w this o)|].
  set (f := fun seg => _). split; [by apply redirty_ok|]. split.
  - intros q oq Hq. destruct (decide (q = this)) as [->|Hne].
    + assert (oq = o) as -> by congruence. eexists. split; [apply lookup_insert_eq|]. split; [by repeat split|].
      intros x b _. by rewrite (redirty_view w [] None).
    + exists oq. split; [simpl; by rewrite lookup_insert_ne|]. by split; [apply same_meta_refl|].
  - eexists. split; [apply lookup_insert_eq|]. split; [by repeat split|]. intros k seg. simpl. rewrite redirty_In.
    assert (forall s0, f s0 = true <-> os_dirty s0 = true \/
      (os_offset s0 < base + size /\ base < os_offset s0 + seg_size (w_shared w) s0)) as Hf.
    { intros s0. unfold f, in_range. rewrite orb_true_iff, andb_true_iff. by rewrite !Z.ltb_lt. }
    split; intros (s0 & Hin & Hr); exists s0; (split; [done|]).
    + subst seg. simpl. split_and!; try done; apply Hf.
    + destruct Hr as (E1 & E2 & E3). destruct seg as [mem off dirty]. simpl in *. subst. unfold setDirty. f_equal.
      rewrite <- Hf in E3. destruct dirty, (f s0); try done; [by symmetry; apply E3|by apply E3].
Qed.
End flush.

End ObjectFlush.
