(* ===== verification/ObjectCow.v ===== *)
(** * Copy on write of a whole object

    Correctness of Object::makeFullCopyOnWrite: the new object shares the memory
    of every segment of the original, and shows the same contents up to the end
    of the last of them. *)

From S2P Require Import Prelude StdMap Memory IntervalMap Interfaces ConsistencyTracker World WorldInv View ObjectSegment Object ObjectAccess ObjectFlush.

Module ObjectCow.
Import ObjectSegment Object ObjectAccess ObjectFlush.

Section cow.
Context {E S : Type} `{MemoryProviderOk E} `{StorageOk S}.
Abbreviation W := (World E S).
Implicit Types (w : W).

(** Adding to [this] a segment that shares the memory [id] of another. *)
Definition share_world (w : W) (this k : Z) (o : Object) (seg : ObjectSegment) (id : Z)
    (m : ObjectSegmentMemory) (c : Z) : W :=
  set_objects (<[this := set_segmentMap (sm_insert k seg (o_segmentMap o)) o]> (w_objects w))
    (set_shared (<[id := (m, c + 1)]> (w_shared w)) w).

Lemma share_exec w this k o seg id m c :
  w_objects w !! this = Some o -> sm_find k (o_segmentMap o) = None ->
  os_memory seg = Some id -> w_shared w !! id = Some (m, c) ->
  (touch_segment this k ;; makeCowOf this k seg) w = Ok (tt, share_world w this k o seg id m c).
Proof.
  intros Ho Hf Hid Hm. unfold bind at 1, touch_segment, bind at 1, get_obj at 1. rewrite Ho, Hf.
  unfold set_segment at 1, update_obj at 1. rewrite Ho.
  unfold makeCowOf, bind at 1, get_segment, bind at 1, get_obj. simpl. rewrite lookup_insert_eq. simpl.
  rewrite sm_find_insert_eq. simpl. unfold bind, shared_copy. rewrite Hid. simpl. rewrite Hm.
  unfold set_segment, update_obj. simpl. rewrite lookup_insert_eq. simpl.
  unfold share_world, set_objects, set_shared, set_segmentMap. simpl.
  rewrite insert_insert_eq, sm_insert_insert. destruct seg; simpl in *. by rewrite Hid.
Qed.

Lemma share_ok w this k o seg id m c :
  world_ok w [] None -> w_objects w !! this = Some o -> os_memory seg = Some id ->
  w_shared w !! id = Some (m, c) ->
  chain_end os_offset (seg_size (w_shared w)) 0 (o_segmentMap o) <= os_offset seg ->
  k = os_offset seg + osm_size m - 1 -> 0 < osm_size m -> os_offset seg + osm_size m < two63 ->
  (mp_unit | os_offset seg) ->
  world_ok (share_world w this k o seg id m c) [] None /\
  sm_insert k seg (o_segmentMap o) = o_segmentMap o ++ [(k, seg)].
Proof.
  intros Hw Ho Hid Hm Hend Hk Hz He Hu.
  pose proof (shared_copy_ok w [] None id m c Hw Hm) as Hw1. set (w1 := set_shared _ w) in *.
  pose proof (wo_objs _ _ _ Hw1 _ _ Ho) as [Hc Hce Hmem Huo Ha Hb].
  assert (forall s, seg_size (w_shared w1) s = seg_size (w_shared w) s) as Hss.
  { intros s. unfold seg_size. rewrite (seg_memory_ext (w_shared w)); [done|]. intros i Hi. simpl.
    destruct (decide (i = id)) as [->|Hne]; [by rewrite lookup_insert_eq, Hm|by rewrite lookup_insert_ne]. }
  assert (seg_size (w_shared w1) seg = osm_size m) as Hsz.
  { unfold seg_size, seg_memory. rewrite Hid. simpl. by rewrite lookup_insert_eq. }
  assert (chain_end os_offset (seg_size (w_shared w1)) 0 (o_segmentMap o) <= os_offset seg) as Hend1.
  { rewrite (chain_end_ext_id _ _ os_offset (seg_size (w_shared w))); [done|]. by intros. }
  assert (forall k1 s1, In (k1, s1) (o_segmentMap o) ->
    os_offset s1 + seg_size (w_shared w1) s1 <= os_offset seg) as Hbefore.
  { intros k1 s1 Hin. pose proof (chain_end_In _ _ _ _ _ _ Hc Hin) as Hle. unfold iend in Hle. lia. }
  assert (sm_insert k seg (o_segmentMap o) = o_segmentMap o ++ [(k, seg)]) as Hins.
  { rewrite <- (app_nil_r (o_segmentMap o)) at 1. rewrite sm_insert_app; [done|].
    apply Forall_forall. intros [k1 s1] Hin%list_elem_of_In. unfold less, Z_less. simpl.
    pose proof (chain_In _ _ _ _ _ _ Hc Hin) as (_ & _ & ->). unfold iend. specialize (Hbefore _ _ Hin). lia. }
  split; [|done]. change (share_world w this k o seg id m c)
    with (set_objects (<[this := set_segmentMap (sm_insert k seg (o_segmentMap o)) o]> (w_objects w1)) w1).
  eapply update_obj_ok; [exact Hw1|exact Ho| |].
  - intros i. unfold obj_refs. simpl. rewrite Hins. unfold seg_refs. rewrite omap_app. cbn [omap list_omap snd]. rewrite Hid.
    by rewrite app_nil_r.
  - constructor; cbn [o_segmentMap set_segmentMap o_alignement o_memoryBackend]; try done; rewrite Hins.
    + apply chain_app. split; [done|]. cbn [interval_chain]. unfold iend. rewrite Hsz. split_and!; try done; lia.
    + assert (forall lo mm, chain_end os_offset (seg_size (w_shared w1)) lo (mm ++ [(k, seg)]) = os_offset seg + osm_size m) as ->.
      { intros lo mm. revert lo. induction mm as [|[k1 s1] mm IH]; intros lo; [cbn [chain_end app]; unfold iend; by rewrite Hsz|apply IH]. }
      done.
    + apply Forall_app. split; [done|]. constructor; [by exists id|constructor].
    + apply Forall_app. split; [done|]. by constructor.
Qed.

(** *** Steps of makeFullCopyOnWrite *)

(** The program stops on a check only when the storage reports an error. *)
Inductive storage_error : Prop :=
  | pread_error h hi lo n off (s : S) : 0 <= n < two63 -> (sb_pread h hi lo n off s).1.1 <> n -> storage_error
  | pwrite_error h hi lo l off (s : S) : Z.of_nat (length l) < two63 ->
      (sb_pwrite h hi lo l off s).1 <> Z.of_nat (length l) -> storage_error
  | create_error h hi lo (s : S) : (sb_create h hi lo s).1 <> 0 -> storage_error.
Definition cow_fault (f : fault) : Prop := f = FAssume /\ storage_error.

(** The storage copies a range from one object to another. *)
Lemma wp_makeCowSegment w h hi lo hi' lo' off n :
  0 <= n < two63 ->
  wp cow_fault (makeCowSegment h hi lo hi' lo' off n)
    (fun st w' => st = n /\ exists s, w' = set_store s w /\
       (forall h1 hi1 lo1 x, (h1, hi1, lo1) <> (h, hi', lo') \/ ~ (off <= x < off + n) ->
          sb_contents s h1 hi1 lo1 x = sb_contents (w_store w) h1 hi1 lo1 x) /\
       (forall x, off <= x < off + n ->
          sb_contents s h hi' lo' x = sb_contents (w_store w) h hi lo x)) w.
Proof.
  intros Hn. unfold wp, makeCowSegment. rewrite i64_id by done. set (r := sb_pread _ _ _ _ _ _).
  destruct (r.1.1 =? n) eqn:Er; [|split; [done|]; apply (pread_error h hi lo n off (w_store w) Hn); fold r; lia].
  apply Z.eqb_eq in Er.
  assert (r.1.2 = range_of (sb_contents (w_store w) h hi lo) off n) as Hl by (apply sb_pread_ok; [lia|done]).
  assert (Z.of_nat (length r.1.2) = n) as Hlen by (rewrite Hl, range_of_length; lia).
  rewrite (rd_wr_len _ 0 r.1.2 n) by done. set (r' := sb_pwrite _ _ _ _ _ _).
  destruct (r'.1 =? n) eqn:Er'; [|split; [done|]; apply (pwrite_error h hi' lo' r.1.2 off r.2); [|fold r'; rewrite Hlen]; lia]. apply Z.eqb_eq in Er'. split; [done|]. exists r'.2. split; [done|].
  assert (sb_contents r.2 = sb_contents (w_store w)) as Hf by apply sb_pread_frame. split.
  - intros h1 hi1 lo1 x Hx. unfold r'. rewrite sb_pwrite_frame, Hf by (rewrite Hlen; destruct Hx; [by left|lia]). done.
  - intros x Hx. unfold r'. rewrite sb_pwrite_at by (fold r'; rewrite Hlen; lia). rewrite Hl.
    apply nth_lookup_Some. rewrite range_of_lookup by lia. do 2 f_equal. lia.
Qed.

Lemma pwrite_run w this o buffer size off :
  w_objects w !! this = Some o -> o_storageBackend o <> 0 ->
  exists r, r = sb_pwrite (o_storageBackend o) (id_high (o_objectId o)) (id_low (o_objectId o))
              (rd (w_mem w) buffer size) off (w_store w) /\
    pwrite this buffer size off w = Ok (r.1, set_store r.2 w).
Proof.
  intros Ho Hst. eexists. split; [reflexivity|]. unfold pwrite, bind, get_obj. rewrite Ho.
  destruct (o_storageBackend o =? 0) eqn:E0; [lia|]. done.
Qed.

Section full.
Context (w : W) (this : Z) (o : Object) (target : ObjectId).
Context (Hw : world_ok w [] None) (Ho : w_objects w !! this = Some o) (Hst : o_storageBackend o <> 0).

Abbreviation sz := (seg_size (w_shared w)).
Definition cow_object (m : stdmap Z ObjectSegment) : Object :=
  mkObject target m (o_alignement o) ConsistencyTracker.init (o_storageBackend o) (o_memoryBackend o).

(** The target is not the storage of an object of the cache. *)
Definition target_free : Prop :=
  forall p op, w_objects w !! p = Some op -> storage_key op <> storage_key (cow_object []).
Context (Hfree : target_free).

Definition contents_of (s : S) (ob : Object) (x : Z) : byte :=
  sb_contents s (o_storageBackend ob) (id_high (o_objectId ob)) (id_low (o_objectId ob)) x.

(** What the storage holds when the segments [m] are copied, up to [cursor]. *)
Record cow_store (s : S) (m : stdmap Z ObjectSegment) (cursor : Z) : Prop := {
  cs_other : forall h hi lo x, (h, hi, lo) <> storage_key (cow_object []) ->
    sb_contents s h hi lo x = sb_contents (w_store w) h hi lo x;
  cs_clean : forall k seg x, In (k, seg) m -> os_dirty seg = false -> seg_covers (w_shared w) seg x ->
    contents_of s (cow_object []) x = w_mem w (seg_buffer (w_shared w) seg + (x - os_offset seg));
  cs_gap : forall x, 0 <= x < cursor -> (forall k seg, In (k, seg) m -> ~ seg_covers (w_shared w) seg x) ->
    contents_of s (cow_object []) x = contents_of (w_store w) o x;
}.

Definition cow_addr : Z := w_nextObject w.

(** The invariant of the loop. *)
Record cow_state (m : stdmap Z ObjectSegment) (cursor : Z) (w' : W) : Prop := {
  ct_ok : world_ok w' [] None;
  ct_objs : w_objects w' = <[cow_addr := cow_object m]> (w_objects w);
  ct_mem : w_mem w' = w_mem w;
  ct_env : w_env w' = w_env w;
  ct_shared : forall id, fst <$> w_shared w' !! id = fst <$> w_shared w !! id;
  ct_store : cow_store (w_store w') m cursor;
}.

Lemma cow_same_memory m cursor w' seg : cow_state m cursor w' ->
  seg_size (w_shared w') seg = seg_size (w_shared w) seg /\
  seg_buffer (w_shared w') seg = seg_buffer (w_shared w) seg.
Proof.
  intros Hc. unfold seg_size, seg_buffer.
  by rewrite (seg_memory_ext (w_shared w) (w_shared w')) by (intros; apply (ct_shared _ _ _ Hc)).
Qed.

(** One more piece copied by the storage. *)
Lemma cow_store_gap s s' m cursor n :
  cow_store s m cursor -> 0 <= cursor -> chain_end os_offset sz 0 m <= cursor ->
  interval_chain os_offset sz 0 m ->
  (forall h hi lo x, (h, hi, lo) <> storage_key (cow_object []) \/ ~ (cursor <= x < cursor + n) ->
     sb_contents s' h hi lo x = sb_contents s h hi lo x) ->
  (forall x, cursor <= x < cursor + n -> contents_of s' (cow_object []) x = contents_of s o x) ->
  cow_store s' m (cursor + n).
Proof.
  intros [Hoth Hcl Hg] Hc0 Hend Hch Hfr Hcp. constructor.
  - intros h hi lo x Hk. rewrite Hfr by by left. by apply Hoth.
  - intros k seg x Hin Hd Hx. rewrite <- (Hcl k seg x Hin Hd Hx). unfold contents_of. apply Hfr. right.
    pose proof (chain_end_In _ _ _ _ _ _ Hch Hin). unfold seg_covers, iend in *. lia.
  - intros x Hx Hno. destruct (decide (x < cursor)) as [Hlt|Hge].
    + rewrite <- (Hg x) by (done || lia). unfold contents_of. apply Hfr. right. lia.
    + rewrite Hcp by lia. apply Hoth. exact (Hfree _ _ Ho).
Qed.

(** One more segment shared. *)
Lemma cow_store_seg s s' m cursor k seg :
  cow_store s m cursor -> cursor <= os_offset seg ->
  (forall h hi lo x, (h, hi, lo) <> storage_key (cow_object []) \/ ~ seg_covers (w_shared w) seg x ->
     sb_contents s' h hi lo x = sb_contents s h hi lo x) ->
  (os_dirty seg = false -> forall x, seg_covers (w_shared w) seg x ->
     contents_of s' (cow_object []) x = w_mem w (seg_buffer (w_shared w) seg + (x - os_offset seg))) ->
  (forall k1 s1, In (k1, s1) m -> os_offset s1 + sz s1 <= os_offset seg) ->
  cursor = os_offset seg ->
  cow_store s' (m ++ [(k, seg)]) (os_offset seg + sz seg).
Proof.
  intros [Hoth Hcl Hg] _ Hfr Hcp Hbefore ->. constructor.
  - intros h hi lo x Hk. rewrite Hfr by by left. by apply Hoth.
  - intros k1 s1 x [Hin|[[= <- <-]|[]]]%in_app_iff Hd Hx; [|by apply Hcp].
    rewrite <- (Hcl k1 s1 x Hin Hd Hx). unfold contents_of. apply Hfr. right.
    specialize (Hbefore _ _ Hin). unfold seg_covers in *. lia.
  - intros x Hx Hno. assert (~ seg_covers (w_shared w) seg x) as Hns by (apply (Hno k), in_app_iff; right; by left).
    rewrite <- (Hg x).
    + unfold contents_of. apply Hfr. by right.
    + unfold seg_covers in Hns. lia.
    + intros k1 s1 Hin. apply (Hno k1), in_app_iff. by left.
Qed.

Lemma cow_addr_ne m cursor w' p op : cow_state m cursor w' -> w_objects w !! p = Some op -> p <> cow_addr.
Proof. intros _ Hp ->. destruct (wo_nexto _ _ _ Hw) as [_ Hn]. specialize (Hn cow_addr (ltac:(by eexists))). unfold cow_addr in Hn. lia. Qed.

(** The place of the next segment of the original. *)
Lemma next_segment m k seg rest :
  o_segmentMap o = m ++ (k, seg) :: rest ->
  interval_chain os_offset sz 0 m /\ 0 <= chain_end os_offset sz 0 m <= os_offset seg /\ 0 < sz seg /\
  k = os_offset seg + sz seg - 1 /\ os_offset seg + sz seg < two63 /\ (mp_unit | os_offset seg) /\
  (forall k1 s1, In (k1, s1) m -> os_offset s1 + sz s1 <= os_offset seg) /\
  exists id mm c, os_memory seg = Some id /\ w_shared w !! id = Some (mm, c) /\ sz seg = osm_size mm.
Proof.
  intros Hm. pose proof (wo_objs _ _ _ Hw _ _ Ho) as [Hc He _ Hu _ _].
  assert (In (k, seg) (o_segmentMap o)) as Hin by (rewrite Hm; apply in_or_app; right; by left).
  destruct (seg_live w [] None this o k seg Hw Ho Hin) as (id & mm & c & Hid & _ & Hmm & _ & Hz & _).
  pose proof (chain_end_In _ _ _ _ _ _ Hc Hin) as Hle. unfold iend in Hle.
  rewrite Forall_forall in Hu. specialize (Hu (k, seg) ltac:(by apply list_elem_of_In)). simpl in Hu.
  rewrite Hm in Hc. apply chain_app in Hc as [Hc1 Hc2]. cbn [interval_chain] in Hc2. unfold iend in Hc2.
  destruct Hc2 as (H3 & H4 & H5 & _). pose proof (chain_end_ge _ _ _ _ Hc1).
  split_and!; try done; try lia.
  - intros k1 s1 Hin1. pose proof (chain_end_In _ _ _ _ _ _ Hc1 Hin1). unfold iend in *. lia.
  - by exists id, mm, c.
Qed.

(** The copy of the gap before a segment. *)
Lemma wp_cow_gap m k seg rest w' :
  o_segmentMap o = m ++ (k, seg) :: rest -> cow_state m (chain_end os_offset sz 0 m) w' ->
  let cursor := chain_end os_offset sz 0 m in
  wp cow_fault
    (if cursor <? os_offset seg then
       let copySize := os_offset seg -u cursor in
       (if o_storageBackend o =? 0 then abort FNullPointer else ret tt) ;;
       let! status := makeCowSegment (o_storageBackend o) (id_high (o_objectId o)) (id_low (o_objectId o))
                        (id_high target) (id_low target) cursor copySize in
       assume_ (status =? i64 copySize)
     else ret tt)
    (fun _ w1 => cow_state m (os_offset seg) w1) w'.
Proof.
  intros Hm Hc cursor. destruct (next_segment m k seg rest Hm) as (Hch & Hcur & Hz & _ & Hend & _).
  fold cursor in Hc, Hcur. pose proof two63_two64.
  destruct (cursor <? os_offset seg) eqn:Eg; last first.
  { apply wp_ret. replace (os_offset seg) with cursor by lia. done. }
  cbv zeta. rewrite u64_small by lia. destruct (o_storageBackend o =? 0) eqn:E0; [lia|].
  apply wp_bind, wp_ret, wp_bind. eapply wp_mono; [apply wp_makeCowSegment; lia|].
  intros st w1 (-> & s & -> & Hfr & Hcp). rewrite i64_id by lia. apply wp_guard; [lia|].
  destruct Hc as [Hok Hob Hme Hen Hsh Hs]. constructor; simpl; try done.
  - by apply world_ok_store.
  - replace (os_offset seg) with (cursor + (os_offset seg - cursor)) by lia.
    eapply cow_store_gap; try done; lia.
Qed.

Lemma wp_cow_step m k seg rest w' :
  o_segmentMap o = m ++ (k, seg) :: rest -> cow_state m (chain_end os_offset sz 0 m) w' ->
  wp cow_fault (fullCowSegment o target cow_addr (chain_end os_offset sz 0 m) k seg)
    (fun c w1 => c = chain_end os_offset sz 0 (m ++ [(k, seg)]) /\ cow_state (m ++ [(k, seg)]) c w1) w'.
Proof.
  intros Hm Hc0. destruct (next_segment m k seg rest Hm) as (Hch & Hcur & Hz & Hk & Hend & Hu & Hbef & id & mm & c & Hid & Hmm & Hsz).
  unfold fullCowSegment. apply wp_bind. eapply wp_mono; [by eapply wp_cow_gap|]. clear w' Hc0. intros [] w' Hc. cbn beta in Hc |- *.
  pose proof (ct_objs _ _ _ Hc) as Hobj. pose proof (ct_ok _ _ _ Hc) as Hok.
  assert (exists c', w_shared w' !! id = Some (mm, c')) as [c' Hmm'].
  { pose proof (ct_shared _ _ _ Hc id) as Hf. rewrite Hmm in Hf. simpl in Hf.
    destruct (w_shared w' !! id) as [[m1 c1]|]; [|done]. injection Hf as ->. by exists c1. }
  assert (w_objects w' !! cow_addr = Some (cow_object m)) as Hcow by (rewrite Hobj; apply lookup_insert_eq).
  assert (sm_find k m = None) as Hfind.
  { destruct (sm_find k m) as [s0|] eqn:Ef; [|done]. apply (sm_find_In _ _ _ (chain_sorted _ _ _ _ Hch)) in Ef.
    pose proof (chain_In _ _ _ _ _ _ Hch Ef) as (_ & _ & Hk0). specialize (Hbef _ _ Ef). unfold iend in Hk0. lia. }
  eapply wp_bind, wp_of_Ok; [exact (share_exec w' cow_addr k _ seg id mm c' Hcow Hfind Hid Hmm')|].
  set (w2 := share_world w' cow_addr k (cow_object m) seg id mm c').
  destruct (share_ok w' cow_addr k (cow_object m) seg id mm c') as [Hok2 Hins]; try done; try lia.
  { simpl. rewrite (chain_end_ext_id _ _ os_offset sz); [lia|]. intros. split; [done|]. by apply (cow_same_memory m (os_offset seg) w'). }
  simpl in Hins. fold w2 in Hok2.
  assert (w_objects w2 = <[cow_addr := cow_object (m ++ [(k, seg)])]> (w_objects w)) as Hobj2.
  { unfold w2, share_world. simpl. rewrite Hins, Hobj, insert_insert_eq. done. }
  assert (forall i, fst <$> w_shared w2 !! i = fst <$> w_shared w !! i) as Hsh2.
  { intros i. rewrite <- (ct_shared _ _ _ Hc i). simpl. destruct (decide (i = id)) as [->|Hne];
      [by rewrite lookup_insert_eq, Hmm'|by rewrite lookup_insert_ne]. }
  assert (chain_end os_offset sz 0 (m ++ [(k, seg)]) = os_offset seg + sz seg) as Hce.
  { generalize 0. clear. induction m as [|[k1 s1] m IH]; intros lo; [done|apply IH]. }
  assert (get_segment cow_addr k w2 = Ok (seg, w2)) as Hget.
  { unfold get_segment, bind, get_obj. rewrite Hobj2, lookup_insert_eq. simpl.
    rewrite <- Hins, sm_find_insert_eq. done. }
  wp_run Hget.
  assert (shared_get (Some id) w2 = Ok (mm, w2)) as Hsg by (unfold shared_get; simpl; by rewrite lookup_insert_eq).
  assert (getSize seg w2 = Ok (osm_size mm, w2)) as Hgs by (unfold getSize, bind; by rewrite Hid, Hsg).
  assert (getBuffer seg w2 = Ok (osm_buffer mm, w2)) as Hgb by (unfold getBuffer, bind; by rewrite Hid, Hsg).
  assert (seg_buffer (w_shared w) seg = osm_buffer mm) as Hbuf.
  { unfold seg_buffer, seg_memory. rewrite Hid. simpl. by rewrite Hmm. }
  apply wp_bind, wp_mono with (P := fun _ w3 => exists s, w3 = set_store s w2 /\ cow_store s (m ++ [(k, seg)]) (os_offset seg + sz seg)).
  - destruct (os_dirty seg) eqn:Ed.
    + apply wp_ret. exists (w_store w2). split; [by destruct w2|].
      eapply cow_store_seg; [exact (ct_store _ _ _ Hc)|lia|done|congruence|done|done].
    + wp_run Hgb. wp_run Hgs. destruct (pwrite_run w2 cow_addr (cow_object (m ++ [(k, seg)])) (osm_buffer mm) (osm_size mm) (os_offset seg)) as (r & Hr & Hpw).
      { rewrite Hobj2. apply lookup_insert_eq. } { done. }
      wp_run Hpw. unfold wp, assume_, guard_. rewrite i64_id by lia.
      assert (Z.of_nat (length (rd (w_mem w2) (osm_buffer mm) (osm_size mm))) = osm_size mm) as Hlen by (apply rd_length; lia).
      destruct (r.1 =? osm_size mm) eqn:Er; [|split; [done|]; eapply pwrite_error; [rewrite Hlen; lia|]; rewrite <- Hr, Hlen; lia]. exists r.2. split; [done|]. apply Z.eqb_eq in Er.
      assert (w_mem w2 = w_mem w) as Hmem by exact (ct_mem _ _ _ Hc).
      eapply cow_store_seg; [exact (ct_store _ _ _ Hc)|lia| | |done|done].
      * intros h hi lo x Hx. rewrite Hr. rewrite sb_pwrite_frame; [done|]. rewrite Hlen.
        destruct Hx as [Hx|Hx]; [by left|]. right. unfold seg_covers in Hx. lia.
      * intros _ x Hx. unfold contents_of. simpl. unfold seg_covers in Hx. rewrite Hr in Er |- *.
        rewrite sb_pwrite_at by (rewrite Hlen; done || lia).
        apply nth_lookup_Some. rewrite rd_lookup by lia. rewrite Hmem, Hbuf. do 2 f_equal. lia.
  - intros _ w3 (s & -> & Hs). cbn beta.
    assert (getSize seg (set_store s w2) = Ok (osm_size mm, set_store s w2)) as Hgs3.
    { unfold getSize, bind, shared_get. rewrite Hid. simpl. by rewrite lookup_insert_eq. }
    wp_run Hgs3. apply wp_ret. pose proof two63_two64. rewrite u64_small by lia. split; [lia|].
    rewrite <- Hsz. constructor; [by apply world_ok_store|done|exact (ct_mem _ _ _ Hc)|exact (ct_env _ _ _ Hc)|done|done].
Qed.

(** The loop over the segments. *)
Lemma wp_cow_loop w' :
  cow_state [] 0 w' ->
  wp cow_fault (fold_m (fun cursor '(k, it) => fullCowSegment o target cow_addr cursor k it) 0 (o_segmentMap o))
    (fun _ w1 => cow_state (o_segmentMap o) (chain_end os_offset sz 0 (o_segmentMap o)) w1) w'.
Proof.
  intros Hc. eapply wp_mono.
  - apply (wp_fold_m _ (fun rest cursor w1 => exists m, o_segmentMap o = m ++ rest /\
      cursor = chain_end os_offset sz 0 m /\ cow_state m cursor w1)).
    + by exists [].
    + intros [k seg] rest cursor w1 (m & Hm & -> & Hs). eapply wp_mono; [by eapply wp_cow_step|].
      intros c w2 [Hc2 Hs2]. exists (m ++ [(k, seg)]). split; [by rewrite <- app_assoc|]. done.
  - intros c w1 (m & Hm & -> & Hs). rewrite app_nil_r in Hm. by rewrite Hm.
Qed.

(** The contents of the copy. *)
Lemma cow_view_eq w' x :
  let m := o_segmentMap o in
  cow_state m (chain_end os_offset sz 0 m) w' -> 0 <= x < chain_end os_offset sz 0 m ->
  obj_view w' (cow_object m) x = obj_view w o x.
Proof.
  intros m Hc Hx. pose proof (wo_objs _ _ _ Hw _ _ Ho) as Hok.
  assert (w_objects w' !! cow_addr = Some (cow_object m)) as Hcow by (rewrite (ct_objs _ _ _ Hc); apply lookup_insert_eq).
  pose proof (wo_objs _ _ _ (ct_ok _ _ _ Hc) _ _ Hcow) as Hok'.
  destruct (cover_cases _ _ _ x Hok) as [(k & seg & Hin & Hs)|Hno].
  - destruct (cow_same_memory _ _ _ seg Hc) as [Hz Hb].
    rewrite (view_in _ _ w o k seg x eq_refl Hok Hin Hs).
    rewrite (view_in _ _ w' (cow_object m) k seg x eq_refl Hok' Hin); [by rewrite Hb, (ct_mem _ _ _ Hc)|].
    unfold seg_covers in *. by rewrite Hz.
  - rewrite (view_out _ _ _ _ Hok Hno). rewrite (view_out _ _ _ _ Hok').
    + unfold stored. simpl. destruct (o_storageBackend o =? 0); [done|]. f_equal.
      by apply (cs_gap _ _ _ (ct_store _ _ _ Hc)).
    + intros k seg Hin Hs. destruct (cow_same_memory _ _ _ seg Hc) as [Hz _]. apply (Hno k seg Hin).
      unfold seg_covers in *. by rewrite <- Hz.
Qed.

(** The clean segments of the copy are in the storage. *)
Lemma cow_clean w' :
  let m := o_segmentMap o in
  cow_state m (chain_end os_offset sz 0 m) w' -> clean_ok w' (cow_object m).
Proof.
  intros m Hc k seg x Hin Hd Hx. destruct (cow_same_memory _ _ _ seg Hc) as [Hz Hb].
  assert (seg_covers (w_shared w) seg x) as Hx0 by (unfold seg_covers in *; by rewrite <- Hz).
  rewrite cow_view_eq; [|done|].
  - rewrite (view_in _ _ w o k seg x eq_refl (wo_objs _ _ _ Hw _ _ Ho) Hin Hx0). unfold stored. simpl.
    destruct (o_storageBackend o =? 0) eqn:E0; [lia|]. f_equal. by apply (cs_clean _ _ _ (ct_store _ _ _ Hc) k).
  - pose proof (ok_chain _ _ _ (wo_objs _ _ _ Hw _ _ Ho)) as Hch.
    pose proof (chain_end_In _ _ _ _ _ _ Hch Hin) as H3. pose proof (chain_In _ _ _ _ _ _ Hch Hin) as H4.
    subst m. unfold iend in *. unfold seg_covers in Hx0. lia.
Qed.

(** The other objects. *)
Lemma cow_others m cursor w' : cow_state m cursor w' -> view_le (fun _ _ => False) w w'.
Proof.
  intros Hc p op Hp. exists op. assert (p <> cow_addr) as Hne by by eapply cow_addr_ne.
  split; [rewrite (ct_objs _ _ _ Hc); by rewrite lookup_insert_ne|]. split; [apply same_meta_refl|].
  intros x b _ <-. eapply obj_view_ext; [exact Hw|exact Hp| | |].
  - intros id _. apply (ct_shared _ _ _ Hc).
  - intros. by rewrite (ct_mem _ _ _ Hc).
  - intros y. unfold stored. case_match; [done|]. f_equal.
    apply (cs_other _ _ _ (ct_store _ _ _ Hc)). exact (Hfree _ _ Hp).
Qed.

(** The new object, before the loop. *)
Lemma wp_cow_start allowExist :
  wp cow_fault (let! cow := new_object (o_storageBackend o) (o_memoryBackend o) target (o_alignement o) in
                let! createStatus := create cow in
                assume_ ((createStatus =? 0) || allowExist) ;; ret cow)
    (fun cow w' => cow = cow_addr /\ cow_state [] 0 w') w.
Proof.
  unfold new_object. apply wp_bind. unfold wp at 1. fold cow_addr. fold (cow_object []).
  pose proof (wo_objs _ _ _ Hw _ _ Ho) as Hok.
  assert (obj_ok (w_shared w) (w_env w) (cow_object [])) as Hnew.
  { destruct Hok as [_ _ _ _ Ha Hb]. pose proof two63_two64. constructor; simpl; try done; lia. }
  pose proof (new_obj_ok w [] None (cow_object []) Hw eq_refl Hnew) as Hw1. fold cow_addr in Hw1.
  set (w1 := bump_object _) in *.
  unfold create, bind at 1, bind at 1, get_obj, wp. simpl. rewrite lookup_insert_eq. simpl.
  destruct (o_storageBackend o =? 0) eqn:E0; [lia|]. set (r := sb_create _ _ _ _).
  unfold assume_, guard_, bind. destruct ((r.1 =? 0) || allowExist) eqn:Er.
  - split; [done|]. constructor; [by apply world_ok_store|done|done|done|done|]. constructor; [|done|lia].
    intros h hi lo x Hk. unfold r. simpl. by rewrite sb_create_frame.
  - apply orb_false_iff in Er as [Er _]. split; [done|]. apply (create_error (o_storageBackend o) (id_high target) (id_low target) (w_store w1)). fold r. lia.
Qed.

Lemma wp_fullCow allowExist :
  wp cow_fault (makeFullCopyOnWrite this target allowExist)
    (fun cow w' => cow = cow_addr /\
       cow_state (o_segmentMap o) (chain_end os_offset sz 0 (o_segmentMap o)) w') w.
Proof.
  unfold makeFullCopyOnWrite. apply wp_bind. unfold wp at 1, get_obj. rewrite Ho.
  pose proof (wp_cow_start allowExist) as Hstart. revert Hstart.
  unfold wp, bind. destruct (new_object _ _ _ _ _) as [[cow w1]|f]; [|done].
  destruct (create cow w1) as [[st w2]|f]; [|done]. destruct (assume_ _ w2) as [[[] w3]|f]; [|done]. simpl.
  intros [-> Hs]. pose proof (wp_cow_loop w3 Hs) as Hloop. revert Hloop.
  unfold wp. by destruct (fold_m _ _ _ w3) as [[c w4]|f].
Qed.

Lemma cow_addr_fresh : w_objects w !! cow_addr = None.
Proof. apply eq_None_not_Some. intros Hx%(proj2 (wo_nexto _ _ _ Hw)). unfold cow_addr in Hx. lia. Qed.
End full.

(** a full copy on write makes a new object that has the segments of the
    original and shares their memory, and shows the same contents up to the end
    of the last of them; the clean segments are in the storage of the copy, no
    content of the cache changes, and the function stops only when the storage
    reports an error. *)
Theorem makeFullCopyOnWrite_correct w this o target allowExist :
  world_ok w [] None -> w_objects w !! this = Some o -> o_storageBackend o <> 0 -> target_free w o target ->
  wp cow_fault (makeFullCopyOnWrite this target allowExist)
    (fun cow w' => world_ok w' [] None /\ w_objects w !! cow = None /\ view_le (fun _ _ => False) w w' /\
       exists oc, w_objects w' !! cow = Some oc /\ o_objectId oc = target /\
         o_segmentMap oc = o_segmentMap o /\ clean_ok w' oc /\
         forall x, 0 <= x < chain_end os_offset (seg_size (w_shared w)) 0 (o_segmentMap o) ->
           obj_view w' oc x = obj_view w o x) w.
Proof.
  intros Hw Ho Hst Hfree. eapply wp_mono; [by eapply wp_fullCow|]. intros cow w' [-> Hs]. cbn beta.
  split; [apply (ct_ok _ _ _ _ _ _ Hs)|]. split; [by apply cow_addr_fresh|].
  split; [by eapply cow_others|]. exists (cow_object o target (o_segmentMap o)).
  split; [rewrite (ct_objs _ _ _ _ _ _ Hs); apply lookup_insert_eq|]. split; [done|]. split; [done|].
  split; [by eapply cow_clean|]. intros x Hx. by eapply cow_view_eq.
Qed.

(** what is not in the cache after the last segment is not copied: the full
    copy of an object with no segment leaves the storage of the target as
    [create] leaves it. *)
Theorem makeFullCopyOnWrite_drops_tail w this o target :
  w_objects w !! this = Some o -> o_segmentMap o = [] -> o_storageBackend o <> 0 ->
  wp never (makeFullCopyOnWrite this target true)
    (fun cow w' => exists oc, w_objects w' !! cow = Some oc /\ o_segmentMap oc = [] /\
       w_store w' = (sb_create (o_storageBackend o) (id_high target) (id_low target) (w_store w)).2) w.
Proof.
  intros Ho Hm Hst. unfold makeFullCopyOnWrite, wp, bind, get_obj. rewrite Ho. unfold new_object.
  unfold create, bind, get_obj. simpl. rewrite lookup_insert_eq. simpl.
  destruct (o_storageBackend o =? 0) eqn:E0; [lia|]. unfold assume_, guard_. rewrite orb_true_r, Hm. simpl.
  eexists. split; [apply lookup_insert_eq|]. done.
Qed.

(** *** Copy on write of a range *)
Section range.
Context (w : W) (this orig : Z) (o oo : Object) (offset size : Z).
Context (Hw : world_ok w [] None) (Ho : w_objects w !! this = Some o) (Hoo : w_objects w !! orig = Some oo).
Context (Hne : this <> orig) (Hempty : o_segmentMap o = []).
Context (Hoff : 0 <= offset) (Hsize : 0 <= size) (Hend : offset + size < two63).

(** The range cuts no segment of the original. *)
Definition uncut : Prop := forall k seg, In (k, seg) (o_segmentMap oo) ->
  os_offset seg < offset + size -> offset < os_offset seg + seg_size (w_shared w) seg ->
  offset <= os_offset seg /\ os_offset seg + seg_size (w_shared w) seg <= offset + size.
Context (Huncut : uncut).

Record range_state (m : stdmap Z ObjectSegment) (w' : W) : Prop := {
  rs_ok : world_ok w' [] None;
  rs_objs : w_objects w' = <[this := set_segmentMap m o]> (w_objects w);
  rs_mem : w_mem w' = w_mem w;
  rs_env : w_env w' = w_env w;
  rs_shared : forall id, fst <$> w_shared w' !! id = fst <$> w_shared w !! id;
  rs_store : w_store w' = w_store w;
}.

Lemma range_same_memory m w' seg : range_state m w' ->
  seg_size (w_shared w') seg = seg_size (w_shared w) seg /\
  seg_buffer (w_shared w') seg = seg_buffer (w_shared w) seg.
Proof.
  intros Hc. unfold seg_size, seg_buffer.
  by rewrite (seg_memory_ext (w_shared w) (w_shared w')) by (intros; apply (rs_shared _ _ Hc)).
Qed.

Lemma range_start : range_state [] w.
Proof.
  constructor; try done. rewrite insert_id; [done|]. rewrite Ho. f_equal. rewrite <- Hempty. by destruct o.
Qed.

Lemma range_orig m w' : range_state m w' -> w_objects w' !! orig = Some oo.
Proof. intros Hc. by rewrite (rs_objs _ _ Hc), lookup_insert_ne. Qed.

(** One segment of the original. *)
Lemma range_step m w' k seg :
  range_state m w' -> In (k, seg) (o_segmentMap oo) ->
  (forall k1 s1, In (k1, s1) m -> In (k1, s1) (o_segmentMap oo) /\ k1 < k) ->
  offset <= os_offset seg -> os_offset seg + seg_size (w_shared w) seg <= offset + size ->
  exists w1, rangeCopyOnWriteSegment this orig k offset size w' = Ok (tt, w1) /\ range_state (m ++ [(k, seg)]) w1.
Proof.
  intros Hc Hin Hbef Hlo Hhi. pose proof two63_two64. pose proof (wo_objs _ _ _ Hw _ _ Hoo) as Hok.
  pose proof (range_orig _ _ Hc) as Hoo'. pose proof (rs_ok _ _ Hc) as Hw'.
  destruct (seg_live w' [] None orig oo k seg Hw' Hoo' Hin) as (id & mm & c & Hid & _ & Hmm & _ & Hsz & Hz & _).
  pose proof (proj1 (range_same_memory m w' seg Hc)) as Hsame. rewrite Hsz in Hsame. rewrite <- Hsame in Hhi.
  assert (sm_find k (o_segmentMap oo) = Some seg) as Hf.
  { apply sm_find_In; [|done]. eapply chain_sorted, ok_chain, Hok. }
  destruct (segment_facts w' [] None orig oo k seg Hw' Hoo' Hf) as (_ & Hget & Hlt & Hge & Hk). rewrite Hsz in *.
  assert (getSize seg w' = Ok (osm_size mm, w')) as Hgs by (unfold getSize, bind, shared_get; by rewrite Hid, Hmm).
  assert (w_objects w' !! this = Some (set_segmentMap m o)) as Ht by (rewrite (rs_objs _ _ Hc); apply lookup_insert_eq).
  assert (forall k1 s1, In (k1, s1) m -> k1 < os_offset seg /\ os_offset s1 + seg_size (w_shared w') s1 <= os_offset seg) as Hb.
  { intros k1 s1 Hin1. destruct (Hbef _ _ Hin1) as [Hin2 Hlt2].
    pose proof (chain_In _ _ _ _ _ _ (ok_chain _ _ _ Hok) Hin2) as (_ & ? & Hk1). unfold iend in Hk1.
    destruct (range_same_memory m w' s1 Hc) as [-> _].
    destruct (chain_disjoint _ _ _ _ _ _ _ _ (ok_chain _ _ _ Hok) Hin2 Hin) as [[= -> ->]|[Hd|Hd]]; unfold iend in *; lia. }
  assert (sm_lower_bound (os_offset seg) m = []) as Hlb.
  { clear - Hb. assert (forall k1 s1, In (k1, s1) m -> k1 < os_offset seg) as Hb' by (intros; eapply Hb; eauto). clear Hb.
    induction m as [|[k1 s1] m IH]; [done|]. simpl. unfold less, Z_less.
    pose proof (Hb' k1 s1 (or_introl eq_refl)). destruct (k1 <? os_offset seg) eqn:E1; [|lia].
    apply IH. intros. eapply Hb'. right. eauto. }
  assert (sm_find k m = None) as Hfind.
  { destruct (sm_find k m) as [s0|] eqn:Ef; [|done].
    assert (sm_ok m) as Hs by (eapply chain_sorted, (ok_chain _ _ _ (wo_objs _ _ _ Hw' _ _ Ht))).
    apply (sm_find_In _ _ _ Hs) in Ef. destruct (Hbef _ _ Ef). lia. }
  exists (share_world w' this k (set_segmentMap m o) seg id mm c). split.
  - unfold rangeCopyOnWriteSegment, bind at 1. rewrite Hget. unfold bind at 1. rewrite Hgs. cbv zeta.
    destruct (os_offset seg <? offset) eqn:E1; [lia|]. rewrite (u64_small (offset + size)), (u64_small (os_offset seg + osm_size mm)) by lia.
    destruct (offset + size <? os_offset seg + osm_size mm) eqn:E2; [lia|]. unfold bind at 1, get_obj. rewrite Ht.
    cbn [set_segmentMap o_segmentMap]. rewrite Hlb. unfold bind at 1, ret at 1. simpl orb. cbn iota.
    replace (os_offset seg + osm_size mm - 1) with k by lia. rewrite (u64_small k) by lia. by apply share_exec.
  - destruct (share_ok w' this k (set_segmentMap m o) seg id mm c) as [Hok2 Hins]; try done.
    + simpl. assert (forall lo, lo <= os_offset seg -> chain_end os_offset (seg_size (w_shared w')) lo m <= os_offset seg) as Hce; [|apply Hce; lia].
      clear - Hb. induction m as [|[k1 s1] m IH]; intros lo Hlo; [done|]. simpl. apply IH; [intros; eapply Hb; right; eauto|].
      apply (Hb k1 s1). by left.
    + pose proof (ok_unit _ _ _ Hok) as Hu. rewrite Forall_forall in Hu. by apply (Hu (k, seg)), list_elem_of_In.
    + simpl in Hins. constructor; [done| |exact (rs_mem _ _ Hc)|exact (rs_env _ _ Hc)| |exact (rs_store _ _ Hc)].
      * unfold share_world. simpl. by rewrite Hins, (rs_objs _ _ Hc), insert_insert_eq.
      * intros i. rewrite <- (rs_shared _ _ Hc i). simpl. destruct (decide (i = id)) as [->|Hn];
          [by rewrite lookup_insert_eq, Hmm|by rewrite lookup_insert_ne].
Qed.

Lemma next_key_spec (pre rest : stdmap Z ObjectSegment) k seg :
  sm_ok (pre ++ (k, seg) :: rest) -> next_key k (pre ++ (k, seg) :: rest) = fst <$> head rest.
Proof.
  induction pre as [|[k1 s1] pre IH].
  - intros [_ Hall]%sm_ok_cons. unfold next_key. simpl. unfold less, Z_less.
    destruct (k <? k + 1) eqn:E1; [|lia]. destruct rest as [|[k2 s2] rest]; [done|]. simpl.
    apply Forall_cons in Hall as [Hlt _]. unfold less, Z_less in *. simpl in Hlt. destruct (k2 <? k + 1) eqn:E2; [lia|done].
  - cbn [app]. intros [Hok Hall]%sm_ok_cons. rewrite <- IH by done. unfold next_key. cbn [sm_lower_bound].
    apply Forall_app in Hall as [_ [Hlt _]%Forall_cons]. unfold less, Z_less in *. simpl in Hlt.
    destruct (k1 <? k + 1) eqn:E2; [done|lia].
Qed.

(** The loop from the segment at the head of [rest]. *)
Lemma range_loop fuel pre rest m w' :
  (length rest <= fuel)%nat -> o_segmentMap oo = pre ++ rest -> range_state m w' ->
  (forall k seg, In (k, seg) m -> In (k, seg) pre) ->
  (forall k seg, In (k, seg) rest -> offset < os_offset seg + seg_size (w_shared w) seg) ->
  exists w1 m1, cow_loop fuel this orig offset size (fst <$> head rest) w' = Ok (tt, w1) /\ range_state m1 w1 /\
    forall k seg, In (k, seg) m1 <-> In (k, seg) m \/ (In (k, seg) rest /\ os_offset seg < offset + size).
Proof.
  pose proof (wo_objs _ _ _ Hw _ _ Hoo) as Hok. pose proof (ok_chain _ _ _ Hok) as Hch.
  revert pre rest m w'. induction fuel as [|fuel IH]; intros pre rest m w' Hlen Hm Hc Hpre Hafter.
  { destruct rest; [|simpl in Hlen; lia]. exists w', m. split; [done|]. split; [done|]. simpl. tauto. }
  destruct rest as [|[k seg] rest]; [exists w', m; split; [done|]; split; [done|]; simpl; tauto|].
  assert (In (k, seg) (o_segmentMap oo)) as Hin by (rewrite Hm; apply in_or_app; right; by left).
  pose proof (range_orig _ _ Hc) as Hoo'. pose proof (rs_ok _ _ Hc) as Hw'.
  assert (sm_find k (o_segmentMap oo) = Some seg) as Hf by (apply sm_find_In; [by eapply chain_sorted|done]).
  destruct (segment_facts w' [] None orig oo k seg Hw' Hoo' Hf) as (_ & Hget & _).
  pose proof (overlap_run w' [] None orig oo k seg offset size Hw' Hoo' Hin Hoff Hsize Hend) as Hov.
  rewrite (proj1 (range_same_memory m w' seg Hc)) in Hov.
  pose proof (Hafter k seg (or_introl eq_refl)) as Ha. replace (offset <? _) with true in Hov by lia. rewrite andb_true_r in Hov.
  cbn [head fmap option_fmap option_map fst cow_loop]. unfold bind at 1. rewrite Hget. unfold bind at 1. rewrite Hov.
  rewrite Hm in Hch. apply chain_app in Hch as [Hc1 Hc2]. cbn [interval_chain] in Hc2. destruct Hc2 as (Hlo & Hz & Hk & Hc2).
  destruct (os_offset seg <? offset + size) eqn:Elt; last first.
  { exists w', m. split; [done|]. split; [done|]. intros k1 s1. split; [tauto|]. intros [?|[[[= <- <-]|Hin1] Hlt]]; [done|lia|].
    pose proof (chain_In _ _ _ _ _ _ Hc2 Hin1) as (? & _). unfold iend in *. lia. }
  destruct (Huncut k seg Hin ltac:(lia) Ha) as [Hu1 Hu2].
  destruct (range_step m w' k seg Hc Hin) as (w2 & Hrun & Hc'); try done.
  { intros k1 s1 Hin1%Hpre. split; [rewrite Hm; apply in_or_app; by left|].
    pose proof (chain_In _ _ _ _ _ _ Hc1 Hin1) as (_ & _ & ->). pose proof (chain_end_In _ _ _ _ _ _ Hc1 Hin1). unfold iend in *. lia. }
  unfold bind at 1. rewrite Hrun. unfold bind, get_obj. rewrite (range_orig _ _ Hc').
  assert (sm_ok (o_segmentMap oo)) as Hsort by (eapply chain_sorted, ok_chain, Hok).
  rewrite Hm in Hsort |- *. rewrite next_key_spec by done.
  destruct (IH (pre ++ [(k, seg)]) rest (m ++ [(k, seg)]) w2) as (w3 & m3 & Hrun3 & Hc3 & Hm3); try done.
  - simpl in Hlen. lia.
  - by rewrite <- app_assoc.
  - intros k1 s1. rewrite !in_app_iff. intros [?|?]; auto.
  - intros k1 s1 Hin1. apply (Hafter k1). by right.
  - exists w3, m3. split; [done|]. split; [done|]. intros k1 s1. rewrite Hm3, in_app_iff. simpl.
    intuition (simplify_eq; auto; lia).
Qed.

Lemma range_run :
  exists w1 m1, rangeCopyOnWrite this orig offset size w = Ok (tt, w1) /\ range_state m1 w1 /\
    forall k seg, In (k, seg) m1 <-> In (k, seg) (o_segmentMap oo) /\
      os_offset seg < offset + size /\ offset < os_offset seg + seg_size (w_shared w) seg.
Proof.
  pose proof (wo_objs _ _ _ Hw _ _ Hoo) as Hok.
  destruct (chain_lower_bound _ _ _ _ offset (ok_chain _ _ _ Hok)) as (pre & Hm & Hpre & Hge).
  rewrite Forall_forall in Hpre. rewrite Forall_forall in Hge. unfold iend in *.
  assert (exists w1 m1, rangeCopyOnWrite this orig offset size w = Ok (tt, w1) /\ range_state m1 w1 /\
    forall k seg, In (k, seg) m1 <-> In (k, seg) (sm_lower_bound offset (o_segmentMap oo)) /\ os_offset seg < offset + size)
    as (w1 & m1 & Hrun & Hc & Hm1); last first.
  { exists w1, m1. split; [done|]. split; [done|]. intros k seg. rewrite Hm1. rewrite Hm at 2. rewrite in_app_iff. split.
    - intros [Hin Hlt]. split; [by right|]. split; [done|]. by apply list_elem_of_In, Hge in Hin.
    - intros ([Hin|Hin] & ? & ?); [|done]. apply list_elem_of_In, Hpre in Hin. simpl in Hin. lia. }
  unfold rangeCopyOnWrite, bind at 1, get_obj. rewrite Hoo.
  pose proof (range_start) as Hc0. set (fuel := (2 * length (o_segmentMap oo) + 4)%nat).
  assert (length (sm_lower_bound offset (o_segmentMap oo)) <= fuel)%nat as Hfuel.
  { unfold fuel. rewrite Hm at 2. rewrite length_app. lia. }
  set (lb := sm_lower_bound offset (o_segmentMap oo)) in *.
  assert (forall k seg, In (k, seg) lb -> offset < os_offset seg + seg_size (w_shared w) seg) as Hafter.
  { intros k seg Hin%list_elem_of_In. apply (Hge (k, seg) Hin). }
  destruct (range_loop fuel pre lb [] w Hfuel Hm Hc0)
    as (w1 & m1 & Hrun & Hc & Hm1); [done|done|].
  destruct lb as [|[k seg] rest] eqn:Elb.
  { exists w, []. split; [done|]. split; [done|]. simpl. tauto. }
  assert (In (k, seg) (o_segmentMap oo)) as Hin by (rewrite Hm; apply in_or_app; right; by left).
  unfold bind at 1. rewrite (overlap_run w [] None orig oo k seg offset size Hw Hoo Hin Hoff Hsize Hend).
  pose proof (Hafter k seg (or_introl eq_refl)). replace (offset <? _) with true by lia. rewrite andb_true_r.
  destruct (os_offset seg <? offset + size) eqn:Elt.
  - exists w1, m1. split; [done|]. split; [done|]. intros k1 s1. rewrite Hm1. simpl. tauto.
  - pose proof (ok_chain _ _ _ Hok) as Hch. rewrite Hm in Hch. apply chain_app in Hch as [_ Hch].
    cbn [interval_chain] in Hch. destruct Hch as (_ & Hz & _ & Hch). unfold iend in Hch.
    assert (forall k1 s1, In (k1, s1) ((k, seg) :: rest) -> offset + size <= os_offset s1) as Hfar.
    { intros k1 s1 [[= <- <-]|Hin1]; [lia|]. pose proof (chain_In _ _ _ _ _ _ Hch Hin1). lia. }
    destruct (range_loop fuel (pre ++ [(k, seg)]) rest [] w)
      as (w2 & m2 & Hrun2 & Hc2 & Hm2); try done.
    { simpl in Hfuel. lia. } { by rewrite <- app_assoc. } { intros k1 s1 Hin1. apply (Hafter k1). by right. }
    exists w2, m2. split; [by destruct rest as [|[? ?] ?]|]. split; [done|]. intros k1 s1. rewrite Hm2. simpl.
    split; [tauto|]. intros [Hin1 Hlt]. specialize (Hfar k1 s1 Hin1). lia.
Qed.
End range.

(** the copy on write of a range that cuts no segment, into an object with
    no segment, terminates without error; the destination then has exactly the
    segments of the original that meet the range, shows their contents, and no
    content of another object changes. *)
Theorem rangeCopyOnWrite_correct w this orig o oo offset size :
  world_ok w [] None -> w_objects w !! this = Some o -> w_objects w !! orig = Some oo -> this <> orig ->
  o_segmentMap o = [] -> 0 <= offset -> 0 <= size -> offset + size < two63 -> uncut w oo offset size ->
  wp never (rangeCopyOnWrite this orig offset size)
    (fun _ w' => world_ok w' [] None /\ w_store w' = w_store w /\ w_mem w' = w_mem w /\
       (forall p, p <> this -> w_objects w' !! p = w_objects w !! p) /\
       exists o', w_objects w' !! this = Some o' /\ same_meta o o' /\
         (forall k seg, In (k, seg) (o_segmentMap o') <-> In (k, seg) (o_segmentMap oo) /\
            os_offset seg < offset + size /\ offset < os_offset seg + seg_size (w_shared w) seg) /\
         forall k seg x, In (k, seg) (o_segmentMap o') -> seg_covers (w_shared w) seg x ->
           obj_view w' o' x = obj_view w oo x) w.
Proof.
  intros Hw Ho Hoo Hne Hempty Hoff Hsize Hend Hun. pose proof (wo_objs _ _ _ Hw _ _ Hoo) as Hok.
  destruct (range_run w this orig o oo offset size) as (w1 & m1 & Hrun & Hc & Hmeet); try done.
  eapply wp_of_Ok; [exact Hrun|]. destruct Hc as [Hw1 Hob Hme Hen Hsh Hst] eqn:Ec. clear Ec.
  assert (w_objects w1 !! this = Some (set_segmentMap m1 o)) as Ht by (rewrite Hob; apply lookup_insert_eq).
  split; [done|]. split; [done|]. split; [done|]. split; [intros p Hp; by rewrite Hob, lookup_insert_ne|].
  exists (set_segmentMap m1 o). split; [done|]. split; [by repeat split|]. split; [done|].
  intros k seg x Hin Hx. rewrite (view_in _ _ w oo k seg x eq_refl Hok); [|by apply Hmeet|done].
  destruct (range_same_memory w this o m1 w1 seg Hc) as [Hz Hb].
  rewrite (view_in _ _ w1 _ k seg x eq_refl (wo_objs _ _ _ Hw1 _ _ Ht) Hin); [by rewrite Hb, Hme|].
  unfold seg_covers in *. by rewrite Hz.
Qed.
End cow.

End ObjectCow.
