(* ===== verification/Container.v ===== *)
(** * Container

    Model of src/src/server/core/Container.cpp: the objects of the server found
    by their identifier.  The container maps an identifier to the address of the
    object; deleting an object drops its references to the memory it shares. *)

From S2P Require Import Prelude StdMap Memory IntervalMap Interfaces ConsistencyTracker World WorldInv View ObjectSegment Object Calm ObjectAccess ObjectFlush ObjectCow.

Module Container.
Import Object Calm ObjectFlush ObjectCow.

#[export] Instance ObjectId_lt : Less ObjectId := ObjectId_less.
#[export] Instance ObjectId_lt_ok : LessOk ObjectId.
Proof.
  split; unfold less, ObjectId_lt, ObjectId_less.
  - intros [l h]. simpl. repeat case_match; lia.
  - intros [l1 h1] [l2 h2] [l3 h3]. simpl. repeat case_match; lia.
  - intros [l1 h1] [l2 h2]. simpl. repeat case_match; try lia; intros; f_equal; lia.
Qed.

(** class Container *)
Record Container : Type := mkContainer {
  c_objects : stdmap ObjectId Z;
  c_objectSegmentsAlignement : Z;
  c_storageBackend : Z;
  c_memoryBackend : Z;
}.

Definition set_c_objects (m : stdmap ObjectId Z) (c : Container) : Container :=
  mkContainer m (c_objectSegmentsAlignement c) (c_storageBackend c) (c_memoryBackend c).

Section container.
Context {E S : Type} `{MemoryProvider E} `{StorageBackend S}.
Abbreviation W := (World E S).
Abbreviation C := (Container * World E S)%type.

(** A call that leaves the container alone. *)
Definition lift {A} (m : M W A) : M C A := fun cw =>
  match m cw.2 with Ok (a, w) => Ok (a, (cw.1, w)) | Abort f => Abort f end.
Definition on_container (f : Container -> Container) : M C unit := modify (fun cw => (f cw.1, cw.2)).

(** Container::Container *)
Definition new_container (storageBackend memBack objectSegmentsAlignement : Z) : Container :=
  mkContainer [] objectSegmentsAlignement storageBackend memBack.

(** [delete obj]: the destruction of its segments. *)
Definition delete_object (p : Z) : M W unit :=
  if p =? 0 then ret tt
  else
    let! o := get_obj p in
    modify (fun w => set_objects (delete p (w_objects w)) w) ;;
    for_each (o_segmentMap o) (fun '(_, seg) => shared_release (os_memory seg)).

(** Container::~Container *)
Definition destroy_container : M C unit :=
  let! c := gets fst in
  for_each (c_objects c) (fun it => lift (delete_object it.2)).

(** Container::setStorageBackend *)
Definition setStorageBackend (storageBackend : Z) : M C unit :=
  on_container (fun c => mkContainer (c_objects c) (c_objectSegmentsAlignement c) storageBackend (c_memoryBackend c)) ;;
  let! c := gets fst in
  for_each (c_objects c) (fun it => lift (Object.setStorageBackend it.2 storageBackend)).

(** Container::setMemoryBackend *)
Definition setMemoryBackend (memoryBackend : Z) : M C unit :=
  on_container (fun c => mkContainer (c_objects c) (c_objectSegmentsAlignement c) (c_storageBackend c) memoryBackend) ;;
  let! c := gets fst in
  for_each (c_objects c) (fun it => lift (Object.setMemoryBackend it.2 memoryBackend)).

(** Container::getObject *)
Definition getObject (objectId : ObjectId) : M C Z :=
  let! c := gets fst in
  match sm_find objectId (c_objects c) with
  | None =>
      let! obj := lift (new_object (c_storageBackend c) (c_memoryBackend c) objectId (c_objectSegmentsAlignement c)) in
      on_container (fun c => set_c_objects (sm_insert objectId obj (c_objects c)) c) ;;
      ret obj
  | Some p => ret p
  end.

(** Container::hasObject *)
Definition hasObject (objectId : ObjectId) : M C bool :=
  gets (fun cw => match sm_find objectId (c_objects cw.1) with Some _ => true | None => false end).

(** Container::onClientDisconnect *)
Definition onClientDisconnect (tcpClientId : Z) : M C unit :=
  let! c := gets fst in
  for_each (c_objects c) (fun it => lift (update_obj it.2
    (fun o => set_tracker (ConsistencyTracker.clientDisconnect tcpClientId (o_consistencyTracker o)) o))).

(** Container::setObjectSegmentsAlignement *)
Definition setObjectSegmentsAlignement (alignement : Z) : M C unit :=
  on_container (fun c => mkContainer (c_objects c) alignement (c_storageBackend c) (c_memoryBackend c)).

(** Container::makeObjectRangeCow *)
Definition makeObjectRangeCow (sourceId destId : ObjectId) (allowExist : bool) (offset size : Z) : M C bool :=
  let! c := gets fst in
  match sm_find sourceId (c_objects c) with
  | None => ret false
  | Some sourceObject =>
      let! destObj :=
        match sm_find destId (c_objects c) with
        | Some p => ret (if allowExist then Some p else None)
        | None =>
            let! obj := lift (new_object (c_storageBackend c) (c_memoryBackend c) destId (c_objectSegmentsAlignement c)) in
            on_container (fun c => set_c_objects (sm_insert destId obj (c_objects c)) c) ;;
            ret (Some obj)
        end in
      match destObj with
      | None => ret false
      | Some destObj => lift (rangeCopyOnWrite destObj sourceObject offset size) ;; ret true
      end
  end.

(** Container::makeObjectFullCow: the pointer to the source is read from the
    map after the destination has been deleted and set to NULL. *)
Definition makeObjectFullCow (sourceId destId : ObjectId) (allowExist : bool) : M C bool :=
  let! c := gets fst in
  match sm_find sourceId (c_objects c) with
  | None => ret false
  | Some _ =>
      let! refused :=
        match sm_find destId (c_objects c) with
        | Some p =>
            if allowExist then
              lift (delete_object p) ;;
              on_container (fun c => set_c_objects (sm_insert destId 0 (c_objects c)) c) ;;
              ret false
            else ret true
        | None => ret false
        end in
      if refused then ret false
      else
        let! c := gets fst in
        let! source := of_option FNullPointer (sm_find sourceId (c_objects c)) in
        let! cowObj := lift (makeFullCopyOnWrite source destId allowExist) in
        if cowObj =? 0 then ret false
        else
          on_container (fun c => set_c_objects (sm_insert destId cowObj (c_objects c)) c) ;;
          ret true
  end.
End container.

Section proofs.
Context {E S : Type} `{MemoryProviderOk E} `{StorageOk S}.
Abbreviation W := (World E S).
Abbreviation C := (Container * World E S)%type.
Implicit Types (w : W) (c : Container) (cw : C).

Lemma wp_lift F {A} (m : M W A) (Q : A -> C -> Prop) c w :
  wp F m (fun a w' => Q a (c, w')) w -> wp F (lift m) Q (c, w).
Proof. unfold wp, lift. simpl. by destruct (m w) as [[a w']|f]. Qed.

(** *** Deletion of an object *)

(** The references of a deleted object are held by the running function. *)
Lemma delete_obj_ok w p o :
  world_ok w [] None -> w_objects w !! p = Some o ->
  world_ok (set_objects (delete p (w_objects w)) w) (obj_refs o) None.
Proof.
  intros Hw Ho. destruct Hw as [Henv Hcnt Hlive Hnext [Hn0 Hn] Hmem Hobjs].
  assert (all_refs (delete p (w_objects w)) ++ obj_refs o ≡ₚ all_refs (w_objects w) ++ []) as Hperm.
  { rewrite app_nil_r, (all_refs_delete _ _ _ Ho). apply Permutation_app_comm. }
  constructor; simpl; try done.
  - intros id m c Hm. rewrite (nref_perm id _ _ Hperm). eauto.
  - intros id Hid. apply Hlive. by rewrite <- Hperm.
  - split; [done|]. intros q [x [_ Hq]%lookup_delete_Some]. apply Hn. eauto.
  - intros q oq [_ Hq]%lookup_delete_Some. eauto.
Qed.

(** The references of a list of segments are dropped one by one. *)
Lemma wp_release_all w l :
  world_ok w (seg_refs l) None -> Forall (fun x => is_Some (os_memory x.2)) l ->
  wp never (for_each l (fun '(_, seg) => shared_release (os_memory seg)))
    (fun _ w' => world_ok w' [] None /\ released w w') w.
Proof.
  intros Hw Hs. eapply wp_mono; [apply (wp_for_each never (fun l' w' => world_ok w' (seg_refs l') None /\
    Forall (fun x => is_Some (os_memory x.2)) l' /\ released w w'))|].
  - split; [done|]. split; [done|]. apply released_refl.
  - intros [k seg] l' w' (Hw' & [[id Hid] Hs']%Forall_cons & Hrel). simpl in Hid. rewrite Hid.
    rewrite seg_refs_cons in Hw'. unfold seg_ref in Hw'. rewrite Hid in Hw'.
    eapply wp_mono; [by apply (wp_shared_release w' (seg_refs l') id)|]. intros _ w2 [Hw2 Hrel2].
    split; [done|]. split; [done|]. destruct Hrel as (R1 & R2 & R3 & R4 & R5 & R6), Hrel2 as (T1 & T2 & T3 & T4 & T5 & T6).
    split_and!; try congruence; auto. intros i m' c' Hi. destruct (T5 _ _ _ Hi) as [c2 Hi2]. eauto.
  - intros _ w' (Hw' & _ & Hrel). done.
Qed.

(** The other objects survive the deletion of one. *)
Record deleted (p : Z) w w' : Prop := {
  del_ok : world_ok w' [] None;
  del_objects : w_objects w' = delete p (w_objects w);
  del_next : w_nextObject w' = w_nextObject w;
  del_store : w_store w' = w_store w;
  del_views : forall q oq x, q <> p -> w_objects w !! q = Some oq -> obj_view w' oq x = obj_view w oq x;
  del_sizes : forall q oq k seg, q <> p -> w_objects w !! q = Some oq -> In (k, seg) (o_segmentMap oq) ->
    seg_size (w_shared w') seg = seg_size (w_shared w) seg;
  del_backend : forall h, mp_backend (w_env w) h -> mp_backend (w_env w') h;
}.

Lemma wp_delete_object w p o :
  world_ok w [] None -> w_objects w !! p = Some o -> wp never (delete_object p) (fun _ w' => deleted p w w') w.
Proof.
  intros Hw Ho. unfold delete_object.
  assert (0 < p) as Hp by (apply (wo_nexto _ _ _ Hw); by eexists). destruct (p =? 0) eqn:E0; [lia|].
  assert (get_obj p w = Ok (o, w)) as Hget by (unfold get_obj; by rewrite Ho). wp_run Hget.
  apply wp_bind, wp_modify. eapply wp_mono.
  - apply wp_release_all; [by apply (delete_obj_ok w p o)|]. eapply ok_memory, (wo_objs _ _ _ Hw _ _ Ho).
  - intros _ w' (Hw' & R1 & R2 & R3 & R4 & R5 & R6). simpl in *.
    assert (forall q oq id, q <> p -> w_objects w !! q = Some oq -> id ∈ obj_refs oq ->
      fst <$> w_shared w' !! id = fst <$> w_shared w !! id) as Hsh.
    { intros q oq id Hne Hq Hid. apply shared_sub_fst; [done|]. apply (wo_live _ _ _ Hw'), elem_of_app. left.
      eapply refs_in_all; [|exact Hid]. rewrite R3. by rewrite lookup_delete_ne. }
    constructor; try done.
    + intros q oq x Hne Hq. eapply obj_view_ext; [exact Hw|exact Hq|eauto|intros; by rewrite R1|].
      intros y. unfold stored. by rewrite R2.
    + intros q oq k seg Hne Hq Hin. unfold seg_size. rewrite (seg_memory_ext (w_shared w)); [done|].
      intros id Hid. eapply Hsh; [done|done|]. by eapply seg_refs_In.
Qed.

(** *** The invariant of the container *)
Record container_ok cw : Prop := {
  co_world : world_ok cw.2 [] None;
  co_sorted : sm_ok (c_objects cw.1);
  (** an identifier names an object that has it and uses the backends of the container *)
  co_entry : forall id p, sm_find id (c_objects cw.1) = Some p -> exists o, w_objects cw.2 !! p = Some o /\
    o_objectId o = id /\ o_storageBackend o = c_storageBackend cw.1;
  (** every object is named: nothing leaks *)
  co_named : forall p o, w_objects cw.2 !! p = Some o -> sm_find (o_objectId o) (c_objects cw.1) = Some p;
  co_align : align_ok (c_objectSegmentsAlignement cw.1);
  co_memory : mp_backend (w_env cw.2) (c_memoryBackend cw.1) /\ c_memoryBackend cw.1 <> 0;
}.

(** Distinct objects of a container have distinct places in the storage. *)
Lemma container_own_storage cw p o :
  container_ok cw -> w_objects cw.2 !! p = Some o -> own_storage cw.2 p o.
Proof.
  intros Hc Ho q oq Hne Hq Heq. unfold storage_key in Heq. injection Heq as _ Hh Hl.
  pose proof (co_named _ Hc _ _ Ho) as H3. pose proof (co_named _ Hc _ _ Hq) as H4.
  assert (o_objectId oq = o_objectId o) as Hid by (destruct (o_objectId oq), (o_objectId o); simpl in *; congruence).
  rewrite Hid in H4. congruence.
Qed.

(** Creating the object of an identifier that has none. *)
Lemma wp_create_object c w objectId :
  container_ok (c, w) -> sm_find objectId (c_objects c) = None ->
  wp never (let! obj := lift (new_object (c_storageBackend c) (c_memoryBackend c) objectId (c_objectSegmentsAlignement c)) in
            on_container (fun c => set_c_objects (sm_insert objectId obj (c_objects c)) c) ;; ret obj)
    (fun p cw => p = w_nextObject w /\
       cw = (set_c_objects (sm_insert objectId p (c_objects c)) c,
             bump_object (set_objects (<[p := mkObject objectId [] (c_objectSegmentsAlignement c) ConsistencyTracker.init
               (c_storageBackend c) (c_memoryBackend c)]> (w_objects w)) w)) /\
       w_objects w !! p = None /\ container_ok cw) (c, w).
Proof.
  intros Hc Hf. unfold new_object. apply wp_bind, wp_lift. unfold wp at 1. apply wp_bind, wp_modify, wp_ret.
  cbn [fst snd]. set (o := mkObject _ _ _ _ _ _). split; [done|]. split; [done|].
  pose proof (co_world _ Hc) as Hw. simpl in Hw. destruct (wo_nexto _ _ _ Hw) as [Hn0 Hn].
  assert (w_objects w !! w_nextObject w = None) as Hfresh by (apply eq_None_not_Some; intros Hs%Hn; lia).
  split; [done|]. destruct Hc as [_ Hs He Hnm Ha Hm]. constructor; simpl in *; try done.
  - apply new_obj_ok; [done|done|]. pose proof two63_two64. by constructor.
  - by apply sm_ok_insert.
  - intros id p. destruct (decide (id = objectId)) as [->|Hne].
    + rewrite sm_find_insert_eq. intros [= <-]. exists o. by rewrite lookup_insert_eq.
    + rewrite sm_find_insert_ne by done. intros Hp. destruct (He _ _ Hp) as (op & Hop & ?). exists op.
      rewrite lookup_insert_ne; [done|]. intros <-. congruence.
  - intros p op [[<- <-]|[Hne Hp]]%lookup_insert_Some; [apply sm_find_insert_eq|].
    rewrite sm_find_insert_ne; [eauto|]. intros ->. rewrite (Hnm _ _ Hp) in Hf. done.
Qed.

(** [getObject] returns the object of the identifier, the same at every call;
    it creates an empty one that uses the backends and the alignement of the
    container when there is none, and changes no other object. *)
Theorem getObject_correct c w objectId :
  container_ok (c, w) ->
  wp never (getObject objectId)
    (fun p cw => container_ok cw /\ sm_find objectId (c_objects cw.1) = Some p /\
       (exists o, w_objects cw.2 !! p = Some o /\ o_objectId o = objectId) /\
       match sm_find objectId (c_objects c) with
       | Some p0 => cw = (c, w) /\ p = p0
       | None => w_objects w !! p = None /\
           w_objects cw.2 !! p = Some (mkObject objectId [] (c_objectSegmentsAlignement c) ConsistencyTracker.init
             (c_storageBackend c) (c_memoryBackend c)) /\
           (forall q, q <> p -> w_objects cw.2 !! q = w_objects w !! q) /\
           (forall id, id <> objectId -> sm_find id (c_objects cw.1) = sm_find id (c_objects c))
       end) (c, w).
Proof.
  intros Hc. unfold getObject. apply wp_bind, wp_gets. cbn [fst].
  destruct (sm_find objectId (c_objects c)) as [p|] eqn:Ef.
  - apply wp_ret. split; [done|]. split; [done|]. split; [|done].
    destruct (co_entry _ Hc _ _ Ef) as (o & Ho & Hid & _). by exists o.
  - eapply wp_mono; [by apply wp_create_object|]. intros p cw (-> & -> & Hfr & Hc'). simpl.
    split; [done|]. split; [apply sm_find_insert_eq|].
    split; [eexists; by rewrite lookup_insert_eq|]. split; [done|]. split; [apply lookup_insert_eq|].
    split; [intros q Hq; by rewrite lookup_insert_ne|]. intros id Hid. by rewrite sm_find_insert_ne.
Qed.

(** *** Copy on write *)

(** The state after the destination [dst] of a copy has been removed. *)
Record cleared (dst : ObjectId) c w c1 w1 : Prop := {
  cl_world : world_ok w1 [] None;
  cl_sorted : sm_ok (c_objects c1);
  cl_find : forall id, id <> dst -> sm_find id (c_objects c1) = sm_find id (c_objects c);
  cl_fields : c_objectSegmentsAlignement c1 = c_objectSegmentsAlignement c /\
    c_storageBackend c1 = c_storageBackend c /\ c_memoryBackend c1 = c_memoryBackend c;
  cl_objects : forall q oq, w_objects w1 !! q = Some oq <-> w_objects w !! q = Some oq /\ o_objectId oq <> dst;
  cl_views : forall q oq x, w_objects w1 !! q = Some oq -> obj_view w1 oq x = obj_view w oq x;
  cl_sizes : forall q oq k seg, w_objects w1 !! q = Some oq -> In (k, seg) (o_segmentMap oq) ->
    seg_size (w_shared w1) seg = seg_size (w_shared w) seg;
  cl_backend : forall h, mp_backend (w_env w) h -> mp_backend (w_env w1) h;
  cl_store : w_store w1 = w_store w;
}.

Lemma cleared_none dst c w :
  container_ok (c, w) -> sm_find dst (c_objects c) = None -> cleared dst c w c w.
Proof.
  intros Hc Hf. constructor; try done; [apply (co_world _ Hc)|apply (co_sorted _ Hc)|].
  intros q oq. split; [|by intros [? _]]. intros Hq. split; [done|]. intros <-.
  pose proof (co_named _ Hc _ _ Hq) as Hn. simpl in Hn. congruence.
Qed.

Lemma wp_clear dst c w p :
  container_ok (c, w) -> sm_find dst (c_objects c) = Some p ->
  wp never (delete_object p) (fun _ w1 => cleared dst c w (set_c_objects (sm_insert dst 0 (c_objects c)) c) w1) w.
Proof.
  intros Hc Hf. destruct (co_entry _ Hc _ _ Hf) as (o & Ho & Hid & _). simpl in Ho.
  eapply wp_mono; [apply (wp_delete_object w p o); [apply (co_world _ Hc)|done]|].
  intros _ w1 [Hw1 Hobj Hnx Hst Hv Hz Hb].
  assert (forall q oq, w_objects w1 !! q = Some oq <-> w_objects w !! q = Some oq /\ o_objectId oq <> dst) as Hiff.
  { intros q oq. rewrite Hobj, lookup_delete_Some. split.
    - intros [Hne Hq]. split; [done|]. intros Heq. pose proof (co_named _ Hc _ _ Hq) as Hn. simpl in Hn.
      rewrite Heq, Hf in Hn. congruence.
    - intros [Hq Hne]. split; [|done]. intros <-. congruence. }
  assert (forall q oq, w_objects w1 !! q = Some oq -> q <> p /\ w_objects w !! q = Some oq) as Hother.
  { intros q oq Hq. rewrite Hobj in Hq. apply lookup_delete_Some in Hq as [? ?]. done. }
  constructor; try done.
  - apply sm_ok_insert, (co_sorted _ Hc).
  - intros id Hne. simpl. by rewrite sm_find_insert_ne.
  - intros q oq x Hq. apply Hother in Hq as [? ?]. by eapply Hv.
  - intros q oq k seg Hq. apply Hother in Hq as [? ?]. by apply (Hz q).
Qed.

(** Registering the copy makes the container well formed again. *)
Lemma register_cow dst c w c1 w1 o w2 m cursor :
  container_ok (c, w) -> cleared dst c w c1 w1 ->
  o_storageBackend o = c_storageBackend c -> cow_state w1 o dst m cursor w2 ->
  container_ok (set_c_objects (sm_insert dst (cow_addr w1) (c_objects c1)) c1, w2).
Proof.
  intros Hc [Hw1 Hs Hf (F1 & F2 & F3) Ho Hv Hz Hb _] Hst [Hw2 Hobj _ Henv _ _].
  destruct Hc as [_ _ He Hn Ha [Hm Hm0]]. simpl in *.
  pose proof (cow_addr_fresh w1 Hw1) as Hfresh. constructor; simpl; rewrite ?F1, ?F2, ?F3; try done.
  - by apply sm_ok_insert.
  - intros id p. destruct (decide (id = dst)) as [->|Hne].
    + rewrite sm_find_insert_eq. intros [= <-]. eexists. by rewrite Hobj, lookup_insert_eq.
    + rewrite sm_find_insert_ne, Hf by done. intros Hp. destruct (He _ _ Hp) as (op & Hop & Hid & Hsb).
      exists op. split; [|done]. rewrite Hobj.
      assert (w_objects w1 !! p = Some op) as Hp1 by (apply Ho; split; [done|congruence]).
      rewrite lookup_insert_ne; [done|]. intros <-. congruence.
  - intros p op. rewrite Hobj. intros [[<- <-]|[Hne Hp]]%lookup_insert_Some; [apply sm_find_insert_eq|].
    apply Ho in Hp as [Hp Hid]. rewrite sm_find_insert_ne, Hf by done. eauto.
  - split; [|done]. rewrite Henv. auto.
Qed.

(** What the copy promises of the container. *)
Definition full_cow_post (dst : ObjectId) c w o (r : bool) cw : Prop :=
  r = true /\ container_ok cw /\
  (exists q oc, sm_find dst (c_objects cw.1) = Some q /\ w_objects cw.2 !! q = Some oc /\
     o_segmentMap oc = o_segmentMap o /\
     forall x, 0 <= x < chain_end os_offset (seg_size (w_shared w)) 0 (o_segmentMap o) ->
       obj_view cw.2 oc x = obj_view w o x) /\
  (forall id, id <> dst -> sm_find id (c_objects cw.1) = sm_find id (c_objects c)) /\
  (forall q oq x b, w_objects w !! q = Some oq -> o_objectId oq <> dst -> obj_view w oq x = Some b ->
     exists oq', w_objects cw.2 !! q = Some oq' /\ obj_view cw.2 oq' x = Some b) /\
  c_storageBackend cw.1 = c_storageBackend c /\
  (forall h hi lo x, (h, hi, lo) <> (c_storageBackend c, id_high dst, id_low dst) ->
     sb_contents (w_store cw.2) h hi lo x = sb_contents (w_store w) h hi lo x).

Lemma wp_cow_cleared src dst c w c1 w1 p o allowExist :
  container_ok (c, w) -> cleared dst c w c1 w1 -> c_storageBackend c <> 0 -> src <> dst ->
  sm_find src (c_objects c) = Some p -> w_objects w !! p = Some o ->
  wp cow_fault (let! c := gets fst in
                let! source := of_option FNullPointer (sm_find src (c_objects c)) in
                let! cowObj := lift (makeFullCopyOnWrite source dst allowExist) in
                if cowObj =? 0 then ret false
                else on_container (fun c => set_c_objects (sm_insert dst cowObj (c_objects c)) c) ;; ret true)
    (full_cow_post dst c w o) (c1, w1).
Proof.
  intros Hc Hcl Hst Hne Hf Ho. apply wp_bind, wp_gets. cbn [fst].
  rewrite (cl_find _ _ _ _ _ Hcl) by done. rewrite Hf. simpl of_option. apply wp_bind, wp_ret, wp_bind, wp_lift.
  destruct (co_entry _ Hc _ _ Hf) as (o' & Ho' & Hid & Hsb). simpl in Ho', Hsb. assert (o' = o) as -> by congruence.
  assert (w_objects w1 !! p = Some o) as Ho1 by (apply (cl_objects _ _ _ _ _ Hcl); split; [done|congruence]).
  assert (target_free w1 o dst) as Hfree.
  { intros q oq Hq Heq. apply (cl_objects _ _ _ _ _ Hcl) in Hq as [_ Hn]. apply Hn.
    unfold storage_key in Heq. simpl in Heq. injection Heq as _ ? ?. destruct (o_objectId oq), dst; simpl in *; congruence. }
  pose proof (cl_world _ _ _ _ _ Hcl) as Hw1. assert (o_storageBackend o <> 0) as Hst' by congruence.
  eapply wp_mono; [by apply (wp_fullCow w1 p o dst)|]. intros cow w2 [-> Hs]. cbn beta.
  destruct (cow_addr w1 =? 0) eqn:E0.
  { pose proof (proj1 (wo_nexto _ _ _ Hw1)). unfold cow_addr in E0. lia. }
  apply wp_bind, wp_modify, wp_ret. cbn [fst snd]. split; [done|]. split; [by eapply register_cow|]. split; [|split; [|split; [|split; [apply (cl_fields _ _ _ _ _ Hcl)|]]]].
  - exists (cow_addr w1), (cow_object o dst (o_segmentMap o)). simpl.
    split; [apply sm_find_insert_eq|]. split; [rewrite (ct_objs _ _ _ _ _ _ Hs); apply lookup_insert_eq|]. split; [done|].
    intros x Hx. rewrite (cow_view_eq w1 p o dst Hw1 Ho1 w2 x Hs); [by eapply cl_views|].
    rewrite (chain_end_ext_id _ _ os_offset (seg_size (w_shared w))); [done|].
    intros k seg Hin. split; [done|]. by eapply cl_sizes.
  - intros id Hid'. simpl. rewrite sm_find_insert_ne by done. by eapply cl_find.
  - intros q oq x b Hq Hn Hv. simpl.
    assert (w_objects w1 !! q = Some oq) as Hq1 by (by apply (cl_objects _ _ _ _ _ Hcl)).
    destruct (cow_others w1 o dst Hw1 Hfree _ _ w2 Hs q oq Hq1) as (oq' & Hq' & _ & Hvv). exists oq'. split; [done|].
    apply Hvv; [auto|]. by rewrite (cl_views _ _ _ _ _ Hcl q oq x Hq1).
  - intros h hi lo x Hk. simpl. rewrite <- (cl_store _ _ _ _ _ Hcl). apply (cs_other _ _ _ _ _ _ (ct_store _ _ _ _ _ _ Hs)).
    unfold storage_key. simpl. by rewrite Hsb.
Qed.

(** the full copy on write of an object to another identifier, which may
    name an object only when [allowExist], succeeds or stops on an error of the
    storage; it replaces the object of that identifier by the copy, keeps the
    invariant (the memory of the replaced object is given back), and leaves the
    other identifiers and the contents of the other objects alone. *)
Theorem makeObjectFullCow_correct c w src dst allowExist p o :
  container_ok (c, w) -> c_storageBackend c <> 0 -> src <> dst ->
  sm_find src (c_objects c) = Some p -> w_objects w !! p = Some o ->
  allowExist = true \/ sm_find dst (c_objects c) = None ->
  wp cow_fault (makeObjectFullCow src dst allowExist) (full_cow_post dst c w o) (c, w).
Proof.
  intros Hc Hst Hne Hf Ho Hallow. unfold makeObjectFullCow. apply wp_bind, wp_gets. cbn [fst]. rewrite Hf.
  destruct (sm_find dst (c_objects c)) as [pd|] eqn:Ed.
  - destruct Hallow as [->|]; [|done]. apply wp_bind, wp_bind, wp_lift, wp_never.
    eapply wp_mono; [by apply (wp_clear dst c w pd)|]. intros [] w1 Hcl. cbn beta in Hcl |- *.
    apply wp_never, wp_bind, wp_modify, wp_ret. cbn [fst snd]. by eapply wp_cow_cleared.
  - apply wp_bind, wp_ret. eapply wp_cow_cleared; try done. by apply cleared_none.
Qed.

(** the refusals of the two copies: without source, or with a destination
    that exists and [allowExist] false, they return false and change nothing. *)
Theorem cow_refused c w src dst allowExist offset size :
  sm_find src (c_objects c) = None \/
    (allowExist = false /\ is_Some (sm_find dst (c_objects c))) ->
  makeObjectFullCow src dst allowExist (c, w) = Ok (false, (c, w)) /\
  makeObjectRangeCow src dst allowExist offset size (c, w) = Ok (false, (c, w)).
Proof.
  unfold makeObjectFullCow, makeObjectRangeCow, bind, gets. simpl. intros [->|[-> [p ->]]]; [done|].
  by destruct (sm_find src (c_objects c)).
Qed.

(** the copy of an object onto itself with [allowExist] deletes the object
    and then goes through a null pointer. *)
Theorem makeObjectFullCow_self c w id p :
  container_ok (c, w) -> sm_find id (c_objects c) = Some p ->
  makeObjectFullCow id id true (c, w) = Abort FNullPointer.
Proof.
  intros Hc Hf. pose proof (wp_clear id c w p Hc Hf) as Hd. unfold makeObjectFullCow, bind, gets. cbn [fst]. rewrite Hf.
  unfold lift at 1. cbn [snd]. revert Hd. unfold wp. destruct (delete_object p w) as [[[] w1]|f]; [|done]. intros Hcl.
  unfold on_container, modify, ret. simpl. rewrite sm_find_insert_eq. simpl. unfold lift. cbn [snd].
  unfold makeFullCopyOnWrite, bind at 1, get_obj. cbn [snd].
  destruct (w_objects w1 !! 0) as [o0|] eqn:E0; [|done].
  assert (is_Some (w_objects w1 !! 0)) as Hs%(wo_nexto _ _ _ (cl_world _ _ _ _ _ Hcl)) by by eexists. lia.
Qed.

(** A step that keeps the identifiers and the storage of the objects. *)
Lemma container_calm c w w' :
  container_ok (c, w) -> world_ok w' [] None -> calm w w' -> container_ok (c, w').
Proof.
  intros [_ Hs He Hn Ha [Hm Hm0]] Hw' [Hsame Hb]. constructor; simpl in *; try done.
  - intros id p Hp. destruct (He _ _ Hp) as (o & Ho & Hid & Hsb). specialize (Hsame p). rewrite Ho in Hsame.
    destruct (w_objects w' !! p) as [o'|]; [|done]. injection Hsame as H3 H4. exists o'. split; [done|]. split; congruence.
  - intros p o' Ho'. specialize (Hsame p). rewrite Ho' in Hsame. destruct (w_objects w !! p) as [o|] eqn:Ho; [|done].
    injection Hsame as H3 H4. rewrite H3. eauto.
  - split; [auto|done].
Qed.

(** the copy on write of a range into an identifier that has no object, the
    range cutting no segment of the source: it returns true, and the new object
    has exactly the segments of the source that meet the range and shows their
    contents. *)
Theorem makeObjectRangeCow_correct c w src dst allowExist offset size p o :
  container_ok (c, w) -> sm_find src (c_objects c) = Some p -> w_objects w !! p = Some o ->
  sm_find dst (c_objects c) = None -> 0 <= offset -> 0 <= size -> offset + size < two63 -> uncut w o offset size ->
  wp never (makeObjectRangeCow src dst allowExist offset size)
    (fun r cw => r = true /\ container_ok cw /\
       (forall q oq, w_objects w !! q = Some oq -> w_objects cw.2 !! q = Some oq) /\
       exists q od, sm_find dst (c_objects cw.1) = Some q /\ w_objects cw.2 !! q = Some od /\
         (forall k seg, In (k, seg) (o_segmentMap od) <-> In (k, seg) (o_segmentMap o) /\
            os_offset seg < offset + size /\ offset < os_offset seg + seg_size (w_shared w) seg) /\
         forall k seg x, In (k, seg) (o_segmentMap od) -> seg_covers (w_shared w) seg x ->
           obj_view cw.2 od x = obj_view w o x) (c, w).
Proof.
  intros Hc Hf Ho Hd Hoff Hsize Hend Hun. unfold makeObjectRangeCow. apply wp_bind, wp_gets. cbn [fst]. rewrite Hf, Hd.
  apply wp_bind. pose proof (wp_create_object c w dst Hc Hd) as Hcr. revert Hcr. unfold wp, bind.
  destruct (lift _ _) as [[obj [c1 w1]]|f]; [|done]. unfold on_container, modify, ret. simpl.
  intros (-> & Hcw & Hfresh & Hc1). apply pair_eq in Hcw as [Hc1eq ->]. rewrite Hc1eq in Hc1 |- *. clear c1 Hc1eq.
  set (p' := w_nextObject w) in *. set (w1 := bump_object _) in *. set (c' := set_c_objects _ c) in *.
  assert (p' <> p) as Hne by congruence.
  set (od := mkObject dst [] (c_objectSegmentsAlignement c) ConsistencyTracker.init (c_storageBackend c) (c_memoryBackend c)) in *.
  assert (w_objects w1 !! p' = Some od) as Hp' by apply lookup_insert_eq.
  assert (w_objects w1 !! p = Some o) as Hp by (simpl; by rewrite lookup_insert_ne).
  destruct (range_run w1 p' p od o offset size) as (w2 & m & Hrun & Hrs & Hm); try done; [apply (co_world _ Hc1)|].
  unfold lift. cbn [fst snd]. rewrite Hrun. split; [done|].
  assert (w_objects w2 !! p' = Some (set_segmentMap m od)) as Hod by (rewrite (rs_objs _ _ _ _ _ Hrs); apply lookup_insert_eq).
  split.
  - eapply container_calm; [exact Hc1|exact (rs_ok _ _ _ _ _ Hrs)|].
    constructor; [|by rewrite (rs_env _ _ _ _ _ Hrs)]. intros q. rewrite (rs_objs _ _ _ _ _ Hrs). destruct (decide (q = p')) as [->|Hq]; [by rewrite lookup_insert_eq, Hp'|].
    by rewrite lookup_insert_ne.
  - split; [intros q oq Hq; cbn [snd]; rewrite (rs_objs _ _ _ _ _ Hrs), !lookup_insert_ne by congruence; by simpl; rewrite lookup_insert_ne by congruence|].
    exists p', (set_segmentMap m od). split; [apply sm_find_insert_eq|]. split; [done|]. split; [done|].
    intros k seg x Hin Hx. cbn [snd]. destruct (range_same_memory w1 p' od m w2 seg Hrs) as [Hz Hb].
    assert (In (k, seg) (o_segmentMap o)) as Hin0 by by apply Hm.
    rewrite (view_in _ _ w o k seg x eq_refl (wo_objs _ _ _ (co_world _ Hc) _ _ Ho) Hin0 Hx).
    rewrite (view_in _ _ w2 _ k seg x eq_refl (wo_objs _ _ _ (rs_ok _ _ _ _ _ Hrs) _ _ Hod) Hin).
    + by rewrite Hb, (rs_mem _ _ _ _ _ Hrs).
    + unfold seg_covers in *. by rewrite Hz.
Qed.

(** *** The loops over all the objects *)

Lemma all_refs_fmap (f : Object -> Object) objs :
  (forall o, o_segmentMap (f o) = o_segmentMap o) -> all_refs (f <$> objs) ≡ₚ all_refs objs.
Proof.
  intros Hf. unfold all_refs. rewrite map_to_list_fmap, <- list_fmap_compose.
  apply reflexive_eq. f_equal. apply list_fmap_ext. intros i [p o] _. simpl. unfold obj_refs. by rewrite Hf.
Qed.

Lemma map_objects_ok w (f : Object -> Object) :
  world_ok w [] None -> (forall o, o_segmentMap (f o) = o_segmentMap o) ->
  (forall p o, w_objects w !! p = Some o -> obj_ok (w_shared w) (w_env w) (f o)) ->
  world_ok (set_objects (f <$> w_objects w) w) [] None.
Proof.
  intros [Henv Hcnt Hlive Hnext [Hn0 Hn] Hmem Hobjs] Hf Hok.
  pose proof (all_refs_fmap f (w_objects w) Hf) as Hp. constructor; simpl; try done.
  - intros id m c Hm. rewrite (nref_perm id _ (all_refs (w_objects w) ++ [])) by by rewrite Hp. eauto.
  - intros id Hid. apply Hlive. by rewrite Hp in Hid.
  - split; [done|]. intros p. rewrite lookup_fmap, fmap_is_Some. auto.
  - intros p o. rewrite lookup_fmap, fmap_Some. intros (o0 & Ho & ->). eauto.
Qed.

(** The objects still to visit. *)
Definition partly (f : Object -> Object) (l : stdmap ObjectId Z) w w' : Prop :=
  w' = set_objects (w_objects w') w /\
  forall p, w_objects w' !! p = (fun o => if decide ((o_objectId o, p) ∈ l) then o else f o) <$> w_objects w !! p.

Lemma wp_update_all (f : Object -> Object) c0 c w :
  container_ok (c0, w) -> (forall o, o_objectId (f o) = o_objectId o) ->
  wp never (for_each (c_objects c0) (fun it => lift (update_obj it.2 f)))
    (fun _ cw => cw = (c, set_objects (f <$> w_objects w) w)) (c, w).
Proof.
  intros Hc Hid. eapply wp_mono; [apply (wp_for_each never (fun l cw => exists pre, c_objects c0 = pre ++ l /\
    cw.1 = c /\ partly f l w cw.2))|].
  - exists []. split; [done|]. split; [done|]. split; [by destruct w|]. intros p. simpl.
    destruct (w_objects w !! p) as [o|] eqn:Ho; [|done]. simpl. rewrite decide_True; [done|].
    apply list_elem_of_In, sm_find_In; [apply (co_sorted _ Hc)|]. apply (co_named _ Hc _ _ Ho).
  - intros [id p] l [c' w'] (pre & Hl & Hc' & Hw' & Hob). simpl in Hc', Hw', Hob. subst c'. apply wp_lift. simpl.
    pose proof (co_sorted _ Hc) as Hs. simpl in Hs. assert (In (id, p) (c_objects c0)) as Hin by (rewrite Hl; apply in_or_app; right; by left).
    destruct (co_entry _ Hc id p) as (o & Ho & Hoid & _); [by apply sm_find_In|]. simpl in Ho.
    assert ((id, p) ∉ l) as Hnin.
    { intros Hx. rewrite Hl in Hs. apply sm_ok_app in Hs as [_ Hs]. apply sm_ok_cons in Hs as [_ Hall].
      unfold all_greater in Hall. rewrite Forall_forall in Hall. specialize (Hall _ Hx). simpl in Hall. by rewrite less_irrefl in Hall. }
    unfold wp, update_obj. rewrite (Hob p), Ho. simpl. rewrite decide_True by (rewrite Hoid; by left).
    exists (pre ++ [(id, p)]). split; [by rewrite <- app_assoc|]. split; [done|]. split; [simpl; by rewrite Hw'|].
    simpl. intros q. destruct (decide (q = p)) as [->|Hne].
    + rewrite lookup_insert_eq, Ho. simpl. rewrite decide_False; [done|]. by rewrite Hoid.
    + rewrite lookup_insert_ne, Hob by done. destruct (w_objects w !! q) as [oq|]; [|done]. simpl. f_equal.
      apply decide_ext. rewrite elem_of_cons. split; [|by right]. intros [[= ? ?]|?]; done.
  - intros _ [c' w'] (pre & _ & Hc' & Hw' & Hob). simpl in *. subst c'. f_equal. rewrite Hw'. f_equal. apply map_eq. intros p.
    rewrite Hob, lookup_fmap. destruct (w_objects w !! p); done.
Qed.

Lemma view_of_map w (f : Object -> Object) o x :
  o_segmentMap (f o) = o_segmentMap o -> o_storageBackend (f o) = o_storageBackend o -> o_objectId (f o) = o_objectId o ->
  obj_view (set_objects (f <$> w_objects w) w) (f o) x = obj_view w o x.
Proof. intros H3 H4 H5. unfold obj_view, stored. simpl. by rewrite H3, H4, H5. Qed.

(** when a client disconnects, every object forgets the ranges of that client
    and keeps those of the others, and neither the invariant nor a content
    changes. *)
Theorem onClientDisconnect_correct c w client :
  container_ok (c, w) ->
  wp never (onClientDisconnect client)
    (fun _ cw => container_ok cw /\ cw.1 = c /\
       forall p o, w_objects w !! p = Some o -> exists o', w_objects cw.2 !! p = Some o' /\
         o_segmentMap o' = o_segmentMap o /\ (forall x, obj_view cw.2 o' x = obj_view w o x) /\
         forall r, r ∈ ConsistencyTracker.ranges (o_consistencyTracker o') <->
           r ∈ ConsistencyTracker.ranges (o_consistencyTracker o) /\ ConsistencyTracker.tcpClientId r <> client) (c, w).
Proof.
  intros Hc. unfold onClientDisconnect. apply wp_bind, wp_gets. cbn [fst]. set (f := fun o => set_tracker _ o).
  eapply wp_mono; [by apply (wp_update_all f c c w)|]. intros _ cw ->. simpl.
  assert (container_ok (c, set_objects (f <$> w_objects w) w)) as Hc'.
  { eapply container_calm; [exact Hc| |constructor; [intros p|done]].
    - apply map_objects_ok; [apply (co_world _ Hc)|done|]. intros p o Ho.
      pose proof (wo_objs _ _ _ (co_world _ Hc) _ _ Ho) as []. by constructor.
    - simpl. rewrite lookup_fmap. by destruct (w_objects w !! p). }
  split; [done|]. split; [done|]. intros p o Ho. exists (f o). rewrite lookup_fmap, Ho. split; [done|]. split; [done|].
  split; [intros x; by apply view_of_map|]. intros r. simpl. rewrite ConsistencyTracker.erase_client_filter, list_elem_of_filter.
  tauto.
Qed.

(** changing the memory backend keeps the invariant and every content; the
    segments keep the backend that gave their memory. *)
Theorem setMemoryBackend_correct c w h :
  container_ok (c, w) -> mp_backend (w_env w) h -> h <> 0 ->
  wp never (setMemoryBackend h)
    (fun _ cw => container_ok cw /\ c_memoryBackend cw.1 = h /\ w_shared cw.2 = w_shared w /\
       forall p o, w_objects w !! p = Some o -> exists o', w_objects cw.2 !! p = Some o' /\
         o_memoryBackend o' = h /\ o_segmentMap o' = o_segmentMap o /\ forall x, obj_view cw.2 o' x = obj_view w o x) (c, w).
Proof.
  intros Hc Hb Hh. unfold setMemoryBackend. apply wp_bind, wp_modify, wp_bind, wp_gets. cbn [fst snd c_objects].
  unfold Object.setMemoryBackend. set (f := fun o => mkObject _ _ _ _ _ h). set (c' := mkContainer _ _ _ h).
  eapply wp_mono; [by apply (wp_update_all f c c' w)|]. intros _ cw ->. simpl.
  assert (container_ok (c, set_objects (f <$> w_objects w) w)) as Hc'.
  { eapply container_calm; [exact Hc| |constructor; [intros p|done]].
    - apply map_objects_ok; [apply (co_world _ Hc)|done|]. intros p o Ho.
      pose proof (wo_objs _ _ _ (co_world _ Hc) _ _ Ho) as []. by constructor.
    - simpl. rewrite lookup_fmap. by destruct (w_objects w !! p). }
  split; [destruct Hc'; by constructor|]. split; [done|]. split; [done|].
  intros p o Ho. exists (f o). rewrite lookup_fmap, Ho. split; [done|]. split; [done|]. split; [done|].
  intros x. by apply view_of_map.
Qed.

(** *** Destruction *)

(** A world with no object has given back all its memory. *)
Lemma empty_world w : world_ok w [] None -> w_objects w = ∅ -> w_shared w = ∅ /\ mp_inv (w_env w) ∅.
Proof.
  intros Hw He. assert (w_shared w = ∅) as Hs.
  { apply map_empty. intros id. apply eq_None_not_Some. intros [[m c] Hm].
    destruct (wo_count _ _ _ Hw _ _ _ Hm) as [Hc Hpos]. rewrite He in Hc. unfold all_refs in Hc. rewrite map_to_list_empty in Hc.
    simpl in Hc. unfold nref in Hc. simpl in Hc. lia. }
  split; [done|]. destruct (wo_env _ _ _ Hw) as (used & Hinv & [_ _ _ Hown]).
  replace ∅ with used; [done|]. apply map_empty. intros p. apply eq_None_not_Some. intros [v Hv].
  destruct (Hown _ _ Hv) as [(id & m & c & Hm & _)|(n & h & [=])]. by rewrite Hs, lookup_empty in Hm.
Qed.

(** the destruction of the container deletes every object, and the memory
    backends have every block back: nothing leaks and nothing is freed twice. *)
Theorem destroy_container_no_leak c w :
  container_ok (c, w) ->
  wp never destroy_container
    (fun _ cw => w_objects cw.2 = ∅ /\ w_shared cw.2 = ∅ /\ mp_inv (w_env cw.2) ∅) (c, w).
Proof.
  intros Hc. unfold destroy_container. apply wp_bind, wp_gets. cbn [fst].
  eapply wp_mono; [apply (wp_for_each never (fun l cw => world_ok cw.2 [] None /\ sm_ok l /\
    (forall id p, In (id, p) l -> exists o, w_objects cw.2 !! p = Some o /\ o_objectId o = id) /\
    (forall p o, w_objects cw.2 !! p = Some o -> In (o_objectId o, p) l)))|].
  - pose proof (co_sorted _ Hc) as Hs. split; [apply (co_world _ Hc)|]. split; [done|]. split.
    + intros id p Hin. destruct (co_entry _ Hc id p) as (o & Ho & Hid & _); [by apply sm_find_In|]. eauto.
    + intros p o Ho. apply sm_find_In; [done|]. apply (co_named _ Hc _ _ Ho).
  - intros [id p] l [c' w'] (Hw & Hs & Hent & Hnm). simpl in *. apply wp_lift.
    destruct (Hent id p (or_introl eq_refl)) as (o & Ho & Hid). apply sm_ok_cons in Hs as [Hs Hall].
    unfold all_greater in Hall. rewrite Forall_forall in Hall.
    assert (forall p', ~ In (id, p') l) as Hnin.
    { intros p' Hin%list_elem_of_In. specialize (Hall _ Hin). simpl in Hall. by rewrite less_irrefl in Hall. }
    eapply wp_mono; [by apply (wp_delete_object w' p o)|]. intros _ w2 [Hw2 Hob _ _ _ _ _]. simpl. rewrite Hob.
    split; [done|]. split; [done|]. split.
    + intros id' p' Hin. destruct (Hent id' p' (or_intror Hin)) as (o' & Ho' & Hid'). exists o'. split; [|done].
      rewrite lookup_delete_ne; [done|]. intros <-. assert (o' = o) as -> by congruence.
      apply (Hnin p). by rewrite <- Hid, Hid'.
    + intros p' o' [Hne Ho']%lookup_delete_Some. destruct (Hnm _ _ Ho') as [[= _ ?]|?]; [congruence|done].
  - intros _ [c' w'] (Hw & _ & _ & Hnm). simpl in *. assert (w_objects w' = ∅) as He.
    { apply map_empty. intros p. apply eq_None_not_Some. intros [o Ho]. by destruct (Hnm _ _ Ho). }
    split; [done|]. by apply empty_world.
Qed.
End proofs.
End Container.
