(* ===== verification/System.v ===== *)
(** * The system under the server: libc and libfabric

    What the memory side of the program uses of libc and of libfabric.  Both are
    outside the sources: their functions are parameters ([Libc], [Libfabric]) and
    the documented behaviour the program relies on is stated by [LibcOk] and
    [LibfabricOk]: a block or a mapping handed out meets no other live one. *)

From Stdlib Require Import String.
From S2P Require Import Prelude Memory.

Class Libc (X : Type) := {
  lc_malloc : Z -> X -> Z * X;                      (** size; 0 is NULL *)
  lc_free : Z -> X -> X;
  lc_mmap : Z -> Z -> Z -> X -> Z * X;              (** file, offset, size *)
  lc_munmap : Z -> Z -> X -> X;                     (** address, size *)
  lc_mkstemp : string -> X -> (Z * string) * X;     (** template: file, name *)
  lc_unlink : string -> X -> Z * X;
  lc_ftruncate : Z -> Z -> X -> Z * X;              (** file, size *)
  lc_close : Z -> X -> X;
}.

Definition MAP_FAILED : Z := two64 - 1.

Class LibcOk (X : Type) `{Libc X} := {
  (** the live blocks and mappings: address and size *)
  lc_live : X -> gmap Z Z;
  lc_range : forall x p n, lc_live x !! p = Some n -> 0 < p /\ 0 < n /\ p + n < two64;
  lc_apart : forall x p n q k, lc_live x !! p = Some n -> lc_live x !! q = Some k -> p <> q -> disjoint p n q k;
  lc_malloc_ok : forall x n, 0 < n ->
    if (lc_malloc n x).1 =? 0 then lc_live (lc_malloc n x).2 = lc_live x
    else lc_live x !! (lc_malloc n x).1 = None /\
         lc_live (lc_malloc n x).2 = <[(lc_malloc n x).1 := n]> (lc_live x);
  lc_free_ok : forall x p n, lc_live x !! p = Some n -> lc_live (lc_free p x) = delete p (lc_live x);
  lc_mmap_ok : forall x fd off n, 0 < n ->
    if (lc_mmap fd off n x).1 =? MAP_FAILED then lc_live (lc_mmap fd off n x).2 = lc_live x
    else lc_live x !! (lc_mmap fd off n x).1 = None /\
         lc_live (lc_mmap fd off n x).2 = <[(lc_mmap fd off n x).1 := n]> (lc_live x);
  lc_munmap_ok : forall x p n, lc_live x !! p = Some n -> lc_live (lc_munmap p n x) = delete p (lc_live x);
  lc_mkstemp_live : forall x t, lc_live (lc_mkstemp t x).2 = lc_live x;
  lc_unlink_live : forall x t, lc_live (lc_unlink t x).2 = lc_live x;
  lc_ftruncate_live : forall x fd n, lc_live (lc_ftruncate fd n x).2 = lc_live x;
  lc_close_live : forall x fd, lc_live (lc_close fd x) = lc_live x;
}.

Class Libfabric (X : Type) := {
  fi_REMOTE_READ : Z;
  fi_REMOTE_WRITE : Z;
  fi_RMA_PMEM : Z;
  (** address, size, access, flags, key: the status and the region *)
  fi_mr_reg : Z -> Z -> Z -> Z -> Z -> X -> (Z * Z) * X;
  fi_mr_key : Z -> X -> Z;
  fi_close : Z -> X -> X;
}.

Class LibfabricOk (X : Type) `{LibcOk X} `{Libfabric X} := {
  fi_mr_reg_live : forall x p n a f k, lc_live (fi_mr_reg p n a f k x).2 = lc_live x;
  fi_close_live : forall x mr, lc_live (fi_close mr x) = lc_live x;
  fi_mr_key_u64 : forall mr x, 0 <= fi_mr_key mr x < two64;       (** an uint64_t *)
}.
