(* ===== verification/Fabric.v ===== *)
(** * The messages and RDMA operations of libfabric

    What LibfabricConnection uses of an endpoint, its completion queue and its
    address vector.  They are outside the sources: the calls are parameters
    ([Fabric]) and what the connection relies on is stated by [FabricOk], over the
    operations that are under way: an accepted operation completes at most once,
    with the context it was posted with, and a refused one never does. *)

From S2P Require Import Prelude Memory System.

Inductive rdma_kind : Type := RDMA_READ | RDMA_WRITE.

Definition FI_EAGAIN : Z := 11.

(** struct fi_cq_msg_entry: [e_recv] is [flags & FI_RECV] *)
Record fi_cq_msg_entry : Type := mkEntry { e_recv : bool; e_op_context : Z }.

(** What fi_cq_read gives: an entry, -FI_EAGAIN or another error. *)
Inductive cq_result : Type := CQ_ENTRY (e : fi_cq_msg_entry) | CQ_EAGAIN | CQ_ERROR.

Class Fabric (X : Type) := {
  fi_send : Z -> list byte -> Z -> X -> Z * X;              (** address, message, context: status *)
  fi_recv : Z -> Z -> Z -> X -> Z * X;                      (** buffer, size, context: status *)
  (** kind, pieces of local memory, address, remote address and key, context: status *)
  fi_rma : rdma_kind -> list (Z * Z) -> Z -> Z -> Z -> Z -> X -> Z * X;
  (** blocking; the memory gets what the completed operation brings *)
  fi_cq_read : bool -> mem -> X -> (cq_result * mem) * X;
  fi_av_insert : list byte -> X -> (Z * Z) * X;             (** name: status and address *)
  fi_getname : X -> (Z * Z * list byte) * X;                (** status, length, array of IOC_LF_MAX_ADDR_LEN bytes *)
}.

Section ok.
Context {X : Type} `{Libc X} `{!LibcOk X} `{Libfabric X} `{Fabric X}.

(** An RDMA operation that was accepted *)
Record rma_post : Type := mkRma {
  rp_kind : rdma_kind;
  rp_iov : list (Z * Z);
  rp_addr : Z;
  rp_remote : Z;
  rp_key : Z;
  rp_context : Z;
}.

(** What is observed of the endpoint: the contexts of the operations under way,
    the receive buffers posted, the messages sent and the entries read so far, a
    bound on the refusals to come, and the RDMA operations accepted so far. *)
Record endpoint : Type := mkEndpoint {
  ep_ops : list Z;
  ep_recvs : list Z;
  ep_sent : list (Z * list byte);
  ep_read : list fi_cq_msg_entry;
  ep_refusals : nat;
  ep_rmas : list rma_post;
}.

Definition ep_busy (e : endpoint) : nat := (length (ep_ops e) + length (ep_recvs e))%nat.

(** The operation [context] posted with the status [err], and perhaps a message
    sent with it. *)
Definition posted (err context : Z) (msg : list (Z * list byte)) (e e' : endpoint) : Prop :=
  if err =? 0 then
    ep_ops e' ≡ₚ context :: ep_ops e /\ ep_recvs e' = ep_recvs e /\ ep_sent e' = ep_sent e ++ msg /\ ep_read e' = ep_read e
  else
    ep_ops e' = ep_ops e /\ ep_recvs e' = ep_recvs e /\ ep_sent e' = ep_sent e /\ ep_read e' = ep_read e /\
    (err = - FI_EAGAIN -> (ep_refusals e' < ep_refusals e)%nat).

(** A completion taken from the queue. *)
Definition taken (r : cq_result) (e e' : endpoint) : Prop :=
  ep_sent e' = ep_sent e /\ (ep_refusals e' <= ep_refusals e)%nat /\
  match r with
  | CQ_ENTRY (mkEntry true id) => ep_recvs e ≡ₚ id :: ep_recvs e' /\ ep_ops e' = ep_ops e /\ ep_read e' = ep_read e ++ [mkEntry true id]
  | CQ_ENTRY (mkEntry false c) => ep_ops e ≡ₚ c :: ep_ops e' /\ ep_recvs e' = ep_recvs e /\ ep_read e' = ep_read e ++ [mkEntry false c]
  | _ => ep_ops e' = ep_ops e /\ ep_recvs e' = ep_recvs e /\ ep_read e' = ep_read e
  end.

Class FabricOk := {
  fa_ep : X -> endpoint;
  fi_send_ok : forall x a l c, posted (fi_send a l c x).1 c [(a, l)] (fa_ep x) (fa_ep (fi_send a l c x).2);
  fi_rma_ok : forall x k iov a ra key c, posted (fi_rma k iov a ra key c x).1 c [] (fa_ep x) (fa_ep (fi_rma k iov a ra key c x).2);
  fi_recv_ok : forall x p n id,
    let e := fa_ep x in
    fa_ep (fi_recv p n id x).2 =
    if (fi_recv p n id x).1 =? 0 then mkEndpoint (ep_ops e) (id :: ep_recvs e) (ep_sent e) (ep_read e) (ep_refusals e) (ep_rmas e) else e;
  fi_send_rmas : forall x a l c, ep_rmas (fa_ep (fi_send a l c x).2) = ep_rmas (fa_ep x);
  fi_rma_rmas : forall x k iov a ra key c, ep_rmas (fa_ep (fi_rma k iov a ra key c x).2) =
    ep_rmas (fa_ep x) ++ (if (fi_rma k iov a ra key c x).1 =? 0 then [mkRma k iov a ra key c] else []);
  (** the bound is on all the refusals to come *)
  fi_rma_refusals : forall x k iov a ra key c, (ep_refusals (fa_ep (fi_rma k iov a ra key c x).2) <= ep_refusals (fa_ep x))%nat;
  fi_send_refusals : forall x a l c, (ep_refusals (fa_ep (fi_send a l c x).2) <= ep_refusals (fa_ep x))%nat;
  fi_cq_read_rmas : forall x b m, ep_rmas (fa_ep (fi_cq_read b m x).2) = ep_rmas (fa_ep x);
  fi_cq_read_ok : forall x b m, taken (fi_cq_read b m x).1.1 (fa_ep x) (fa_ep (fi_cq_read b m x).2);
  fi_av_insert_ep : forall x l, fa_ep (fi_av_insert l x).2 = fa_ep x;
  (** a name that does not fit in the 32 bytes of the array is an error *)
  fi_getname_ok : forall x, length (fi_getname x).1.2 = 32%nat /\ ((fi_getname x).1.1.1 = 0 -> (fi_getname x).1.1.2 <= 32);
  fi_getname_ep : forall x, fa_ep (fi_getname x).2 = fa_ep x;
  (** the memory that libfabric may write: the receive buffers posted and the
      pieces of the reads under way *)
  fa_target : X -> Z -> Prop;
  fi_cq_read_mem : forall x b m a, ~ fa_target x a -> (fi_cq_read b m x).1.2 a = m a;
  fi_cq_read_target : forall x b m a, fa_target (fi_cq_read b m x).2 a -> fa_target x a;
  fi_send_target : forall x d l c a, fa_target (fi_send d l c x).2 a -> fa_target x a;
  fi_recv_target : forall x p n id a, fa_target (fi_recv p n id x).2 a -> fa_target x a \/ p <= a < p + n;
  fi_rma_target : forall x k iov d ra key c a, fa_target (fi_rma k iov d ra key c x).2 a ->
    fa_target x a \/ k = RDMA_READ /\ exists v, v ∈ iov /\ v.1 <= a < v.1 + v.2;
  fi_av_insert_target : forall x l a, fa_target (fi_av_insert l x).2 a -> fa_target x a;
  fi_getname_target : forall x a, fa_target (fi_getname x).2 a -> fa_target x a;
  lc_malloc_target : forall x n a, fa_target (lc_malloc n x).2 a -> fa_target x a;
  fi_close_target : forall x mr a, fa_target (fi_close mr x) a -> fa_target x a;
  fi_mr_reg_target : forall x p n f g k a, fa_target (fi_mr_reg p n f g k x).2 a -> fa_target x a;
  (** the calls on memory and those on messages do not meet *)
  lc_malloc_ep : forall x n, fa_ep (lc_malloc n x).2 = fa_ep x;
  fi_close_ep : forall x mr, fa_ep (fi_close mr x) = fa_ep x;
  fi_mr_reg_ep : forall x p n a f k, fa_ep (fi_mr_reg p n a f k x).2 = fa_ep x;
  fi_send_live : forall x a l c, lc_live (fi_send a l c x).2 = lc_live x;
  fi_rma_live : forall x k iov a ra key c, lc_live (fi_rma k iov a ra key c x).2 = lc_live x;
  fi_recv_live : forall x p n id, lc_live (fi_recv p n id x).2 = lc_live x;
  fi_cq_read_live : forall x b m, lc_live (fi_cq_read b m x).2 = lc_live x;
  fi_av_insert_live : forall x l, lc_live (fi_av_insert l x).2 = lc_live x;
  fi_getname_live : forall x, lc_live (fi_getname x).2 = lc_live x;
}.
End ok.
Arguments FabricOk X {_ _ _ _}.
