(* ===== verification/Hooks.v ===== *)
(** * Hooks

    Model of src/src/server/hooks: the handlers of the requests, on the container
    and the world.  A handler is the code after the extraction of the request from
    the message ([Protocol] is about that).  What it asks of the connection is
    kept in the state: the responses and the receive buffers given back, in order,
    and the RDMA operations that are under way.  [complete_rdma] is the completion
    of one of them, in any order and between any requests: libfabric moves the
    data, then the callback of the handler runs. *)

From S2P Require Import Prelude StdMap Memory IntervalMap Interfaces ConsistencyTracker Protocol World WorldInv View ObjectSegment Object Calm ObjectAccess ObjectData ObjectFlush ObjectCow Container System Fabric.

Module Hooks.
Import Protocol Object Calm ObjectAccess ObjectData ObjectFlush Container.

Definition IOC_LF_MAX_RDMA_SEGS : nat := 4.

(** struct LibfabricClientRequest, with the bytes attached to the message *)
Record LibfabricClientRequest : Type := mkRequest {
  rq_lfClientId : Z;
  rq_msgBufferId : Z;
  rq_header : LibfabricMessageHeader;
  rq_data : list byte;
}.

(** What the connection has been asked to do, and what it has done. *)
Inductive event : Type :=
| Response (msgType : LibfabricMessageType) (lfClientId status : Z) (data : option (list byte))
| Stored (lfClientId addr key : Z) (data : list byte)   (** written to the client by RDMA *)
| Repost (msgBufferId : Z).

(** An RDMA operation under way: [rm_ops] and [rm_size] are captured by its
    callback. *)
Record rdma : Type := mkRdma {
  rm_kind : rdma_kind;
  rm_lfClientId : Z;
  rm_iov : list (Z * Z);
  rm_addr : Z;
  rm_key : Z;
  rm_ops : Z;
  rm_size : Z;
}.

Record Hk {E S : Type} : Type := mkHk {
  hk_cw : Container * World E S;
  hk_out : list event;
  hk_rdma : list rdma;
  hk_ops : gmap Z Z;      (** the counters [new int], by address *)
  hk_nextOps : Z;
  hk_readSize : Z;        (** struct ServerStats *)
  hk_writeSize : Z;
}.
Arguments Hk : clear implicits.

(** ObjectId::ObjectId(const LibfabricObjectId &) *)
Definition of_network (id : LibfabricObjectId) : ObjectId := mkId (oid_low id) (oid_high id).

(** The vector cut in groups of what one RDMA operation takes. *)
Fixpoint groups {A} (fuel : nat) (l : list A) : list (list A) :=
  match fuel, l with
  | Datatypes.S fuel', _ :: _ => take IOC_LF_MAX_RDMA_SEGS l :: groups fuel' (drop IOC_LF_MAX_RDMA_SEGS l)
  | _, _ => []
  end.

Section hooks.
Context {E S : Type} `{MemoryProvider E} `{StorageBackend S}.
Abbreviation HS := (Hk E S).

Definition with_cw (cw : Container * World E S) (s : HS) : HS :=
  mkHk _ _ cw (hk_out s) (hk_rdma s) (hk_ops s) (hk_nextOps s) (hk_readSize s) (hk_writeSize s).
Definition on_cw {A} (m : M (Container * World E S) A) : M HS A := fun s =>
  match m (hk_cw s) with
  | Ok (a, cw) => Ok (a, with_cw cw s)
  | Abort f => Abort f
  end.
Definition on_world {A} (m : M (World E S) A) : M HS A := on_cw (lift m).
Definition emit (e : event) : M HS unit := modify (fun s =>
  mkHk _ _ (hk_cw s) (hk_out s ++ [e]) (hk_rdma s) (hk_ops s) (hk_nextOps s) (hk_readSize s) (hk_writeSize s)).
Definition set_rdma (l : list rdma) : M HS unit := modify (fun s =>
  mkHk _ _ (hk_cw s) (hk_out s) l (hk_ops s) (hk_nextOps s) (hk_readSize s) (hk_writeSize s)).
Definition set_ops (m : gmap Z Z) (next : Z) : M HS unit := modify (fun s =>
  mkHk _ _ (hk_cw s) (hk_out s) (hk_rdma s) m next (hk_readSize s) (hk_writeSize s)).
Definition add_stats (rd wr : Z) : M HS unit := modify (fun s =>
  mkHk _ _ (hk_cw s) (hk_out s) (hk_rdma s) (hk_ops s) (hk_nextOps s) (hk_readSize s +u rd) (hk_writeSize s +u wr)).

(** LibfabricConnection::sendResponse, without data and with fragments: a
    fragment that is not initialised is undefined. *)
Definition sendResponse (t : LibfabricMessageType) (lfClientId status : Z) : M HS unit :=
  emit (Response t lfClientId status None).
Definition sendFragments (t : LibfabricMessageType) (lfClientId status : Z) (fragments : list (option (Z * Z))) : M HS unit :=
  assert_ (Z.of_nat (length fragments) <? 4294967295) ;;
  let! l := of_option FOverrun (mapM (fun x => x) fragments) in
  let! m := gets (fun s => w_mem (hk_cw s).2) in
  emit (Response t lfClientId status (Some (gather m l))).

(** LibfabricClientRequest::terminate *)
Definition terminate (request : LibfabricClientRequest) : M HS unit := emit (Repost (rq_msgBufferId request)).

(** The part of a segment to copy when [cur] bytes are copied: the common body of
    the loops of objEagerPushToClient and objEagerExtractFromMessage. *)
Definition eager_piece {T : Type} (dataSize baseOffset cur : Z) (segment : ObjectSegmentDescr) : M T (Z * Z) :=
  let '(offset, copySize) :=
    if baseOffset >? d_offset segment
    then (baseOffset -u d_offset segment, d_size segment -u (baseOffset -u d_offset segment))
    else (0, d_size segment) in
  assert_ (copySize <=? d_size segment) ;;
  let copySize := if cur +u copySize >? dataSize then dataSize -u cur else copySize in
  assert_ (offset <? d_size segment) ;;
  assert_ (copySize <=? d_size segment) ;;
  assert_ (copySize <=? d_size segment -u offset) ;;
  ret (u64 (d_ptr segment + offset), copySize).

(** The bytes [cur, cur+n) of the attached data; outside of it is undefined. *)
Definition message_bytes (data : list byte) (cur n : Z) : M HS (list byte) :=
  if cur + n <=? Z.of_nat (length data) then ret (take (Z.to_nat n) (drop (Z.to_nat cur) data)) else abort FOverrun.

(** The loop of objEagerExtractFromMessage *)
Definition extract_step (dataSize baseOffset : Z) (data : list byte) (cur : Z) (segment : ObjectSegmentDescr) : M HS Z :=
  let! piece := eager_piece dataSize baseOffset cur segment in
  let! bytes := message_bytes data cur piece.2 in
  on_world (modify (set_mem (fun m => wr m piece.1 bytes))) ;;
  ret (cur +u piece.2).

(** HookObjectWrite::objEagerExtractFromMessage *)
Definition objEagerExtractFromMessage (lfClientId : Z) (objReadWrite : LibfabricObjReadWriteInfos) (data : list byte)
    (segments : list ObjectSegmentDescr) : M HS unit :=
  assert_ (negb (rw_optionalData objReadWrite =? 0)) ;;
  let! cur := fold_m (extract_step (rw_size objReadWrite) (rw_offset objReadWrite) data) 0 segments in
  add_stats 0 cur ;;
  sendResponse IOC_LF_MSG_OBJ_READ_WRITE_ACK lfClientId 0.

(** The loop of objEagerPushToClient; [i] stays 0 in it. *)
Definition push_step (dataSize baseOffset : Z) (acc : Z * list (option (Z * Z))) (segment : ObjectSegmentDescr)
    : M HS (Z * list (option (Z * Z))) :=
  let i := 0%nat in
  let! piece := eager_piece dataSize baseOffset acc.1 segment in
  ret (acc.1 +u piece.2, <[i := Some piece]> acc.2).

(** HookObjectRead::objEagerPushToClient *)
Definition objEagerPushToClient (lfClientId : Z) (objReadWrite : LibfabricObjReadWriteInfos)
    (segments : list ObjectSegmentDescr) : M HS unit :=
  let! r := fold_m (push_step (rw_size objReadWrite) (rw_offset objReadWrite))
              (0, replicate (length segments) None) segments in
  add_stats (rw_size objReadWrite) 0 ;;
  sendFragments IOC_LF_MSG_OBJ_READ_WRITE_ACK lfClientId 0 r.2.

(** [new int], set to the number of operations to come *)
Definition new_ops (n : Z) : M HS Z :=
  let! s := gets (fun s => s) in
  set_ops (<[hk_nextOps s := n]> (hk_ops s)) (hk_nextOps s + 1) ;;
  ret (hk_nextOps s).

(** LibfabricConnection::rdmaReadv and rdmaWritev *)
Definition post_rdma (op : rdma) : M HS unit :=
  let! s := gets (fun s => s) in set_rdma (hk_rdma s ++ [op]).

(** One turn of the loops of objRdmaPushToClient and objRdmaFetchFromClient *)
Definition rdma_step (kind : rdma_kind) (lfClientId : Z) (iov : Iov) (ops size offset : Z) (grp : list (Z * Z)) : M HS Z :=
  let addr := iov_addr iov +u offset in
  post_rdma (mkRdma kind lfClientId grp addr (iov_key iov) ops size) ;;
  ret (foldl (fun o v => o +u v.2) offset grp).

(** HookObjectRead::objRdmaPushToClient and HookObjectWrite::objRdmaFetchFromClient,
    which are the same but for the direction *)
Definition objRdma (kind : rdma_kind) (lfClientId : Z) (objReadWrite : LibfabricObjReadWriteInfos)
    (segments : list ObjectSegmentDescr) : M HS unit :=
  let iov := (buildIovec segments (rw_offset objReadWrite) (rw_size objReadWrite)).2 in
  let size := rw_size objReadWrite in
  let! ops := new_ops (Z.of_nat (length (groups (length iov) iov))) in
  let! _ := fold_m (rdma_step kind lfClientId (rw_iov objReadWrite) ops size) 0 (groups (length iov) iov) in
  ret tt.
Definition objRdmaPushToClient := objRdma RDMA_WRITE.
Definition objRdmaFetchFromClient := objRdma RDMA_READ.

(** The callback of the RDMA operations of both hooks *)
Definition rdma_callback (op : rdma) : M HS unit :=
  let! s := gets (fun s => s) in
  let! ops := of_option FNullPointer (hk_ops s !! rm_ops op) in
  set_ops (<[rm_ops op := ops - 1]> (hk_ops s)) (hk_nextOps s) ;;
  if ops - 1 =? 0 then
    match rm_kind op with
    | RDMA_WRITE => add_stats (rm_size op) 0
    | RDMA_READ => add_stats 0 (rm_size op)
    end ;;
    sendResponse IOC_LF_MSG_OBJ_READ_WRITE_ACK (rm_lfClientId op) 0 ;;
    let! s := gets (fun s => s) in
    set_ops (delete (rm_ops op) (hk_ops s)) (hk_nextOps s)
  else ret tt.

(** The completion of the operation number [k]; [data] is what libfabric fetched
    from the client. *)
Definition complete_rdma (k : nat) (data : list byte) : M HS unit :=
  let! s := gets (fun s => s) in
  let! op := of_option FNullPointer (hk_rdma s !! k) in
  set_rdma (delete k (hk_rdma s)) ;;
  match rm_kind op with
  | RDMA_READ => on_world (modify (set_mem (fun m => scatter m (rm_iov op) data)))
  | RDMA_WRITE => emit (Stored (rm_lfClientId op) (rm_addr op) (rm_key op) (gather (w_mem (hk_cw s).2) (rm_iov op)))
  end ;;
  rdma_callback op.

(** HookObjectRead::onMessage *)
Definition HookObjectRead_onMessage (request : LibfabricClientRequest) (objReadWrite : LibfabricObjReadWriteInfos) : M HS unit :=
  let! object := on_cw (getObject (of_network (rw_objectId objReadWrite))) in
  let! r := on_world (getBuffers object (rw_offset objReadWrite) (rw_size objReadWrite) ACCESS_READ true false) in
  (if r.1 then
     if rw_size objReadWrite <=? IOC_EAGER_MAX_READ
     then objEagerPushToClient (rq_lfClientId request) objReadWrite r.2
     else objRdmaPushToClient (rq_lfClientId request) objReadWrite r.2
   else sendResponse IOC_LF_MSG_OBJ_READ_WRITE_ACK (rq_lfClientId request) (-1)) ;;
  terminate request.

(** HookObjectWrite::onMessage *)
Definition HookObjectWrite_onMessage (request : LibfabricClientRequest) (objReadWrite : LibfabricObjReadWriteInfos) : M HS unit :=
  let! object := on_cw (getObject (of_network (rw_objectId objReadWrite))) in
  let! r := on_world (getBuffers object (rw_offset objReadWrite) (rw_size objReadWrite) ACCESS_WRITE true true) in
  (if r.1 then
     if rw_msgHasData objReadWrite
     then objEagerExtractFromMessage (rq_lfClientId request) objReadWrite (rq_data request) r.2
     else objRdmaFetchFromClient (rq_lfClientId request) objReadWrite r.2
   else sendResponse IOC_LF_MSG_OBJ_READ_WRITE_ACK (rq_lfClientId request) 0) ;;
  on_world (markDirty object (rw_offset objReadWrite) (rw_size objReadWrite)) ;;
  terminate request.

(** HookFlush::onMessage *)
Definition HookFlush_onMessage (request : LibfabricClientRequest) (objFlush : LibfabricObjFlushInfos) : M HS unit :=
  let! object := on_cw (getObject (of_network (fl_objectId objFlush))) in
  let! r := on_world (flush object (fl_offset objFlush) (fl_size objFlush)) in
  sendResponse IOC_LF_MSG_OBJ_FLUSH_ACK (rq_lfClientId request) r ;;
  terminate request.

(** HookObjectCreate::onMessage *)
Definition HookObjectCreate_onMessage (request : LibfabricClientRequest) (objCreate : LibfabricObjCreateInfos) : M HS unit :=
  let! object := on_cw (getObject (of_network (cr_objectId objCreate))) in
  let! r := on_world (create object) in
  sendResponse IOC_LF_MSG_OBJ_CREATE_ACK (rq_lfClientId request) r ;;
  terminate request.

(** HookObjectCow::onMessage *)
Definition HookObjectCow_onMessage (request : LibfabricClientRequest) (objCow : LibfabricObjectCow) : M HS unit :=
  let sourceId := of_network (cow_sourceObjectId objCow) in
  let destId := of_network (cow_destObjectId objCow) in
  let! status :=
    if cow_rangeSize objCow =? 0
    then on_cw (makeObjectFullCow sourceId destId (cow_allowExist objCow))
    else on_cw (makeObjectRangeCow sourceId destId (cow_allowExist objCow) (cow_rangeOffset objCow) (cow_rangeSize objCow)) in
  sendResponse IOC_LF_MSG_OBJ_COW_ACK (rq_lfClientId request) (if status then 0 else -1) ;;
  terminate request.

Definition access_mode (write : bool) : ConsistencyTracker.ConsistencyAccessMode :=
  if write then ConsistencyTracker.CONSIST_ACCESS_MODE_WRITE else ConsistencyTracker.CONSIST_ACCESS_MODE_READ.

(** HookRangeRegister::onMessage, with [config->consistencyCheck] *)
Definition HookRangeRegister_onMessage (consistencyCheck : bool) (request : LibfabricClientRequest)
    (registerRange : LibfabricRegisterRange) : M HS unit :=
  let! object := on_cw (getObject (of_network (rr_objectId registerRange))) in
  let! status :=
    if consistencyCheck then
      let! o := on_world (get_obj object) in
      let '(status, tracker) := ConsistencyTracker.registerRange (hdr_tcpClientId (rq_header request))
        (rr_offset registerRange) (rr_size registerRange) (access_mode (rr_write registerRange)) (o_consistencyTracker o) in
      on_world (update_obj object (set_tracker tracker)) ;;
      ret status
    else ret 0 in
  sendResponse IOC_LF_MSG_OBJ_RANGE_REGISTER_ACK (rq_lfClientId request) status ;;
  terminate request.

(** HookRangeUnregister::onMessage *)
Definition HookRangeUnregister_onMessage (consistencyCheck : bool) (request : LibfabricClientRequest)
    (unregisterRange : LibfabricUnregisterRange) : M HS unit :=
  let! object := on_cw (getObject (of_network (ur_objectId unregisterRange))) in
  let! status :=
    if consistencyCheck then
      let! o := on_world (get_obj object) in
      let '(found, tracker) := ConsistencyTracker.unregisterRange (hdr_tcpClientId (rq_header request))
        (ur_id unregisterRange) (ur_offset unregisterRange) (ur_size unregisterRange)
        (access_mode (ur_write unregisterRange)) (o_consistencyTracker o) in
      on_world (update_obj object (set_tracker tracker)) ;;
      ret (if found then 0 else -1)
    else ret 0 in
  sendResponse IOC_LF_MSG_OBJ_RANGE_UNREGISTER_ACK (rq_lfClientId request) status ;;
  terminate request.
End hooks.
End Hooks.
