(* ===== verification/Requests.v ===== *)
(** * What the requests do

    Theorems about the hooks.  The specification is the function [shown]: what
    the server shows of each byte of each object, whether it has it in memory or
    only in the storage.  A read answers it, a write changes it on its range and
    nowhere else. *)

From S2P Require Import Prelude StdMap Memory IntervalMap Interfaces ConsistencyTracker Protocol World WorldInv View ObjectSegment Object Calm ObjectAccess ObjectData ObjectFlush ObjectCow Container System Fabric Hooks.

Module Requests.
Import Protocol Object Calm ObjectAccess ObjectData ObjectFlush Container Hooks.

Section requests.
Context {E S : Type} `{MemoryProviderOk E} `{StorageOk S}.
Abbreviation W := (World E S).
Abbreviation C := (Container * World E S)%type.
Abbreviation HS := (Hk E S).
Implicit Types (w : W) (c : Container) (cw : C) (s : HS).

(** ** The specification *)
Definition shown cw (id : ObjectId) (x : Z) : option byte :=
  match sm_find id (c_objects cw.1) with
  | Some p => o ← w_objects cw.2 !! p; obj_view cw.2 o x
  | None =>
      if c_storageBackend cw.1 =? 0 then None
      else Some (sb_contents (w_store cw.2) (c_storageBackend cw.1) (id_high id) (id_low id) x)
  end.

(** Every byte known in [cw] is the same in [cw'], but those of [X]. *)
Definition shown_le (X : ObjectId -> Z -> Prop) cw cw' : Prop :=
  forall id x b, ~ X id x -> shown cw id x = Some b -> shown cw' id x = Some b.

Lemma shown_le_trans X cw1 cw2 cw3 : shown_le X cw1 cw2 -> shown_le X cw2 cw3 -> shown_le X cw1 cw3.
Proof. unfold shown_le. eauto. Qed.

(** An access of the world below, the storage being the same. *)
Lemma shown_view X c w w' :
  container_ok (c, w) -> sb_contents (w_store w') = sb_contents (w_store w) -> view_le X w w' ->
  shown_le (fun id x => exists p, sm_find id (c_objects c) = Some p /\ X p x) (c, w) (c, w').
Proof.
  intros Hc Hst Hv id x b Hx. unfold shown. cbn [fst snd]. destruct (sm_find id (c_objects c)) as [p|] eqn:Hf; [|by rewrite Hst].
  destruct (co_entry _ Hc _ _ Hf) as (o & Ho & _). simpl in Ho. rewrite Ho. simpl. intros Hb.
  destruct (Hv _ _ Ho) as (o' & -> & _ & Hv'). simpl. apply Hv'; [|done]. intros HX. apply Hx. eauto.
Qed.

(** ** The object of a request *)

(** The machine bounds of an access. *)
Definition fits (base size a : Z) : Prop :=
  0 <= base /\ 0 < size /\ base + size + a < two63 /\ size + 2 * a < 2147483648.

(** The object is regular and its alignement suits the request, or it will be
    created. *)
Definition accessible c w (id : ObjectId) (suits : Z -> Prop) : Prop :=
  match sm_find id (c_objects c) with
  | Some p => forall o, w_objects w !! p = Some o -> regular_obj w o /\ suits (o_alignement o)
  | None => suits (c_objectSegmentsAlignement c)
  end.

(** The alignement of the segments of an object, even one that is not created. *)
Definition align_of cw (id : ObjectId) : Z :=
  match sm_find id (c_objects cw.1) with
  | Some p => match w_objects cw.2 !! p with Some o => o_alignement o | None => 0 end
  | None => c_objectSegmentsAlignement cw.1
  end.

Lemma accessible_align c w id suits :
  accessible c w id suits -> accessible c w id (fun a => suits a /\ a = align_of (c, w) id).
Proof.
  unfold accessible, align_of. cbn [fst snd]. destruct (sm_find id (c_objects c)) as [p|]; [|done].
  intros Ha o Ho. rewrite Ho. destruct (Ha o Ho). done.
Qed.

Lemma accessible_weaken c w id (P Q : Z -> Prop) : (forall a, P a -> Q a) -> accessible c w id P -> accessible c w id Q.
Proof.
  unfold accessible. intros HPQ. destruct (sm_find id (c_objects c)); [|apply HPQ]. intros Ha o Ho. destruct (Ha o Ho). auto.
Qed.

(** The storage serves the reads of the object in the units around the range. *)
Definition readable_at cw (id : ObjectId) (base size : Z) : Prop :=
  let r := align_range (align_of cw id) base size in reads_in (w_store cw.2) (c_storageBackend cw.1) id r.1 (r.1 + r.2).

(** The bytes of the object that a write to the range may change: those of the range
    and, only when a read of the storage fails, those of the units around it. *)
Definition touched_at cw (id : ObjectId) (base size x : Z) : Prop :=
  let r := align_range (align_of cw id) base size in
  base <= x < base + size \/ ~ readable_at cw id base size /\ r.1 <= x < r.1 + r.2.

(** The object has the same units and the same storage. *)
Definition same_reads cw (id : ObjectId) cw' : Prop :=
  align_of cw' id = align_of cw id /\ c_storageBackend cw'.1 = c_storageBackend cw.1 /\ sb_contents (w_store cw'.2) = sb_contents (w_store cw.2).

Lemma readable_same cw id cw' base size : same_reads cw id cw' -> readable_at cw id base size -> readable_at cw' id base size.
Proof. intros (Ha & Hs & Hc). unfold readable_at. rewrite Ha, Hs. intros Hr. by eapply reads_in_sub; [exact Hr|..]. Qed.
Lemma same_reads_sym cw id cw' : same_reads cw id cw' -> same_reads cw' id cw.
Proof. by intros (? & ? & ?). Qed.
Lemma touched_same cw id cw' base size x : same_reads cw id cw' -> touched_at cw' id base size x -> touched_at cw id base size x.
Proof.
  intros Hr. unfold touched_at. rewrite (proj1 Hr). intros [?|[Hn ?]]; [by left|right]. split; [|done].
  intros Hx. apply Hn. by eapply readable_same.
Qed.

(** The same for an object that exists. *)
Lemma readable_entry c w id p o base size :
  container_ok (c, w) -> sm_find id (c_objects c) = Some p -> w_objects w !! p = Some o ->
  (readable w o base size <-> readable_at (c, w) id base size) /\ forall x, touched w o base size x <-> touched_at (c, w) id base size x.
Proof.
  intros Hc Hf Ho. destruct (co_entry _ Hc _ _ Hf) as (o1 & Ho1 & Hid & Hsb). cbn [fst snd] in *. assert (o1 = o) as -> by congruence.
  unfold touched, touched_at, readable, readable_at, align_of. cbn [fst snd]. rewrite Hf, Ho, Hid, Hsb. done.
Qed.

(** After getObject. *)
Definition opened cw (id : ObjectId) (suits : Z -> Prop) (p : Z) cw' : Prop :=
  container_ok cw' /\ sm_find id (c_objects cw'.1) = Some p /\ (forall i x, shown cw' i x = shown cw i x) /\ same_reads cw id cw' /\
  exists o, w_objects cw'.2 !! p = Some o /\ regular_obj cw'.2 o /\ suits (o_alignement o).

Lemma wp_open_any c w id :
  container_ok (c, w) ->
  wp never (getObject id) (fun p cw' => container_ok cw' /\ sm_find id (c_objects cw'.1) = Some p /\ (forall i x, shown cw' i x = shown (c, w) i x) /\
    exists o, w_objects cw'.2 !! p = Some o /\
      match sm_find id (c_objects c) with
      | Some q => q = p /\ cw' = (c, w)
      | None => o_segmentMap o = [] /\ o_alignement o = c_objectSegmentsAlignement c /\
          c_storageBackend cw'.1 = c_storageBackend c /\ w_store cw'.2 = w_store w
      end) (c, w).
Proof.
  intros Hc. unfold getObject. apply wp_bind, wp_gets. cbn [fst]. destruct (sm_find id (c_objects c)) as [p|] eqn:Hf.
  - apply wp_ret. split; [done|]. split; [done|]. split; [done|]. destruct (co_entry _ Hc _ _ Hf) as (o & Ho & _). by exists o.
  - eapply wp_mono; [by apply wp_create_object|]. intros p cw' (Hp & Hcw & Hfr & Hc').
    split; [done|]. subst cw'. cbn [fst snd]. split; [apply sm_find_insert_eq|]. split.
    + intros i x. unfold shown. cbn [fst snd]. destruct (decide (i = id)) as [->|Hne].
      * unfold set_c_objects. cbn [c_objects c_storageBackend]. rewrite sm_find_insert_eq, Hf. simpl. by rewrite lookup_insert_eq.
      * unfold set_c_objects. cbn [c_objects c_storageBackend]. rewrite sm_find_insert_ne by done.
        destruct (sm_find i (c_objects c)) as [q|] eqn:Hq; [|done]. destruct (co_entry _ Hc _ _ Hq) as (o & Ho & _). simpl in Ho.
        simpl. rewrite lookup_insert_ne; [done|]. intros ->. congruence.
    + eexists. split; [apply lookup_insert_eq|done].
Qed.

Lemma wp_open c w id suits :
  container_ok (c, w) -> accessible c w id suits ->
  wp never (getObject id) (opened (c, w) id suits) (c, w).
Proof.
  intros Hc Ha. eapply wp_mono; [by apply wp_open_any|]. intros p cw' (Hc' & Hf & Hsh & o & Ho & Hcase). split; [done|]. split; [done|]. split; [done|].
  unfold accessible in Ha. destruct (sm_find id (c_objects c)) as [q|] eqn:Eq.
  - destruct Hcase as [-> ->]. split; [done|]. exists o. split; [done|]. by apply Ha.
  - destruct Hcase as (Hm & Hal & Hsb & Hst). split.
    { unfold same_reads, align_of. cbn [fst snd]. by rewrite Hf, Ho, Eq, Hal, Hsb, Hst. }
    exists o. split; [done|]. rewrite Hal. split; [|done]. unfold regular_obj, spans. rewrite Hm. constructor.
Qed.

(** ** The connection side *)
Lemma wp_on_cw F {A} (m : M C A) (Q : A -> HS -> Prop) s :
  wp F m (fun a cw => Q a (with_cw cw s)) (hk_cw s) -> wp F (on_cw m) Q s.
Proof. unfold wp, on_cw. by destruct (m _) as [[a cw]|f]. Qed.
Lemma wp_on_world F {A} (m : M W A) (Q : A -> HS -> Prop) s :
  wp F m (fun a w => Q a (with_cw ((hk_cw s).1, w) s)) (hk_cw s).2 -> wp F (on_world m) Q s.
Proof. intros Hm. apply wp_on_cw, wp_lift, Hm. Qed.

(** ** Eager copies *)

(** The part copied of a segment is the one [buildIovec] gives. *)
Lemma eager_piece_run {T} u base size cur d (s : T) :
  0 <= base -> 0 < size -> base + size < two63 -> 0 <= cur -> sound_cut u base size d ->
  d_offset (clip base size d) = base + cur ->
  eager_piece size base cur d s = Ok ((d_ptr (clip base size d), d_size (clip base size d)), s).
Proof.
  intros Hb Hs He Hcur (Ho & Hz & Hend & Hp & Hpe & Hcut & _) Hat. pose proof two63_two64.
  destruct (clip_spec base size d) as (Eo & Ee & Ep & Eptr); try done. destruct Hcut as (Hc1 & Hc2 & _ & _).
  rewrite Eo in Hat. rewrite Eo in Ee, Eptr. unfold eager_piece.
  set (off := if base >? d_offset d then base - d_offset d else 0).
  assert ((if base >? d_offset d then (base -u d_offset d, d_size d -u (base -u d_offset d)) else (0, d_size d)) = (off, d_size d - off)) as ->.
  { unfold off. destruct (base >? d_offset d) eqn:E1; [|f_equal; lia].
    rewrite (u64_small (base - d_offset d)), (u64_small (d_size d - _)) by lia. done. }
  assert (off = Z.max base (d_offset d) - d_offset d) as Hoff by (unfold off; destruct (base >? d_offset d) eqn:E1; lia).
  cbn beta iota zeta. unfold assert_, guard_, bind, ret. rewrite (proj2 (Z.leb_le (d_size d - off) (d_size d))) by lia.
  rewrite (u64_small (cur + _)) by lia.
  assert ((if cur + (d_size d - off) >? size then size -u cur else d_size d - off) = d_size (clip base size d)) as ->.
  { destruct (cur + (d_size d - off) >? size) eqn:E2; [rewrite u64_small by lia|]; lia. }
  rewrite (proj2 (Z.ltb_lt off (d_size d))) by lia. rewrite (proj2 (Z.leb_le (d_size (clip base size d)) (d_size d))) by lia.
  rewrite (u64_small (d_size d - off)) by lia. rewrite (proj2 (Z.leb_le _ (d_size d - off))) by lia.
  rewrite (u64_small (d_ptr d + off)) by lia. do 3 f_equal. lia.
Qed.

(** A write of memory by the handler. *)
Definition poke (f : mem -> mem) s : HS := with_cw ((hk_cw s).1, set_mem f (hk_cw s).2) s.

(** The loop of objEagerExtractFromMessage *)
Lemma extract_run u base size data ds cur s :
  0 <= base -> 0 < size -> base + size < two63 -> 0 <= cur -> Forall (sound_cut u base size) ds ->
  tiles (base + cur) (base + size) (clip base size <$> ds) -> Z.of_nat (length data) = size ->
  fold_m (extract_step size base data) cur ds s =
  Ok (size, poke (fun m => scatter m (iov_of (clip base size <$> ds)) (drop (Z.to_nat cur) data)) s).
Proof.
  intros Hb Hs He. revert cur s. induction ds as [|d ds IH]; intros cur s Hcur Hds Ht Hl.
  - simpl in Ht. unfold fold_m, ret. replace cur with size by lia.
    unfold poke. destruct s as [[c []] ? ? ? ? ? ?]. done.
  - apply Forall_cons in Hds as [Hd Hds]. destruct Ht as (Hat & Hz & Ht). pose proof (tiles_le _ _ _ Ht) as Hle. pose proof two63_two64.
    simpl fold_m. unfold bind at 1, extract_step at 1, bind at 1. rewrite (eager_piece_run u) by done.
    unfold bind at 1, message_bytes. cbn [fst snd]. set (n := d_size (clip base size d)) in *.
    destruct (cur + n <=? Z.of_nat (length data)) eqn:El; [|lia]. unfold ret at 1.
    unfold bind, on_world, on_cw, lift, modify, ret. cbn [fst snd]. rewrite u64_small by lia.
    change (with_cw _ s) with (poke (fun m => wr m (d_ptr (clip base size d)) (take (Z.to_nat n) (drop (Z.to_nat cur) data))) s).
    replace (base + cur + n) with (base + (cur + n)) in Ht by lia. rewrite IH; [|lia|done|done|done].
    rewrite fmap_cons. unfold iov_of. rewrite fmap_cons. cbn [scatter]. fold n. rewrite drop_drop.
    replace (Z.to_nat (cur + n)) with (Z.to_nat cur + Z.to_nat n)%nat by lia. done.
Qed.

(** ** The effect of a write *)
Lemma view_mem w f g o x :
  (forall a, f (w_mem w) a = g (w_mem w) a) -> obj_view (set_mem f w) o x = obj_view (set_mem g w) o x.
Proof. intros Hfg. unfold obj_view. simpl. case_match; [|done]. case_match. by rewrite Hfg. Qed.

(** The state after the data has reached the memory and the segments are dirty. *)
Definition dirtied w (p base size : Z) w' : Prop :=
  exists o, w_objects w !! p = Some o /\
    w' = redirty_world w p o (fun seg => os_dirty seg || in_range w base size seg).

Record write_done cw (id : ObjectId) (base size : Z) (data : list byte) cw' : Prop := {
  wd_ok : container_ok cw';
  wd_data : forall x, base <= x < base + size -> shown cw' id x = data !! Z.to_nat (x - base);
  wd_rest : shown_le (fun i x => i = id /\ touched_at cw id base size x) cw cw';
  wd_dirty : forall p o k seg, sm_find id (c_objects cw'.1) = Some p -> w_objects cw'.2 !! p = Some o ->
    In (k, seg) (o_segmentMap o) -> os_offset seg < base + size -> base < os_offset seg + seg_size (w_shared cw'.2) seg ->
    os_dirty seg = true;
  wd_again : accessible cw'.1 cw'.2 id (fun a => a = align_of cw id);
  wd_reads : same_reads cw id cw';
}.

Lemma redirty_regular w p o f : regular_obj w o -> regular_obj (redirty_world w p o f) (set_segmentMap (redirty f <$> o_segmentMap o) o).
Proof.
  unfold regular_obj, spans. simpl. intros Hr. rewrite <- list_fmap_compose. exact Hr.
Qed.

Lemma dirtied_shown c w p base size w' id x :
  container_ok (c, w) -> dirtied w p base size w' -> shown (c, w') id x = shown (c, w) id x.
Proof.
  intros Hc (o & Ho & ->). unfold shown. cbn [fst snd]. destruct (sm_find id (c_objects c)) as [q|]; [|done]. simpl.
  destruct (decide (q = p)) as [->|Hne].
  - rewrite lookup_insert_eq, Ho. simpl. by rewrite (redirty_view w [] None) by (done || apply (co_world _ Hc)).
  - by rewrite lookup_insert_ne.
Qed.

Lemma write_done_intro c w w1 f p id o base size ds data w' :
  container_ok (c, w) -> sm_find id (c_objects c) = Some p -> calm w w1 ->
  world_ok w1 [] None -> sb_contents (w_store w1) = sb_contents (w_store w) ->
  view_le (fun q x => q = p /\ touched_at (c, w) id base size x) w w1 ->
  cut_buffers w1 p o ACCESS_WRITE base size ds -> Z.of_nat (length data) = size ->
  (forall a, f (w_mem w1) a = scatter (w_mem w1) (buildIovec ds base size).2 data a) ->
  (forall o', w_objects w1 !! p = Some o' -> regular_obj w1 o' /\ o_alignement o' = align_of (c, w) id) ->
  dirtied (set_mem f w1) p base size w' -> write_done (c, w) id base size data (c, w').
Proof.
  intros Hc Hf Hcalm Hw1 Hst Hv Hcut Hl Hmem Hagain Hd.
  destruct (cut_write _ w w1 p o base size ds data Hw1 Hcut Hl Hv) as (_ & Hv2 & o' & Ho' & _ & _ & Hdata).
  { intros x Hx. split; [done|]. by left. }
  set (g := fun m => scatter m (buildIovec ds base size).2 data) in *.
  assert (container_ok (c, set_mem f w1)) as Hc2.
  { eapply container_calm; [exact Hc|by apply world_ok_mem|]. destruct Hcalm. by constructor. }
  assert (view_le (fun q x => q = p /\ touched_at (c, w) id base size x) w (set_mem f w1)) as Hvf.
  { intros q oq Hq. destruct (Hv2 q oq Hq) as (oq' & Hq' & Hm & Hx). exists oq'. split; [done|]. split; [done|].
    intros x b Hn Hb. rewrite (view_mem w1 f g) by done. by apply Hx. }
  pose proof Hd as (o2 & Ho2 & ->). simpl in Ho2, Ho'. assert (o2 = o') as -> by congruence. constructor.
  - eapply container_calm; [exact Hc2|apply redirty_ok; [apply (co_world _ Hc2)|done]|].
    constructor; [|done]. intros q. simpl. destruct (decide (q = p)) as [->|Hne]; [by rewrite lookup_insert_eq, Ho'|by rewrite lookup_insert_ne].
  - intros x Hx. rewrite (dirtied_shown c (set_mem f w1) p base size) by done. unfold shown. cbn [fst snd]. rewrite Hf. simpl.
    rewrite Ho'. simpl. rewrite (view_mem w1 f g) by done. by apply Hdata.
  - intros i x b Hn Hb. rewrite (dirtied_shown c (set_mem f w1) p base size) by done.
    eapply (shown_view _ c w); [exact Hc|exact Hst|exact Hvf| |exact Hb].
    intros (q & Hq & -> & Hx). apply Hn. split; [|done].
    destruct (co_entry _ Hc _ _ Hq) as (o3 & Ho3 & <- & _). destruct (co_entry _ Hc _ _ Hf) as (o4 & Ho4 & <- & _). simpl in *. congruence.
  - intros q oq k seg Hq Hoq Hin H1' H2'. cbn [fst snd] in *. rewrite Hf in Hq. injection Hq as <-. simpl in Hoq.
    rewrite lookup_insert_eq in Hoq. injection Hoq as <-. simpl in Hin. apply redirty_In in Hin as (s0 & Hin & ->). simpl in *.
    unfold in_range. simpl. apply orb_true_iff. right. apply andb_true_iff. split; [by apply Z.ltb_lt|apply Z.ltb_lt]. exact H2'.
  - unfold accessible. cbn [fst snd]. rewrite Hf. intros oq Hoq. simpl in Hoq. rewrite lookup_insert_eq in Hoq. injection Hoq as <-.
    destruct (Hagain _ Ho') as [Hr Ha]. split; [by apply (redirty_regular (set_mem f w1))|exact Ha].
  - split; [|split; [done|exact Hst]]. unfold align_of at 1. cbn [fst snd]. rewrite Hf. simpl. rewrite lookup_insert_eq. by destruct (Hagain _ Ho') as [_ Ha].
Qed.

(** The start of HookObjectWrite::onMessage: the buffers of the range. *)
Lemma wp_write_buffers c w p id base size :
  container_ok (c, w) -> sm_find id (c_objects c) = Some p ->
  (exists o, w_objects w !! p = Some o /\ regular_obj w o /\ fits base size (o_alignement o)) ->
  wp resource (getBuffers p base size ACCESS_WRITE true true)
    (fun r w1 => r.1 = true /\ calm w w1 /\ world_ok w1 [] None /\ sb_contents (w_store w1) = sb_contents (w_store w) /\
       view_le (fun q x => q = p /\ touched_at (c, w) id base size x) w w1 /\
       exists o, w_objects w !! p = Some o /\ cut_buffers w1 p o ACCESS_WRITE base size r.2) w.
Proof.
  intros Hc Hf (o & Ho & Hreg & Hb & Hs & He & Hsm). eapply wp_mono.
  { eapply wp_calm; [|apply keeps_getBuffers].
    apply (wp_cut_buffers w p o base size ACCESS_WRITE true); try done. apply (co_world _ Hc). }
  intros [ok ds] w1 [(Hw1 & Hst & Hv & Hr) Hcalm]. cbn [fst snd] in *. destruct ok; [|by destruct Hr as (_ & [=] & _)].
  split_and!; try done; [|by exists o]. eapply view_le_weaken; [|exact Hv]. intros q x (_ & -> & Hx). split; [done|].
  by apply (readable_entry c w id p o base size Hc Hf Ho).
Qed.

(** The end of it: the segments become dirty. *)
Lemma dirty_run c w f p id base size :
  container_ok (c, w) -> sm_find id (c_objects c) = Some p -> world_ok (set_mem f w) [] None ->
  0 <= base -> 0 < size -> base + size < two63 ->
  exists w', markDirty p base size (set_mem f w) = Ok (tt, w') /\ dirtied (set_mem f w) p base size w'.
Proof.
  intros Hc Hf Hw Hb Hs He. destruct (co_entry _ Hc _ _ Hf) as (o & Ho & _). simpl in Ho. eexists.
  split; [apply (markDirty_exec (set_mem f w) p o); try done; lia|]. by exists o.
Qed.

Lemma accessible_fits cw id base size p cw' :
  opened cw id (fits base size) p cw' -> 0 <= base /\ 0 < size /\ base + size < two63.
Proof.
  intros (Hc & _ & _ & _ & o & Ho & _ & Hb & Hs & He & Hsm).
  destruct (ok_align _ _ _ (wo_objs _ _ _ (co_world _ Hc) _ _ Ho)). lia.
Qed.

Lemma write_done_eq cw cw1 id base size data cw' :
  (forall i x, shown cw1 i x = shown cw i x) -> same_reads cw id cw1 ->
  write_done cw1 id base size data cw' -> write_done cw id base size data cw'.
Proof.
  intros Hs Ha [A B D F R K]. constructor; try done; [|by rewrite <- (proj1 Ha)|destruct Ha as (? & ? & ?), K as (? & ? & ?); split_and!; congruence]. intros i x b Hn. rewrite <- Hs. apply D.
  intros [-> Hx]. apply Hn. split; [done|]. by eapply touched_same.
Qed.

(** Both of them: what the rest of the handler starts from. *)
Record write_ready cw (id : ObjectId) (base size p : Z) (ds : list ObjectSegmentDescr) (c1 : Container) (w1 w2 : W) : Prop := {
  wy_ok : container_ok (c1, w1);
  wy_find : sm_find id (c_objects c1) = Some p;
  wy_shown : forall i x, shown (c1, w1) i x = shown cw i x;
  wy_calm : calm w1 w2;
  wy_world : world_ok w2 [] None;
  wy_store : sb_contents (w_store w2) = sb_contents (w_store w1);
  wy_view : view_le (fun q x => q = p /\ touched_at (c1, w1) id base size x) w1 w2;
  wy_range : 0 <= base /\ 0 < size /\ base + size < two63;
  wy_cut : exists o, cut_buffers w2 p o ACCESS_WRITE base size ds;
  wy_align : same_reads cw id (c1, w1);
  wy_again : forall o, w_objects w2 !! p = Some o -> regular_obj w2 o /\ o_alignement o = align_of (c1, w1) id;
}.

(** The first two steps of the handler. *)
Definition write_buffers (id : ObjectId) (base size : Z) : M C (Z * (bool * list ObjectSegmentDescr)) :=
  let! object := getObject id in
  let! r := lift (getBuffers object base size ACCESS_WRITE true true) in ret (object, r).

Lemma wp_write_ready cw id base size :
  container_ok cw -> accessible cw.1 cw.2 id (fits base size) ->
  wp resource (write_buffers id base size)
    (fun r cw' => r.2.1 = true /\ exists w1, write_ready cw id base size r.1 r.2.2 cw'.1 w1 cw'.2) cw.
Proof.
  intros Hc Hacc. destruct cw as [c w]. cbn [fst snd] in Hacc. unfold write_buffers.
  apply wp_bind. eapply wp_mono; [apply wp_never, (wp_open c w id _ Hc (accessible_align _ _ _ _ Hacc))|].
  intros p [c1 w1] (Hc1 & Hf & Hsh & Hsr & o1 & Ho1 & Hreg & Hfit & Hal). cbn [fst snd] in *.
  assert (opened (c, w) id (fits base size) p (c1, w1)) as Hop by (split_and!; try done; by exists o1).
  pose proof (accessible_fits _ _ _ _ _ _ Hop) as Hr.
  assert (align_of (c1, w1) id = o_alignement o1) as Ha1 by (unfold align_of; cbn [fst snd]; by rewrite Hf, Ho1).
  apply wp_bind, wp_lift. eapply wp_mono; [apply (wp_write_buffers c1 w1 p id); try done; by exists o1|].
  intros [ok ds] w2 (Hok & Hcalm & Hw2 & Hst & Hv & o2 & Ho2 & Hcut). cbn [fst snd] in *. subst ok.
  apply wp_ret. split; [done|]. exists w1. cbn [fst snd]. constructor; try done; [by exists o2|].
  intros o3 Ho3. destruct Hcut as (o4 & Ho4 & (_ & Hm & _) & Hr4 & _). assert (o3 = o4) as -> by congruence. split; [done|congruence].
Qed.

Lemma wp_write_open s id base size (k : Z -> bool * list ObjectSegmentDescr -> M HS unit) Q :
  container_ok (hk_cw s) -> accessible (hk_cw s).1 (hk_cw s).2 id (fits base size) ->
  (forall p ds c1 w1 w2, write_ready (hk_cw s) id base size p ds c1 w1 w2 ->
     wp resource (k p (true, ds)) Q (with_cw (c1, w2) s)) ->
  wp resource (let! object := on_cw (getObject id) in
               let! r := on_world (getBuffers object base size ACCESS_WRITE true true) in k object r) Q s.
Proof.
  intros Hc Hacc Hk. pose proof (wp_write_ready _ _ _ _ Hc Hacc) as Hw. revert Hw.
  unfold wp, write_buffers, bind, on_world, on_cw. destruct (getObject id (hk_cw s)) as [[p cw1]|f]; [|done]. cbn [hk_cw with_cw].
  unfold ret. destruct (lift _ cw1) as [[[ok ds] [c2 w2]]|f]; [|done]. cbn [fst snd]. intros (-> & w1 & Hy). apply (Hk p ds c2 w1 w2 Hy).
Qed.

(** The write is done once the bytes are in the buffers and the segments dirty. *)
Lemma write_ready_done cw id base size p ds c1 w1 w2 f data w' :
  write_ready cw id base size p ds c1 w1 w2 -> Z.of_nat (length data) = size ->
  (forall a, f (w_mem w2) a = scatter (w_mem w2) (buildIovec ds base size).2 data a) ->
  dirtied (set_mem f w2) p base size w' -> write_done cw id base size data (c1, w').
Proof.
  intros [] Hl Hm Hd. destruct wy_cut0 as [o Hcut]. eapply write_done_eq; [done|exact wy_align0|].
  by eapply (write_done_intro c1 w1 w2 f).
Qed.

Lemma write_ready_dirty cw id base size p ds c1 w1 w2 f :
  write_ready cw id base size p ds c1 w1 w2 ->
  exists w', markDirty p base size (set_mem f w2) = Ok (tt, w') /\ dirtied (set_mem f w2) p base size w'.
Proof.
  intros [? ? ? ? ? ? ? (? & ? & ?) ? ? ?]. apply (dirty_run c1 w2 f p id); try done; [by eapply container_calm|by apply world_ok_mem].
Qed.

Lemma wp_eager_write s request info :
  container_ok (hk_cw s) ->
  accessible (hk_cw s).1 (hk_cw s).2 (of_network (rw_objectId info)) (fits (rw_offset info) (rw_size info)) ->
  rw_msgHasData info = true -> rw_optionalData info <> 0 -> Z.of_nat (length (rq_data request)) = rw_size info ->
  wp resource (HookObjectWrite_onMessage request info)
    (fun _ s' => write_done (hk_cw s) (of_network (rw_objectId info)) (rw_offset info) (rw_size info) (rq_data request) (hk_cw s') /\
       hk_out s' = hk_out s ++ [Response IOC_LF_MSG_OBJ_READ_WRITE_ACK (rq_lfClientId request) 0 None;
                                Repost (rq_msgBufferId request)] /\
       hk_rdma s' = hk_rdma s /\ hk_writeSize s' = hk_writeSize s +u rw_size info) s.
Proof.
  intros Hc Hacc Hhas Hopt Hl. unfold HookObjectWrite_onMessage. apply wp_write_open; try done.
  set (base := rw_offset info) in *. set (size := rw_size info) in *. intros p ds c1 w1 w2 Hy.
  pose proof (wy_range _ _ _ _ _ _ _ _ _ Hy) as (Hb & Hs & He).
  destruct (wy_cut _ _ _ _ _ _ _ _ _ Hy) as (o2 & o3 & Ho3 & _ & _ & Ht & _ & Hsound). cbn [fst snd]. rewrite Hhas.
  unfold objEagerExtractFromMessage. rewrite (proj2 (Z.eqb_neq _ _) Hopt).
  apply wp_bind, wp_bind, wp_guard; [done|]. fold base size.
  eapply wp_bind, wp_of_Ok.
  { replace base with (base + 0) in Ht at 1 by lia. by apply (extract_run (unit_of (o_alignement o2))). }
  set (g := fun m => scatter m _ _). apply wp_bind, wp_modify, wp_modify. apply wp_bind, wp_on_world. cbn [hk_cw poke with_cw fst snd].
  destruct (write_ready_dirty _ _ _ _ _ _ _ _ _ g Hy) as (w3 & Hrun & Hd).
  eapply wp_of_Ok; [exact Hrun|]. apply wp_modify. cbn. rewrite <- app_assoc. split_and!; try done.
  by eapply (write_ready_done _ _ _ _ _ _ _ _ _ g).
Qed.

(** ** Reads *)

(** The range is inside one unit of alignement. *)
Definition one_unit (base size a : Z) : Prop := 0 < a /\ base / a = (base + size - 1) / a.

(** Such a range is in one segment. *)
Lemma one_unit_single a base size ds :
  0 <= base -> 0 < size -> base + size < two63 -> one_unit base size a ->
  Forall (sound_cut (unit_of a) base size) ds -> tiles base (base + size) (clip base size <$> ds) -> exists d, ds = [d].
Proof.
  intros Hb Hs He [Ha Hq] Hds Ht. destruct ds as [|d1 [|d2 ds]]; [simpl in Ht; lia|by exists d1|].
  apply Forall_cons in Hds as [Hd1 _]. pose proof Hd1 as (Ho & Hz & Hend & Hp & Hpe & Hcut & [k Hk]).
  destruct (clip_spec base size d1) as (Eo & Ee & Ep & _); try done. destruct Ht as (Hat & Hz1 & _ & Hz2 & Ht).
  pose proof (tiles_le _ _ _ Ht). unfold unit_of in Hk. destruct (a >? 0) eqn:E0; [|lia].
  pose proof (Z.div_mod base a ltac:(lia)). pose proof (Z.div_mod (base + size - 1) a ltac:(lia)).
  pose proof (Z.mod_pos_bound base a Ha). pose proof (Z.mod_pos_bound (base + size - 1) a Ha).
  rewrite <- Hq in *. set (q := base / a) in *. assert (base < k * a /\ k * a <= base + size - 1) as [? ?] by lia.
  assert (q < k) by nia. assert (k < q + 1) by nia. lia.
Qed.

Lemma wp_eager_read s request info :
  container_ok (hk_cw s) -> rw_size info <= IOC_EAGER_MAX_READ ->
  accessible (hk_cw s).1 (hk_cw s).2 (of_network (rw_objectId info))
    (fun a => fits (rw_offset info) (rw_size info) a /\ one_unit (rw_offset info) (rw_size info) a) ->
  wp resource (HookObjectRead_onMessage request info)
    (fun _ s' => container_ok (hk_cw s') /\ shown_le (fun _ _ => False) (hk_cw s) (hk_cw s') /\ hk_rdma s' = hk_rdma s /\
       exists status data, hk_out s' = hk_out s ++ [Response IOC_LF_MSG_OBJ_READ_WRITE_ACK (rq_lfClientId request) status data;
                                                    Repost (rq_msgBufferId request)] /\
         match data with
         | Some l => status = 0 /\ Z.of_nat (length l) = rw_size info /\
             forall x b, rw_offset info <= x < rw_offset info + rw_size info ->
               shown (hk_cw s) (of_network (rw_objectId info)) x = Some b -> l !! Z.to_nat (x - rw_offset info) = Some b
         | None => status = -1 /\ ~ readable_at (hk_cw s) (of_network (rw_objectId info)) (rw_offset info) (rw_size info)
         end) s.
Proof.
  intros Hc Hmax Hacc. unfold HookObjectRead_onMessage. destruct (hk_cw s) as [c w] eqn:Ecw.
  set (id := of_network (rw_objectId info)) in *. set (base := rw_offset info) in *. set (size := rw_size info) in *.
  apply wp_bind, wp_on_cw. rewrite Ecw. eapply wp_mono; [apply wp_never, (wp_open c w id _ Hc Hacc)|].
  intros p [c1 w1] (Hc1 & Hf & Hsh & Hsr & o & Ho & Hreg & (Hb & Hs & He & Hsm) & Hone). cbn [fst snd] in *.
  pose proof (proj1 (ok_align _ _ _ (wo_objs _ _ _ (co_world _ Hc1) _ _ Ho))) as Ha.
  apply wp_bind, wp_on_world. cbn [hk_cw with_cw fst snd]. eapply wp_mono.
  { eapply wp_calm; [|apply keeps_getBuffers].
    apply (wp_read_buffers w1 p o base size); try done. apply (co_world _ Hc1). }
  intros [ok ds] w2 [(Hw2 & Hst & Hv & Hr) Hcalm]. cbn [fst snd] in *.
  assert (container_ok (c1, w2)) as Hc2 by by eapply container_calm.
  assert (shown_le (fun _ _ => False) (c, w) (c1, w2)) as Hle.
  { intros i x b Hn. rewrite <- Hsh. eapply (shown_view (fun _ _ => False)); [exact Hc1|done|done|]. by intros (? & _ & ?). }
  destruct ok; last first.
  { apply wp_bind, wp_modify, wp_modify. cbn. rewrite <- app_assoc. split; [done|]. split; [done|]. split; [done|]. eexists _, None. split; [done|]. split; [done|]. destruct Hr as [_ Hr].
    intros Hx. apply Hr. apply (readable_entry c1 w1 id p o base size Hc1 Hf Ho). by eapply readable_same. }
  fold size. rewrite (proj2 (Z.leb_le _ _) Hmax).
  pose proof Hr as (o2 & Ho2 & _ & _ & Ht & _ & Hsound).
  destruct (one_unit_single (o_alignement o) base size ds) as [d ->]; try done; [lia|].
  apply Forall_cons in Hsound as [Hd _]. destruct Ht as (Hat & _).
  unfold objEagerPushToClient. fold base size. apply wp_bind, wp_bind. simpl length. simpl replicate. simpl fold_m.
  apply wp_bind. unfold push_step. apply wp_bind. eapply wp_of_Ok.
  { apply (eager_piece_run (unit_of (o_alignement o)) base size 0 d); [done|done|lia|done|done|]. rewrite Hat. lia. }
  apply wp_ret, wp_ret. apply wp_bind, wp_modify. unfold sendFragments. apply wp_bind, wp_guard; [done|].
  apply wp_bind, (wp_of_option _ _ _ [(d_ptr (clip base size d), d_size (clip base size d))]); [done|].
  apply wp_bind, wp_gets, wp_modify, wp_modify. cbn. rewrite <- app_assoc. split_and!; try done.
  eexists 0, (Some _). split; [done|]. split; [done|].
  destruct (cut_read _ _ _ _ _ _ _ Hw2 Hr) as (o3 & Ho3 & Hlen & Hlk). split; [exact Hlen|].
  intros x b Hx Hb'. etransitivity; [exact (Hlk x Hx)|]. apply Hle in Hb'; [|by intros []]. unfold shown in Hb'. cbn [fst snd] in Hb'.
  rewrite Hf in Hb'. rewrite Ho3 in Hb'. done.
Qed.

(** a write request that carries its data is served at once: the server then
    shows the data on the range and what it showed everywhere else, up to the units
    around the range when a read of the storage fails, the segments
    of the range are dirty, the client has its acknowledgement and the receive
    buffer is given back, both once.  It can only stop on a lack of resources. *)
Theorem eager_write s request info :
  container_ok (hk_cw s) ->
  accessible (hk_cw s).1 (hk_cw s).2 (of_network (rw_objectId info)) (fits (rw_offset info) (rw_size info)) ->
  rw_msgHasData info = true -> rw_optionalData info <> 0 -> Z.of_nat (length (rq_data request)) = rw_size info ->
  wp resource (HookObjectWrite_onMessage request info)
    (fun _ s' => write_done (hk_cw s) (of_network (rw_objectId info)) (rw_offset info) (rw_size info) (rq_data request) (hk_cw s') /\
       hk_out s' = hk_out s ++ [Response IOC_LF_MSG_OBJ_READ_WRITE_ACK (rq_lfClientId request) 0 None;
                                Repost (rq_msgBufferId request)] /\
       hk_rdma s' = hk_rdma s /\ hk_writeSize s' = hk_writeSize s +u rw_size info) s.
Proof. apply wp_eager_write. Qed.

(** a read request of at most IOC_EAGER_MAX_READ bytes inside one unit of
    alignement is answered at once with exactly the bytes the server showed, or
    with the status -1 when the storage cannot be read; nothing shown changes, and
    the client has one answer and the receive buffer is given back once. *)
Theorem eager_read s request info :
  container_ok (hk_cw s) -> rw_size info <= IOC_EAGER_MAX_READ ->
  accessible (hk_cw s).1 (hk_cw s).2 (of_network (rw_objectId info))
    (fun a => fits (rw_offset info) (rw_size info) a /\ one_unit (rw_offset info) (rw_size info) a) ->
  wp resource (HookObjectRead_onMessage request info)
    (fun _ s' => container_ok (hk_cw s') /\ shown_le (fun _ _ => False) (hk_cw s) (hk_cw s') /\ hk_rdma s' = hk_rdma s /\
       exists status data, hk_out s' = hk_out s ++ [Response IOC_LF_MSG_OBJ_READ_WRITE_ACK (rq_lfClientId request) status data;
                                                    Repost (rq_msgBufferId request)] /\
         match data with
         | Some l => status = 0 /\ Z.of_nat (length l) = rw_size info /\
             forall x b, rw_offset info <= x < rw_offset info + rw_size info ->
               shown (hk_cw s) (of_network (rw_objectId info)) x = Some b -> l !! Z.to_nat (x - rw_offset info) = Some b
         | None => status = -1 /\ ~ readable_at (hk_cw s) (of_network (rw_objectId info)) (rw_offset info) (rw_size info)
         end) s.
Proof. apply wp_eager_read. Qed.

End requests.
End Requests.
