(* ===== verification/Rdma.v ===== *)
(** * Requests served by RDMA

    A request too large for its message is served by several RDMA operations of
    at most four pieces of memory each, that complete in any order.  The theorems
    of this file say that the order does not matter: the write is done, and the
    client has its one acknowledgement, when the last of them has completed and
    not before. *)

From S2P Require Import Prelude StdMap Memory IntervalMap Interfaces ConsistencyTracker Protocol World WorldInv View ObjectSegment Object Calm ObjectAccess ObjectData ObjectFlush ObjectCow Container System Fabric Hooks Requests.

Module Rdma.
Import Protocol ObjectSegment Object Calm ObjectAccess ObjectData ObjectFlush Container Hooks Requests.

(** ** Scattered writes *)
Definition total_len (iov : list (Z * Z)) : Z := foldr (fun v n => v.2 + n) 0 iov.
Definition touches (iov : list (Z * Z)) (a : Z) : Prop := exists v, v ∈ iov /\ v.1 <= a < v.1 + v.2.
#[export] Instance touches_dec iov a : Decision (touches iov a).
Proof.
  refine (cast_if (decide (Exists (fun v => v.1 <= a < v.1 + v.2) iov))); unfold touches;
    rewrite Exists_exists in *; done.
Defined.

Lemma touches_cons v iov a : touches (v :: iov) a <-> v.1 <= a < v.1 + v.2 \/ touches iov a.
Proof.
  unfold touches. split.
  - intros (u & [->|Hu]%elem_of_cons & Ha); eauto.
  - intros [Ha|(u & Hu & Ha)]; [exists v|exists u]; (split; [|done]); rewrite elem_of_cons; auto.
Qed.

Lemma total_len_app l l' : total_len (l ++ l') = total_len l + total_len l'.
Proof. induction l; simpl; lia. Qed.

Lemma total_len_nonneg iov : Forall (fun v => 0 <= v.2) iov -> 0 <= total_len iov.
Proof. induction 1 as [|v iov Hv _ IH]; simpl in *; lia. Qed.

(** Outside of the pieces nothing changes; inside, the old memory does not matter. *)
Lemma scatter_out m iov data a :
  Forall (fun v => 0 <= v.2) iov -> ~ touches iov a -> scatter m iov data a = m a.
Proof.
  revert m data. induction iov as [|[p n] iov IH]; intros m data Hz Ha; simpl; [done|].
  apply Forall_cons in Hz as [Hn Hz]. rewrite touches_cons in Ha. simpl in *. rewrite IH by tauto. apply wr_out.
  rewrite length_take. lia.
Qed.

Lemma scatter_ext m m' iov data a :
  m a = m' a -> scatter m iov data a = scatter m' iov data a.
Proof.
  revert m m' data. induction iov as [|[p n] iov IH]; intros m m' data Ha; simpl; [done|]. apply IH. unfold wr. by case_match.
Qed.

Lemma scatter_in m m' iov data a :
  Forall (fun v => 0 <= v.2) iov -> total_len iov <= Z.of_nat (length data) -> touches iov a ->
  scatter m iov data a = scatter m' iov data a.
Proof.
  revert m m' data. induction iov as [|[p n] iov IH]; intros m m' data Hz Hl Ha; simpl; [by destruct Ha as (? & ?%elem_of_nil & _)|].
  apply Forall_cons in Hz as [Hn Hz]. simpl in *. destruct (decide (touches iov a)) as [Ht|Ht].
  - apply IH; [done| |done]. rewrite length_drop. lia.
  - rewrite touches_cons in Ha. simpl in Ha. destruct Ha as [Ha|?]; [|done]. apply scatter_ext.
    unfold wr. rewrite length_take.
    assert ((p <=? a) && (a <? p + Z.of_nat (Z.to_nat n `min` length data)) = true) as ->; [|done].
    pose proof (total_len_nonneg _ Hz).
    rewrite andb_true_iff, Z.leb_le, Z.ltb_lt, Nat2Z.inj_min, Z2Nat.id by done. lia.
Qed.

Lemma scatter_app m iov iov' data data' :
  Forall (fun v => 0 <= v.2) iov -> Z.of_nat (length data) = total_len iov ->
  scatter m (iov ++ iov') (data ++ data') = scatter (scatter m iov data) iov' data'.
Proof.
  revert m data. induction iov as [|[p n] iov IH]; intros m data Hz Hl; simpl.
  - simpl in Hl. assert (data = []) as -> by (apply nil_length_inv; lia). done.
  - apply Forall_cons in Hz as [Hn Hz]. simpl in *. pose proof (total_len_nonneg _ Hz).
    rewrite take_app_le, drop_app_le by lia. apply IH; [done|]. rewrite length_drop. lia.
Qed.

(** Two disjoint scattered writes commute. *)
Lemma scatter_comm m iov data iov' data' a :
  Forall (fun v => 0 <= v.2) iov -> Forall (fun v => 0 <= v.2) iov' ->
  total_len iov <= Z.of_nat (length data) -> total_len iov' <= Z.of_nat (length data') ->
  ~ (touches iov a /\ touches iov' a) ->
  scatter (scatter m iov' data') iov data a = scatter (scatter m iov data) iov' data' a.
Proof.
  intros Hz Hz' Hl Hl' Hn. destruct (decide (touches iov a)) as [Ha|Ha].
  - rewrite (scatter_out _ iov') by tauto. by apply scatter_in.
  - rewrite (scatter_out _ iov) by done. destruct (decide (touches iov' a)) as [Ha'|Ha'].
    + by apply scatter_in.
    + rewrite !scatter_out by done. done.
Qed.

(** ** Groups *)
Lemma groups_concat {A} n (l : list A) : (length l <= n)%nat -> concat (groups n l) = l.
Proof.
  revert l. induction n as [|n IH]; intros l Hl; destruct l as [|x l]; simpl in *; try done; [lia|].
  rewrite IH; [by rewrite take_drop|]. rewrite length_drop. lia.
Qed.
Lemma groups_nonempty {A} n (l : list A) : Forall (fun g => g <> []) (groups n l).
Proof. revert l. induction n as [|n IH]; intros [|x l]; simpl; constructor; done. Qed.

(** ** Pairwise disjoint pieces *)
Lemma pairs_app {A} (R : A -> A -> Prop) l l' :
  ForallOrdPairs R (l ++ l') -> ForallOrdPairs R l' /\ forall x y, x ∈ l -> y ∈ l' -> R x y.
Proof.
  induction l as [|z l IH]; simpl; [by intros Hp; split; [|by intros x y ?%elem_of_nil]|].
  inversion 1 as [|? ? Hz Hl]; subst. destruct (IH Hl) as [Hl' Hx]. split; [done|].
  intros x y [->|Hin]%elem_of_cons Hy; [|by apply Hx]. rewrite List.Forall_forall in Hz. apply Hz, in_or_app. right.
  by apply list_elem_of_In.
Qed.

Lemma pairs_concat {A} (R : A -> A -> Prop) ls :
  ForallOrdPairs R (concat ls) -> ForallOrdPairs (fun l l' => forall x y, x ∈ l -> y ∈ l' -> R x y) ls.
Proof.
  induction ls as [|l ls IH]; simpl; [constructor|]. intros [Hls Hx]%pairs_app. constructor; [|auto].
  apply List.Forall_forall. intros l' Hl' x y Hin Hin'. apply Hx; [done|]. apply list_elem_of_In, in_concat.
  exists l'. split; [done|by apply list_elem_of_In].
Qed.

Lemma pairs_lookup {A} (R : A -> A -> Prop) l i j x y :
  (forall x y, R x y -> R y x) -> ForallOrdPairs R l -> l !! i = Some x -> l !! j = Some y -> i <> j -> R x y.
Proof.
  intros Hsym Hp. revert i j. induction Hp as [|z l Hz _ IH]; intros [|i] [|j] Hi Hj Hne; simplify_eq/=; try done; eauto.
  - rewrite List.Forall_forall in Hz. apply Hz, list_elem_of_In. by eapply list_elem_of_lookup_2.
  - apply Hsym. rewrite List.Forall_forall in Hz. apply Hz, list_elem_of_In. by eapply list_elem_of_lookup_2.
Qed.

Definition apart (u v : Z * Z) : Prop := disjoint u.1 u.2 v.1 v.2.

Section pieces.
Context {E S : Type} `{MemoryProviderOk E} `{StorageOk S}.
Implicit Types (w : World E S).

Lemma pieces_apart w this o d1 d2 :
  world_ok w [] None -> w_objects w !! this = Some o ->
  piece w o ACCESS_WRITE d1 -> piece w o ACCESS_WRITE d2 -> d_offset d1 + d_size d1 <= d_offset d2 ->
  disjoint (d_ptr d1) (d_size d1) (d_ptr d2) (d_size d2).
Proof.
  intros Hw Ho (_ & e1 & (k1 & s1 & Hf1 & -> & Hx1) & L1 & R1 & P1) (_ & e2 & (k2 & s2 & Hf2 & -> & Hx2) & L2 & R2 & P2) Hle.
  destruct (Hx1 eq_refl) as (i1 & m1 & Hi1 & Hm1), (Hx2 eq_refl) as (i2 & m2 & Hi2 & Hm2). simpl in *.
  destruct (segment_facts w [] None this o k2 s2 Hw Ho Hf2) as (Hin2 & _).
  destruct (decide (i2 = i1)) as [->|Hne].
  - destruct (exclusive_unique w this o k1 s1 i1 m1 this o k2 s2) as [_ ->]; try done. simplify_eq. unfold disjoint. lia.
  - pose proof (shared_apart _ _ _ _ _ _ _ _ _ Hw Hm1 Hm2 (not_eq_sym Hne)) as Hap.
    assert (seg_buffer (w_shared w) s1 = osm_buffer m1 /\ seg_size (w_shared w) s1 = osm_size m1) as [B1 Z1].
    { unfold seg_buffer, seg_size, seg_memory. rewrite Hi1. simpl. by rewrite Hm1. }
    assert (seg_buffer (w_shared w) s2 = osm_buffer m2 /\ seg_size (w_shared w) s2 = osm_size m2) as [B2 Z2].
    { unfold seg_buffer, seg_size, seg_memory. rewrite Hi2. simpl. by rewrite Hm2. }
    rewrite B1, Z1 in *. rewrite B2, Z2 in *. unfold disjoint in *. lia.
Qed.

Lemma tiles_apart w this o ds lo hi :
  world_ok w [] None -> w_objects w !! this = Some o -> Forall (piece w o ACCESS_WRITE) ds -> tiles lo hi ds ->
  ForallOrdPairs apart (iov_of ds).
Proof.
  intros Hw Ho. revert lo. induction ds as [|d ds IH]; intros lo Hp Ht; [constructor|].
  apply Forall_cons in Hp as [Hd Hp]. destruct Ht as (Hat & Hz & Ht). constructor; [|by eapply IH].
  apply List.Forall_forall. intros v Hv%list_elem_of_In. apply list_elem_of_fmap in Hv as (d' & -> & Hd').
  rewrite Forall_forall in Hp. apply (pieces_apart w this o); try done; [by apply Hp|].
  pose proof (proj1 (Forall_forall _ _) (tiles_ge _ _ _ Ht) d' Hd'). simpl in *. lia.
Qed.
End pieces.

(** ** The operations of a request *)
Fixpoint rdma_list (kind : rdma_kind) (lfClientId : Z) (iov : Iov) (ops size offset : Z) (gs : list (list (Z * Z))) : list rdma :=
  match gs with
  | [] => []
  | g :: gs =>
      mkRdma kind lfClientId g (iov_addr iov + offset) (iov_key iov) ops size
      :: rdma_list kind lfClientId iov ops size (offset + total_len g) gs
  end.

Lemma rdma_list_length kind c iov ops size off gs : length (rdma_list kind c iov ops size off gs) = length gs.
Proof. revert off. induction gs; intros off; simpl; auto. Qed.

Lemma rdma_list_iov kind c iov ops size off gs i op :
  rdma_list kind c iov ops size off gs !! i = Some op -> gs !! i = Some (rm_iov op).
Proof. revert off i. induction gs as [|g gs IH]; intros off [|i] Hi; simplify_eq/=; [done|eauto]. Qed.

Lemma rdma_list_forall kind c iov ops size off gs :
  Forall (fun op => rm_kind op = kind /\ rm_lfClientId op = c /\ rm_ops op = ops /\ rm_size op = size)
    (rdma_list kind c iov ops size off gs).
Proof. revert off. induction gs; intros off; simpl; constructor; auto. Qed.

Lemma offsets_sum off g :
  0 <= off -> Forall (fun v => 0 <= v.2) g -> off + total_len g < two64 -> foldl (fun o v => o +u v.2) off g = off + total_len g.
Proof.
  revert off. induction g as [|v g IH]; intros off Ho Hz Hb; simpl in *; [lia|]. apply Forall_cons in Hz as [Hv Hz].
  pose proof (total_len_nonneg _ Hz). rewrite u64_small by lia. rewrite IH; [lia|lia|done|lia].
Qed.

(** What libfabric fetches from the memory the client has registered. *)
Definition fetched (remote : Z -> Z -> mem) (op : rdma) : list byte :=
  rd (remote (rm_lfClientId op) (rm_key op)) (rm_addr op) (total_len (rm_iov op)).
Definition land (remote : Z -> Z -> mem) (op : rdma) (m : mem) : mem := scatter m (rm_iov op) (fetched remote op).

Definition sized (gs : list (list (Z * Z))) : Prop := Forall (Forall (fun v => 0 <= v.2)) gs.

(** In order, the operations write the memory of the client to the pieces. *)
Lemma land_all remote kind c iov ops size off gs m :
  sized gs ->
  foldl (fun m op => land remote op m) m (rdma_list kind c iov ops size off gs) =
  scatter m (concat gs) (rd (remote c (iov_key iov)) (iov_addr iov + off) (total_len (concat gs))).
Proof.
  revert off m. induction gs as [|g gs IH]; intros off m Hz; simpl; [done|]. apply Forall_cons in Hz as [Hg Hz].
  rewrite IH by done. assert (Forall (fun v => 0 <= v.2) (concat gs)) as Hc by (by apply Forall_concat).
  pose proof (total_len_nonneg _ Hg). pose proof (total_len_nonneg _ Hc).
  rewrite total_len_app, rd_app, scatter_app by (done || apply rd_length; done). unfold land, fetched. cbn.
  do 2 f_equal. lia.
Qed.

(** Pointwise, in any order. *)
#[local] Instance land_proper remote op : Proper (pointwise_relation Z eq ==> pointwise_relation Z eq) (land remote op).
Proof. intros m m' Hm a. by apply scatter_ext. Qed.

Lemma foldl_foldr {A B} (f : A -> B -> B) b l : foldl (fun b a => f a b) b l = foldr f b (reverse l).
Proof. revert b. induction l as [|x l IH]; intros b; simpl; [done|]. by rewrite reverse_cons, foldr_app. Qed.

Lemma land_perm remote kind c iov ops size off gs (l : list rdma) m :
  sized gs -> ForallOrdPairs apart (concat gs) -> rdma_list kind c iov ops size off gs ≡ₚ l ->
  pointwise_relation Z eq (foldr (land remote) m (rdma_list kind c iov ops size off gs)) (foldr (land remote) m l).
Proof.
  intros Hz Hap%pairs_concat Hl. apply foldr_permutation; [apply _|apply _| |done].
  intros i op j op' m' Hij Hi Hj a. apply rdma_list_iov in Hi, Hj.
  assert (Forall (fun v => 0 <= v.2) (rm_iov op)) as Ho by (by eapply Forall_lookup_1 in Hz).
  assert (Forall (fun v => 0 <= v.2) (rm_iov op')) as Ho' by (by eapply Forall_lookup_1 in Hz).
  pose proof (total_len_nonneg _ Ho). pose proof (total_len_nonneg _ Ho').
  apply scatter_comm; try done; [unfold fetched; rewrite rd_length; lia..|].
  intros [(u & Hu & Ha) (v & Hv & Hb)].
  assert (apart u v) as Hd; [|unfold apart, disjoint in Hd; lia].
  refine (pairs_lookup (fun l l' => forall x y, x ∈ l -> y ∈ l' -> apart x y) gs i j _ _ _ Hap Hi Hj Hij u v Hu Hv).
  intros x y Hxy u' v' Hu' Hv'. specialize (Hxy v' u' Hv' Hu'). unfold apart, disjoint in *. lia.
Qed.

Lemma land_any remote kind c iov ops size off gs (l : list rdma) m a :
  sized gs -> ForallOrdPairs apart (concat gs) -> l ≡ₚ rdma_list kind c iov ops size off gs ->
  foldr (land remote) m l a =
  scatter m (concat gs) (rd (remote c (iov_key iov)) (iov_addr iov + off) (total_len (concat gs))) a.
Proof.
  intros Hz Hap Hl. rewrite <- (land_all remote kind c iov ops size) by done. rewrite foldl_foldr.
  rewrite <- (land_perm remote kind c iov ops size off gs l m) by done.
  by apply (land_perm remote kind c iov ops size off gs); [| |rewrite reverse_Permutation].
Qed.

(** ** Runs *)
Section runs.
Context {E S : Type} `{MemoryProviderOk E} `{StorageOk S}.
Abbreviation HS := (Hk E S).
Implicit Types (w : World E S) (s : HS).

Definition pending (l : list rdma) s : HS :=
  mkHk _ _ (hk_cw s) (hk_out s) l (hk_ops s) (hk_nextOps s) (hk_readSize s) (hk_writeSize s).

(** The loop of objRdma posts the operations of [rdma_list]. *)
Lemma rdma_run kind c iov ops size off gs s :
  sized gs -> 0 <= iov_addr iov -> 0 <= off -> iov_addr iov + off + total_len (concat gs) < two64 ->
  fold_m (rdma_step kind c iov ops size) off gs s =
  Ok (off + total_len (concat gs), pending (hk_rdma s ++ rdma_list kind c iov ops size off gs) s).
Proof.
  revert off s. induction gs as [|g gs IH]; intros off s Hz Ha Ho Hb; simpl in *.
  - rewrite app_nil_r, Z.add_0_r. by destruct s.
  - apply Forall_cons in Hz as [Hg Hz]. rewrite total_len_app in *. pose proof (total_len_nonneg _ Hg).
    assert (0 <= total_len (concat gs)) by (by apply total_len_nonneg, Forall_concat).
    unfold bind at 1, rdma_step, post_rdma, set_rdma, bind, gets, modify, ret. rewrite offsets_sum by (done || lia).
    fold (@fold_m). rewrite IH by (done || lia). cbn. rewrite <- app_assoc, u64_small by lia. by rewrite Z.add_assoc.
Qed.

(** The operations complete one by one: each number is the place of the next one
    among those still under way. *)
Definition complete_all (remote : Z -> Z -> mem) (ks : list nat) : M HS unit :=
  for_each ks (fun k =>
    let! s := gets (fun s => s) in
    let! op := of_option FNullPointer (hk_rdma s !! k) in
    complete_rdma k (fetched remote op)).
Fixpoint order (n : nat) (ks : list nat) : Prop :=
  match ks with
  | [] => True
  | k :: ks => (k < n)%nat /\ order (n - 1) ks
  end.

Section request.
Variables (remote : Z -> Z -> mem) (s : HS) (ops client size : Z).

(** The state when [done] have completed and [l] are under way. *)
Definition stage (done l : list rdma) : HS :=
  let cw := ((hk_cw s).1, set_mem (fun m => foldr (land remote) m done) (hk_cw s).2) in
  match l with
  | [] => mkHk _ _ cw (hk_out s ++ [Response IOC_LF_MSG_OBJ_READ_WRITE_ACK client 0 None]) []
            (delete ops (hk_ops s)) (hk_nextOps s) (hk_readSize s +u 0) (hk_writeSize s +u size)
  | _ => mkHk _ _ cw (hk_out s) l (<[ops := Z.of_nat (length l)]> (hk_ops s)) (hk_nextOps s) (hk_readSize s) (hk_writeSize s)
  end.
Definition mine (op : rdma) : Prop :=
  rm_kind op = RDMA_READ /\ rm_lfClientId op = client /\ rm_ops op = ops /\ rm_size op = size.

Lemma complete_run k op done l :
  l !! k = Some op -> mine op ->
  complete_rdma k (fetched remote op) (stage done l) = Ok (tt, stage (op :: done) (delete k l)).
Proof.
  intros Hk (Ek & Ec & Eo & Es). pose proof (length_delete l k ltac:(by eexists)) as Hl. destruct l as [|x l]; [done|].
  assert (length (delete k (x :: l)) = length l) as Hl' by (rewrite Hl; simpl; lia). clear Hl.
  unfold complete_rdma, bind, gets, of_option, ret. cbn [hk_rdma stage]. rewrite Hk. cbn beta iota. rewrite Ek. unfold set_rdma, modify, on_world, on_cw, lift. cbn.
  unfold rdma_callback, bind, gets, of_option, ret, set_ops, modify. cbn [hk_ops hk_nextOps]. rewrite Eo, lookup_insert_eq, insert_insert_eq.
  rewrite Ek, Ec, Es. destruct (delete k (x :: l)) as [|y l'] eqn:Ed.
  - destruct l; [|done]. cbn. change (Z.of_nat 1 - 1 =? 0) with true. cbn. by rewrite delete_insert_eq.
  - simpl in Hl'. change (length (x :: l)) with (Datatypes.S (length l)). rewrite (proj2 (Z.eqb_neq (Z.of_nat (Datatypes.S (length l)) - 1) 0)) by lia.
    unfold stage. do 4 f_equal. simpl. lia.
Qed.

Lemma complete_all_run ks done l all :
  done ++ l ≡ₚ all -> Forall mine all -> order (length l) ks ->
  exists done' l', complete_all remote ks (stage done l) = Ok (tt, stage done' l') /\ done' ++ l' ≡ₚ all /\
    length l' = (length l - length ks)%nat.
Proof.
  intros Hp Hm. revert done l Hp. induction ks as [|k ks IH]; intros done l Hp Hk.
  - exists done, l. split; [done|]. split; [done|simpl; lia].
  - destruct Hk as [Hlt Hk]. destruct (lookup_lt_is_Some_2 _ _ Hlt) as [op Hop].
    pose proof (length_delete l k ltac:(by eexists)) as Hl. pose proof (delete_Permutation _ _ _ Hop) as Hd.
    destruct (IH (op :: done) (delete k l)) as (done' & l' & Hrun & Hp' & Hl').
    { rewrite <- Hp. simpl. rewrite Permutation_middle. by rewrite <- Hd. }
    { by rewrite Hl. }
    assert (mine op) as Hmine.
    { rewrite Forall_forall in Hm. apply Hm. rewrite <- Hp. apply elem_of_app. right. by eapply list_elem_of_lookup_2. }
    exists done', l'. split; [|split; [done|simpl; lia]]. rewrite <- Hrun. unfold complete_all. cbn [for_each].
    unfold bind, gets, of_option, ret. replace (hk_rdma (stage done l)) with l by (by destruct l).
    rewrite Hop. by rewrite (complete_run k op).
Qed.
End request.

(** ** The write request *)
Lemma set_mem_id w : set_mem (fun m => m) w = w.
Proof. by destruct w. Qed.
Lemma iov_total lo hi ds : tiles lo hi ds -> total_len (iov_of ds) = hi - lo.
Proof.
  revert lo. induction ds as [|d ds IH]; intros lo Ht; simpl in *; [lia|]. destruct Ht as (_ & _ & Ht).
  rewrite (IH _ Ht). lia.
Qed.
Lemma iov_sized lo hi ds : tiles lo hi ds -> Forall (fun v => 0 <= v.2) (iov_of ds).
Proof.
  revert lo. induction ds as [|d ds IH]; intros lo Ht; [constructor|]. destruct Ht as (_ & Hz & Ht).
  constructor; [simpl; lia|by eapply IH].
Qed.

Lemma groups_sized (l : list (Z * Z)) : Forall (fun v => 0 <= v.2) l -> sized (groups (length l) l).
Proof. intros Hl. apply Forall_concat. by rewrite groups_concat. Qed.

Lemma rdma_some kind c iov ops size off l :
  0 < total_len l -> rdma_list kind c iov ops size off (groups (length l) l) <> [].
Proof.
  intros Hl Hnil%(f_equal length). rewrite rdma_list_length in Hnil.
  apply nil_length_inv, (f_equal (@concat _)) in Hnil. rewrite groups_concat in Hnil by done. subst l. simpl in Hl. lia.
Qed.

(** What objRdma leaves: one counter and the operations of the range. *)
Lemma objRdma_run kind c info ds s iov :
  iov = (buildIovec ds (rw_offset info) (rw_size info)).2 ->
  tiles (rw_offset info) (rw_offset info + rw_size info) (clip (rw_offset info) (rw_size info) <$> ds) ->
  0 < rw_size info -> 0 <= iov_addr (rw_iov info) -> iov_addr (rw_iov info) + rw_size info < two64 ->
  objRdma kind c info ds s =
  Ok (tt, mkHk _ _ (hk_cw s) (hk_out s)
            (hk_rdma s ++ rdma_list kind c (rw_iov info) (hk_nextOps s) (rw_size info) 0 (groups (length iov) iov))
            (<[hk_nextOps s := Z.of_nat (length (groups (length iov) iov))]> (hk_ops s))
            (hk_nextOps s + 1) (hk_readSize s) (hk_writeSize s)).
Proof.
  intros Hiov Ht Hs Ha Hb. unfold objRdma. rewrite <- Hiov.
  assert (Forall (fun v => 0 <= v.2) iov) as Hz by (rewrite Hiov; exact (iov_sized _ _ _ Ht)).
  assert (total_len iov = rw_size info) as Hl by (rewrite Hiov; etransitivity; [exact (iov_total _ _ _ Ht)|lia]).
  unfold bind at 1, new_ops, bind, gets, set_ops, modify, ret at 1. cbn.
  rewrite rdma_run; [done|by apply groups_sized|done|lia|]. rewrite groups_concat, Hl by done. lia.
Qed.

(** The state once the operations of a write request are posted: the segments of
    the range are dirty and nothing has come yet. *)
Definition posted s request info p ds c1 w1 w2 w3 s1 : Prop :=
  let base := rw_offset info in let size := rw_size info in
  let iov := (buildIovec ds base size).2 in
  let all := rdma_list RDMA_READ (rq_lfClientId request) (rw_iov info) (hk_nextOps s) size 0 (groups (length iov) iov) in
  write_ready (hk_cw s) (of_network (rw_objectId info)) base size p ds c1 w1 w2 /\ dirtied w2 p base size w3 /\ all <> [] /\
  s1 = mkHk _ _ (c1, w3) (hk_out s ++ [Repost (rq_msgBufferId request)]) all
         (<[hk_nextOps s := Z.of_nat (length all)]> (hk_ops s)) (hk_nextOps s + 1) (hk_readSize s) (hk_writeSize s).

Lemma wp_posted s request info :
  container_ok (hk_cw s) -> hk_rdma s = [] ->
  accessible (hk_cw s).1 (hk_cw s).2 (of_network (rw_objectId info)) (fits (rw_offset info) (rw_size info)) ->
  rw_msgHasData info = false -> 0 <= iov_addr (rw_iov info) -> iov_addr (rw_iov info) + rw_size info < two64 ->
  wp resource (HookObjectWrite_onMessage request info)
    (fun _ s1 => exists p ds c1 w1 w2 w3, posted s request info p ds c1 w1 w2 w3 s1) s.
Proof.
  intros Hc Hnone Hacc Hhas Ha Hab. unfold HookObjectWrite_onMessage. apply wp_write_open; try done.
  intros p ds c1 w1 w2 Hy. pose proof (wy_range _ _ _ _ _ _ _ _ _ Hy) as (Hb & Hs & He). cbn [fst snd]. rewrite Hhas.
  destruct (wy_cut _ _ _ _ _ _ _ _ _ Hy) as (o2 & o3 & Ho3 & _ & _ & Ht & _).
  eapply wp_bind, wp_of_Ok; [by apply (objRdma_run _ _ _ _ _ _ eq_refl)|]. cbn. apply wp_bind, wp_on_world. cbn [hk_cw fst snd].
  destruct (write_ready_dirty _ _ _ _ _ _ _ _ _ (fun m => m) Hy) as (w3 & Hrun & Hd).
  rewrite set_mem_id in Hrun, Hd. eapply wp_of_Ok; [exact Hrun|]. apply wp_modify. cbn. rewrite Hnone. cbn [app].
  exists p, ds, c1, w1, w2, w3. split; [done|]. split; [done|]. split; [|by rewrite rdma_list_length].
  apply rdma_some. change (0 < total_len (iov_of (clip (rw_offset info) (rw_size info) <$> ds))). rewrite (iov_total _ _ _ Ht). lia.
Qed.

(** Once they have all completed, the data of the client is in the buffers. *)
Lemma posted_landed remote s request info p ds c1 w1 w2 w3 s1 all done a :
  posted s request info p ds c1 w1 w2 w3 s1 -> all = hk_rdma s1 -> done ≡ₚ all ->
  foldr (land remote) (w_mem w2) done a =
  scatter (w_mem w2) (buildIovec ds (rw_offset info) (rw_size info)).2
    (rd (remote (rq_lfClientId request) (iov_key (rw_iov info))) (iov_addr (rw_iov info)) (rw_size info)) a.
Proof.
  intros (Hy & _ & _ & ->) -> Hperm. cbn [hk_rdma] in Hperm.
  destruct (wy_cut _ _ _ _ _ _ _ _ _ Hy) as (o2 & o3 & Ho3 & _ & _ & Ht & Hp & _).
  pose proof (tiles_apart w2 p o3 _ _ _ (wy_world _ _ _ _ _ _ _ _ _ Hy) Ho3 Hp Ht) as Hap.
  pose proof (iov_sized _ _ _ Ht) as Hz. pose proof (iov_total _ _ _ Ht) as Hl.
  change (iov_of (clip (rw_offset info) (rw_size info) <$> ds)) with (buildIovec ds (rw_offset info) (rw_size info)).2 in *.
  remember (buildIovec ds (rw_offset info) (rw_size info)).2 as iov eqn:Hiov.
  rewrite (land_any remote RDMA_READ (rq_lfClientId request) (rw_iov info) (hk_nextOps s) (rw_size info) 0 (groups (length iov) iov));
    [|by apply groups_sized|by rewrite groups_concat|done].
  rewrite groups_concat, Hl, Z.add_0_r by done. by replace (rw_offset info + rw_size info - rw_offset info) with (rw_size info) by lia.
Qed.

(** The completions, whatever [cw] is by then. *)
Lemma posted_complete remote s request info p ds c1 w1 w2 w3 s1 out cw ks :
  posted s request info p ds c1 w1 w2 w3 s1 -> order (length (hk_rdma s1)) ks ->
  let s0 := mkHk _ _ cw out [] (hk_ops s) (hk_nextOps s1) (hk_readSize s) (hk_writeSize s) in
  exists done l,
    complete_all remote ks (mkHk _ _ cw out (hk_rdma s1) (hk_ops s1) (hk_nextOps s1) (hk_readSize s1) (hk_writeSize s1)) =
    Ok (tt, stage remote s0 (hk_nextOps s) (rq_lfClientId request) (rw_size info) done l) /\
    done ++ l ≡ₚ hk_rdma s1 /\ length l = (length (hk_rdma s1) - length ks)%nat.
Proof.
  intros (_ & _ & Hne & ->) Hks s0. cbn [hk_rdma hk_ops hk_nextOps hk_readSize hk_writeSize] in *. 
  pose proof (rdma_list_forall RDMA_READ (rq_lfClientId request) (rw_iov info) (hk_nextOps s) (rw_size info) 0
    (groups (length (buildIovec ds (rw_offset info) (rw_size info)).2) (buildIovec ds (rw_offset info) (rw_size info)).2)) as Hall.
  revert Hne Hks Hall. generalize (rdma_list RDMA_READ (rq_lfClientId request) (rw_iov info) (hk_nextOps s) (rw_size info) 0
    (groups (length (buildIovec ds (rw_offset info) (rw_size info)).2) (buildIovec ds (rw_offset info) (rw_size info)).2)).
  intros all Hne Hks Hall.
  assert (mkHk _ _ cw out all (<[hk_nextOps s := Z.of_nat (length all)]> (hk_ops s)) (hk_nextOps s + 1) (hk_readSize s) (hk_writeSize s) =
          stage remote s0 (hk_nextOps s) (rq_lfClientId request) (rw_size info) [] all) as ->.
  { unfold stage. cbn. rewrite set_mem_id. destruct cw. by destruct all. }
  apply (complete_all_run remote s0 (hk_nextOps s) (rq_lfClientId request) (rw_size info) ks [] all all); [done| |done].
  eapply Forall_impl; [exact Hall|]. by intros op (? & ? & ? & ?).
Qed.

(** C7: a write request without data is served by RDMA.  In whatever order the
    operations complete, none of them fails, the client is not answered before the
    last one, and with the last one it is answered once, the memory of the client
    is what the server shows on the range, nothing else shown has changed, but for
    bytes of the units of alignement around the range when a read of the storage
    fails, and the segments of the range are dirty. *)
Theorem rdma_write s request info :
  container_ok (hk_cw s) -> hk_rdma s = [] ->
  accessible (hk_cw s).1 (hk_cw s).2 (of_network (rw_objectId info)) (fits (rw_offset info) (rw_size info)) ->
  rw_msgHasData info = false -> 0 <= iov_addr (rw_iov info) -> iov_addr (rw_iov info) + rw_size info < two64 ->
  wp resource (HookObjectWrite_onMessage request info)
    (fun _ s1 => hk_out s1 = hk_out s ++ [Repost (rq_msgBufferId request)] /\ hk_rdma s1 <> [] /\
       forall remote ks, order (length (hk_rdma s1)) ks ->
       exists s2, complete_all remote ks s1 = Ok (tt, s2) /\
         length (hk_rdma s2) = (length (hk_rdma s1) - length ks)%nat /\
         if decide (hk_rdma s2 = []) then
           hk_out s2 = hk_out s1 ++ [Response IOC_LF_MSG_OBJ_READ_WRITE_ACK (rq_lfClientId request) 0 None] /\
           write_done (hk_cw s) (of_network (rw_objectId info)) (rw_offset info) (rw_size info)
             (rd (remote (rq_lfClientId request) (iov_key (rw_iov info))) (iov_addr (rw_iov info)) (rw_size info)) (hk_cw s2) /\
           hk_ops s2 = delete (hk_nextOps s) (hk_ops s) /\ hk_writeSize s2 = hk_writeSize s +u rw_size info
         else hk_out s2 = hk_out s1) s.
Proof.
  intros Hc Hnone Hacc Hhas Ha Hab. eapply wp_mono; [by apply wp_posted|].
  intros _ s1 (p & ds & c1 & w1 & w2 & w3 & Hpost). pose proof Hpost as (Hy & Hd & Hne & Hs1).
  pose proof (wy_range _ _ _ _ _ _ _ _ _ Hy) as (_ & Hs & _).
  split; [by rewrite Hs1|]. split; [by rewrite Hs1|]. intros remote ks Hks.
  destruct (posted_complete remote _ _ _ _ _ _ _ _ _ _ (hk_out s1) (hk_cw s1) ks Hpost Hks) as (dn & l & Hrun & Hperm & Hl).
  eexists. split; [etransitivity; [|exact Hrun]; by destruct s1|]. split; [by destruct l|].
  destruct l as [|op l]; cbn; [|done]. rewrite app_nil_r in Hperm. split; [done|]. split; [|done].
  rewrite Hs1. cbn. eapply (write_ready_done _ _ _ _ p ds c1 w1 w2 (fun m => foldr (land remote) m dn)); [done|apply rd_length; lia| |].
  - intros a. by eapply posted_landed.
  - destruct Hd as (o4 & Ho4 & ->). by exists o4.
Qed.
End runs.
End Rdma.
