(* ===== verification/LibfabricDomain.v ===== *)
(** * LibfabricDomain

    Model of src/src/base/network/LibfabricDomain.cpp: the memory regions
    registered for RDMA, found by the address of their last byte, and the pool of
    message buffers. *)

From Stdlib Require Import String.
From S2P Require Import Prelude StdMap Memory IntervalMap System Protocol.

Module LibfabricDomain.

(** struct MemoryRegion *)
Record MemoryRegion : Type := mkRegion { mr_ptr : Z; mr_size : Z; mr_mr : Z }.

(** class LibfabricDomain *)
Record Domain : Type := mkDomain {
  segments : stdmap Z MemoryRegion;
  virtMrMode : bool;
  msgBufferSize : Z;
  msgBuffers : list Z;
}.

Definition set_segments (m : stdmap Z MemoryRegion) (d : Domain) : Domain :=
  mkDomain m (virtMrMode d) (msgBufferSize d) (msgBuffers d).
Definition set_msgBuffers (l : list Z) (d : Domain) : Domain :=
  mkDomain (segments d) (virtMrMode d) (msgBufferSize d) l.

(** The domain in its process; [s_cnt] is the static counter of registerSegment. *)
Record Sys {X : Type} : Type := mkSys { s_ext : X; s_cnt : Z; s_domain : Domain }.
Arguments Sys : clear implicits.
Arguments mkSys {X}.

Definition set_ext {X} (x : X) (s : Sys X) : Sys X := mkSys x (s_cnt s) (s_domain s).
Definition set_domain {X} (f : Domain -> Domain) (s : Sys X) : Sys X := mkSys (s_ext s) (s_cnt s) (f (s_domain s)).

(** The defaults of LibfabricDomain::LibfabricDomain for a provider. *)
Definition new_domain (prov_name : string) : Domain :=
  mkDomain [] (negb (String.prefix "tcp;" prov_name)) (1024 * 1024) [].

Section domain.
Context {X : Type} `{Libc X} `{Libfabric X}.

(** The search of getMR and unregisterSegment. *)
Definition region_at (ptr : Z) (m : stdmap Z MemoryRegion) : option (Z * MemoryRegion) :=
  match sm_lower_bound ptr m with
  | (k, r) :: _ => if (mr_ptr r <=? ptr) && (mr_ptr r +u mr_size r >? ptr) then Some (k, r) else None
  | [] => None
  end.

(** LibfabricDomain::getMR *)
Definition getMR (ptr size : Z) : M (Sys X) (option MemoryRegion) :=
  assert_ (negb (ptr =? 0)) ;;
  assert_ (size >? 0) ;;
  gets (fun s => snd <$> region_at ptr (segments (s_domain s))).

(** LibfabricDomain::getFidMR *)
Definition getFidMR (ptr size : Z) : M (Sys X) (option Z) :=
  assert_ (negb (ptr =? 0)) ;;
  assert_ (size >? 0) ;;
  let! region := getMR ptr size in
  match region with
  | None => ret None
  | Some region => ret (Some (mr_mr region))
  end.

(** LibfabricDomain::registerSegment *)
Definition registerSegment (ptr size : Z) (read write pmem : bool) : M (Sys X) Protocol.Iov :=
  assert_ (negb (ptr =? 0)) ;;
  assert_ (size >? 0) ;;
  let! mr := getMR ptr size in
  assert_ (match mr with None => true | Some _ => false end) ;;
  let accessFlag := 0 in
  let accessFlag := if read then Z.lor accessFlag fi_REMOTE_READ else accessFlag in
  let accessFlag := if write then Z.lor accessFlag fi_REMOTE_WRITE else accessFlag in
  let flags := 0 in
  let flags := if pmem then Z.lor flags fi_RMA_PMEM else flags in
  let! s := gets (fun s => s) in
  let r := fi_mr_reg ptr size accessFlag flags (u64 (s_cnt s)) (s_ext s) in
  modify (fun s => mkSys r.2 (i32 (s_cnt s + 1)) (s_domain s)) ;;
  guard_ FSystem (r.1.1 =? 0) ;;
  let region := mkRegion ptr size r.1.2 in
  modify (set_domain (fun d => set_segments (sm_insert ((ptr +u size) -u 1) region (segments d)) d)) ;;
  gets (fun s => Protocol.mkIov (if virtMrMode (s_domain s) then ptr else 0) (fi_mr_key (mr_mr region) (s_ext s))).

(** LibfabricDomain::unregisterSegment *)
Definition unregisterSegment (ptr size : Z) : M (Sys X) unit :=
  assert_ (negb (ptr =? 0)) ;;
  let! s := gets (fun s => s) in
  match sm_lower_bound ptr (segments (s_domain s)) with
  | [] => abort FAssume
  | (k, r) :: _ =>
      assume_ ((mr_ptr r <=? ptr) && (mr_ptr r +u mr_size r >? ptr)) ;;
      modify (fun s => set_ext (fi_close (mr_mr r) (s_ext s)) s) ;;
      modify (set_domain (fun d => set_segments (sm_erase k (segments d)) d))
  end.

(** LibfabricDomain::setMsgBufferSize *)
Definition setMsgBufferSize (size : Z) : M (Sys X) unit :=
  let! s := gets (fun s => s) in
  assume_ (match msgBuffers (s_domain s) with [] => true | _ => false end) ;;
  modify (set_domain (fun d => mkDomain (segments d) (virtMrMode d) size (msgBuffers d))).

(** LibfabricDomain::getMsgBufferSize *)
Definition getMsgBufferSize : M (Sys X) Z := gets (fun s => msgBufferSize (s_domain s)).

(** malloc and free *)
Definition malloc (n : Z) : M (Sys X) Z := fun s =>
  let r := lc_malloc n (s_ext s) in Ok (r.1, set_ext r.2 s).
Definition free (p : Z) : M (Sys X) unit := modify (fun s => set_ext (lc_free p (s_ext s)) s).

(** LibfabricDomain::getMsgBuffer; the pool is a list used from its end. A null
    [malloc] goes to the first check of registerSegment. *)
Definition getMsgBuffer : M (Sys X) Z :=
  let! s := gets (fun s => s) in
  match last (msgBuffers (s_domain s)) with
  | None =>
      assume_ (negb (msgBufferSize (s_domain s) =? 0)) ;;
      let! res := malloc (msgBufferSize (s_domain s)) in
      registerSegment res (msgBufferSize (s_domain s)) true false false ;;
      ret res
  | Some res =>
      modify (set_domain (fun d => set_msgBuffers (removelast (msgBuffers d)) d)) ;;
      ret res
  end.

(** LibfabricDomain::retMsgBuffer *)
Definition retMsgBuffer (buffer : Z) : M (Sys X) unit :=
  assume_ (negb (buffer =? 0)) ;;
  modify (set_domain (fun d => set_msgBuffers (msgBuffers d ++ [buffer]) d)).

(** The release of the message buffers in LibfabricDomain::~LibfabricDomain *)
Definition destroy_domain : M (Sys X) unit :=
  let! s := gets (fun s => s) in
  for_each (msgBuffers (s_domain s)) (fun it =>
    unregisterSegment it (msgBufferSize (s_domain s)) ;;
    free it) ;;
  modify (set_domain (set_msgBuffers [])).
End domain.

(** ** The memory of the process and its registration

    The live blocks of the process, each with its size and whether it is
    registered: the abstract state the operations above act on. *)
Abbreviation heap := (gmap Z (Z * bool)).

Section rep.
Context {X : Type} `{Libc X} `{!LibcOk X} `{Libfabric X} `{!LibfabricOk X}.
Implicit Types (s : Sys X) (G : heap).

(** The regions of the domain are exactly the registered live blocks. *)
Record sys_rep s G : Prop := {
  sr_live : lc_live (s_ext s) = fst <$> G;
  sr_chain : interval_chain mr_ptr mr_size 1 (segments (s_domain s));
  sr_regs : forall p n, G !! p = Some (n, true) <-> exists k mr, In (k, mkRegion p n mr) (segments (s_domain s));
}.

Lemma rep_live s G p n b : sys_rep s G -> G !! p = Some (n, b) -> lc_live (s_ext s) !! p = Some n.
Proof. intros Hr Hp. rewrite (sr_live _ _ Hr), lookup_fmap, Hp. done. Qed.

Lemma rep_range s G p n b : sys_rep s G -> G !! p = Some (n, b) -> 0 < p /\ 0 < n /\ p + n < two64.
Proof. intros Hr Hp. eapply lc_range, rep_live; eauto. Qed.

Lemma rep_apart s G p n b q k b' :
  sys_rep s G -> G !! p = Some (n, b) -> G !! q = Some (k, b') -> p <> q -> disjoint p n q k.
Proof. intros Hr Hp Hq. eapply lc_apart; eapply rep_live; eauto. Qed.

Lemma rep_In s G k r : sys_rep s G -> In (k, r) (segments (s_domain s)) -> G !! mr_ptr r = Some (mr_size r, true).
Proof. intros Hr Hin. apply (sr_regs _ _ Hr). exists k, (mr_mr r). by destruct r. Qed.

(** The search finds the region that covers an address. *)
Lemma region_at_spec s G p k r :
  sys_rep s G ->
  region_at p (segments (s_domain s)) = Some (k, r) <->
  In (k, r) (segments (s_domain s)) /\ mr_ptr r <= p < mr_ptr r + mr_size r.
Proof.
  intros Hr. rewrite <- (im_cover_spec mr_ptr mr_size 1 _ p k r (sr_chain _ _ Hr)).
  unfold region_at, im_cover.
  destruct (chain_lower_bound _ _ _ _ p (sr_chain _ _ Hr)) as (pre & Hm & _ & Hge).
  destruct (sm_lower_bound p (segments (s_domain s))) as [|[k' r'] rest] eqn:El; [done|].
  apply Forall_cons in Hge as [Hge _]. unfold iend in Hge. simpl in Hge.
  assert (In (k', r') (segments (s_domain s))) as Hin by (rewrite Hm; apply in_or_app; right; by left).
  destruct (rep_range _ _ _ _ _ Hr (rep_In _ _ _ _ Hr Hin)) as (? & ? & ?).
  destruct (mr_ptr r' <=? p) eqn:E1; [|done]. simpl.
  rewrite u64_small by lia. replace (_ >? p) with true by lia. done.
Qed.

Lemma region_at_None s G p :
  sys_rep s G -> (forall k r, In (k, r) (segments (s_domain s)) -> ~ (mr_ptr r <= p < mr_ptr r + mr_size r)) ->
  region_at p (segments (s_domain s)) = None.
Proof.
  intros Hr Hn. destruct (region_at _ _) as [[k r]|] eqn:E; [|done].
  apply (region_at_spec _ _ _ _ _ Hr) in E as [Hin Hx]. by destruct (Hn k r Hin).
Qed.

Lemma getMR_run s ptr size :
  ptr <> 0 -> 0 < size -> getMR ptr size s = Ok (snd <$> region_at ptr (segments (s_domain s)), s).
Proof.
  intros Hp Hs. unfold getMR, bind, assert_, guard_. destruct (ptr =? 0) eqn:E1; [lia|]. destruct (size >? 0) eqn:E2; [done|lia].
Qed.

(** A block that is not registered meets no region. *)
Lemma rep_unregistered s G p n k r :
  sys_rep s G -> G !! p = Some (n, false) -> In (k, r) (segments (s_domain s)) ->
  mr_ptr r + mr_size r <= p \/ p + n <= mr_ptr r.
Proof.
  intros Hr Hp Hin. pose proof (rep_In _ _ _ _ Hr Hin) as Hq. eapply (rep_apart _ _ _ _ _ _ _ _ Hr Hq Hp). congruence.
Qed.

Lemma wp_registerSegment s G p n rd wr pm :
  sys_rep s G -> G !! p = Some (n, false) ->
  wp resource (registerSegment p n rd wr pm)
    (fun _ s' => sys_rep s' (<[p := (n, true)]> G) /\
       exists mr, s_domain s' = set_segments (sm_insert (p + n - 1) (mkRegion p n mr) (segments (s_domain s))) (s_domain s)) s.
Proof.
  intros Hr Hp. destruct (rep_range _ _ _ _ _ Hr Hp) as (Hp0 & Hn & He). unfold registerSegment.
  apply wp_bind, wp_guard; [lia|]. apply wp_bind, wp_guard; [lia|]. wp_run (getMR_run s p n ltac:(lia) Hn).
  rewrite (region_at_None _ _ _ Hr).
  2: { intros k r Hin. destruct (rep_unregistered _ _ _ _ _ _ Hr Hp Hin); lia. }
  apply wp_bind, wp_guard; [done|]. cbv zeta. apply wp_bind, wp_gets. set (r := fi_mr_reg _ _ _ _ _ _).
  apply wp_bind, wp_modify, wp_bind. unfold guard_. destruct (r.1.1 =? 0); [|by right]. apply wp_ret.
  apply wp_bind, wp_modify, wp_gets. rewrite (u64_small (p + n)), u64_small by lia.
  set (reg := mkRegion p n r.1.2). split; [|by exists r.1.2].
  assert (forall k r0, In (k, r0) (segments (s_domain s)) -> iend mr_ptr mr_size r0 <= mr_ptr reg \/ iend mr_ptr mr_size reg <= mr_ptr r0) as Hd.
  { intros k r0 Hin. unfold iend. exact (rep_unregistered _ _ _ _ _ _ Hr Hp Hin). }
  pose proof (sr_chain _ _ Hr) as Hc. constructor; simpl.
  - unfold r. rewrite fi_mr_reg_live, (sr_live _ _ Hr). rewrite fmap_insert. simpl. rewrite insert_id; [done|].
    by rewrite lookup_fmap, Hp.
  - apply (chain_insert mr_ptr mr_size 1 _ reg); simpl; try done; lia.
  - intros q m. destruct (decide (q = p)) as [->|Hne].
    + rewrite lookup_insert_eq. split.
      * intros [= <-]. exists (p + n - 1), r.1.2. by apply (sm_insert_In_fresh mr_ptr mr_size 1 _ reg); [..|left].
      * intros (k & mr & Hin). apply (sm_insert_In_fresh mr_ptr mr_size 1 _ reg) in Hin; [|done..|simpl; lia].
        destruct Hin as [[= _ -> _]|Hin]; [done|]. pose proof (rep_In _ _ _ _ Hr Hin) as Hx. simpl in Hx. congruence.
    + rewrite lookup_insert_ne, (sr_regs _ _ Hr) by done. split; intros (k & mr & Hin); exists k, mr.
      * apply (sm_insert_In_fresh mr_ptr mr_size 1 _ reg); [..|by right]; done.
      * apply (sm_insert_In_fresh mr_ptr mr_size 1 _ reg) in Hin; [|done..|simpl; lia]. destruct Hin as [[= ? ? ? ?]|?]; [congruence|done].
Qed.

Lemma wp_unregisterSegment s G p n sz :
  sys_rep s G -> G !! p = Some (n, true) ->
  wp never (unregisterSegment p sz)
    (fun _ s' => sys_rep s' (<[p := (n, false)]> G) /\
       s_domain s' = set_segments (sm_erase (p + n - 1) (segments (s_domain s))) (s_domain s)) s.
Proof.
  intros Hr Hp. destruct (rep_range _ _ _ _ _ Hr Hp) as (Hp0 & Hn & He). pose proof (sr_chain _ _ Hr) as Hc.
  apply (sr_regs _ _ Hr) in Hp as Hin. destruct Hin as (k & mr & Hin).
  pose proof (chain_In _ _ _ _ _ _ Hc Hin) as (_ & _ & Hk). unfold iend in Hk. simpl in Hk.
  assert (region_at p (segments (s_domain s)) = Some (k, mkRegion p n mr)) as Hat.
  { apply (region_at_spec _ _ _ _ _ Hr). split; [done|]. simpl. lia. }
  unfold unregisterSegment. apply wp_bind, wp_guard; [lia|]. apply wp_bind, wp_gets. unfold region_at in Hat.
  destruct (sm_lower_bound p _) as [|[k' r'] rest]; [done|]. destruct (_ && _) eqn:Eb; [|done]. injection Hat as -> ->.
  apply wp_bind, wp_guard; [done|]. apply wp_bind, wp_modify, wp_modify. rewrite <- Hk.
  pose proof (chain_sorted _ _ _ _ Hc) as Hs. split; [|done].
  assert (forall k0 r0, In (k0, r0) (sm_erase k (segments (s_domain s))) <-> In (k0, r0) (segments (s_domain s)) /\ k0 <> k) as Her.
  { intros k0 r0. rewrite <- !sm_find_In by (try apply sm_ok_erase; done). destruct (decide (k0 = k)) as [->|Hne].
    - rewrite sm_find_erase_eq by done. split; [done|]. by intros [_ ?].
    - rewrite sm_find_erase_ne by done. tauto. }
  constructor; simpl.
  - rewrite fi_close_live, (sr_live _ _ Hr), fmap_insert. simpl. rewrite insert_id; [done|]. by rewrite lookup_fmap, Hp.
  - by apply chain_erase.
  - intros q m. destruct (decide (q = p)) as [->|Hne].
    + rewrite lookup_insert_eq. split; [done|]. intros (k0 & mr0 & [Hin0 Hk0]%Her).
      destruct (chain_disjoint _ _ _ _ _ _ _ _ Hc Hin Hin0) as [[= ? ? ?]|[Hd|Hd]]; [congruence| |]; unfold iend in Hd; simpl in Hd;
      pose proof (chain_In _ _ _ _ _ _ Hc Hin0) as (_ & ? & _); simpl in *; lia.
    + rewrite lookup_insert_ne, (sr_regs _ _ Hr) by done. split; intros (k0 & mr0 & Hin0); exists k0, mr0.
      * apply Her. split; [done|]. intros ->. apply Hne.
        assert (sm_find k (segments (s_domain s)) = Some (mkRegion p n mr)) by by apply sm_find_In.
        assert (sm_find k (segments (s_domain s)) = Some (mkRegion q m mr0)) by by apply sm_find_In. congruence.
      * by apply Her in Hin0 as [? _].
Qed.

(** *** The system calls *)
Lemma rep_ext s G x : sys_rep s G -> lc_live x = lc_live (s_ext s) -> sys_rep (set_ext x s) G.
Proof. intros [Hl Hc Hg] Hx. constructor; simpl; [congruence|done|done]. Qed.

Lemma rep_alloc s G x p n :
  sys_rep s G -> lc_live (s_ext s) !! p = None -> lc_live x = <[p := n]> (lc_live (s_ext s)) ->
  G !! p = None /\ sys_rep (set_ext x s) (<[p := (n, false)]> G).
Proof.
  intros Hr Hfresh Hlive. assert (G !! p = None) as HG.
  { rewrite (sr_live _ _ Hr), lookup_fmap in Hfresh. by destruct (G !! p). }
  split; [done|]. destruct Hr as [Hl Hc Hg]. constructor; simpl; [|done|].
  - rewrite Hlive, Hl, fmap_insert. done.
  - intros q m. destruct (decide (q = p)) as [->|Hne]; [|by rewrite lookup_insert_ne].
    rewrite lookup_insert_eq. split; [done|]. intros Hin. apply Hg in Hin. congruence.
Qed.

Lemma rep_free s G x p n :
  sys_rep s G -> G !! p = Some (n, false) -> lc_live x = delete p (lc_live (s_ext s)) ->
  sys_rep (set_ext x s) (delete p G).
Proof.
  intros [Hl Hc Hg] Hp Hlive. constructor; simpl; [|done|].
  - by rewrite Hlive, Hl, fmap_delete.
  - intros q m. destruct (decide (q = p)) as [->|Hne]; [|by rewrite lookup_delete_ne].
    rewrite lookup_delete_eq. split; [done|]. intros Hin. apply Hg in Hin. congruence.
Qed.

(** There are fewer blocks than addresses. *)
Lemma rep_count s G : sys_rep s G -> Z.of_nat (size G) < two64.
Proof.
  intros Hr. assert (dom G ⊆ (list_to_set (seqZ 1 (two64 - 1)) : gset Z)) as Hsub.
  { intros p [[n b] Hp]%elem_of_dom. apply elem_of_list_to_set, elem_of_seqZ.
    destruct (rep_range _ _ _ _ _ Hr Hp). lia. }
  apply subseteq_size in Hsub. rewrite size_dom, size_list_to_set in Hsub by apply NoDup_seqZ.
  rewrite length_seqZ in Hsub. pose proof two63_two64. lia.
Qed.

(** [getMR] returns the region that covers the address, and none when no
    region does; there is at most one. *)
Theorem getMR_correct s G ptr size :
  sys_rep s G -> ptr <> 0 -> 0 < size ->
  exists r, getMR ptr size s = Ok (r, s) /\
    (forall reg, r = Some reg <-> (exists k, In (k, reg) (segments (s_domain s))) /\ mr_ptr reg <= ptr < mr_ptr reg + mr_size reg).
Proof.
  intros Hr Hp Hs. eexists. split; [by apply getMR_run|]. intros reg. rewrite fmap_Some. split.
  - intros ([k r] & Hat & ->). apply (region_at_spec _ _ _ _ _ Hr) in Hat as [? ?]. eauto.
  - intros [[k Hin] Hx]. exists (k, reg). split; [|done]. by apply (region_at_spec _ _ _ _ _ Hr).
Qed.

(** registering a live block that is not registered adds it to the regions,
    where every address of the block finds it, and [unregisterSegment] then
    gives the regions back as they were: the registration neither fails an
    assertion nor touches another region. *)
Theorem register_unregister_segment s G p n rd wr pm :
  sys_rep s G -> G !! p = Some (n, false) ->
  wp resource (registerSegment p n rd wr pm)
    (fun _ s' => sys_rep s' (<[p := (n, true)]> G) /\
       (forall q size, p <= q < p + n -> 0 < size -> exists mr, getMR q size s' = Ok (Some (mkRegion p n mr), s')) /\
       wp never (unregisterSegment p n)
         (fun _ s'' => sys_rep s'' G /\ segments (s_domain s'') = segments (s_domain s)) s') s.
Proof.
  intros Hr Hp. destruct (rep_range _ _ _ _ _ Hr Hp) as (Hp0 & Hn & He).
  eapply wp_mono; [by apply wp_registerSegment|]. intros iov s' (Hr' & mr & Hd).
  assert (<[p := (n, true)]> G !! p = Some (n, true)) as Hp' by apply lookup_insert_eq. split; [done|]. split.
  - intros q size Hq Hs. apply (sr_regs _ _ Hr') in Hp' as (k & mr' & Hin). exists mr'.
    rewrite getMR_run by lia. rewrite (proj2 (region_at_spec _ _ q k (mkRegion p n mr') Hr')); [done|]. done.
  - eapply wp_mono; [by eapply (wp_unregisterSegment s' (<[p := (n, true)]> G) p n n)|]. intros _ s'' (Hr'' & Hd'').
    rewrite insert_insert_eq, insert_id in Hr'' by done. split; [done|]. rewrite Hd'', Hd. simpl.
    apply sm_erase_insert; [|eapply chain_sorted, sr_chain, Hr]. apply all_find_None; [eapply chain_sorted, sr_chain, Hr|].
    intros v Hin. pose proof (chain_In _ _ _ _ _ _ (sr_chain _ _ Hr) Hin) as (_ & ? & Hk). unfold iend in Hk.
    destruct (rep_unregistered _ _ _ _ _ _ Hr Hp Hin); lia.
Qed.

(** *** The pool of message buffers *)

(** The buffers of the pool and those handed out are distinct registered blocks
    of the current size. *)
Record pool_ok s G (out : list Z) : Prop := {
  po_rep : sys_rep s G;
  po_nodup : NoDup (msgBuffers (s_domain s) ++ out);
  po_size : forall p, p ∈ msgBuffers (s_domain s) ++ out -> G !! p = Some (msgBufferSize (s_domain s), true);
  po_pos : 0 < msgBufferSize (s_domain s);
}.

(** A failing [malloc] is caught by the first assertion of registerSegment. *)
Definition pool_fault (f : fault) : Prop := resource f \/ f = FAssert.

(** At most the block [p] is new. *)
Definition grown (p : Z) G G' : Prop := G ⊆ G' /\ forall q v, G' !! q = Some v -> q = p \/ G !! q = Some v.

Lemma wp_getMsgBuffer s G out :
  pool_ok s G out ->
  wp pool_fault getMsgBuffer
    (fun p s' => (p ∉ out) /\ (exists G', grown p G G' /\ pool_ok s' G' (p :: out)) /\
       (msgBuffers (s_domain s) <> [] -> s_ext s' = s_ext s) /\
       (p ∉ msgBuffers (s_domain s) -> G !! p = None) /\
       (forall q, q ∈ msgBuffers (s_domain s) <-> q ∈ msgBuffers (s_domain s') \/ (q = p /\ G !! p <> None))) s.
Proof.
  intros [Hr Hnd Hsz Hpos].
  unfold getMsgBuffer. apply wp_bind, wp_gets. destruct (last (msgBuffers (s_domain s))) as [p|] eqn:El.
  - apply last_Some in El as [l Hl]. rewrite Hl in Hnd, Hsz. rewrite <- app_assoc in Hnd, Hsz.
    apply wp_bind, wp_modify, wp_ret.
    assert (removelast (msgBuffers (s_domain s)) = l) as Hrl by (rewrite Hl; apply removelast_last). split; [|split; [|split; [done|split]]].
    + intros Hin. apply NoDup_app in Hnd as (_ & _ & Hnd). apply NoDup_cons in Hnd as [Hx _]. done.
    + exists G. split; [split; [done|auto]|]. constructor; simpl; rewrite ?Hrl; try done; destruct Hr; by constructor.
    + intros Hnin. destruct Hnin. rewrite Hl, elem_of_app. right. by apply list_elem_of_singleton.
    + intros q. simpl. rewrite Hrl, Hl, elem_of_app, list_elem_of_singleton, (Hsz p) by (rewrite !elem_of_app, list_elem_of_singleton; auto). naive_solver.
  - apply last_None in El. rewrite El in *. simpl in Hnd, Hsz.
    apply wp_bind, wp_guard; [lia|]. unfold malloc. apply wp_bind. unfold wp at 1.
    set (n := msgBufferSize (s_domain s)) in *. pose proof (lc_malloc_ok (s_ext s) n Hpos) as Hm.
    set (r := lc_malloc n (s_ext s)) in *. set (s1 := set_ext r.2 s). destruct (r.1 =? 0) eqn:E0.
    { apply Z.eqb_eq in E0. rewrite E0. unfold wp, bind, registerSegment, bind, assert_, guard_. simpl. by right. }
    destruct Hm as [Hfresh Hlive]. set (p := r.1) in *.
    destruct (rep_alloc s G r.2 p n Hr Hfresh Hlive) as [HG Hr1]. fold s1 in Hr1.
    apply wp_bind. eapply wp_mono; [eapply wp_weaken; [|apply (wp_registerSegment s1 (<[p := (n, false)]> G) p n); [done|apply lookup_insert_eq]]; by left|].
    intros iov s2 (Hr2 & mr & Hd). rewrite insert_insert_eq in Hr2. apply wp_ret.
    assert (p ∉ out) as Hpo by (intros Hin; specialize (Hsz p Hin); congruence).
    split; [done|]. split; [|split; [done|split; [done|rewrite Hd; intros q; simpl; rewrite El, elem_of_nil; naive_solver]]].
    exists (<[p := (n, true)]> G). split; [split; [by apply insert_subseteq|]|].
    { intros q v. rewrite lookup_insert_Some. naive_solver. }
    constructor; [done| | |]; rewrite Hd; cbn [msgBuffers msgBufferSize set_segments s_domain s1 set_ext]; rewrite ?El; simpl.
    + by apply NoDup_cons.
    + intros q [->|Hq]%elem_of_cons; [apply lookup_insert_eq|]. rewrite lookup_insert_ne; [auto|]. by intros ->.
    + done.
Qed.

Lemma wp_retMsgBuffer s G out p out1 out2 :
  pool_ok s G out -> out = out1 ++ p :: out2 ->
  wp never (retMsgBuffer p) (fun _ s' => pool_ok s' G (out1 ++ out2)) s.
Proof.
  intros [Hr Hnd Hsz Hpos] ->. unfold retMsgBuffer.
  assert (0 < p) as Hp.
  { refine (proj1 (rep_range _ _ p _ _ Hr (Hsz p _))). rewrite !elem_of_app, elem_of_cons. auto. }
  apply wp_bind, wp_guard; [lia|]. apply wp_modify.
  assert (msgBuffers (s_domain s) ++ out1 ++ p :: out2 ≡ₚ (msgBuffers (s_domain s) ++ [p]) ++ out1 ++ out2) as Hperm by solve_Permutation.
  constructor; simpl; [destruct Hr; by constructor| | |done].
  - by rewrite <- Hperm.
  - intros q. rewrite <- Hperm. apply Hsz.
Qed.

(** [getMsgBuffer] hands out a registered buffer of the current size that
    nobody else holds, taken from the pool when there is one, and
    [retMsgBuffer] puts it back: the invariant of the pool is kept by both. *)
Theorem msgBuffer_pool s G out :
  pool_ok s G out ->
  wp pool_fault getMsgBuffer
    (fun p s' => (p ∉ out) /\ (exists G', G ⊆ G' /\ pool_ok s' G' (p :: out)) /\
       (msgBuffers (s_domain s) <> [] -> s_ext s' = s_ext s)) s /\
  (forall p out1 out2, out = out1 ++ p :: out2 ->
     wp never (retMsgBuffer p) (fun _ s' => pool_ok s' G (out1 ++ out2)) s).
Proof. intros Hp. split; [eapply wp_mono; [by apply wp_getMsgBuffer|]; by intros p s' (? & (G' & [? _] & ?) & ? & _); eauto|]. intros p out1 out2 Ho. by eapply wp_retMsgBuffer. Qed.

(** the check of [setMsgBufferSize] only looks at the pool: when the buffer
    [p] of another size is handed out and nothing is in the pool, the size can
    be changed, and the next [getMsgBuffer] after the return of [p] gives [p]
    as a buffer of the new size. *)
Theorem setMsgBufferSize_stale s p size :
  msgBuffers (s_domain s) = [] -> p <> 0 ->
  exists s', (setMsgBufferSize size ;; retMsgBuffer p ;; getMsgBuffer) s = Ok (p, s') /\
    msgBufferSize (s_domain s') = size /\ segments (s_domain s') = segments (s_domain s).
Proof.
  intros Hm Hp. unfold setMsgBufferSize, retMsgBuffer, getMsgBuffer, bind, gets, modify, assume_, guard_. rewrite Hm. simpl.
  destruct (p =? 0) eqn:E0; [lia|]. simpl. rewrite Hm. simpl. eexists. done.
Qed.
End rep.
End LibfabricDomain.
