(* ===== verification/FabricObjects.v ===== *)
(** * The objects of libfabric

    The constructors and destructors of LibfabricDomain.cpp and
    LibfabricConnection.cpp open and close objects of libfabric: a description of the
    network, a fabric, a domain of it, and on the domain a completion queue, an address
    vector and an endpoint that is bound to both; memory regions are registered on the
    domain.  The calls are parameters ([FabricObjects]); libfabric refuses to close an
    object that another one needs, and a domain that has memory regions, and the
    sources ignore that answer, so that the order of the destructors is what keeps
    objects from staying open. *)

From Stdlib Require Import String.
From S2P Require Import Prelude StdMap Memory IntervalMap Protocol System LibfabricDomain.

Class FabricObjects (X : Type) := {
  fi_allocinfo : X -> Z * X;                                 (** 0 is NULL *)
  (** node, service, flag FI_SOURCE, hints: status and description *)
  fi_getinfo : string -> string -> bool -> Z -> X -> (Z * Z) * X;
  fi_freeinfo : Z -> X -> X;
  fi_src_addrlen : Z -> X -> Z;
  fi_dest_addrlen : Z -> X -> Z;
  fi_prov_name : Z -> X -> string;
  fi_fabric : Z -> X -> (Z * Z) * X;                         (** description: status and fabric *)
  fi_domain : Z -> Z -> X -> (Z * Z) * X;                    (** fabric, description *)
  fi_cq_open : Z -> bool -> X -> (Z * Z) * X;                (** domain, FI_WAIT_UNSPEC *)
  fi_av_open : Z -> X -> (Z * Z) * X;                        (** domain *)
  fi_endpoint : Z -> Z -> X -> (Z * Z) * X;                  (** domain, description *)
  fi_ep_bind : Z -> Z -> X -> Z * X;                         (** endpoint, object *)
  fi_enable : Z -> X -> Z * X;
  fi_fid_close : Z -> X -> Z * X;
}.

Section ok.
Context {X : Type} `{FabricObjects X} (fo_open : X -> gmap Z (list Z)).

(** A call that opens an object which needs the objects [needs]. *)
Definition opens (r : (Z * Z) * X) (needs : list Z) (x : X) : Prop :=
  if r.1.1 =? 0 then fo_open x !! r.1.2 = None /\ fo_open r.2 = <[r.1.2 := needs]> (fo_open x) else fo_open r.2 = fo_open x.

(** Another object needs [h]. *)
Definition needed (h : Z) (x : X) : Prop := exists k l, fo_open x !! k = Some l /\ h ∈ l.

(** The domain memory is registered on and its regions. *)
Context (fo_domain : X -> Z) (fo_regions : X -> gset Z).
Definition same_regions (x x' : X) : Prop := fo_domain x' = fo_domain x /\ fo_regions x' = fo_regions x.

(** What keeps [h] open. *)
Definition in_use (h : Z) (x : X) : Prop := needed h x \/ (h = fo_domain x /\ fo_regions x <> ∅).
End ok.

Class FabricObjectsOk (X : Type) `{FabricObjects X} `{LibcOk X} `{Libfabric X} := {
  (** the objects that are open, with those they need *)
  fo_open : X -> gmap Z (list Z);
  (** the last domain that was opened and the memory regions registered on it *)
  fo_domain : X -> Z;
  fo_regions : X -> gset Z;
  fi_allocinfo_ok : forall x, (fi_allocinfo x).1 <> 0 -> fo_open x !! (fi_allocinfo x).1 = None /\ fo_open (fi_allocinfo x).2 = <[(fi_allocinfo x).1 := []]> (fo_open x);
  fi_getinfo_ok : forall x n s b h, opens fo_open (fi_getinfo n s b h x) [] x;
  fi_freeinfo_ok : forall x h, fo_open (fi_freeinfo h x) = delete h (fo_open x);
  fi_fabric_ok : forall x i, opens fo_open (fi_fabric i x) [] x;
  fi_domain_ok : forall x f i, opens fo_open (fi_domain f i x) [f] x;
  fi_cq_open_ok : forall x d w, opens fo_open (fi_cq_open d w x) [d] x;
  fi_av_open_ok : forall x d, opens fo_open (fi_av_open d x) [d] x;
  fi_endpoint_ok : forall x d i, opens fo_open (fi_endpoint d i x) [d] x;
  fi_ep_bind_ok : forall x e o l, fo_open x !! e = Some l ->
    fo_open (fi_ep_bind e o x).2 = if (fi_ep_bind e o x).1 =? 0 then <[e := o :: l]> (fo_open x) else fo_open x;
  fi_enable_ok : forall x e, fo_open (fi_enable e x).2 = fo_open x;
  (** an object that is needed and a domain with regions stay open (FI_EBUSY) *)
  fi_fid_close_ok : forall x h, ~ in_use fo_open fo_domain fo_regions h x -> fo_open (fi_fid_close h x).2 = delete h (fo_open x);
  fi_fid_close_busy : forall x h, in_use fo_open fo_domain fo_regions h x -> fo_open (fi_fid_close h x).2 = fo_open x;
  fi_fid_close_live : forall x h, lc_live (fi_fid_close h x).2 = lc_live x;
  fi_freeinfo_live : forall x h, lc_live (fi_freeinfo h x) = lc_live x;
  lc_free_open : forall x p, fo_open (lc_free p x) = fo_open x;
  fi_close_open : forall x mr, fo_open (fi_close mr x) = fo_open x;
  (** the memory regions: registered by fi_mr_reg, until they are closed *)
  fi_mr_reg_regions : forall x p n a f k, let r := fi_mr_reg p n a f k x in fo_domain r.2 = fo_domain x /\
    if r.1.1 =? 0 then (r.1.2 ∉ fo_regions x) /\ fo_regions r.2 = ({[r.1.2]} ∪ fo_regions x) else fo_regions r.2 = fo_regions x;
  fi_close_regions : forall x mr, fo_domain (fi_close mr x) = fo_domain x /\ fo_regions (fi_close mr x) = fo_regions x ∖ {[mr]};
  (** the other calls *)
  fi_domain_regions : forall x f i, ((fi_domain f i x).1.1 = 0 -> fo_domain (fi_domain f i x).2 = (fi_domain f i x).1.2) /\
    fo_regions (fi_domain f i x).2 = fo_regions x;
  fi_allocinfo_regions : forall x, same_regions fo_domain fo_regions x (fi_allocinfo x).2;
  fi_getinfo_regions : forall x n s b h, same_regions fo_domain fo_regions x (fi_getinfo n s b h x).2;
  fi_freeinfo_regions : forall x h, same_regions fo_domain fo_regions x (fi_freeinfo h x);
  fi_fabric_regions : forall x i, same_regions fo_domain fo_regions x (fi_fabric i x).2;
  fi_cq_open_regions : forall x d w, same_regions fo_domain fo_regions x (fi_cq_open d w x).2;
  fi_av_open_regions : forall x d, same_regions fo_domain fo_regions x (fi_av_open d x).2;
  fi_endpoint_regions : forall x d i, same_regions fo_domain fo_regions x (fi_endpoint d i x).2;
  fi_ep_bind_regions : forall x e o, same_regions fo_domain fo_regions x (fi_ep_bind e o x).2;
  fi_enable_regions : forall x e, same_regions fo_domain fo_regions x (fi_enable e x).2;
  fi_fid_close_regions : forall x h, same_regions fo_domain fo_regions x (fi_fid_close h x).2;
  lc_free_regions : forall x p, same_regions fo_domain fo_regions x (lc_free p x);
}.

Module FabricObjects.
Import LibfabricDomain.

(** The objects of class LibfabricDomain and of class LibfabricConnection *)
Record DomainObjects : Type := mkDomainObjects { fi : Z; fabric : Z; domain : Z }.
Record ConnectionObjects : Type := mkConnectionObjects { cq : Z; av : Z; ep : Z }.

Section objects.
Context {X : Type} `{FabricObjects X}.

Definition lf {A} (f : X -> A * X) : M X A := fun x => Ok (f x).
(** LIBFABRIC_CHECK_STATUS *)
Definition check_status (err : Z) : M X unit := guard_ FSystem (err =? 0).

(** LibfabricDomain::LibfabricDomain *)
Definition new_LibfabricDomain (serverIp port : string) (isDomainServer : bool) : M X (Domain * DomainObjects) :=
  assert_ (negb (String.eqb serverIp EmptyString)) ;;
  assert_ (negb (String.eqb port EmptyString)) ;;
  let! hints := lf fi_allocinfo in
  guard_ FSystem (negb (hints =? 0)) ;;
  let! r := lf (fi_getinfo serverIp port isDomainServer hints) in
  check_status r.1 ;;
  let fi := r.2 in
  modify (fi_freeinfo hints) ;;
  let! x := get in
  assume_ (fi_src_addrlen fi x <=? Protocol.IOC_LF_MAX_ADDR_LEN) ;;
  assume_ (fi_dest_addrlen fi x <=? Protocol.IOC_LF_MAX_ADDR_LEN) ;;
  let! r := lf (fi_fabric fi) in
  check_status r.1 ;;
  let fabric := r.2 in
  let! r := lf (fi_domain fabric fi) in
  check_status r.1 ;;
  let domain := r.2 in
  let! x := get in
  ret (new_domain (fi_prov_name fi x), mkDomainObjects fi fabric domain).

(** LibfabricConnection::LibfabricConnection, the objects *)
Definition open_endpoint (d : DomainObjects) (passivePolling : bool) : M X ConnectionObjects :=
  let! r := lf (fi_cq_open (domain d) passivePolling) in
  check_status r.1 ;;
  let cq := r.2 in
  let! r := lf (fi_av_open (domain d)) in
  check_status r.1 ;;
  let av := r.2 in
  let! r := lf (fi_endpoint (domain d) (fi d)) in
  check_status r.1 ;;
  let ep := r.2 in
  let! err := lf (fi_ep_bind ep cq) in
  check_status err ;;
  let! err := lf (fi_ep_bind ep av) in
  check_status err ;;
  let! err := lf (fi_enable ep) in
  check_status err ;;
  ret (mkConnectionObjects cq av ep).

(** The end of LibfabricDomain::~LibfabricDomain *)
Definition close_domain (d : DomainObjects) : M X unit :=
  let! _ := lf (fi_fid_close (domain d)) in
  let! _ := lf (fi_fid_close (fabric d)) in
  modify (fi_freeinfo (fi d)).

(** The calls to fi_close of LibfabricConnection::~LibfabricConnection *)
Definition close_endpoint (c : ConnectionObjects) : M X unit :=
  let! _ := lf (fi_fid_close (ep c)) in
  let! _ := lf (fi_fid_close (av c)) in
  let! _ := lf (fi_fid_close (cq c)) in
  ret tt.
End objects.

(** ** Theorems *)
Section theorems.
Context {X : Type} `{FabricObjectsOk X}.
Implicit Types (x : X) (O : gmap Z (list Z)).

Abbreviation same := (same_regions fo_domain fo_regions).
#[export] Instance same_preorder : PreOrder same.
Proof. split; [done|]. intros x y z [] []. split; congruence. Qed.

(** Libfabric refuses, or an address does not fit. *)
Definition refused (f : fault) : Prop := f = FSystem \/ f = FAssume.

Lemma wp_opens {B} f needs (R : Z -> X -> Prop) (k : Z * Z -> M X B) Q x :
  opens fo_open (f x) needs x -> ((f x).1.1 = 0 -> R (f x).1.2 (f x).2) ->
  (forall h x', fo_open x !! h = None -> fo_open x' = <[h := needs]> (fo_open x) -> R h x' -> wp refused (k (0, h)) Q x') ->
  wp refused (let! r := lf f in check_status r.1 ;; k r) Q x.
Proof.
  intros Ho Hr Hk. apply wp_bind. unfold lf, wp at 1. unfold opens in Ho. destruct (f x) as [[err h] x']. cbn [fst snd] in *. apply wp_bind.
  unfold check_status, guard_. destruct (err =? 0) eqn:E; [|by left]. apply Z.eqb_eq in E as ->. apply wp_ret. destruct Ho. by apply Hk; auto.
Qed.

(** No open object needs one that is not open. *)
Definition closed O : Prop := forall k l h, O !! k = Some l -> h ∈ l -> is_Some (O !! h).

(** [h] is a new object over those of [O]. *)
Definition over (h : Z) (l : list Z) O : Prop := O !! h = None /\ forall k, k ∈ l -> is_Some (O !! k).

Lemma closed_over h l O : closed O -> over h l O -> closed (<[h := l]> O).
Proof.
  intros Hc [Hn Hl] k l' o Hk Ho. apply lookup_insert_is_Some'. right. apply lookup_insert_Some in Hk as [[_ <-]|[_ Hk]]; [by apply Hl|by eapply Hc].
Qed.

(** The last object that was opened can be closed. *)
Lemma wp_close_last {B} h l O x (k : Z -> M X B) Q :
  closed O -> over h l O -> (h <> fo_domain x \/ fo_regions x = ∅) -> fo_open x = <[h := l]> O ->
  (forall r x', fo_open x' = O -> same x x' -> wp never (k r) Q x') ->
  wp never (let! r := lf (fi_fid_close h) in k r) Q x.
Proof.
  intros Hc [Hn Hl] Hreg Ho Hk. apply wp_bind. unfold lf, wp at 1. pose proof (fi_fid_close_ok x h) as He. pose proof (fi_fid_close_regions x h) as Hs.
  destruct (fi_fid_close h x) as [r x']. apply Hk; [|exact Hs]. simpl in He. rewrite He, Ho; [by apply delete_insert_id|].
  intros [(q & l' & Hq & Hin)|[-> Hne]]; [|by destruct Hreg]. rewrite Ho in Hq.
  assert (is_Some (O !! h)) as [v Hv]; [|congruence]. apply lookup_insert_Some in Hq as [[_ <-]|[_ Hq]]; [by apply Hl|by eapply Hc].
Qed.

(** The objects of a domain and of a connection, in the order they were opened. *)
Record domain_over (d : DomainObjects) O : Prop := {
  do_fi : over (fi d) [] O;
  do_fabric : over (fabric d) [] (<[fi d := []]> O);
  do_domain : over (domain d) [fabric d] (<[fabric d := []]> (<[fi d := []]> O));
}.
Definition with_domain (d : DomainObjects) O : gmap Z (list Z) := <[domain d := [fabric d]]> (<[fabric d := []]> (<[fi d := []]> O)).
Record endpoint_over (d : DomainObjects) (c : ConnectionObjects) O : Prop := {
  eo_cq : over (cq c) [domain d] O;
  eo_av : over (av c) [domain d] (<[cq c := [domain d]]> O);
  eo_ep : over (ep c) [av c; cq c; domain d] (<[av c := [domain d]]> (<[cq c := [domain d]]> O));
}.
Definition with_endpoint (d : DomainObjects) (c : ConnectionObjects) O : gmap Z (list Z) :=
  <[ep c := [av c; cq c; domain d]]> (<[av c := [domain d]]> (<[cq c := [domain d]]> O)).

Lemma over_nil h O : O !! h = None -> over h [] O.
Proof. intros Hn. split; [done|]. by intros k ?%elem_of_nil. Qed.
Lemma over_one h k O : O !! h = None -> is_Some (O !! k) -> over h [k] O.
Proof. intros Hn Hk. split; [done|]. by intros o ->%list_elem_of_singleton. Qed.

Lemma wp_new_domain ip port srv x :
  ip <> EmptyString -> port <> EmptyString ->
  wp refused (new_LibfabricDomain ip port srv)
    (fun r x' => domain_over r.2 (fo_open x) /\ fo_open x' = with_domain r.2 (fo_open x) /\
       fo_domain x' = domain r.2 /\ fo_regions x' = fo_regions x /\ msgBuffers r.1 = [] /\ segments r.1 = [] /\ msgBufferSize r.1 = 1048576) x.
Proof.
  intros Hi Hp. unfold new_LibfabricDomain. apply wp_bind, wp_guard; [by apply negb_true_iff, String.eqb_neq|].
  apply wp_bind, wp_guard; [by apply negb_true_iff, String.eqb_neq|]. apply wp_bind. unfold lf at 1, wp at 1.
  pose proof (fi_allocinfo_ok x) as Hh. pose proof (fi_allocinfo_regions x) as Hs1. destruct (fi_allocinfo x) as [hints x1]. cbn [fst snd] in Hh.
  apply wp_bind. unfold guard_. destruct (hints =? 0) eqn:E0; [by left|]. apply Z.eqb_neq in E0. destruct (Hh E0) as [Hn1 Ho1]. apply wp_ret.
  eapply (wp_opens _ [] (fun _ => same x1)); [apply fi_getinfo_ok|intros _; apply fi_getinfo_regions|]. intros i x2 Hn2 Ho2 Hs2. cbn [fst snd] in *. rewrite Ho1 in Hn2, Ho2.
  apply lookup_insert_None in Hn2 as [Hn2 Hne2]. apply wp_bind, wp_modify, wp_bind. unfold get, wp at 1. set (x3 := fi_freeinfo hints x2).
  pose proof (fi_freeinfo_regions x2 hints) as Hs3. fold x3 in Hs3.
  assert (fo_open x3 = <[i := []]> (fo_open x)) as Ho3.
  { unfold x3. rewrite fi_freeinfo_ok, Ho2, delete_insert_ne by done. by rewrite delete_insert_id. }
  apply wp_bind. unfold assume_, guard_. destruct (_ <=? _); [|by right]. apply wp_ret, wp_bind. destruct (_ <=? _); [|by right]. apply wp_ret.
  eapply (wp_opens _ [] (fun _ => same x3)); [apply fi_fabric_ok|intros _; apply fi_fabric_regions|]. intros f x4 Hn4 Ho4 Hs4. cbn [fst snd]. rewrite Ho3 in Hn4, Ho4.
  eapply (wp_opens _ [f] (fun h x' => fo_domain x' = h /\ fo_regions x' = fo_regions x4)); [apply fi_domain_ok|intros E; destruct (fi_domain_regions x4 f i); auto|].
  intros d x5 Hn5 Ho5 [Hd5 Hr5]. cbn [fst snd]. rewrite Ho4 in Hn5, Ho5. apply wp_bind. unfold get, wp at 1. apply wp_ret.
  assert (fo_regions x5 = fo_regions x) as Hr by (destruct Hs1, Hs2, Hs3, Hs4; simpl in *; congruence). split; [|done]. constructor; simpl; [by apply over_nil|by apply over_nil|apply over_one; [done|]].
  rewrite lookup_insert_eq. by eexists.
Qed.

Lemma wp_bind_ep e o l (k : M X ConnectionObjects) Q x :
  fo_open x !! e = Some l -> (forall x', fo_open x' = <[e := o :: l]> (fo_open x) -> same x x' -> wp refused k Q x') ->
  wp refused (let! err := lf (fi_ep_bind e o) in check_status err ;; k) Q x.
Proof.
  intros He Hk. apply wp_bind. unfold lf, wp at 1. pose proof (fi_ep_bind_ok x e o l He) as Hb. pose proof (fi_ep_bind_regions x e o) as Hs. destruct (fi_ep_bind e o x) as [err x']. simpl in Hb.
  apply wp_bind. unfold check_status, guard_. destruct (err =? 0); [|by left]. by apply wp_ret, Hk.
Qed.

Lemma wp_open_endpoint d passive x :
  is_Some (fo_open x !! domain d) ->
  wp refused (open_endpoint d passive) (fun c x' => endpoint_over d c (fo_open x) /\ fo_open x' = with_endpoint d c (fo_open x) /\ same x x') x.
Proof.
  intros Hd. unfold open_endpoint. eapply (wp_opens _ [domain d] (fun _ => same x)); [apply fi_cq_open_ok|intros _; apply fi_cq_open_regions|]. intros q x1 Hn1 Ho1 Hs1. cbn [fst snd].
  eapply (wp_opens _ [domain d] (fun _ => same x1)); [apply fi_av_open_ok|intros _; apply fi_av_open_regions|]. intros v x2 Hn2 Ho2 Hs2. cbn [fst snd]. rewrite Ho1 in Hn2, Ho2.
  eapply (wp_opens _ [domain d] (fun _ => same x2)); [apply fi_endpoint_ok|intros _; apply fi_endpoint_regions|]. intros e x3 Hn3 Ho3 Hs3. cbn [fst snd]. rewrite Ho2 in Hn3, Ho3.
  apply (wp_bind_ep _ _ [domain d]); [rewrite Ho3; apply lookup_insert_eq|]. intros x4 Ho4 Hs4. rewrite Ho3, insert_insert_eq in Ho4.
  apply (wp_bind_ep _ _ [q; domain d]); [rewrite Ho4; apply lookup_insert_eq|]. intros x5 Ho5 Hs5. rewrite Ho4, insert_insert_eq in Ho5.
  apply wp_bind. unfold lf, wp at 1. pose proof (fi_enable_ok x5 e) as Hen. pose proof (fi_enable_regions x5 e) as Hs6. destruct (fi_enable e x5) as [err x6]. simpl in Hen. apply wp_bind.
  unfold check_status, guard_. destruct (err =? 0); [|by left]. apply wp_ret, wp_ret. rewrite Hen, Ho5. split; [|split; [done|]].
  2: { etransitivity; [exact Hs1|]. etransitivity; [exact Hs2|]. etransitivity; [exact Hs3|]. etransitivity; [exact Hs4|]. by etransitivity. }
  constructor; simpl; [by apply over_one|apply over_one; [done|by apply lookup_insert_is_Some'; right]|].
  split; [done|]. intros k. rewrite !elem_of_cons, elem_of_nil, !lookup_insert_is_Some'. intros [->|[->|[->|[]]]]; auto.
Qed.

Lemma wp_close_endpoint d c O x :
  closed O -> is_Some (O !! domain d) -> fo_domain x = domain d -> endpoint_over d c O -> fo_open x = with_endpoint d c O ->
  wp never (close_endpoint c) (fun _ x' => fo_open x' = O /\ same x x') x.
Proof.
  intros Hc Hd Ed [Hq Hv He] Ho.
  assert (forall h l O', over h l O' -> is_Some (O' !! domain d) -> h <> domain d) as Hne by (intros h l O' [Hh _] [v Hv'] ->; congruence).
  unfold close_endpoint. pose proof (closed_over _ _ _ Hc Hq) as Hc1. pose proof (closed_over _ _ _ Hc1 Hv) as Hc2.
  eapply wp_close_last; [exact Hc2|exact He|left; rewrite Ed; eapply Hne; [exact He|by do 2 (apply lookup_insert_is_Some'; right)]|exact Ho|]. intros _ x1 Ho1 Hs1.
  eapply wp_close_last; [exact Hc1|exact Hv|left; rewrite (proj1 Hs1), Ed; eapply Hne; [exact Hv|by apply lookup_insert_is_Some'; right]|exact Ho1|].
  intros _ x2 Ho2 Hs2. eapply wp_close_last; [exact Hc|exact Hq|left; rewrite (proj1 Hs2), (proj1 Hs1), Ed; by eapply Hne|exact Ho2|].
  intros _ x3 Ho3 Hs3. apply wp_ret. split; [done|]. etransitivity; [exact Hs1|]. by etransitivity.
Qed.

Lemma wp_close_domain d O x :
  closed O -> domain_over d O -> fo_regions x = ∅ -> fo_open x = with_domain d O -> wp never (close_domain d) (fun _ x' => fo_open x' = O) x.
Proof.
  intros Hc [Hi Hf Hd] Hreg Ho. unfold close_domain. pose proof (closed_over _ _ _ Hc Hi) as Hc1. pose proof (closed_over _ _ _ Hc1 Hf) as Hc2.
  eapply wp_close_last; [exact Hc2|exact Hd|by right|exact Ho|]. intros _ x1 Ho1 Hs1. eapply wp_close_last; [exact Hc1|exact Hf|right; by rewrite (proj2 Hs1)|exact Ho1|].
  intros _ x2 Ho2 _. apply wp_modify. rewrite fi_freeinfo_ok, Ho2. apply delete_insert_id. by destruct Hi.
Qed.

(** Closing touches no memory. *)
Lemma wp_close_live {B} h (k : Z -> M X B) x m :
  lc_live x = m -> (forall r x', lc_live x' = m -> wp never (k r) (fun _ x' => lc_live x' = m) x') ->
  wp never (let! r := lf (fi_fid_close h) in k r) (fun _ x' => lc_live x' = m) x.
Proof.
  intros <- Hk. apply wp_bind. unfold lf, wp at 1. pose proof (fi_fid_close_live x h) as Hl. destruct (fi_fid_close h x) as [r x']. by apply Hk.
Qed.

Lemma close_domain_live d x : wp never (close_domain d) (fun _ x' => lc_live x' = lc_live x) x.
Proof.
  apply wp_close_live; [done|]. intros _ x1 H1'. apply wp_close_live; [done|]. intros _ x2 H2'. apply wp_modify. by rewrite fi_freeinfo_live.
Qed.
Lemma close_endpoint_live c x : wp never (close_endpoint c) (fun _ x' => lc_live x' = lc_live x) x.
Proof. do 3 (apply wp_close_live; [done|]; intros ? ? ?). by apply wp_ret. Qed.

(** The constructors and then the destructors: libfabric may refuse what it is asked to
    open, but nothing is left open at the end. *)
Theorem network_opened_closed ip port srv passive x :
  ip <> EmptyString -> port <> EmptyString -> closed (fo_open x) -> fo_regions x = ∅ ->
  wp refused (let! r := new_LibfabricDomain ip port srv in let! c := open_endpoint r.2 passive in close_endpoint c ;; close_domain r.2)
    (fun _ x' => fo_open x' = fo_open x) x.
Proof.
  intros Hi Hp Hc Hreg. apply wp_bind. eapply wp_mono; [by apply wp_new_domain|]. intros [dom d] x1 (Hd & Ho1 & Ed & Hr1 & _). cbn [fst snd] in *.
  assert (closed (with_domain d (fo_open x))) as Hcd by (destruct Hd; by repeat apply closed_over).
  assert (is_Some (with_domain d (fo_open x) !! domain d)) as Hdo by (unfold with_domain; rewrite lookup_insert_eq; by eexists).
  apply wp_bind. eapply wp_mono; [apply wp_open_endpoint; by rewrite Ho1|]. intros c x2 (He & Ho2 & Hs2). rewrite Ho1 in He, Ho2.
  apply wp_bind, wp_never. eapply wp_mono; [apply (wp_close_endpoint d c (with_domain d (fo_open x))); try done; by rewrite (proj1 Hs2)|]. intros u x3 [Ho3 Hs3].
  apply wp_never, wp_close_domain; try done. rewrite (proj2 Hs3), (proj2 Hs2). congruence.
Qed.

(** *** The memory regions *)
Implicit Types (s : Sys X) (G : heap).

(** The regions that the domain of the process has recorded are those that libfabric
    has. *)
Definition recorded s : list Z := (fun it => mr_mr it.2) <$> segments (s_domain s).
Record regions_ok s : Prop := {
  ro_sorted : sm_ok (segments (s_domain s));
  ro_nodup : NoDup (recorded s);
  ro_all : fo_regions (s_ext s) = list_to_set (recorded s);
}.

Lemma registered_regions G p n read write pmem s :
  sys_rep s G -> G !! p = Some (n, false) -> regions_ok s -> wp any (registerSegment p n read write pmem) (fun _ s' => regions_ok s') s.
Proof.
  intros Hr Hp Ho. destruct (rep_range _ _ _ _ _ Hr Hp) as (Hp0 & Hn & He). unfold registerSegment, assert_, guard_.
  apply wp_bind. destruct (negb _); [|done]. apply wp_ret, wp_bind. destruct (n >? 0) eqn:En; [|done]. apply wp_ret.
  apply wp_bind. unfold wp at 1. rewrite (getMR_run s p n) by lia. apply wp_bind. destruct (match _ with None => _ | Some _ => _ end); [|done]. apply wp_ret.
  cbv zeta. apply wp_bind, wp_gets. set (a := if write then _ else _). set (f := if pmem then _ else _).
  pose proof (fi_mr_reg_regions (s_ext s) p n a f (u64 (s_cnt s))) as Hreg. cbv zeta in Hreg. set (r := fi_mr_reg _ _ _ _ _ _) in *.
  apply wp_bind, wp_modify, wp_bind. destruct Hreg as [_ Hreg]. revert Hreg. destruct (r.1.1 =? 0); [|done]. intros [Hnew Hset]. apply wp_ret.
  apply wp_bind, wp_modify, wp_gets. rewrite (u64_small (p + n)), u64_small by lia. destruct Ho as [Hs Hnd Hall].
  assert (sm_find (p + n - 1) (segments (s_domain s)) = None) as Hf.
  { destruct (sm_find _ _) as [r0|] eqn:Ef; [|done]. apply (sm_find_In _ _ _ Hs) in Ef.
    destruct (chain_In _ _ _ _ _ _ (sr_chain _ _ Hr) Ef) as (_ & Hsz & Hk). destruct (rep_unregistered _ _ _ _ _ _ Hr Hp Ef); unfold iend in Hk; lia. }
  assert ((fun it => mr_mr it.2) <$> sm_insert (p + n - 1) (mkRegion p n r.1.2) (segments (s_domain s)) ≡ₚ r.1.2 :: recorded s) as Hperm.
  { rewrite sm_insert_perm by done. done. }
  constructor; unfold recorded; simpl.
  - by apply sm_ok_insert.
  - rewrite Hperm. apply NoDup_cons. split; [|done]. by rewrite Hall, elem_of_list_to_set in Hnew.
  - rewrite Hset, Hall. apply set_eq. intros mr. rewrite elem_of_union, elem_of_singleton, !elem_of_list_to_set, Hperm, elem_of_cons. done.
Qed.

Lemma unregistered_regions p n s : regions_ok s -> wp any (unregisterSegment p n) (fun _ s' => regions_ok s') s.
Proof.
  intros [Hs Hnd Hall]. unfold unregisterSegment, assert_, assume_, guard_. apply wp_bind. destruct (negb _); [|done]. apply wp_ret, wp_bind, wp_gets.
  destruct (sm_lower_bound p (segments (s_domain s))) as [|[k r] l] eqn:El; [done|]. apply wp_bind. destruct (_ && _); [|done].
  apply wp_ret, wp_bind, wp_modify, wp_modify. assert (sm_find k (segments (s_domain s)) = Some r) as Hf.
  { apply (sm_find_In _ _ _ Hs). destruct (sm_lower_bound_split p (segments (s_domain s))) as (l0 & E & _). rewrite E, El. apply in_or_app. right. by left. }
  assert (recorded s ≡ₚ mr_mr r :: ((fun it => mr_mr it.2) <$> sm_erase k (segments (s_domain s)))) as Hperm.
  { unfold recorded. rewrite (sm_erase_perm k r) at 1 by done. done. }
  rewrite Hperm in Hnd. apply NoDup_cons in Hnd as [Hno Hnd]. constructor; unfold recorded; simpl; [by apply sm_ok_erase|done|].
  rewrite (proj2 (fi_close_regions _ _)), Hall. apply set_eq. intros mr. rewrite elem_of_difference, elem_of_singleton, !elem_of_list_to_set, Hperm, elem_of_cons.
  split; [by intros [[->|?] ?]|]. intros Hin. split; [by right|]. by intros ->.
Qed.

(** A process whose domain has no block registered can close it. *)
Lemma no_regions s G : regions_ok s -> sys_rep s G -> (forall p n, G !! p <> Some (n, true)) -> fo_regions (s_ext s) = ∅.
Proof.
  intros [_ _ ->] Hr Hno. unfold recorded. destruct (segments (s_domain s)) as [|[k [p n mr]] l] eqn:E; [done|].
  destruct (Hno p n). apply (sr_regs _ _ Hr). exists k, mr. rewrite E. by left.
Qed.
End theorems.
End FabricObjects.
