(* ===== verification/ClientRegistry.v ===== *)
(** * ClientRegistry

    Model of src/src/base/network/ClientRegistry.cpp: the clients that the TCP
    server has let in and the key of each.  The methods run under the mutex of the
    class, one at a time. *)

From S2P Require Import Prelude.

Module ClientRegistry.

(** class ClientRegistry *)
Definition Registry : Type := gmap Z Z.

(** ClientRegistry::registerClient *)
Definition registerClient (id key : Z) : M Registry unit :=
  let! clients := get in
  assert_ (bool_decide (clients !! id = None)) ;;
  put (<[id := key]> clients).

(** ClientRegistry::disconnectClient *)
Definition disconnectClient (id : Z) : M Registry unit :=
  let! clients := get in
  assert_ (bool_decide (clients !! id <> None)) ;;
  put (delete id clients).

(** ClientRegistry::checkIdentification *)
Definition checkIdentification (id key : Z) (clients : Registry) : bool :=
  match clients !! id with
  | None => false
  | Some k => k =? key
  end.

Inductive op : Type := Connect (id key : Z) | Disconnect (id : Z).
Definition run_op (o : op) : M Registry unit :=
  match o with Connect id key => registerClient id key | Disconnect id => disconnectClient id end.

(** The key a history leaves to a client that had [k]. *)
Definition key_after (id : Z) (k : option Z) (o : op) : option Z :=
  match o with
  | Connect i key => if decide (i = id) then Some key else k
  | Disconnect i => if decide (i = id) then None else k
  end.

Lemma run_op_key o r r' id : run_op o r = Ok (tt, r') -> r' !! id = key_after id (r !! id) o.
Proof.
  destruct o as [i key|i]; simpl; unfold registerClient, disconnectClient, bind, get, put, assert_, guard_;
    case_bool_decide; intros Hr; [|done| |done]; injection Hr as <-; case_decide; subst.
  - apply lookup_insert_eq.
  - by apply lookup_insert_ne.
  - apply lookup_delete_eq.
  - by apply lookup_delete_ne.
Qed.

(** after any history of connections and disconnections, a pair is accepted
    exactly when the last event of the client is the connection that gave it this
    key; a client that was never seen or has left is refused. *)
Theorem checkIdentification_correct l r r' id key :
  for_each l run_op r = Ok (tt, r') ->
  checkIdentification id key r' = bool_decide (foldl (key_after id) (r !! id) l = Some key).
Proof.
  intros Hrun. assert (r' !! id = foldl (key_after id) (r !! id) l) as <-.
  { revert r Hrun. induction l as [|o l IH]; intros r Hrun; [by injection Hrun as <-|]. simpl in *. unfold bind in Hrun.
    destruct (run_op o r) as [[[] r1]|f] eqn:E; [|done]. by rewrite (IH _ Hrun), (run_op_key _ _ _ _ E). }
  unfold checkIdentification. destruct (r' !! id) as [k|]; [|by rewrite bool_decide_eq_false_2].
  destruct (decide (k = key)) as [->|Hne].
  - by rewrite Z.eqb_refl, bool_decide_eq_true_2.
  - rewrite bool_decide_eq_false_2 by congruence. lia.
Qed.

Lemma checkIdentification_correct_witness :
  checkIdentification 4 77 {[4 := 77]} = true.
Proof.
  apply (checkIdentification_correct [Connect 3 5; Connect 4 77; Disconnect 3] ∅ {[4 := 77]} 4 77). by vm_compute.
Defined.
End ClientRegistry.
