(* ===== verification/Tcp.v ===== *)
(** * The TCP side: letting the clients in

    Model of src/src/base/network/TcpServer.cpp, TcpClient.cpp and of the
    callbacks that Server::setupTcpServer gives to the TCP server.  A client
    connects by TCP, receives its identifier and its key, and is known to the
    server until the connection is closed.  The sockets, libevent and the random
    generator are outside the sources: their calls are parameters ([Sockets]) and
    what the code relies on is stated by [SocketsOk]. *)

From S2P Require Import Prelude StdMap Memory Interfaces ConsistencyTracker Protocol World WorldInv View Object Container ClientRegistry.

(** What read gives: bytes (none is the end of the connection), EINTR, or another
    error. *)
Inductive read_result : Type := RD_DATA (l : list byte) | RD_EINTR | RD_ERROR.
(** What bind gives: 0, EADDRINUSE, or another error. *)
Inductive bind_result : Type := BIND_OK | BIND_INUSE | BIND_ERROR.
#[export] Instance bind_result_eq_dec : EqDecision bind_result.
Proof. solve_decision. Defined.

Class Sockets (N : Type) := {
  sk_socket : N -> Z * N;
  sk_setsockopt : Z -> Z -> N -> Z * N;         (** socket, option: status *)
  sk_bind : Z -> Z -> N -> bind_result * N;     (** socket, port *)
  sk_listen : Z -> N -> Z * N;
  sk_accept : Z -> N -> Z * N;
  sk_write : Z -> list byte -> N -> Z * N;      (** the number of bytes written *)
  sk_read : Z -> Z -> N -> read_result * N;     (** descriptor, size *)
  sk_close : Z -> N -> Z * N;
  ev_new : Z -> Z -> N -> Z * N;                (** descriptor, argument of the callback: event, 0 is NULL *)
  ev_add : Z -> N -> N;
  ev_del : Z -> N -> N;
  ev_free : Z -> N -> N;
  rnd_u64 : N -> Z * N;                         (** distribution(rdGenerator) *)
}.

(** What is observed of them: the bytes sent on each connection accepted, the
    bytes of the peer still to be read, the events with the descriptor and the
    argument of their callback, the ports tried. *)
Record sockets : Type := mkSockets {
  so_conns : gmap Z (list byte);
  so_input : Z -> list byte;
  so_events : gmap Z (Z * Z);
  so_binds : list (Z * bind_result);
}.
Definition set_conns m (o : sockets) : sockets := mkSockets m (so_input o) (so_events o) (so_binds o).
Definition set_events m (o : sockets) : sockets := mkSockets (so_conns o) (so_input o) m (so_binds o).
Definition set_binds l (o : sockets) : sockets := mkSockets (so_conns o) (so_input o) (so_events o) l.

(** The same connections and events: the input may only be seen by a read. *)
Class SocketsOk (N : Type) `{Sockets N} := {
  so : N -> sockets;
  sk_socket_ok : forall x, so (sk_socket x).2 = so x;
  sk_setsockopt_ok : forall x s o, so (sk_setsockopt s o x).2 = so x;
  sk_listen_ok : forall x s, so (sk_listen s x).2 = so x;
  sk_bind_ok : forall x s p, so (sk_bind s p x).2 = set_binds (so_binds (so x) ++ [(p, (sk_bind s p x).1)]) (so x);
  (** a new descriptor is not one in use *)
  sk_accept_ok : forall x fd,
    if (sk_accept fd x).1 <? 0 then so (sk_accept fd x).2 = so x
    else so_conns (so x) !! (sk_accept fd x).1 = None /\
         so (sk_accept fd x).2 = set_conns (<[(sk_accept fd x).1 := []]> (so_conns (so x))) (so x);
  sk_write_ok : forall x fd l old, so_conns (so x) !! fd = Some old -> (sk_write fd l x).1 = Z.of_nat (length l) ->
    so (sk_write fd l x).2 = set_conns (<[fd := old ++ l]> (so_conns (so x))) (so x);
  (** the bytes come in order, at most as many as asked *)
  sk_read_ok : forall x fd n,
    so_conns (so (sk_read fd n x).2) = so_conns (so x) /\ so_events (so (sk_read fd n x).2) = so_events (so x) /\
    match (sk_read fd n x).1 with
    | RD_DATA l => (0 <= n -> Z.of_nat (length l) <= n) /\ so_input (so x) fd = l ++ so_input (so (sk_read fd n x).2) fd
    | _ => so_input (so (sk_read fd n x).2) fd = so_input (so x) fd
    end;
  sk_close_ok : forall x fd, so (sk_close fd x).2 = set_conns (delete fd (so_conns (so x))) (so x);
  (** a new event is not one in use *)
  ev_new_ok : forall x fd p,
    if (ev_new fd p x).1 =? 0 then so (ev_new fd p x).2 = so x
    else so_events (so x) !! (ev_new fd p x).1 = None /\
         so (ev_new fd p x).2 = set_events (<[(ev_new fd p x).1 := (fd, p)]> (so_events (so x))) (so x);
  ev_add_ok : forall x e, so (ev_add e x) = so x;
  ev_del_ok : forall x e, so (ev_del e x) = so x;
  ev_free_ok : forall x e, so (ev_free e x) = set_events (delete e (so_events (so x))) (so x);
  rnd_u64_ok : forall x, is_u64 (rnd_u64 x).1 /\ so (rnd_u64 x).2 = so x;
}.

Module Tcp.
Import Protocol Container ClientRegistry.

Definition MAX_TCP_MSG_LEN : Z := 4096.
Definition ULLONG_MAX : Z := two64 - 1.
Definition u16 (x : Z) : Z := x mod 65536.
Definition i16 (x : Z) : Z := swrap 16 x.

(** ** The client: TcpClient.cpp *)
Section client.
Context {N : Type} `{Sockets N}.

(** struct TcpConnInfo *)
Record TcpConnInfo : Type := mkConnInfo {
  ci_clientId : Z;
  ci_key : Z;
  ci_protocolVersion : Z;
  ci_keepConnection : bool;
}.

(** class TcpClient, with the system *)
Record TcpClient : Type := mkTcpClient { connFd : Z; cl_net : N }.

(** [read(connFd, &field, n)], stopped when it does not fill the field *)
Definition read_field (n : Z) : M TcpClient (list byte) := fun c =>
  let r := sk_read (connFd c) n (cl_net c) in
  match r.1 with
  | RD_DATA l => if Z.of_nat (length l) =? n then Ok (l, mkTcpClient (connFd c) r.2) else Abort FSystem
  | _ => Abort FSystem
  end.
Definition close_connection : M TcpClient unit := modify (fun c => mkTcpClient (-1) (sk_close (connFd c) (cl_net c)).2).

(** TcpClient::getConnectionInfos *)
Definition getConnectionInfos : M TcpClient TcpConnInfo :=
  let! l := read_field 2 in
  let protocolVersion := i16 (le_combine l) in
  assume_ (protocolVersion =? IOC_LF_PROTOCOL_VERSION) ;;
  let! l := read_field 8 in
  let clientId := le_combine l in
  let! l := read_field 8 in
  let key := le_combine l in
  let! l := read_field 1 in
  let keepConnection := negb (le_combine l =? 0) in
  (if keepConnection then ret tt else close_connection) ;;
  ret (mkConnInfo clientId key protocolVersion keepConnection).

(** TcpClient::~TcpClient *)
Definition destroy_client : M TcpClient unit :=
  let! fd := gets connFd in
  if fd =? -1 then ret tt else modify (fun c => mkTcpClient fd (sk_close fd (cl_net c)).2).
End client.
Arguments TcpClient : clear implicits.

(** ** The listening socket: TcpServer::createSocketV4 *)
Section listen.
Context {N : Type} `{Sockets N}.

Definition sys {A} (f : N -> A * N) : M N A := fun x => Ok ((f x).1, (f x).2).

(** [(-1 == setsockopt(...)) || ...]: [true] when one of them fails *)
Fixpoint set_options (sock : Z) (options : list Z) : M N bool :=
  match options with
  | [] => ret false
  | o :: options' =>
      let! rc := sys (sk_setsockopt sock o) in
      if rc =? -1 then ret true else set_options sock options'
  end.

(** The loop on the ports; [port] is 16 bits wide *)
Fixpoint bind_loop (fuel : nat) (sock port maxPort : Z) : M N (Z * bool) :=
  match fuel with
  | O => abort FFuel
  | Datatypes.S fuel' =>
      if port <=? maxPort then
        let! rc := sys (sk_bind sock port) in
        match rc with
        | BIND_OK => ret (port, true)
        | BIND_ERROR => ret (port, false)
        | BIND_INUSE => bind_loop fuel' sock (u16 (port + 1)) maxPort
        end
      else ret (port, false)
  end.

(** SO_REUSEADDR, TCP_NODELAY, TCP_KEEPIDLE, TCP_KEEPINTVL, TCP_KEEPCNT *)
Definition socket_options : list Z := [2; 1; 4; 5; 6].

(** TcpServer::createSocketV4 *)
Definition createSocketV4 (fuel : nat) (firstPort maxPort : Z) : M N Z :=
  let err sock := let! _ := sys (sk_close sock) in ret (-1) in
  let! sock := sys sk_socket in
  if sock =? -1 then ret (-1)
  else
    let! failed := set_options sock socket_options in
    if failed then err sock
    else
      let! r := bind_loop fuel sock (u16 firstPort) maxPort in
      if negb r.2 then err sock
      else
        let! rc := sys (sk_listen sock) in
        if rc =? -1 then err sock else ret sock.

(** TcpServer::TcpServer, the listening socket *)
Definition new_TcpServer (fuel : nat) (port portRange : Z) : M N Z :=
  let! res := createSocketV4 fuel port (port + portRange) in
  guard_ FSystem (res >=? 0) ;;
  ret res.

(** TcpServer::~TcpServer *)
Definition destroy_TcpServer (listenFd : Z) : M N unit :=
  let! res := sys (sk_close listenFd) in
  guard_ FSystem (res >=? 0).
End listen.

(** ** The server: TcpServer.cpp and Server.cpp *)

(** struct TcpClientInfo *)
Record TcpClientInfo : Type := mkClientInfo {
  ti_event : Z;
  ti_fd : Z;
  ti_id : Z;
}.
Definition set_id (id : Z) (c : TcpClientInfo) : TcpClientInfo := mkClientInfo (ti_event c) (ti_fd c) id.

(** The state of the thread of the TCP server: class TcpServer, the clients
    allocated, the variable of the lambda, and what the callbacks reach: the
    registry of the connection and the container. *)
Record Tcp {N E S : Type} : Type := mkTcp {
  tc_net : N;
  tc_listenFd : Z;
  tc_keepConnection : bool;
  tc_clients : gmap Z TcpClientInfo;
  tc_nextClient : Z;
  tc_cntConnections : Z;
  tc_registry : Registry;
  tc_cw : Container * World E S;
}.
Arguments Tcp : clear implicits.

Section server.
Context {N E S : Type} `{Sockets N} `{MemoryProvider E} `{StorageBackend S}.
Abbreviation T := (Tcp N E S).

Definition with_net (x : N) (s : T) : T :=
  mkTcp _ _ _ x (tc_listenFd s) (tc_keepConnection s) (tc_clients s) (tc_nextClient s) (tc_cntConnections s) (tc_registry s) (tc_cw s).
Definition with_clients (m : gmap Z TcpClientInfo) (next : Z) (s : T) : T :=
  mkTcp _ _ _ (tc_net s) (tc_listenFd s) (tc_keepConnection s) m next (tc_cntConnections s) (tc_registry s) (tc_cw s).
Definition with_cnt (n : Z) (s : T) : T :=
  mkTcp _ _ _ (tc_net s) (tc_listenFd s) (tc_keepConnection s) (tc_clients s) (tc_nextClient s) n (tc_registry s) (tc_cw s).
Definition with_registry (r : Registry) (s : T) : T :=
  mkTcp _ _ _ (tc_net s) (tc_listenFd s) (tc_keepConnection s) (tc_clients s) (tc_nextClient s) (tc_cntConnections s) r (tc_cw s).
Definition with_container (cw : Container * World E S) (s : T) : T :=
  mkTcp _ _ _ (tc_net s) (tc_listenFd s) (tc_keepConnection s) (tc_clients s) (tc_nextClient s) (tc_cntConnections s) (tc_registry s) cw.

Definition call {A} (f : N -> A * N) : M T A := fun s => Ok ((f (tc_net s)).1, with_net (f (tc_net s)).2 s).
Definition on_registry (m : M Registry unit) : M T unit := fun s =>
  match m (tc_registry s) with Ok (_, r) => Ok (tt, with_registry r s) | Abort f => Abort f end.
Definition in_container (m : M (Container * World E S) unit) : M T unit := fun s =>
  match m (tc_cw s) with Ok (_, cw) => Ok (tt, with_container cw s) | Abort f => Abort f end.
Definition get_client (p : Z) : M T TcpClientInfo := fun s =>
  match tc_clients s !! p with Some c => Ok (c, s) | None => Abort FNullPointer end.
Definition set_client (p : Z) (c : TcpClientInfo) : M T unit := modify (fun s => with_clients (<[p := c]> (tc_clients s)) (tc_nextClient s) s).
Definition delete_client (p : Z) : M T unit := modify (fun s => with_clients (delete p (tc_clients s)) (tc_nextClient s) s).
(** [new TcpClientInfo] *)
Definition new_client : M T Z := fun s =>
  Ok (tc_nextClient s, with_clients (<[tc_nextClient s := mkClientInfo 0 (-1) 0]> (tc_clients s)) (tc_nextClient s + 1) s).
(** [write(fd, ...)], stopped when it is short *)
Definition write_all (fd : Z) (l : list byte) : M T unit :=
  let! rc := call (sk_write fd l) in
  guard_ FSystem (rc =? Z.of_nat (length l)).

(** Server::onClientConnect *)
Definition onClientConnect (tcpClientId key : Z) : M T unit := on_registry (registerClient tcpClientId key).

(** Server::onClientDisconnect *)
Definition onClientDisconnect (tcpClientId : Z) : M T unit :=
  on_registry (disconnectClient tcpClientId) ;;
  in_container (Container.onClientDisconnect tcpClientId).

(** The lambdas of Server::setupTcpServer; [cntConnections] is an int *)
Definition onConnect : M T (Z * Z) :=
  let! cnt := gets tc_cntConnections in
  modify (with_cnt (i32 (cnt + 1))) ;;
  let id := u64 cnt in
  let! key := call rnd_u64 in
  onClientConnect id key ;;
  ret (id, key).
Definition onDisconnect (client : Z) : M T unit :=
  let! c := get_client client in
  onClientDisconnect (ti_id c).

(** TcpServer::sendClientId *)
Definition sendClientId (client : Z) : M T unit :=
  let! r := onConnect in
  let! c := get_client client in
  set_client client (set_id r.1 c) ;;
  write_all (ti_fd c) (le_split 2 IOC_LF_PROTOCOL_VERSION) ;;
  write_all (ti_fd c) (le_split 8 r.1) ;;
  write_all (ti_fd c) (le_split 8 r.2) ;;
  let! keepConnection := gets tc_keepConnection in
  write_all (ti_fd c) (le_split 1 (if keepConnection then 1 else 0)).

(** TcpServer::acceptOneClientCallback *)
Definition acceptOneClientCallback (fd : Z) : M T unit :=
  let! newfd := call (sk_accept fd) in
  if newfd <? 0 then ret tt
  else
    let! client := new_client in
    let! c := get_client client in
    set_client client (set_id ULLONG_MAX c) ;;
    let! evt := call (ev_new newfd client) in
    if evt =? 0 then
      let! _ := call (sk_close newfd) in
      delete_client client
    else
      let! c := get_client client in
      set_client client (mkClientInfo evt newfd (ti_id c)) ;;
      modify (fun s => with_net (ev_add evt (tc_net s)) s) ;;
      sendClientId client.

(** TcpServer::closeClient *)
Definition closeClient (client fd : Z) : M T unit :=
  let! c := get_client client in
  modify (fun s => with_net (ev_del (ti_event c) (tc_net s)) s) ;;
  modify (fun s => with_net (ev_free (ti_event c) (tc_net s)) s) ;;
  let! _ := call (sk_close fd) in
  onDisconnect client ;;
  delete_client client.

(** TcpServer::recvClientMessageCallback: what a client sends is thrown away *)
Fixpoint recvClientMessageCallback (fuel : nat) (fd client : Z) : M T unit :=
  match fuel with
  | O => abort FFuel
  | Datatypes.S fuel' =>
      let! n := call (sk_read fd MAX_TCP_MSG_LEN) in
      match n with
      | RD_DATA [] => closeClient client fd
      | RD_EINTR => recvClientMessageCallback fuel' fd client
      | _ => ret tt
      end
  end.
End server.
End Tcp.
