(* ===== verification/TcpConnect.v ===== *)
(** * The TCP connection of a client

    TcpClient::tcp_connect of src/src/base/network/TcpClient.cpp, which finds the
    address and the port of the server and connects to it, and
    TcpServer::setupLibeventListener of TcpServer.cpp, which waits for it.  The
    resolver, connect and the event base are parameters ([Resolver]).  The structures
    of the sockets are the bytes that the system reads, on a little-endian machine:
    the order of the bytes is what htons is about. *)

From Stdlib Require Import String Ascii.
From S2P Require Import Prelude StdMap Memory Tcp.

(** struct sockaddr_in, in memory *)
Record sockaddr_in : Type := mkSockaddr { sin_port : list byte; sin_addr : list byte }.
#[export] Instance sockaddr_eq_dec : EqDecision sockaddr_in.
Proof. solve_decision. Defined.

(** The port that the system reads in it: the most significant byte first. *)
Definition port_of (a : sockaddr_in) : Z := le_combine (rev (sin_port a)).

Class Resolver (N : Type) := {
  rs_inet_addr : string -> N -> Z * N;                       (** in_addr_t *)
  rs_gethostbyname : string -> N -> option (list byte) * N;  (** the h_length bytes at h_addr *)
  rs_getservbyname : string -> string -> N -> option Z * N;  (** name, protocol: s_port *)
  sk_connect : Z -> sockaddr_in -> N -> Z * N;               (** socket, address: status *)
  ev_base_new : N -> Z * N;
}.

Class ResolverOk (N : Type) `{Resolver N} `{Sockets N} := {
  (** the sockets connected, and to whom *)
  rs_peers : N -> gmap Z sockaddr_in;
  sk_connect_ok : forall x s a, (sk_connect s a x).1 = 0 -> rs_peers (sk_connect s a x).2 !! s = Some a;
  rs_inet_addr_range : forall a x, 0 <= (rs_inet_addr a x).1 < 4294967296;     (** an uint32_t *)
}.

Module TcpConnect.
Import Tcp.

Definition isdigit (s : string) : bool :=
  match s with
  | String c _ => let n := Z.of_N (N_of_ascii c) in (48 <=? n) && (n <=? 57)
  | EmptyString => false
  end.

(** atoi on a string that begins with a digit: the digits up to the first character
    that is not one, as an int *)
Fixpoint digits (acc : Z) (s : string) : Z :=
  match s with
  | String c s' => if isdigit s then digits (10 * acc + (Z.of_N (N_of_ascii c) - 48)) s' else acc
  | EmptyString => acc
  end.
Definition atoi (s : string) : Z := i32 (digits 0 s).

(** htons and ntohs *)
Definition swap16 (x : Z) : Z := 256 * (x mod 256) + x / 256.

Section connect.
Context {N : Type} `{Sockets N} `{Resolver N}.

(** The address: the digits of the first branch, or a name *)
Definition resolve_host (addr : string) : M N (list byte) :=
  if isdigit addr then
    let! a := sys (rs_inet_addr addr) in ret (le_split 4 a)
  else
    let! hp := sys (rs_gethostbyname addr) in
    let! h_addr := of_option FSystem hp in
    guard_ FOverrun (Z.of_nat (length h_addr) <=? 4) ;;
    ret (h_addr ++ drop (length h_addr) (repeat x00 4)).

(** The port, an unsigned short *)
Definition resolve_port (aport : string) : M N Z :=
  if isdigit aport then ret (u16 (atoi aport))
  else
    let! srv := sys (rs_getservbyname aport "tcp") in
    let! s_port := of_option FSystem srv in
    ret (u16 s_port).

(** TcpClient::tcp_connect; the calls to exit stop the program *)
Definition tcp_connect (addr aport : option string) : M N Z :=
  match addr, aport with
  | Some addr, Some aport =>
      let! host := resolve_host addr in
      let! port := resolve_port aport in
      let servaddr := mkSockaddr (le_split 2 (swap16 port)) host in
      let! sockfd := sys sk_socket in
      guard_ FSystem (negb (sockfd =? -1)) ;;
      let! rc := sys (sk_connect sockfd servaddr) in
      if negb (rc =? 0) then let! _ := sys (sk_close sockfd) in abort FSystem
      else ret sockfd
  | _, _ => ret (-1)
  end.

(** TcpClient::TcpClient *)
Definition new_TcpClient (addr port : string) : M N Z :=
  let! connFd := tcp_connect (Some addr) (Some port) in
  assume_ (connFd >=? 0) ;;
  ret connFd.

(** TcpServer::setupLibeventListener: the event base *)
Definition setupLibeventListener (listenFd tcpServer : Z) : M N Z :=
  let! ebase := sys ev_base_new in
  assume_ (negb (ebase =? 0)) ;;
  let! evt := sys (ev_new listenFd tcpServer) in
  assume_ (negb (evt =? 0)) ;;
  modify (ev_add evt) ;;
  ret ebase.
End connect.

Lemma swap16_bytes x : 0 <= x < 65536 -> le_split 2 (swap16 x) = rev (le_split 2 x).
Proof.
  intros Hx. pose proof (Z.mod_pos_bound x 256 ltac:(lia)). pose proof (Z.div_lt_upper_bound x 256 256 ltac:(lia) ltac:(lia)). pose proof (Z.div_pos x 256 ltac:(lia) ltac:(lia)).
  assert (swap16 x mod 256 = x / 256) as E1 by (unfold swap16; rewrite Z.mul_comm, Z.add_comm, Z_mod_plus_full, Z.mod_small; lia).
  assert (swap16 x / 256 = x mod 256) as E2 by (unfold swap16; rewrite Z.mul_comm, Z.div_add_l, (Z.div_small (x / 256)); lia).
  assert (forall y, le_split 2 y = [byte_of_Z y; byte_of_Z (y / 256)]) as E by reflexivity. rewrite !E, E2. simpl rev.
  unfold byte_of_Z. by rewrite E1, Zmod_mod, (Z.mod_small (x / 256)) by lia.
Qed.

(** htons puts the most significant byte first: the system reads the port back. *)
Lemma port_of_htons x host : 0 <= x < 65536 -> port_of (mkSockaddr (le_split 2 (swap16 x)) host) = x.
Proof. intros Hx. unfold port_of. simpl sin_port. rewrite swap16_bytes by done. rewrite rev_involutive. by apply le_combine_split_small. Qed.

Section theorems.
Context {N : Type} `{ResolverOk N}.

(** The socket is connected: to whom depends on the two strings. *)
Definition reaches (fd : Z) (host : list byte) (port : Z) (x : N) : Prop :=
  exists a, rs_peers x !! fd = Some a /\ sin_addr a = host /\ port_of a = port.

Lemma wp_tcp_connect addr aport host port x :
  wp resource (resolve_host addr) (fun h _ => h = host) x -> (forall x, wp resource (resolve_port aport) (fun p _ => p = port) x) -> 0 <= port < 65536 ->
  wp resource (tcp_connect (Some addr) (Some aport)) (fun fd x' => fd <> -1 /\ reaches fd host port x') x.
Proof.
  intros Hh Hp Hr. unfold tcp_connect. apply wp_bind. eapply wp_mono; [exact Hh|]. intros h x1 ->. apply wp_bind. eapply wp_mono; [apply Hp|]. intros p x2 ->.
  apply wp_bind. unfold sys at 1, wp at 1. set (s := sk_socket x2). apply wp_bind. unfold guard_. destruct (s.1 =? -1) eqn:Es; [by right|]. apply wp_ret, wp_bind.
  unfold sys at 1, wp at 1. set (a := mkSockaddr _ _). pose proof (sk_connect_ok s.2 s.1 a) as Hc. destruct (_ =? 0) eqn:E; simpl.
  - apply Z.eqb_eq in E. apply wp_ret. split; [by apply Z.eqb_neq|]. exists a. split; [by apply Hc|]. split; [done|]. by apply port_of_htons.
  - by right.
Qed.

(** A client that is given the digits of an address and of a port is connected to
    them, or stops: the port is the value of the digits modulo 65536. *)
Theorem tcp_connect_digits addr aport x :
  isdigit addr = true -> isdigit aport = true ->
  wp resource (tcp_connect (Some addr) (Some aport))
    (fun fd x' => fd <> -1 /\ reaches fd (le_split 4 (rs_inet_addr addr x).1) (u16 (atoi aport)) x') x.
Proof.
  intros Ha Hp. apply wp_tcp_connect.
  - unfold resolve_host. rewrite Ha. by apply wp_bind, wp_ret.
  - intros x1. unfold resolve_port. rewrite Hp. by apply wp_ret.
  - apply Z.mod_pos_bound. lia.
Qed.

(** The name of a service gives another port: getservbyname answers in the order of
    the network and htons exchanges the bytes once more. *)
Theorem tcp_connect_service addr aport p x :
  isdigit addr = true -> isdigit aport = false -> 0 <= p < 65536 ->
  (forall x, (rs_getservbyname aport "tcp" x).1 = Some (swap16 p)) ->
  wp resource (tcp_connect (Some addr) (Some aport))
    (fun fd x' => fd <> -1 /\ reaches fd (le_split 4 (rs_inet_addr addr x).1) (swap16 p) x') x.
Proof.
  intros Ha Hp Hr Hs. assert (0 <= swap16 p < 65536) as Hw by (unfold swap16; Z.div_mod_to_equations; lia). apply wp_tcp_connect; [|intros x1|done].
  - unfold resolve_host. rewrite Ha. by apply wp_bind, wp_ret.
  - unfold resolve_port. rewrite Hp. apply wp_bind. unfold sys, wp at 1. rewrite Hs. apply wp_bind, wp_ret, wp_ret. by apply Z.mod_small.
Qed.
End theorems.
End TcpConnect.
