(* ===== verification/TcpSessions.v ===== *)
(** * The sessions of the TCP server

    The invariant of the clients let in by the TCP server, the handshake, and the
    end of a connection. *)

From S2P Require Import Prelude StdMap Memory Interfaces ConsistencyTracker Protocol World WorldInv View Object Container ClientRegistry Tcp.

Module TcpSessions.
Import Protocol Container ClientRegistry Tcp.

(** The bytes of the handshake. *)
Definition handshake (id key : Z) (keep : bool) : list byte :=
  le_split 2 IOC_LF_PROTOCOL_VERSION ++ le_split 8 id ++ le_split 8 key ++ le_split 1 (if keep then 1 else 0).

(** ** The client *)
Section client.
Context {N : Type} `{SocketsOk N}.

(** A read gave fewer bytes than were there. *)
Definition short_read (f : fault) : Prop :=
  f = FSystem /\ exists (x : N) fd n l, (Z.to_nat n <= length (so_input (so x) fd))%nat /\ (sk_read fd n x).1 = l /\
    match l with RD_DATA l => Z.of_nat (length l) <> n | _ => True end.

Lemma wp_read_field (c : TcpClient N) l rest (n : Z) Q :
  so_input (so (cl_net c)) (connFd c) = l ++ rest -> n = Z.of_nat (length l) ->
  (forall x, so_input (so x) (connFd c) = rest -> so_conns (so x) = so_conns (so (cl_net c)) -> Q l (mkTcpClient (connFd c) x)) ->
  wp short_read (read_field n) Q c.
Proof.
  intros Hin Hn HQ. unfold wp, read_field. pose proof (sk_read_ok (cl_net c) (connFd c) n) as (Hc & _ & Hr).
  assert (forall r, (sk_read (connFd c) n (cl_net c)).1 = r ->
    match r with RD_DATA l => Z.of_nat (length l) <> n | _ => True end -> short_read FSystem) as Hshort.
  { intros r Hr0 Hno. split; [done|]. exists (cl_net c), (connFd c), n, r. split; [rewrite Hin, length_app; lia|done]. }
  destruct (sk_read _ _ _) as [[l'| |] x] eqn:E; simpl in *; [|by eapply Hshort|by eapply Hshort].
  destruct (Z.of_nat (length l') =? n) eqn:El; zbool; [|by eapply Hshort].
  destruct Hr as [_ Hr]. rewrite Hin in Hr. apply app_inj_1 in Hr as [-> Hr]; [|lia]. by apply HQ.
Qed.

(** The bytes of the handshake are read back. *)
Lemma wp_getConnectionInfos (c : TcpClient N) id key keep rest :
  is_u64 id -> is_u64 key -> so_input (so (cl_net c)) (connFd c) = handshake id key keep ++ rest ->
  wp short_read getConnectionInfos
    (fun infos c' => infos = mkConnInfo id key IOC_LF_PROTOCOL_VERSION keep /\
       connFd c' = (if keep then connFd c else -1) /\
       so_conns (so (cl_net c')) = (if keep then so_conns (so (cl_net c)) else delete (connFd c) (so_conns (so (cl_net c)))) /\
       so_input (so (cl_net c')) (connFd c) = rest) c.
Proof.
  intros Hid Hkey Hin. unfold handshake in Hin. rewrite <- !app_assoc in Hin. unfold getConnectionInfos.
  apply wp_bind. eapply wp_read_field; [exact Hin|by rewrite le_split_length|]. intros x1 I1 C1.
  apply wp_bind, wp_guard; [by vm_compute|].
  apply wp_bind. eapply wp_read_field; [exact I1|by rewrite le_split_length|]. intros x2 I2 C2. simpl in *.
  apply wp_bind. eapply wp_read_field; [exact I2|by rewrite le_split_length|]. intros x3 I3 C3. simpl in *.
  apply wp_bind. eapply wp_read_field; [exact I3|by rewrite le_split_length|]. intros x4 I4 C4. simpl in *.
  rewrite !u64_of_bytes by done. rewrite le_combine_split_small by (destruct keep; lia).
  apply wp_bind. destruct keep; cbn [negb Z.eqb]; [apply wp_ret, wp_ret|apply wp_modify, wp_ret]; simpl; rewrite ?sk_close_ok; simpl;
    split; try done; repeat split; congruence.
Qed.
End client.

(** ** The listening socket *)
Section listen.
Context {N : Type} `{SocketsOk N}.

(** [n] ports in use from [port]. *)
Definition in_use (port n : Z) : list (Z * bind_result) := (fun p => (p, BIND_INUSE)) <$> seqZ port n.
(** The ports tried between [x] and [x']. *)
Definition tried (l : list (Z * bind_result)) (x x' : N) : Prop := so_binds (so x') = so_binds (so x) ++ l.

Lemma in_use_cons port n : 0 < n -> in_use port n = (port, BIND_INUSE) :: in_use (port + 1) (n - 1).
Proof. intros Hn. unfold in_use. rewrite seqZ_cons by lia. simpl. unfold Z.succ, Z.pred. done. Qed.

Lemma wp_sys {A} F (f : N -> A * N) Q x : Q (f x).1 (f x).2 -> wp F (sys f) Q x.
Proof. done. Qed.

(** The ports [port, q) are in use. *)
Definition outcome (port maxPort : Z) (r : Z * bool) (l : list (Z * bind_result)) : Prop :=
  match r with
  | (q, true) => port <= q <= maxPort /\ l = in_use port (q - port) ++ [(q, BIND_OK)]
  | (q, false) => port <= q <= maxPort /\ l = in_use port (q - port) ++ [(q, BIND_ERROR)] \/ l = in_use port (maxPort + 1 - port)
  end.

Lemma outcome_next port maxPort r l :
  port <= maxPort -> outcome (port + 1) maxPort r l -> outcome port maxPort r ((port, BIND_INUSE) :: l).
Proof.
  intros Hle. destruct r as [q []]; simpl.
  - intros [Hq ->]. split; [lia|]. rewrite (in_use_cons port) by lia. simpl. by replace (q - (port + 1)) with (q - port - 1) by lia.
  - intros [[Hq ->]| ->]; [left; split; [lia|]|right]; rewrite (in_use_cons port) by lia; simpl.
    + by replace (q - (port + 1)) with (q - port - 1) by lia.
    + by replace (maxPort + 1 - (port + 1)) with (maxPort + 1 - port - 1) by lia.
Qed.

(** The loop ends: a turn for each port at most. *)
Lemma bind_loop_ends sock maxPort fuel port x :
  0 <= port -> maxPort < 65535 -> maxPort + 1 - port < Z.of_nat fuel -> port <= maxPort + 1 ->
  wp never (bind_loop fuel sock port maxPort) (fun r x' => exists l, tried l x x' /\ outcome port maxPort r l) x.
Proof.
  revert port x. induction fuel as [|fuel IH]; intros port x H0p Hmax Hfuel Hle; [lia|]. simpl. destruct (port <=? maxPort) eqn:Ep; zbool.
  - apply wp_bind, wp_sys. pose proof (sk_bind_ok x sock port) as Hb. destruct (sk_bind sock port x) as [r x']. simpl in *.
    destruct r.
    + apply wp_ret. exists [(port, BIND_OK)]. unfold tried. rewrite Hb. split; [done|]. simpl. rewrite Z.sub_diag. split; [lia|done].
    + unfold u16. rewrite Z.mod_small by lia. eapply wp_mono; [apply IH; lia|]. intros r y (l & Hl & Ho).
      exists ((port, BIND_INUSE) :: l). split; [|by apply outcome_next]. unfold tried in *. rewrite Hl, Hb. simpl. by rewrite <- app_assoc.
    + apply wp_ret. exists [(port, BIND_ERROR)]. unfold tried. rewrite Hb. split; [done|]. simpl. rewrite Z.sub_diag. left. split; [lia|done].
  - apply wp_ret. exists []. unfold tried. rewrite app_nil_r. split; [done|]. right. by replace (maxPort + 1 - port) with 0 by lia.
Qed.

Lemma wp_set_options sock l x :
  wp never (set_options sock l) (fun _ x' => so x' = so x) x.
Proof.
  revert x. induction l as [|o l IH]; intros x; simpl; [done|]. apply wp_bind, wp_sys. pose proof (sk_setsockopt_ok x sock o) as Ho.
  destruct (sk_setsockopt sock o x) as [rc x']. simpl in *. destruct (rc =? -1); [by apply wp_ret|].
  eapply wp_mono; [apply IH|]. intros _ y ->. done.
Qed.

(** when the last port to try is below 65535, the search for a port ends within
    one turn for each port, and a socket that is returned is bound to the first port
    that is not in use: the ports before it were all tried and in use. *)
Theorem createSocketV4_correct fuel firstPort maxPort (x : N) :
  0 <= firstPort <= maxPort -> maxPort < 65535 -> maxPort - firstPort + 1 < Z.of_nat fuel ->
  wp never (createSocketV4 fuel firstPort maxPort)
    (fun sock x' => sock = -1 \/
       exists q, firstPort <= q <= maxPort /\ tried (in_use firstPort (q - firstPort) ++ [(q, BIND_OK)]) x x') x.
Proof.
  intros Hp Hmax Hfuel. unfold createSocketV4.
  assert (forall sock y Q, Q (-1) (sk_close sock y).2 -> wp never (let! _ := sys (sk_close sock) in ret (-1)) Q y) as Herr by done.
  apply wp_bind, wp_sys. pose proof (sk_socket_ok x) as Hs. destruct (sk_socket x) as [sock x1]. cbn [fst snd] in *.
  destruct (sock =? -1); [apply wp_ret; by left|]. apply wp_bind. eapply wp_mono; [apply wp_set_options|]. intros failed x2 E2. simpl in E2.
  destruct failed; [apply Herr; by left|]. unfold u16. rewrite Z.mod_small by lia. apply wp_bind.
  eapply wp_mono; [apply bind_loop_ends; lia|]. intros [q b] x3 (l & Hl & Ho). cbn [snd]. destruct b; cbn [negb]; [|apply Herr; by left].
  apply wp_bind, wp_sys. pose proof (sk_listen_ok x3 sock) as E4. destruct (sk_listen sock x3) as [rc x4]. simpl in *.
  destruct (rc =? -1); [apply Herr; by left|]. apply wp_ret. right. exists q. destruct Ho as [Hq ->]. split; [done|].
  unfold tried in *. by rewrite E4, Hl, E2, Hs.
Qed.

(** the server gives its port as the number of ports to try, so that a server
    whose TCP port is 32768 or more tries the port 0 after the port 65535, which is
    any port for the system: its clients cannot know which one. *)
Theorem server_port_wraps fuel tcpPort (x : N) :
  32768 <= tcpPort <= 65535 -> 65536 - tcpPort + 1 < Z.of_nat fuel ->
  (forall y, 0 <= (sk_socket y).1) -> (forall y s o, (sk_setsockopt s o y).1 = 0) -> (forall y s, (sk_listen s y).1 = 0) ->
  (forall y s p, (sk_bind s p y).1 = if p =? 0 then BIND_OK else BIND_INUSE) ->
  wp never (new_TcpServer fuel tcpPort tcpPort)
    (fun _ x' => tried (in_use tcpPort (65536 - tcpPort) ++ [(0, BIND_OK)]) x x') x.
Proof.
  intros Hp Hfuel Hsock Hopt Hlis Hbind. unfold new_TcpServer, createSocketV4.
  assert (forall fuel port y sock, 0 < port <= 65535 -> 65536 - port + 1 < Z.of_nat fuel ->
    wp never (bind_loop fuel sock port (tcpPort + tcpPort)) (fun r y' => r = (0, true) /\ tried (in_use port (65536 - port) ++ [(0, BIND_OK)]) y y') y) as Hloop.
  { clear x fuel Hfuel. induction fuel as [|fuel IH]; intros port y sock Hport Hf; [lia|]. simpl. replace (port <=? tcpPort + tcpPort) with true by lia.
    apply wp_bind, wp_sys. rewrite Hbind. replace (port =? 0) with false by lia. pose proof (sk_bind_ok y sock port) as Hb. rewrite Hbind in Hb.
    replace (port =? 0) with false in Hb by lia. rewrite in_use_cons by lia. unfold tried in *. destruct (decide (port = 65535)) as [->|Hne].
    - change (u16 (65535 + 1)) with 0. destruct fuel as [|fuel]; [lia|]. simpl. replace (0 <=? tcpPort + tcpPort) with true by lia.
      apply wp_bind, wp_sys. rewrite Hbind. simpl. apply wp_ret. split; [done|]. rewrite sk_bind_ok, Hbind, Hb. simpl. by rewrite <- app_assoc.
    - unfold u16. rewrite Z.mod_small by lia. eapply wp_mono; [apply IH; lia|]. intros r y' (-> & Hy'). split; [done|].
      rewrite Hy', Hb. simpl. rewrite <- app_assoc. simpl. by replace (65536 - (port + 1)) with (65536 - port - 1) by lia. }
  apply wp_bind, wp_bind, wp_sys. pose proof (Hsock x) as Hs0. pose proof (sk_socket_ok x) as Hs. destruct (sk_socket x) as [sock x1]. cbn [fst snd] in *.
  replace (sock =? -1) with false by lia. apply wp_bind.
  assert (forall l y, wp never (set_options sock l) (fun b y' => b = false /\ so y' = so y) y) as Hopts.
  { induction l as [|o l IH]; intros y; simpl; [done|]. apply wp_bind, wp_sys. rewrite Hopt. simpl. eapply wp_mono; [apply IH|].
    intros b y' [-> ->]. by rewrite sk_setsockopt_ok. }
  eapply wp_mono; [apply Hopts|]. intros b x2 [-> E2]. apply wp_bind. unfold u16. rewrite Z.mod_small by lia.
  eapply wp_mono; [apply Hloop; lia|]. intros r x3 (-> & H3). cbn [snd negb]. apply wp_bind, wp_sys. rewrite Hlis. simpl. apply wp_ret.
  apply wp_bind, wp_guard; [lia|]. apply wp_ret. unfold tried in *. by rewrite sk_listen_ok, H3, E2, Hs.
Qed.
End listen.

(** ** The server *)
Section server.
Context {N E S : Type} `{SocketsOk N} `{MemoryProviderOk E} `{StorageOk S}.
Abbreviation T := (Tcp N E S).
Abbreviation net s := (so (tc_net s)).

(** The clients, the registry, the events and the connections are about the same
    sessions: each client is in the registry under its identifier, with the key it
    was sent, its event is the only one that runs a callback on it, and every
    descriptor and every event is the one of a client. *)
Record tcp_ok (s : T) : Prop := {
  to_client : forall p c, tc_clients s !! p = Some c ->
    0 <= ti_id c < tc_cntConnections s /\ so_events (net s) !! ti_event c = Some (ti_fd c, p) /\
    exists key, is_u64 key /\ tc_registry s !! ti_id c = Some key /\
      so_conns (net s) !! ti_fd c = Some (handshake (ti_id c) key (tc_keepConnection s));
  to_id : forall p q c d, tc_clients s !! p = Some c -> tc_clients s !! q = Some d -> ti_id c = ti_id d -> p = q;
  to_fd : forall p q c d, tc_clients s !! p = Some c -> tc_clients s !! q = Some d -> ti_fd c = ti_fd d -> p = q;
  to_registry : forall id key, tc_registry s !! id = Some key -> exists p c, tc_clients s !! p = Some c /\ ti_id c = id;
  to_event : forall e fd p, so_events (net s) !! e = Some (fd, p) ->
    exists c, tc_clients s !! p = Some c /\ ti_event c = e /\ ti_fd c = fd;
  to_conn : forall fd l, so_conns (net s) !! fd = Some l -> exists p c, tc_clients s !! p = Some c /\ ti_fd c = fd;
  to_next : forall p c, tc_clients s !! p = Some c -> p < tc_nextClient s;
  to_cnt : 0 <= tc_cntConnections s < 2147483648;
  to_container : container_ok (tc_cw s);
}.

(** *** The system calls *)
Lemma wp_system {A} F (f : N -> A * N) Q (s : T) :
  Q (f (tc_net s)).1 (with_net (f (tc_net s)).2 s) -> wp F (call f) Q s.
Proof. done. Qed.

Lemma wp_write_all fd l old Q (s : T) :
  so_conns (net s) !! fd = Some old ->
  (forall x, so x = set_conns (<[fd := old ++ l]> (so_conns (net s))) (net s) -> Q tt (with_net x s)) ->
  wp (only FSystem) (write_all fd l) Q s.
Proof.
  intros Hfd HQ. unfold write_all. apply wp_bind, wp_system. unfold wp, guard_.
  destruct (_ =? _) eqn:Erc; zbool; [|done]. apply HQ. by apply sk_write_ok.
Qed.

(** The state in which a client has been accepted. *)
Definition admitted (s : T) (p : Z) (c : TcpClientInfo) (key : Z) (s' : T) : Prop :=
  p = tc_nextClient s /\ ti_id c = tc_cntConnections s /\ is_u64 key /\
  so_conns (net s) !! ti_fd c = None /\ so_events (net s) !! ti_event c = None /\
  tc_clients s' = <[p := c]> (tc_clients s) /\
  tc_nextClient s' = tc_nextClient s + 1 /\ tc_cntConnections s' = i32 (tc_cntConnections s + 1) /\
  tc_keepConnection s' = tc_keepConnection s /\
  tc_registry s' = <[ti_id c := key]> (tc_registry s) /\ tc_cw s' = tc_cw s /\
  so_conns (net s') = <[ti_fd c := handshake (ti_id c) key (tc_keepConnection s)]> (so_conns (net s)) /\
  so_events (net s') = <[ti_event c := (ti_fd c, p)]> (so_events (net s)).

(** Nobody was accepted. *)
Definition unchanged (s s' : T) : Prop :=
  tc_clients s' = tc_clients s /\ tc_registry s' = tc_registry s /\ tc_cw s' = tc_cw s /\
  tc_cntConnections s' = tc_cntConnections s /\ tc_keepConnection s' = tc_keepConnection s /\
  tc_nextClient s <= tc_nextClient s' /\ so_conns (net s') = so_conns (net s) /\ so_events (net s') = so_events (net s).

Lemma registry_fresh (s : T) : tcp_ok s -> tc_registry s !! tc_cntConnections s = None.
Proof.
  intros Hs. destruct (tc_registry s !! _) as [k|] eqn:Ek; [|done]. destruct (to_registry _ Hs _ _ Ek) as (p & c & Hp & Hc).
  pose proof (to_client _ Hs _ _ Hp) as [? _]. lia.
Qed.

(** *** A new client *)
Lemma wp_sendClientId p c (s : T) Q :
  tc_clients s !! p = Some c -> so_conns (net s) !! ti_fd c = Some [] -> tc_registry s !! u64 (tc_cntConnections s) = None ->
  (forall key x, is_u64 key ->
     so x = set_conns (<[ti_fd c := handshake (u64 (tc_cntConnections s)) key (tc_keepConnection s)]> (so_conns (net s))) (net s) ->
     Q tt (mkTcp _ _ _ x (tc_listenFd s) (tc_keepConnection s) (<[p := set_id (u64 (tc_cntConnections s)) c]> (tc_clients s))
             (tc_nextClient s) (i32 (tc_cntConnections s + 1)) (<[u64 (tc_cntConnections s) := key]> (tc_registry s)) (tc_cw s))) ->
  wp (only FSystem) (sendClientId p) Q s.
Proof.
  intros Hp Hfd Hreg HQ. destruct s as [x lfd keep cl nx cnt reg cw]. simpl in *. unfold sendClientId, onConnect.
  pose proof (rnd_u64_ok x) as [Hkey Hx]. set (key := (rnd_u64 x).1) in *. set (x1 := (rnd_u64 x).2) in *.
  apply wp_bind, wp_bind, wp_gets, wp_bind, wp_modify, wp_bind, wp_system. cbn [tc_net with_cnt]. fold key x1.
  apply wp_bind. unfold onClientConnect, on_registry, registerClient, wp at 1, bind at 1, get. simpl.
  rewrite bool_decide_eq_true_2 by done. simpl. unfold get_client. apply wp_bind. unfold wp at 1. simpl. rewrite Hp.
  unfold set_client. wp_steps. simpl.
  apply wp_bind. eapply wp_write_all; [simpl; by rewrite Hx|]. intros x2 G2. simpl in *. rewrite Hx in G2.
  apply wp_bind. eapply wp_write_all; [simpl; rewrite G2; apply lookup_insert_eq|]. intros x3 G3. simpl in *. rewrite G2 in G3.
  apply wp_bind. eapply wp_write_all; [simpl; rewrite G3; apply lookup_insert_eq|]. intros x4 G4. simpl in *. rewrite G3 in G4.
  apply wp_bind, wp_gets. simpl.
  eapply wp_write_all; [simpl; rewrite G4; apply lookup_insert_eq|]. intros x5 G5. simpl in *. rewrite G4 in G5. simpl in *.
  apply HQ; [done|]. rewrite G5. unfold set_conns. simpl. rewrite !insert_insert_eq. unfold handshake. by rewrite <- !app_assoc.
Qed.

Lemma wp_accept (s : T) fd Q :
  tcp_ok s -> (forall s', unchanged s s' -> Q tt s') -> (forall p c key s', admitted s p c key s' -> Q tt s') ->
  wp (only FSystem) (acceptOneClientCallback fd) Q s.
Proof.
  intros Hs Hno Hyes. pose proof (to_cnt _ Hs) as Hcnt. pose proof (registry_fresh _ Hs) as Hfresh.
  assert (tc_clients s !! tc_nextClient s = None) as Hnew.
  { destruct (tc_clients s !! _) as [c|] eqn:Ec; [|done]. pose proof (to_next _ Hs _ _ Ec). lia. }
  destruct s as [x lfd keep cl nx cnt reg cw]. simpl in *. unfold acceptOneClientCallback.
  apply wp_bind, wp_system. cbn [tc_net]. pose proof (sk_accept_ok x fd) as Ha.
  destruct (sk_accept fd x) as [newfd x1]. simpl in Ha. cbn [fst snd]. destruct (newfd <? 0).
  { apply wp_ret, Hno. unfold unchanged. simpl. rewrite Ha. repeat split; done || lia. }
  destruct Ha as [Hfd Ha]. apply wp_bind. unfold new_client, wp at 1. cbn [tc_nextClient with_net].
  apply wp_bind. unfold get_client, wp at 1. simpl. rewrite lookup_insert_eq. unfold set_client. wp_steps.
  apply wp_system. cbn [tc_net with_clients with_net tc_clients tc_nextClient]. rewrite insert_insert_eq. pose proof (ev_new_ok x1 newfd nx) as He.
  destruct (ev_new newfd nx x1) as [evt x2]. simpl in He. cbn [fst snd]. destruct (evt =? 0).
  { apply wp_bind, wp_system. unfold delete_client. wp_steps. apply Hno. unfold unchanged. simpl. rewrite sk_close_ok, He, Ha. simpl.
    rewrite !delete_insert_id by done. repeat split; try done. lia. }
  destruct He as [Hev He]. apply wp_bind. unfold wp at 1. simpl. rewrite lookup_insert_eq. wp_steps.
  cbn [tc_net with_clients with_net tc_clients tc_nextClient]. rewrite insert_insert_eq.
  eapply wp_sendClientId; simpl.
  - apply lookup_insert_eq.
  - simpl. rewrite ev_add_ok, He. simpl. rewrite Ha. apply lookup_insert_eq.
  - by rewrite u64_small by u64_arith.
  - intros key x3 Hkey Hx3. eapply (Hyes nx (mkClientInfo evt newfd cnt) key). rewrite ev_add_ok, He, Ha in Hx3. simpl in Hx3.
    rewrite u64_small in * by u64_arith. unfold admitted. simpl. rewrite insert_insert_eq, Hx3. simpl. rewrite insert_insert_eq.
    rewrite Ha in Hev. repeat split; try done; apply Hkey.
Qed.

Lemma unchanged_ok s s' : tcp_ok s -> unchanged s s' -> tcp_ok s'.
Proof.
  intros [] (E1 & E2 & E3 & E4 & E5 & E6 & E7 & E8). constructor; rewrite ?E1, ?E2, ?E3, ?E4, ?E5, ?E7, ?E8; try done.
  intros p c Hp. pose proof (to_next0 _ _ Hp). lia.
Qed.

Lemma admitted_ok s p c key s' : tcp_ok s -> tc_cntConnections s < 2147483647 -> admitted s p c key s' -> tcp_ok s'.
Proof.
  intros Hs Hlt (-> & Hid & Hkey & Hfd & Hev & E1 & E2 & E3 & E4 & E5 & E6 & E7 & E8). pose proof (registry_fresh _ Hs) as Hfresh.
  rewrite <- Hid in Hfresh. pose proof Hs as []. rewrite i32_small in E3 by lia.
  assert (forall q d, tc_clients s !! q = Some d -> q <> tc_nextClient s /\ ti_id d <> ti_id c /\ ti_fd d <> ti_fd c /\ ti_event d <> ti_event c) as Hother.
  { intros q d Hq. destruct (to_client0 _ _ Hq) as (Hi & He & k & _ & _ & Hc). pose proof (to_next0 _ _ Hq). split_and!; try lia; intros Heq; congruence. }
  assert (tc_clients s !! tc_nextClient s = None) as Hnone.
  { destruct (tc_clients s !! _) as [d|] eqn:Ed; [|done]. by destruct (Hother _ _ Ed). }
  constructor; rewrite ?E1, ?E2, ?E3, ?E4, ?E5, ?E6, ?E7, ?E8.
  - intros q d [[<- <-]|[Hne Hq]]%lookup_insert_Some.
    + rewrite !lookup_insert_eq. split; [lia|]. split; [done|]. exists key. split; [done|]. split; [apply lookup_insert_eq|done].
    + destruct (Hother _ _ Hq) as (_ & Hi & Hf & He). rewrite !lookup_insert_ne by done. unfold Registry in *. rewrite lookup_insert_ne by done.
      destruct (to_client0 _ _ Hq) as (? & ? & ?). split; [lia|]. eauto.
  - intros q r d e [[<- <-]|[Hne Hq]]%lookup_insert_Some [[<- <-]|[Hne' Hr]]%lookup_insert_Some Heq; eauto.
    + by destruct (Hother _ _ Hr) as (_ & [] & _).
    + by destruct (Hother _ _ Hq) as (_ & [] & _).
  - intros q r d e [[<- <-]|[Hne Hq]]%lookup_insert_Some [[<- <-]|[Hne' Hr]]%lookup_insert_Some Heq; eauto.
    + by destruct (Hother _ _ Hr) as (_ & _ & [] & _).
    + by destruct (Hother _ _ Hq) as (_ & _ & [] & _).
  - intros i k [[<- <-]|[Hne Hk]]%lookup_insert_Some; [exists (tc_nextClient s), c; by rewrite lookup_insert_eq|].
    destruct (to_registry0 _ _ Hk) as (q & d & Hq & Hd). exists q, d. rewrite lookup_insert_ne; [done|]. congruence.
  - intros e fd q [[<- [= <- <-]]|[Hne Hk]]%lookup_insert_Some; [exists c; by rewrite lookup_insert_eq|].
    destruct (to_event0 _ _ _ Hk) as (d & Hq & Hd). exists d. rewrite lookup_insert_ne; [done|]. congruence.
  - intros fd l [[<- <-]|[Hne Hk]]%lookup_insert_Some; [exists (tc_nextClient s), c; by rewrite lookup_insert_eq|].
    destruct (to_conn0 _ _ Hk) as (q & d & Hq & Hd). exists q, d. rewrite lookup_insert_ne; [done|]. congruence.
  - intros q d [[<- <-]|[Hne Hq]]%lookup_insert_Some; [lia|]. pose proof (to_next0 _ _ Hq). lia.
  - lia.
  - done.
Qed.

(** *** The end of a connection *)

(** Every object of [cw] shows the same bytes in [cw'] and has lost the ranges of
    the client, and only them. *)
Definition ranges_dropped (id : Z) (cw cw' : Container * World E S) : Prop :=
  cw'.1 = cw.1 /\
  forall p o, w_objects cw.2 !! p = Some o -> exists o', w_objects cw'.2 !! p = Some o' /\
    o_segmentMap o' = o_segmentMap o /\ (forall a, obj_view cw'.2 o' a = obj_view cw.2 o a) /\
    forall r, r ∈ ConsistencyTracker.ranges (o_consistencyTracker o') <->
      r ∈ ConsistencyTracker.ranges (o_consistencyTracker o) /\ ConsistencyTracker.tcpClientId r <> id.

Definition closed (s : T) (p : Z) (c : TcpClientInfo) (s' : T) : Prop :=
  tc_clients s' = delete p (tc_clients s) /\ tc_registry s' = delete (ti_id c) (tc_registry s) /\
  so_conns (net s') = delete (ti_fd c) (so_conns (net s)) /\ so_events (net s') = delete (ti_event c) (so_events (net s)) /\
  tc_nextClient s' = tc_nextClient s /\ tc_cntConnections s' = tc_cntConnections s /\ tc_keepConnection s' = tc_keepConnection s /\
  container_ok (tc_cw s') /\ ranges_dropped (ti_id c) (tc_cw s) (tc_cw s').

Lemma wp_close (s : T) p c :
  tcp_ok s -> tc_clients s !! p = Some c -> wp never (closeClient p (ti_fd c)) (fun _ s' => closed s p c s') s.
Proof.
  intros Hs Hp. destruct (to_client _ Hs _ _ Hp) as (_ & _ & key & _ & Hkey & _). pose proof (to_container _ Hs) as Hco.
  destruct s as [x lfd keep cl nx cnt reg [ct w]]. simpl in *. unfold closeClient, onDisconnect, get_client, delete_client.
  apply wp_bind. unfold wp at 1. simpl. rewrite Hp. wp_steps. apply wp_system. wp_steps. unfold wp at 1. simpl. rewrite Hp.
  unfold onClientDisconnect. apply wp_bind. unfold on_registry, disconnectClient, wp at 1, bind at 1, get. simpl.
  rewrite bool_decide_eq_true_2 by congruence. simpl. unfold in_container, wp at 1. cbn [tc_cw with_registry with_net].
  pose proof (onClientDisconnect_correct ct w (ti_id c) Hco) as Hd. unfold wp in Hd.
  destruct (Container.onClientDisconnect _ _) as [[[] cw']|f]; [|done]. destruct Hd as (Hco' & Hc & Hr).
  unfold wp. simpl. unfold closed. simpl. rewrite sk_close_ok, ev_free_ok, ev_del_ok. simpl. by split_and!.
Qed.

Lemma closed_ok s p c s' : tcp_ok s -> tc_clients s !! p = Some c -> closed s p c s' -> tcp_ok s'.
Proof.
  intros Hs Hp (E1 & E2 & E3 & E4 & E5 & E6 & E7 & Hco & _). pose proof Hs as [].
  assert (forall q d, q <> p -> tc_clients s !! q = Some d -> ti_id d <> ti_id c /\ ti_fd d <> ti_fd c /\ ti_event d <> ti_event c) as Hother.
  { intros q d Hne Hq. split_and!; intros Heq; [by apply Hne, (to_id0 q p d c)|by apply Hne, (to_fd0 q p d c)|].
    destruct (to_client0 _ _ Hp) as (_ & Hev & _). destruct (to_client0 _ _ Hq) as (_ & Hev' & _). congruence. }
  constructor; rewrite ?E1, ?E2, ?E3, ?E4, ?E5, ?E6, ?E7; try done.
  - intros q d [Hne Hq]%lookup_delete_Some. destruct (Hother q d) as (Hi & Hf & He); [done..|]. rewrite !lookup_delete_ne by done.
    unfold Registry in *. rewrite lookup_delete_ne by done. by apply to_client0.
  - intros q r d e [_ Hq]%lookup_delete_Some [_ Hr]%lookup_delete_Some. eauto.
  - intros q r d e [_ Hq]%lookup_delete_Some [_ Hr]%lookup_delete_Some. eauto.
  - intros i k [Hne Hk]%lookup_delete_Some. destruct (to_registry0 _ _ Hk) as (q & d & Hq & Hd). exists q, d.
    rewrite lookup_delete_ne; [done|]. congruence.
  - intros e fd q [Hne Hk]%lookup_delete_Some. destruct (to_event0 _ _ _ Hk) as (d & Hq & Hd & Hf). exists d.
    rewrite lookup_delete_ne; [done|]. congruence.
  - intros fd l [Hne Hk]%lookup_delete_Some. destruct (to_conn0 _ _ Hk) as (q & d & Hq & Hd). exists q, d.
    rewrite lookup_delete_ne; [done|]. congruence.
  - intros q d [_ Hq]%lookup_delete_Some. eauto.
Qed.

(** *** The thread of the TCP server *)
Lemma wp_recv (s : T) fuel p c Q :
  tcp_ok s -> tc_clients s !! p = Some c ->
  (forall s', unchanged s s' \/ closed s p c s' -> Q tt s') ->
  wp (only FFuel) (recvClientMessageCallback fuel (ti_fd c) p) Q s.
Proof.
  revert s. induction fuel as [|fuel IH]; intros s Hs Hp HQ; [done|]. simpl. apply wp_bind, wp_system.
  pose proof (sk_read_ok (tc_net s) (ti_fd c) MAX_TCP_MSG_LEN) as (Hc & He & _). destruct (sk_read _ _ _) as [r x]. simpl in *.
  assert (unchanged s (with_net x s)) as Hu by (unfold unchanged; simpl; split_and!; done || lia).
  pose proof (unchanged_ok _ _ Hs Hu) as Hx. destruct r as [[|b l]| |]; [|by apply wp_ret, HQ; left| |by apply wp_ret, HQ; left].
  - eapply wp_never, wp_mono; [by apply wp_close|]. intros [] s' Hcl. apply HQ. right. destruct Hcl as (F1 & F2 & F3 & F4 & F5 & F6 & F7 & F8 & F9).
    simpl in *. rewrite Hc in F3. rewrite He in F4. by split_and!.
  - apply IH; [done|done|]. intros s' Hcase. apply HQ. destruct Hcase as [(F1 & F2 & F3 & F4 & F5 & F6 & F7 & F8)|(F1 & F2 & F3 & F4 & F5 & F6 & F7 & F8 & F9)].
    + left. simpl in *. unfold unchanged. rewrite F7, F8. by split_and!.
    + right. simpl in *. rewrite Hc in F3. rewrite He in F4. by split_and!.
Qed.

(** The states of the server after [n] connections: the callbacks run one after the
    other in the thread of the TCP server, and the requests that are served in the
    meantime change the objects. *)
Inductive served : nat -> T -> Prop :=
| served_start s :
    tc_clients s = ∅ -> tc_registry s = ∅ -> tc_cntConnections s = 0 -> so_conns (net s) = ∅ -> so_events (net s) = ∅ ->
    container_ok (tc_cw s) -> served 0 s
| served_accept n s s' :
    served n s -> acceptOneClientCallback (tc_listenFd s) s = Ok (tt, s') -> served (Datatypes.S n) s'
| served_recv n s s' fuel e fd p :
    served n s -> so_events (net s) !! e = Some (fd, p) -> recvClientMessageCallback fuel fd p s = Ok (tt, s') -> served n s'
| served_requests n s cw :
    served n s -> container_ok cw -> served n (with_container cw s).

Lemma served_ok n s : served n s -> Z.of_nat n < 2147483648 -> tcp_ok s /\ tc_cntConnections s <= Z.of_nat n.
Proof.
  induction 1 as [s E1 E2 E3 E4 E5 Hco|n s s' _ IH Hrun|n s s' fuel e fd p _ IH He Hrun|n s cw _ IH Hco]; intros Hn.
  - split; [|lia]. constructor; rewrite ?E1, ?E2, ?E3, ?E4, ?E5; try (intros; exfalso; simplify_map_eq; done); try done.
  - destruct IH as [Hs Hc]; [lia|]. refine (wp_Ok _ _ (fun _ s1 => tcp_ok s1 /\ tc_cntConnections s1 <= Z.of_nat (Datatypes.S n)) _ _ _ Hrun (wp_accept s _ _ Hs _ _)).
    + intros s1 Hu. split; [by eapply unchanged_ok|]. destruct Hu as (_ & _ & _ & -> & _). lia.
    + intros p c key s1 Ha. split; [eapply admitted_ok; [exact Hs| |exact Ha]; lia|]. destruct Ha as (_ & _ & _ & _ & _ & _ & _ & -> & _).
      pose proof (to_cnt _ Hs). rewrite i32_small; lia.
  - destruct (IH Hn) as [Hs Hc]. destruct (to_event _ Hs _ _ _ He) as (c & Hp & <- & <-).
    refine (wp_Ok _ _ (fun _ s1 => tcp_ok s1 /\ tc_cntConnections s1 <= Z.of_nat n) _ _ _ Hrun (wp_recv s fuel p c _ Hs Hp _)). intros s1 [Hu|Hcl].
    + split; [by eapply unchanged_ok|]. destruct Hu as (_ & _ & _ & -> & _). lia.
    + split; [by eapply closed_ok|]. destruct Hcl as (_ & _ & _ & _ & _ & -> & _). lia.
  - destruct (IH Hn) as [[] Hc]. split; [|done]. by constructor.
Qed.

(** C16: while fewer than 2^31 connections have been accepted, the clients, the
    registry, the descriptors and the events are about the same sessions
    ([tcp_ok]): the identifiers given are distinct, every client still connected is
    in the registry with the key it was sent, and nothing is left of the others.  No
    callback hits an assertion of the registry or a client that was deleted: it
    only stops when a write to the new client is short. *)
Theorem tcp_sessions n s :
  served n s -> Z.of_nat n < 2147483648 ->
  tcp_ok s /\
  wp (only FSystem) (acceptOneClientCallback (tc_listenFd s)) (fun _ _ => True) s /\
  forall e fd p fuel, so_events (net s) !! e = Some (fd, p) ->
    wp (only FFuel) (recvClientMessageCallback fuel fd p) (fun _ s' => tcp_ok s') s.
Proof.
  intros Hser Hn. destruct (served_ok _ _ Hser Hn) as [Hs _]. split; [done|]. split; [by apply wp_accept|].
  intros e fd p fuel He. destruct (to_event _ Hs _ _ _ He) as (c & Hp & <- & <-). apply wp_recv with (1 := Hs) (2 := Hp).
  intros s' [Hu|Hcl]; [by eapply unchanged_ok|by eapply closed_ok].
Qed.

(** C22: a client that is let in reads its identifier and its key from its socket,
    however the bytes are cut as long as a read gives all the bytes there are, and
    the registry then accepts the pair; no client connected before had this
    identifier.  It keeps its connection if and only if the server asks for it. *)
Theorem handshake_correct n (s : T) :
  served n s -> Z.of_nat n < 2147483647 ->
  wp (only FSystem) (acceptOneClientCallback (tc_listenFd s))
    (fun _ s' => tc_clients s' = tc_clients s \/
       exists p c, tc_clients s' = <[p := c]> (tc_clients s) /\ tc_registry s !! ti_id c = None /\
         forall (y : TcpClient N) sent rest, so_conns (net s') !! ti_fd c = Some sent ->
           so_input (so (cl_net y)) (connFd y) = sent ++ rest ->
           wp (short_read (N := N)) getConnectionInfos
             (fun infos y' => ci_clientId infos = ti_id c /\
                checkIdentification (ci_clientId infos) (ci_key infos) (tc_registry s') = true /\
                ci_keepConnection infos = tc_keepConnection s /\
                connFd y' = (if tc_keepConnection s then connFd y else -1) /\
                so_input (so (cl_net y')) (connFd y) = rest) y) s.
Proof.
  intros Hser Hn. destruct (served_ok _ _ Hser) as [Hs Hcnt]; [lia|]. apply wp_accept; [done|intros s' (-> & _); by left|].
  intros p c key s' Ha. right. pose proof (registry_fresh _ Hs) as Hfresh. pose proof (to_cnt _ Hs).
  destruct Ha as (-> & Hid & Hkey & _ & _ & E1 & _ & _ & _ & E5 & _ & E7 & _). rewrite <- Hid in Hfresh.
  exists (tc_nextClient s), c. split; [done|]. split; [done|]. intros y sent rest Hsent Hin. rewrite E7, lookup_insert_eq in Hsent. simplify_eq.
  eapply wp_mono; [eapply wp_getConnectionInfos; [|exact Hkey|exact Hin]; rewrite Hid; u64_arith|].
  intros infos y' (-> & Hfd & _ & Hrest). simpl. split_and!; try done. rewrite E5. unfold checkIdentification, Registry in *.
  rewrite lookup_insert_eq. apply Z.eqb_refl.
Qed.

(** C23: when the connection of a client ends, its event, its descriptor and its
    memory are released, no key is accepted for its identifier any more, every
    object forgets its ranges and only them, and neither the contents nor the other
    clients change. *)
Theorem disconnect_forgets n (s : T) fuel e p c :
  served n s -> Z.of_nat n < 2147483648 -> so_events (net s) !! e = Some (ti_fd c, p) -> tc_clients s !! p = Some c ->
  (sk_read (ti_fd c) MAX_TCP_MSG_LEN (tc_net s)).1 = RD_DATA [] ->
  wp never (recvClientMessageCallback (Datatypes.S fuel) (ti_fd c) p)
    (fun _ s' => tcp_ok s' /\ tc_clients s' = delete p (tc_clients s) /\
       so_conns (net s') !! ti_fd c = None /\ so_events (net s') !! e = None /\
       (forall key, checkIdentification (ti_id c) key (tc_registry s') = false) /\
       (forall id key, id <> ti_id c -> checkIdentification id key (tc_registry s') = checkIdentification id key (tc_registry s)) /\
       ranges_dropped (ti_id c) (tc_cw s) (tc_cw s')) s.
Proof.
  intros Hser Hn He Hp Hread. destruct (served_ok _ _ Hser Hn) as [Hs _]. destruct (to_event _ Hs _ _ _ He) as (c' & Hp' & Hev & _). simplify_eq.
  simpl. apply wp_bind, wp_system. rewrite Hread. pose proof (sk_read_ok (tc_net s) (ti_fd c) MAX_TCP_MSG_LEN) as (Hc & Hee & _).
  destruct (sk_read _ _ _) as [r x]. simpl in *. assert (unchanged s (with_net x s)) as Hu by (unfold unchanged; simpl; split_and!; done || lia).
  pose proof (unchanged_ok _ _ Hs Hu) as Hx. eapply wp_mono; [by apply wp_close|]. intros [] s' Hcl.
  split; [by eapply closed_ok|]. destruct Hcl as (F1 & F2 & F3 & F4 & _ & _ & _ & _ & F9). simpl in *. rewrite F1, F2, F3, F4. unfold checkIdentification, Registry in *.
  split_and!; try done; [apply lookup_delete_eq..|intros key; by rewrite lookup_delete_eq|]. intros id key Hne. by rewrite lookup_delete_ne.
Qed.
End server.
End TcpSessions.
