(* ===== verification/Connection.v ===== *)
(** * LibfabricConnection

    Model of src/src/base/network/LibfabricConnection.cpp and .hpp: the messages
    sent and received by an endpoint, the actions that follow them and the
    dispatch of the requests to the hooks.

    The state is the connection, its domain and the memory of the process, and the
    state [A] of what is above.  A hook and the function of a post action are
    values of the types [Hook] and [Cb]; the variables [onMessage], [callback] and
    [onEndpointConnect] say what they run. *)

From Stdlib Require Import String.
From S2P Require Import Prelude StdMap Memory Serializer Protocol System Fabric LibfabricDomain ClientRegistry.

Module Connection.
Import Serializer Protocol LibfabricDomain ClientRegistry.

Definition IOC_LF_SERVER_ID : Z := 0.
(** (LibfabricPostAction * )-1: an address no action has *)
Definition IOC_LF_NO_WAKEUP_POST_ACTION : Z := -1.
(** (size_t)-1 *)
Definition IOC_LF_NO_BUFFER : Z := two64 - 1.

(** enum LibfabricActionResult *)
Inductive LibfabricActionResult : Type := LF_WAIT_LOOP_KEEP_WAITING | LF_WAIT_LOOP_UNBLOCK.
#[export] Instance LibfabricActionResult_eq_dec : EqDecision LibfabricActionResult.
Proof. solve_decision. Defined.
Definition unblocks (r : LibfabricActionResult) : bool :=
  match r with LF_WAIT_LOOP_UNBLOCK => true | LF_WAIT_LOOP_KEEP_WAITING => false end.

(** struct LibfabricClientRequest *)
Record LibfabricClientRequest : Type := mkClientRequest {
  lfClientId : Z;
  msgBufferId : Z;
  header : LibfabricMessageHeader;
  deserializer : Ser;
}.

(** LibfabricPostActionFunction and LibfabricPostActionNop *)
Inductive action_body {Cb : Type} : Type :=
| Function (function : Cb)
| Nop (result : LibfabricActionResult).
Arguments action_body : clear implicits.

(** class LibfabricPostAction: [pa_connection] tells that the connection is set *)
Record LibfabricPostAction {Cb : Type} : Type := mkAction {
  pa_body : action_body Cb;
  pa_connection : bool;
  pa_isRecv : bool;
  pa_bufferId : Z;
  pa_domainBuffer : Z;
}.
Arguments LibfabricPostAction : clear implicits.
Arguments mkAction {Cb}.

(** LibfabricPostAction::LibfabricPostAction; isRecv is not initialised and is
    never read without a buffer *)
Definition new_PostAction {Cb} (body : action_body Cb) : LibfabricPostAction Cb :=
  mkAction body false false IOC_LF_NO_BUFFER 0.

(** class LibfabricConnection *)
Record Conn {Hook Cb : Type} : Type := mkConn {
  passivePolling : bool;
  recvBuffers : list Z;                 (** their number is recvBuffersCount *)
  recvBuffersSize : Z;
  remoteLiAddr : stdmap Z Z;
  nextEndpointId : Z;
  hookOnEndpointConnect : option Cb;
  hookOnBadAuth : option Cb;
  clientId : Z;
  hooks : gmap Z Hook;
  used : bool;
  tcpClientId : Z;
  tcpClientKey : Z;
  clientRegistry : Registry;
  checkClientAuth : bool;
  disableReceive : bool;
  cqEntries : list fi_cq_msg_entry;
  pendingAction : Z;
}.
Arguments Conn : clear implicits.

(** The process: [cx_actions] are the live post actions by address. *)
Record Cx {X Hook Cb A : Type} : Type := mkCx {
  cx_sys : Sys X;
  cx_mem : mem;
  cx_actions : gmap Z (LibfabricPostAction Cb);
  cx_nextAction : Z;
  cx_conn : Conn Hook Cb;
  cx_app : A;
}.
Arguments Cx : clear implicits.
Arguments mkCx {X Hook Cb A}.

(** LibfabricConnection::LibfabricConnection, once the endpoint is enabled *)
Definition new_Connection {Hook Cb} (passive : bool) : Conn Hook Cb :=
  mkConn _ _ passive [] 0 [] 0 None None (two64 - 1) ∅ false 0 0 ∅ false false [] 0.

Section setters.
Context {Hook Cb : Type}.
Implicit Types c : Conn Hook Cb.
Definition set_recvBuffers (l : list Z) (n : Z) c : Conn Hook Cb :=
  mkConn _ _ (passivePolling c) l n (remoteLiAddr c) (nextEndpointId c) (hookOnEndpointConnect c) (hookOnBadAuth c) (clientId c)
    (hooks c) (used c) (tcpClientId c) (tcpClientKey c) (clientRegistry c) (checkClientAuth c) (disableReceive c) (cqEntries c) (pendingAction c).
Definition set_remote (m : stdmap Z Z) (next : Z) c : Conn Hook Cb :=
  mkConn _ _ (passivePolling c) (recvBuffers c) (recvBuffersSize c) m next (hookOnEndpointConnect c) (hookOnBadAuth c) (clientId c)
    (hooks c) (used c) (tcpClientId c) (tcpClientKey c) (clientRegistry c) (checkClientAuth c) (disableReceive c) (cqEntries c) (pendingAction c).
Definition set_callbacks (onConnect onBadAuth : option Cb) c : Conn Hook Cb :=
  mkConn _ _ (passivePolling c) (recvBuffers c) (recvBuffersSize c) (remoteLiAddr c) (nextEndpointId c) onConnect onBadAuth (clientId c)
    (hooks c) (used c) (tcpClientId c) (tcpClientKey c) (clientRegistry c) (checkClientAuth c) (disableReceive c) (cqEntries c) (pendingAction c).
Definition set_clientId (id : Z) c : Conn Hook Cb :=
  mkConn _ _ (passivePolling c) (recvBuffers c) (recvBuffersSize c) (remoteLiAddr c) (nextEndpointId c) (hookOnEndpointConnect c) (hookOnBadAuth c) id
    (hooks c) (used c) (tcpClientId c) (tcpClientKey c) (clientRegistry c) (checkClientAuth c) (disableReceive c) (cqEntries c) (pendingAction c).
Definition set_hooks (m : gmap Z Hook) c : Conn Hook Cb :=
  mkConn _ _ (passivePolling c) (recvBuffers c) (recvBuffersSize c) (remoteLiAddr c) (nextEndpointId c) (hookOnEndpointConnect c) (hookOnBadAuth c) (clientId c)
    m (used c) (tcpClientId c) (tcpClientKey c) (clientRegistry c) (checkClientAuth c) (disableReceive c) (cqEntries c) (pendingAction c).
Definition setUsed (b : bool) c : Conn Hook Cb :=
  mkConn _ _ (passivePolling c) (recvBuffers c) (recvBuffersSize c) (remoteLiAddr c) (nextEndpointId c) (hookOnEndpointConnect c) (hookOnBadAuth c) (clientId c)
    (hooks c) b (tcpClientId c) (tcpClientKey c) (clientRegistry c) (checkClientAuth c) (disableReceive c) (cqEntries c) (pendingAction c).
Definition setTcpClientInfos (id key : Z) c : Conn Hook Cb :=
  mkConn _ _ (passivePolling c) (recvBuffers c) (recvBuffersSize c) (remoteLiAddr c) (nextEndpointId c) (hookOnEndpointConnect c) (hookOnBadAuth c) (clientId c)
    (hooks c) (used c) id key (clientRegistry c) (checkClientAuth c) (disableReceive c) (cqEntries c) (pendingAction c).
Definition set_registry (r : Registry) c : Conn Hook Cb :=
  mkConn _ _ (passivePolling c) (recvBuffers c) (recvBuffersSize c) (remoteLiAddr c) (nextEndpointId c) (hookOnEndpointConnect c) (hookOnBadAuth c) (clientId c)
    (hooks c) (used c) (tcpClientId c) (tcpClientKey c) r (checkClientAuth c) (disableReceive c) (cqEntries c) (pendingAction c).
Definition set_flags (auth disable : bool) c : Conn Hook Cb :=
  mkConn _ _ (passivePolling c) (recvBuffers c) (recvBuffersSize c) (remoteLiAddr c) (nextEndpointId c) (hookOnEndpointConnect c) (hookOnBadAuth c) (clientId c)
    (hooks c) (used c) (tcpClientId c) (tcpClientKey c) (clientRegistry c) auth disable (cqEntries c) (pendingAction c).
Definition set_queue (l : list fi_cq_msg_entry) (n : Z) c : Conn Hook Cb :=
  mkConn _ _ (passivePolling c) (recvBuffers c) (recvBuffersSize c) (remoteLiAddr c) (nextEndpointId c) (hookOnEndpointConnect c) (hookOnBadAuth c) (clientId c)
    (hooks c) (used c) (tcpClientId c) (tcpClientKey c) (clientRegistry c) (checkClientAuth c) (disableReceive c) l n.

(** LibfabricConnection::setHooks, setCheckClientAuth and setOnBadAuth *)
Definition setHooks (h : Cb) c := set_callbacks (Some h) (hookOnBadAuth c) c.
Definition setOnBadAuth (h : Cb) c := set_callbacks (hookOnEndpointConnect c) (Some h) c.
Definition setCheckClientAuth (b : bool) c := set_flags b (disableReceive c) c.

(** LibfabricConnection::registerHook and unregisterHook *)
Definition registerHook (messageType : Z) (hook : Hook) c := set_hooks (<[messageType := hook]> (hooks c)) c.
Definition unregisterHook (messageType : Z) c := set_hooks (delete messageType (hooks c)) c.

(** LibfabricConnection::fillProtocolHeader *)
Definition fillProtocolHeader (type : Z) c : LibfabricMessageHeader :=
  mkHeader type (clientId c) (tcpClientId c) (tcpClientKey c).
End setters.

Section connection.
Context {X Hook Cb A : Type} `{Libc X} `{Libfabric X} `{Fabric X}.
Abbreviation S := (Cx X Hook Cb A).
(** The turns a waiting loop can take. *)
Variable fuel : nat.

Definition with_sys (x : Sys X) (s : S) : S := mkCx x (cx_mem s) (cx_actions s) (cx_nextAction s) (cx_conn s) (cx_app s).
Definition with_ext (x : X) (s : S) : S := with_sys (set_ext x (cx_sys s)) s.
Definition with_mem (m : mem) (s : S) : S := mkCx (cx_sys s) m (cx_actions s) (cx_nextAction s) (cx_conn s) (cx_app s).
Definition with_actions (m : gmap Z (LibfabricPostAction Cb)) (n : Z) (s : S) : S := mkCx (cx_sys s) (cx_mem s) m n (cx_conn s) (cx_app s).
Definition with_conn (f : Conn Hook Cb -> Conn Hook Cb) (s : S) : S :=
  mkCx (cx_sys s) (cx_mem s) (cx_actions s) (cx_nextAction s) (f (cx_conn s)) (cx_app s).

Definition on_sys {B} (m : M (Sys X) B) : M S B := fun s =>
  match m (cx_sys s) with Ok (b, x) => Ok (b, with_sys x s) | Abort f => Abort f end.
Definition conn {B} (f : Conn Hook Cb -> B) : M S B := gets (fun s => f (cx_conn s)).
Definition fabric (f : X -> Z * X) : M S Z := fun s =>
  let r := f (s_ext (cx_sys s)) in Ok (r.1, with_ext r.2 s).

(** A serializer works on the memory of the process. *)
Definition with_ser {B} (m : M Ser B) (st : Ser) : M S (B * Ser) := fun s =>
  match m (Serializer.set_mem (fun _ => cx_mem s) st) with
  | Ok (b, st') => Ok ((b, st'), with_mem (s_mem st') s)
  | Abort f => Abort f
  end.
Definition new_serializer (buf sz : Z) (act : SerializerAction) : M S Ser := fun s =>
  match init_buffer (cx_mem s) buf sz act with Ok st => Ok (st, s) | Abort f => Abort f end.

(** *** Post actions *)

(** [new LibfabricPostAction...] *)
Definition new_action (body : action_body Cb) : M S Z :=
  let! s := get in
  put (with_actions (<[cx_nextAction s := new_PostAction body]> (cx_actions s)) (cx_nextAction s + 1) s) ;;
  ret (cx_nextAction s).
Definition get_action (a : Z) : M S (LibfabricPostAction Cb) :=
  let! s := get in of_option FNullPointer (cx_actions s !! a).

(** LibfabricPostAction::attachDomainBuffer *)
Definition attachDomainBuffer (a domainBuffer : Z) : M S unit :=
  let! act := get_action a in
  assert_ (negb (pa_connection act)) ;;
  assert_ (pa_domainBuffer act =? 0) ;;
  assert_ (negb (domainBuffer =? 0)) ;;
  modify (fun s => with_actions
    (<[a := mkAction (pa_body act) true (pa_isRecv act) (pa_bufferId act) domainBuffer]> (cx_actions s)) (cx_nextAction s) s).

(** LibfabricConnection::repostReceive(size_t) *)
Definition repostReceive (id : Z) : M S unit :=
  let! c := conn (fun c => c) in
  let! buffer := of_option FAssume (recvBuffers c !! Z.to_nat id) in
  let! err := fabric (fi_recv buffer (recvBuffersSize c) id) in
  guard_ FSystem (err =? 0).

(** LibfabricClientRequest::terminate *)
Definition terminate (request : LibfabricClientRequest) : M S unit := repostReceive (msgBufferId request).

(** LibfabricPostAction::freeBuffer *)
Definition freeBuffer (act : LibfabricPostAction Cb) : M S unit :=
  if pa_connection act then
    (if pa_isRecv act && negb (pa_bufferId act =? IOC_LF_NO_BUFFER) then repostReceive (pa_bufferId act) else ret tt) ;;
    (if negb (pa_domainBuffer act =? 0) then on_sys (retMsgBuffer (pa_domainBuffer act)) else ret tt)
  else ret tt.

(** [delete action] *)
Definition delete_action (a : Z) : M S unit :=
  let! act := get_action a in
  freeBuffer act ;;
  modify (fun s => with_actions (delete a (cx_actions s)) (cx_nextAction s) s).

(** *** Completions *)

(** LibfabricConnection::pollForCompletion; [None] is the status 0 *)
Definition pollForCompletion (passive acceptCache : bool) : M S (option fi_cq_msg_entry) :=
  let! s := get in
  match acceptCache, cqEntries (cx_conn s) with
  | true, e :: rest =>
      modify (with_conn (set_queue rest (pendingAction (cx_conn s)))) ;;
      ret (Some e)
  | _, _ =>
      let r := fi_cq_read passive (cx_mem s) (s_ext (cx_sys s)) in
      put (with_mem r.1.2 (with_ext r.2 s)) ;;
      ret (match r.1.1 with CQ_ENTRY e => Some e | _ => None end)
  end.

(** LibfabricConnection::pollAllCqInCache *)
Fixpoint pollAllCqInCache (n : nat) : M S unit :=
  match n with
  | O => abort FFuel
  | Datatypes.S n =>
      let! e := pollForCompletion false false in
      match e with
      | Some e =>
          modify (with_conn (fun c => set_queue (cqEntries c ++ [e]) (pendingAction c) c)) ;;
          pollAllCqInCache n
      | None => ret tt
      end
  end.

Definition count_action (d : Z) : M S unit :=
  modify (with_conn (fun c => set_queue (cqEntries c) (pendingAction c + d) c)).

(** The loop around a call that can answer -FI_EAGAIN; [post] gives its status. *)
Fixpoint retry (n : nat) (post : M S Z) : M S Z :=
  match n with
  | O => abort FFuel
  | Datatypes.S n =>
      let! err := post in
      if err =? - FI_EAGAIN then pollAllCqInCache fuel ;; retry n post else ret err
  end.

(** The address of a peer *)
Definition find_remote (destinationEpId : Z) : M S Z :=
  let! m := conn remoteLiAddr in of_option FAssume (sm_find destinationEpId m).

(** LibfabricConnection::sendRawMessage *)
Definition sendRawMessage (buffer size destinationEpId postAction : Z) : M S unit :=
  assert_ (negb (buffer =? 0)) ;;
  let! max := conn recvBuffersSize in
  assert_ (size <=? max) ;;
  let! addr := find_remote destinationEpId in
  let! err := retry fuel (let! m := gets cx_mem in fabric (fi_send addr (rd m buffer size) postAction)) in
  guard_ FSystem (err =? 0) ;;
  count_action 1.

(** LibfabricConnection::sendRawMessageNoPollWakeup *)
Definition sendRawMessageNoPollWakeup (buffer size destinationEpId : Z) : M S unit :=
  sendRawMessage buffer size destinationEpId IOC_LF_NO_WAKEUP_POST_ACTION.

(** LibfabricConnection::sendMessage(LibfabricMessageType, int, T &, LibfabricPostAction * ) *)
Definition sendMessage {T} `{Message T} (msgType : LibfabricMessageType) (destinationEpId : Z) (data : T) (postAction : Z) : M S unit :=
  let! buffer := on_sys getMsgBuffer in
  let! bufferSize := on_sys getMsgBufferSize in
  attachDomainBuffer postAction buffer ;;
  let! header := conn (fillProtocolHeader (msg_code msgType)) in
  let! st := new_serializer buffer bufferSize SERIALIZER_PACK in
  let! r := with_ser (apply_struct applySerializerDef "header" header) st in
  let! r := with_ser (apply_struct applySerializerDef "data" data) r.2 in
  sendRawMessage buffer (cursor r.2) destinationEpId postAction.

(** LibfabricConnection::sendMessage with a function *)
Definition sendMessageFunction {T} `{Message T} (msgType : LibfabricMessageType) (destinationEpId : Z) (data : T) (f : Cb) : M S unit :=
  let! a := new_action (Function f) in sendMessage msgType destinationEpId data a.

(** LibfabricConnection::sendMessageNoPollWakeup *)
Definition sendMessageNoPollWakeup {T} `{Message T} (msgType : LibfabricMessageType) (destinationEpId : Z) (data : T) : M S unit :=
  let! a := new_action (Nop LF_WAIT_LOOP_KEEP_WAITING) in sendMessage msgType destinationEpId data a.

Definition sendNop {T} `{Message T} (msgType : LibfabricMessageType) (destinationEpId : Z) (data : T) (unblock : bool) : M S unit :=
  let! a := new_action (Nop (if unblock then LF_WAIT_LOOP_UNBLOCK else LF_WAIT_LOOP_KEEP_WAITING)) in
  sendMessage msgType destinationEpId data a.

(** The three LibfabricConnection::sendResponse; the identifier of the client
    becomes an [int] *)
Definition sendResponse (msgType : LibfabricMessageType) (lfClientId status : Z) (unblock : bool) : M S unit :=
  sendNop msgType (i32 lfClientId) (mkResponse 0 status false 0 None 0) unblock.
Definition sendResponseData (msgType : LibfabricMessageType) (lfClientId status data size : Z) (unblock : bool) : M S unit :=
  sendNop msgType (i32 lfClientId) (mkResponse size status true data None 0) unblock.
Definition sendResponseFragments (msgType : LibfabricMessageType) (lfClientId status : Z) (fragments : list LibfabricBuffer) (unblock : bool) : M S unit :=
  assert_ (Z.of_nat (length fragments) <? 4294967295) ;;
  let sumSize := foldl (fun n f => n +u lb_size f) 0 fragments in
  sendNop msgType (i32 lfClientId) (mkResponse sumSize status true 0 (Some fragments) (Z.of_nat (length fragments))) unblock.

(** *** RDMA *)

(** A piece of local memory has to be registered. *)
Definition check_region (v : Z * Z) : M S unit :=
  let! mr := on_sys (getFidMR v.1 v.2) in
  assert_ (match mr with Some _ => true | None => false end).

(** The common body of rdmaRead, rdmaReadv, rdmaWrite and rdmaWritev: the action
    is allocated again at each turn of the loop. *)
Definition rdma (kind : rdma_kind) (destinationEpId : Z) (iov : list (Z * Z)) (remoteAddr remoteKey : Z) (postAction : Cb) : M S unit :=
  for_each iov check_region ;;
  let! addr := find_remote destinationEpId in
  let! err := retry fuel (let! a := new_action (Function postAction) in fabric (fi_rma kind iov addr remoteAddr remoteKey a)) in
  guard_ FSystem (err =? 0) ;;
  count_action 1.

(** LibfabricConnection::rdmaReadv, rdmaWritev, rdmaRead and rdmaWrite *)
Definition rdmaReadv (destinationEpId : Z) (iov : list (Z * Z)) (remoteAddr remoteKey : Z) (postAction : Cb) : M S unit :=
  assert_ (0 <? Z.of_nat (length iov)) ;; rdma RDMA_READ destinationEpId iov remoteAddr remoteKey postAction.
Definition rdmaWritev (destinationEpId : Z) (iov : list (Z * Z)) (remoteAddr remoteKey : Z) (postAction : Cb) : M S unit :=
  assert_ (0 <? Z.of_nat (length iov)) ;; rdma RDMA_WRITE destinationEpId iov remoteAddr remoteKey postAction.
Definition rdmaRead (destinationEpId localAddr remoteAddr remoteKey size : Z) (postAction : Cb) : M S unit :=
  assert_ (negb (localAddr =? 0)) ;; rdma RDMA_READ destinationEpId [(localAddr, size)] remoteAddr remoteKey postAction.
Definition rdmaWrite (destinationEpId localAddr remoteAddr remoteKey size : Z) (postAction : Cb) : M S unit :=
  assert_ (negb (localAddr =? 0)) ;; assert_ (size >? 0) ;;
  rdma RDMA_WRITE destinationEpId [(localAddr, size)] remoteAddr remoteKey postAction.

(** *** Receive buffers *)

(** [new char[n]] *)
Definition new_array (n : Z) : M S Z :=
  let! p := on_sys (malloc n) in
  guard_ FOutOfMemory (negb (p =? 0)) ;;
  ret p.

(** LibfabricConnection::postReceives *)
Definition postReceives (size : Z) (count : nat) : M S unit :=
  modify (with_conn (set_recvBuffers [] size)) ;;
  for_each (seqZ 0 (Z.of_nat count)) (fun i =>
    let! p := new_array size in
    modify (with_conn (fun c => set_recvBuffers (recvBuffers c ++ [p]) size c)) ;;
    repostReceive i).
End connection.
End Connection.
