(* ===== verification/Dispatch.v ===== *)
(** * The reception side of LibfabricConnection

    Model of the polling loops of src/src/base/network/LibfabricConnection.cpp:
    the completions, the authentication of the messages, their dispatch to the
    hooks and the handshake of a client with the server. *)

From Stdlib Require Import String.
From S2P Require Import Prelude StdMap Memory Serializer Protocol System Fabric LibfabricDomain ClientRegistry Connection.

Module Dispatch.
Import Serializer Protocol LibfabricDomain ClientRegistry Connection.

(** The value an uninitialised structure is given before it is unpacked. *)
Definition no_header : LibfabricMessageHeader := mkHeader 0 0 0 0.
Definition no_response : LibfabricResponse := mkResponse 0 0 false 0 None 0.

Section dispatch.
Context {X Hook Cb A : Type} `{Libc X} `{Libfabric X} `{Fabric X} `{StringStorage}.
(** A hook is registered by the program, or is the one of joinServer ([None]). *)
Abbreviation S := (Cx X (option Hook) Cb A).
Variable fuel : nat.
(** Hook::onMessage, the function of a post action, hookOnEndpointConnect *)
Variable onMessage : Hook -> LibfabricClientRequest -> M S LibfabricActionResult.
Variable callback : Cb -> M S LibfabricActionResult.
Variable onEndpointConnect : Cb -> Z -> M S unit.

(** request.deserializer.apply(name, value) *)
Definition unpack {T} `{Message T} (name : string) (old : T) (st : Ser) : M S (T * Ser) :=
  with_ser (apply_struct applySerializerDef name old) st.

(** runPostAction *)
Definition runPostAction (a : Z) : M S LibfabricActionResult :=
  let! act := get_action a in
  match pa_body act with
  | Function f => callback f
  | Nop result => ret result
  end.

(** LibfabricConnection::checkAuth *)
Definition checkAuth (header : LibfabricMessageHeader) (lfClientId : Z) : M S bool :=
  let! c := conn (fun c => c) in
  if negb (checkClientAuth c) then ret true
  else if checkIdentification (hdr_tcpClientId header) (hdr_tcpClientKey header) (clientRegistry c) then ret true
  else
    sendResponse fuel IOC_LF_MSG_BAD_AUTH lfClientId (-1) false ;;
    ret false.

(** LibfabricConnection::onConnInit *)
Definition onConnInit (request : LibfabricClientRequest) : M S unit :=
  assert_ (hdr_msgType (header request) =? msg_code IOC_LF_MSG_CONNECT_INIT) ;;
  let! r := unpack "firstClientMessage" (mkFirstClient []) (deserializer request) in
  let! epId := conn nextEndpointId in
  let! s := get in
  let a := fi_av_insert (fc_addr r.1) (s_ext (cx_sys s)) in
  put (with_conn (fun c => set_remote (sm_insert (i32 epId) a.1.2 (remoteLiAddr c)) (epId +u 1) c) (with_ext a.2 s)) ;;
  guard_ FSystem (a.1.1 =? 1) ;;
  sendMessageNoPollWakeup fuel IOC_LF_MSG_ASSIGN_ID (i32 epId) (mkHandshake IOC_LF_PROTOCOL_VERSION epId) ;;
  let! h := conn hookOnEndpointConnect in
  match h with Some h => onEndpointConnect h (i32 epId) | None => ret tt end ;;
  terminate request.

(** The lambda of LibfabricConnection::joinServer *)
Definition onAssignId (request : LibfabricClientRequest) : M S LibfabricActionResult :=
  let! r := unpack "firstHandshakeResponse" (mkHandshake 0 0) (deserializer request) in
  modify (with_conn (set_clientId (hs_assignLfClientId r.1))) ;;
  terminate request ;;
  assume_ (hs_protocolVersion r.1 =? IOC_LF_PROTOCOL_VERSION) ;;
  ret LF_WAIT_LOOP_UNBLOCK.

Definition run_hook (h : option Hook) (request : LibfabricClientRequest) : M S LibfabricActionResult :=
  match h with Some h => onMessage h request | None => onAssignId request end.

(** The message in the receive buffer [id]: its header and the deserializer. *)
Definition open_message (id : Z) : M S (LibfabricMessageHeader * Ser) :=
  let! c := conn (fun c => c) in
  let! buffer := of_option FAssert (recvBuffers c !! Z.to_nat id) in
  let! st := new_serializer buffer (recvBuffersSize c) SERIALIZER_UNPACK in
  unpack "header" no_header st.

(** LibfabricConnection::onRecv *)
Definition onRecv (id : Z) : M S LibfabricActionResult :=
  let! r := open_message id in
  let header := r.1 in
  let request := mkClientRequest (hdr_lfClientId header) id header r.2 in
  let t := hdr_msgType header in
  if t =? msg_code IOC_LF_MSG_CONNECT_INIT then
    onConnInit request ;; ret LF_WAIT_LOOP_KEEP_WAITING
  else if t =? msg_code IOC_LF_MSG_BAD_AUTH then
    let! h := conn hookOnBadAuth in
    match h with
    | Some h => let! res := callback h in terminate request ;; ret res
    | None => abort FAssume
    end
  else if t =? msg_code IOC_LF_MSG_FATAL_ERROR then
    let! m := conn hooks in
    match m !! t with
    | Some h => run_hook h request
    | None => unpack "errorMessage" (mkError []) r.2 ;; abort FAssume
    end
  else
    let! ok := checkAuth header (hdr_lfClientId header) in
    if negb ok then ret LF_WAIT_LOOP_UNBLOCK
    else
      let! m := conn hooks in
      match m !! t with
      | Some h => run_hook h request
      | None => abort FAssume
      end.

(** The end of an action: its body, its release, and the count *)
Definition finish_action (a : Z) : M S LibfabricActionResult :=
  let! status := runPostAction a in
  delete_action a ;;
  count_action (-1) ;;
  let! n := conn pendingAction in
  assert_ (n >=? 0) ;;
  ret status.

(** One turn of LibfabricConnection::poll; [true] leaves the loop *)
Definition poll_turn : M S bool :=
  let! passive := conn passivePolling in
  let! entry := pollForCompletion passive true in
  match entry with
  | Some (mkEntry true id) =>
      let! disabled := conn disableReceive in
      if disabled then ret false else let! r := onRecv id in ret (unblocks r)
  | Some (mkEntry false a) =>
      if a =? IOC_LF_NO_WAKEUP_POST_ACTION then
        count_action (-1) ;;
        let! n := conn pendingAction in
        assert_ (n >=? 0) ;;
        ret false
      else let! r := finish_action a in ret (unblocks r)
  | None => ret false
  end.

(** LibfabricConnection::poll *)
Fixpoint poll (n : nat) (waitMsg : bool) : M S unit :=
  match n with
  | O => abort FFuel
  | Datatypes.S n =>
      let! stop := poll_turn in
      if stop || negb waitMsg then ret tt else poll n waitMsg
  end.

(** LibfabricConnection::pollAllPendingAction *)
Fixpoint pollAllPendingAction (n : nat) : M S unit :=
  match n with
  | O => abort FFuel
  | Datatypes.S n =>
      let! p := conn pendingAction in
      if p >? 0 then poll fuel false ;; pollAllPendingAction n else ret tt
  end.

(** LibfabricConnection::onRecvMessage *)
Definition onRecvMessage (id : Z) : M S (option LibfabricClientRequest) :=
  let! r := open_message id in
  let header := r.1 in
  let t := hdr_msgType header in
  if t =? msg_code IOC_LF_MSG_BAD_AUTH then
    let! h := conn hookOnBadAuth in
    match h with
    | Some h => callback h ;; repostReceive id ;; ret None
    | None => abort FAssume
    end
  else if t =? msg_code IOC_LF_MSG_FATAL_ERROR then
    unpack "errorMessage" (mkError []) r.2 ;; abort FAssume
  else
    let! ok := checkAuth header (hdr_lfClientId header) in
    if negb ok then ret None
    else ret (Some (mkClientRequest (hdr_lfClientId header) id header r.2)).

(** LibfabricConnection::pollMessage; [None] is the result false *)
Fixpoint pollMessage (n : nat) (expectedMessageType : LibfabricMessageType) : M S (option LibfabricClientRequest) :=
  match n with
  | O => abort FFuel
  | Datatypes.S n =>
      let! passive := conn passivePolling in
      let! entry := pollForCompletion passive true in
      match entry with
      | Some (mkEntry true id) =>
          let! response := onRecvMessage id in
          match response with
          | Some response =>
              assume_ (hdr_msgType (header response) =? msg_code expectedMessageType) ;;
              ret (Some response)
          | None => ret None
          end
      | Some (mkEntry false a) =>
          if a =? IOC_LF_NO_WAKEUP_POST_ACTION then pollMessage n expectedMessageType
          else
            let! status := runPostAction a in
            count_action (-1) ;;
            let! p := conn pendingAction in
            assert_ (p >=? 0) ;;
            delete_action a ;;
            if unblocks status then ret None else pollMessage n expectedMessageType
      | None => pollMessage n expectedMessageType
      end
  end.

(** LibfabricConnection::joinServer: [dest_addr] is the name of the server, [turns]
    bounds the wait for its answer *)
Definition joinServer (turns : nat) (dest_addr : list byte) : M S unit :=
  let! s := get in
  let a := fi_av_insert dest_addr (s_ext (cx_sys s)) in
  put (with_conn (fun c => set_remote (sm_insert IOC_LF_SERVER_ID a.1.2 (remoteLiAddr c)) (nextEndpointId c) c) (with_ext a.2 s)) ;;
  guard_ FSystem (a.1.1 =? 1) ;;
  let! s := get in
  let g := fi_getname (s_ext (cx_sys s)) in
  put (with_ext g.2 s) ;;
  guard_ FSystem (g.1.1.1 =? 0) ;;
  assert_ (g.1.1.2 <=? IOC_LF_MAX_ADDR_LEN) ;;
  modify (with_conn (registerHook (msg_code IOC_LF_MSG_ASSIGN_ID) None)) ;;
  sendMessageNoPollWakeup fuel IOC_LF_MSG_CONNECT_INIT IOC_LF_SERVER_ID (mkFirstClient g.1.2) ;;
  poll turns true.

(** LibfabricConnection::broadcastErrrorMessage, without the buffer it allocates
    and frees *)
Definition broadcastErrrorMessage (message : list byte) : M S unit :=
  modify (with_conn (fun c => set_flags (checkClientAuth c) true c)) ;;
  let! m := conn remoteLiAddr in
  for_each (map fst m) (fun id => sendNop fuel IOC_LF_MSG_FATAL_ERROR id (mkError message) true) ;;
  for_each (map fst m) (fun _ => poll fuel true).
End dispatch.
End Dispatch.
