(* ===== verification/ConnectionInv.v ===== *)
(** * The invariant of the connection

    Who owns what: every operation posted to libfabric has one live post action
    until its completion is handled, [pendingAction] counts them, each registered
    block that is not one of the application is a message buffer of the pool or
    attached to one of these actions, and each receive buffer is posted, waiting in
    the queue of completions, or in the hands of a handler: none is lost. *)

From Stdlib Require Import String.
From S2P Require Import Prelude StdMap Memory Serializer Protocol System Fabric LibfabricDomain ClientRegistry Connection.

Module ConnectionInv.
Import Serializer Protocol LibfabricDomain ClientRegistry Connection.

(** The contexts of the operations, and the receive buffers, of a list of entries. *)
Definition ops_of (l : list fi_cq_msg_entry) : list Z := e_op_context <$> filter (fun e => e_recv e = false) l.
Definition recvs_of (l : list fi_cq_msg_entry) : list Z := e_op_context <$> filter (fun e => e_recv e = true) l.

Lemma ops_of_app l l' : ops_of (l ++ l') = ops_of l ++ ops_of l'.
Proof. unfold ops_of. by rewrite filter_app, fmap_app. Qed.
Lemma recvs_of_app l l' : recvs_of (l ++ l') = recvs_of l ++ recvs_of l'.
Proof. unfold recvs_of. by rewrite filter_app, fmap_app. Qed.

(** The registered blocks that the application uses, which are not message buffers. *)
Class Users := user_block : Z -> Prop.
Definition no_users : Users := fun _ => False.

Section inv.
Context {X Hook Cb A : Type} `{Libc X} `{!LibcOk X} `{Libfabric X} `{!LibfabricOk X} `{Fabric X} `{!FabricOk X} {users : Users}.
Abbreviation S := (Cx X Hook Cb A).
Implicit Types (s : S) (G : heap).

(** The receive buffers that a function gives back when it runs. *)
Variable cb_holds : Cb -> list Z.

Definition ep s : endpoint := fa_ep (s_ext (cx_sys s)).
Definition flight s : list Z := ep_ops (ep s) ++ ops_of (cqEntries (cx_conn s)).

Definition buffer_of (m : gmap Z (LibfabricPostAction Cb)) (a : Z) : list Z :=
  match m !! a with
  | Some act => if pa_domainBuffer act =? 0 then [] else [pa_domainBuffer act]
  | None => []
  end.
Definition holds_of (m : gmap Z (LibfabricPostAction Cb)) (a : Z) : list Z :=
  match m !! a with
  | Some act => match pa_body act with Function f => cb_holds f | Nop _ => [] end
  | None => []
  end.
Definition bufs (m : gmap Z (LibfabricPostAction Cb)) (l : list Z) : list Z := l ≫= buffer_of m.
Definition owed (m : gmap Z (LibfabricPostAction Cb)) (l : list Z) : list Z := l ≫= holds_of m.

(** The address is in a live block that is not one of the message buffers [l]. *)
Definition foreign G (l : list Z) (a : Z) : Prop :=
  exists p n r, G !! p = Some (n, r) /\ p <= a < p + n /\ p ∉ l.

(** The receive buffers, wherever they are. *)
Definition all_recvs s (held : list Z) : list Z :=
  ep_recvs (ep s) ++ recvs_of (cqEntries (cx_conn s)) ++ held ++ owed (cx_actions s) (flight s).
(** The message buffers. *)
Definition all_bufs s (busy : list Z) : list Z :=
  msgBuffers (s_domain (cx_sys s)) ++ bufs (cx_actions s) (flight s ++ busy).

(** [held] are the receive buffers of the running handler, [busy] the actions
    that are neither under way nor done, [d] what [pendingAction] counts of them.
    [co_bufs], [co_flown] and [co_all] say that nothing is lost: a registered block is
    the application's or a message buffer that is free or attached, an action that has
    a message buffer is under way or [busy], and a receive buffer that is not in the
    hands of libfabric, in the queue or kept by a function is [held]. *)
Record conn_ok G (held busy : list Z) (d : Z) s : Prop := {
  co_pool : pool_ok (cx_sys s) G (bufs (cx_actions s) (flight s ++ busy));
  co_target : forall a, fa_target (s_ext (cx_sys s)) a -> foreign G (all_bufs s busy) a;
  co_pending : pendingAction (cx_conn s) = Z.of_nat (length (flight s)) + d;
  co_nodup : NoDup (flight s ++ busy);
  co_live : forall a, a ∈ flight s ++ busy -> is_Some (cx_actions s !! a);
  co_acts : forall a act, cx_actions s !! a = Some act -> 0 < a < cx_nextAction s /\
    pa_bufferId act = IOC_LF_NO_BUFFER /\ (pa_connection act = false -> pa_domainBuffer act = 0);
  co_next : 0 < cx_nextAction s;
  co_recvs : NoDup (all_recvs s held);
  co_ids : forall id, id ∈ all_recvs s held -> 0 <= id < Z.of_nat (length (recvBuffers (cx_conn s)));
  co_rbufs : forall p, p ∈ recvBuffers (cx_conn s) -> G !! p = Some (recvBuffersSize (cx_conn s), false);
  co_bufs : forall p n, G !! p = Some (n, true) -> user_block p \/ p ∈ all_bufs s busy;
  co_flown : forall a act, cx_actions s !! a = Some act -> pa_domainBuffer act <> 0 -> a ∈ flight s ++ busy;
  co_all : forall id, 0 <= id < Z.of_nat (length (recvBuffers (cx_conn s))) -> id ∈ all_recvs s held;
}.

(** What happens while completions are only put aside. *)
Record quiet s s' : Prop := {
  q_actions : cx_actions s' = cx_actions s;
  q_next : cx_nextAction s' = cx_nextAction s;
  q_app : cx_app s' = cx_app s;
  q_domain : s_domain (cx_sys s') = s_domain (cx_sys s);
  q_live : lc_live (s_ext (cx_sys s')) = lc_live (s_ext (cx_sys s));
  q_conn : cx_conn s' = set_queue (cqEntries (cx_conn s')) (pendingAction (cx_conn s')) (cx_conn s);
  q_mem : forall a, ~ fa_target (s_ext (cx_sys s)) a -> cx_mem s' a = cx_mem s a;
  q_target : forall a, fa_target (s_ext (cx_sys s')) a -> fa_target (s_ext (cx_sys s)) a;
}.

Lemma quiet_refl s : quiet s s.
Proof. constructor; try done. by destruct (cx_conn s). Qed.
Lemma quiet_trans s1 s2 s3 : quiet s1 s2 -> quiet s2 s3 -> quiet s1 s3.
Proof.
  intros [] []. constructor; try congruence; auto.
  - rewrite q_conn1, q_conn0. by destruct (cx_conn s1).
  - intros a Ha. rewrite q_mem1, q_mem0; auto.
Qed.

(** [l] are the completions handled between two states, in order: of those that
    were put aside and those that libfabric has given since, all but the ones that
    are still put aside. *)
Definition takes (l : list fi_cq_msg_entry) s s' : Prop :=
  exists given, ep_read (ep s') = ep_read (ep s) ++ given /\ cqEntries (cx_conn s) ++ given = l ++ cqEntries (cx_conn s').

Lemma takes_none s s' : ep_read (ep s') = ep_read (ep s) -> cqEntries (cx_conn s') = cqEntries (cx_conn s) -> takes [] s s'.
Proof. intros Er Ec. exists []. by rewrite Er, Ec, !app_nil_r. Qed.
Lemma takes_trans l1 l2 s1 s2 s3 : takes l1 s1 s2 -> takes l2 s2 s3 -> takes (l1 ++ l2) s1 s3.
Proof.
  intros (g1 & R1 & C1) (g2 & R2 & C2). exists (g1 ++ g2). rewrite R2, R1, app_assoc. split; [done|].
  by rewrite app_assoc, C1, <- !app_assoc, C2.
Qed.

#[export] Instance bufs_perm m : Proper ((≡ₚ) ==> (≡ₚ)) (bufs m).
Proof. intros l l' Hl. unfold bufs. by rewrite Hl. Qed.
#[export] Instance owed_perm m : Proper ((≡ₚ) ==> (≡ₚ)) (owed m).
Proof. intros l l' Hl. unfold owed. by rewrite Hl. Qed.

Lemma pool_ok_perm (x : Sys X) G l l' : l ≡ₚ l' -> pool_ok x G l -> pool_ok x G l'.
Proof. intros Hl [Hr Hn Hs Hp]. constructor; [done|by rewrite <- Hl| |done]. intros p. rewrite <- Hl. apply Hs. Qed.

Lemma foreign_perm G l l' a : l ≡ₚ l' -> foreign G l a -> foreign G l' a.
Proof. intros Hl (p & n & r & Hp & Ha & Hn). exists p, n, r. by rewrite <- Hl. Qed.

(** A quiet change that moves the operations and the receive buffers. *)
Lemma conn_ok_quiet G held busy d s held' busy' d' s' :
  conn_ok G held busy d s -> quiet s s' ->
  flight s' ++ busy' ≡ₚ flight s ++ busy ->
  pendingAction (cx_conn s') = Z.of_nat (length (flight s')) + d' ->
  all_recvs s' held' ≡ₚ all_recvs s held ->
  conn_ok G held' busy' d' s'.
Proof.
  intros [] [] Hf Hp Hr. constructor; try done.
  - rewrite q_actions0. apply (pool_ok_perm _ _ (bufs (cx_actions s) (flight s ++ busy))); [by rewrite Hf|].
    destruct co_pool0 as [Hrep Hn Hs Hpos]. constructor; rewrite ?q_domain0; try done.
    destruct Hrep as [Hl Hc Hg]. constructor; rewrite ?q_domain0; try done. by rewrite q_live0.
  - intros a Ha. eapply foreign_perm; [|by apply co_target0, q_target0].
    unfold all_bufs. by rewrite q_domain0, q_actions0, Hf.
  - by rewrite Hf.
  - intros a. rewrite Hf, q_actions0. apply co_live0.
  - by rewrite q_actions0, q_next0.
  - by rewrite q_next0.
  - by rewrite Hr.
  - intros id. rewrite Hr, q_conn0. apply co_ids0.
  - rewrite q_conn0. apply co_rbufs0.
  - intros p n Hp1%co_bufs0. unfold all_bufs in *. by rewrite q_domain0, q_actions0, Hf.
  - intros a act. rewrite q_actions0, Hf. apply co_flown0.
  - intros id. rewrite Hr, q_conn0. apply co_all0.
Qed.

(** *** Completions *)

(** What the invariant becomes when the entry is taken. *)
Definition with_entry G (held busy : list Z) (d : Z) (r : option fi_cq_msg_entry) s : Prop :=
  match r with
  | None => conn_ok G held busy d s
  | Some (mkEntry true id) => conn_ok G (id :: held) busy d s
  | Some (mkEntry false a) => conn_ok G (owed (cx_actions s) [a] ++ held) (a :: busy) (d + 1) s
  end.

(** The state of the queue of libfabric after a read. *)
Record read_queue s (r : option fi_cq_msg_entry) s' : Prop := {
  rq_quiet : quiet s s';
  rq_cache : cqEntries (cx_conn s') = cqEntries (cx_conn s);
  rq_pending : pendingAction (cx_conn s') = pendingAction (cx_conn s);
  rq_sent : ep_sent (ep s') = ep_sent (ep s);
  rq_refusals : (ep_refusals (ep s') <= ep_refusals (ep s))%nat;
  rq_read : ep_read (ep s') = ep_read (ep s) ++ option_list r;
  rq_entry : match r with
    | Some (mkEntry true id) => ep_recvs (ep s) ≡ₚ id :: ep_recvs (ep s') /\ ep_ops (ep s') = ep_ops (ep s)
    | Some (mkEntry false c) => ep_ops (ep s) ≡ₚ c :: ep_ops (ep s') /\ ep_recvs (ep s') = ep_recvs (ep s)
    | None => ep_ops (ep s') = ep_ops (ep s) /\ ep_recvs (ep s') = ep_recvs (ep s)
    end;
}.

Definition queue_step passive s : option fi_cq_msg_entry * S :=
  let r := fi_cq_read passive (cx_mem s) (s_ext (cx_sys s)) in
  (match r.1.1 with CQ_ENTRY e => Some e | _ => None end, with_mem r.1.2 (with_ext r.2 s)).

Lemma queue_step_read passive s : read_queue s (queue_step passive s).1 (queue_step passive s).2.
Proof.
  unfold queue_step. set (r := fi_cq_read _ _ _). pose proof (fi_cq_read_ok (s_ext (cx_sys s)) passive (cx_mem s)) as Ht. fold r in Ht.
  destruct Ht as (Hs & Hr & He). constructor; try done.
  - constructor; try done; simpl; try apply fi_cq_read_live.
    + by destruct (cx_conn s).
    + intros a Ha. by apply fi_cq_read_mem.
    + intros a. apply fi_cq_read_target.
  - simpl. unfold ep at 1. simpl. destruct (r.1.1) as [[[] c]| |]; simpl; rewrite ?app_nil_r; apply He.
  - simpl. unfold ep. simpl. destruct (r.1.1) as [[[] c]| |]; simpl; try apply He; destruct He as (? & ? & ?); done.
Qed.

Lemma read_queue_ok G held busy d s r s' :
  conn_ok G held busy d s -> read_queue s r s' -> with_entry G held busy d r s'.
Proof.
  intros Hc [Hq Hca Hp _ _ _ He]. pose proof (co_pending _ _ _ _ _ Hc) as Hn. pose proof (q_actions _ _ Hq) as Ha.
  unfold flight in Hn. destruct r as [[[] c]|]; destruct He as [He1 He2]; (eapply conn_ok_quiet; [exact Hc|exact Hq|..]);
    unfold all_recvs, flight; rewrite ?Hca, ?Hp, ?Ha, ?He2; try done.
  - rewrite He1. solve_Permutation.
  - rewrite He1. solve_Permutation.
  - rewrite Hn, !length_app, (Permutation_length He1). simpl. lia.
  - rewrite He1. unfold owed. rewrite !bind_app. simpl. rewrite app_nil_r. solve_Permutation.
  - by rewrite He1.
  - by rewrite Hn, He1.
  - by rewrite He1.
Qed.

(** Taking the oldest entry put aside. *)
Lemma cached_ok G held busy d s e rest :
  conn_ok G held busy d s -> cqEntries (cx_conn s) = e :: rest ->
  let s' := with_conn (set_queue rest (pendingAction (cx_conn s))) s in
  quiet s s' /\ with_entry G held busy d (Some e) s'.
Proof.
  intros Hc Hq s'. assert (quiet s s') as Hqt by by constructor. split; [done|].
  pose proof (co_pending _ _ _ _ _ Hc) as Hn. unfold flight in Hn. rewrite Hq in Hn.
  destruct e as [[] c]; simpl; (eapply conn_ok_quiet; [exact Hc|exact Hqt|..]); unfold flight, all_recvs, flight in *; simpl; rewrite ?Hq.
  - done.
  - done.
  - unfold recvs_of, ops_of. simpl. solve_Permutation.
  - unfold ops_of. simpl. solve_Permutation.
  - rewrite Hn. change (ops_of (mkEntry false c :: rest)) with (c :: ops_of rest). rewrite !length_app. unfold ep. simpl. lia.
  - unfold recvs_of, ops_of, owed. simpl. rewrite !bind_app. simpl. rewrite app_nil_r. solve_Permutation.
Qed.

Lemma wp_pollForCompletion G held busy d s passive acceptCache :
  conn_ok G held busy d s ->
  wp never (pollForCompletion passive acceptCache) (fun r s' => quiet s s' /\ with_entry G held busy d r s') s.
Proof.
  intros Hc. unfold pollForCompletion. apply wp_bind, wp_gets.
  pose proof (queue_step_read passive s) as Hr. pose proof (read_queue_ok _ _ _ _ _ _ _ Hc Hr) as Ho. pose proof (rq_quiet _ _ _ Hr) as Hq.
  destruct acceptCache; [|by apply wp_bind, wp_ret]. destruct (cqEntries (cx_conn s)) as [|e rest] eqn:El; [by apply wp_bind, wp_ret|].
  apply wp_bind, wp_modify, wp_ret. by apply cached_ok.
Qed.

(** The completion that is returned is the one that is handled. *)
Lemma poll_takes passive s : wp never (pollForCompletion passive true) (fun r s' => takes (option_list r) s s') s.
Proof.
  unfold pollForCompletion. apply wp_bind, wp_gets. pose proof (queue_step_read passive s) as [_ Hca _ _ _ Hrd _].
  destruct (cqEntries (cx_conn s)) as [|e rest] eqn:El; [apply wp_bind, wp_ret|apply wp_bind, wp_modify, wp_ret].
  - exists (option_list (queue_step passive s).1). split; [exact Hrd|]. rewrite El. simpl. by rewrite El, app_nil_r.
  - exists []. rewrite El, !app_nil_r. done.
Qed.

(** *** The completions put aside *)

(** The entries read since [s] are at the end of the cache, in order. *)
Record drained s s' : Prop := {
  dr_quiet : quiet s s';
  dr_pending : pendingAction (cx_conn s') = pendingAction (cx_conn s);
  dr_sent : ep_sent (ep s') = ep_sent (ep s);
  dr_refusals : (ep_refusals (ep s') <= ep_refusals (ep s))%nat;
  dr_busy : (ep_busy (ep s') <= ep_busy (ep s))%nat;
  dr_cache : exists l, cqEntries (cx_conn s') = cqEntries (cx_conn s) ++ l /\ ep_read (ep s') = ep_read (ep s) ++ l;
}.

Lemma drained_trans s1 s2 s3 : drained s1 s2 -> drained s2 s3 -> drained s1 s3.
Proof.
  intros [Q P T R B (l & C & D)] [Q' P' T' R' B' (l' & C' & D')]. constructor; try (congruence || lia); [by eapply quiet_trans|].
  exists (l ++ l'). by rewrite C', D', C, D, !app_assoc.
Qed.

Lemma drained_takes s s' : drained s s' -> takes [] s s'.
Proof. intros [_ _ _ _ _ (l & Hc & Hr)]. exists l. by rewrite Hc, Hr. Qed.

Definition put_aside (e : fi_cq_msg_entry) s : S := with_conn (fun c => set_queue (cqEntries c ++ [e]) (pendingAction c) c) s.

Lemma put_aside_drained s e s1 :
  read_queue s (Some e) s1 -> drained s (put_aside e s1) /\ (ep_busy (ep (put_aside e s1)) < ep_busy (ep s))%nat.
Proof.
  intros [Hq Hca Hp Hsn Hrf Hrd He].
  assert (ep_busy (ep (put_aside e s1)) < ep_busy (ep s))%nat as Hb.
  { unfold ep_busy. change (ep (put_aside e s1)) with (ep s1). destruct e as [[] c]; destruct He as [He ->]; rewrite (Permutation_length He); simpl; lia. }
  split; [|exact Hb]. constructor; try done; [eapply quiet_trans; [exact Hq|by constructor]|lia|]. exists [e]. simpl. by rewrite Hca.
Qed.

Lemma put_aside_ok G held busy d s e s1 :
  conn_ok G held busy d s -> read_queue s (Some e) s1 -> conn_ok G held busy d (put_aside e s1).
Proof.
  intros Hc Hr. pose proof (dr_quiet _ _ (proj1 (put_aside_drained _ _ _ Hr))) as Hq'. destruct Hr as [Hq Hca Hp Hsn Hrf Hrd He].
  pose proof (co_pending _ _ _ _ _ Hc) as Hn. pose proof (q_actions _ _ Hq) as Ha. unfold flight in Hn.
  destruct e as [[] c]; destruct He as [He1 He2]; (eapply conn_ok_quiet; [exact Hc|exact Hq'|..]);
    unfold all_recvs, flight; change (ep (put_aside _ s1)) with (ep s1); simpl; rewrite ?Hca, ?Hp, ?Ha, ?ops_of_app, ?recvs_of_app, ?He2; simpl.
  - rewrite app_nil_r. done.
  - by rewrite app_nil_r.
  - rewrite app_nil_r, He1. unfold recvs_of at 2. simpl. solve_Permutation.
  - rewrite He1. unfold ops_of at 2. simpl. solve_Permutation.
  - rewrite Hn, !length_app, (Permutation_length He1). simpl. lia.
  - rewrite He1. unfold recvs_of at 2, ops_of at 2. simpl. rewrite app_nil_r. unfold owed. rewrite !bind_app. simpl. solve_Permutation.
Qed.

Lemma drained_none s s' : read_queue s None s' -> drained s s'.
Proof.
  intros [Hq Hca Hp Hsn Hrf Hrd [He1 He2]]. constructor; try done.
  - unfold ep_busy. by rewrite He1, He2.
  - exists []. rewrite app_nil_r. split; [done|]. exact Hrd.
Qed.

(** One turn of the loop. *)
Lemma pollAllCqInCache_step n s :
  pollAllCqInCache (Datatypes.S n) s =
  match (queue_step false s).1 with
  | Some e => pollAllCqInCache n (put_aside e (queue_step false s).2)
  | None => Ok (tt, (queue_step false s).2)
  end.
Proof.
  cbn [pollAllCqInCache]. unfold pollForCompletion, queue_step, bind, get, put, modify, ret. cbn [fst snd].
  by destruct (fi_cq_read false (cx_mem s) (s_ext (cx_sys s))).1.1.
Qed.

Lemma wp_drain n s I :
  (forall s e s1, I s -> read_queue s (Some e) s1 -> I (put_aside e s1)) -> (forall s s1, I s -> read_queue s None s1 -> I s1) ->
  I s -> (ep_busy (ep s) < n)%nat -> wp never (pollAllCqInCache n) (fun _ s' => drained s s' /\ I s') s.
Proof.
  intros Hput Hnone. revert s. induction n as [|n IH]; intros s Hs Hn; [lia|]. unfold wp. rewrite pollAllCqInCache_step.
  pose proof (queue_step_read false s) as Hr. destruct (queue_step false s) as [[e|] s1]; cbn [fst snd] in *.
  - destruct (put_aside_drained _ _ _ Hr) as [Hd Hb].
    pose proof (IH (put_aside e s1) (Hput _ _ _ Hs Hr) ltac:(lia)) as Hw. unfold wp in Hw.
    destruct (pollAllCqInCache n _) as [[[] s2]|]; [|done]. destruct Hw as [Hd2 Hi]. split; [|done]. by eapply drained_trans.
  - split; [by apply drained_none|by eapply Hnone].
Qed.

Lemma wp_pollAllCqInCache n G held busy d s :
  conn_ok G held busy d s -> (ep_busy (ep s) < n)%nat ->
  wp never (pollAllCqInCache n) (fun _ s' => drained s s' /\ conn_ok G held busy d s') s.
Proof.
  apply (wp_drain n s (conn_ok G held busy d)).
  - intros. by eapply put_aside_ok.
  - intros s0 s1 Hc Hr. exact (read_queue_ok _ _ _ _ _ _ _ Hc Hr).
Qed.

(** *** Posting an operation *)
Variable fuel : nat.

(** Enough turns for the loops: more than the operations and receive buffers
    under way and than the refusals to come. *)
Definition patient s : Prop := (ep_busy (ep s) < fuel)%nat /\ (ep_refusals (ep s) < fuel)%nat.

Lemma drained_patient s s' : drained s s' -> patient s -> patient s'.
Proof. intros [] [? ?]. split; lia. Qed.

(** The loop ends when each refusal brings the next one closer to the last. *)
Lemma wp_retry F (I : S -> Prop) (Q : Z -> S -> Prop) post n s :
  I s -> (ep_refusals (ep s) < n)%nat ->
  (forall s, I s -> wp F post (fun err s1 =>
     if err =? - FI_EAGAIN
     then wp F (pollAllCqInCache fuel) (fun _ s2 => I s2 /\ (ep_refusals (ep s2) < ep_refusals (ep s))%nat) s1
     else Q err s1) s) ->
  wp F (retry fuel n post) Q s.
Proof.
  intros HI Hn Hstep. revert s HI Hn. induction n as [|n IH]; intros s HI Hn; [lia|]. cbn [retry]. apply wp_bind.
  eapply wp_mono; [by apply Hstep|]. intros err s1 H1'. simpl in H1'. destruct (err =? - FI_EAGAIN); [|by apply wp_ret].
  apply wp_bind. eapply wp_mono; [exact H1'|]. intros _ s2 [HI2 Hlt]. apply IH; [done|lia].
Qed.

(** A post that libfabric refuses for now. *)
Lemma refused G held busy d s x err c msg :
  conn_ok G held busy d s -> patient s -> posted err c msg (ep s) (fa_ep x) -> err = - FI_EAGAIN ->
  lc_live x = lc_live (s_ext (cx_sys s)) -> (forall a, fa_target x a -> fa_target (s_ext (cx_sys s)) a) ->
  wp never (pollAllCqInCache fuel) (fun _ s2 => conn_ok G held busy d s2 /\ patient s2 /\
    (ep_refusals (ep s2) < ep_refusals (ep s))%nat /\ quiet s s2 /\
    pendingAction (cx_conn s2) = pendingAction (cx_conn s) /\ ep_sent (ep s2) = ep_sent (ep s) /\ takes [] s s2) (with_ext x s).
Proof.
  intros Hc [Hp1 Hp2] Hpost -> Hl Ht. unfold posted in Hpost. simpl in Hpost. destruct Hpost as (E1 & E2 & E3 & E4 & E5).
  specialize (E5 eq_refl). change (fa_ep x) with (ep (with_ext x s)) in *.
  assert (quiet s (with_ext x s)) as Hq.
  { constructor; try done. simpl. by destruct (cx_conn s). }
  assert (conn_ok G held busy d (with_ext x s)) as Hc1.
  { eapply conn_ok_quiet; [exact Hc|exact Hq|..]; unfold all_recvs, flight; rewrite E1, ?E2; try done. apply (co_pending _ _ _ _ _ Hc). }
  eapply wp_mono; [apply wp_pollAllCqInCache; [exact Hc1|]|].
  - unfold ep_busy in *. by rewrite E1, E2.
  - intros _ s2 [Hdr Hc2]. pose proof (drained_takes _ _ Hdr) as Htk. destruct Hdr as [Q P T R B _]. split; [done|].
    unfold ep_busy in B. rewrite E1, E2 in B. split; [split; [unfold ep_busy in *; lia|lia]|].
    split; [lia|]. split; [by eapply quiet_trans|]. split; [exact P|]. split; [by rewrite T|].
    apply (takes_trans [] [] _ (with_ext x s)); [by apply takes_none|done].
Qed.

(** A post that libfabric takes. *)
Lemma accepted G held busy d s x c msg :
  conn_ok G (owed (cx_actions s) [c] ++ held) (c :: busy) d s -> posted 0 c msg (ep s) (fa_ep x) ->
  lc_live x = lc_live (s_ext (cx_sys s)) -> (forall a, fa_target x a -> foreign G (all_bufs s (c :: busy)) a) ->
  conn_ok G held busy d (with_conn (fun k => set_queue (cqEntries k) (pendingAction k + 1) k) (with_ext x s)).
Proof.
  intros Hc Hpost Hl Ht. unfold posted in Hpost. simpl in Hpost. destruct Hpost as (E1 & E2 & E3 & E4).
  set (s' := with_conn _ _). change (fa_ep x) with (ep s') in *.
  assert (flight s' ++ busy ≡ₚ flight s ++ c :: busy) as Hf.
  { unfold flight. simpl. rewrite E1. solve_Permutation. }
  assert (all_recvs s' held ≡ₚ all_recvs s (owed (cx_actions s) [c] ++ held)) as Hr.
  { unfold all_recvs, flight. simpl. rewrite E1, E2. unfold owed. simpl. rewrite !app_nil_r. solve_Permutation. }
  destruct Hc. constructor; try done; simpl.
  - eapply pool_ok_perm; [by rewrite Hf|]. destruct co_pool0 as [[Hrl Hrc Hrg] Hn Hs Hpos]. constructor; try done. constructor; try done. by etransitivity; [exact Hl|].
  - intros a Ha. eapply foreign_perm; [|by apply Ht]. unfold all_bufs. simpl. by rewrite Hf.
  - rewrite co_pending0. unfold flight. simpl. rewrite !length_app, (Permutation_length E1). simpl. lia.
  - by rewrite Hf.
  - intros a. rewrite Hf. apply co_live0.
  - by rewrite Hr.
  - intros id. rewrite Hr. apply co_ids0.
  - intros p n Hp%co_bufs0. unfold all_bufs in *. simpl. by rewrite Hf.
  - intros a act. rewrite Hf. apply co_flown0.
  - intros id. rewrite Hr. apply co_all0.
Qed.

Definition counted s : S := with_conn (fun k => set_queue (cqEntries k) (pendingAction k + 1) k) s.

Lemma counted_quiet s x :
  lc_live x = lc_live (s_ext (cx_sys s)) -> (forall a, fa_target x a -> fa_target (s_ext (cx_sys s)) a) -> quiet s (counted (with_ext x s)).
Proof. intros Hl Ht. by constructor. Qed.

(** The message reaches libfabric once, whatever the refusals before. *)
Lemma wp_sendRawMessage G held busy d s buffer size dest a addr :
  conn_ok G (owed (cx_actions s) [a] ++ held) (a :: busy) d s -> patient s ->
  buffer <> 0 -> size <= recvBuffersSize (cx_conn s) -> sm_find dest (remoteLiAddr (cx_conn s)) = Some addr ->
  (forall x, buffer <= x < buffer + size -> ~ fa_target (s_ext (cx_sys s)) x) ->
  wp resource (sendRawMessage fuel buffer size dest a)
    (fun _ s' => conn_ok G held busy d s' /\ quiet s s' /\ pendingAction (cx_conn s') = pendingAction (cx_conn s) + 1 /\
       ep_sent (ep s') = ep_sent (ep s) ++ [(addr, rd (cx_mem s) buffer size)] /\ takes [] s s') s.
Proof.
  intros Hc Hp Hb Hs Hd Ht. unfold sendRawMessage. apply wp_bind, wp_guard; [by apply negb_true_iff, Z.eqb_neq|].
  apply wp_bind, wp_gets. apply wp_bind, wp_guard; [by apply Z.leb_le|].
  apply wp_bind. unfold find_remote. apply wp_bind, wp_gets, (wp_of_option _ _ _ addr); [done|]. apply wp_bind.
  set (I := fun t => conn_ok G (owed (cx_actions s) [a] ++ held) (a :: busy) d t /\ patient t /\ quiet s t /\
    pendingAction (cx_conn t) = pendingAction (cx_conn s) /\ ep_sent (ep t) = ep_sent (ep s) /\ takes [] s t).
  apply (wp_retry _ I); [split_and!; try done; [apply quiet_refl|by apply takes_none]|apply Hp|].
  intros t (Hct & Hpt & Hq & Hpend & Hsent & Htk). apply wp_bind, wp_gets. unfold fabric, wp at 1.
  assert (rd (cx_mem t) buffer size = rd (cx_mem s) buffer size) as ->.
  { apply rd_ext. intros x Hx. apply (q_mem _ _ Hq). by apply Ht. }
  set (msg := rd (cx_mem s) buffer size). pose proof (fi_send_ok (s_ext (cx_sys t)) addr msg a) as Hpost.
  set (r := fi_send addr msg a (s_ext (cx_sys t))) in *.
  assert (lc_live r.2 = lc_live (s_ext (cx_sys t))) as Hl by apply fi_send_live.
  assert (forall b, fa_target r.2 b -> fa_target (s_ext (cx_sys t)) b) as Htt by (intros b; apply fi_send_target).
  destruct (r.1 =? - FI_EAGAIN) eqn:Ee.
  - apply Z.eqb_eq in Ee. apply wp_never. eapply wp_mono; [by eapply (refused _ _ _ _ t r.2 r.1)|].
    intros _ s2 (H21 & H22 & H23 & H24 & H25 & H26 & H27). split; [|done].
    split_and!; try done; [by eapply quiet_trans|congruence|congruence|exact (takes_trans [] [] _ _ _ Htk H27)].
  - unfold guard_. destruct (r.1 =? 0) eqn:E0; [|by right]. apply Z.eqb_eq in E0. rewrite E0 in Hpost.
    apply wp_bind, wp_ret, wp_modify. fold (counted (with_ext r.2 t)). split; [|split; [|split; [|split]]].
    + rewrite <- (q_actions _ _ Hq) in Hct. apply (accepted _ _ _ _ _ _ _ [(addr, msg)] Hct Hpost Hl).
      intros b Hb'. by apply (co_target _ _ _ _ _ Hct), Htt.
    + eapply quiet_trans; [exact Hq|]. by apply counted_quiet.
    + simpl. by rewrite Hpend.
    + unfold posted in Hpost. simpl in Hpost. destruct Hpost as (_ & _ & Hm & _). etransitivity; [exact Hm|].
      change (fa_ep (s_ext (cx_sys t))) with (ep t). by rewrite Hsent.
    + apply (takes_trans [] [] _ _ _ Htk), takes_none; [|done]. unfold posted in Hpost. simpl in Hpost. by destruct Hpost as (_ & _ & _ & Hr).
Qed.

(** *** Actions *)
Lemma bufs_insert_ne m a act l : a ∉ l -> bufs (<[a := act]> m) l = bufs m l.
Proof.
  intros Ha. unfold bufs. induction l as [|b l IH]; [done|]. rewrite not_elem_of_cons in Ha. destruct Ha as [Hne Ha].
  rewrite !bind_cons, IH by done. unfold buffer_of. by rewrite lookup_insert_ne.
Qed.
Lemma owed_insert_ne m a act l : a ∉ l -> owed (<[a := act]> m) l = owed m l.
Proof.
  intros Ha. unfold owed. induction l as [|b l IH]; [done|]. rewrite not_elem_of_cons in Ha. destruct Ha as [Hne Ha].
  rewrite !bind_cons, IH by done. unfold holds_of. by rewrite lookup_insert_ne.
Qed.

Definition body_holds (b : action_body Cb) : list Z := match b with Function f => cb_holds f | Nop _ => [] end.

Lemma owed_action m a act : m !! a = Some act -> owed m [a] = body_holds (pa_body act).
Proof. intros Ha. unfold owed, holds_of. simpl. rewrite Ha, app_nil_r. done. Qed.

(** A new action, that will be posted. *)
Definition allocated body s : S := with_actions (<[cx_nextAction s := new_PostAction body]> (cx_actions s)) (cx_nextAction s + 1) s.

Lemma conn_ok_new G held busy d s body :
  conn_ok G (body_holds body ++ held) busy d s ->
  let s' := allocated body s in
  new_action body s = Ok (cx_nextAction s, s') /\ cx_actions s' !! cx_nextAction s = Some (new_PostAction body) /\
  conn_ok G (owed (cx_actions s') [cx_nextAction s] ++ held) (cx_nextAction s :: busy) d s'.
Proof.
  intros Hc s'. set (a := cx_nextAction s). assert (cx_actions s' !! a = Some (new_PostAction body)) as Ha by apply lookup_insert_eq.
  split; [done|]. split; [done|]. rewrite (owed_action _ _ _ Ha). simpl.
  assert (a ∉ flight s ++ busy) as Hn.
  { intros Hin. destruct (co_live _ _ _ _ _ Hc _ Hin) as [act Hact]. apply (co_acts _ _ _ _ _ Hc) in Hact as [? _]. lia. }
  assert (bufs (cx_actions s') (flight s' ++ a :: busy) ≡ₚ bufs (cx_actions s) (flight s ++ busy)) as Hb.
  { rewrite <- Permutation_middle. change (flight s') with (flight s). unfold bufs at 1. rewrite bind_cons.
    fold (bufs (cx_actions s') (flight s ++ busy)). unfold buffer_of. rewrite Ha. simpl. by rewrite (bufs_insert_ne _ a). }
  assert (all_bufs s' (a :: busy) ≡ₚ all_bufs s busy) as Hall by (unfold all_bufs; by rewrite Hb).
  assert (all_recvs s' (body_holds body ++ held) = all_recvs s (body_holds body ++ held)) as Hr.
  { unfold all_recvs. change (flight s') with (flight s). change (ep s') with (ep s). simpl. rewrite owed_insert_ne; [done|].
    intros Hin. apply Hn, elem_of_app. by left. }
  destruct Hc. constructor; simpl; try done.
  - eapply pool_ok_perm; [by symmetry|]. done.
  - intros x Hx. eapply foreign_perm; [by symmetry|]. by apply co_target0.
  - rewrite <- Permutation_middle. by apply NoDup_cons.
  - intros b. rewrite <- Permutation_middle. intros [->|Hin]%elem_of_cons; [by eexists|].
    rewrite lookup_insert_ne; [by apply co_live0|]. intros <-. done.
  - intros b act. destruct (decide (b = a)) as [->|Hne].
    + rewrite lookup_insert_eq. intros [= <-]. split; [lia|done].
    + rewrite lookup_insert_ne by done. intros Hb'. apply co_acts0 in Hb' as (? & ? & ?). split; [lia|done].
  - lia.
  - by rewrite Hr.
  - intros id. rewrite Hr. apply co_ids0.
  - intros p n Hp%co_bufs0. by rewrite Hall.
  - intros b act. rewrite <- Permutation_middle, elem_of_cons. destruct (decide (b = a)) as [->|Hne]; [by left|].
    rewrite lookup_insert_ne by done. intros Hb' Hne'. right. by eapply co_flown0.
  - intros id. rewrite Hr. apply co_all0.
Qed.

(** *** Message buffers *)
(** The calls on memory leave the message buffers and the endpoint alone. *)
Record sys_kept (x x' : Sys X) : Prop := {
  sk_msgs : msgBuffers (s_domain x') = msgBuffers (s_domain x);
  sk_size : msgBufferSize (s_domain x') = msgBufferSize (s_domain x);
  sk_ep : fa_ep (s_ext x') = fa_ep (s_ext x);
  sk_target : forall a, fa_target (s_ext x') a -> fa_target (s_ext x) a;
}.
#[export] Instance sys_kept_preorder : PreOrder sys_kept.
Proof.
  split; [by constructor|]. intros x y z [] []. constructor; [congruence..|auto].
Qed.

Lemma malloc_kept n (x : Sys X) : wp any (malloc n) (fun _ x' => sys_kept x x') x.
Proof. unfold malloc, wp. constructor; simpl; try done; [apply lc_malloc_ep|]. intros a. apply lc_malloc_target. Qed.

Lemma registerSegment_kept p n r w pm (x : Sys X) : 
  wp any (registerSegment p n r w pm) (fun _ x' => sys_kept x x' /\ lc_live (s_ext x') = lc_live (s_ext x)) x.
Proof.
  unfold registerSegment, getMR, assert_, guard_. apply wp_bind. destruct (negb _); [|done]. apply wp_ret, wp_bind. destruct (n >? 0); [|done].
  apply wp_ret, wp_bind, wp_bind, wp_ret, wp_bind, wp_ret, wp_gets, wp_bind. destruct (snd <$> _); [done|]. apply wp_ret. cbv zeta.
  apply wp_bind, wp_gets. set (q := fi_mr_reg _ _ _ _ _ _). apply wp_bind, wp_modify, wp_bind. destruct (q.1.1 =? 0); [|done].
  apply wp_ret, wp_bind, wp_modify, wp_gets. split; [|apply fi_mr_reg_live].
  constructor; simpl; try done; unfold q; [apply fi_mr_reg_ep|]. intros a. apply fi_mr_reg_target.
Qed.

(** A new message buffer costs calls on memory only. *)
Lemma getMsgBuffer_frame (x : Sys X) :
  wp any getMsgBuffer (fun _ x' => fa_ep (s_ext x') = fa_ep (s_ext x) /\
    (forall a, fa_target (s_ext x') a -> fa_target (s_ext x) a) /\ msgBufferSize (s_domain x') = msgBufferSize (s_domain x)) x.
Proof.
  unfold getMsgBuffer. apply wp_bind, wp_gets. destruct (last _); [by apply wp_bind, wp_modify, wp_ret|].
  apply wp_bind. unfold assume_, guard_. destruct (negb _); [|done]. apply wp_ret, wp_bind. eapply wp_mono; [apply malloc_kept|].
  intros p x1 H01. apply wp_bind. eapply wp_mono; [apply registerSegment_kept|]. intros iov x2 [H12 _]. apply wp_ret.
  destruct (transitivity H01 H12). done.
Qed.

Definition attached (a p : Z) (act : LibfabricPostAction Cb) (x : Sys X) s : S :=
  let s1 := with_sys x s in
  with_actions (<[a := mkAction (pa_body act) true (pa_isRecv act) (pa_bufferId act) p]> (cx_actions s)) (cx_nextAction s) s1.

(** The action gets a message buffer that nothing else uses. *)
Lemma attached_ok G held busy d s a act x p G' :
  conn_ok G held (a :: busy) d s -> cx_actions s !! a = Some act -> pa_connection act = false ->
  grown p G G' -> pool_ok x G' (p :: bufs (cx_actions s) (flight s ++ a :: busy)) ->
  fa_ep (s_ext x) = ep s -> (forall b, fa_target (s_ext x) b -> fa_target (s_ext (cx_sys s)) b) ->
  (forall q, q ∈ msgBuffers (s_domain (cx_sys s)) <-> q ∈ msgBuffers (s_domain x) \/ (q = p /\ G !! p <> None)) ->
  (p ∉ msgBuffers (s_domain (cx_sys s)) -> G !! p = None) ->
  conn_ok G' held (a :: busy) d (attached a p act x s).
Proof.
  intros Hc Ha Hcon [HG Hgrown] Hpool Hep Htg Hsub Hfresh. pose proof (co_acts _ _ _ _ _ Hc _ _ Ha) as (Hlt & Hid & Hz). specialize (Hz Hcon).
  pose proof (co_nodup _ _ _ _ _ Hc) as Hnd. assert (a ∉ flight s ++ busy) as Hna.
  { rewrite <- Permutation_middle in Hnd. by apply NoDup_cons in Hnd as [? _]. }
  assert (0 < p) as Hp0.
  { refine (proj1 (rep_range _ _ p _ _ (po_rep _ _ _ Hpool) (po_size _ _ _ Hpool p _))). apply elem_of_app. right. by left. }
  set (s' := attached a p act x s). change (fa_ep (s_ext x)) with (ep s') in Hep.
  assert (flight s' = flight s) as Hfl by (unfold flight; by rewrite Hep).
  assert (bufs (cx_actions s') (flight s' ++ a :: busy) ≡ₚ p :: bufs (cx_actions s) (flight s ++ a :: busy)) as Hb.
  { rewrite Hfl, <- !Permutation_middle. unfold bufs. rewrite !bind_cons. fold (bufs (cx_actions s') (flight s ++ busy)). simpl.
    rewrite (bufs_insert_ne _ a) by done. unfold buffer_of. rewrite lookup_insert_eq, Ha. simpl. rewrite Hz.
    rewrite (proj2 (Z.eqb_neq p 0)) by lia. done. }
  assert (owed (cx_actions s') (flight s') = owed (cx_actions s) (flight s)) as Ho.
  { rewrite Hfl. simpl. apply owed_insert_ne. intros Hin. apply Hna, elem_of_app. by left. }
  destruct Hc. constructor; simpl; try done.
  - eapply pool_ok_perm; [by symmetry|]. done.
  - intros b Hb'. destruct (co_target0 _ (Htg _ Hb')) as (q & n & r & Hq & Hrange & Hnin). exists q, n, r.
    split; [by eapply lookup_weaken|]. split; [done|]. unfold all_bufs. rewrite Hb. intros Hin. apply Hnin. unfold all_bufs.
    rewrite elem_of_app, elem_of_cons in Hin. rewrite elem_of_app. destruct Hin as [Hin|[->|Hin]]; [left; apply Hsub; by left| |by right].
    left. destruct (decide (p ∈ msgBuffers (s_domain (cx_sys s)))) as [|Hp']; [done|]. rewrite (Hfresh Hp') in Hq. done.
  - by rewrite Hfl.
  - by rewrite Hfl.
  - intros b. rewrite Hfl. intros Hin. destruct (decide (b = a)) as [->|Hne]; [rewrite lookup_insert_eq; by eexists|].
    rewrite lookup_insert_ne by done. by apply co_live0.
  - intros b act'. destruct (decide (b = a)) as [->|Hne]; [rewrite lookup_insert_eq|rewrite lookup_insert_ne by done; apply co_acts0].
    intros [= <-]. split; [done|]. by split.
  - unfold all_recvs. rewrite Ho, Hep. done.
  - intros id. unfold all_recvs. rewrite Ho, Hep. apply co_ids0.
  - intros q Hq. eapply lookup_weaken; [by apply co_rbufs0|done].
  - intros q n Hq. unfold all_bufs. rewrite Hb, elem_of_app, elem_of_cons. destruct (Hgrown _ _ Hq) as [->|Hq']; [by auto|].
    destruct (co_bufs0 _ _ Hq') as [Hu|Hin]; [by left|]. unfold all_bufs in Hin. rewrite elem_of_app, Hsub in Hin. tauto.
  - intros b act'. rewrite Hfl. destruct (decide (b = a)) as [->|Hne]; [intros _ _; apply elem_of_app; right; by left|].
    rewrite lookup_insert_ne by done. apply co_flown0.
  - intros id. unfold all_recvs. rewrite Ho, Hep. apply co_all0.
Qed.
End inv.
End ConnectionInv.
