(* ===== verification/ConnectionSend.v ===== *)
(** * Sending messages

    A message is serialized in a message buffer of the domain after its header,
    given once to libfabric and kept until its completion; the theorems are on the
    bytes that are sent and on the invariant of the connection. *)

From Stdlib Require Import String.
From S2P Require Import Prelude StdMap Memory Serializer Protocol System Fabric LibfabricDomain ClientRegistry Connection ConnectionInv.

Module ConnectionSend.
Import Serializer Protocol LibfabricDomain ClientRegistry Connection ConnectionInv.

(** Packing the header then the data in one buffer. *)
Lemma pack_two {T} `{MessageOk T} m p sz (h : LibfabricMessageHeader) (data : T) :
  m_wf h -> m_wf data -> 0 < p -> sz < two64 -> blen (m_bytes m h) + blen (m_bytes m data) <= sz -> apart p sz (m_regions data) ->
  exists st1 st2,
    apply_struct applySerializerDef "header" h (mkSer m p sz 0 SERIALIZER_PACK [] false true) = Ok (h, st1) /\
    apply_struct applySerializerDef "data" data st1 = Ok (data, st2) /\
    cursor st2 = blen (m_bytes m h ++ m_bytes m data) /\ forall a, s_mem st2 a = wr m p (m_bytes m h ++ m_bytes m data) a.
Proof.
  intros Hh Hd Hp Hsz Hl Ha. set (hb := m_bytes m h) in *. set (db := m_bytes m data) in *. set (st0 := mkSer m p sz 0 SERIALIZER_PACK [] false true).
  assert (pack_spec (apply_struct applySerializerDef "header" h) h hb st0) as H1'.
  { apply apply_struct_pack; [done|]. apply (pack_ok m p sz); try done; [constructor|]. repeat split; simpl; lia. }
  unfold pack_spec in H1'. rewrite decide_True in H1' by (simpl; lia). destruct H1' as (st1 & E1 & (Hb1 & Hs1 & Ha1) & Hc1 & Hm1).
  simpl in Hb1, Hs1, Ha1, Hc1, Hm1.
  assert (pack_spec (apply_struct applySerializerDef "data" data) data db st1) as H2'.
  { apply apply_struct_pack; [done|]. apply (pack_ok m p sz); try done.
    - split; [done|]. split; [done|]. intros a Hout. simpl. rewrite Hm1. apply wr_out. lia.
    - change (m_bytes m data) with db. clearbody hb db. repeat split; simpl; try done; lia. }
  unfold pack_spec in H2'. rewrite decide_True in H2' by lia. destruct H2' as (st2 & E2 & _ & Hc2 & Hm2).
  exists st1, st2. split; [done|]. split; [done|]. rewrite length_app, Nat2Z.inj_add. split; [lia|].
  intros a. rewrite Hm2, Hb1, Hc1, wr_app, Z.add_0_l. apply wr_ext. rewrite Hm1. by rewrite Z.add_0_r.
Qed.

Section send.
Context {X Hook Cb A : Type} `{Libc X} `{!LibcOk X} `{Libfabric X} `{!LibfabricOk X} `{Fabric X} `{!FabricOk X} {users : Users}.
Abbreviation S := (Cx X Hook Cb A).
Implicit Types (s : S) (G : heap).
Variable cb_holds : Cb -> list Z.
Variable fuel : nat.
Abbreviation ok := (conn_ok cb_holds).

(** The data a message points to is in live memory that is not a message buffer. *)
Definition outside G (l : list Z) (v : Z * Z) : Prop :=
  exists p n r, G !! p = Some (n, r) /\ p <= v.1 /\ v.1 + v.2 <= p + n /\ p ∉ l.

(** What a message changes: the connection counts one more action, the message
    buffers and the memory libfabric may write are the only memory touched. *)
Record message_sent s (addr : Z) (msg : list byte) s' : Prop := {
  ms_sent : ep_sent (ep s') = ep_sent (ep s) ++ [(addr, msg)];
  ms_pending : pendingAction (cx_conn s') = pendingAction (cx_conn s) + 1;
  ms_conn : cx_conn s' = set_queue (cqEntries (cx_conn s')) (pendingAction (cx_conn s')) (cx_conn s);
  ms_app : cx_app s' = cx_app s;
  ms_takes : takes [] s s';
}.

(** The only memory a message writes is its buffer [p], taken from the pool or new. *)
Record buffer_use G s (p : Z) s' : Prop := {
  bu_new : p ∈ msgBuffers (s_domain (cx_sys s)) \/ G !! p = None;
  bu_pool : forall q, q ∈ msgBuffers (s_domain (cx_sys s')) -> q ∈ msgBuffers (s_domain (cx_sys s));
  bu_acts : forall b act, cx_actions s' !! b = Some act -> pa_domainBuffer act = 0 \/ pa_domainBuffer act = p \/
    exists act0, cx_actions s !! b = Some act0 /\ pa_domainBuffer act = pa_domainBuffer act0;
  bu_mem : forall y, ~ fa_target (s_ext (cx_sys s)) y -> ~ p <= y < p + msgBufferSize (s_domain (cx_sys s)) -> cx_mem s' y = cx_mem s y;
  bu_target : forall y, fa_target (s_ext (cx_sys s')) y -> fa_target (s_ext (cx_sys s)) y;
  bu_size : msgBufferSize (s_domain (cx_sys s')) = msgBufferSize (s_domain (cx_sys s));
  bu_live : lc_live (s_ext (cx_sys s')) !! p = Some (msgBufferSize (s_domain (cx_sys s)));
}.

Lemma buffer_use_quiet G s p s1 s' : buffer_use G s p s1 -> quiet s1 s' -> buffer_use G s p s'.
Proof.
  intros [] []. constructor; rewrite ?q_actions0, ?q_domain0, ?q_live0; try done; [|by auto].
  intros y Hy Hp. rewrite q_mem0 by auto. by apply bu_mem0.
Qed.

Lemma with_ser_run {B} (m : M Ser B) st b st' s :
  m (Serializer.set_mem (fun _ => cx_mem s) st) = Ok (b, st') -> with_ser m st s = Ok ((b, st'), with_mem (s_mem st') s).
Proof. intros E. unfold with_ser. by rewrite E. Qed.

Lemma wp_eq F {B} (m m' : M S B) Q s : m s = m' s -> wp F m' Q s -> wp F m Q s.
Proof. unfold wp. by intros ->. Qed.

Lemma wp_conn_sys F {B} (m : M (Sys X) B) Q s : wp F m (fun b x => Q b (with_sys x s)) (cx_sys s) -> wp F (on_sys m) Q s.
Proof. unfold wp, on_sys. by destruct (m _) as [[b x]|f]. Qed.

Lemma set_mem_same st : Serializer.set_mem (fun _ => s_mem st) st = st.
Proof. by destruct st. Qed.

(** No message buffer meets what libfabric may write. *)
Lemma buffer_safe G held busy d s p x :
  ok G held busy d s -> p ∈ all_bufs s busy -> p <= x < p + msgBufferSize (s_domain (cx_sys s)) ->
  ~ fa_target (s_ext (cx_sys s)) x.
Proof.
  intros Hc Hp Hx Ht. destruct (co_target _ _ _ _ _ _ Hc _ Ht) as (q & n & r & Hq & Hr & Hn).
  pose proof (po_size _ _ _ (co_pool _ _ _ _ _ _ Hc) p Hp) as Hg.
  assert (p <> q) as Hne by (intros ->; done).
  pose proof (rep_apart _ _ _ _ _ _ _ _ (po_rep _ _ _ (co_pool _ _ _ _ _ _ Hc)) Hg Hq Hne) as Hd. unfold disjoint in Hd. lia.
Qed.

(** A change of the memory inside a message buffer. *)
Lemma ok_mem G held busy d s m : ok G held busy d s -> ok G held busy d (with_mem m s).
Proof. by intros []. Qed.

(** The buffer of the message, attached to its action. *)
Lemma wp_attach (F : fault -> Prop) G held busy d s a act (k : Z -> Z -> M S unit) Q :
  (forall f, pool_fault f -> F f) -> ok G held (a :: busy) d s -> cx_actions s !! a = Some act -> pa_connection act = false ->
  (forall p x G', let s' := attached a p act x s in
     G ⊆ G' -> ok G' held (a :: busy) d s' -> ep s' = ep s -> 0 < p -> p ∈ all_bufs s' (a :: busy) ->
     (p ∉ msgBuffers (s_domain (cx_sys s)) -> G !! p = None) ->
     msgBufferSize (s_domain x) = msgBufferSize (s_domain (cx_sys s)) ->
     (p ∉ bufs (cx_actions s) (flight s ++ a :: busy)) -> buffer_use G s p s' -> wp F (k p (msgBufferSize (s_domain (cx_sys s)))) Q s') ->
  wp F (let! buffer := on_sys getMsgBuffer in
                 let! bufferSize := on_sys getMsgBufferSize in attachDomainBuffer a buffer ;; k buffer bufferSize) Q s.
Proof.
  intros HF Hc Ha Hcon Hk. apply wp_bind, wp_conn_sys. eapply wp_mono.
  { eapply wp_weaken; [exact HF|]. eapply wp_also; [apply (wp_getMsgBuffer _ _ _ (co_pool _ _ _ _ _ _ Hc))|apply getMsgBuffer_frame]. }
  intros p x [(Hnin & (G' & Hgrown & Hpool) & _ & Hfresh & Hsub) (Hep & Htg & Hsz)].
  apply wp_bind, wp_conn_sys, wp_gets. simpl. rewrite Hsz. apply wp_bind. unfold attachDomainBuffer, get_action.
  apply wp_bind, wp_bind, wp_gets, (wp_of_option _ _ _ act); [done|]. pose proof (co_acts _ _ _ _ _ _ Hc _ _ Ha) as (_ & _ & Hz).
  assert (0 < p) as Hp0.
  { refine (proj1 (rep_range _ _ p _ _ (po_rep _ _ _ Hpool) (po_size _ _ _ Hpool p _))). apply elem_of_app. right. by left. }
  apply wp_bind, wp_guard; [by rewrite Hcon|]. apply wp_bind, wp_guard; [by rewrite Hz|]. apply wp_bind, wp_guard; [lia|].
  pose proof (proj1 Hgrown) as HG. apply wp_modify. apply (Hk p x G'); try done.
  - by eapply attached_ok.
  - unfold all_bufs. simpl. apply elem_of_app. right. unfold bufs. apply list_elem_of_bind. exists a. split.
    + unfold buffer_of. rewrite lookup_insert_eq. simpl. rewrite (proj2 (Z.eqb_neq p 0)) by lia. by apply list_elem_of_singleton.
    + apply elem_of_app. right. by left.
  - constructor; try done; simpl.
    + destruct (decide (p ∈ msgBuffers (s_domain (cx_sys s)))); [by left|right; by apply Hfresh].
    + intros q Hq. apply Hsub. by left.
    + intros b act'. destruct (decide (b = a)) as [->|Hne].
      * rewrite lookup_insert_eq. intros [= <-]. simpl. auto.
      * rewrite lookup_insert_ne by done. eauto.
    + rewrite <- Hsz. apply (rep_live _ _ _ _ true (po_rep _ _ _ Hpool)), (po_size _ _ _ Hpool). apply elem_of_app. right. by left.
Qed.

Lemma outside_disjoint G held busy d s p v G0 l0 :
  ok G held busy d s -> G0 ⊆ G -> p ∈ all_bufs s busy -> outside G0 l0 v -> (p ∈ l0 \/ G0 !! p = None) ->
  disjoint p (msgBufferSize (s_domain (cx_sys s))) v.1 v.2.
Proof.
  intros Hc HG Hp (q & n & r & Hq & H1' & H2' & Hn) Hl.
  pose proof (po_size _ _ _ (co_pool _ _ _ _ _ _ Hc) p Hp) as Hg.
  assert (p <> q) as Hne by (intros ->; destruct Hl; congruence).
  pose proof (rep_apart _ _ _ _ _ _ _ _ (po_rep _ _ _ (co_pool _ _ _ _ _ _ Hc)) Hg (lookup_weaken _ _ _ _ Hq HG) Hne) as Hd.
  unfold disjoint in *. lia.
Qed.

(** The message is in its buffer, attached to the action, when it is given to
    [sendRawMessage]. *)
Lemma wp_pack {T} `{MessageOk T} (F : fault -> Prop) G held busy d s a act msgType dest (data : T) Q :
  let h := fillProtocolHeader (msg_code msgType) (cx_conn s) in
  let bytes := m_bytes (cx_mem s) h ++ m_bytes (cx_mem s) data in
  (forall f, pool_fault f -> F f) ->
  ok G (owed cb_holds (cx_actions s) [a] ++ held) (a :: busy) d s ->
  cx_actions s !! a = Some act -> pa_connection act = false -> m_wf h -> m_wf data ->
  blen bytes <= msgBufferSize (s_domain (cx_sys s)) ->
  Forall (outside G (all_bufs s (a :: busy))) (m_regions data) ->
  (forall p s2 G', G ⊆ G' -> ok G' (owed cb_holds (cx_actions s2) [a] ++ held) (a :: busy) d s2 -> p <> 0 ->
     rd (cx_mem s2) p (blen bytes) = bytes -> (forall y, p <= y < p + blen bytes -> ~ fa_target (s_ext (cx_sys s2)) y) ->
     ep s2 = ep s -> cx_conn s2 = cx_conn s -> cx_app s2 = cx_app s -> buffer_use G s p s2 ->
     wp F (sendRawMessage fuel p (blen bytes) dest a) Q s2) ->
  wp F (sendMessage fuel msgType dest data a) Q s.
Proof.
  intros h bytes HF Hc Ha Hcon Hh Hw Hl1 Hreg Hk. unfold sendMessage. apply (wp_attach _ _ _ _ _ _ _ act _ _ HF Hc Ha Hcon).
  intros p x G' s1 HG Hc1 Hep Hp0 Hin Hfresh Hsz Hnin Huse. set (sz := msgBufferSize (s_domain (cx_sys s))) in *.
  pose proof (rep_range _ _ _ _ _ (po_rep _ _ _ (co_pool _ _ _ _ _ _ Hc1)) (po_size _ _ _ (co_pool _ _ _ _ _ _ Hc1) p Hin)) as (_ & Hz0 & Hz1).
  change (s_domain (cx_sys s1)) with (s_domain x) in Hz0, Hz1. rewrite Hsz in Hz0, Hz1.
  assert (apart p sz (m_regions data)) as Hap.
  { eapply Forall_impl; [exact Hreg|]. intros v Hv. rewrite <- Hsz. change (s_domain x) with (s_domain (cx_sys s1)).
    eapply (outside_disjoint _ _ _ _ s1); [exact Hc1|exact HG|exact Hin|exact Hv|]. unfold all_bufs. rewrite elem_of_app.
    destruct (decide (p ∈ msgBuffers (s_domain (cx_sys s)))); [left; by left|right; by apply Hfresh]. }
  destruct (pack_two (cx_mem s) p sz h data Hh Hw Hp0) as (st1 & st2 & E1 & E2 & Ecur & Emem); [lia| |done|].
  { unfold bytes in Hl1. rewrite length_app, Nat2Z.inj_add in Hl1. lia. }
  fold bytes in Ecur, Emem. clearbody bytes.
  apply wp_bind, wp_gets. change (fillProtocolHeader _ (cx_conn s1)) with h. eapply wp_bind, wp_of_Ok.
  { unfold new_serializer, init_buffer. rewrite (proj2 (Z.eqb_neq p 0)) by lia. replace (sz >? 0) with true by lia. done. }
  eapply wp_bind, wp_of_Ok; [apply with_ser_run; exact E1|]. cbn [snd].
  eapply wp_bind, wp_of_Ok; [apply with_ser_run; simpl; rewrite set_mem_same; exact E2|]. cbn [snd]. rewrite Ecur.
  set (s2 := with_mem (s_mem st2) (with_mem (s_mem st1) s1)).
  assert (owed cb_holds (cx_actions s) [a] = owed cb_holds (cx_actions s2) [a]) as Ho.
  { rewrite (owed_action _ _ _ _ Ha). symmetry. exact (owed_action cb_holds _ _ _ (lookup_insert_eq _ a _)). }
  rewrite Ho in Hc1. apply (ok_mem _ _ _ _ _ (s_mem st2)) in Hc1. change (with_mem (s_mem st2) s1) with s2 in Hc1.
  apply (Hk p s2 G' HG Hc1); try done; [lia|..].
  - simpl. rewrite (rd_ext _ (wr (cx_mem s) p bytes)); [apply rd_wr|]. intros b _. apply Emem.
  - intros y Hy. eapply (buffer_safe _ _ _ _ s2); [exact Hc1|exact Hin|]. change (s_domain (cx_sys s2)) with (s_domain x). lia.
  - destruct Huse. constructor; try done. intros y Hy Hout. simpl. rewrite Emem. apply wr_out. fold sz in Hout. lia.
Qed.

(** [sendMessage] with an action that is not posted yet. *)
Lemma wp_sendMessage {T} `{MessageOk T} G held busy d s a act msgType dest (data : T) addr :
  let h := fillProtocolHeader (msg_code msgType) (cx_conn s) in
  let bytes := m_bytes (cx_mem s) h ++ m_bytes (cx_mem s) data in
  ok G (owed cb_holds (cx_actions s) [a] ++ held) (a :: busy) d s -> patient fuel s ->
  cx_actions s !! a = Some act -> pa_connection act = false ->
  sm_find dest (remoteLiAddr (cx_conn s)) = Some addr -> m_wf h -> m_wf data ->
  blen bytes <= msgBufferSize (s_domain (cx_sys s)) -> blen bytes <= recvBuffersSize (cx_conn s) ->
  Forall (outside G (all_bufs s (a :: busy))) (m_regions data) ->
  wp pool_fault (sendMessage fuel msgType dest data a)
    (fun _ s' => message_sent s addr bytes s' /\ (exists p, buffer_use G s p s') /\ exists G', G ⊆ G' /\ ok G' held busy d s') s.
Proof.
  intros h bytes Hc Hp Ha Hcon Hd Hh Hw Hl1 Hl2 Hreg. eapply wp_pack; [done|exact Hc|exact Ha|done..|]. fold h bytes.
  intros p s2 G' HG Hc2 Hp0 Hrd Hsafe Hep Hcn Hap Huse. eapply wp_weaken; [by left|]. eapply wp_mono.
  { apply (wp_sendRawMessage _ _ _ _ _ _ s2 p (blen bytes) dest a addr Hc2); rewrite ?Hcn; try done. unfold patient. by rewrite Hep. }
  intros _ s' (Hc' & Hq & Hpend & Hsent & Htk). rewrite Hrd, Hep in Hsent. split; [|split; [exists p; by eapply buffer_use_quiet|by exists G']].
  constructor; [done|by rewrite Hpend, Hcn|rewrite <- Hcn; exact (q_conn _ _ Hq)|rewrite <- Hap; exact (q_app _ _ Hq)|].
  unfold takes in *. by rewrite Hep, Hcn in Htk.
Qed.

(** The faults of the connection: those of the resources, and the messages that
    stop the process. *)
Definition stops (f : fault) : Prop := pool_fault f \/ f = FAssume \/ f = FOverrun.

(** A message to a peer that is not known stops the process. *)
Lemma wp_send_unknown {T} `{MessageOk T} G held busy d s body msgType dest (data : T) :
  let bytes := m_bytes (cx_mem s) (fillProtocolHeader (msg_code msgType) (cx_conn s)) ++ m_bytes (cx_mem s) data in
  ok G (body_holds cb_holds body ++ held) busy d s -> sm_find dest (remoteLiAddr (cx_conn s)) = None ->
  m_wf (fillProtocolHeader (msg_code msgType) (cx_conn s)) -> m_wf data -> m_regions data = [] ->
  blen bytes <= msgBufferSize (s_domain (cx_sys s)) -> blen bytes <= recvBuffersSize (cx_conn s) ->
  wp stops (let! a := new_action body in sendMessage fuel msgType dest data a) (fun _ _ => False) s.
Proof.
  intros bytes Hc Hd Hh Hw Hreg Hl1 Hl2. destruct (conn_ok_new _ _ _ _ _ _ _ Hc) as (Hrun & Ha & Hc'). set (s' := allocated body s) in *.
  eapply wp_bind, wp_of_Ok; [exact Hrun|]. eapply (wp_pack stops _ _ _ _ s'); [by left|exact Hc'|exact Ha|done..|rewrite Hreg; constructor|].
  change (fillProtocolHeader _ (cx_conn s')) with (fillProtocolHeader (msg_code msgType) (cx_conn s)). change (cx_mem s') with (cx_mem s). fold bytes.
  intros p s2 G' HG Hc2 Hp0 Hrd Hsafe Hep Hcn Hap _. unfold sendRawMessage.
  apply wp_bind, wp_guard; [by apply negb_true_iff, Z.eqb_neq|]. apply wp_bind, wp_gets. apply wp_bind, wp_guard; [rewrite Hcn; by apply Z.leb_le|].
  apply wp_bind. unfold find_remote. apply wp_bind, wp_gets. rewrite Hcn. change (cx_conn s') with (cx_conn s). rewrite Hd. by right; left.
Qed.

(** A new action and its message. *)
Lemma wp_send_buffer {T} `{MessageOk T} G held busy d s body msgType dest (data : T) addr :
  let bytes := m_bytes (cx_mem s) (fillProtocolHeader (msg_code msgType) (cx_conn s)) ++ m_bytes (cx_mem s) data in
  ok G (body_holds cb_holds body ++ held) busy d s -> patient fuel s ->
  sm_find dest (remoteLiAddr (cx_conn s)) = Some addr ->
  m_wf (fillProtocolHeader (msg_code msgType) (cx_conn s)) -> m_wf data ->
  blen bytes <= msgBufferSize (s_domain (cx_sys s)) -> blen bytes <= recvBuffersSize (cx_conn s) ->
  Forall (outside G (all_bufs s busy)) (m_regions data) ->
  wp pool_fault (let! a := new_action body in sendMessage fuel msgType dest data a)
    (fun _ s' => message_sent s addr bytes s' /\ (exists p, buffer_use G s p s') /\ exists G', G ⊆ G' /\ ok G' held busy d s') s.
Proof.
  intros bytes Hc Hp Hd Hh Hw Hl1 Hl2 Hreg. destruct (conn_ok_new _ _ _ _ _ _ _ Hc) as (Hrun & Ha & Hc'). set (s' := allocated body s) in *.
  eapply wp_bind, wp_of_Ok; [exact Hrun|]. eapply wp_mono.
  - eapply (wp_sendMessage _ _ _ _ s'); try done. eapply Forall_impl; [exact Hreg|]. intros v (q & n & r & Hq & H1' & H2' & Hn).
    exists q, n, r. split_and!; try done. intros Hin. apply Hn. unfold all_bufs in *.
    rewrite elem_of_app in Hin. apply elem_of_app. destruct Hin as [Hin|Hin]; [by left|right]. unfold bufs in Hin.
    apply list_elem_of_bind in Hin as (b & Hb & Hin). unfold bufs. apply list_elem_of_bind.
    destruct (decide (b = cx_nextAction s)) as [->|Hne].
    { exfalso. unfold buffer_of in Hb. rewrite Ha in Hb. simpl in Hb. by apply elem_of_nil in Hb. }
    exists b. split; [|rewrite elem_of_app, elem_of_cons in Hin; rewrite elem_of_app; tauto]. unfold buffer_of in *.
    simpl in Hb. by rewrite lookup_insert_ne in Hb.
  - intros _ s2 [[Hs Hpd Hcn Hap Htk] [(p & [Hnew Hpool Hacts Hm Ht Hsz Hlv]) Hg]]. split; [by constructor|]. split; [|done]. exists p.
    constructor; try done. intros b act Hb. destruct (Hacts b act Hb) as [?|[?|(act0 & Hact0 & He)]]; [by left|by right; left|].
    destruct (decide (b = cx_nextAction s)) as [->|Hne]; [left; rewrite Ha in Hact0; by simplify_eq|].
    right; right. exists act0. split; [|done]. simpl in Hact0. by rewrite lookup_insert_ne in Hact0.
Qed.

Lemma wp_send_new {T} `{MessageOk T} G held busy d s body msgType dest (data : T) addr :
  let bytes := m_bytes (cx_mem s) (fillProtocolHeader (msg_code msgType) (cx_conn s)) ++ m_bytes (cx_mem s) data in
  ok G (body_holds cb_holds body ++ held) busy d s -> patient fuel s ->
  sm_find dest (remoteLiAddr (cx_conn s)) = Some addr ->
  m_wf (fillProtocolHeader (msg_code msgType) (cx_conn s)) -> m_wf data ->
  blen bytes <= msgBufferSize (s_domain (cx_sys s)) -> blen bytes <= recvBuffersSize (cx_conn s) ->
  Forall (outside G (all_bufs s busy)) (m_regions data) ->
  wp pool_fault (let! a := new_action body in sendMessage fuel msgType dest data a)
    (fun _ s' => message_sent s addr bytes s' /\ exists G', G ⊆ G' /\ ok G' held busy d s') s.
Proof.
  intros bytes Hc Hp Hd Hh Hw Hl1 Hl2 Hreg. eapply wp_mono; [by eapply wp_send_buffer|]. by intros _ s' (? & _ & ?).
Qed.

(** *** Receive buffers *)
Lemma wp_repostReceive G held busy d s id :
  ok G (id :: held) busy d s ->
  wp resource (repostReceive id) (fun _ s' => ok G held busy d s' /\
    cx_conn s' = cx_conn s /\ cx_app s' = cx_app s /\ cx_mem s' = cx_mem s /\ cx_actions s' = cx_actions s /\ ep_sent (ep s') = ep_sent (ep s) /\
    ep_read (ep s') = ep_read (ep s)) s.
Proof.
  intros Hc. assert (0 <= id < Z.of_nat (length (recvBuffers (cx_conn s)))) as Hid.
  { apply (co_ids _ _ _ _ _ _ Hc). unfold all_recvs. rewrite !elem_of_app, elem_of_cons. auto. }
  unfold repostReceive. apply wp_bind, wp_gets. destruct (lookup_lt_is_Some_2 (recvBuffers (cx_conn s)) (Z.to_nat id)) as [p Hp]; [lia|].
  apply wp_bind, (wp_of_option _ _ _ p); [done|]. apply wp_bind. unfold fabric, wp at 1.
  set (n := recvBuffersSize (cx_conn s)). pose proof (fi_recv_ok (s_ext (cx_sys s)) p n id) as He. cbv zeta in He.
  pose proof (fi_recv_live (s_ext (cx_sys s)) p n id) as Hl. pose proof (fi_recv_target (s_ext (cx_sys s)) p n id) as Ht.
  set (r := fi_recv p n id (s_ext (cx_sys s))) in *. unfold guard_. destruct (r.1 =? 0) eqn:E0; [|by right]. apply wp_ret.
  set (s' := with_ext r.2 s). change (fa_ep r.2) with (ep s') in He. change (fa_ep (s_ext (cx_sys s))) with (ep s) in He.
  assert (flight s' = flight s) as Hf by (unfold flight; by rewrite He).
  split; [|rewrite He; done]. destruct Hc. constructor; rewrite ?Hf; try done.
  - destruct co_pool0 as [[Hrl Hrc Hrg] Hn Hs Hpos]. constructor; try done. constructor; try done. by etransitivity; [exact Hl|].
  - intros a Ha. unfold all_bufs. rewrite Hf. destruct (Ht a Ha) as [Ha'|Ha']; [by apply co_target0|].
    exists p, n, false. split; [apply co_rbufs0; by eapply list_elem_of_lookup_2|]. split; [done|]. intros Hin.
    pose proof (po_size _ _ _ co_pool0 p Hin) as Hb. rewrite (co_rbufs0 p) in Hb by (by eapply list_elem_of_lookup_2). done.
  - unfold all_recvs in *. rewrite Hf, He. simpl. eapply NoDup_Permutation_proper; [|exact co_recvs0]. solve_Permutation.
  - intros b Hb. apply co_ids0. unfold all_recvs in *. rewrite Hf, He in Hb. simpl in Hb.
    rewrite !elem_of_cons, !elem_of_app in *. rewrite elem_of_cons. tauto.
  - intros q k Hq%co_bufs0. unfold all_bufs in *. by rewrite Hf.
  - intros b Hb%co_all0. unfold all_recvs in *. rewrite Hf, He. simpl.
    rewrite !elem_of_cons, !elem_of_app in *. rewrite elem_of_cons in Hb. tauto.
Qed.

(** *** The end of an action *)
Definition same_but_actions s s' : Prop :=
  cx_conn s' = cx_conn s /\ cx_app s' = cx_app s /\ cx_mem s' = cx_mem s /\ ep s' = ep s.

Lemma bufs_delete_ne (m : gmap Z (LibfabricPostAction Cb)) a l : a ∉ l -> bufs (delete a m) l = bufs m l.
Proof.
  intros Ha. unfold bufs. induction l as [|b l IH]; [done|]. rewrite not_elem_of_cons in Ha. destruct Ha as [Hne Ha].
  rewrite !bind_cons, IH by done. unfold buffer_of. by rewrite lookup_delete_ne.
Qed.
Lemma owed_delete_ne m a l : a ∉ l -> owed cb_holds (delete a m) l = owed cb_holds m l.
Proof.
  intros Ha. unfold owed. induction l as [|b l IH]; [done|]. rewrite not_elem_of_cons in Ha. destruct Ha as [Hne Ha].
  rewrite !bind_cons, IH by done. unfold holds_of. by rewrite lookup_delete_ne.
Qed.

(** The action is gone and its buffer, if any, is in the pool. *)
Lemma deleted_ok G held busy d s a x :
  ok G held (a :: busy) d s -> (a ∉ flight s ++ busy) -> s_ext x = s_ext (cx_sys s) ->
  pool_ok x G (bufs (cx_actions s) (flight s ++ busy)) ->
  (forall q, q ∈ msgBuffers (s_domain x) ++ bufs (cx_actions s) (flight s ++ busy) <-> q ∈ all_bufs s (a :: busy)) ->
  ok G held busy d (with_actions (delete a (cx_actions s)) (cx_nextAction s) (with_sys x s)).
Proof.
  intros Hc Hna Hx Hpool Hsub. set (s' := with_actions _ _ _). assert (ep s' = ep s) as He by (unfold ep; simpl; by rewrite Hx).
  assert (flight s' = flight s) as Hf by (unfold flight; by rewrite He).
  assert (bufs (cx_actions s') (flight s ++ busy) = bufs (cx_actions s) (flight s ++ busy)) as Hb by (simpl; by apply bufs_delete_ne).
  assert (forall h, all_recvs cb_holds s' h = all_recvs cb_holds s h) as Hr.
  { intros h. unfold all_recvs. rewrite Hf, He. simpl. rewrite owed_delete_ne; [done|]. intros Hin. apply Hna, elem_of_app. by left. }
  destruct Hc. constructor; rewrite ?Hf, ?Hr, ?Hb; try done.
  - intros b Hb'. simpl in Hb'. rewrite Hx in Hb'. destruct (co_target0 _ Hb') as (q & n & r & Hq & Hrg & Hn). exists q, n, r.
    split_and!; try done; try lia. intros Hin. apply Hn, Hsub. unfold all_bufs in Hin. rewrite Hf, Hb in Hin. done.
  - rewrite <- Permutation_middle in co_nodup0. by apply NoDup_cons in co_nodup0 as [_ ?].
  - intros b Hin. simpl. rewrite lookup_delete_ne by (by intros ->). apply co_live0. rewrite <- Permutation_middle. by right.
  - intros b act. simpl. rewrite lookup_delete_Some. intros [_ Hb']. by apply co_acts0.
  - intros p n Hp%co_bufs0. unfold all_bufs at 1. rewrite Hf, Hb. change (s_domain (cx_sys s')) with (s_domain x). by rewrite Hsub.
  - intros b act. simpl. rewrite lookup_delete_Some. intros [Hne Hb'] Hd. pose proof (co_flown0 _ _ Hb' Hd) as Hin.
    rewrite <- Permutation_middle in Hin. apply elem_of_cons in Hin as [->|Hin]; [done|done].
Qed.

Lemma wp_delete_action G held busy d s a :
  ok G held (a :: busy) d s ->
  wp never (delete_action a) (fun _ s' => ok G held busy d s' /\ same_but_actions s s' /\ cx_actions s' = delete a (cx_actions s)) s.
Proof.
  intros Hc. destruct (co_live _ _ _ _ _ _ Hc a) as [act Ha]; [apply elem_of_app; right; by left|].
  pose proof (co_acts _ _ _ _ _ _ Hc _ _ Ha) as (_ & Hid & Hz). pose proof (co_pool _ _ _ _ _ _ Hc) as Hpool.
  assert (a ∉ flight s ++ busy) as Hna.
  { pose proof (co_nodup _ _ _ _ _ _ Hc) as Hnd. rewrite <- Permutation_middle in Hnd. by apply NoDup_cons in Hnd as [? _]. }
  assert (bufs (cx_actions s) (flight s ++ a :: busy) ≡ₚ buffer_of (cx_actions s) a ++ bufs (cx_actions s) (flight s ++ busy)) as Hb.
  { rewrite <- Permutation_middle. done. }
  unfold buffer_of in Hb. rewrite Ha in Hb.
  unfold delete_action, get_action. apply wp_bind, wp_bind, wp_gets, (wp_of_option _ _ _ act); [done|]. apply wp_bind.
  assert (pa_domainBuffer act = 0 -> wp never (modify (fun s => with_actions (delete a (cx_actions s)) (cx_nextAction s) s))
    (fun _ s' => ok G held busy d s' /\ same_but_actions s s' /\ cx_actions s' = delete a (cx_actions s)) s) as Hnone.
  { intros E. rewrite E in Hb. simpl in Hb. apply wp_modify. split; [|done].
    apply (deleted_ok _ _ _ _ s a (cx_sys s)); try done; [by eapply pool_ok_perm|]. intros q. unfold all_bufs. by rewrite Hb. }
  unfold freeBuffer. destruct (pa_connection act) eqn:Ec; [|apply wp_ret, Hnone; by apply Hz].
  apply wp_bind. rewrite Hid, Z.eqb_refl, andb_false_r. apply wp_ret.
  destruct (pa_domainBuffer act =? 0) eqn:E0; [apply wp_ret, Hnone; by apply Z.eqb_eq|].
  assert (wp never (retMsgBuffer (pa_domainBuffer act)) (fun _ x => pool_ok x G (bufs (cx_actions s) (flight s ++ busy))) (cx_sys s)) as Hret.
  { eapply (wp_retMsgBuffer _ G _ (pa_domainBuffer act) []); [eapply pool_ok_perm; [exact Hb|exact Hpool]|done]. }
  unfold wp, retMsgBuffer, bind, assume_, guard_ in Hret. rewrite E0 in Hret. simpl in Hret.
  simpl negb. cbv iota. apply wp_conn_sys. unfold retMsgBuffer. apply wp_bind, wp_guard; [by rewrite E0|]. apply wp_modify, wp_modify.
  split; [|done]. apply (deleted_ok _ _ _ _ s a); try done. intros q. unfold all_bufs. rewrite Hb. simpl.
  rewrite !elem_of_app, !list_elem_of_singleton, ?elem_of_cons, ?elem_of_nil. tauto.
Qed.
End send.
End ConnectionSend.
