(* ===== verification/ConnectionOpen.v ===== *)
(** * A new connection

    What the constructor of LibfabricConnection and postReceives
    (src/src/base/network/LibfabricConnection.cpp) establish, for the server and for
    a client: the invariant of the connection, with every receive buffer posted. *)

From Stdlib Require Import String.
From S2P Require Import Prelude StdMap Memory Serializer Protocol System Fabric LibfabricDomain ClientRegistry Connection ConnectionInv ConnectionSend.

Module ConnectionOpen.
Import Protocol LibfabricDomain ClientRegistry Connection ConnectionInv ConnectionSend.

(** sizeof(LibfabricMessageHeader) + IOC_STRUCT_MAX + IOC_EAGER_MAX_... *)
Definition IOC_POST_RECEIVE_READ : Z := 32 + IOC_STRUCT_MAX + IOC_EAGER_MAX_READ.
Definition IOC_POST_RECEIVE_WRITE : Z := 32 + IOC_STRUCT_MAX + IOC_EAGER_MAX_WRITE.

Section established.
Context {X Hook Cb A : Type} `{Libc X} `{!LibcOk X} `{Libfabric X} `{!LibfabricOk X} `{Fabric X} `{!FabricOk X} {users : Users}.
Abbreviation S := (Cx X Hook Cb A).
Implicit Types (s : S) (G : heap).
Variable cb_holds : Cb -> list Z.
Abbreviation ok := (conn_ok cb_holds).

(** An array of the process. *)
Lemma wp_new_array G out n s :
  0 < n -> pool_ok (cx_sys s) G out ->
  wp resource (new_array n)
    (fun p s' => exists x, s' = with_sys x s /\ G !! p = None /\ pool_ok x (<[p := (n, false)]> G) out /\ fa_ep (s_ext x) = ep s /\
       (forall a, fa_target (s_ext x) a -> fa_target (s_ext (cx_sys s)) a) /\ s_domain x = s_domain (cx_sys s)) s.
Proof.
  intros Hn [Hrep Hnd Hsz Hpos]. unfold new_array. apply wp_bind. unfold on_sys, malloc, wp at 1. pose proof (lc_malloc_ok (s_ext (cx_sys s)) n Hn) as Hm.
  pose proof (lc_malloc_ep (s_ext (cx_sys s)) n) as He. pose proof (lc_malloc_target (s_ext (cx_sys s)) n) as Ht.
  destruct (lc_malloc n (s_ext (cx_sys s))) as [p x]. simpl in *.
  unfold guard_. apply wp_bind. destruct (p =? 0) eqn:Ep; simpl negb; cbv iota; [by left|]. destruct Hm as [Hfree Hlive].
  destruct (rep_alloc (cx_sys s) G x p n Hrep) as [Hg Hrep']; [done|done|].
  apply wp_ret, wp_ret. exists (set_ext x (cx_sys s)). split; [done|]. split; [done|]. split; [|done]. constructor; try done.
  intros q Hq. rewrite lookup_insert_ne; [by apply Hsz|]. intros <-. rewrite (Hsz _ Hq) in Hg. done.
Qed.

Lemma repost_posts id s :
  wp any (repostReceive id) (fun _ s' => ep_recvs (ep s') = id :: ep_recvs (ep s) /\ ep_ops (ep s') = ep_ops (ep s) /\
    s_domain (cx_sys s') = s_domain (cx_sys s) /\ ep_refusals (ep s') = ep_refusals (ep s)) s.
Proof.
  unfold repostReceive. apply wp_bind, wp_gets, wp_bind. destruct (_ !! _) as [p|]; [|done]. apply wp_ret, wp_bind. unfold fabric, wp at 1.
  pose proof (fi_recv_ok (s_ext (cx_sys s)) p (recvBuffersSize (cx_conn s)) id) as He. cbv zeta in He.
  destruct (fi_recv _ _ _ _) as [err x]. simpl in *. unfold guard_. destruct (err =? 0); [|done]. apply wp_ret. unfold ep. simpl. by rewrite He.
Qed.

(** The state in which [i] receive buffers are posted and nothing else is under way. *)
Record posting G (i n : Z) s : Prop := {
  pg_ok : ok G [] [] 0 s;
  pg_size : recvBuffersSize (cx_conn s) = n;
  pg_count : Z.of_nat (length (recvBuffers (cx_conn s))) = i;
  pg_recvs : ep_recvs (ep s) ≡ₚ seqZ 0 i;
  pg_idle : cqEntries (cx_conn s) = [] /\ ep_ops (ep s) = [];
}.

Definition receive_added (x : Sys X) (p n : Z) s : S := with_conn (fun c => set_recvBuffers (recvBuffers c ++ [p]) n c) (with_sys x s).

Lemma added_ok G i n s x p :
  posting G i n s -> G !! p = None -> pool_ok x (<[p := (n, false)]> G) [] -> fa_ep (s_ext x) = ep s ->
  (forall a, fa_target (s_ext x) a -> fa_target (s_ext (cx_sys s)) a) -> s_domain x = s_domain (cx_sys s) ->
  ok (<[p := (n, false)]> G) [i] [] 0 (receive_added x p n s).
Proof.
  intros [Hc Hs Hn Hr [Hcq Hops]] Hg Hpool Hep Ht Hd. set (s' := receive_added x p n s). change (fa_ep (s_ext x)) with (ep s') in Hep.
  assert (flight s' = []) as Hf by (unfold flight; rewrite Hep, Hops; simpl; by rewrite Hcq).
  assert (flight s = []) as Hf0 by (unfold flight; by rewrite Hops, Hcq).
  assert (all_recvs cb_holds s' [i] ≡ₚ seqZ 0 i ++ [i]) as Hall.
  { unfold all_recvs. rewrite Hf, Hep, Hr. simpl. by rewrite Hcq. }
  assert (forall q, q ∈ seqZ 0 i -> 0 <= q < i) as Hrange by (intros q; by rewrite elem_of_seqZ).
  destruct Hc. constructor; rewrite ?Hf; try done.
  - intros a Ha. destruct (co_target0 a (Ht a Ha)) as (q & k & r & Hq & Hin & Hno). exists q, k, r. split.
    + rewrite lookup_insert_ne; [done|]. by intros <-; rewrite Hg in Hq.
    + split; [done|]. unfold all_bufs in *. rewrite Hf. rewrite Hf0 in Hno. simpl in *. by rewrite Hd.
  - simpl. rewrite co_pending0, Hf0. done.
  - constructor.
  - intros a Ha. by apply elem_of_nil in Ha.
  - rewrite Hall. apply NoDup_app. split; [apply NoDup_seqZ|]. split; [|apply NoDup_singleton].
    intros q Hq%Hrange. rewrite list_elem_of_singleton. lia.
  - intros q. rewrite Hall, elem_of_app, list_elem_of_singleton. simpl. rewrite length_app. simpl. intros [Hq%Hrange| ->]; lia.
  - intros q. simpl. rewrite elem_of_app, list_elem_of_singleton. intros [Hq| ->]; [|apply lookup_insert_eq].
    rewrite lookup_insert_ne; [rewrite (co_rbufs0 _ Hq); by rewrite Hs|]. intros <-. rewrite (co_rbufs0 _ Hq) in Hg. done.
  - intros q k. rewrite lookup_insert_Some. intros [[_ [=]]|[_ Hq]]. destruct (co_bufs0 _ _ Hq) as [Hu|Hin]; [by left|right].
    unfold all_bufs in *. rewrite Hf. rewrite Hf0 in Hin. simpl in *. by rewrite Hd.
  - intros a act Ha Hb. pose proof (co_flown0 a act Ha Hb) as Hin. by rewrite Hf0 in Hin.
  - intros q. rewrite Hall, elem_of_app, list_elem_of_singleton, elem_of_seqZ. simpl. rewrite length_app. simpl. lia.
Qed.

(** What the posting leaves of the process. *)
Record posts_only n s s' : Prop := {
  ps_app : cx_app s' = cx_app s;
  ps_domain : s_domain (cx_sys s') = s_domain (cx_sys s);
  ps_actions : cx_actions s' = cx_actions s;
  ps_conn : exists l, cx_conn s' = set_recvBuffers l n (cx_conn s);
  ps_sent : ep_sent (ep s') = ep_sent (ep s);
  ps_refusals : ep_refusals (ep s') = ep_refusals (ep s);
  ps_read : ep_read (ep s') = ep_read (ep s);
}.
Lemma posts_only_trans n s1 s2 s3 : posts_only n s1 s2 -> posts_only n s2 s3 -> posts_only n s1 s3.
Proof.
  intros [? ? ? [l1 E1] ? ? ?] [? ? ? [l2 E2] ? ? ?]. constructor; try congruence. exists l2. by rewrite E2, E1.
Qed.

Lemma wp_post_one G i n s :
  0 < n -> posting G i n s ->
  wp resource (let! p := new_array n in modify (with_conn (fun c => set_recvBuffers (recvBuffers c ++ [p]) n c)) ;; repostReceive i)
    (fun _ s' => posts_only n s s' /\ exists G', G ⊆ G' /\ posting G' (i + 1) n s') s.
Proof.
  intros Hn Hp. pose proof Hp as [Hc Hs Hl Hr [Hcq Hops]]. assert (flight s = []) as Hf by (unfold flight; by rewrite Hops, Hcq).
  pose proof (co_pool _ _ _ _ _ _ Hc) as Hpool. rewrite Hf in Hpool. apply wp_bind. eapply wp_mono; [by apply (wp_new_array G [])|].
  intros p s1 (x & -> & Hg & Hpool' & Hep & Ht & Hd). apply wp_bind, wp_modify.
  pose proof (added_ok _ _ _ _ _ _ Hp Hg Hpool' Hep Ht Hd) as Hc1. fold (receive_added x p n s).
  eapply wp_mono; [apply wp_also; [by apply wp_repostReceive|apply repost_posts]|].
  intros _ s' [(Hc' & Hcn & Hap & _ & Hac & Hsn & Hrd) (Hrecv & Ho & Hds & Hrf)]. change (ep (receive_added x p n s)) with (fa_ep (s_ext x)) in *.
  rewrite Hep in Hrecv, Ho, Hsn, Hrf, Hrd.
  split; [constructor; try done; [etransitivity; [exact Hds|exact Hd]|eexists; exact Hcn]|]. exists (<[p := (n, false)]> G). split; [by apply insert_subseteq|].
  constructor; [done| | | |].
  - by rewrite Hcn.
  - rewrite Hcn. simpl. rewrite length_app. simpl. lia.
  - rewrite Hrecv, Hr, (seqZ_app 0 i 1) by lia. by rewrite Permutation_app_comm.
  - rewrite Hcn, Ho. done.
Qed.

Lemma wp_post_all n k : 0 < n -> forall i s G, posting G i n s -> 
  wp resource (for_each (seqZ i (Z.of_nat k)) (fun i => let! p := new_array n in
      modify (with_conn (fun c => set_recvBuffers (recvBuffers c ++ [p]) n c)) ;; repostReceive i))
    (fun _ s' => posts_only n s s' /\ exists G', G ⊆ G' /\ posting G' (i + Z.of_nat k) n s') s.
Proof.
  intros Hn. induction k as [|k IH]; intros i s G Hp.
  - apply wp_ret. split; [constructor; try done|exists G; by rewrite Z.add_0_r].
    exists (recvBuffers (cx_conn s)). rewrite <- (pg_size _ _ _ _ Hp). by destruct (cx_conn s).
  - rewrite seqZ_cons by lia. simpl for_each. apply wp_bind. eapply wp_mono; [by apply (wp_post_one G)|].
    intros _ s2 [Hps (G2 & HG & Hp2)]. replace (Z.pred (Z.of_nat (Datatypes.S k))) with (Z.of_nat k) by lia.
    eapply wp_mono; [apply (IH (Z.succ i) s2 G2); exact Hp2|]. intros _ s3 [Hps3 (G3 & HG3 & Hp3)].
    split; [by eapply posts_only_trans|]. exists G3. split; [by etransitivity|].
    by replace (i + Z.of_nat (Datatypes.S k)) with (Z.succ i + Z.of_nat k) by lia.
Qed.

(** A process whose endpoint is new. *)
Record fresh s : Prop := {
  fr_ep : ep_ops (ep s) = [] /\ ep_recvs (ep s) = [];
  fr_target : forall a, ~ fa_target (s_ext (cx_sys s)) a;
  fr_actions : cx_actions s = ∅;
  fr_next : 0 < cx_nextAction s;
}.

Definition unregistered (m : gmap Z Z) : heap := (fun n => (n, false)) <$> m.

(** A connection on a domain that has nothing registered. *)
Lemma fresh_posting prov size passive n s :
  0 < size -> fresh s -> 
  posting (unregistered (lc_live (s_ext (cx_sys s)))) 0 n
    (with_conn (fun _ => set_recvBuffers [] n (new_Connection passive))
       (with_sys (set_domain (fun _ => mkDomain [] prov size []) (cx_sys s)) s)).
Proof.
  intros Hsz [[Hops Hrecv] Ht Ha Hn]. set (s0 := with_conn _ _). change (ep s) with (ep s0) in Hops, Hrecv.
  assert (flight s0 = []) as Hf by (unfold flight; by rewrite Hops).
  assert (all_recvs cb_holds s0 [] = []) as Hall by (unfold all_recvs; by rewrite Hf, Hrecv).
  constructor; [constructor; rewrite ?Hf, ?Hall| | | |]; try done.
  - constructor; [constructor| | |]; try done.
    + simpl. unfold unregistered. rewrite <- map_fmap_compose. symmetry. by apply map_fmap_id.
    + intros p k. split; [|by intros (? & ? & [])]. unfold unregistered. rewrite lookup_fmap. destruct (_ !! p); [by intros [=]|done].
    + constructor.
    + intros p Hp. by apply elem_of_nil in Hp.
  - intros a Hx. by destruct (Ht a).
  - constructor.
  - intros a Hx. by apply elem_of_nil in Hx.
  - intros a act. simpl. by rewrite Ha.
  - constructor.
  - intros id Hx. by apply elem_of_nil in Hx.
  - intros p Hx. by apply elem_of_nil in Hx.
  - intros p k. unfold unregistered. rewrite lookup_fmap. by destruct (_ !! p).
  - intros a act. simpl. by rewrite Ha.
  - intros id. simpl. lia.
  - by rewrite Hrecv.
Qed.
End established.
End ConnectionOpen.
