(* ===== verification/ConnectionPoll.v ===== *)
(** * Polling

    Theorems on the loops of the connection: the invariant is kept by every turn
    when the hooks and the functions of the actions keep their part of it, the
    completions are handled in the order libfabric gives them, and a message that
    is not authenticated reaches no hook. *)

From Stdlib Require Import String.
From S2P Require Import Prelude StdMap Memory Serializer Protocol System Fabric LibfabricDomain ClientRegistry Connection Dispatch ConnectionInv ConnectionSend.

Module ConnectionPoll.
Import Serializer Protocol LibfabricDomain ClientRegistry Connection Dispatch ConnectionInv ConnectionSend.

Definition HEADER_SIZE : Z := 32.

Lemma header_size m (h : LibfabricMessageHeader) : blen (m_bytes m h) = HEADER_SIZE.
Proof. simpl. rewrite !length_app, !le_split_length. done. Qed.

(** Any 32 bytes are a header. *)
Lemma header_of_bytes m l : Z.of_nat (length l) = HEADER_SIZE -> exists h : LibfabricMessageHeader, m_wf h /\ m_bytes m h = l.
Proof.
  intros Hl. unfold HEADER_SIZE in Hl.
  assert (forall k, (k + 8 <= 32)%nat -> length (take 8 (drop k l)) = 8%nat) as Hk by (intros; rewrite length_take, length_drop; lia).
  set (w := fun k => le_combine (take 8 (drop k l))).
  assert (forall k, (k + 8 <= 32)%nat -> is_u64 (w k)) as Hu.
  { intros k Hk'. pose proof (le_combine_range (take 8 (drop k l))) as Hr. rewrite (Hk k Hk') in Hr. exact Hr. }
  assert (forall k, (k + 8 <= 32)%nat -> le_split 8 (w k) = take 8 (drop k l)) as Hs.
  { intros k Hk'. unfold w. rewrite <- (Hk k Hk') at 1. apply le_split_combine. }
  exists (mkHeader (w 0%nat) (w 8%nat) (w 16%nat) (w 24%nat)). split; [simpl; split_and!; apply Hu; lia|].
  simpl. rewrite !Hs, app_nil_r by lia. rewrite drop_0.
  symmetry. etransitivity; [symmetry; apply (take_drop 8)|]. f_equal.
  etransitivity; [symmetry; apply (take_drop 8)|]. rewrite drop_drop. f_equal.
  etransitivity; [symmetry; apply (take_drop 8)|]. rewrite drop_drop. f_equal.
  symmetry. apply take_ge. rewrite length_drop. simpl. lia.
Qed.

(** The bytes tell the header. *)
Lemma header_bytes_inj m (h h' : LibfabricMessageHeader) : m_wf h -> m_wf h' -> m_bytes m h = m_bytes m h' -> h = h'.
Proof.
  destruct h as [a b c d], h' as [a' b' c' d']. simpl. intros (Ha & Hb & Hc & Hd) (Ha' & Hb' & Hc' & Hd') E.
  assert (forall x y, is_u64 x -> is_u64 y -> le_split 8 x = le_split 8 y -> x = y) as Hinj.
  { intros x y Hx Hy Es%(f_equal le_combine). by rewrite !le_combine_split_small in Es by done. }
  apply app_inj_1 in E as [E1 E]; [|by rewrite !le_split_length]. apply app_inj_1 in E as [E2 E]; [|by rewrite !le_split_length].
  apply app_inj_1 in E as [E3 E]; [|by rewrite !le_split_length]. apply app_inj_1 in E as [E4 _]; [|by rewrite !le_split_length].
  f_equal; by apply Hinj.
Qed.

Section poll.
Context {X Hook Cb A : Type} `{Libc X} `{!LibcOk X} `{Libfabric X} `{!LibfabricOk X} `{Fabric X} `{!FabricOk X} {users : Users} `{StringStorage}.
Abbreviation S := (Cx X (option Hook) Cb A).
Implicit Types (s : S) (G : heap).
Variable cb_holds : Cb -> list Z.
Variable fuel : nat.
Variable onMessage : Hook -> LibfabricClientRequest -> M S LibfabricActionResult.
Variable callback : Cb -> M S LibfabricActionResult.
Variable onEndpointConnect : Cb -> Z -> M S unit.
Abbreviation ok := (conn_ok cb_holds).

(** *** The end of an action *)

(** A function gives back the receive buffers it holds, and nothing more. *)
Definition callback_ok (F : fault -> Prop) : Prop := forall f G held busy d s,
  ok G (cb_holds f ++ held) busy d s ->
  wp F (callback f) (fun _ s' => exists G', G ⊆ G' /\ ok G' held busy d s') s.

Lemma counted_down G held busy d s :
  ok G held busy d s -> ok G held busy (d - 1) (with_conn (fun c => set_queue (cqEntries c) (pendingAction c + -1) c) s).
Proof. intros []. constructor; try done. change (pendingAction (cx_conn s) + -1 = blen (flight s) + (d - 1)). lia. Qed.

(** when the completion of an action is handled, its function runs, the
    action is deleted and its message buffer is back in the pool, the count goes
    down by one and its assertion holds: the only faults are those of the function. *)
Theorem finish_action_correct F G held a act s :
  callback_ok F -> ok G (owed cb_holds (cx_actions s) [a] ++ held) [a] 1 s -> cx_actions s !! a = Some act ->
  wp F (finish_action callback a)
    (fun r s' => (exists G', G ⊆ G' /\ ok G' held [] 0 s') /\ cx_actions s' !! a = None /\ (forall result, pa_body act = Nop result -> r = result)) s.
Proof.
  intros Hcb Hc Ha. unfold finish_action, runPostAction, get_action. rewrite (owed_action _ _ _ _ Ha) in Hc.
  assert (forall G' r t, G ⊆ G' -> ok G' held [a] 1 t -> (forall result, pa_body act = Nop result -> r = result) ->
    wp F (delete_action a ;; count_action (-1) ;; let! n := conn pendingAction in assert_ (n >=? 0) ;; ret r)
      (fun r s' => (exists G', G ⊆ G' /\ ok G' held [] 0 s') /\ cx_actions s' !! a = None /\ (forall result, pa_body act = Nop result -> r = result)) t) as Hend.
  { intros G' r t HG Hct Hres. apply wp_bind, wp_never. eapply wp_mono; [by apply wp_delete_action|]. intros _ t1 (Ht1 & _ & Hdel).
    apply counted_down in Ht1. simpl in Ht1. apply wp_bind, wp_modify, wp_bind, wp_gets, wp_bind, wp_guard.
    - pose proof (co_pending _ _ _ _ _ _ Ht1) as Hp. rewrite Hp. lia.
    - apply wp_ret. split; [by exists G'|]. split; [|done]. simpl. rewrite Hdel. apply lookup_delete_eq. }
  apply wp_bind, wp_bind, wp_bind, wp_gets, (wp_of_option _ _ _ act); [done|]. destruct (pa_body act) as [f|r] eqn:Eb.
  - eapply wp_mono; [by apply (Hcb f G held [a] 1)|]. intros r t (G' & HG & Hct). by apply (Hend G').
  - apply wp_ret. apply (Hend G); [done|done|]. by intros result [= <-].
Qed.

(** *** Reading a message *)

(** The deserializer is on the receive buffer of the message. *)
Definition reading s (id : Z) (st : Ser) (n : Z) : Prop :=
  exists p, recvBuffers (cx_conn s) !! Z.to_nat id = Some p /\ buffer st = p /\ size st = recvBuffersSize (cx_conn s) /\
    cursor st = n /\ action st = SERIALIZER_UNPACK.

Lemma with_mem_id s : with_mem (cx_mem s) s = s.
Proof. by destruct s. Qed.

Lemma unpack_skips {T} `{Message T} name (old v : T) st n s :
  action st <> SERIALIZER_STRINGIFY ->
  skips (applySerializerDef old) v n (set_root false (Serializer.set_mem (fun _ => cx_mem s) st)) ->
  exists st', unpack name old st s = Ok ((v, st'), s) /\ skipped (Serializer.set_mem (fun _ => cx_mem s) st) n st'.
Proof.
  intros Ha Hs. destruct (apply_struct_skips applySerializerDef name old v n (Serializer.set_mem (fun _ => cx_mem s) st) Ha Hs) as (st' & E & P).
  exists st'. split; [|done]. unfold unpack. rewrite (with_ser_run _ _ _ _ _ E). do 2 f_equal. destruct P as (_ & _ & ->). apply with_mem_id.
Qed.

Lemma recv_block G held busy d s id :
  ok G held busy d s -> id ∈ all_recvs cb_holds s held ->
  exists p, recvBuffers (cx_conn s) !! Z.to_nat id = Some p /\ 0 < p /\ p + recvBuffersSize (cx_conn s) < two64.
Proof.
  intros Hc Hin. pose proof (co_ids _ _ _ _ _ _ Hc _ Hin) as Hid.
  destruct (lookup_lt_is_Some_2 (recvBuffers (cx_conn s)) (Z.to_nat id)) as [p Hp]; [lia|]. exists p. split; [done|].
  pose proof (co_rbufs _ _ _ _ _ _ Hc p (list_elem_of_lookup_2 _ _ _ Hp)) as Hg.
  pose proof (rep_range _ _ _ _ _ (po_rep _ _ _ (co_pool _ _ _ _ _ _ Hc)) Hg). tauto.
Qed.

(** What is in the receive buffer is read as a header, whatever it is. *)
Lemma open_message_run G held busy d s id :
  ok G held busy d s -> id ∈ all_recvs cb_holds s held -> HEADER_SIZE <= recvBuffersSize (cx_conn s) ->
  exists p h st, open_message id s = Ok ((h, st), s) /\ reading s id st HEADER_SIZE /\
    recvBuffers (cx_conn s) !! Z.to_nat id = Some p /\ m_wf h /\ rd (cx_mem s) p HEADER_SIZE = m_bytes (cx_mem s) h.
Proof.
  intros Hc Hin Hsz. destruct (recv_block _ _ _ _ _ _ Hc Hin) as (p & Hp & Hp0 & Hp1). unfold HEADER_SIZE in Hsz.
  destruct (header_of_bytes (cx_mem s) (rd (cx_mem s) p HEADER_SIZE)) as (h & Hw & Hb); [by apply rd_length|].
  set (st0 := mkSer (cx_mem s) p (recvBuffersSize (cx_conn s)) 0 SERIALIZER_UNPACK [] false true).
  destruct (unpack_skips "header" no_header h st0 HEADER_SIZE s) as (st & E & (Eb & Es & Ea) & Ec & _); [done| |].
  { rewrite <- (header_size (cx_mem s) h). set (st1 := set_root false _).
    assert (holds st1 (m_bytes (cx_mem s) h)) as Hh.
    { split; [done|]. rewrite header_size. split; [unfold room; simpl; unfold HEADER_SIZE; lia|]. simpl. rewrite Z.add_0_r. symmetry. exact Hb. }
    exact (unpack_ok (cx_mem s) no_header h st1 Hw ltac:(simpl; lia) ltac:(simpl; lia) Hh). }
  exists p, h, st. split_and!; try done.
  - unfold open_message, bind, conn, gets, of_option, new_serializer, init_buffer, ret. rewrite Hp.
    rewrite (proj2 (Z.eqb_neq p 0)) by lia. replace (recvBuffersSize (cx_conn s) >? 0) with true by lia. exact E.
  - exists p. by rewrite Eb, Es, Ec, Ea.
Qed.

(** *** Authentication *)

(** The identifiers of the connection are 64-bit integers and its messages fit. *)
Record ready s : Prop := {
  re_client : is_u64 (clientId (cx_conn s));
  re_tcp : is_u64 (tcpClientId (cx_conn s));
  re_key : is_u64 (tcpClientKey (cx_conn s));
  re_msg : 64 <= msgBufferSize (s_domain (cx_sys s));
  re_recv : 64 <= recvBuffersSize (cx_conn s);
  re_bad : forall f, hookOnBadAuth (cx_conn s) = Some f -> cb_holds f = [];
}.

Lemma header_wf t s : ready s -> m_wf (fillProtocolHeader (msg_code t) (cx_conn s)).
Proof. intros []. simpl. split_and!; try done. by destruct t. Qed.

Definition refused s (h : LibfabricMessageHeader) : bool :=
  checkClientAuth (cx_conn s) && negb (checkIdentification (hdr_tcpClientId h) (hdr_tcpClientKey h) (clientRegistry (cx_conn s))).

Lemma checkAuth_accepts h lf s : refused s h = false -> checkAuth fuel h lf s = Ok (true, s).
Proof.
  unfold refused, checkAuth, bind, conn, gets. destruct (checkClientAuth (cx_conn s)); simpl; [|done].
  by destruct (checkIdentification _ _ _).
Qed.

(** The bytes of the answer to a message that is not authenticated. *)
Definition bad_auth s : list byte :=
  m_bytes (cx_mem s) (fillProtocolHeader (msg_code IOC_LF_MSG_BAD_AUTH) (cx_conn s)) ++
  m_bytes (cx_mem s) (mkResponse 0 (-1) false 0 None 0).

Lemma bad_auth_size s : blen (bad_auth s) = 45.
Proof. unfold bad_auth. rewrite length_app, Nat2Z.inj_add, header_size. simpl. rewrite !length_app, !le_split_length. done. Qed.

Lemma checkAuth_refuses G held h lf addr s :
  ok G held [] 0 s -> patient fuel s -> ready s -> refused s h = true ->
  sm_find (i32 lf) (remoteLiAddr (cx_conn s)) = Some addr ->
  wp pool_fault (checkAuth fuel h lf)
    (fun r s' => r = false /\ message_sent s addr (bad_auth s) s' /\ exists G', G ⊆ G' /\ ok G' held [] 0 s') s.
Proof.
  intros Hc Hp Hr Href Hd. unfold refused in Href. apply andb_true_iff in Href as [Hau Hid]. apply negb_true_iff in Hid.
  unfold checkAuth. apply wp_bind, wp_gets. rewrite Hau. simpl negb. cbv iota. rewrite Hid. apply wp_bind. unfold sendResponse, sendNop.
  pose proof (re_msg _ Hr). pose proof (re_recv _ Hr). eapply wp_mono.
  - apply (wp_send_new cb_holds fuel G held [] 0 s (Nop LF_WAIT_LOOP_KEEP_WAITING) IOC_LF_MSG_BAD_AUTH (i32 lf)
      (mkResponse 0 (-1) false 0 None 0) addr); [done|done|done|by apply header_wf|by split_and!|..|constructor];
      fold (bad_auth s); rewrite bad_auth_size; lia.
  - intros _ s' [Hs Hg]. by apply wp_ret.
Qed.

(** The steps before the post leave the connection as it is. *)
Definition keeps {B} (m : M S B) : Prop := forall s, wp any m (fun _ s' => cx_conn s' = cx_conn s) s.

Lemma wp_keeps {B C} (m : M S B) (k : B -> M S C) Q s :
  keeps m -> (forall b s', cx_conn s' = cx_conn s -> wp any (k b) Q s') -> wp any (bind m k) Q s.
Proof. intros Hm Hk. apply wp_bind. eapply wp_mono; [apply Hm|]. intros b s' E. by apply Hk. Qed.

Lemma keeps_on_sys {B} (m : M (Sys X) B) : keeps (on_sys m).
Proof. intros s. unfold wp, on_sys. by destruct (m _) as [[b x]|f]. Qed.
Lemma keeps_with_ser {B} (m : M Ser B) st : keeps (with_ser m st).
Proof. intros s. unfold wp, with_ser. by destruct (m _) as [[b x]|f]. Qed.
Lemma keeps_new_serializer buf sz act : keeps (new_serializer buf sz act).
Proof. intros s. unfold wp, new_serializer. by destruct (init_buffer _ _ _ _). Qed.
Lemma keeps_attach a p : keeps (attachDomainBuffer a p).
Proof.
  intros s. unfold attachDomainBuffer, get_action. apply wp_bind, wp_bind, wp_gets. destruct (cx_actions s !! a) as [act|]; [|done].
  apply wp_ret, wp_bind. unfold assert_, guard_. destruct (negb _); [|done]. apply wp_ret, wp_bind. destruct (_ =? 0); [|done].
  apply wp_ret, wp_bind. by destruct (negb _).
Qed.

(** A message to an unknown peer stops the process. *)
Lemma send_unknown {T} `{Message T} t dest (data : T) body s :
  sm_find dest (remoteLiAddr (cx_conn s)) = None ->
  wp any (let! a := new_action body in sendMessage fuel t dest data a) (fun _ _ => False) s.
Proof.
  intros Hd. apply wp_keeps; [done|]. intros a s1 E1. unfold sendMessage.
  apply wp_keeps; [apply keeps_on_sys|]. intros p s2 E2. apply wp_keeps; [apply keeps_on_sys|]. intros sz s3 E3.
  apply wp_keeps; [apply keeps_attach|]. intros _ s4 E4. apply wp_bind, wp_gets.
  apply wp_keeps; [apply keeps_new_serializer|]. intros st s5 E5. apply wp_keeps; [apply keeps_with_ser|]. intros r s6 E6.
  apply wp_keeps; [apply keeps_with_ser|]. intros r' s7 E7. unfold sendRawMessage. apply wp_bind. unfold assert_, guard_ at 1.
  destruct (negb _); [|done]. apply wp_ret, wp_bind, wp_gets, wp_bind. unfold guard_. destruct (_ <=? _); [|done].
  apply wp_ret, wp_bind. unfold find_remote. apply wp_bind, wp_gets. rewrite E7, E6, E5, E4, E3, E2, E1, Hd. done.
Qed.

Lemma checkAuth_stops h lf s :
  refused s h = true -> sm_find (i32 lf) (remoteLiAddr (cx_conn s)) = None ->
  wp any (checkAuth fuel h lf) (fun _ _ => False) s.
Proof.
  intros Href Hd. unfold refused in Href. apply andb_true_iff in Href as [Hau Hid]. apply negb_true_iff in Hid.
  unfold checkAuth. apply wp_bind, wp_gets. rewrite Hau. simpl negb. cbv iota. rewrite Hid. apply wp_bind. eapply wp_mono; [by apply send_unknown|]. done.
Qed.

(** The messages that need no authentication. *)
Definition plain (t : Z) : Prop :=
  t <> msg_code IOC_LF_MSG_CONNECT_INIT /\ t <> msg_code IOC_LF_MSG_BAD_AUTH /\ t <> msg_code IOC_LF_MSG_FATAL_ERROR.

Lemma onRecv_plain id h st s :
  open_message id s = Ok ((h, st), s) -> plain (hdr_msgType h) ->
  onRecv fuel onMessage callback onEndpointConnect id s =
  (let! ok := checkAuth fuel h (hdr_lfClientId h) in
   if negb ok then ret LF_WAIT_LOOP_UNBLOCK
   else
     let! m := conn hooks in
     match m !! hdr_msgType h with
     | Some k => run_hook onMessage k (mkClientRequest (hdr_lfClientId h) id h st)
     | None => abort FAssume
     end) s.
Proof.
  intros Ho (N1 & N2 & N3). unfold onRecv. unfold bind at 1. rewrite Ho. cbn [fst snd].
  rewrite (proj2 (Z.eqb_neq _ _) N1), (proj2 (Z.eqb_neq _ _) N2), (proj2 (Z.eqb_neq _ _) N3). done.
Qed.

(** a request whose pair of identifier and key is registered, or any request
    when the check is off, runs the hook of its type on the message, once, with
    the client and the receive buffer it came from. *)
Theorem onRecv_dispatches id s k h st :
  open_message id s = Ok ((h, st), s) -> plain (hdr_msgType h) ->
  refused s h = false -> hooks (cx_conn s) !! hdr_msgType h = Some (Some k) ->
  onRecv fuel onMessage callback onEndpointConnect id s = onMessage k (mkClientRequest (hdr_lfClientId h) id h st) s.
Proof.
  intros Ho Hpl Hr Hk. rewrite (onRecv_plain _ _ _ _ Ho Hpl). unfold bind at 1. rewrite (checkAuth_accepts _ _ _ Hr). simpl.
  unfold bind, conn, gets. by rewrite Hk.
Qed.

(** When the client number of such a request is that of no client, the
    answer has no destination: the server stops. *)
Lemma onRecv_unknown_stops id s h st :
  open_message id s = Ok ((h, st), s) -> plain (hdr_msgType h) -> refused s h = true ->
  sm_find (i32 (hdr_lfClientId h)) (remoteLiAddr (cx_conn s)) = None ->
  exists f, onRecv fuel onMessage callback onEndpointConnect id s = Abort f.
Proof.
  intros Ho Hpl Href Hd. rewrite (onRecv_plain _ _ _ _ Ho Hpl). unfold bind.
  pose proof (checkAuth_stops h (hdr_lfClientId h) s Href Hd) as Hs. unfold wp in Hs.
  destruct (checkAuth fuel h (hdr_lfClientId h) s) as [[b s']|f]; [done|]. by exists f.
Qed.


(** *** One turn of the loop *)

(** The handlers give back the receive buffer of their message, or leave it to
    the function of an action. *)
Definition hooks_ok (F : fault -> Prop) : Prop := forall h request G held s,
  ok G (msgBufferId request :: held) [] 0 s ->
  wp F (onMessage h request) (fun _ s' => exists G', G ⊆ G' /\ ok G' held [] 0 s') s.
Definition connect_ok (F : fault -> Prop) : Prop := forall f id G held s,
  ok G held [] 0 s -> wp F (onEndpointConnect f id) (fun _ s' => exists G', G ⊆ G' /\ ok G' held [] 0 s') s.

Section turns.
Variable F : fault -> Prop.
Hypothesis F_stops : forall f, stops f -> F f.
Hypothesis Hcallback : callback_ok F.
Hypothesis Hhooks : hooks_ok F.
Hypothesis Hconnect : connect_ok F.

Lemma wp_terminate G held request s :
  ok G (msgBufferId request :: held) [] 0 s -> wp F (terminate request) (fun _ s' => exists G', G ⊆ G' /\ ok G' held [] 0 s') s.
Proof.
  intros Hc. eapply wp_weaken; [|eapply wp_mono; [by apply wp_repostReceive|]].
  - intros f Hf. apply F_stops. by left; left.
  - intros _ s' [Hc' _]. by exists G.
Qed.

Lemma wp_run_callback G held f s :
  ok G (cb_holds f ++ held) [] 0 s -> wp F (callback f) (fun _ s' => exists G', G ⊆ G' /\ ok G' held [] 0 s') s.
Proof. apply Hcallback. Qed.

(** The fields of the connection that the invariant is about. *)
Lemma ok_conn G held busy d s f :
  recvBuffers (f (cx_conn s)) = recvBuffers (cx_conn s) -> recvBuffersSize (f (cx_conn s)) = recvBuffersSize (cx_conn s) ->
  cqEntries (f (cx_conn s)) = cqEntries (cx_conn s) -> pendingAction (f (cx_conn s)) = pendingAction (cx_conn s) ->
  ok G held busy d s -> ok G held busy d (with_conn f s).
Proof.
  intros E1 E2 E3 E4 []. assert (flight (with_conn f s) = flight s) as Hf by (unfold flight; simpl; by rewrite E3).
  assert (forall h, all_recvs cb_holds (with_conn f s) h = all_recvs cb_holds s h) as Hr.
  { intros h. unfold all_recvs. rewrite Hf. simpl. by rewrite E3. }
  constructor; rewrite ?Hf, ?Hr; try done.
  - intros a Ha. unfold all_bufs. rewrite Hf. by apply co_target0.
  - simpl. by rewrite E4.
  - simpl. by rewrite E1.
  - simpl. by rewrite E1, E2.
  - intros p n Hp%co_bufs0. unfold all_bufs in *. by rewrite Hf.
  - intros id. simpl. rewrite E1. apply co_all0.
Qed.

(** A handshake or an address can be read from any bytes. *)
Lemma u64_any name old st :
  action st = SERIALIZER_UNPACK -> room st 8 -> exists v, skips (apply_u64 name old) v 8 st.
Proof.
  intros Ha Hr. eexists. apply (apply_scalar_unpack _ _ _ _ _ _ (rd (s_mem st) (buffer st + cursor st) 8)); [done|].
  split; [done|]. rewrite rd_length by done. by split.
Qed.

Lemma handshake_any old st :
  action st = SERIALIZER_UNPACK -> room st 12 -> exists v, skips (LibfabricFirstHandshake_applySerializerDef old) v 12 st.
Proof.
  intros Ha Hr. unfold LibfabricFirstHandshake_applySerializerDef.
  assert (exists v, skips (apply_i32 "protocolVersion" (hs_protocolVersion old)) v 4 st) as [v (st1 & E1 & (Hb & Hs & Hac) & Hc & Hm)].
  { eexists. apply (apply_scalar_unpack _ _ _ _ _ _ (rd (s_mem st) (buffer st + cursor st) 4)); [done|].
    split; [done|]. rewrite rd_length by done. split; [unfold room in *; lia|done]. }
  destruct (u64_any "assignLfClientId" (hs_assignLfClientId old) st1) as [v2 (st2 & E2 & (Hb2 & Hs2 & Hac2) & Hc2 & Hm2)]; [congruence| |].
  { unfold room in *. rewrite Hc, Hs. lia. }
  exists (mkHandshake v v2), st2. unfold bind. rewrite E1, E2. split; [done|]. split; [split_and!; congruence|]. split; [lia|congruence].
Qed.

Lemma first_client_any old st :
  action st = SERIALIZER_UNPACK -> room st 32 -> exists v, skips (LibfabricFirstClientMessage_applySerializerDef old) v 32 st.
Proof.
  intros Ha Hr. unfold LibfabricFirstClientMessage_applySerializerDef. eexists.
  assert (skips (apply_array IOC_LF_MAX_ADDR_LEN "addr" (fc_addr old)) (rd (s_mem st) (buffer st + cursor st) 32) 32 st) as (st1 & E1 & P1).
  { apply (apply_scalar_unpack 32 (fun l => l) (fun l => l) (fun _ => [OMember]) "addr" (fc_addr old) (rd (s_mem st) (buffer st + cursor st) 32)); [done|].
    split; [done|]. rewrite rd_length by done. by split. }
  exists st1. unfold bind. by rewrite E1.
Qed.

Lemma reading_room G held busy d s id st n k :
  ok G held busy d s -> id ∈ all_recvs cb_holds s held -> reading s id st n -> 0 <= n -> 0 <= k -> n + k <= recvBuffersSize (cx_conn s) ->
  room (set_root false (Serializer.set_mem (fun _ => cx_mem s) st)) k.
Proof.
  intros Hc Hin (p & Hp & Hb & Hs & Hcu & _) Hn Hk Hle. destruct (recv_block _ _ _ _ _ _ Hc Hin) as (q & Hq & Hq0 & Hq1).
  unfold room. simpl. rewrite Hs, Hcu. lia.
Qed.

Lemma held_in s id held : id ∈ all_recvs cb_holds s (id :: held).
Proof. unfold all_recvs. rewrite !elem_of_app, elem_of_cons. auto. Qed.

Lemma wp_onAssignId G held request s :
  ok G (msgBufferId request :: held) [] 0 s -> ready s -> reading s (msgBufferId request) (deserializer request) HEADER_SIZE ->
  wp F (onAssignId request) (fun _ s' => exists G', G ⊆ G' /\ ok G' held [] 0 s') s.
Proof.
  intros Hc Hr Hrd. pose proof (re_recv _ Hr) as Hsz. unfold onAssignId.
  destruct (handshake_any (mkHandshake 0 0) (set_root false (Serializer.set_mem (fun _ => cx_mem s) (deserializer request)))) as [v Hv].
  { by destruct Hrd as (? & _ & _ & _ & _ & ?). }
  { eapply reading_room; [exact Hc|apply held_in|exact Hrd|done|done|unfold HEADER_SIZE; lia]. }
  destruct (unpack_skips "firstHandshakeResponse" (mkHandshake 0 0) v (deserializer request) 12 s) as (st & E & _).
  { destruct Hrd as (? & _ & _ & _ & _ & ->). done. }
  { exact Hv. }
  eapply wp_bind, wp_of_Ok; [exact E|]. apply wp_bind, wp_modify, wp_bind. eapply wp_mono.
  { apply wp_terminate. by apply ok_conn. }
  intros u s' Hs'. apply wp_bind. unfold assume_, guard_. destruct (_ =? _); [by apply wp_ret, wp_ret|]. apply F_stops. by right; left.
Qed.

(** A new peer in the address vector. *)
Definition new_peer (a : (Z * Z) * X) (epId : Z) s : S :=
  with_conn (fun c => set_remote (sm_insert (i32 epId) a.1.2 (remoteLiAddr c)) (epId +u 1) c) (with_ext a.2 s).

Lemma new_peer_ok G held busy d s name epId :
  ok G held busy d s -> patient fuel s -> ready s ->
  let s' := new_peer (fi_av_insert name (s_ext (cx_sys s))) epId s in
  ok G held busy d s' /\ patient fuel s' /\ ready s' /\ ep s' = ep s.
Proof.
  intros Hc Hp Hr s'. assert (ep s' = ep s) as He by apply fi_av_insert_ep. split; [|split; [unfold patient; by rewrite He|split; [by destruct Hr|done]]].
  apply ok_conn; try done. eapply conn_ok_quiet; [exact Hc| |..].
  - constructor; try done; simpl; [apply fi_av_insert_live|by destruct (cx_conn s)|]. intros a. apply fi_av_insert_target.
  - unfold flight. simpl. change (ep (with_ext _ s)) with (ep s'). by rewrite He.
  - unfold flight. simpl. change (ep (with_ext _ s)) with (ep s'). rewrite He. apply (co_pending _ _ _ _ _ _ Hc).
  - unfold all_recvs, flight. simpl. change (ep (with_ext _ s)) with (ep s'). by rewrite He.
Qed.

Lemma wp_onConnInit G held request s :
  ok G (msgBufferId request :: held) [] 0 s -> patient fuel s -> ready s -> is_u64 (nextEndpointId (cx_conn s)) ->
  reading s (msgBufferId request) (deserializer request) HEADER_SIZE ->
  hdr_msgType (header request) = msg_code IOC_LF_MSG_CONNECT_INIT ->
  wp F (onConnInit fuel onEndpointConnect request) (fun _ s' => exists G', G ⊆ G' /\ ok G' held [] 0 s') s.
Proof.
  intros Hc Hp Hr Hu Hrd Ht. pose proof (re_recv _ Hr) as Hsz. pose proof (re_msg _ Hr) as Hmz. unfold onConnInit.
  apply wp_bind, wp_guard; [by rewrite Ht|].
  destruct (first_client_any (mkFirstClient []) (set_root false (Serializer.set_mem (fun _ => cx_mem s) (deserializer request)))) as [v Hv].
  { by destruct Hrd as (? & _ & _ & _ & _ & ?). }
  { eapply reading_room; [exact Hc|apply held_in|exact Hrd|done|done|unfold HEADER_SIZE; lia]. }
  destruct (unpack_skips "firstClientMessage" (mkFirstClient []) v (deserializer request) 32 s) as (st & E & _).
  { destruct Hrd as (? & _ & _ & _ & _ & ->). done. }
  { exact Hv. }
  eapply wp_bind, wp_of_Ok; [exact E|]. apply wp_bind, wp_gets, wp_bind, wp_gets. cbn [fst snd]. apply wp_bind. unfold wp at 1, put.
  set (epId := nextEndpointId (cx_conn s)). set (a := fi_av_insert (fc_addr v) (s_ext (cx_sys s))).
  destruct (new_peer_ok _ _ _ _ s (fc_addr v) epId Hc Hp Hr) as (Hc1 & Hp1 & Hr1 & He). fold a in Hc1, Hp1, Hr1, He.
  fold (new_peer a epId s). set (s1 := new_peer a epId s) in *.
  apply wp_bind. unfold guard_. destruct (a.1.1 =? 1); [|apply F_stops; left; left; by right]. apply wp_ret, wp_bind.
  apply (wp_weaken pool_fault F); [intros f Hf; apply F_stops; by left|]. eapply wp_mono.
  { apply (wp_send_new cb_holds fuel G (msgBufferId request :: held) [] 0 s1 (Nop LF_WAIT_LOOP_KEEP_WAITING) IOC_LF_MSG_ASSIGN_ID (i32 epId)
      (mkHandshake IOC_LF_PROTOCOL_VERSION epId) a.1.2);
      [done|done|apply sm_find_insert_eq|by apply header_wf|by split|..|constructor];
      rewrite length_app, Nat2Z.inj_add, header_size; unfold HEADER_SIZE; simpl; rewrite !length_app, !le_split_length; simpl; lia. }
  intros _ s2 [_ (G2 & HG2 & Hc2)]. apply wp_bind, wp_gets.
  assert (forall (m : M S unit), wp F m (fun _ s' => exists G', G ⊆ G' /\ ok G' (msgBufferId request :: held) [] 0 s') s2 ->
    wp F (m ;; terminate request) (fun _ s' => exists G', G ⊆ G' /\ ok G' held [] 0 s') s2) as Hend.
  { intros m Hm. apply wp_bind. eapply wp_mono; [exact Hm|]. intros _ s3 (G3 & HG3 & Hc3). eapply wp_mono; [by apply wp_terminate|].
    intros _ s4 (G4 & HG4 & Hc4). exists G4. split; [by etransitivity|done]. }
  apply Hend. destruct (hookOnEndpointConnect (cx_conn s2)) as [f|].
  - eapply wp_mono; [by apply Hconnect|]. intros _ s3 (G3 & HG3 & Hc3). exists G3. split; [by etransitivity|done].
  - apply wp_ret. by exists G2.
Qed.

(** What a receive leaves: the buffer comes back, unless the message is refused. *)
Definition received G lost (id : Z) (auth : bool) s' : Prop :=
  exists G' lost', G ⊆ G' /\ ok G' lost' [] 0 s' /\ (lost' = lost \/ lost' = id :: lost /\ auth = true).

Lemma wp_run_hook G held k request s :
  ok G (msgBufferId request :: held) [] 0 s -> ready s -> reading s (msgBufferId request) (deserializer request) HEADER_SIZE ->
  wp F (run_hook onMessage k request) (fun _ s' => exists G', G ⊆ G' /\ ok G' held [] 0 s') s.
Proof. intros Hc Hr Hrd. destruct k as [k|]; [by apply Hhooks|by apply wp_onAssignId]. Qed.

Lemma wp_checkAuth G held h lf s :
  ok G held [] 0 s -> patient fuel s -> ready s ->
  wp F (checkAuth fuel h lf) (fun r s' => if r then s' = s else checkClientAuth (cx_conn s) = true /\ exists G', G ⊆ G' /\ ok G' held [] 0 s') s.
Proof.
  intros Hc Hp Hr. destruct (refused s h) eqn:Er; last first.
  { by eapply wp_of_Ok; [by apply checkAuth_accepts|]. }
  assert (checkClientAuth (cx_conn s) = true) as Hau by (by apply andb_true_iff in Er as [? _]).
  destruct (sm_find (i32 lf) (remoteLiAddr (cx_conn s))) as [addr|] eqn:Ed.
  - apply (wp_weaken pool_fault F); [intros f Hf; apply F_stops; by left|]. eapply wp_mono; [by eapply checkAuth_refuses|].
    intros r s' (-> & _ & Hg). done.
  - apply (wp_weaken stops F); [exact F_stops|]. unfold refused in Er. apply andb_true_iff in Er as [_ Hid]. apply negb_true_iff in Hid.
    unfold checkAuth. apply wp_bind, wp_gets. rewrite Hau. simpl negb. cbv iota. rewrite Hid. apply wp_bind. unfold sendResponse, sendNop.
    pose proof (re_msg _ Hr). pose proof (re_recv _ Hr). eapply wp_mono; [|intros ? ? Hno; exact (False_ind _ Hno)].
    eapply (wp_send_unknown cb_holds fuel G held [] 0 s (Nop LF_WAIT_LOOP_KEEP_WAITING) IOC_LF_MSG_BAD_AUTH (i32 lf) (mkResponse 0 (-1) false 0 None 0));
      [done|done|by apply header_wf|by split_and!|done|..]; fold (bad_auth s); rewrite bad_auth_size; lia.
Qed.

(** The text of an error may be anything: reading it stops at worst. *)
Lemma error_message_stops name st s :
  action st = SERIALIZER_UNPACK ->
  wp (fun f => f = FAssume \/ f = FOverrun) (unpack name (mkError []) st) (fun _ _ => True) s.
Proof.
  intros Ha. unfold unpack, wp, with_ser. set (st0 := Serializer.set_mem _ st).
  assert (wp (fun f => f = FAssume \/ f = FOverrun) (apply_struct applySerializerDef name (mkError [])) (fun _ _ => True) st0) as Hw;
    [|unfold wp in Hw; by destruct (apply_struct _ _ _ _) as [[? ?]|]].
  assert (action st0 = SERIALIZER_UNPACK) as Ha0 by done. clearbody st0. clear Ha st s.
  assert (forall name n st1, wp (fun f => f = FAssume \/ f = FOverrun) (checkSize name n) (fun _ st2 => st2 = st1) st1) as Hsize.
  { intros nm n st1. unfold checkSize. apply wp_bind, wp_gets. case_bool_decide; [by apply wp_ret|]. unfold assume_, guard_.
    destruct (_ <=? _); [by apply wp_ret|by left]. }
  unfold apply_struct. apply wp_bind, wp_gets. rewrite (bool_decide_eq_false_2 (action st0 = _)) by (rewrite Ha0; discriminate). apply wp_bind, wp_ret, wp_bind, wp_modify, wp_bind.
  apply (wp_mono _ _ (fun _ _ => True)); [|intros v st1 _; apply wp_bind, wp_gets, wp_bind; case_bool_decide; [apply wp_modify|apply wp_ret]; by apply wp_bind, wp_modify, wp_ret].
  simpl. unfold LibfabricErrorMessage_applySerializerDef. apply wp_bind. apply (wp_mono _ _ (fun _ _ => True)); [|intros v st1 _; by apply wp_ret].
  unfold apply_string. apply wp_bind, wp_gets, wp_bind. simpl. rewrite Ha0. apply wp_guard; [done|]. apply wp_bind.
  apply (wp_mono _ _ (fun _ _ => True)); [|intros v st1 _; by apply wp_bind, wp_modify, wp_ret]. apply wp_bind. unfold apply_u64, apply_scalar.
  apply wp_bind, wp_gets, wp_bind. simpl. rewrite Ha0. apply wp_guard; [done|]. apply wp_bind. eapply wp_mono; [apply Hsize|]. intros _ st1 ->.
  apply wp_bind, wp_ret, wp_bind, wp_modify, wp_ret. unfold load_string. apply wp_bind. eapply wp_mono; [apply Hsize|]. intros _ st1 ->.
  apply wp_bind, wp_gets, wp_bind. unfold assume_, guard_. case_bool_decide; [|by left]. apply wp_ret, wp_bind.
  destruct (c_string _); [|by right]. by apply wp_ret, wp_bind, wp_modify, wp_ret.
Qed.

Lemma wp_onRecv G lost id s :
  ok G (id :: lost) [] 0 s -> patient fuel s -> ready s -> is_u64 (nextEndpointId (cx_conn s)) ->
  wp F (onRecv fuel onMessage callback onEndpointConnect id) (fun _ s' => received G lost id (checkClientAuth (cx_conn s)) s') s.
Proof.
  intros Hc Hp Hr Hu. pose proof (re_recv _ Hr) as Hsz.
  destruct (open_message_run _ _ _ _ _ _ Hc (held_in _ _ _)) as (p & h & st & Ho & Hrd & _ & Hw & _); [unfold HEADER_SIZE; lia|].
  assert (forall B (m : M S B), wp F m (fun _ s' => exists G', G ⊆ G' /\ ok G' lost [] 0 s') s ->
    wp F m (fun _ s' => received G lost id (checkClientAuth (cx_conn s)) s') s) as Hback.
  { intros B m Hm. eapply wp_mono; [exact Hm|]. intros _ s' (G' & HG & Hc'). exists G', lost. auto. }
  set (request := mkClientRequest (hdr_lfClientId h) id h st). unfold onRecv. eapply wp_bind, wp_of_Ok; [exact Ho|]. cbn [fst snd]. fold request.
  destruct (hdr_msgType h =? _) eqn:E1.
  { apply Hback, wp_bind. apply Z.eqb_eq in E1. eapply wp_mono; [by apply wp_onConnInit|]. intros u s' Hs'. by apply wp_ret. }
  destruct (hdr_msgType h =? msg_code IOC_LF_MSG_BAD_AUTH).
  { apply Hback, wp_bind, wp_gets. destruct (hookOnBadAuth (cx_conn s)) as [f|] eqn:Ef; [|apply F_stops; by right; left].
    apply wp_bind. eapply wp_mono; [apply (wp_run_callback G (id :: lost)); by rewrite (re_bad _ Hr _ Ef)|].
    intros r s1 (G1 & HG1 & Hc1). apply wp_bind. eapply wp_mono; [by apply (wp_terminate G1 lost request)|].
    intros _ s2 (G2 & HG2 & Hc2). apply wp_ret. exists G2. split; [by etransitivity|done]. }
  destruct (hdr_msgType h =? msg_code IOC_LF_MSG_FATAL_ERROR).
  { apply Hback, wp_bind, wp_gets. destruct (hooks (cx_conn s) !! hdr_msgType h); [by apply wp_run_hook|].
    apply wp_bind. eapply wp_mono; [|intros ? ? _; by apply F_stops; right; left].
    eapply wp_weaken; [intros f Hf; apply F_stops; right; exact Hf|]. apply error_message_stops. by destruct Hrd as (? & _ & _ & _ & _ & ?). }
  apply wp_bind. eapply wp_mono; [by apply wp_checkAuth|]. intros [] s1; [intros ->|intros (Hau & G1 & HG1 & Hc1)]; cbn [negb].
  - apply Hback, wp_bind, wp_gets. destruct (hooks (cx_conn s) !! hdr_msgType h); [by apply wp_run_hook|]. apply F_stops. by right; left.
  - apply wp_ret. exists G1, (id :: lost). auto.
Qed.
End turns.

(** The message [v] follows the header in the buffer [p]. *)
Definition message_at {T} `{Message T} (m : mem) (p n : Z) (v : T) : Prop :=
  m_wf v /\ HEADER_SIZE + Z.of_nat (length (m_bytes m v)) <= n /\
  rd m (p + HEADER_SIZE) (Z.of_nat (length (m_bytes m v))) = m_bytes m v.

(** A message that was received is read back, and nothing changes. *)
Lemma unpack_received {T} `{MessageOk T} G held busy d s id st p name (old v : T) :
  ok G held busy d s -> id ∈ all_recvs cb_holds s held -> reading s id st HEADER_SIZE ->
  recvBuffers (cx_conn s) !! Z.to_nat id = Some p -> message_at (cx_mem s) p (recvBuffersSize (cx_conn s)) v ->
  exists st', unpack name old st s = Ok ((m_decoded old v (p + HEADER_SIZE), st'), s).
Proof.
  intros Hc Hin (q & Hq & Eb & Es & Ecu & Ea) Hp (Hw & Hl & Hrd). simplify_eq.
  destruct (recv_block _ _ _ _ _ _ Hc Hin) as (p' & Hp' & Hp0 & Hpe). simplify_eq.
  destruct (unpack_skips name old (m_decoded old v (buffer st + HEADER_SIZE)) st (blen (m_bytes (cx_mem s) v)) s) as (st' & E & _).
  - rewrite Ea. discriminate.
  - set (st1 := set_root false _). assert (holds st1 (m_bytes (cx_mem s) v)) as Hh.
    { split; [exact Ea|]. change (buffer st1) with (buffer st). unfold room. change (cursor st1) with (cursor st). change (size st1) with (size st).
      rewrite Es, Ecu. unfold HEADER_SIZE in *. split; [lia|exact Hrd]. }
    pose proof (unpack_ok (cx_mem s) old v st1 Hw ltac:(simpl; lia) ltac:(simpl; rewrite Es; lia) Hh) as Hu.
    change (buffer st1 + cursor st1) with (buffer st + cursor st) in Hu. by rewrite Ecu in Hu.
  - by exists st'.
Qed.
End poll.
End ConnectionPoll.
