(* ===== verification/ConnectionLoop.v ===== *)
(** * The loops of the connection

    Theorems on the turns of LibfabricConnection::poll: the invariant is kept, the
    completions are handled in the order libfabric gives them, the loops that put
    completions aside end, and a message is given once to libfabric whatever the
    refusals. *)

From Stdlib Require Import String.
From S2P Require Import Prelude StdMap Memory Serializer Protocol System Fabric LibfabricDomain ClientRegistry Connection Dispatch ConnectionInv ConnectionSend ConnectionPoll.

Module ConnectionLoop.
Import Serializer Protocol LibfabricDomain ClientRegistry Connection Dispatch ConnectionInv ConnectionSend ConnectionPoll.

Section queue.
Context {X Hook Cb A : Type} `{Libc X} `{!LibcOk X} `{Libfabric X} `{!LibfabricOk X} `{Fabric X} `{!FabricOk X} {users : Users}.
Abbreviation S := (Cx X Hook Cb A).
Implicit Types (s : S).

(** *** The order of the completions *)

(** The entries [l] came out of the queue of libfabric between [s] and [s'] and
    the entries [handled] were taken from the connection. *)
Definition fifo s (handled : list fi_cq_msg_entry) s' : Prop :=
  exists l, ep_read (ep s') = ep_read (ep s) ++ l /\ cqEntries (cx_conn s) ++ l = handled ++ cqEntries (cx_conn s').

Lemma fifo_trans s1 l1 s2 l2 s3 : fifo s1 l1 s2 -> fifo s2 l2 s3 -> fifo s1 (l1 ++ l2) s3.
Proof.
  intros (r1 & R1 & E1) (r2 & R2 & E2). exists (r1 ++ r2). split; [by rewrite R2, R1, app_assoc|].
  rewrite app_assoc, E1, <- !app_assoc. by rewrite E2.
Qed.

Lemma wp_take passive s :
  wp never (pollForCompletion passive true)
    (fun r s' => fifo s (option_list r) s' /\ (ep_busy (ep s') <= ep_busy (ep s))%nat /\ (ep_refusals (ep s') <= ep_refusals (ep s))%nat) s.
Proof.
  unfold pollForCompletion. apply wp_bind, wp_gets. pose proof (queue_step_read passive s) as Hr.
  destruct (cqEntries (cx_conn s)) as [|e rest] eqn:El.
  - apply wp_bind, wp_ret. cbv beta. fold (queue_step passive s). change (with_mem _ _) with (queue_step passive s).2.
    change (match _ with CQ_ENTRY e => Some e | _ => None end) with (queue_step passive s).1.
    destruct Hr as [_ Hca _ _ Hrf Hrd He]. rewrite El in Hca. split; [|split; [|done]].
    + exists (option_list (queue_step passive s).1). by rewrite Hca, El, app_nil_r.
    + unfold ep_busy. destruct (queue_step passive s).1 as [[[] c]|]; destruct He as [He1 ->]; rewrite (Permutation_length He1) || rewrite He1; simpl; lia.
  - apply wp_bind, wp_modify, wp_ret. split; [|done]. exists []. rewrite El, !app_nil_r. done.
Qed.

(** What the code does with the queue: take the next completion, or put aside all
    those that are ready. *)
Inductive queue_op : Type := Take (passive : bool) | PutAside.

Fixpoint run_queue (fuel : nat) (l : list queue_op) : M S (list fi_cq_msg_entry) :=
  match l with
  | [] => ret []
  | Take passive :: l =>
      let! e := pollForCompletion passive true in
      let! rest := run_queue fuel l in ret (option_list e ++ rest)
  | PutAside :: l => pollAllCqInCache fuel ;; run_queue fuel l
  end.

(** whatever the mix of turns of the loops, the completions are handed to the
    handlers in the order libfabric gave them, each of them once: those handled and
    those still put aside are those read. *)
Theorem completions_in_order fuel l s :
  (ep_busy (ep s) < fuel)%nat ->
  wp never (run_queue fuel l) (fun handled s' =>
    exists read, ep_read (ep s') = ep_read (ep s) ++ read /\ cqEntries (cx_conn s) ++ read = handled ++ cqEntries (cx_conn s')) s.
Proof.
  revert s. induction l as [|[passive|] l IH]; intros s Hn; simpl.
  - apply wp_ret. exists []. by rewrite !app_nil_r.
  - apply wp_bind. eapply wp_mono; [apply wp_take|]. intros e s1 (Hf & Hb & _). apply wp_bind. eapply wp_mono; [apply IH; lia|].
    intros rest s2 Hf2. apply wp_ret. by eapply fifo_trans.
  - apply wp_bind. eapply wp_mono; [by apply (wp_drain fuel s (fun _ => True))|]. intros _ s1 [[_ _ _ _ Hb (r & C & R)] _].
    eapply wp_mono; [apply IH; lia|]. intros rest s2 Hf2. apply (fifo_trans s [] s1 rest s2); [|done]. by exists r.
Qed.

(** C30: LibfabricConnection::pollAllCqInCache ends: the operations under way and
    the receive buffers posted bound its turns, whatever more it is given; its last
    turn found nothing in the queue. *)
Theorem pollAllCqInCache_terminates n s :
  (ep_busy (ep s) < n)%nat ->
  exists s1 s', (forall k, pollAllCqInCache (n + k) s = Ok (tt, s')) /\ queue_step false s1 = (None, s') /\ drained s s'.
Proof.
  revert s. induction n as [|n IH]; intros s Hn; [lia|].
  pose proof (queue_step_read false s) as Hr. destruct (queue_step false s) as [[e|] s1] eqn:Eq; cbn [fst snd] in Hr.
  - destruct (put_aside_drained _ _ _ Hr) as [Hd Hb]. destruct (IH (put_aside e s1)) as (s2 & s' & Hrun & Hlast & Hd'); [lia|].
    exists s2, s'. split; [|split; [done|by eapply drained_trans]].
    intros k. change (Datatypes.S n + k)%nat with (Datatypes.S (n + k)). rewrite pollAllCqInCache_step, Eq. simpl. apply Hrun.
  - exists s, s1. split; [|split; [done|by apply drained_none]].
    intros k. change (Datatypes.S n + k)%nat with (Datatypes.S (n + k)). by rewrite pollAllCqInCache_step, Eq.
Qed.
End queue.

Section send.
Context {X Hook Cb A : Type} `{Libc X} `{!LibcOk X} `{Libfabric X} `{!LibfabricOk X} `{Fabric X} `{!FabricOk X} {users : Users}.
Variable cb_holds : Cb -> list Z.
Variable fuel : nat.

(** C28: a message sent with a new action costs one buffer of the pool, and the
    bytes that reach libfabric are those of the header of the connection followed
    by those of the structure, once, whatever the refusals before; the only faults
    are those of the resources, so the loop on the refusals ends. *)
Theorem sendMessage_correct {T} `{MessageOk T} G held s body msgType dest (data : T) addr :
  let bytes := m_bytes (cx_mem s) (fillProtocolHeader (msg_code msgType) (cx_conn s)) ++ m_bytes (cx_mem s) data in
  conn_ok cb_holds G (body_holds cb_holds body ++ held) [] 0 s -> patient fuel s ->
  sm_find dest (remoteLiAddr (cx_conn s)) = Some addr ->
  m_wf (fillProtocolHeader (msg_code msgType) (cx_conn s)) -> m_wf data ->
  Z.of_nat (length bytes) <= msgBufferSize (s_domain (cx_sys s)) -> Z.of_nat (length bytes) <= recvBuffersSize (cx_conn s) ->
  Forall (outside G (all_bufs s [])) (m_regions data) ->
  wp pool_fault (let! a := new_action body in sendMessage fuel msgType dest data a)
    (fun _ (s' : Cx X Hook Cb A) =>
       ep_sent (ep s') = ep_sent (ep s) ++ [(addr, bytes)] /\ pendingAction (cx_conn s') = pendingAction (cx_conn s) + 1 /\
       cx_app s' = cx_app s /\ exists G', G ⊆ G' /\ conn_ok cb_holds G' held [] 0 s') s.
Proof.
  intros bytes Hc Hp Hd Hh Hw Hl1 Hl2 Hreg. eapply wp_mono; [by apply (wp_send_new cb_holds fuel G held [] 0 s body msgType dest data addr)|].
  by intros _ s' [[Hs Hpd _ Hap] Hg].
Qed.
End send.

Section turn.
Context {X Hook Cb A : Type} `{Libc X} `{!LibcOk X} `{Libfabric X} `{!LibfabricOk X} `{Fabric X} `{!FabricOk X} {users : Users} `{StringStorage}.
Abbreviation S := (Cx X (option Hook) Cb A).
Implicit Types (s : S) (G : heap).
Variable cb_holds : Cb -> list Z.
Variable fuel : nat.
Variable onMessage : Hook -> LibfabricClientRequest -> M S LibfabricActionResult.
Variable callback : Cb -> M S LibfabricActionResult.
Variable onEndpointConnect : Cb -> Z -> M S unit.
Abbreviation ok := (conn_ok cb_holds).

Lemma ready_quiet s s' : quiet s s' -> ready cb_holds s -> ready cb_holds s'.
Proof. intros Hq []. constructor; [rewrite (q_conn _ _ Hq)|rewrite (q_conn _ _ Hq)|rewrite (q_conn _ _ Hq)|rewrite (q_domain _ _ Hq)|rewrite (q_conn _ _ Hq)|rewrite (q_conn _ _ Hq)]; done. Qed.

(** C9: one turn of LibfabricConnection::poll keeps the invariant of the
    connection: every operation under way has its live action, pendingAction counts
    them, no message buffer is lost or used twice, and the receive buffer of a
    message comes back or is left to an action, with two exceptions: a message
    received while the reception is disabled, and one that the authentication
    refuses.  It asks as much of the hooks and of the functions of the actions. *)
Theorem poll_turn_ok (F : fault -> Prop) G lost s :
  (forall f, stops f -> F f) -> callback_ok cb_holds callback F -> hooks_ok cb_holds onMessage F -> connect_ok cb_holds onEndpointConnect F ->
  ok G lost [] 0 s -> patient fuel s -> ready cb_holds s -> is_u64 (nextEndpointId (cx_conn s)) ->
  wp F (poll_turn fuel onMessage callback onEndpointConnect)
    (fun _ s' => exists G' lost', G ⊆ G' /\ ok G' lost' [] 0 s' /\
       (lost' = lost \/ exists id, lost' = id :: lost /\ checkClientAuth (cx_conn s) || disableReceive (cx_conn s) = true)) s.
Proof.
  intros HF Hcb Hhk Hcon Hc Hp Hr Hu. unfold poll_turn. apply wp_bind, wp_gets, wp_bind. apply wp_never.
  eapply wp_mono; [eapply wp_also; [by apply wp_pollForCompletion|eapply wp_weaken; [|apply wp_take]; done]|].
  intros r s1 [[Hq Ho] (_ & Hb & Hf)].
  assert (patient fuel s1) as Hp1 by (destruct Hp; split; lia). pose proof (ready_quiet _ _ Hq Hr) as Hr1.
  assert (checkClientAuth (cx_conn s1) = checkClientAuth (cx_conn s) /\ disableReceive (cx_conn s1) = disableReceive (cx_conn s) /\
    nextEndpointId (cx_conn s1) = nextEndpointId (cx_conn s)) as (Ea & Ed & En) by (by rewrite (q_conn _ _ Hq)).
  destruct r as [[[] c]|]; simpl in Ho.
  - apply wp_bind, wp_gets. rewrite Ed. destruct (disableReceive (cx_conn s)) eqn:Edis.
    + apply wp_ret. exists G, (c :: lost). split; [done|]. split; [done|]. right. exists c. by rewrite orb_true_r.
    + apply wp_bind. eapply wp_mono; [eapply (wp_onRecv cb_holds fuel); try done; by rewrite En|].
      intros res s2 (G' & lost' & HG & Hc' & [->|[-> Hau]]); apply wp_ret; eexists G', _; (split; [done|]; split; [done|]); [by left|].
      right. exists c. rewrite Ea in Hau. by rewrite Hau.
  - destruct (co_live _ _ _ _ _ _ Ho c) as [act Hact]; [apply elem_of_app; right; by left|].
    pose proof (co_acts _ _ _ _ _ _ Ho _ _ Hact) as [Hpos _]. unfold IOC_LF_NO_WAKEUP_POST_ACTION. replace (c =? -1) with false by lia.
    apply wp_bind. eapply wp_mono; [by apply (finish_action_correct cb_holds callback F G lost c act s1)|].
    intros res s2 [(G' & HG & Hc') _]. apply wp_ret. exists G', lost. auto.
  - apply wp_ret. exists G, lost. auto.
Qed.
End turn.
End ConnectionLoop.
