(* ===== verification/ConnectionJoin.v ===== *)
(** * The handshake of a connection

    A client writes its name to the server, the server adds it to its address
    vector and answers with the number of the client (LibfabricConnection::joinServer
    and onConnInit of src/src/base/network/LibfabricConnection.cpp).  The theorems
    say what each side sends and keeps.  [Settles] are the programs that leave
    libfabric with no more refusals to come and no more actions under way than
    messages sent, so that the loops of a whole session end. *)

From Stdlib Require Import String.
From S2P Require Import Prelude StdMap Memory Serializer Protocol System Fabric LibfabricDomain ClientRegistry Connection Dispatch ConnectionInv ConnectionSend ConnectionPoll ConnectionLoop.

Module ConnectionJoin.
Import Serializer Protocol LibfabricDomain ClientRegistry Connection Dispatch ConnectionInv ConnectionSend ConnectionPoll ConnectionLoop.

Section settles.
Context {X Hook Cb A : Type} `{Libc X} `{!LibcOk X} `{Libfabric X} `{!LibfabricOk X} `{Fabric X} `{!FabricOk X} {users : Users}.
Abbreviation S := (Cx X Hook Cb A).
Implicit Types (s : S).

(** The actions counted that no message explains. *)
Definition load s : Z := pendingAction (cx_conn s) - Z.of_nat (length (ep_sent (ep s))).

(** What a program that only sends and receives messages leaves: no more refusals
    to come, no more actions under way than messages sent since, new actions that
    wake no loop up, and the message buffers of the same size. *)
Record calmer s s' : Prop := {
  ca_refusals : (ep_refusals (ep s') <= ep_refusals (ep s))%nat;
  ca_load : load s' <= load s;
  ca_size : msgBufferSize (s_domain (cx_sys s')) = msgBufferSize (s_domain (cx_sys s));
  ca_bodies : forall a act, cx_actions s' !! a = Some act ->
    pa_body act = Nop LF_WAIT_LOOP_KEEP_WAITING \/ exists act0, cx_actions s !! a = Some act0 /\ pa_body act = pa_body act0;
}.
#[export] Instance calmer_refl : Reflexive calmer.
Proof. intros s. constructor; try done. eauto. Qed.
#[export] Instance calmer_trans : Transitive calmer.
Proof.
  intros s1 s2 s3 [] []. constructor; [lia|lia|congruence|]. intros a act Ha.
  destruct (ca_bodies1 _ _ Ha) as [?|(act1 & H1' & ->)]; [by left|]. by apply ca_bodies0.
Qed.

Lemma calmer_same s s' :
  ep s' = ep s -> pendingAction (cx_conn s') = pendingAction (cx_conn s) ->
  msgBufferSize (s_domain (cx_sys s')) = msgBufferSize (s_domain (cx_sys s)) -> cx_actions s' = cx_actions s -> calmer s s'.
Proof. intros He Hp Hs Ha. constructor; unfold load; rewrite ?He, ?Hp, ?Ha; [done|done|done|eauto]. Qed.

Class Settles {B} (m : M S B) : Prop := settles : forall s, wp any m (fun _ s' => calmer s s') s.

#[export] Instance settles_bind {B C} (m : M S B) (k : B -> M S C) : Settles m -> (forall b, Settles (k b)) -> Settles (bind m k).
Proof.
  intros Hm Hk s. apply wp_bind. eapply wp_mono; [apply Hm|]. intros b s1 H1'. eapply wp_mono; [apply Hk|].
  intros c s2 H2'. exact (transitivity H1' H2').
Qed.
#[export] Instance settles_ret {B} (b : B) : Settles (ret b).
Proof. intros s. by apply wp_ret. Qed.
#[export] Instance settles_gets {B} (f : S -> B) : Settles (gets f).
Proof. intros s. by apply wp_gets. Qed.
#[export] Instance settles_get : Settles get.
Proof. intros s. by apply wp_gets. Qed.
#[export] Instance settles_conn {B} (f : Conn Hook Cb -> B) : Settles (conn f).
Proof. intros s. by apply wp_gets. Qed.
#[export] Instance settles_abort {B} f : Settles (abort (A := B) f).
Proof. done. Qed.
#[export] Instance settles_guard f b : Settles (guard_ f b).
Proof. intros s. destruct b; [by apply wp_ret|done]. Qed.
#[export] Instance settles_option {B} f (o : option B) : Settles (of_option f o).
Proof. intros s. destruct o; [by apply wp_ret|done]. Qed.
#[export] Instance settles_if {B} (b : bool) (m m' : M S B) : Settles m -> Settles m' -> Settles (if b then m else m').
Proof. by destruct b. Qed.
#[export] Instance settles_counted_down : Settles (count_action (-1)).
Proof. intros s. apply wp_modify. constructor; [done| |done|eauto]. unfold load. simpl. change (ep _) with (ep s). lia. Qed.
#[export] Instance settles_memory f : Settles (modify (fun s => with_mem (f s) s)).
Proof. intros s. by apply wp_modify, calmer_same. Qed.
#[export] Instance settles_new_action : Settles (new_action (Nop LF_WAIT_LOOP_KEEP_WAITING)).
Proof. intros s. constructor; try done. simpl. intros a act [[<- <-]|[_ Ha]]%lookup_insert_Some; [by left|right; by exists act]. Qed.
#[export] Instance settles_attach a p : Settles (attachDomainBuffer a p).
Proof.
  intros s. unfold attachDomainBuffer, get_action. apply wp_bind, wp_bind, wp_gets. destruct (cx_actions s !! a) as [act|] eqn:Ea; [|done].
  apply wp_ret, wp_bind. unfold assert_, guard_. destruct (negb _); [|done]. apply wp_ret, wp_bind. destruct (_ =? 0); [|done].
  apply wp_ret, wp_bind. destruct (negb _); [|done]. apply wp_ret, wp_modify. constructor; try done. simpl.
  intros b act' [[<- <-]|[_ Hb]]%lookup_insert_Some; right; [by exists act|by exists act'].
Qed.
#[export] Instance settles_erase a : Settles (modify (fun s => with_actions (delete a (cx_actions s)) (cx_nextAction s) s)).
Proof. intros s. apply wp_modify. constructor; try done. simpl. intros b act [_ Hb]%lookup_delete_Some. right. by exists act. Qed.
#[export] Instance settles_with_ser {B} (m : M Ser B) st : Settles (with_ser m st).
Proof. intros s. unfold wp, with_ser. destruct (m _) as [[b x]|f]; [|done]. by apply calmer_same. Qed.
#[export] Instance settles_new_serializer buf sz act : Settles (new_serializer buf sz act).
Proof. intros s. unfold wp, new_serializer. destruct (init_buffer _ _ _ _); [|done]. by apply calmer_same. Qed.

Lemma settles_on_sys {B} (m : M (Sys X) B) :
  (forall x, wp any m (fun _ x' => fa_ep (s_ext x') = fa_ep (s_ext x) /\ msgBufferSize (s_domain x') = msgBufferSize (s_domain x)) x) ->
  Settles (on_sys m).
Proof. intros Hm s. apply wp_conn_sys. eapply wp_mono; [apply Hm|]. intros b x [He Hs]. by apply calmer_same. Qed.
#[export] Instance settles_getMsgBuffer : Settles (on_sys getMsgBuffer).
Proof. apply settles_on_sys. intros x. eapply wp_mono; [apply getMsgBuffer_frame|]. by intros b x' (? & _ & ?). Qed.
#[export] Instance settles_getMsgBufferSize : Settles (on_sys getMsgBufferSize).
Proof. by apply settles_on_sys. Qed.
#[export] Instance settles_retMsgBuffer p : Settles (on_sys (retMsgBuffer p)).
Proof. apply settles_on_sys. intros x. unfold retMsgBuffer, assume_, guard_, wp, bind. by destruct (negb _). Qed.

Lemma read_calmer s r s' : read_queue s r s' -> calmer s s'.
Proof.
  intros [Hq _ Hp Hs Hr _ _]. constructor; [done|unfold load; by rewrite Hp, Hs|by rewrite (q_domain _ _ Hq)|]. rewrite (q_actions _ _ Hq). eauto.
Qed.
#[export] Instance settles_drain n : Settles (pollAllCqInCache n).
Proof.
  induction n as [|n IH]; intros s; [done|]. unfold wp. rewrite pollAllCqInCache_step. pose proof (queue_step_read false s) as Hr%read_calmer.
  destruct (queue_step false s) as [[e|] s1]; cbn [fst snd] in *; [|exact Hr].
  pose proof (IH (put_aside e s1)) as Hw. unfold wp in Hw. destruct (pollAllCqInCache n _) as [[[] s2]|]; [|done].
  etransitivity; [exact Hr|]. etransitivity; [|exact Hw]. by apply calmer_same.
Qed.
#[export] Instance settles_take passive : Settles (pollForCompletion passive true).
Proof.
  intros s. unfold pollForCompletion. apply wp_bind, wp_gets. pose proof (queue_step_read passive s) as Hr%read_calmer.
  destruct (cqEntries (cx_conn s)); [by apply wp_bind, wp_ret|]. apply wp_bind, wp_modify, wp_ret. by apply calmer_same.
Qed.
#[export] Instance settles_fi_recv p n id : Settles (fabric (fi_recv p n id)).
Proof.
  intros s. unfold wp, fabric. pose proof (fi_recv_ok (s_ext (cx_sys s)) p n id) as He. cbv zeta in He.
  constructor; unfold load, ep; simpl; rewrite ?He; try (by destruct (_ =? 0)). eauto.
Qed.

(** A message that libfabric takes makes room for its action. *)
Lemma fi_send_calmer addr buffer n a s :
  wp any (let! m := gets cx_mem in fabric (fi_send addr (rd m buffer n) a))
    (fun err s' => calmer s s' /\ (err = 0 -> load s' < load s)) s.
Proof.
  apply wp_bind, wp_gets. unfold wp, fabric. set (l := rd _ _ _). pose proof (fi_send_ok (s_ext (cx_sys s)) addr l a) as Hp.
  pose proof (fi_send_refusals (s_ext (cx_sys s)) addr l a) as Hr. set (r := fi_send addr l a (s_ext (cx_sys s))) in *. unfold posted in Hp.
  change (fa_ep r.2) with (ep (with_ext r.2 s)) in *. change (fa_ep (s_ext (cx_sys s))) with (ep s) in *.
  assert (load (with_ext r.2 s) <= load s /\ (r.1 = 0 -> load (with_ext r.2 s) < load s)) as [Hl Hl'].
  { unfold load. change (cx_conn (with_ext r.2 s)) with (cx_conn s).
    destruct (r.1 =? 0) eqn:E0; destruct Hp as (_ & _ & -> & _); rewrite ?length_app; simpl; lia. }
  split; [constructor; try done; simpl; eauto|exact Hl'].
Qed.
Lemma retry_calmer fuel n addr buffer k a s :
  wp any (retry fuel n (let! m := gets cx_mem in fabric (fi_send addr (rd m buffer k) a)))
    (fun err s' => calmer s s' /\ (err = 0 -> load s' < load s)) s.
Proof.
  revert s. induction n as [|n IH]; intros s; [done|]. cbn [retry]. apply wp_bind. eapply wp_mono; [apply fi_send_calmer|].
  intros err s1 [H1' H0']. destruct (_ =? _); [|by apply wp_ret]. apply wp_bind. eapply wp_mono; [apply (settles_drain fuel)|].
  intros u s2 H2'. eapply wp_mono; [apply IH|]. intros err' s3 [H3' H4']. split; [exact (transitivity H1' (transitivity H2' H3'))|].
  intros E. specialize (H4' E). pose proof (ca_load _ _ H1'). pose proof (ca_load _ _ H2'). lia.
Qed.
#[export] Instance settles_sendRaw fuel p n d a : Settles (sendRawMessage fuel p n d a).
Proof.
  unfold sendRawMessage, find_remote. repeat (apply settles_bind; [apply _|intros ?]). intros s. apply wp_bind.
  eapply wp_mono; [apply retry_calmer|]. intros err s1 [[Hr Hl0 Hz Hb] Hl]. apply wp_bind. unfold guard_. destruct (err =? 0) eqn:E; [|done].
  apply Z.eqb_eq in E. specialize (Hl E). apply wp_ret, wp_modify. constructor; [done| |done|exact Hb]. unfold load in *. simpl. change (ep _) with (ep s1) at 1. lia.
Qed.
#[export] Instance settles_send fuel {T} `{Message T} t d (data : T) a : Settles (sendMessage fuel t d data a).
Proof. unfold sendMessage. apply _. Qed.
#[export] Instance settles_send_nowakeup fuel {T} `{Message T} t d (data : T) : Settles (sendMessageNoPollWakeup fuel t d data).
Proof. unfold sendMessageNoPollWakeup. apply _. Qed.
#[export] Instance settles_sendResponse fuel t lf status : Settles (sendResponse fuel t lf status false).
Proof. unfold sendResponse, sendNop. apply _. Qed.
#[export] Instance settles_repost id : Settles (repostReceive id).
Proof. unfold repostReceive. apply _. Qed.
#[export] Instance settles_terminate request : Settles (terminate request).
Proof. apply settles_repost. Qed.
#[export] Instance settles_delete a : Settles (delete_action a).
Proof. unfold delete_action, get_action, freeBuffer. apply _. Qed.
End settles.

(** Any twelve bytes are a handshake. *)
Lemma handshake_of_bytes m l : length l = 12%nat -> exists w : LibfabricFirstHandshake, m_wf w /\ m_bytes m w = l.
Proof.
  intros Hl. assert (length (take 4 l) = 4%nat) as H4 by (rewrite length_take; lia). assert (length (drop 4 l) = 8%nat) as H8 by (rewrite length_drop; lia).
  assert (le_split 4 (i32 (le_combine (take 4 l))) = take 4 l) as Hv.
  { pose proof (le_split_combine (le_split 4 (i32 (le_combine (take 4 l))))) as E. rewrite le_split_length, le_combine_split in E.
    rewrite <- E. change (256 ^ Z.of_nat 4) with (2 ^ 32). unfold i32, swrap. rewrite Zminus_mod_idemp_l, Z.add_simpl_r, Z.mod_small.
    - rewrite <- H4 at 1. apply le_split_combine.
    - pose proof (le_combine_range (take 4 l)) as Hr. by rewrite H4 in Hr. }
  exists (mkHandshake (i32 (le_combine (take 4 l))) (le_combine (drop 4 l))). split.
  - split; [apply i32_range|]. pose proof (le_combine_range (drop 4 l)) as Hr. by rewrite H8 in Hr.
  - simpl. rewrite Hv, app_nil_r. rewrite <- H8, le_split_combine. apply take_drop.
Qed.

Section handshake.
Context {X Hook Cb A : Type} `{Libc X} `{!LibcOk X} `{Libfabric X} `{!LibfabricOk X} `{Fabric X} `{!FabricOk X} {users : Users} `{StringStorage}.
Abbreviation S := (Cx X (option Hook) Cb A).
Implicit Types (s : S) (G : heap).
Variable cb_holds : Cb -> list Z.
Variable fuel : nat.
Variable onEndpointConnect : Cb -> Z -> M S unit.
Abbreviation ok := (conn_ok cb_holds).

(** A structure of [n] bytes that any bytes can be read as, after the header: what
    is read is what was sent. *)
Lemma unpack_any {T} `{MessageOk T} G held name (old : T) n request s :
  (forall st, action st = SERIALIZER_UNPACK -> room st n -> exists v, skips (applySerializerDef old) v n st) -> 0 <= n ->
  ok G (msgBufferId request :: held) [] 0 s -> reading s (msgBufferId request) (deserializer request) HEADER_SIZE ->
  HEADER_SIZE + n <= recvBuffersSize (cx_conn s) ->
  exists v st, unpack name old (deserializer request) s = Ok ((v, st), s) /\
    forall p w, recvBuffers (cx_conn s) !! Z.to_nat (msgBufferId request) = Some p ->
      message_at (cx_mem s) p (recvBuffersSize (cx_conn s)) w -> v = m_decoded old w (p + HEADER_SIZE).
Proof.
  intros Hany Hn Hc Hrd Hsz. assert (action (deserializer request) = SERIALIZER_UNPACK) as Ha by by destruct Hrd as (? & _ & _ & _ & _ & ?).
  destruct (Hany (set_root false (Serializer.set_mem (fun _ => cx_mem s) (deserializer request)))) as [v Hv].
  { exact Ha. }
  { eapply (reading_room cb_holds); [exact Hc|apply held_in|exact Hrd|done|done|done]. }
  destruct (unpack_skips name old v (deserializer request) n s) as (st & E & _); [by rewrite Ha|exact Hv|].
  exists v, st. split; [done|]. intros p w Hp Hw.
  destruct (unpack_received cb_holds _ _ _ _ s _ _ p name old w Hc (held_in _ _ _ _) Hrd Hp Hw) as [st' E']. congruence.
Qed.

(** What libfabric works on is counted: operations by [pendingAction], receive
    buffers by their number. *)
Lemma busy_bound G held busy d s :
  ok G held busy d s -> Z.of_nat (ep_busy (ep s)) <= pendingAction (cx_conn s) - d + Z.of_nat (length (recvBuffers (cx_conn s))).
Proof.
  intros Hc. pose proof (co_pending _ _ _ _ _ _ Hc) as Hp. unfold flight in Hp. rewrite length_app in Hp.
  assert (length (ep_recvs (ep s)) <= length (recvBuffers (cx_conn s)))%nat as Hl; [|unfold ep_busy; lia].
  set (n := length (recvBuffers (cx_conn s))). replace n with (length (seqZ 0 (Z.of_nat n))) by (rewrite length_seqZ; lia).
  apply submseteq_length, NoDup_submseteq.
  - pose proof (co_recvs _ _ _ _ _ _ Hc) as Hnd. unfold all_recvs in Hnd. by apply NoDup_app in Hnd as (? & _ & _).
  - intros id Hid. rewrite elem_of_seqZ. pose proof (co_ids _ _ _ _ _ _ Hc id) as Hr. unfold all_recvs in Hr. rewrite elem_of_app in Hr. fold n in Hr. specialize (Hr (or_introl Hid)). lia.
Qed.

(** The answer to the client number [epId]. *)
Definition assign_id s (epId : Z) : list byte :=
  m_bytes (cx_mem s) (fillProtocolHeader (msg_code IOC_LF_MSG_ASSIGN_ID) (cx_conn s)) ++
  m_bytes (cx_mem s) (mkHandshake IOC_LF_PROTOCOL_VERSION epId).

(** A new client: libfabric gave [addr] for its name. *)
Record admitted s (addr : Z) s' : Prop := {
  ad_sent : ep_sent (ep s') = ep_sent (ep s) ++ [(addr, assign_id s (nextEndpointId (cx_conn s)))];
  ad_pending : pendingAction (cx_conn s') = pendingAction (cx_conn s) + 1;
  ad_conn : cx_conn s' = set_queue (cqEntries (cx_conn s')) (pendingAction (cx_conn s'))
    (set_remote (sm_insert (i32 (nextEndpointId (cx_conn s))) addr (remoteLiAddr (cx_conn s))) (nextEndpointId (cx_conn s) +u 1) (cx_conn s));
  ad_app : cx_app s' = cx_app s;
  ad_calmer : calmer s s';
  ad_takes : takes [] s s';
}.

(** LibfabricConnection::onConnInit adds the name that came in the message to the
    address vector under the next number and sends this number to it, once; the
    receive buffer is posted again. *)
Theorem connection_admits G held request p s :
  ok G (msgBufferId request :: held) [] 0 s -> patient fuel s -> ready cb_holds s -> is_u64 (nextEndpointId (cx_conn s)) ->
  reading s (msgBufferId request) (deserializer request) HEADER_SIZE -> hdr_msgType (header request) = msg_code IOC_LF_MSG_CONNECT_INIT ->
  hookOnEndpointConnect (cx_conn s) = None -> recvBuffers (cx_conn s) !! Z.to_nat (msgBufferId request) = Some p ->
  wp stops (onConnInit fuel onEndpointConnect request)
    (fun _ s' => exists name,
       (forall v : LibfabricFirstClientMessage, message_at (cx_mem s) p (recvBuffersSize (cx_conn s)) v -> name = fc_addr v) /\
       admitted s (fi_av_insert name (s_ext (cx_sys s))).1.2 s' /\ exists G', G ⊆ G' /\ ok G' held [] 0 s') s.
Proof.
  intros Hc Hp Hr Hu Hrd Ht Hho Hpb. pose proof (re_recv _ _ Hr) as Hsz. pose proof (re_msg _ _ Hr) as Hmz. unfold onConnInit.
  apply wp_bind, wp_guard; [by rewrite Ht|].
  destruct (unpack_any G held "firstClientMessage" (mkFirstClient []) 32 request s ltac:(exact (first_client_any _)) ltac:(done) Hc Hrd) as (v & st & E & Hv); [unfold HEADER_SIZE; lia|].
  eapply wp_bind, wp_of_Ok; [exact E|]. apply wp_bind, wp_gets, wp_bind, wp_gets. cbn [fst snd]. apply wp_bind. unfold wp at 1, put.
  set (epId := nextEndpointId (cx_conn s)) in *. set (a := fi_av_insert (fc_addr v) (s_ext (cx_sys s))).
  destruct (new_peer_ok cb_holds fuel _ _ _ _ s (fc_addr v) epId Hc Hp Hr) as (Hc1 & Hp1 & Hr1 & He). fold a in Hc1, Hp1, Hr1, He.
  fold (new_peer a epId s). set (s1 := new_peer a epId s) in *.
  apply wp_bind. unfold guard_. destruct (a.1.1 =? 1); [|left; left; by right]. apply wp_ret, wp_bind.
  eapply (wp_weaken pool_fault); [by left|]. eapply wp_mono.
  { eapply wp_also; [|apply settles].
    apply (wp_send_new cb_holds fuel G (msgBufferId request :: held) [] 0 s1 (Nop LF_WAIT_LOOP_KEEP_WAITING) IOC_LF_MSG_ASSIGN_ID (i32 epId)
      (mkHandshake IOC_LF_PROTOCOL_VERSION epId) a.1.2);
      [done|done|apply sm_find_insert_eq|by apply (header_wf cb_holds)|by split|..|constructor];
      rewrite length_app, Nat2Z.inj_add, header_size; unfold HEADER_SIZE; simpl; rewrite !length_app, !le_split_length; simpl; lia. }
  intros _ s2 [[[Hsent Hpend Hcn Hap Htk] (G2 & HG2 & Hc2)] Hfew]. apply wp_bind, wp_gets.
  assert (hookOnEndpointConnect (cx_conn s2) = None) as -> by (rewrite Hcn; exact Hho). apply wp_bind, wp_ret.
  unfold terminate. eapply (wp_weaken resource); [by left; left|]. eapply wp_mono; [apply wp_also; [by apply wp_repostReceive|apply settles]|].
  intros _ s3 [(Hc3 & Hcn3 & Hap3 & _ & _ & Hsn3 & Hrd3) Hfew3]. exists (fc_addr v). split; [intros w Hw; by rewrite (Hv p w Hpb Hw)|]. split; [|by exists G2].
  constructor; [by rewrite Hsn3, Hsent, He|by rewrite Hcn3, Hpend|rewrite Hcn3; exact Hcn|by rewrite Hap3, Hap| |].
  - etransitivity; [|exact Hfew3]. etransitivity; [|exact Hfew]. apply calmer_same; [exact He|done|done|done].
  - apply (takes_trans [] [] _ s1); [by apply takes_none; [rewrite He|]|]. apply (takes_trans [] [] _ s2); [exact Htk|]. apply takes_none; [exact Hrd3|by rewrite Hcn3].
Qed.

(** The number in the answer becomes that of the client. *)
Lemma wp_assigned G held request p s :
  ok G (msgBufferId request :: held) [] 0 s -> ready cb_holds s -> reading s (msgBufferId request) (deserializer request) HEADER_SIZE ->
  recvBuffers (cx_conn s) !! Z.to_nat (msgBufferId request) = Some p ->
  wp stops (onAssignId request)
    (fun r s' => r = LF_WAIT_LOOP_UNBLOCK /\ ok G held [] 0 s' /\ cx_app s' = cx_app s /\ cx_mem s' = cx_mem s /\ calmer s s' /\
       ep_sent (ep s') = ep_sent (ep s) /\ takes [] s s' /\ exists v : LibfabricFirstHandshake, cx_conn s' = set_clientId (hs_assignLfClientId v) (cx_conn s) /\
         hs_protocolVersion v = IOC_LF_PROTOCOL_VERSION /\ message_at (cx_mem s) p (recvBuffersSize (cx_conn s)) v) s.
Proof.
  intros Hc Hr Hrd Hpb. pose proof (re_recv _ _ Hr) as Hsz. unfold onAssignId.
  destruct (unpack_any G held "firstHandshakeResponse" (mkHandshake 0 0) 12 request s ltac:(exact (handshake_any _)) ltac:(done) Hc Hrd) as (v & st & E & Hv); [unfold HEADER_SIZE; lia|].
  destruct (handshake_of_bytes (cx_mem s) (rd (cx_mem s) (p + HEADER_SIZE) 12)) as (w & Hw & Hb); [apply Nat2Z.inj; by rewrite rd_length|].
  assert (blen (m_bytes (cx_mem s) w) = 12) as Hlen by (rewrite Hb; by apply rd_length).
  assert (message_at (cx_mem s) p (recvBuffersSize (cx_conn s)) w) as Hat by (split; [done|]; rewrite Hlen; split; [unfold HEADER_SIZE; lia|done]).
  assert (v = w) as -> by exact (Hv p w Hpb Hat). eapply wp_bind, wp_of_Ok; [exact E|]. cbn [fst]. apply wp_bind, wp_modify, wp_bind. unfold terminate.
  eapply (wp_weaken resource); [by left; left|]. set (s1 := with_conn _ s).
  assert (ok G (msgBufferId request :: held) [] 0 s1) as Hc1 by by apply ok_conn.
  eapply wp_mono; [apply wp_also; [by apply wp_repostReceive|apply settles]|].
  intros _ s2 [(Hc2 & Hcn2 & Hap2 & Hm2 & _ & Hsn2 & Hrd2) Hfew2].
  apply wp_bind. unfold assume_, guard_. destruct (_ =? _) eqn:Ev; [|by right; left]. apply Z.eqb_eq in Ev. apply wp_ret, wp_ret.
  split; [done|]. split; [done|]. split; [done|]. split; [done|]. split; [exact (transitivity (calmer_same s s1 eq_refl eq_refl eq_refl eq_refl) Hfew2)|].
  split; [done|]. split; [apply takes_none; [exact Hrd2|by rewrite Hcn2]|]. by exists w.
Qed.
End handshake.
End ConnectionJoin.
