(* ===== verification/ConnectionRdma.v ===== *)
(** * RDMA operations

    An RDMA operation is posted to libfabric with an action whose function runs when
    it completes.  The theorems are on what is posted and on the invariant of the
    connection. *)

From Stdlib Require Import String.
From S2P Require Import Prelude StdMap Memory Serializer Protocol System Fabric LibfabricDomain ClientRegistry Connection ConnectionInv ConnectionSend.

Module ConnectionRdma.
Import Serializer Protocol LibfabricDomain ClientRegistry Connection ConnectionInv ConnectionSend.

Section rdma.
Context {X Hook Cb A : Type} `{Libc X} `{!LibcOk X} `{Libfabric X} `{!LibfabricOk X} `{Fabric X} `{!FabricOk X} {users : Users}.
Abbreviation S := (Cx X Hook Cb A).
Implicit Types (s t : S) (G : heap).
Variable cb_holds : Cb -> list Z.
Variable fuel : nat.
Abbreviation ok := (conn_ok cb_holds).

(** The piece of memory is in a region of the domain. *)
Definition registered s (v : Z * Z) : Prop := exists mr, getFidMR v.1 v.2 (cx_sys s) = Ok (Some mr, cx_sys s).

Lemma wp_check_regions F s iov Q : Forall (registered s) iov -> Q tt s -> wp F (for_each iov check_region) Q s.
Proof.
  intros Hreg HQ. induction Hreg as [|v iov [mr Hmr] _ IH]; [done|]. simpl. apply wp_bind. unfold check_region, on_sys, wp at 1, bind, assert_, guard_.
  rewrite Hmr. simpl. by destruct s.
Qed.

(** What the turns of the loop change: the completions put aside, and the actions
    left by the refusals. *)
Record retried s t : Prop := {
  rt_app : cx_app t = cx_app s;
  rt_conn : cx_conn t = set_queue (cqEntries (cx_conn t)) (pendingAction (cx_conn t)) (cx_conn s);
  rt_pending : pendingAction (cx_conn t) = pendingAction (cx_conn s);
  rt_sent : ep_sent (ep t) = ep_sent (ep s);
  rt_domain : s_domain (cx_sys t) = s_domain (cx_sys s);
  rt_flight : flight t ≡ₚ flight s;
  rt_next : cx_nextAction s <= cx_nextAction t;
  rt_actions : forall a, a < cx_nextAction s -> cx_actions t !! a = cx_actions s !! a;
}.

Lemma retried_refl s : retried s s.
Proof. constructor; try done. by destruct (cx_conn s). Qed.

Lemma retried_bufs G held busy d s t :
  ok G held busy d s -> retried s t -> all_bufs t [] ≡ₚ all_bufs s [].
Proof.
  intros Hc []. unfold all_bufs. rewrite rt_domain0, !app_nil_r. f_equiv. rewrite rt_flight0. unfold bufs.
  assert (forall l, (forall a, a ∈ l -> a < cx_nextAction s) -> l ≫= buffer_of (cx_actions t) = l ≫= buffer_of (cx_actions s)) as Hl.
  { induction l as [|a l IH]; intros Hall; [done|]. rewrite !bind_cons, IH by (intros b Hb; apply Hall; by right).
    unfold buffer_of. by rewrite rt_actions0 by (apply Hall; by left). }
  rewrite Hl; [done|]. intros a Ha. destruct (co_live _ _ _ _ _ _ Hc a) as [act Hact]; [apply elem_of_app; by left|].
  apply (co_acts _ _ _ _ _ _ Hc) in Hact as [? _]. lia.
Qed.

(** Putting completions aside moves the operations, it loses none. *)
Lemma drain_flight n s : (ep_busy (ep s) < n)%nat -> wp never (pollAllCqInCache n) (fun _ t => flight t ≡ₚ flight s) s.
Proof.
  intros Hn. eapply wp_mono; [apply (wp_drain n s (fun t => flight t ≡ₚ flight s)); try done|by intros _ t [_ ?]].
  - intros t e t1 Ht [Hq Hca Hp Hsn Hrf Hrd He]. rewrite <- Ht. unfold flight. change (ep (put_aside e t1)) with (ep t1). simpl. rewrite ops_of_app, Hca.
    destruct e as [[] c]; destruct He as [He1 He2]; unfold ops_of at 2; simpl.
    + by rewrite He2, app_nil_r.
    + rewrite He1. solve_Permutation.
  - intros t t1 Ht [Hq Hca Hp Hsn Hrf Hrd [He1 He2]]. rewrite <- Ht. unfold flight. by rewrite He1, Hca.
Qed.

(** An action without buffer that is not posted is forgotten. *)
Lemma abandon G held busy d s a :
  ok G held (a :: busy) d s -> buffer_of (cx_actions s) a = [] -> ok G held busy d s.
Proof.
  intros [] Hb. assert (bufs (cx_actions s) (flight s ++ a :: busy) ≡ₚ bufs (cx_actions s) (flight s ++ busy)) as Hbufs.
  { rewrite <- Permutation_middle. unfold bufs. rewrite bind_cons. by rewrite Hb. }
  constructor; try done.
  - by eapply pool_ok_perm.
  - intros b Hb'. eapply foreign_perm; [|by apply co_target0]. unfold all_bufs. by rewrite Hbufs.
  - rewrite <- Permutation_middle in co_nodup0. by apply NoDup_cons in co_nodup0 as [_ ?].
  - intros b Hb'. apply co_live0. rewrite <- Permutation_middle. by right.
  - intros p n Hp%co_bufs0. unfold all_bufs in *. by rewrite Hbufs in Hp.
  - intros b act Hact Hne. pose proof (co_flown0 _ _ Hact Hne) as Hin. rewrite <- Permutation_middle in Hin.
    apply elem_of_cons in Hin as [->|Hin]; [|done]. unfold buffer_of in Hb. rewrite Hact, (proj2 (Z.eqb_neq _ _) Hne) in Hb. done.
Qed.

(** A refused post. *)
Lemma refused_ok G held busy d s x err c msg :
  ok G held busy d s -> posted err c msg (ep s) (fa_ep x) -> err = - FI_EAGAIN -> lc_live x = lc_live (s_ext (cx_sys s)) ->
  (forall a, fa_target x a -> foreign G (all_bufs s busy) a) -> ok G held busy d (with_ext x s).
Proof.
  intros [] Hpost -> Hl Ht. unfold posted in Hpost. simpl in Hpost. destruct Hpost as (E1 & E2 & _).
  change (fa_ep x) with (ep (with_ext x s)) in *. assert (flight (with_ext x s) = flight s) as Hf by (unfold flight; by rewrite E1).
  constructor; rewrite ?Hf; try done.
  - destruct co_pool0 as [[Hrl Hrc Hrg] Hn Hs Hpos]. constructor; try done. constructor; try done. by etransitivity; [exact Hl|].
  - intros a Ha. unfold all_bufs. rewrite Hf. by apply Ht.
  - unfold all_recvs in *. by rewrite Hf, E2.
  - intros id. unfold all_recvs in *. rewrite Hf, E2. apply co_ids0.
  - intros p n Hp%co_bufs0. unfold all_bufs in *. by rewrite Hf.
  - intros id. unfold all_recvs in *. rewrite Hf, E2. apply co_all0.
Qed.

(** The new action of a turn, not posted. *)
Lemma allocated_ok G held s body :
  ok G (body_holds cb_holds body ++ held) [] 0 s -> ok G (body_holds cb_holds body ++ held) [] 0 (allocated body s).
Proof.
  intros Hc. destruct (conn_ok_new _ _ _ _ _ _ _ Hc) as (_ & Ha & Hc'). rewrite (owed_action _ _ _ _ Ha) in Hc'.
  eapply abandon; [exact Hc'|]. unfold buffer_of. by rewrite Ha.
Qed.

(** One turn that libfabric refuses. *)
Lemma rdma_refused G held s t body x err msg :
  ok G (body_holds cb_holds body ++ held) [] 0 t -> patient fuel t -> retried s t ->
  posted err (cx_nextAction t) msg (ep t) (fa_ep x) -> err = - FI_EAGAIN ->
  lc_live x = lc_live (s_ext (cx_sys t)) -> (forall a, fa_target x a -> foreign G (all_bufs t []) a) ->
  wp never (pollAllCqInCache fuel)
    (fun _ t' => (ok G (body_holds cb_holds body ++ held) [] 0 t' /\ patient fuel t' /\ retried s t') /\ (ep_refusals (ep t') < ep_refusals (ep t))%nat)
    (with_ext x (allocated body t)).
Proof.
  intros Hc [Hp1 Hp2] Hr Hpost -> Hl Ht. set (t1 := allocated body t). pose proof (allocated_ok _ _ _ _ Hc) as Hc1. fold t1 in Hc1.
  assert (retried t t1) as Hr1.
  { constructor; simpl; try done; try lia; [by destruct (cx_conn t)|]. intros a Ha. rewrite lookup_insert_ne; [done|lia]. }
  assert (ok G (body_holds cb_holds body ++ held) [] 0 (with_ext x t1)) as Hc2.
  { eapply refused_ok; [exact Hc1|exact Hpost|done|done|]. intros a Ha. eapply foreign_perm; [|by apply Ht]. symmetry. exact (retried_bufs _ _ _ _ _ _ Hc Hr1). }
  unfold posted in Hpost. simpl in Hpost. destruct Hpost as (E1 & E2 & E3 & E4 & E5). specialize (E5 eq_refl).
  change (fa_ep x) with (ep (with_ext x t1)) in *.
  assert (ep_busy (ep (with_ext x t1)) < fuel)%nat as Hb by (unfold ep_busy in *; by rewrite E1, E2).
  eapply wp_mono; [apply wp_conj; [by apply wp_pollAllCqInCache|by apply drain_flight]|]. intros _ t' [[[Q P T R B _] Hc'] Hf].
  assert (ep_busy (ep (with_ext x t1)) = ep_busy (ep t)) as Eb by (unfold ep_busy; by rewrite E1, E2).
  split; [|lia]. split; [done|]. split; [split; lia|]. destruct Hr, Q. constructor; simpl in *; try congruence.
  - rewrite q_conn0, rt_conn0. by destruct (cx_conn s).
  - etransitivity; [exact Hf|]. unfold flight in *. rewrite E1. exact rt_flight0.
  - lia.
  - intros a Ha. rewrite q_actions0. rewrite lookup_insert_ne by lia. by apply rt_actions0.
Qed.

(** The pieces of the operation are in memory that is neither a message buffer nor
    libfabric's yet. *)
Lemma rdma_targets G held s t x kind iov addr ra key c :
  ok G held [] 0 t -> x = (fi_rma kind iov addr ra key c (s_ext (cx_sys t))).2 -> all_bufs t [] ≡ₚ all_bufs s [] ->
  Forall (outside G (all_bufs s [])) iov -> forall a, fa_target x a -> foreign G (all_bufs t []) a.
Proof.
  intros Hc -> Hb Hout a [Ha|(_ & v & Hv & Ha)]%fi_rma_target; [by apply (co_target _ _ _ _ _ _ Hc)|].
  rewrite Forall_forall in Hout. destruct (Hout v Hv) as (p & n & r & Hp & H1' & H2' & Hn). exists p, n, r. split_and!; try done; try lia. by rewrite Hb.
Qed.

Lemma wp_rdma G held s kind dest iov ra key f addr :
  ok G (cb_holds f ++ held) [] 0 s -> patient fuel s -> sm_find dest (remoteLiAddr (cx_conn s)) = Some addr ->
  Forall (registered s) iov -> Forall (outside G (all_bufs s [])) iov ->
  wp resource (rdma fuel kind dest iov ra key f)
    (fun _ s' => ok G held [] 0 s' /\ pendingAction (cx_conn s') = pendingAction (cx_conn s) + 1 /\
       ep_sent (ep s') = ep_sent (ep s) /\ cx_app s' = cx_app s /\
       exists a, flight s' ≡ₚ a :: flight s /\ cx_actions s' !! a = Some (new_PostAction (Function f))) s.
Proof.
  intros Hc Hp Hd Hreg Hout. unfold rdma. apply wp_bind, wp_check_regions; [done|]. apply wp_bind. unfold find_remote.
  apply wp_bind, wp_gets, (wp_of_option _ _ _ addr); [done|]. apply wp_bind. set (body := Function f).
  apply (wp_retry fuel _ (fun t => ok G (body_holds cb_holds body ++ held) [] 0 t /\ patient fuel t /\ retried s t));
    [split_and!; try done; apply retried_refl|apply Hp|].
  intros t (Hct & Hpt & Hr). pose proof (retried_bufs _ _ _ _ _ _ Hc Hr) as Hbufs.
  destruct (conn_ok_new _ _ _ _ _ _ _ Hct) as (Hrun & Hact & Hc1). eapply wp_bind, wp_of_Ok; [exact Hrun|].
  unfold fabric, wp at 1. change (s_ext (cx_sys (allocated body t))) with (s_ext (cx_sys t)).
  pose proof (fi_rma_ok (s_ext (cx_sys t)) kind iov addr ra key (cx_nextAction t)) as Hpost.
  pose proof (fi_rma_live (s_ext (cx_sys t)) kind iov addr ra key (cx_nextAction t)) as Hl.
  pose proof (rdma_targets _ _ s t _ kind iov addr ra key (cx_nextAction t) Hct eq_refl Hbufs Hout) as Ht.
  set (r := fi_rma _ _ _ _ _ _ _) in *. destruct (r.1 =? - FI_EAGAIN) eqn:Ee.
  - apply Z.eqb_eq in Ee. apply wp_never. by eapply rdma_refused.
  - unfold guard_. destruct (r.1 =? 0) eqn:E0; [|by right]. apply Z.eqb_eq in E0. rewrite E0 in Hpost. apply wp_bind, wp_ret, wp_modify.
    fold (counted (with_ext r.2 (allocated body t))). split_and!.
    + apply (accepted _ _ _ _ _ _ _ _ [] Hc1 Hpost Hl). intros a Ha. eapply foreign_perm; [|by apply Ht].
      unfold all_bufs. rewrite <- Permutation_middle. unfold bufs. rewrite bind_cons. unfold buffer_of at 2. rewrite Hact. simpl.
      rewrite !app_nil_r. change (flight (allocated body t)) with (flight t). f_equiv. symmetry.
      fold (bufs (<[cx_nextAction t := new_PostAction body]> (cx_actions t)) (flight t)). rewrite bufs_insert_ne; [done|].
      intros Hin. destruct (co_live _ _ _ _ _ _ Hct (cx_nextAction t)) as [act Hx]; [apply elem_of_app; by left|].
      apply (co_acts _ _ _ _ _ _ Hct) in Hx as [? _]. lia.
    + simpl. by rewrite (rt_pending _ _ Hr).
    + unfold posted in Hpost. simpl in Hpost. destruct Hpost as (_ & _ & Hm & _). etransitivity; [exact Hm|]. rewrite app_nil_r. exact (rt_sent _ _ Hr).
    + exact (rt_app _ _ Hr).
    + exists (cx_nextAction t). split; [|exact Hact]. unfold posted in Hpost. simpl in Hpost. destruct Hpost as (Ho & _).
      rewrite <- (rt_flight _ _ Hr). unfold flight. simpl. unfold ep at 1. simpl. by rewrite Ho.
Qed.

(** *** What an operation leaves alone *)

(** [T]: the memory that the operations may write, [l]: those that were accepted. *)
Record rma_frame (T : Z -> Prop) (l : list rma_post) s t : Prop := {
  rf_app : cx_app t = cx_app s;
  rf_conn : cx_conn t = set_queue (cqEntries (cx_conn t)) (pendingAction (cx_conn t)) (cx_conn s);
  rf_domain : s_domain (cx_sys t) = s_domain (cx_sys s);
  rf_actions : forall a act, cx_actions t !! a = Some act -> pa_domainBuffer act = 0 \/ cx_actions s !! a = Some act;
  rf_mem : forall a, ~ (fa_target (s_ext (cx_sys s)) a \/ T a) -> cx_mem t a = cx_mem s a;
  rf_target : forall a, fa_target (s_ext (cx_sys t)) a -> fa_target (s_ext (cx_sys s)) a \/ T a;
  rf_rmas : ep_rmas (ep t) = ep_rmas (ep s) ++ l;
  rf_sent : ep_sent (ep t) = ep_sent (ep s);
  rf_busy : (ep_busy (ep t) <= ep_busy (ep s) + length l)%nat;
  rf_refusals : (ep_refusals (ep t) <= ep_refusals (ep s))%nat;
  rf_next : cx_nextAction s <= cx_nextAction t;
  rf_kept : forall a, a < cx_nextAction s -> cx_actions t !! a = cx_actions s !! a;
}.

Lemma rma_frame_refl T s : rma_frame T [] s s.
Proof. constructor; try done; [by destruct (cx_conn s)|auto|auto|by rewrite app_nil_r|lia]. Qed.

Lemma rma_frame_trans T l1 l2 s1 s2 s3 : rma_frame T l1 s1 s2 -> rma_frame T l2 s2 s3 -> rma_frame T (l1 ++ l2) s1 s3.
Proof.
  intros [A1 C1 D1 P1 M1 T1 R1 S1 B1 F1 N1 K1] [A2 C2 D2 P2 M2 T2 R2 S2 B2 F2 N2 K2]. constructor; try congruence.
  - rewrite C2, C1. by destruct (cx_conn s1).
  - intros a act Ha. destruct (P2 _ _ Ha) as [?|Ha2]; [by left|auto].
  - intros a Ha. rewrite M2, M1; [done|done|]. intros [Ht|Ht]; [by apply Ha, T1|tauto].
  - intros a [Ha|Ha]%T2; [by apply T1|by right].
  - by rewrite R2, R1, app_assoc.
  - rewrite length_app. lia.
  - lia.
  - lia.
  - intros a Ha. rewrite K2, K1; [done|done|lia].
Qed.

Lemma drain_frame n T s : wp any (pollAllCqInCache n) (fun _ t => rma_frame T [] s t) s.
Proof.
  revert s. induction n as [|n IH]; intros s; [done|]. unfold wp. rewrite pollAllCqInCache_step.
  pose proof (queue_step_read false s) as Hr. assert (ep_rmas (ep (queue_step false s).2) = ep_rmas (ep s)) as Hl by apply fi_cq_read_rmas.
  destruct (queue_step false s) as [[e|] s1]; cbn [fst snd] in *.
  - destruct (put_aside_drained _ _ _ Hr) as [[[] ? ? ? ? _] _].
    assert (rma_frame T [] s (put_aside e s1)) as Hf.
    { constructor; try done; [rewrite q_actions0; auto|by intros a Ha; apply q_mem0; tauto|by left; auto|by rewrite app_nil_r|lia|rewrite q_next0; lia|by rewrite q_actions0]. }
    specialize (IH (put_aside e s1)). unfold wp in IH. destruct (pollAllCqInCache n _) as [[[] s2]|]; [|done]. exact (rma_frame_trans _ [] [] _ _ _ Hf IH).
  - destruct Hr as [[] ? ? Hsn Hrf ? [H1' H2']].
    constructor; try done; [rewrite q_actions0; auto|by intros a Ha; apply q_mem0; tauto|by left; auto|by rewrite app_nil_r|unfold ep_busy; rewrite H1', H2'; lia|rewrite q_next0; lia|by rewrite q_actions0].
Qed.

(** The loop on the refusals *)
Lemma retry_frame n kind iov addr ra key f s :
  let T a := kind = RDMA_READ /\ exists v, v ∈ iov /\ v.1 <= a < v.1 + v.2 in
  wp any (retry fuel n (let! a := new_action (Function f) in fabric (fi_rma kind iov addr ra key a)))
    (fun err t => err = 0 -> exists a, rma_frame T [mkRma kind iov addr ra key a] s t /\ a < cx_nextAction t /\ cx_actions t !! a = Some (new_PostAction (Function f))) s.
Proof.
  intros T. revert s. induction n as [|n IH]; intros s; [done|]. cbn [retry]. apply wp_bind, wp_bind.
  unfold new_action. apply wp_bind, wp_gets, wp_bind, wp_modify, wp_ret. set (s1 := with_actions _ _ s). unfold fabric, wp at 1.
  change (s_ext (cx_sys s1)) with (s_ext (cx_sys s)). set (c := cx_nextAction s).
  pose proof (fi_rma_ok (s_ext (cx_sys s)) kind iov addr ra key c) as Hpost. pose proof (fi_rma_rmas (s_ext (cx_sys s)) kind iov addr ra key c) as Hl.
  pose proof (fi_rma_refusals (s_ext (cx_sys s)) kind iov addr ra key c) as Hrf. pose proof (fun a => fi_rma_target (s_ext (cx_sys s)) kind iov addr ra key c a) as Ht.
  set (r := fi_rma _ _ _ _ _ _ _) in *.
  assert (forall l, ep_rmas (fa_ep r.2) = ep_rmas (ep s) ++ l -> ep_sent (fa_ep r.2) = ep_sent (ep s) ->
    (ep_busy (fa_ep r.2) <= ep_busy (ep s) + length l)%nat -> rma_frame T l s (with_ext r.2 s1)) as Hframe.
  { intros l El Es Hb. constructor; try done; [simpl; by destruct (cx_conn s)| |simpl; lia|].
    - intros a act. simpl. destruct (decide (a = c)) as [->|Hne]; [rewrite lookup_insert_eq; intros [= <-]; by left|]. rewrite lookup_insert_ne by done. by right.
    - intros a Ha. simpl. rewrite lookup_insert_ne; [done|]. unfold c. lia. }
  unfold posted in Hpost. fold (ep s) in Hpost. destruct (r.1 =? - FI_EAGAIN) eqn:Ee.
  - apply Z.eqb_eq in Ee. rewrite Ee in Hpost, Hl. simpl in Hpost, Hl. destruct Hpost as (E1 & E2 & E3 & E4 & _).
    assert (rma_frame T [] s (with_ext r.2 s1)) as Hf by (apply Hframe; [done|done|unfold ep_busy; by rewrite E1, E2, Nat.add_0_r]).
    apply wp_bind. eapply wp_mono; [apply (drain_frame fuel T)|]. intros [] t Hd. cbn beta.
    eapply wp_mono; [apply IH|]. intros err u Hu He. destruct (Hu He) as (a & Ha & Hact). exists a. split; [|done].
    exact (rma_frame_trans _ [] _ _ _ _ (rma_frame_trans _ [] [] _ _ _ Hf Hd) Ha).
  - apply wp_ret. intros E0. rewrite E0 in Hpost, Hl. simpl in Hpost, Hl. destruct Hpost as (E1 & E2 & E3 & E4). rewrite app_nil_r in E3.
    exists c. split; [|split; [simpl; unfold c; lia|apply lookup_insert_eq]]. apply Hframe; [done|done|]. unfold ep_busy. rewrite (Permutation_length E1), E2. simpl. lia.
Qed.

Lemma rdma_frame kind dest iov ra key f addr s :
  let T a := kind = RDMA_READ /\ exists v, v ∈ iov /\ v.1 <= a < v.1 + v.2 in
  Forall (registered s) iov -> sm_find dest (remoteLiAddr (cx_conn s)) = Some addr ->
  wp any (rdma fuel kind dest iov ra key f) (fun _ t => exists a, rma_frame T [mkRma kind iov addr ra key a] s t /\ a < cx_nextAction t /\ cx_actions t !! a = Some (new_PostAction (Function f))) s.
Proof.
  intros T Hreg Hd. unfold rdma. apply wp_bind, wp_check_regions; [done|]. apply wp_bind. unfold find_remote.
  apply wp_bind, wp_gets, (wp_of_option _ _ _ addr); [done|]. apply wp_bind. eapply wp_mono; [apply retry_frame|].
  intros err t Ht. apply wp_bind. unfold guard_. destruct (err =? 0) eqn:E0; [|done]. apply Z.eqb_eq in E0. destruct (Ht E0) as (a & [] & Hact).
  apply wp_ret, wp_modify. exists a. split; [|done]. constructor; try done. simpl. rewrite rf_conn0. by destruct (cx_conn s).
Qed.

(** rdmaReadv and rdmaWritev *)
Definition transfer (kind : rdma_kind) (dest : Z) (iov : list (Z * Z)) (ra key : Z) (f : Cb) : M S unit :=
  match kind with
  | RDMA_READ => rdmaReadv fuel dest iov ra key f
  | RDMA_WRITE => rdmaWritev fuel dest iov ra key f
  end.

(** C29: an RDMA transfer of registered pieces of memory that are not message buffers
    is posted once, whatever the refusals of libfabric: one more operation is under
    way, the function given will run at its completion and owns from now on the
    receive buffers it gives back; no message is sent, the count of the actions and
    the invariant of the connection are kept.  The only faults are those of the
    resources, so the loop on the refusals ends. *)
Theorem rdma_correct G held s kind dest iov ra key f addr :
  ok G (cb_holds f ++ held) [] 0 s -> patient fuel s -> sm_find dest (remoteLiAddr (cx_conn s)) = Some addr ->
  iov <> [] -> Forall (registered s) iov -> Forall (outside G (all_bufs s [])) iov ->
  wp resource (transfer kind dest iov ra key f)
    (fun _ s' => ok G held [] 0 s' /\ pendingAction (cx_conn s') = pendingAction (cx_conn s) + 1 /\
       ep_sent (ep s') = ep_sent (ep s) /\ cx_app s' = cx_app s /\
       exists a, flight s' ≡ₚ a :: flight s /\ cx_actions s' !! a = Some (new_PostAction (Function f))) s.
Proof.
  intros Hc Hp Hd Hne Hreg Hout. assert ((0 <? Z.of_nat (length iov)) = true) as Hl by (apply Z.ltb_lt; destruct iov as [|v iov]; [done|rewrite length_cons; lia]).
  destruct kind; apply wp_bind, wp_guard; try done; by apply (wp_rdma G held s _ dest iov ra key f addr).
Qed.
End rdma.
End ConnectionRdma.
