(* ===== verification/PingPong.v ===== *)
(** * The ping-pong of the network

    Model of src/src/server/hooks/HookPingPong.cpp, on the state of the connection:
    a ping is answered by a pong, after the server has fetched the data of the
    client by RDMA when there are some. *)

From Stdlib Require Import String.
From S2P Require Import Prelude StdMap Memory Serializer Protocol System Fabric LibfabricDomain ClientRegistry Connection Dispatch ConnectionInv ConnectionSend ConnectionPoll ConnectionRdma.

Module PingPong.
Import Serializer Protocol LibfabricDomain ClientRegistry Connection Dispatch ConnectionInv ConnectionSend ConnectionPoll ConnectionRdma.

(** class HookPingPong *)
Record HookPingPong : Type := mkPingPong {
  pp_buffer : Z;
  pp_bufferSize : Z;
  pp_bufferIov : Iov;
}.

(** What the lambda given to rdmaRead captures. *)
Record pong : Type := mkPong {
  po_lfClientId : Z;
  po_msgBufferId : Z;
  po_rdmaSize : Z;
}.

(** HookPingPong::HookPingPong *)
Definition new_HookPingPong : HookPingPong := mkPingPong 0 0 (mkIov 0 0).

(** The [n] bytes at [p] are [v]. *)
Definition all_bytes (m : mem) (p n : Z) (v : byte) : bool := forallb (fun b => bool_decide (b = v)) (rd m p n).

Definition no_ping : LibfabricPing := mkPing 0 0 (mkIov 0 0) 0.

Section hook.
Context {X Hook : Type} `{Libc X} `{Libfabric X} `{Fabric X} `{StringStorage}.
Abbreviation S := (Cx X (option Hook) pong HookPingPong).
Variable fuel : nat.

Definition set_hook (h : HookPingPong) : M S unit := modify (fun s =>
  mkCx (cx_sys s) (cx_mem s) (cx_actions s) (cx_nextAction s) (cx_conn s) h).

(** HookPingPong::reallocateBuffer *)
Definition reallocateBuffer (rdmaSize : Z) : M S unit :=
  let! h := gets cx_app in
  (if negb (pp_buffer h =? 0) then
     on_sys (unregisterSegment (pp_buffer h) (pp_bufferSize h)) ;;
     on_sys (free (pp_buffer h))
   else ret tt) ;;
  if rdmaSize >? 0 then
    let! buffer := new_array rdmaSize in
    set_hook (mkPingPong buffer rdmaSize (pp_bufferIov h)) ;;
    let! iov := on_sys (registerSegment buffer rdmaSize true true false) in
    set_hook (mkPingPong buffer rdmaSize iov)
  else set_hook new_HookPingPong.

(** HookPingPong::~HookPingPong *)
Definition destroy_HookPingPong : M S unit := reallocateBuffer 0.

(** The answer and the end of the request: the end of the lambda and of onMessage. *)
Definition answer (lfClientId msgBufferId : Z) : M S LibfabricActionResult :=
  sendResponse fuel IOC_LF_MSG_PONG lfClientId 0 false ;;
  repostReceive msgBufferId ;;
  ret LF_WAIT_LOOP_KEEP_WAITING.

(** The lambda: the bytes fetched are checked *)
Definition onPong (f : pong) : M S LibfabricActionResult :=
  let! s := get in
  assert_ (all_bytes (cx_mem s) (pp_buffer (cx_app s)) (po_rdmaSize f) x2a) ;;
  answer (po_lfClientId f) (po_msgBufferId f).

(** HookPingPong::onMessage *)
Definition HookPingPong_onMessage (request : LibfabricClientRequest) : M S LibfabricActionResult :=
  let! r := unpack "ping" no_ping (deserializer request) in
  let ping := r.1 in
  let! h := gets cx_app in
  (if pp_bufferSize h <? ping_rdmaSize ping then reallocateBuffer (ping_rdmaSize ping) else ret tt) ;;
  let! s := get in
  assert_ (all_bytes (cx_mem s) (ping_eagerData ping) (ping_eagerSize ping) x2b) ;;
  if ping_rdmaSize ping >? 0 then
    rdmaRead fuel (i32 (lfClientId request)) (pp_buffer (cx_app s)) (iov_addr (ping_rdmaIov ping)) (iov_key (ping_rdmaIov ping))
      (ping_rdmaSize ping) (mkPong (lfClientId request) (msgBufferId request) (ping_rdmaSize ping)) ;;
    ret LF_WAIT_LOOP_KEEP_WAITING
  else answer (lfClientId request) (msgBufferId request).
End hook.

Section pings.
Context {X Hook : Type} `{Libc X} `{!LibcOk X} `{Libfabric X} `{!LibfabricOk X} `{Fabric X} `{!FabricOk X} {users : Users} `{StringStorage}.
Abbreviation S := (Cx X (option Hook) pong HookPingPong).
Implicit Types (s : S) (G : heap).
Variable fuel : nat.
(** The receive buffer of a ping is left to the function of the RDMA operation. *)
Definition pong_holds (f : pong) : list Z := [po_msgBufferId f].
Abbreviation ok := (conn_ok pong_holds).

(** The bytes of a pong. *)
Definition pong_bytes s : list byte :=
  m_bytes (cx_mem s) (fillProtocolHeader (msg_code IOC_LF_MSG_PONG) (cx_conn s)) ++ m_bytes (cx_mem s) (mkResponse 0 0 false 0 None 0).

Lemma pong_size s : blen (pong_bytes s) = 45.
Proof. unfold pong_bytes. rewrite length_app, Nat2Z.inj_add, header_size. simpl. rewrite !length_app, !le_split_length. done. Qed.

Lemma wp_answer G held busy d s lf id addr :
  ok G (id :: held) busy d s -> patient fuel s -> ready pong_holds s -> sm_find (i32 lf) (remoteLiAddr (cx_conn s)) = Some addr ->
  wp pool_fault (answer fuel lf id)
    (fun r s' => r = LF_WAIT_LOOP_KEEP_WAITING /\ ep_sent (ep s') = ep_sent (ep s) ++ [(addr, pong_bytes s)] /\
       cx_app s' = cx_app s /\ exists G', G ⊆ G' /\ ok G' held busy d s') s.
Proof.
  intros Hc Hp Hr Hd. unfold answer, sendResponse, sendNop. pose proof (re_msg _ _ Hr). pose proof (re_recv _ _ Hr). apply wp_bind. eapply wp_mono.
  - apply (wp_send_new pong_holds fuel G (id :: held) busy d s (Nop LF_WAIT_LOOP_KEEP_WAITING) IOC_LF_MSG_PONG (i32 lf) (mkResponse 0 0 false 0 None 0) addr);
      [done|done|done|by apply (header_wf pong_holds)|by split_and!|..|constructor]; fold (pong_bytes s); rewrite pong_size; lia.
  - intros _ s1 [[Hs _ _ Hap] (G1 & HG & Hc1)]. apply wp_bind. eapply wp_weaken; [intros f Hf; left; exact Hf|].
    eapply wp_mono; [by apply wp_repostReceive|]. intros _ s2 (Hc2 & _ & Hap2 & _ & _ & Hs2 & _). apply wp_ret.
    split; [done|]. split; [by rewrite Hs2|]. split; [congruence|]. by exists G1.
Qed.

(** The ping [v] is in the receive buffer of the request, with the bytes expected. *)
Definition ping_received s (request : LibfabricClientRequest) (v : LibfabricPing) : Prop :=
  exists p, recvBuffers (cx_conn s) !! Z.to_nat (msgBufferId request) = Some p /\
    message_at (cx_mem s) p (recvBuffersSize (cx_conn s)) v /\
    reading s (msgBufferId request) (deserializer request) HEADER_SIZE /\
    all_bytes (cx_mem s) (p + HEADER_SIZE + 32) (ping_eagerSize v) x2b = true.

(** A ping that needs no larger buffer. *)
Lemma ping_opened G held s request v :
  ok G (msgBufferId request :: held) [] 0 s -> ping_received s request v -> ping_rdmaSize v <= pp_bufferSize (cx_app s) ->
  HookPingPong_onMessage fuel request s =
  (if ping_rdmaSize v >? 0 then
     rdmaRead fuel (i32 (lfClientId request)) (pp_buffer (cx_app s)) (iov_addr (ping_rdmaIov v)) (iov_key (ping_rdmaIov v))
       (ping_rdmaSize v) (mkPong (lfClientId request) (msgBufferId request) (ping_rdmaSize v)) ;;
     ret LF_WAIT_LOOP_KEEP_WAITING
   else answer fuel (lfClientId request) (msgBufferId request)) s.
Proof.
  intros Hc (p & Hp & Hm & Hrd & Heager) Hsz. unfold HookPingPong_onMessage.
  destruct (unpack_received pong_holds _ _ _ _ _ _ _ _ "ping" no_ping v Hc (held_in _ _ _ _) Hrd Hp Hm) as (st & E).
  unfold bind at 1. rewrite E. cbn [fst]. unfold bind at 1, gets at 1. cbn [m_decoded LibfabricPing_message ping_rdmaSize ping_eagerSize ping_eagerData ping_rdmaIov].
  replace (pp_bufferSize (cx_app s) <? ping_rdmaSize v) with false by lia. unfold bind at 1, ret at 1. unfold bind at 1, get at 1.
  assert (all_bytes (cx_mem s) (if ping_eagerSize v >? 0 then p + HEADER_SIZE + 32 else ping_eagerData no_ping) (ping_eagerSize v) x2b = true) as ->; [|done].
  destruct (ping_eagerSize v >? 0) eqn:Ee; [done|]. unfold all_bytes, rd. rewrite (seqZ_nil 0 (ping_eagerSize v)) by lia. done.
Qed.

(** a ping without RDMA data is answered once by a pong with the status 0, its
    receive buffer is posted again and the invariant of the connection is kept. *)
Theorem ping_eager G held s request v addr :
  ok G (msgBufferId request :: held) [] 0 s -> patient fuel s -> ready pong_holds s ->
  sm_find (i32 (lfClientId request)) (remoteLiAddr (cx_conn s)) = Some addr ->
  ping_received s request v -> ping_rdmaSize v = 0 -> 0 <= pp_bufferSize (cx_app s) ->
  wp pool_fault (HookPingPong_onMessage fuel request)
    (fun r s' => r = LF_WAIT_LOOP_KEEP_WAITING /\ ep_sent (ep s') = ep_sent (ep s) ++ [(addr, pong_bytes s)] /\
       exists G', G ⊆ G' /\ ok G' held [] 0 s') s.
Proof.
  intros Hc Hp Hr Hd Hv Hz Hs. eapply wp_eq; [apply (ping_opened G held s request v); done || lia|]. rewrite Hz. cbn [Z.gtb Z.compare].
  eapply wp_mono; [by apply (wp_answer G held [] 0 s _ _ addr)|]. by intros r s' (? & ? & _ & ?).
Qed.

(** a ping with RDMA data that the buffer of the hook can hold posts one RDMA
    read of them, whose function keeps the receive buffer of the ping; nothing is
    sent before it completes. *)
Theorem ping_rdma G held s request v addr :
  ok G (msgBufferId request :: held) [] 0 s -> patient fuel s ->
  sm_find (i32 (lfClientId request)) (remoteLiAddr (cx_conn s)) = Some addr ->
  ping_received s request v -> 0 < ping_rdmaSize v <= pp_bufferSize (cx_app s) -> pp_buffer (cx_app s) <> 0 ->
  registered s (pp_buffer (cx_app s), ping_rdmaSize v) -> outside G (all_bufs s []) (pp_buffer (cx_app s), ping_rdmaSize v) ->
  wp resource (HookPingPong_onMessage fuel request)
    (fun r s' => r = LF_WAIT_LOOP_KEEP_WAITING /\ ok G held [] 0 s' /\ ep_sent (ep s') = ep_sent (ep s) /\
       exists a, flight s' ≡ₚ a :: flight s /\
         cx_actions s' !! a = Some (new_PostAction (Function (mkPong (lfClientId request) (msgBufferId request) (ping_rdmaSize v))))) s.
Proof.
  intros Hc Hp Hd Hv Hz Hb Hreg Hout. eapply wp_eq; [apply (ping_opened G held s request v); done || lia|]. replace (ping_rdmaSize v >? 0) with true by lia.
  unfold rdmaRead. apply wp_bind, wp_bind, wp_guard; [by apply negb_true_iff, Z.eqb_neq|].
  eapply wp_mono; [apply (wp_rdma pong_holds fuel G held s RDMA_READ _ _ _ _ (mkPong (lfClientId request) (msgBufferId request) (ping_rdmaSize v)) addr);
    [exact Hc|exact Hp|exact Hd|by repeat constructor|by repeat constructor]|].
  intros _ s' (Hc' & _ & Hs & _ & Ha). apply wp_ret. by split_and!.
Qed.

(** when the data of a ping have come, and are the bytes expected, the pong is
    sent once and the receive buffer of the ping is posted again. *)
Theorem ping_completes G held s f addr :
  ok G (pong_holds f ++ held) [] 0 s -> patient fuel s -> ready pong_holds s ->
  sm_find (i32 (po_lfClientId f)) (remoteLiAddr (cx_conn s)) = Some addr ->
  all_bytes (cx_mem s) (pp_buffer (cx_app s)) (po_rdmaSize f) x2a = true ->
  wp pool_fault (onPong fuel f)
    (fun r s' => r = LF_WAIT_LOOP_KEEP_WAITING /\ ep_sent (ep s') = ep_sent (ep s) ++ [(addr, pong_bytes s)] /\
       exists G', G ⊆ G' /\ ok G' held [] 0 s') s.
Proof.
  intros Hc Hp Hr Hd Hb. unfold onPong. apply wp_bind, wp_gets, wp_bind, wp_guard; [exact Hb|].
  eapply wp_mono; [by apply (wp_answer G held [] 0 s _ _ addr)|]. by intros r s' (? & ? & _ & ?).
Qed.
End pings.
End PingPong.
