(* ===== verification/Client.v ===== *)
(** * The actions of the client

    Model of src/src/client/Actions.cpp: each action sends one request to the
    server and waits for its answer.  A client registers no function: all its post
    actions do nothing.  [fuel] bounds the turns of pollMessage, which has none:
    the fault [FFuel] is a client that is still waiting. *)

From Stdlib Require Import String.
From S2P Require Import Prelude StdMap Memory Serializer Protocol System Fabric LibfabricDomain ClientRegistry Connection Dispatch ConnectionInv ConnectionSend ConnectionPoll ConnectionLoop.

Module Client.
Import Serializer Protocol LibfabricDomain ClientRegistry Connection Dispatch ConnectionInv ConnectionSend ConnectionPoll ConnectionLoop.

Section actions.
Context {X Hook A : Type} `{Libc X} `{Libfabric X} `{Fabric X} `{StringStorage}.
Abbreviation S := (Cx X (option Hook) Empty_set A).
Variable fuel : nat.

Definition no_function (f : Empty_set) : M S LibfabricActionResult := match f with end.

(** The request and the wait for its answer. *)
Definition request {T} `{Message T} (msgType ack : LibfabricMessageType) (data : T) : M S LibfabricClientRequest :=
  sendMessageNoPollWakeup fuel msgType IOC_LF_SERVER_ID data ;;
  let! serverResponse := pollMessage fuel no_function fuel ack in
  of_option FAssume serverResponse.

(** The status of the answer, whose buffer is posted again. *)
Definition finish (serverResponse : LibfabricClientRequest) : M S Z :=
  let! response := unpack "response" no_response (deserializer serverResponse) in
  terminate serverResponse ;;
  ret (rsp_status response.1).

(** obj_flush *)
Definition obj_flush (objectId : LibfabricObjectId) (offset size : Z) : M S Z :=
  let! r := request IOC_LF_MSG_OBJ_FLUSH IOC_LF_MSG_OBJ_FLUSH_ACK (mkFlush objectId offset size) in finish r.

(** obj_create *)
Definition obj_create (objectId : LibfabricObjectId) : M S Z :=
  let! r := request IOC_LF_MSG_OBJ_CREATE IOC_LF_MSG_OBJ_CREATE_ACK (mkCreate objectId) in finish r.

(** obj_cow *)
Definition obj_cow (sourceObjectId destObjectId : LibfabricObjectId) (allowExist : bool) (offset size : Z) : M S Z :=
  let! r := request IOC_LF_MSG_OBJ_COW IOC_LF_MSG_OBJ_COW_ACK (mkCow sourceObjectId destObjectId allowExist offset size) in finish r.

(** obj_range_register *)
Definition obj_range_register (objectId : LibfabricObjectId) (offset size : Z) (write : bool) : M S Z :=
  let! r := request IOC_LF_MSG_OBJ_RANGE_REGISTER IOC_LF_MSG_OBJ_RANGE_REGISTER_ACK (mkRegister objectId offset size write) in finish r.

(** obj_range_unregister *)
Definition obj_range_unregister (id : Z) (objectId : LibfabricObjectId) (offset size : Z) (write : bool) : M S Z :=
  let! r := request IOC_LF_MSG_OBJ_RANGE_UNREGISTER IOC_LF_MSG_OBJ_RANGE_UNREGISTER_ACK (mkUnregister objectId offset size id write) in finish r.

(** obj_write *)
Definition obj_write (objectId : LibfabricObjectId) (buffer size offset : Z) : M S Z :=
  let! iov := if size >? IOC_EAGER_MAX_WRITE then on_sys (registerSegment buffer size true false false) else ret (mkIov 0 0) in
  let embed := size <=? IOC_EAGER_MAX_WRITE in
  let! r := request IOC_LF_MSG_OBJ_WRITE IOC_LF_MSG_OBJ_READ_WRITE_ACK
              (mkReadWrite objectId iov offset size embed (if embed then buffer else 0)) in
  let! status := finish r in
  (if size >? IOC_EAGER_MAX_WRITE then on_sys (unregisterSegment buffer size) else ret tt) ;;
  ret status.

(** obj_read *)
Definition obj_read (objectId : LibfabricObjectId) (buffer size offset : Z) : M S Z :=
  let! iov := if size >? IOC_EAGER_MAX_READ then on_sys (registerSegment buffer size true true false) else ret (mkIov 0 0) in
  let! serverResponse := request IOC_LF_MSG_OBJ_READ IOC_LF_MSG_OBJ_READ_WRITE_ACK (mkReadWrite objectId iov offset size false 0) in
  let! r := unpack "response" no_response (deserializer serverResponse) in
  let response := r.1 in
  (if rsp_msgHasData response then
     assume_ (rsp_msgDataSize response =? size) ;;
     modify (fun s => with_mem (memcpy (cx_mem s) buffer (rsp_optionalData response) (rsp_msgDataSize response)) s)
   else ret tt) ;;
  terminate serverResponse ;;
  (if size >? IOC_EAGER_MAX_READ then on_sys (unregisterSegment buffer size) else ret tt) ;;
  ret (rsp_status response).

(** A buffer of [n] bytes [v]; NULL when [n] is 0 *)
Definition filled (n v : Z) : M S Z :=
  if n >? 0 then
    let! p := new_array n in
    modify (fun s => with_mem (memset (cx_mem s) p (byte_of_Z v) n) s) ;;
    ret p
  else ret 0.
Definition release (p : Z) : M S unit :=
  if negb (p =? 0) then modify (fun s => with_ext (lc_free p (s_ext (cx_sys s))) s) else ret tt.

(** ping_pong, without its measure of the time *)
Definition ping_pong (cnt : nat) (eagerSize rdmaSize : Z) : M S unit :=
  let! rdmaBuffer := filled rdmaSize 42 in
  let! rdmaIov := if rdmaSize >? 0 then on_sys (registerSegment rdmaBuffer rdmaSize true true false) else ret (mkIov 0 0) in
  let! eagerBuffer := filled eagerSize 43 in
  for_each (seq 0 cnt) (fun _ =>
    let! r := request IOC_LF_MSG_PING IOC_LF_MSG_PONG (mkPing rdmaSize eagerSize rdmaIov eagerBuffer) in
    terminate r) ;;
  (if negb (rdmaBuffer =? 0) then on_sys (unregisterSegment rdmaBuffer rdmaSize) else ret tt) ;;
  release rdmaBuffer ;;
  release eagerBuffer.
End actions.

Section answers.
Context {X Hook A : Type} `{Libc X} `{!LibcOk X} `{Libfabric X} `{!LibfabricOk X} `{Fabric X} `{!FabricOk X} {users : Users} `{StringStorage}.
Abbreviation S := (Cx X (option Hook) Empty_set A).
Implicit Types (s : S) (G : heap).
Variable fuel : nat.
Definition cb_holds (f : Empty_set) : list Z := match f with end.
Abbreviation ok := (conn_ok cb_holds).

(** The client stops, or is still waiting. *)
Definition pending (f : fault) : Prop := stops f \/ f = FFuel.

(** What waiting changes of the connection: the queue, the count, the actions. *)
Record waited s s' : Prop := {
  wa_conn : cx_conn s' = set_queue (cqEntries (cx_conn s')) (pendingAction (cx_conn s')) (cx_conn s);
  wa_app : cx_app s' = cx_app s;
  wa_sent : ep_sent (ep s') = ep_sent (ep s);
}.

Lemma waited_trans s1 s2 s3 : waited s1 s2 -> waited s2 s3 -> waited s1 s3.
Proof. intros [] []. constructor; try congruence. rewrite wa_conn1, wa_conn0. by destruct (cx_conn s1). Qed.

Lemma sent_quiet passive s :
  wp never (pollForCompletion passive true) (fun _ s' => ep_sent (ep s') = ep_sent (ep s)) s.
Proof.
  unfold pollForCompletion. apply wp_bind, wp_gets. pose proof (rq_sent _ _ _ (queue_step_read passive s)).
  destruct (cqEntries (cx_conn s)); [by apply wp_bind, wp_ret|by apply wp_bind, wp_modify, wp_ret].
Qed.

(** The buffer [p] is that of the first message that the connection takes between
    the two states. *)
Definition first_message s s' (p : Z) : Prop :=
  exists id l, recvBuffers (cx_conn s) !! Z.to_nat id = Some p /\ Forall (fun e => e_recv e = false) l /\ takes (l ++ [mkEntry true id]) s s'.

Lemma first_message_after s s1 s' p :
  first_message s s1 p -> ep_read (ep s') = ep_read (ep s1) -> cqEntries (cx_conn s') = cqEntries (cx_conn s1) -> first_message s s' p.
Proof.
  intros (id & l & Hp & Hl & Ht) Er Ec. exists id, l. split; [done|]. split; [done|]. rewrite <- (app_nil_r (l ++ _)).
  eapply takes_trans; [exact Ht|]. by apply takes_none.
Qed.

(** The end of an action of a client. *)
Lemma wp_finish_nop {B} (F : fault -> Prop) G held a s (k : LibfabricActionResult -> M S B) Q :
  ok G (owed cb_holds (cx_actions s) [a] ++ held) [a] 1 s ->
  (forall r s', ok G held [] 0 s' -> waited s s' -> takes [] s s' -> wp F (k r) Q s') ->
  wp F (let! status := runPostAction no_function a in
        count_action (-1) ;;
        let! p := conn pendingAction in
        assert_ (p >=? 0) ;;
        delete_action a ;; k status) Q s.
Proof.
  intros Hc Hk. destruct (co_live _ _ _ _ _ _ Hc a) as [act Ha]; [apply elem_of_app; right; by left|].
  rewrite (owed_action _ _ _ _ Ha) in Hc. unfold runPostAction, get_action. apply wp_bind, wp_bind, wp_bind, wp_gets, (wp_of_option _ _ _ act); [done|].
  destruct (pa_body act) as [[]|r]; simpl in Hc. apply wp_ret, wp_bind, wp_modify. apply counted_down in Hc. simpl in Hc.
  apply wp_bind, wp_gets, wp_bind, wp_guard. { pose proof (co_pending _ _ _ _ _ _ Hc). lia. }
  apply wp_bind, wp_never. eapply wp_mono; [by apply wp_delete_action|]. intros _ s' (Hc' & (Hcn & Hap & _ & Hep) & _). apply Hk; [done|..].
  - constructor; [by rewrite Hcn|done|by rewrite Hep].
  - apply takes_none; [by rewrite Hep|by rewrite Hcn].
Qed.

(** The message [q] of type [t] is in its receive buffer. *)
Definition came s (q : LibfabricClientRequest) (t : LibfabricMessageType) : Prop :=
  hdr_msgType (header q) = msg_code t /\
  exists p, recvBuffers (cx_conn s) !! Z.to_nat (msgBufferId q) = Some p /\ rd (cx_mem s) p HEADER_SIZE = m_bytes (cx_mem s) (header q).

Lemma wp_pollMessage n t G held s :
  ok G held [] 0 s -> checkClientAuth (cx_conn s) = false -> 64 <= recvBuffersSize (cx_conn s) ->
  wp pending (pollMessage fuel no_function n t)
    (fun r s' => waited s s' /\
       match r with
       | Some q => ok G (msgBufferId q :: held) [] 0 s' /\ reading s' (msgBufferId q) (deserializer q) HEADER_SIZE /\
                   came s' q t /\ exists l, Forall (fun e => e_recv e = false) l /\ takes (l ++ [mkEntry true (msgBufferId q)]) s s'
       | None => ok G held [] 0 s'
       end) s.
Proof.
  revert s. induction n as [|n IH]; intros s Hc Hau Hsz; [by right|]. cbn [pollMessage]. apply wp_bind, wp_gets, wp_bind, wp_never.
  eapply wp_mono; [eapply wp_also; [by apply wp_pollForCompletion|eapply wp_weaken; [|apply wp_conj; [apply sent_quiet|apply poll_takes]]; done]|].
  intros e s1 [[Hq Ho] [Hsn Htk]]. assert (waited s s1) as Hw1 by (constructor; [apply Hq|apply Hq|done]).
  assert (checkClientAuth (cx_conn s1) = false /\ 64 <= recvBuffersSize (cx_conn s1)) as [Hau1 Hsz1] by (rewrite (wa_conn _ _ Hw1); split; [exact Hau|exact Hsz]).
  assert (forall s2, ok G held [] 0 s2 -> waited s1 s2 -> (exists l, Forall (fun e => e_recv e = false) l /\ takes l s s2) -> wp pending (pollMessage fuel no_function n t) (fun r s' => waited s s' /\
       match r with
       | Some q => ok G (msgBufferId q :: held) [] 0 s' /\ reading s' (msgBufferId q) (deserializer q) HEADER_SIZE /\
                   came s' q t /\ exists l, Forall (fun e => e_recv e = false) l /\ takes (l ++ [mkEntry true (msgBufferId q)]) s s'
       | None => ok G held [] 0 s'
       end) s2) as Hnext.
  { intros s2 Hc2 Hw2 (l2 & Hl2 & Ht2). eapply wp_mono; [apply IH; [done|rewrite (wa_conn _ _ Hw2); exact Hau1|rewrite (wa_conn _ _ Hw2); exact Hsz1]|].
    intros r s3 [Hw3 Hr]. split; [eapply waited_trans; [exact Hw1|]; by eapply waited_trans|]. destruct r as [q|]; [|done].
    destruct Hr as (Hr1 & Hr2 & Hr3 & l & Hl & Ht). split; [done|]. split; [done|]. split; [done|]. exists (l2 ++ l). split; [by apply Forall_app|].
    rewrite <- app_assoc. by eapply takes_trans. }
  assert (waited s1 s1) as Hrefl by (constructor; [by destruct (cx_conn s1)|done|done]).
  destruct e as [[[] c]|]; simpl in Ho, Htk; [..|apply Hnext; try done; exists []; done].
  - destruct (open_message_run cb_holds _ _ _ _ _ _ Ho (held_in _ _ _ _)) as (p & h & st & Hopen & Hrd & Hp & Hwf & Hby); [unfold HEADER_SIZE; lia|].
    apply wp_bind. unfold onRecvMessage. eapply wp_bind, wp_of_Ok; [exact Hopen|]. cbn [fst snd].
    destruct (hdr_msgType h =? _).
    { apply wp_bind, wp_gets. destruct (hookOnBadAuth (cx_conn s1)) as [[]|]. by left; right; left. }
    destruct (hdr_msgType h =? _).
    { apply wp_bind. eapply wp_mono; [|intros ? ? _; by left; right; left]. eapply wp_weaken; [intros f Hf; left; right; exact Hf|].
      apply error_message_stops. by destruct Hrd as (? & _ & _ & _ & _ & ?). }
    eapply wp_bind, wp_of_Ok; [apply checkAuth_accepts; unfold refused; by rewrite Hau1|]. cbn [negb]. apply wp_ret, wp_bind. cbn [header].
    unfold assume_, guard_. destruct (hdr_msgType h =? msg_code t) eqn:Et; [|by left; right; left]. apply wp_ret, wp_ret.
    apply Z.eqb_eq in Et. split; [done|]. split; [done|]. split; [done|].
    split; [split; [done|by exists p]|]. by exists [].
  - destruct (co_live _ _ _ _ _ _ Ho c) as [act Hact]; [apply elem_of_app; right; by left|].
    pose proof (co_acts _ _ _ _ _ _ Ho _ _ Hact) as [Hpos _]. unfold IOC_LF_NO_WAKEUP_POST_ACTION. replace (c =? -1) with false by lia.
    apply (wp_finish_nop pending G held); [exact Ho|]. intros r s2 Hc2 Hw2 Ht2.
    destruct (unblocks r); [|apply Hnext; try done; exists [mkEntry false c]; split; [by apply Forall_singleton|exact (takes_trans _ [] _ _ _ Htk Ht2)]]. apply wp_ret. split; [by eapply waited_trans|done].
Qed.

(** The response [resp] follows the header in the buffer [p]. *)
Definition answer_at (m : mem) (p n : Z) (resp : LibfabricResponse) : Prop :=
  m_wf resp /\ HEADER_SIZE + blen (m_bytes m resp) <= n /\ rd m (p + HEADER_SIZE) (blen (m_bytes m resp)) = m_bytes m resp.

(** A response can be read from any bytes, or its size stops the client. *)
Lemma response_any name st :
  action st = SERIALIZER_UNPACK -> room st 13 ->
  wp (fun f => f = FAssume) (apply_struct applySerializerDef name no_response) (fun _ st' => s_mem st' = s_mem st) st.
Proof.
  intros Ha Hr. unfold apply_struct. apply wp_bind, wp_gets. rewrite (bool_decide_eq_false_2 (action st = _)) by (rewrite Ha; discriminate).
  apply wp_bind, wp_ret, wp_bind, wp_modify, wp_bind. set (st0 := set_root false st).
  apply (wp_mono _ _ (fun _ st' => s_mem st' = s_mem st)); [|intros v st1 Hm; apply wp_bind, wp_gets, wp_bind; case_bool_decide;
    [apply wp_modify|apply wp_ret]; by apply wp_bind, wp_modify, wp_ret].
  simpl. unfold LibfabricResponse_applySerializerDef. simpl.
  assert (forall {B} n dec (print : B -> list out_item) enc fld old st1, action st1 = SERIALIZER_UNPACK -> room st1 n ->
    exists v, skips (apply_scalar n enc dec print fld old) v n st1) as Hscalar.
  { intros B n dec print enc fld old st1 Ha1 Hr1. eexists. apply (apply_scalar_unpack _ _ _ _ _ _ (rd (s_mem st1) (buffer st1 + cursor st1) n)); [apply rd_length; by destruct Hr1 as (_ & ? & _)|].
    split; [done|]. rewrite rd_length by (by destruct Hr1 as (_ & ? & _)). done. }
  destruct (Hscalar Z 8 le_combine (fun v => [OInt v]) (le_split 8) "msgDataSize" 0 st0) as (v1 & st1 & E1 & (B1 & S1 & A1) & C1 & M1); [done|unfold room in *; simpl; lia|].
  destruct (Hscalar Z 4 (fun l => i32 (le_combine l)) (fun v => [OInt v]) (le_split 4) "status" 0 st1) as (v2 & st2 & E2 & (B2 & S2 & A2) & C2 & M2);
    [rewrite A1; exact Ha|unfold room in *; rewrite C1, S1; simpl; lia|].
  destruct (Hscalar bool 1 (fun l => negb (le_combine l =? 0)) (fun b : bool => [OStr (if b then "true" else "false")]) (fun b : bool => [if b then x01 else x00])
    "msgHasData" false st2) as (v3 & st3 & E3 & (B3 & S3 & A3) & C3 & M3); [rewrite A2, A1; exact Ha|unfold room in *; rewrite C2, C1, S2, S1; simpl; lia|].
  eapply wp_bind, wp_of_Ok; [exact E1|]. eapply wp_bind, wp_of_Ok; [exact E2|]. eapply wp_bind, wp_of_Ok; [exact E3|].
  assert (s_mem st3 = s_mem st) as Hmem by (rewrite M3, M2, M1; done).
  destruct v3; [|by apply wp_bind, wp_ret, wp_ret]. apply wp_bind, wp_bind, wp_gets.
  assert (action st3 = SERIALIZER_UNPACK) as Ha3 by (rewrite A3, A2, A1; exact Ha). rewrite Ha3. simpl.
  unfold serializeOrPoint. apply wp_bind, wp_gets. rewrite Ha3. apply wp_bind, wp_guard; [done|]. apply wp_bind.
  unfold checkSize. apply wp_bind, wp_gets. rewrite (bool_decide_eq_false_2 (action st3 = _)) by (rewrite Ha3; discriminate).
  unfold assume_, guard_. destruct (_ <=? _); [|done]. apply wp_ret. apply wp_bind, wp_ret, wp_bind, wp_modify, wp_ret, wp_ret. exact Hmem.
Qed.

(** The response in a message that came. *)
Lemma wp_response G held q s :
  ok G (msgBufferId q :: held) [] 0 s -> reading s (msgBufferId q) (deserializer q) HEADER_SIZE -> 64 <= recvBuffersSize (cx_conn s) ->
  wp pending (unpack "response" no_response (deserializer q))
    (fun r s' => s' = s /\
       forall p resp, recvBuffers (cx_conn s) !! Z.to_nat (msgBufferId q) = Some p ->
         answer_at (cx_mem s) p (recvBuffersSize (cx_conn s)) resp -> r.1 = m_decoded no_response resp (p + HEADER_SIZE)) s.
Proof.
  intros Hc Hrd Hsz. set (st := deserializer q) in *. set (st0 := Serializer.set_mem (fun _ => cx_mem s) st).
  destruct Hrd as (p & Hp & Eb & Es & Ecu & Ea). destruct (recv_block cb_holds _ _ _ _ _ _ Hc (held_in _ _ _ _)) as (p' & Hp' & Hp0 & Hpe). simplify_eq.
  pose proof (response_any "response" st0 Ea) as Hany. assert (room st0 13) as Hroom by (unfold room; simpl; rewrite Es, Ecu; unfold HEADER_SIZE; lia).
  specialize (Hany Hroom). unfold wp in Hany. unfold unpack, wp at 1, with_ser. fold st0.
  destruct (apply_struct applySerializerDef "response" no_response st0) as [[v st']|f] eqn:Erun; [|subst f; by left; right; left].
  rewrite Hany. change (s_mem st0) with (cx_mem s). rewrite with_mem_id. split; [done|]. intros p resp Hpp (Hw & Hl & Hrd). simplify_eq.
  destruct (apply_struct_skips applySerializerDef "response" no_response (m_decoded no_response resp (buffer st0 + cursor st0)) (blen (m_bytes (cx_mem s) resp)) st0) as (st2 & E2 & _).
  - change (action st <> SERIALIZER_STRINGIFY). rewrite Ea. discriminate.
  - set (st1 := set_root false st0). assert (holds st1 (m_bytes (cx_mem s) resp)) as Hh.
    { split; [exact Ea|]. change (buffer st1) with (buffer st). unfold room. change (cursor st1) with (cursor st). change (size st1) with (size st).
      rewrite Es, Ecu. unfold HEADER_SIZE in *. split; [lia|exact Hrd]. }
    exact (unpack_ok (cx_mem s) no_response resp st1 Hw ltac:(simpl; lia) ltac:(simpl; rewrite Es; lia) Hh).
  - rewrite Erun in E2. injection E2 as -> _. cbn [fst]. change (buffer st0 + cursor st0) with (buffer st + cursor st). by rewrite Ecu.
Qed.

Lemma wp_finish G held q s :
  ok G (msgBufferId q :: held) [] 0 s -> reading s (msgBufferId q) (deserializer q) HEADER_SIZE -> 64 <= recvBuffersSize (cx_conn s) ->
  wp pending (finish q)
    (fun status s' => ok G held [] 0 s' /\ cx_conn s' = cx_conn s /\ cx_app s' = cx_app s /\ cx_mem s' = cx_mem s /\
       ep_sent (ep s') = ep_sent (ep s) /\ ep_read (ep s') = ep_read (ep s) /\
       forall p resp, recvBuffers (cx_conn s) !! Z.to_nat (msgBufferId q) = Some p ->
         answer_at (cx_mem s) p (recvBuffersSize (cx_conn s)) resp -> status = rsp_status resp) s.
Proof.
  intros Hc Hrd Hsz. unfold finish. apply wp_bind. eapply wp_mono; [by eapply wp_response|]. intros r s' [-> Hresp].
  apply wp_bind. unfold terminate. eapply wp_weaken; [intros f Hf; left; left; left; exact Hf|].
  eapply wp_mono; [by apply wp_repostReceive|]. intros _ s' (Hc' & Hcn & Hap & Hm & _ & Hsn & Hrd'). apply wp_ret. split_and!; try done.
  intros p resp Hp Ha. by rewrite (Hresp p resp Hp Ha).
Qed.

(** *** The actions that only have a status *)
Inductive action : Type :=
| AFlush (objectId : LibfabricObjectId) (offset size : Z)
| ACreate (objectId : LibfabricObjectId)
| ACow (source dest : LibfabricObjectId) (allowExist : bool) (offset size : Z)
| ARegister (objectId : LibfabricObjectId) (offset size : Z) (write : bool)
| AUnregister (id : Z) (objectId : LibfabricObjectId) (offset size : Z) (write : bool).

Definition perform (a : action) : M S Z :=
  match a with
  | AFlush id off n => obj_flush fuel id off n
  | ACreate id => obj_create fuel id
  | ACow src dst allow off n => obj_cow fuel src dst allow off n
  | ARegister id off n w => obj_range_register fuel id off n w
  | AUnregister i id off n w => obj_range_unregister fuel i id off n w
  end.

(** The type of the request and of its answer, and the structure it sends. *)
Definition types (a : action) : LibfabricMessageType * LibfabricMessageType :=
  match a with
  | AFlush _ _ _ => (IOC_LF_MSG_OBJ_FLUSH, IOC_LF_MSG_OBJ_FLUSH_ACK)
  | ACreate _ => (IOC_LF_MSG_OBJ_CREATE, IOC_LF_MSG_OBJ_CREATE_ACK)
  | ACow _ _ _ _ _ => (IOC_LF_MSG_OBJ_COW, IOC_LF_MSG_OBJ_COW_ACK)
  | ARegister _ _ _ _ => (IOC_LF_MSG_OBJ_RANGE_REGISTER, IOC_LF_MSG_OBJ_RANGE_REGISTER_ACK)
  | AUnregister _ _ _ _ _ => (IOC_LF_MSG_OBJ_RANGE_UNREGISTER, IOC_LF_MSG_OBJ_RANGE_UNREGISTER_ACK)
  end.
Definition body_wf (a : action) : Prop :=
  match a with
  | AFlush id off n => m_wf (mkFlush id off n)
  | ACreate id => m_wf (mkCreate id)
  | ACow src dst allow off n => m_wf (mkCow src dst allow off n)
  | ARegister id off n w => m_wf (mkRegister id off n w)
  | AUnregister i id off n w => m_wf (mkUnregister id off n i w)
  end.
Definition body (m : mem) (a : action) : list byte :=
  match a with
  | AFlush id off n => m_bytes m (mkFlush id off n)
  | ACreate id => m_bytes m (mkCreate id)
  | ACow src dst allow off n => m_bytes m (mkCow src dst allow off n)
  | ARegister id off n w => m_bytes m (mkRegister id off n w)
  | AUnregister i id off n w => m_bytes m (mkUnregister id off n i w)
  end.
Definition wire s (a : action) : list byte :=
  m_bytes (cx_mem s) (fillProtocolHeader (msg_code (types a).1) (cx_conn s)) ++ body (cx_mem s) a.

(** What an action leaves: one request sent, the answer read, its buffer posted.  The
    answer is in the buffer of the first message that came since the call. *)
Definition answered s (addr : Z) (msg : list byte) (ack : LibfabricMessageType) G (status : Z) s' : Prop :=
  ep_sent (ep s') = ep_sent (ep s) ++ [(addr, msg)] /\ cx_app s' = cx_app s /\ (exists G', G ⊆ G' /\ ok G' [] [] 0 s') /\
  cx_conn s' = set_queue (cqEntries (cx_conn s')) (pendingAction (cx_conn s')) (cx_conn s) /\
  exists p h, first_message s s' p /\ rd (cx_mem s') p HEADER_SIZE = m_bytes (cx_mem s') h /\ hdr_msgType h = msg_code ack /\
    forall resp, answer_at (cx_mem s') p (recvBuffersSize (cx_conn s)) resp -> status = rsp_status resp.

(** The state when the answer [q] has come. *)
Record came_back s (addr : Z) (msg : list byte) (ack : LibfabricMessageType) G (q : LibfabricClientRequest) s' : Prop := {
  cb_sent : ep_sent (ep s') = ep_sent (ep s) ++ [(addr, msg)];
  cb_app : cx_app s' = cx_app s;
  cb_conn : cx_conn s' = set_queue (cqEntries (cx_conn s')) (pendingAction (cx_conn s')) (cx_conn s);
  cb_ok : exists G', G ⊆ G' /\ ok G' [msgBufferId q] [] 0 s';
  cb_reading : reading s' (msgBufferId q) (deserializer q) HEADER_SIZE;
  cb_came : came s' q ack;
  cb_taken : exists l, Forall (fun e => e_recv e = false) l /\ takes (l ++ [mkEntry true (msgBufferId q)]) s s';
}.

Lemma wp_request {T} `{MessageOk T} G s msgType ack (data : T) addr :
  let bytes := m_bytes (cx_mem s) (fillProtocolHeader (msg_code msgType) (cx_conn s)) ++ m_bytes (cx_mem s) data in
  ok G [] [] 0 s -> patient fuel s -> ready cb_holds s -> checkClientAuth (cx_conn s) = false ->
  sm_find IOC_LF_SERVER_ID (remoteLiAddr (cx_conn s)) = Some addr -> m_wf data -> Forall (outside G (all_bufs s [])) (m_regions data) ->
  blen bytes <= msgBufferSize (s_domain (cx_sys s)) -> blen bytes <= recvBuffersSize (cx_conn s) ->
  wp pending (request fuel msgType ack data) (came_back s addr bytes ack G) s.
Proof.
  intros bytes Hc Hp Hr Hau Hd Hw Hreg Hl1 Hl2. unfold request. apply wp_bind.
  eapply wp_weaken; [intros f Hf; left; left; exact Hf|]. unfold sendMessageNoPollWakeup. eapply wp_mono.
  { apply (wp_send_new cb_holds fuel G [] [] 0 s (Nop LF_WAIT_LOOP_KEEP_WAITING) msgType IOC_LF_SERVER_ID data addr); try done;
      by apply (header_wf cb_holds). }
  intros _ s1 [[Hsent _ Hcn Hap Htk] (G1 & HG1 & Hc1)]. fold bytes in Hsent. clearbody bytes.
  apply wp_bind. eapply wp_mono; [apply (wp_pollMessage fuel ack G1 [] s1 Hc1)|].
  { rewrite Hcn. exact Hau. }
  { rewrite Hcn. exact (re_recv _ _ Hr). }
  intros q s2 [[Hcn2 Hap2 Hsn2] Hq]. destruct q as [q|]; [|by left; right; left]. apply wp_ret. destruct Hq as (Hc2 & Hrd2 & Hcame & l & Hl & Ht).
  constructor; try done; [by rewrite Hsn2|congruence|rewrite Hcn2, Hcn; by destruct (cx_conn s)|by exists G1|].
  exists l. split; [done|]. exact (takes_trans [] _ _ _ _ Htk Ht).
Qed.

Lemma wp_call {T} `{MessageOk T} G s msgType ack (data : T) addr :
  let bytes := m_bytes (cx_mem s) (fillProtocolHeader (msg_code msgType) (cx_conn s)) ++ m_bytes (cx_mem s) data in
  ok G [] [] 0 s -> patient fuel s -> ready cb_holds s -> checkClientAuth (cx_conn s) = false ->
  sm_find IOC_LF_SERVER_ID (remoteLiAddr (cx_conn s)) = Some addr -> m_wf data -> Forall (outside G (all_bufs s [])) (m_regions data) ->
  blen bytes <= msgBufferSize (s_domain (cx_sys s)) -> blen bytes <= recvBuffersSize (cx_conn s) ->
  wp pending (let! r := request fuel msgType ack data in finish r) (answered s addr bytes ack G) s.
Proof.
  intros bytes Hc Hp Hr Hau Hd Hw Hreg Hl1 Hl2. apply wp_bind. eapply wp_mono; [by apply (wp_request G s msgType ack data addr)|].
  fold bytes. clearbody bytes. intros q s2 [Hsent Hap Ecn (G1 & HG1 & Hc2) Hrd2 (Hty & p & Hpb & Hhd) (l & Hl & Htk)].
  assert (recvBuffers (cx_conn s2) = recvBuffers (cx_conn s)) as Erb by by rewrite Ecn.
  assert (recvBuffersSize (cx_conn s2) = recvBuffersSize (cx_conn s)) as Ers by by rewrite Ecn.
  eapply wp_mono; [apply (wp_finish G1 [] q s2 Hc2 Hrd2); rewrite Ers; exact (re_recv _ _ Hr)|].
  intros status s3 (Hc3 & Hcn3 & Hap3 & Hm3 & Hsn3 & Hrd3 & Hst). split; [by rewrite Hsn3|]. split; [congruence|]. split; [by exists G1|]. split; [by rewrite Hcn3|].
  exists p, (header q). split.
  { apply (first_message_after _ s2); [|done|by rewrite Hcn3]. exists (msgBufferId q), l. by rewrite <- Erb. } rewrite Hm3. split; [done|]. split; [done|].
  intros resp Hresp. apply (Hst p); [done|]. by rewrite Ers.
Qed.

(** A flush, a creation, a copy or a range registration sends its request to
    the server once, and when it returns it gives back the status of the response
    in the message of the matching type that came, whose buffer is posted again;
    the connection is ready for the next action.  Until then it waits: the only
    other ends are an error of the resources, a message that was not expected and
    a message from the server that stops the client. *)
Theorem client_action_correct (a : action) G s addr :
  ok G [] [] 0 s -> patient fuel s -> ready cb_holds s -> checkClientAuth (cx_conn s) = false ->
  sm_find IOC_LF_SERVER_ID (remoteLiAddr (cx_conn s)) = Some addr -> body_wf a ->
  128 <= msgBufferSize (s_domain (cx_sys s)) -> 128 <= recvBuffersSize (cx_conn s) ->
  wp pending (perform a) (answered s addr (wire s a) (types a).2 G) s.
Proof.
  intros Hc Hp Hr Hau Hd Hw Hl1 Hl2.
  assert (blen (wire s a) <= 128) as Hlen.
  { unfold wire. rewrite length_app, Nat2Z.inj_add, header_size. clear.
    destruct a as [[] ? ?|[]|[] [] [] ? ?|[] ? ? []|? [] ? ? []]; vm_compute; discriminate. }
  destruct a; (apply wp_call; try done; try constructor; fold (wire s)); (etransitivity; [exact Hlen|done]).
Qed.

(** *** Reading and writing *)

(** The request of obj_write and obj_read when no RDMA is used. *)
Definition write_request (objectId : LibfabricObjectId) (buffer size offset : Z) : LibfabricObjReadWriteInfos :=
  mkReadWrite objectId (mkIov 0 0) offset size true buffer.
Definition read_request (objectId : LibfabricObjectId) (size offset : Z) : LibfabricObjReadWriteInfos :=
  mkReadWrite objectId (mkIov 0 0) offset size false 0.

(** obj_write of at most IOC_EAGER_MAX_WRITE bytes sends them in the request:
    the message is the header of the connection, the range and the bytes of the
    buffer of the caller, and the status of the answer is returned. *)
Theorem client_write_correct G s objectId buffer size offset addr :
  let data := write_request objectId buffer size offset in
  let bytes := m_bytes (cx_mem s) (fillProtocolHeader (msg_code IOC_LF_MSG_OBJ_WRITE) (cx_conn s)) ++ m_bytes (cx_mem s) data in
  size <= IOC_EAGER_MAX_WRITE ->
  ok G [] [] 0 s -> patient fuel s -> ready cb_holds s -> checkClientAuth (cx_conn s) = false ->
  sm_find IOC_LF_SERVER_ID (remoteLiAddr (cx_conn s)) = Some addr -> m_wf data ->
  outside G (all_bufs s []) (buffer, size) ->
  Z.of_nat (length bytes) <= msgBufferSize (s_domain (cx_sys s)) -> Z.of_nat (length bytes) <= recvBuffersSize (cx_conn s) ->
  wp pending (obj_write fuel objectId buffer size offset) (answered s addr bytes IOC_LF_MSG_OBJ_READ_WRITE_ACK G) s.
Proof.
  intros data bytes Hsz Hc Hp Hr Hau Hd Hw Hout Hl1 Hl2. unfold obj_write.
  replace (size >? IOC_EAGER_MAX_WRITE) with false by lia. replace (size <=? IOC_EAGER_MAX_WRITE) with true by lia.
  apply wp_bind, wp_ret. fold (write_request objectId buffer size offset). fold data.
  pose proof (wp_call G s IOC_LF_MSG_OBJ_WRITE IOC_LF_MSG_OBJ_READ_WRITE_ACK data addr) as Hcall. cbv zeta in Hcall. fold bytes in Hcall.
  assert (wp pending (let! r := request fuel IOC_LF_MSG_OBJ_WRITE IOC_LF_MSG_OBJ_READ_WRITE_ACK data in finish r)
            (answered s addr bytes IOC_LF_MSG_OBJ_READ_WRITE_ACK G) s) as Hall.
  { apply Hcall; try done. simpl. repeat constructor; done. }
  clear Hcall. unfold wp, bind, ret in *. destruct (request fuel _ _ data s) as [[r s1]|]; [|done].
  by destruct (finish r s1) as [[status s2]|].
Qed.

(** The exchange of obj_read, without the registration of the buffer *)
Definition read_exchange (data : LibfabricObjReadWriteInfos) (buffer size : Z) : M S Z :=
  let! serverResponse := request fuel IOC_LF_MSG_OBJ_READ IOC_LF_MSG_OBJ_READ_WRITE_ACK data in
  let! r := unpack "response" no_response (deserializer serverResponse) in
  let response := r.1 in
  (if rsp_msgHasData response then
     assume_ (rsp_msgDataSize response =? size) ;;
     modify (fun s => with_mem (memcpy (cx_mem s) buffer (rsp_optionalData response) (rsp_msgDataSize response)) s)
   else ret tt) ;;
  terminate serverResponse ;;
  ret (rsp_status response).

Lemma wp_read_exchange G s data buffer size addr :
  let bytes := m_bytes (cx_mem s) (fillProtocolHeader (msg_code IOC_LF_MSG_OBJ_READ) (cx_conn s)) ++ m_bytes (cx_mem s) data in
  ok G [] [] 0 s -> patient fuel s -> ready cb_holds s -> checkClientAuth (cx_conn s) = false ->
  sm_find IOC_LF_SERVER_ID (remoteLiAddr (cx_conn s)) = Some addr -> m_wf data -> rw_msgHasData data = false -> 0 <= size ->
  Z.of_nat (length bytes) <= msgBufferSize (s_domain (cx_sys s)) -> Z.of_nat (length bytes) <= recvBuffersSize (cx_conn s) ->
  wp pending (read_exchange data buffer size)
    (fun status s' => ep_sent (ep s') = ep_sent (ep s) ++ [(addr, bytes)] /\ (exists G', G ⊆ G' /\ ok G' [] [] 0 s') /\
       recvBuffers (cx_conn s') = recvBuffers (cx_conn s) /\
       exists p m h, first_message s s' p /\ (forall a, ~ (buffer <= a < buffer + size) -> cx_mem s' a = m a) /\
         rd m p HEADER_SIZE = m_bytes m h /\ hdr_msgType h = msg_code IOC_LF_MSG_OBJ_READ_WRITE_ACK /\
         forall resp, answer_at m p (recvBuffersSize (cx_conn s)) resp ->
           status = rsp_status resp /\ (rsp_msgHasData resp = true -> rd (cx_mem s') buffer size = response_data m resp)) s.
Proof.
  intros bytes Hc Hp Hr Hau Hd Hw Hdat Hs0 Hl1 Hl2. unfold read_exchange. apply wp_bind.
  eapply wp_mono; [apply (wp_request G s IOC_LF_MSG_OBJ_READ IOC_LF_MSG_OBJ_READ_WRITE_ACK data addr); try done; simpl; rewrite Hdat; constructor|].
  fold bytes. clearbody bytes.
  intros q s2 [Hsent Hap Ecn (G1 & HG1 & Hc2) Hrd2 (Hty & p & Hpb & Hhd) (l & Hl & Htk)]. apply wp_bind.
  assert (recvBuffers (cx_conn s2) = recvBuffers (cx_conn s)) as Erb by by rewrite Ecn.
  assert (recvBuffersSize (cx_conn s2) = recvBuffersSize (cx_conn s)) as Ers by by rewrite Ecn.
  eapply wp_mono; [apply (wp_response G1 [] q s2 Hc2 Hrd2); rewrite Ers; exact (re_recv _ _ Hr)|]. intros r s3 [-> Hresp].
  apply wp_bind, (wp_mono _ _ (fun _ s3 => exists m', s3 = with_mem m' s2 /\ (forall a, ~ (buffer <= a < buffer + size) -> m' a = cx_mem s2 a) /\
    (rsp_msgHasData r.1 = true -> rsp_msgDataSize r.1 = size /\ rd m' buffer size = rd (cx_mem s2) (rsp_optionalData r.1) size))).
  { destruct (rsp_msgHasData r.1); [|apply wp_ret; exists (cx_mem s2); by rewrite with_mem_id].
    apply wp_bind. unfold assume_, guard_. destruct (rsp_msgDataSize r.1 =? size) eqn:En; [|by left; right; left]. apply Z.eqb_eq in En.
    apply wp_ret, wp_modify. rewrite En. eexists. split; [done|]. split; [intros a Ha; by apply memcpy_out|]. intros _. split; [done|apply rd_memcpy]. }
  intros _ s3 (m' & -> & Hout & Hin). apply wp_bind. unfold terminate. eapply wp_weaken; [intros f Hf; left; left; left; exact Hf|].
  eapply wp_mono; [apply wp_repostReceive; by apply (ok_mem cb_holds)|]. intros _ s4 (Hc4 & Hcn4 & _ & Hm4 & _ & Hsn4 & Hrd4). apply wp_ret.
  split; [by rewrite Hsn4|]. split; [by exists G1|]. split; [by rewrite Hcn4|]. exists p, (cx_mem s2), (header q). split.
  { apply (first_message_after _ s2); [|by rewrite Hrd4|by rewrite Hcn4]. exists (msgBufferId q), l. by rewrite <- Erb. }
  rewrite Hm4. change (cx_mem (with_mem m' s2)) with m'. split; [exact Hout|]. split; [done|]. split; [done|]. intros resp Hans. rewrite <- Ers in Hans. pose proof (Hresp p resp Hpb Hans) as Hv.
  split; [by rewrite Hv|]. intros Hhas. destruct Hin as [Hn ->]; [by rewrite Hv|]. destruct Hans as (Hwr & _ & Hrd).
  pose proof (view_ok (cx_mem s2) (cx_mem s2) no_response resp (p + HEADER_SIZE) Hwr Hrd) as Hview. rewrite <- Hv in Hview.
  change (m_payload (cx_mem s2) resp) with (response_data (cx_mem s2) resp) in Hview. rewrite <- Hview.
  change (rd (cx_mem s2) (rsp_optionalData r.1) size = data_bytes (cx_mem s2) (rsp_msgHasData r.1) (rsp_optionalData r.1) (rsp_msgDataSize r.1)).
  unfold data_bytes. rewrite Hn, Hv. simpl. by rewrite Hhas.
Qed.

(** obj_read is the exchange between the two calls on the registration. *)
Lemma obj_read_exchange objectId buffer size offset s :
  obj_read fuel objectId buffer size offset s =
  (let! iov := if size >? IOC_EAGER_MAX_READ then on_sys (registerSegment buffer size true true false) else ret (mkIov 0 0) in
   let! status := read_exchange (mkReadWrite objectId iov offset size false 0) buffer size in
   (if size >? IOC_EAGER_MAX_READ then on_sys (unregisterSegment buffer size) else ret tt) ;;
   ret status) s.
Proof.
  unfold obj_read, read_exchange, bind.
  repeat (match goal with
    | |- context [match ?x with Ok _ => _ | Abort _ => _ end] =>
        lazymatch x with
        | context [match _ with Ok _ => _ | Abort _ => _ end] => fail
        | context [rsp_msgHasData ?r] => destruct (rsp_msgHasData r)
        | _ => destruct x as [[? ?]|]
        end
    | |- context [rsp_msgHasData ?r] => destruct (rsp_msgHasData r)
    end; try done).
Qed.

(** obj_read of at most IOC_EAGER_MAX_READ bytes: when the answer carries
    data, they are as many as asked and they are in the buffer of the caller; the
    status of the answer is returned and nothing else of the memory outside the
    buffer changes from the moment the answer came. *)
Theorem client_read_correct G s objectId buffer size offset addr :
  let data := read_request objectId size offset in
  let bytes := m_bytes (cx_mem s) (fillProtocolHeader (msg_code IOC_LF_MSG_OBJ_READ) (cx_conn s)) ++ m_bytes (cx_mem s) data in
  size <= IOC_EAGER_MAX_READ ->
  ok G [] [] 0 s -> patient fuel s -> ready cb_holds s -> checkClientAuth (cx_conn s) = false ->
  sm_find IOC_LF_SERVER_ID (remoteLiAddr (cx_conn s)) = Some addr -> m_wf data ->
  Z.of_nat (length bytes) <= msgBufferSize (s_domain (cx_sys s)) -> Z.of_nat (length bytes) <= recvBuffersSize (cx_conn s) ->
  wp pending (obj_read fuel objectId buffer size offset)
    (fun status s' => ep_sent (ep s') = ep_sent (ep s) ++ [(addr, bytes)] /\ (exists G', G ⊆ G' /\ ok G' [] [] 0 s') /\
       exists p m h, first_message s s' p /\ (forall a, ~ (buffer <= a < buffer + size) -> cx_mem s' a = m a) /\
         rd m p HEADER_SIZE = m_bytes m h /\ hdr_msgType h = msg_code IOC_LF_MSG_OBJ_READ_WRITE_ACK /\
         forall resp, answer_at m p (recvBuffersSize (cx_conn s)) resp ->
           status = rsp_status resp /\ (rsp_msgHasData resp = true -> rd (cx_mem s') buffer size = response_data m resp)) s.
Proof.
  intros data bytes Hsz Hc Hp Hr Hau Hd Hw Hl1 Hl2. assert (0 <= size) as Hs0 by (simpl in Hw; unfold is_u64 in Hw; lia).
  unfold wp. rewrite obj_read_exchange. replace (size >? IOC_EAGER_MAX_READ) with false by lia. apply wp_bind, wp_ret, wp_bind.
  eapply wp_mono; [by apply (wp_read_exchange G s data buffer size addr)|]. intros status s' (? & ? & _ & ?). by apply wp_bind, wp_ret, wp_ret.
Qed.
End answers.
End Client.
