(* ===== verification/ClientRdma.v ===== *)
(** * Large reads and writes of a client

    obj_read and obj_write of src/src/client/Actions.cpp when the data does not go in
    a message: the buffer of the caller is registered, the request gives its address
    and its key to the server, and the registration is removed when the answer has
    come.  [Spares] are the programs that never take a block of the caller for a
    message buffer. *)

From Stdlib Require Import String.
From S2P Require Import Prelude StdMap Memory Serializer Protocol System Fabric LibfabricDomain ClientRegistry Connection Dispatch ConnectionInv ConnectionSend ConnectionPoll ConnectionLoop Client.

Module ClientRdma.
Import Serializer Protocol LibfabricDomain ClientRegistry Connection Dispatch ConnectionInv ConnectionSend ConnectionPoll ConnectionLoop Client.

(** ** Blocks of the caller *)
Section spares.
Context {X Hook Cb A : Type} `{Libc X} `{!LibcOk X} `{Libfabric X} `{!LibfabricOk X} `{Fabric X} `{!FabricOk X} {users : Users}.
Abbreviation S := (Cx X Hook Cb A).
Implicit Types (s : S).

(** The block at [b] is allocated and is not a message buffer. *)
Record reserved (b : Z) s : Prop := {
  rs_live : is_Some (lc_live (s_ext (cx_sys s)) !! b);
  rs_pos : 0 < msgBufferSize (s_domain (cx_sys s));
  rs_pool : b ∉ msgBuffers (s_domain (cx_sys s));
  rs_acts : forall a act, cx_actions s !! a = Some act -> pa_domainBuffer act <> b;
}.

Lemma reserved_same b s s' :
  lc_live (s_ext (cx_sys s')) = lc_live (s_ext (cx_sys s)) -> s_domain (cx_sys s') = s_domain (cx_sys s) -> cx_actions s' = cx_actions s ->
  reserved b s -> reserved b s'.
Proof. intros Hl Hd Ha []. constructor; rewrite ?Hl, ?Hd, ?Ha; done. Qed.

Class Spares {B} (m : M S B) : Prop := spares : forall b s, reserved b s -> wp any m (fun _ s' => reserved b s') s.

#[export] Instance spares_bind {B C} (m : M S B) (k : B -> M S C) : Spares m -> (forall b, Spares (k b)) -> Spares (bind m k).
Proof. intros Hm Hk b s Hs. apply wp_bind. eapply wp_mono; [by apply Hm|]. intros c s1 Hs1. by apply Hk. Qed.
#[export] Instance spares_ret {B} (x : B) : Spares (ret x).
Proof. intros b s Hs. by apply wp_ret. Qed.
#[export] Instance spares_gets {B} (f : S -> B) : Spares (gets f).
Proof. intros b s Hs. by apply wp_gets. Qed.
#[export] Instance spares_get : Spares get.
Proof. intros b s Hs. by apply wp_gets. Qed.
#[export] Instance spares_conn {B} (f : Conn Hook Cb -> B) : Spares (conn f).
Proof. intros b s Hs. by apply wp_gets. Qed.
#[export] Instance spares_abort {B} f : Spares (abort (A := B) f).
Proof. done. Qed.
#[export] Instance spares_guard f c : Spares (guard_ f c).
Proof. intros b s Hs. destruct c; [by apply wp_ret|done]. Qed.
#[export] Instance spares_option {B} f (o : option B) : Spares (of_option f o).
Proof. intros b s Hs. destruct o; [by apply wp_ret|done]. Qed.
#[export] Instance spares_if {B} (c : bool) (m m' : M S B) : Spares m -> Spares m' -> Spares (if c then m else m').
Proof. by destruct c. Qed.
#[export] Instance spares_count n : Spares (count_action n).
Proof. intros b s Hs. apply wp_modify. by apply (reserved_same b s). Qed.
#[export] Instance spares_memory f : Spares (modify (fun s => with_mem (f s) s)).
Proof. intros b s Hs. apply wp_modify. by apply (reserved_same b s). Qed.
#[export] Instance spares_with_ser {B} (m : M Ser B) st : Spares (with_ser m st).
Proof. intros b s Hs. unfold wp, with_ser. destruct (m _) as [[x y]|f]; [|done]. by apply (reserved_same b s). Qed.
#[export] Instance spares_new_serializer buf sz act : Spares (new_serializer buf sz act).
Proof. intros b s Hs. unfold wp, new_serializer. destruct (init_buffer _ _ _ _); [|done]. by apply (reserved_same b s). Qed.

Lemma reserved_pos b s : reserved b s -> 0 < b.
Proof. intros [[n Hn] _ _ _]. apply lc_range in Hn. lia. Qed.

#[export] Instance spares_new_action body : Spares (new_action body).
Proof.
  intros b s Hs. pose proof (reserved_pos _ _ Hs). constructor; try apply Hs.
  simpl. intros a act [[<- <-]|[_ Ha]]%lookup_insert_Some; [simpl; lia|by eapply rs_acts].
Qed.
#[export] Instance spares_getMsgBufferSize : Spares (on_sys getMsgBufferSize).
Proof. intros b s Hs. apply wp_conn_sys, wp_gets. by destruct s. Qed.
#[export] Instance spares_fi_recv p n id : Spares (fabric (fi_recv p n id)).
Proof. intros b s. apply reserved_same; [apply fi_recv_live|done|done]. Qed.
#[export] Instance spares_fi_send addr l a : Spares (fabric (fi_send addr l a)).
Proof. intros b s. apply reserved_same; [apply fi_send_live|done|done]. Qed.

Lemma read_reserved b s r s' : read_queue s r s' -> reserved b s -> reserved b s'.
Proof. intros [[] _ _ _ _ _ _]. by apply reserved_same. Qed.
#[export] Instance spares_drain n : Spares (pollAllCqInCache n).
Proof.
  induction n as [|n IH]; intros b s Hs; [done|]. unfold wp. rewrite pollAllCqInCache_step. pose proof (queue_step_read false s) as Hr.
  apply (read_reserved b _ _ _ Hr) in Hs. destruct (queue_step false s) as [[e|] s1]; cbn [fst snd] in *; [|exact Hs].
  apply (IH b (put_aside e s1)). by apply (reserved_same b s1).
Qed.
#[export] Instance spares_take passive : Spares (pollForCompletion passive true).
Proof.
  intros b s Hs. unfold pollForCompletion. apply wp_bind, wp_gets. pose proof (queue_step_read passive s) as Hr.
  destruct (cqEntries (cx_conn s)); [apply wp_bind, wp_ret; by eapply read_reserved|]. apply wp_bind, wp_modify, wp_ret. by apply (reserved_same b s).
Qed.
#[export] Instance spares_retry fuel n (m : M S Z) : Spares m -> Spares (retry fuel n m).
Proof. intros Hm. induction n as [|n IH]; [by intros b s|]. cbn [retry]. apply _. Qed.
#[export] Instance spares_sendRaw fuel p n d a : Spares (sendRawMessage fuel p n d a).
Proof. unfold sendRawMessage, find_remote. apply _. Qed.

(** A message buffer that is handed out is not the block. *)
Lemma getMsgBuffer_spares b s :
  reserved b s -> wp any (on_sys getMsgBuffer) (fun p s' => p <> b /\ reserved b s') s.
Proof.
  intros Hs. destruct Hs as [[k Hk] Hpos Hpool Hacts]. apply wp_conn_sys. unfold getMsgBuffer. apply wp_bind, wp_gets.
  destruct (last _) as [p|] eqn:El.
  - apply last_Some in El as [l El]. apply wp_bind, wp_modify, wp_ret. rewrite El, elem_of_app, list_elem_of_singleton in Hpool.
    split; [intros ->; tauto|]. constructor; simpl; try done. rewrite El, removelast_last. tauto.
  - apply wp_bind. unfold assume_, guard_. destruct (negb _); [|done]. apply wp_ret, wp_bind. unfold malloc, wp at 1. set (n := msgBufferSize _) in *.
    pose proof (lc_malloc_ok (s_ext (cx_sys s)) n Hpos) as Hm. set (r := lc_malloc n (s_ext (cx_sys s))) in *. apply wp_bind.
    destruct (r.1 =? 0) eqn:E0; [apply Z.eqb_eq in E0; by rewrite E0|]. destruct Hm as [Hfresh Hlive].
    assert (r.1 <> b) as Hne by congruence.
    eapply wp_mono; [apply registerSegment_kept|]. intros iov x2 [[Km Kz _ _] Hl]. apply wp_ret. split; [done|]. simpl in *.
    constructor; simpl; [rewrite Hl, Hlive, lookup_insert_ne by done; by exists k|by rewrite Kz|by rewrite Km|done].
Qed.

Lemma attach_spares a p b s : p <> b -> reserved b s -> wp any (attachDomainBuffer a p) (fun _ s' => reserved b s') s.
Proof.
  intros Hne Hs. unfold attachDomainBuffer, get_action. apply wp_bind, wp_bind, wp_gets. destruct (_ !! _) as [act|]; [|done].
  apply wp_ret, wp_bind. unfold assert_, guard_. destruct (negb _); [|done]. apply wp_ret, wp_bind. destruct (_ =? 0); [|done]. apply wp_ret, wp_bind.
  destruct (negb _); [|done]. apply wp_ret, wp_modify. constructor; try apply Hs. simpl.
  intros c act' [[_ <-]|[_ Hc]]%lookup_insert_Some; [done|by eapply rs_acts].
Qed.

#[export] Instance spares_send fuel {T} `{Message T} t d (data : T) a : Spares (sendMessage fuel t d data a).
Proof.
  intros b s Hs. unfold sendMessage. apply wp_bind. eapply wp_mono; [by apply getMsgBuffer_spares|]. intros p s1 [Hne Hs1].
  apply wp_bind. eapply wp_mono; [by apply (spares b)|]. intros sz s2 Hs2. apply wp_bind. eapply wp_mono; [by apply attach_spares|].
  intros u s3 Hs3. apply (spares b s3 Hs3).
Qed.
#[export] Instance spares_send_nowakeup fuel {T} `{Message T} t d (data : T) : Spares (sendMessageNoPollWakeup fuel t d data).
Proof. unfold sendMessageNoPollWakeup. apply _. Qed.
#[export] Instance spares_sendResponse fuel t lf status : Spares (sendResponse fuel t lf status false).
Proof. unfold sendResponse, sendNop. apply _. Qed.
#[export] Instance spares_repost id : Spares (repostReceive id).
Proof. unfold repostReceive. apply _. Qed.
#[export] Instance spares_terminate request : Spares (terminate request).
Proof. apply spares_repost. Qed.

(** The buffer of an action goes back to the pool: it is not the block. *)
#[export] Instance spares_delete a : Spares (delete_action a).
Proof.
  intros b s Hs. unfold delete_action, get_action. apply wp_bind, wp_bind, wp_gets. destruct (cx_actions s !! a) as [act|] eqn:Ea; [|done].
  apply wp_ret, wp_bind. pose proof (rs_acts _ _ Hs _ _ Ea) as Hne.
  apply (wp_mono _ _ (fun _ s' => reserved b s')).
  - unfold freeBuffer. destruct (pa_connection act); [|by apply wp_ret]. apply wp_bind.
    eapply wp_mono; [apply (spares (Spares := spares_if _ _ _ (spares_repost _) (spares_ret tt)) b s Hs)|]. intros u s1 Hs1.
    destruct (negb _); [|by apply wp_ret]. apply wp_conn_sys. unfold retMsgBuffer. apply wp_bind. unfold assume_, guard_. destruct (negb _); [|done].
    apply wp_ret, wp_modify. destruct Hs1. constructor; try done. simpl. rewrite elem_of_app, list_elem_of_singleton. intros [?| ->]; done.
  - intros u s1 Hs1. apply wp_modify. constructor; try apply Hs1. simpl. intros c act' [_ Hc]%lookup_delete_Some. by eapply rs_acts.
Qed.
End spares.

(** ** The calls *)
Section calls.
Context {X Hook A : Type} `{Libc X} `{!LibcOk X} `{Libfabric X} `{!LibfabricOk X} `{Fabric X} `{!FabricOk X} {users : Users} `{StringStorage}.
Abbreviation S := (Cx X (option Hook) Empty_set A).
Implicit Types (s : S) (G : heap).
Variable fuel : nat.
Abbreviation ok := (conn_ok cb_holds).

(** *** What waiting for an answer spares *)
#[local] Instance spares_unpack {T} `{Message T} name (old : T) st : Spares (unpack name old st : M S _).
Proof. unfold unpack. apply _. Qed.
#[local] Instance spares_open id : Spares (open_message id : M S _).
Proof. unfold open_message. apply _. Qed.
#[local] Instance spares_auth h lf : Spares (checkAuth fuel h lf : M S _).
Proof. unfold checkAuth. apply _. Qed.
#[local] Instance spares_recv id : Spares (onRecvMessage fuel no_function id : M S _).
Proof.
  unfold onRecvMessage. apply spares_bind; [apply _|]. intros r. apply spares_if; [|apply _].
  apply spares_bind; [apply _|]. intros [[]|]. apply _.
Qed.
#[local] Instance spares_run a : Spares (runPostAction no_function a : M S _).
Proof. unfold runPostAction, get_action. apply spares_bind; [apply _|]. intros act. destruct (pa_body act) as [[]|r]. apply _. Qed.
#[local] Instance spares_poll n t : Spares (pollMessage fuel no_function n t : M S _).
Proof.
  induction n as [|n IH]; [by intros b s|]. cbn [pollMessage]. apply spares_bind; [apply _|]. intros passive. apply spares_bind; [apply _|].
  intros [[[] c]|]; [|apply _|done]. apply spares_bind; [apply _|]. intros [q|]; apply _.
Qed.
#[local] Instance spares_request {T} `{Message T} t ack (data : T) : Spares (request fuel t ack data : M S _).
Proof. unfold request. apply spares_bind; [apply _|]. intros u. apply spares_bind; [apply _|]. intros [q|]; apply _. Qed.
#[local] Instance spares_finish q : Spares (finish q : M S _).
Proof. unfold finish. apply _. Qed.

(** *** The registration of the buffer *)

(** The flags of registerSegment *)
Definition access (write : bool) : Z := if write then Z.lor fi_REMOTE_READ fi_REMOTE_WRITE else fi_REMOTE_READ.

(** What registerSegment returns: the address the server has to use, and the key
    libfabric gave. *)
Lemma registerSegment_iov p n w (x : Sys X) :
  let r := fi_mr_reg p n (access w) 0 (u64 (s_cnt x)) (s_ext x) in
  wp any (registerSegment p n true w false)
    (fun iov x' => r.1.1 = 0 /\ iov = mkIov (if virtMrMode (s_domain x) then p else 0) (fi_mr_key r.1.2 r.2)) x.
Proof.
  intros r. unfold registerSegment, getMR, assert_, guard_. apply wp_bind. destruct (negb _); [|done]. apply wp_ret, wp_bind. destruct (n >? 0); [|done].
  apply wp_ret, wp_bind, wp_bind, wp_ret, wp_bind, wp_ret, wp_gets, wp_bind. destruct (snd <$> _); [done|]. apply wp_ret. cbv zeta.
  apply wp_bind, wp_gets. rewrite Z.lor_0_l. fold (access w). fold r. apply wp_bind, wp_modify, wp_bind. destruct (r.1.1 =? 0) eqn:E; [|done].
  apply wp_ret, wp_bind, wp_modify, wp_gets. split; [by apply Z.eqb_eq|done].
Qed.

(** A block of the caller changes its registration, and is then one of the blocks [U']
    of the application or not registered. *)
Lemma ok_registration (U U' : Z -> Prop) G s b n r r' (x : Sys X) :
  conn_ok (users := U) cb_holds G [] [] 0 s -> G !! b = Some (n, r) -> b ∉ recvBuffers (cx_conn s) -> b ∉ all_bufs s [] ->
  sys_rep x (<[b := (n, r')]> G) -> sys_kept (cx_sys s) x ->
  (forall p k, <[b := (n, r')]> G !! p = Some (k, true) -> p = b \/ U p -> U' p) ->
  conn_ok (users := U') cb_holds (<[b := (n, r')]> G) [] [] 0 (with_sys x s).
Proof.
  intros Hc Hb Hrb Hab Hr [Km Kz Ke Kt] HU. assert (ep (with_sys x s) = ep s) as Hep by exact Ke.
  assert (flight (with_sys x s) = flight s) as Hf by (unfold flight; by rewrite Hep).
  assert (all_bufs (with_sys x s) [] = all_bufs s []) as Hbufs by (unfold all_bufs; rewrite Hf; simpl; by rewrite Km).
  destruct Hc. constructor; unfold all_recvs in *; rewrite ?Hf, ?Hep; try done.
  - destruct co_pool0 as [_ Hnd Hs Hpos]. constructor; simpl; rewrite ?Km, ?Kz; try done.
    intros p Hp. rewrite lookup_insert_ne; [by apply Hs|]. intros ->. apply Hab. exact Hp.
  - intros a Ha%Kt. rewrite Hbufs. destruct (co_target0 _ Ha) as (p & k & rp & Hp & Hin & Hn). destruct (decide (p = b)) as [->|Hne].
    + rewrite Hb in Hp. injection Hp as <- <-. exists b, n, r'. by rewrite lookup_insert_eq.
    + exists p, k, rp. by rewrite lookup_insert_ne.
  - intros p Hp. rewrite lookup_insert_ne; [by apply co_rbufs0|]. intros ->. done.
  - intros p k Hp. rewrite Hbufs. destruct (decide (p = b)) as [->|Hne]; [left; eapply HU; [exact Hp|by left]|].
    pose proof Hp as Hp'. rewrite lookup_insert_ne in Hp' by done. destruct (co_bufs0 _ _ Hp') as [Hu|Hin]; [|by right].
    left. eapply HU; [exact Hp|by right].
Qed.

(** A block that the caller allocates is reserved. *)
Lemma ok_malloc G s n :
  let r := lc_malloc n (s_ext (cx_sys s)) in
  ok G [] [] 0 s -> cx_actions s = ∅ -> 0 < n -> r.1 <> 0 ->
  let s' := with_ext r.2 s in let G' := <[r.1 := (n, false)]> G in
  ok G' [] [] 0 s' /\ reserved r.1 s' /\ r.1 ∉ recvBuffers (cx_conn s').
Proof.
  intros r Hc Ha Hn Hne s' G'. pose proof (lc_malloc_ok (s_ext (cx_sys s)) n Hn) as Hm. fold r in Hm. rewrite (proj2 (Z.eqb_neq r.1 0) Hne) in Hm.
  destruct Hm as [Hfresh Hlive]. destruct (rep_alloc (cx_sys s) G r.2 r.1 n (po_rep _ _ _ (co_pool _ _ _ _ _ _ Hc)) Hfresh Hlive) as [HG Hr].
  assert (ep s' = ep s) as Hep by apply lc_malloc_ep. assert (flight s' = flight s) as Hf by (unfold flight; by rewrite Hep).
  assert (forall p v, G !! p = Some v -> G' !! p = Some v) as Hsub by (intros p v Hp; unfold G'; rewrite lookup_insert_ne; congruence).
  destruct Hc. split; [|split].
  - constructor; unfold all_recvs in *; rewrite ?Hf, ?Hep; try done.
    + destruct co_pool0 as [_ Hnd Hs Hpos]. constructor; try done. intros p Hp. by apply Hsub, Hs.
    + intros a Ht. apply lc_malloc_target in Ht. destruct (co_target0 _ Ht) as (p & k & rp & Hp & Hin & Hx). exists p, k, rp. split; [by apply Hsub|].
      split; [done|]. unfold all_bufs. by rewrite Hf.
    + intros p Hp. by apply Hsub, co_rbufs0.
    + intros p k. unfold G'. rewrite lookup_insert_Some. intros [[_ [=]]|[_ Hp%co_bufs0]]. unfold all_bufs in *. by rewrite Hf.
  - destruct co_pool0 as [_ Hnd Hs Hpos]. constructor; simpl.
    + rewrite Hlive, lookup_insert_eq. by eexists.
    + done.
    + intros Hin. specialize (Hs r.1). rewrite Hs in HG; [done|]. apply elem_of_app. by left.
    + by rewrite Ha.
  - intros Hin. apply co_rbufs0 in Hin. congruence.
Qed.

Lemma unregisterSegment_kept p n (x : Sys X) : wp any (unregisterSegment p n) (fun _ x' => sys_kept x x') x.
Proof.
  unfold unregisterSegment. apply wp_bind. unfold assert_, assume_, guard_. destruct (negb _); [|done]. apply wp_ret, wp_bind, wp_gets.
  destruct (sm_lower_bound _ _) as [|[k r] l]; [done|]. apply wp_bind. destruct (_ && _); [|done]. apply wp_ret, wp_bind, wp_modify, wp_modify.
  constructor; simpl; try done; [apply fi_close_ep|]. intros a. apply fi_close_target.
Qed.

Lemma reserved_bufs b s : reserved b s -> b ∉ all_bufs s [].
Proof.
  intros [_ _ Hpool Hacts]. unfold all_bufs. rewrite elem_of_app. intros [?|Hb]; [done|].
  unfold bufs in Hb. apply list_elem_of_bind in Hb as (a & Hb & _). unfold buffer_of in Hb. destruct (cx_actions s !! a) as [act|] eqn:Ea; [|by apply elem_of_nil in Hb].
  destruct (_ =? 0); [by apply elem_of_nil in Hb|]. apply list_elem_of_singleton in Hb. by eapply Hacts.
Qed.

(** The blocks of the application while the caller's block [b] is registered. *)
Definition with_user (b : Z) : Users := fun p => p = b \/ user_block p.

Lemma wp_client_register G s b n w :
  ok G [] [] 0 s -> G !! b = Some (n, false) -> b ∉ recvBuffers (cx_conn s) -> reserved b s ->
  let r := fi_mr_reg b n (access w) 0 (u64 (s_cnt (cx_sys s))) (s_ext (cx_sys s)) in
  wp resource (on_sys (registerSegment b n true w false))
    (fun iov s1 => exists x, s1 = with_sys x s /\ sys_kept (cx_sys s) x /\ conn_ok (users := with_user b) cb_holds (<[b := (n, true)]> G) [] [] 0 s1 /\ reserved b s1 /\
       r.1.1 = 0 /\ iov = mkIov (if virtMrMode (s_domain (cx_sys s)) then b else 0) (fi_mr_key r.1.2 r.2)) s.
Proof.
  intros Hc Hb Hrb Hrs r. pose proof (po_rep _ _ _ (co_pool _ _ _ _ _ _ Hc)) as Hr. apply wp_conn_sys.
  eapply wp_mono; [eapply wp_also; [eapply wp_also; [by apply (wp_registerSegment _ G)|apply registerSegment_kept]|apply registerSegment_iov]|].
  intros iov x [[(Hr' & _) [Hk Hl]] Hiov]. exists x. split; [done|]. split; [done|]. split; [|split; [|done]].
  - eapply (ok_registration users); try done. by apply reserved_bufs.
  - destruct Hrs, Hk. constructor; simpl; [by rewrite Hl|by rewrite sk_size0|by rewrite sk_msgs0|done].
Qed.

Lemma wp_client_unregister G s b n :
  conn_ok (users := with_user b) cb_holds G [] [] 0 s -> G !! b = Some (n, true) -> b ∉ recvBuffers (cx_conn s) -> reserved b s ->
  wp never (on_sys (unregisterSegment b n))
    (fun _ s' => exists x, s' = with_sys x s /\ sys_kept (cx_sys s) x /\ ok (<[b := (n, false)]> G) [] [] 0 s') s.
Proof.
  intros Hc Hb Hrb Hrs. pose proof (po_rep _ _ _ (co_pool _ _ _ _ _ _ Hc)) as Hr. apply wp_conn_sys.
  eapply wp_mono; [eapply wp_also; [by apply (wp_unregisterSegment _ G)|apply unregisterSegment_kept]|].
  intros u x [(Hr' & _) Hk]. exists x. split; [done|]. split; [done|]. eapply (ok_registration (with_user b)); try done; [by apply reserved_bufs|].
  intros p k. rewrite lookup_insert_Some. intros [[_ [=]]|[Hne _]] [->|[->|Hu]]; done.
Qed.

(** *** Large transfers *)

(** The request of a call whose data does not go in the messages: the address that
    the server has to use and the key of the region. *)
Definition rdma_request (write : bool) (objectId : LibfabricObjectId) (buffer size offset : Z) s : LibfabricObjReadWriteInfos :=
  let r := fi_mr_reg buffer size (access (negb write)) 0 (u64 (s_cnt (cx_sys s))) (s_ext (cx_sys s)) in
  mkReadWrite objectId (mkIov (if virtMrMode (s_domain (cx_sys s)) then buffer else 0) (fi_mr_key r.1.2 r.2)) offset size false 0.

Definition rdma_wire (write : bool) (objectId : LibfabricObjectId) (buffer size offset : Z) s : list byte :=
  m_bytes (cx_mem s) (fillProtocolHeader (msg_code (if write then IOC_LF_MSG_OBJ_WRITE else IOC_LF_MSG_OBJ_READ)) (cx_conn s)) ++
  m_bytes (cx_mem s) (rdma_request write objectId buffer size offset s).

Definition large_call (write : bool) (objectId : LibfabricObjectId) (buffer size offset : Z) : M S Z :=
  if write then obj_write fuel objectId buffer size offset else obj_read fuel objectId buffer size offset.

(** What the exchange of a call leaves, without the registration of its buffer. *)
Definition exchanged G (buffer size addr : Z) (bytes : list byte) s (status : Z) s' : Prop :=
  ep_sent (ep s') = ep_sent (ep s) ++ [(addr, bytes)] /\ (exists G', G ⊆ G' /\ ok G' [] [] 0 s') /\
  recvBuffers (cx_conn s') = recvBuffers (cx_conn s) /\
  exists p m h, first_message s s' p /\ (forall a, ~ (buffer <= a < buffer + size) -> cx_mem s' a = m a) /\
    rd m p HEADER_SIZE = m_bytes m h /\ hdr_msgType h = msg_code IOC_LF_MSG_OBJ_READ_WRITE_ACK /\
    forall resp, answer_at m p (recvBuffersSize (cx_conn s)) resp -> status = rsp_status resp.

Definition exchange (write : bool) (data : LibfabricObjReadWriteInfos) (buffer size : Z) : M S Z :=
  if write then let! r := request fuel IOC_LF_MSG_OBJ_WRITE IOC_LF_MSG_OBJ_READ_WRITE_ACK data in finish r
  else read_exchange fuel data buffer size.

Lemma wp_exchange (write : bool) G s data buffer size addr :
  let bytes := m_bytes (cx_mem s) (fillProtocolHeader (msg_code (if write then IOC_LF_MSG_OBJ_WRITE else IOC_LF_MSG_OBJ_READ)) (cx_conn s)) ++ m_bytes (cx_mem s) data in
  ok G [] [] 0 s -> patient fuel s -> ready cb_holds s -> checkClientAuth (cx_conn s) = false ->
  sm_find IOC_LF_SERVER_ID (remoteLiAddr (cx_conn s)) = Some addr -> m_wf data -> rw_msgHasData data = false -> 0 <= size ->
  blen bytes <= msgBufferSize (s_domain (cx_sys s)) -> blen bytes <= recvBuffersSize (cx_conn s) -> reserved buffer s ->
  wp pending (exchange write data buffer size) (fun status s' => exchanged G buffer size addr bytes s status s' /\ reserved buffer s') s.
Proof.
  intros bytes Hc Hp Hr Hau Hd Hw Hdat Hsz Hl1 Hl2 Hrs. destruct write; (eapply wp_also; [|by apply spares]).
  - eapply wp_mono; [apply (wp_call fuel G s IOC_LF_MSG_OBJ_WRITE IOC_LF_MSG_OBJ_READ_WRITE_ACK data addr); try done; simpl; rewrite Hdat; constructor|].
    fold bytes. clearbody bytes. intros status s' (Hsent & _ & Hok & Ecn & p & h & Hpin & Hhd & Hty & Hst). split; [done|]. split; [done|]. split; [by rewrite Ecn|]. by exists p, (cx_mem s'), h.
  - eapply wp_mono; [by apply (wp_read_exchange fuel G s data buffer size addr)|].
    fold bytes. clearbody bytes. intros status s' (Hsent & Hok & Erb & p & m & h & Hpin & Hout & Hhd & Hty & Hst). split; [done|]. split; [done|]. split; [done|]. exists p, m, h.
    split_and!; try done. intros resp Ha. by apply Hst.
Qed.

End calls.

(** ** Large transfers *)
Section large.
Context {X Hook A : Type} `{Libc X} `{!LibcOk X} `{Libfabric X} `{!LibfabricOk X} `{Fabric X} `{!FabricOk X} {users : Users} `{StringStorage}.
Abbreviation S := (Cx X (option Hook) Empty_set A).
Implicit Types (s : S) (G : heap).
Variable fuel : nat.
Abbreviation ok := (conn_ok cb_holds).

(** The registration around the exchange. *)
Lemma large_call_run (write : bool) objectId buffer size offset s :
  (if write then IOC_EAGER_MAX_WRITE else IOC_EAGER_MAX_READ) < size ->
  large_call fuel write objectId buffer size offset s =
  (let! iov := on_sys (registerSegment buffer size true (negb write) false) in
   let! status := exchange fuel write (mkReadWrite objectId iov offset size false 0) buffer size in
   on_sys (unregisterSegment buffer size) ;;
   ret status) s.
Proof.
  intros Hsz. destruct write; cbn [large_call exchange negb].
  - unfold obj_write. replace (size >? IOC_EAGER_MAX_WRITE) with true by lia. replace (size <=? IOC_EAGER_MAX_WRITE) with false by lia.
    unfold bind. destruct (on_sys _ s) as [[iov s1]|]; [|done]. by destruct (request _ _ _ _ s1) as [[q s2]|].
  - rewrite obj_read_exchange. by replace (size >? IOC_EAGER_MAX_READ) with true by lia.
Qed.

Lemma rdma_wire_size write objectId buffer size offset s : blen (rdma_wire write objectId buffer size offset s) = 81.
Proof. unfold rdma_wire. rewrite length_app, Nat2Z.inj_add, header_size. simpl. rewrite !length_app, !le_split_length. done. Qed.

End large.
End ClientRdma.
