(* ===== verification/ClientSession.v ===== *)
(** * A session of the client

    Model of src/src/client/ioc-client.cpp for a program of one thread: the domain
    it opens, the connection that its first call creates and joins to the server,
    and the calls, each of which takes the connection, runs its action ([Client])
    and gives the connection back.  The threads that share several connections are
    in [ClientPool]. *)

From Stdlib Require Import String.
From S2P Require Import Prelude StdMap Memory Serializer Protocol System Fabric LibfabricDomain ClientRegistry Connection Dispatch ConnectionInv ConnectionSend ConnectionOpen ConnectionPoll ConnectionLoop ConnectionJoin Client.

Module ClientSession.
Import Serializer Protocol LibfabricDomain ClientRegistry Connection Dispatch ConnectionInv ConnectionSend ConnectionOpen ConnectionPoll ConnectionLoop ConnectionJoin Client.

Definition IOC_CLIENT_MAX_CONN : Z := 8.

(** struct ioc_client_s: the pair that the TCP server gave (clientConnInfo), the
    permits left, whether the vector of connections has its connection, and
    passive_wait; the domain and the connection are those of the process. *)
Record ioc_client_s : Type := mkIocClient {
  ic_clientId : Z;
  ic_key : Z;
  connections_semaphore : Z;
  has_connection : bool;
  passive_wait : bool;
}.
Definition set_semaphore (n : Z) (c : ioc_client_s) : ioc_client_s := mkIocClient (ic_clientId c) (ic_key c) n (has_connection c) (passive_wait c).
Definition set_connection (b : bool) (c : ioc_client_s) : ioc_client_s := mkIocClient (ic_clientId c) (ic_key c) (connections_semaphore c) b (passive_wait c).

Section api.
Context {X : Type} `{Libc X} `{Libfabric X} `{Fabric X} `{StringStorage}.
Abbreviation S := (Cx X (option Empty_set) Empty_set ioc_client_s).
(** The turns of the loops, those of the wait for the answer of the server, the
    name of the server (dest_addr of the fi_info) *)
Variables (fuel turns : nat) (dest_addr : list byte).

(** A client registers no handler but that of joinServer. *)
Definition no_hook (h : Empty_set) (_ : LibfabricClientRequest) : M S LibfabricActionResult := match h with end.
Definition no_connect (f : Empty_set) (_ : Z) : M S unit := match f with end.

Definition client (f : ioc_client_s -> ioc_client_s) : M S unit :=
  modify (fun s => mkCx (cx_sys s) (cx_mem s) (cx_actions s) (cx_nextAction s) (cx_conn s) (f (cx_app s))).

(** ioc_client_init, after the answer of the TCP server ([Tcp.getConnectionInfos]) *)
Definition ioc_client_init (prov_name : string) (clientId key : Z) : M S unit :=
  client (fun _ => mkIocClient clientId key 0 false true) ;;
  on_sys (modify (set_domain (fun _ => new_domain prov_name))) ;;
  on_sys (setMsgBufferSize IOC_POST_RECEIVE_WRITE) ;;
  client (fun c => mkIocClient (ic_clientId c) (ic_key c) (connections_semaphore c) (has_connection c) true) ;;
  client (set_semaphore IOC_CLIENT_MAX_CONN).

(** The end of ioc_client_get_connection: a new connection *)
Definition open_connection : M S unit :=
  let recvSize := if IOC_POST_RECEIVE_READ <? 4096 then 4096 else IOC_POST_RECEIVE_READ in
  let! c := gets cx_app in
  modify (with_conn (fun _ => new_Connection (passive_wait c))) ;;
  modify (with_conn (setTcpClientInfos (ic_clientId c) (ic_key c))) ;;
  postReceives recvSize 2 ;;
  joinServer fuel no_hook no_function no_connect turns dest_addr ;;
  modify (with_conn (setUsed true)) ;;
  client (set_connection true).

(** ioc_client_get_connection: a thread that finds no permit waits.  The process
    has one endpoint: a second connection, that only a second thread asks for, is
    outside this model ([FNullPointer]). *)
Definition ioc_client_get_connection : M S unit :=
  let! c := gets cx_app in
  guard_ FFuel (connections_semaphore c >? 0) ;;
  client (set_semaphore (connections_semaphore c - 1)) ;;
  let! u := conn used in
  if has_connection c then
    if u then abort FNullPointer else modify (with_conn (setUsed true))
  else open_connection.

(** ioc_client_ret_connection *)
Definition ioc_client_ret_connection : M S unit :=
  modify (with_conn (setUsed false)) ;;
  client (fun c => set_semaphore (connections_semaphore c + 1) c).

Definition with_connection {B} (m : M S B) : M S B :=
  ioc_client_get_connection ;;
  let! r := m in
  ioc_client_ret_connection ;;
  ret r.

(** The functions of the library *)
Definition ioc_client_obj_read (high low buffer size offset : Z) : M S Z :=
  with_connection (obj_read fuel (mkObjectId low high) buffer size offset).
Definition ioc_client_obj_write (high low buffer size offset : Z) : M S Z :=
  with_connection (obj_write fuel (mkObjectId low high) buffer size offset).
Definition ioc_client_ping_pong (cnt : nat) (eagerSize rdmaSize : Z) : M S unit :=
  with_connection (ping_pong fuel cnt eagerSize rdmaSize).
Definition ioc_client_obj_flush (high low offset size : Z) : M S Z :=
  with_connection (obj_flush fuel (mkObjectId low high) offset size).
Definition ioc_client_obj_create (high low : Z) : M S Z :=
  with_connection (obj_create fuel (mkObjectId low high)).
Definition ioc_client_set_passive_wait (value : bool) : M S unit :=
  client (fun c => mkIocClient (ic_clientId c) (ic_key c) (connections_semaphore c) (has_connection c) value).
Definition ioc_client_obj_range_register (high low offset size : Z) (write : bool) : M S Z :=
  with_connection (obj_range_register fuel (mkObjectId low high) offset size write).
Definition ioc_client_obj_range_unregister (id high low offset size : Z) (write : bool) : M S Z :=
  with_connection (obj_range_unregister fuel id (mkObjectId low high) offset size write).
Definition ioc_client_obj_cow (orig_high orig_low dest_high dest_low : Z) (allow_exist : bool) (offset size : Z) : M S Z :=
  with_connection (obj_cow fuel (mkObjectId orig_low orig_high) (mkObjectId dest_low dest_high) allow_exist offset size).

(** The calls that only have a status: the sessions of the theorems are made of
    them.  Reads and writes are in [Client] and [ClientRdma], ping_pong in [PingPong]. *)
Inductive call : Type :=
| CFlush (high low offset size : Z)
| CCreate (high low : Z)
| CCow (orig_high orig_low dest_high dest_low : Z) (allow_exist : bool) (offset size : Z)
| CRegister (high low offset size : Z) (write : bool)
| CUnregister (id high low offset size : Z) (write : bool).

Definition run_call (c : call) : M S Z :=
  match c with
  | CFlush high low offset size => ioc_client_obj_flush high low offset size
  | CCreate high low => ioc_client_obj_create high low
  | CCow orig_high orig_low dest_high dest_low allow_exist offset size =>
      ioc_client_obj_cow orig_high orig_low dest_high dest_low allow_exist offset size
  | CRegister high low offset size write => ioc_client_obj_range_register high low offset size write
  | CUnregister id high low offset size write => ioc_client_obj_range_unregister id high low offset size write
  end.
Definition action_of (c : call) : Client.action :=
  match c with
  | CFlush high low offset size => AFlush (mkObjectId low high) offset size
  | CCreate high low => ACreate (mkObjectId low high)
  | CCow oh ol dh dl allow offset size => ACow (mkObjectId ol oh) (mkObjectId dl dh) allow offset size
  | CRegister high low offset size write => ARegister (mkObjectId low high) offset size write
  | CUnregister id high low offset size write => AUnregister id (mkObjectId low high) offset size write
  end.

(** A program that makes calls one after the other. *)
Fixpoint run_calls (l : list call) : M S (list Z) :=
  match l with
  | [] => ret []
  | c :: l =>
      let! status := run_call c in
      let! rest := run_calls l in
      ret (status :: rest)
  end.
End api.

Section sessions.
Context {X : Type} `{Libc X} `{!LibcOk X} `{Libfabric X} `{!LibfabricOk X} `{Fabric X} `{!FabricOk X} {users : Users} `{StringStorage}.
Abbreviation S := (Cx X (option Empty_set) Empty_set ioc_client_s).
Implicit Types (s : S) (G : heap).
Variables (fuel turns : nat) (dest_addr : list byte).
Abbreviation ok := (conn_ok cb_holds).

(** Enough turns for [n] more messages, with two receive buffers. *)
Definition patient_for (n : Z) s : Prop :=
  pendingAction (cx_conn s) + n + 2 < Z.of_nat fuel /\ (ep_refusals (ep s) < fuel)%nat /\ length (recvBuffers (cx_conn s)) = 2%nat.

Lemma patient_now G held busy n s : ok G held busy 0 s -> patient_for n s -> 0 <= n -> patient fuel s.
Proof. intros Hc (Hp & Hr & Hl) Hn. pose proof (busy_bound _ _ _ _ _ _ Hc) as Hb. rewrite Hl in Hb. split; lia. Qed.

Lemma patient_for_after n k s s' :
  patient_for n s -> calmer s s' -> Z.of_nat (length (ep_sent (ep s'))) <= Z.of_nat (length (ep_sent (ep s))) + k ->
  length (recvBuffers (cx_conn s')) = length (recvBuffers (cx_conn s)) -> patient_for (n - k) s'.
Proof. intros (Hp & Hr & Hl) [] Hk Hb. unfold load in *. split; [lia|]. split; [lia|]. by rewrite Hb. Qed.

(** The actions of a client wake no loop up. *)
Definition keeping s : Prop := forall a act, cx_actions s !! a = Some act -> pa_body act = Nop LF_WAIT_LOOP_KEEP_WAITING.
Lemma keeping_after s s' : keeping s -> calmer s s' -> keeping s'.
Proof. intros Hk Hc a act Ha. destruct (ca_bodies _ _ Hc a act Ha) as [?|(act0 & H0' & ->)]; eauto. Qed.

(** *** The wait of joinServer *)

(** Messages without data do not depend on the memory. *)
Definition nowhere : mem := fun _ => x00.

(** The message that gives a number to a process that takes the client for a server:
    it has the header of the connection. *)
Definition welcome (id tcp key number : Z) : list byte :=
  m_bytes nowhere (mkHeader (msg_code IOC_LF_MSG_ASSIGN_ID) id tcp key) ++
  m_bytes nowhere (mkHandshake IOC_LF_PROTOCOL_VERSION number).

(** The messages [l] sent during the wait: the i-th gives the number i. *)
Definition welcomes (id tcp key : Z) (l : list (Z * list byte)) : Prop :=
  forall i m, l !! i = Some m -> m.2 = welcome id tcp key (u64 (Z.of_nat i)).

(** The address under the number of the server: [addr0], until a process that takes
    the client for a server gets this number, 0, which it is the first to get. *)
Definition server_at (addr0 : Z) (l : list (Z * list byte)) : Z := match l with [] => addr0 | m :: _ => m.1 end.

(** The peers of a connection that had [addr0] for the server and was named by [l],
    of at most 2^32 messages: then the numbers wrap around. *)
Definition peers (addr0 : Z) (l : list (Z * list byte)) (remote : stdmap Z Z) : Prop :=
  exists addr, sm_find IOC_LF_SERVER_ID remote = Some addr /\ (Z.of_nat (length l) <= 4294967296 -> addr = server_at addr0 l).

(** The state of the loop since [s0], where the request was sent to [addr0]: the
    connection only has more peers, each of which was answered. *)
Record joining addr0 s0 (n : nat) (k : Z) s : Prop := {
  jo_app : cx_app s = cx_app s0;
  jo_conn : exists remote l, peers addr0 l remote /\
    cx_conn s = set_queue (cqEntries (cx_conn s)) (pendingAction (cx_conn s)) (set_remote remote (u64 (Z.of_nat (length l))) (cx_conn s0)) /\
    ep_sent (ep s) = ep_sent (ep s0) ++ l /\
    welcomes (clientId (cx_conn s0)) (tcpClientId (cx_conn s0)) (tcpClientKey (cx_conn s0)) l;
  jo_patient : patient_for (Z.of_nat n + k) s;
  jo_size : msgBufferSize (s_domain (cx_sys s)) = msgBufferSize (s_domain (cx_sys s0));
  jo_keep : keeping s;
  jo_takes : exists handled, takes handled s0 s;
}.

(** The last completion handled between the two states is that of a message of the
    type [t] in the buffer [p]. *)
Definition last_message s0 s (t : LibfabricMessageType) (p : Z) : Prop :=
  exists id handled h, recvBuffers (cx_conn s0) !! Z.to_nat id = Some p /\ takes (handled ++ [mkEntry true id]) s0 s /\
    rd (cx_mem s) p HEADER_SIZE = m_bytes (cx_mem s) h /\ hdr_msgType h = msg_code t.

(** What joinServer leaves: the number of the answer [w], the last message that
    came; [l] are the answers to the processes that took the client for a server. *)
Record joined addr0 s0 (k : Z) G (l : list (Z * list byte)) s : Prop := {
  jd_ok : ok G [] [] 0 s;
  jd_app : cx_app s = cx_app s0;
  jd_sent : ep_sent (ep s) = ep_sent (ep s0) ++ l;
  jd_patient : patient_for k s;
  jd_size : msgBufferSize (s_domain (cx_sys s)) = msgBufferSize (s_domain (cx_sys s0));
  jd_answer : exists (w : LibfabricFirstHandshake) p remote next, peers addr0 l remote /\
    welcomes (clientId (cx_conn s0)) (tcpClientId (cx_conn s0)) (tcpClientKey (cx_conn s0)) l /\ last_message s0 s IOC_LF_MSG_ASSIGN_ID p /\
    message_at (cx_mem s) p (recvBuffersSize (cx_conn s0)) w /\ hs_protocolVersion w = IOC_LF_PROTOCOL_VERSION /\
    cx_conn s = set_queue (cqEntries (cx_conn s)) (pendingAction (cx_conn s))
      (set_clientId (hs_assignLfClientId w) (set_remote remote next (cx_conn s0)));
}.

(** A connection that waits for its number. *)
Record waiting s0 : Prop := {
  wt_ready : ready cb_holds s0;
  wt_hooks : hooks (cx_conn s0) = {[ msg_code IOC_LF_MSG_ASSIGN_ID := None ]};
  wt_flags : checkClientAuth (cx_conn s0) = false /\ disableReceive (cx_conn s0) = false;
}.

Lemma joining_ready addr0 s0 n k s : waiting s0 -> joining addr0 s0 n k s -> ready cb_holds s.
Proof.
  intros [[] _ _] [_ (remote & l & _ & Hcn & _) _ Hsz _ _]. constructor; [by rewrite Hcn|by rewrite Hcn|by rewrite Hcn|by rewrite Hsz|by rewrite Hcn|by rewrite Hcn].
Qed.

(** A completed operation of a client. *)
#[local] Instance settles_callback f : Settles (A := ioc_client_s) (no_function (X := X) (Hook := Empty_set) f).
Proof. destruct f. Qed.
#[local] Instance settles_run a : Settles (A := ioc_client_s) (runPostAction (Hook := Empty_set) no_function a).
Proof. unfold runPostAction, get_action. apply settles_bind; [apply _|]. intros act. destruct (pa_body act) as [[]|r]. apply _. Qed.
#[local] Instance settles_finish a : Settles (A := ioc_client_s) (finish_action (Hook := Empty_set) no_function a).
Proof. unfold finish_action. apply _. Qed.

Lemma wp_finish_action G a s :
  ok G (owed cb_holds (cx_actions s) [a]) [a] 1 s -> keeping s ->
  wp never (finish_action no_function a)
    (fun r s' => r = LF_WAIT_LOOP_KEEP_WAITING /\ ok G [] [] 0 s' /\ cx_app s' = cx_app s /\ ep s' = ep s /\
       cx_conn s' = set_queue (cqEntries (cx_conn s)) (pendingAction (cx_conn s) - 1) (cx_conn s)) s.
Proof.
  intros Hc Hk. destruct (co_live _ _ _ _ _ _ Hc a) as [act Ha]; [apply elem_of_app; right; by left|].
  rewrite (owed_action _ _ _ _ Ha) in Hc. unfold finish_action, runPostAction, get_action.
  apply wp_bind, wp_bind, wp_bind, wp_gets, (wp_of_option _ _ _ act); [done|]. rewrite (Hk _ _ Ha) in *. apply wp_ret, wp_bind.
  eapply wp_mono; [by apply wp_delete_action|]. intros _ s1 (Hc1 & (Hcn & Hap & _ & Hep) & _). apply counted_down in Hc1. simpl in Hc1.
  apply wp_bind, wp_modify, wp_bind, wp_gets, wp_bind, wp_guard.
  - pose proof (co_pending _ _ _ _ _ _ Hc1) as Hp. rewrite Hp. lia.
  - apply wp_ret. split; [done|]. split; [done|]. split; [done|]. split; [done|]. simpl. by rewrite Hcn.
Qed.

(** The steps of a turn that do not send. *)
Lemma joining_step addr0 s0 n k s s' :
  joining addr0 s0 (Datatypes.S n) k s -> calmer s s' -> cx_app s' = cx_app s -> ep_sent (ep s') = ep_sent (ep s) ->
  cx_conn s' = set_queue (cqEntries (cx_conn s')) (pendingAction (cx_conn s')) (cx_conn s) ->
  (exists handled, takes handled s s') -> joining addr0 s0 (Datatypes.S n) k s'.
Proof.
  intros [Ha (remote & l & Hpe & Hcn & Hl & Hwe) Hp Hsz Hkp [h0 Ht0]] Hca Hap Hsn Hcn' [h1 Ht1].
  constructor; [congruence| | |by rewrite (ca_size _ _ Hca)|by eapply keeping_after|exists (h0 ++ h1); by eapply takes_trans].
  - exists remote, l. split; [done|]. split; [rewrite Hcn', Hcn; by destruct (cx_conn s0)|]. by rewrite Hsn.
  - replace (Z.of_nat (Datatypes.S n) + k) with (Z.of_nat (Datatypes.S n) + k - 0) by lia.
    apply (patient_for_after _ 0 s); [done|done|rewrite Hsn; lia|by rewrite Hcn'].
Qed.
Lemma joining_less addr0 s0 n k s : joining addr0 s0 (Datatypes.S n) k s -> joining addr0 s0 n k s.
Proof. intros [Ha Hc (Hp & Hr & Hl) Hs Hk Ht]. constructor; try done. split; [lia|done]. Qed.

(** A process that takes the client for a server. *)
Lemma peers_more addr0 l remote addr bytes :
  peers addr0 l remote -> peers addr0 (l ++ [(addr, bytes)]) (sm_insert (i32 (u64 (Z.of_nat (length l)))) addr remote).
Proof.
  intros (a & Hf & Ha). unfold peers. rewrite length_app. simpl.
  destruct (decide (i32 (u64 (Z.of_nat (length l))) = IOC_LF_SERVER_ID)) as [E|Hne].
  - rewrite E. exists addr. rewrite sm_find_insert_eq. split; [done|]. intros Hlen.
    rewrite u64_small in E by (rewrite two64_eq; lia). destruct l as [|m l]; [done|]. simpl length in *.
    unfold i32, swrap, IOC_LF_SERVER_ID in E. change (2 ^ (32 - 1)) with 2147483648 in E. change (2 ^ 32) with 4294967296 in E.
    assert ((Z.of_nat (Datatypes.S (length l)) + 2147483648) mod 4294967296 = 2147483648) as Hm by lia.
    destruct (decide (Z.of_nat (Datatypes.S (length l)) + 2147483648 < 4294967296)); [rewrite Z.mod_small in Hm; lia|].
    rewrite <- (Z_mod_plus_full _ (-1)), Z.mod_small in Hm; lia.
  - exists a. rewrite sm_find_insert_ne by done. split; [done|]. intros Hlen. rewrite Ha by lia. by destruct l.
Qed.

Lemma welcomes_more id tcp key l addr :
  welcomes id tcp key l -> welcomes id tcp key (l ++ [(addr, welcome id tcp key (u64 (Z.of_nat (length l))))]).
Proof.
  intros Hl i m [Hi|[Hi Hm]]%lookup_app_Some; [by apply Hl|].
  apply list_lookup_singleton_Some in Hm as [E <-]. simpl. do 2 f_equal. lia.
Qed.

Lemma joining_admits addr0 s0 n k s addr s' : joining addr0 s0 (Datatypes.S n) k s -> admitted s addr s' -> joining addr0 s0 n k s'.
Proof.
  intros [Ha (remote & l & Hpe & Hcn & Hl & Hwe) Hp Hsz Hkp [h0 Ht0]] [Hsn Hpd Hcn' Hap Hca Ht].
  constructor; [congruence| | |by rewrite (ca_size _ _ Hca)|by eapply keeping_after|exists (h0 ++ []); by eapply takes_trans].
  - set (next := u64 (Z.of_nat (length l))) in *.
    assert (nextEndpointId (cx_conn s) = next /\ remoteLiAddr (cx_conn s) = remote) as [En Er] by (by rewrite Hcn). rewrite En, Er in Hcn'.
    exists (sm_insert (i32 next) addr remote), (l ++ [(addr, assign_id s (nextEndpointId (cx_conn s)))]). split; [by apply peers_more|]. split; [|split].
    + rewrite Hcn', Hcn, length_app. simpl. replace (next +u 1) with (u64 (Z.of_nat (length l + 1))); [by destruct (cx_conn s0)|].
      unfold next, u64. rewrite Zplus_mod_idemp_l. f_equal. lia.
    + by rewrite Hsn, Hl, <- app_assoc.
    + rewrite En. replace (assign_id s next) with (welcome (clientId (cx_conn s0)) (tcpClientId (cx_conn s0)) (tcpClientKey (cx_conn s0)) next); [by apply welcomes_more|].
      unfold welcome, assign_id, fillProtocolHeader. by rewrite Hcn.
  - replace (Z.of_nat n + k) with (Z.of_nat (Datatypes.S n) + k - 1) by lia.
    apply (patient_for_after _ 1 s); [done|done|rewrite Hsn, length_app; simpl; lia|by rewrite Hcn'].
Qed.

(** The number has come. *)
Lemma joining_ends addr0 s0 n k G s s' p (w : LibfabricFirstHandshake) :
  joining addr0 s0 (Datatypes.S n) k s -> 0 <= k -> ok G [] [] 0 s' -> cx_app s' = cx_app s -> cx_mem s' = cx_mem s -> calmer s s' ->
  ep_sent (ep s') = ep_sent (ep s) -> cx_conn s' = set_clientId (hs_assignLfClientId w) (cx_conn s) ->
  hs_protocolVersion w = IOC_LF_PROTOCOL_VERSION -> last_message s0 s' IOC_LF_MSG_ASSIGN_ID p ->
  message_at (cx_mem s) p (recvBuffersSize (cx_conn s)) w -> exists l, joined addr0 s0 k G l s'.
Proof.
  intros [Ha (remote & l & Hpe & Hcn & Hl & Hwe) Hp Hsz Hkp _] Hk Hc Hap Hm Hca Hsn Hcn' Hv Hin Hat.
  assert (recvBuffersSize (cx_conn s) = recvBuffersSize (cx_conn s0)) as Ers by (by rewrite Hcn).
  exists l. constructor; try done; [congruence|by rewrite Hsn| |by rewrite (ca_size _ _ Hca)|].
  - assert (patient_for (Z.of_nat (Datatypes.S n) + k - 0) s') as (Hp1 & Hp2 & Hp3).
    { apply (patient_for_after _ 0 s); [done|done|rewrite Hsn; lia|by rewrite Hcn']. }
    split; [lia|done].
  - exists w, p, remote, (u64 (Z.of_nat (length l))). split; [done|]. split; [done|]. rewrite <- Ers, Hm. split; [done|]. split; [done|]. split; [done|].
    rewrite Hcn', Hcn. by destruct (cx_conn s0).
Qed.

(** A message that comes during the wait. *)
Lemma wp_join_message addr0 s0 n k G s id :
  waiting s0 -> 0 <= k -> ok G [id] [] 0 s -> joining addr0 s0 (Datatypes.S n) k s -> (exists handled, takes (handled ++ [mkEntry true id]) s0 s) ->
  wp pending (onRecv fuel no_hook no_function no_connect id)
    (fun r s' => exists G', G ⊆ G' /\ if unblocks r then exists l, joined addr0 s0 k G' l s' else ok G' [] [] 0 s' /\ joining addr0 s0 n k s') s.
Proof.
  intros Hw Hk Hc Hj [handled Hta]. pose proof (joining_ready _ _ _ _ _ Hw Hj) as Hr. pose proof (re_recv _ _ Hr) as Hsz.
  destruct (open_message_run cb_holds _ _ _ _ _ _ Hc (held_in _ _ _ _)) as (p & h & st & Hopen & Hrd & Hp & _ & Hhd); [unfold HEADER_SIZE; lia|].
  assert (hooks (cx_conn s) = hooks (cx_conn s0) /\ checkClientAuth (cx_conn s) = checkClientAuth (cx_conn s0) /\ is_u64 (nextEndpointId (cx_conn s)))
    as (Ehk & Eau & Hu) by (destruct (jo_conn _ _ _ _ _ Hj) as (? & l & _ & -> & _); split; [done|]; split; [done|]; apply u64_range).
  assert (hooks (cx_conn s) !! hdr_msgType h = if hdr_msgType h =? msg_code IOC_LF_MSG_ASSIGN_ID then Some None else None) as Hh.
  { rewrite Ehk, (wt_hooks _ Hw). destruct (hdr_msgType h =? _) eqn:E; [apply Z.eqb_eq in E as ->; by rewrite lookup_singleton_eq|].
    apply lookup_singleton_ne. lia. }
  set (request := mkClientRequest (hdr_lfClientId h) id h st). unfold onRecv. eapply wp_bind, wp_of_Ok; [exact Hopen|]. cbn [fst snd]. fold request.
  destruct (hdr_msgType h =? msg_code IOC_LF_MSG_CONNECT_INIT) eqn:E1.
  { apply Z.eqb_eq in E1. apply wp_bind. eapply wp_weaken; [intros f Hf; left; exact Hf|]. eapply wp_mono.
    - apply (connection_admits cb_holds fuel no_connect G [] request p s Hc); try done; [|by destruct (hookOnEndpointConnect (cx_conn s)) as [[]|]].
      eapply patient_now; [exact Hc|exact (jo_patient _ _ _ _ _ Hj)|lia].
    - intros _ s' (name & _ & Had & G' & HG & Hc'). apply wp_ret. exists G'. split; [done|]. split; [done|]. by eapply joining_admits. }
  destruct (hdr_msgType h =? msg_code IOC_LF_MSG_BAD_AUTH).
  { apply wp_bind, wp_gets. destruct (hookOnBadAuth (cx_conn s)) as [[]|]. by left; right; left. }
  destruct (hdr_msgType h =? msg_code IOC_LF_MSG_FATAL_ERROR) eqn:E3.
  { apply wp_bind, wp_gets. rewrite Hh. apply Z.eqb_eq in E3. rewrite E3. apply wp_bind. eapply wp_mono; [|intros ? ? _; by left; right; left].
    eapply wp_weaken; [intros f Hf; left; right; exact Hf|]. apply error_message_stops. by destruct Hrd as (? & _ & _ & _ & _ & ?). }
  eapply wp_bind, wp_of_Ok; [apply checkAuth_accepts; unfold refused; by rewrite Eau, (proj1 (wt_flags _ Hw))|]. cbn [negb].
  apply wp_bind, wp_gets. rewrite Hh. destruct (hdr_msgType h =? _) eqn:E4; [|by left; right; left]. apply Z.eqb_eq in E4. unfold run_hook.
  eapply wp_weaken; [intros f Hf; left; exact Hf|]. eapply wp_mono; [by apply (wp_assigned cb_holds G [] request p s)|].
  intros r s' (-> & Hc' & Hap & Hm & Hca & Hsn & Ht & w & Hcn & Hv & Hat). exists G. split; [done|]. simpl.
  eapply joining_ends; try done. exists id, handled, h. rewrite Hm. split; [|split; [|done]].
  - destruct (jo_conn _ _ _ _ _ Hj) as (? & ? & _ & E & _). by rewrite E in Hp.
  - rewrite <- (app_nil_r (handled ++ _)). by eapply takes_trans.
Qed.

(** One turn of the loop: the number has come, or the wait goes on. *)
Lemma wp_join_turn addr0 s0 n k G s :
  waiting s0 -> 0 <= k -> ok G [] [] 0 s -> joining addr0 s0 (Datatypes.S n) k s ->
  wp pending (poll_turn fuel no_hook no_function no_connect)
    (fun stop s' => exists G', G ⊆ G' /\ if stop : bool then exists l, joined addr0 s0 k G' l s' else ok G' [] [] 0 s' /\ joining addr0 s0 n k s') s.
Proof.
  intros Hw Hk Hc Hj. unfold poll_turn. apply wp_bind, wp_gets, wp_bind, wp_never.
  eapply wp_mono; [eapply wp_also; [exact (wp_pollForCompletion cb_holds _ _ _ _ _ _ true Hc)|]|].
  { eapply wp_conj; [eapply wp_weaken; [|apply wp_conj; [apply sent_quiet|apply poll_takes]]; done|apply settles]. }
  intros e s1 [[Hq Ho] [[Hsn Htk] Hca]].
  assert (joining addr0 s0 (Datatypes.S n) k s1) as Hj1 by (eapply joining_step; [exact Hj|exact Hca|apply Hq|exact Hsn|apply Hq|by eexists]).
  destruct e as [[[] c]|]; simpl in Ho.
  - apply wp_bind, wp_gets. assert (disableReceive (cx_conn s1) = false) as ->.
    { destruct (jo_conn _ _ _ _ _ Hj1) as (? & ? & _ & -> & _). exact (proj2 (wt_flags _ Hw)). }
    apply wp_bind. eapply wp_mono; [eapply wp_join_message; try done|intros r s2 Hr; by apply wp_ret].
    destruct (jo_takes _ _ _ _ _ Hj) as [handled Ht]. exists handled. by eapply takes_trans.
  - destruct (co_live _ _ _ _ _ _ Ho c) as [act Hact]; [apply elem_of_app; right; by left|].
    pose proof (co_acts _ _ _ _ _ _ Ho _ _ Hact) as [Hpos _]. unfold IOC_LF_NO_WAKEUP_POST_ACTION. replace (c =? -1) with false by lia.
    rewrite app_nil_r in Ho. apply wp_bind, wp_never. eapply wp_mono; [eapply wp_also; [by apply (wp_finish_action G); [|exact (jo_keep _ _ _ _ _ Hj1)]|apply settles]|].
    intros r s2 [(-> & Hc2 & Hap2 & Hep2 & Hcn2) Hca2]. apply wp_ret. exists G. split; [done|]. split; [done|]. apply joining_less.
    eapply joining_step; [exact Hj1|exact Hca2|done|by rewrite Hep2|by rewrite Hcn2|exists []; by apply takes_none; rewrite ?Hep2, ?Hcn2].
  - apply wp_ret. exists G. split; [done|]. split; [done|]. by apply joining_less.
Qed.

Lemma wp_join_wait addr0 s0 n k : forall G s,
  waiting s0 -> 0 <= k -> ok G [] [] 0 s -> joining addr0 s0 n k s ->
  wp pending (poll fuel no_hook no_function no_connect n true) (fun _ s' => exists G' l, G ⊆ G' /\ joined addr0 s0 k G' l s') s.
Proof.
  induction n as [|n IH]; intros G s Hw Hk Hc Hj; [by right|]. cbn [poll]. apply wp_bind.
  eapply wp_mono; [by eapply wp_join_turn|]. intros [] s1 (G1 & HG1 & Hs1); cbn [orb negb].
  - destruct Hs1 as [l Hl]. apply wp_ret. by exists G1, l.
  - destruct Hs1 as [Hc1 Hj1]. eapply wp_mono; [by eapply IH|]. intros _ s2 (G2 & l & HG2 & Hs2). exists G2, l. split; [by etransitivity|done].
Qed.

(** *** joinServer *)

(** A call to libfabric on names. *)
Lemma ext_ok G held busy d s x :
  fa_ep x = ep s -> lc_live x = lc_live (s_ext (cx_sys s)) -> (forall a, fa_target x a -> fa_target (s_ext (cx_sys s)) a) ->
  ok G held busy d s -> ok G held busy d (with_ext x s).
Proof.
  intros He Hl Ht Hc. change (fa_ep x) with (ep (with_ext x s)) in He. eapply conn_ok_quiet; [exact Hc| |..].
  - constructor; try done. simpl. by destruct (cx_conn s).
  - unfold flight. by rewrite He.
  - unfold flight. rewrite He. apply (co_pending _ _ _ _ _ _ Hc).
  - unfold all_recvs, flight. by rewrite He.
Qed.

(** The address that libfabric gives to the server, and the first message. *)
Definition server_address s : Z := (fi_av_insert dest_addr (s_ext (cx_sys s))).1.2.
Definition hello s : list byte :=
  m_bytes (cx_mem s) (fillProtocolHeader (msg_code IOC_LF_MSG_CONNECT_INIT) (cx_conn s)) ++
  m_bytes (cx_mem s) (mkFirstClient (fi_getname (fi_av_insert dest_addr (s_ext (cx_sys s))).2).1.2).

(** The connection has its number. *)
Record connected (k : Z) s s' : Prop := {
  cn_ok : exists G, ok G [] [] 0 s';
  cn_app : cx_app s' = cx_app s;
  cn_patient : patient_for k s';
  cn_size : msgBufferSize (s_domain (cx_sys s')) = msgBufferSize (s_domain (cx_sys s));
  cn_answer : exists l (w : LibfabricFirstHandshake) p remote next addr,
    ep_sent (ep s') = ep_sent (ep s) ++ (server_address s, hello s) :: l /\
    sm_find IOC_LF_SERVER_ID remote = Some addr /\ (Z.of_nat (length l) <= 4294967296 -> addr = server_at (server_address s) l) /\
    welcomes (clientId (cx_conn s)) (tcpClientId (cx_conn s)) (tcpClientKey (cx_conn s)) l /\ last_message s s' IOC_LF_MSG_ASSIGN_ID p /\
    message_at (cx_mem s') p (recvBuffersSize (cx_conn s)) w /\ hs_protocolVersion w = IOC_LF_PROTOCOL_VERSION /\
    cx_conn s' = set_queue (cqEntries (cx_conn s')) (pendingAction (cx_conn s')) (set_clientId (hs_assignLfClientId w)
      (set_remote remote next (registerHook (msg_code IOC_LF_MSG_ASSIGN_ID) None (cx_conn s))));
}.

(** A connection whose receive buffers are posted. *)
Record unjoined (k : Z) s : Prop := {
  un_ready : ready cb_holds s;
  un_hooks : hooks (cx_conn s) = ∅;
  un_flags : checkClientAuth (cx_conn s) = false /\ disableReceive (cx_conn s) = false;
  un_next : nextEndpointId (cx_conn s) = 0;
  un_patient : patient_for (Z.of_nat turns + 1 + k) s;
  un_keep : keeping s;
}.

(** The state in which the first message is sent. *)
Definition named s : S :=
  with_conn (fun c => registerHook (msg_code IOC_LF_MSG_ASSIGN_ID) None
    (set_remote (sm_insert IOC_LF_SERVER_ID (server_address s) (remoteLiAddr c)) (nextEndpointId c) c))
    (with_ext (fi_getname (fi_av_insert dest_addr (s_ext (cx_sys s))).2).2 s).

Lemma named_ok G s : ok G [] [] 0 s -> ok G [] [] 0 (named s) /\ calmer s (named s) /\ ep (named s) = ep s.
Proof.
  intros Hc. set (x := (fi_av_insert dest_addr (s_ext (cx_sys s))).2). assert (ep (named s) = ep s) as He.
  { unfold ep. simpl. rewrite fi_getname_ep. apply fi_av_insert_ep. }
  split; [|split; [by apply calmer_same|done]]. unfold named. apply ok_conn; try done. apply ext_ok; [exact He| |..|done].
  - rewrite fi_getname_live. apply fi_av_insert_live.
  - intros a Ha%fi_getname_target. by eapply fi_av_insert_target.
Qed.

Lemma wp_joinServer G k s :
  ok G [] [] 0 s -> unjoined k s -> 0 <= k ->
  wp pending (joinServer fuel no_hook no_function no_connect turns dest_addr) (fun _ s' => connected k s s') s.
Proof.
  intros Hc [Hr Hh Hf Hu Hp Hkp] Hk. destruct (named_ok _ _ Hc) as (Hc1 & Hca & Hep). unfold joinServer.
  apply wp_bind, wp_gets, wp_bind. unfold put at 1, wp at 1. apply wp_bind. unfold guard_ at 1. destruct (_ =? 1); [|left; left; left; by right]. apply wp_ret.
  apply wp_bind, wp_gets, wp_bind. unfold put, wp at 1. apply wp_bind. unfold guard_ at 1.
  set (x := (fi_av_insert dest_addr (s_ext (cx_sys s))).2). change (s_ext (cx_sys (with_conn _ (with_ext x s)))) with x.
  destruct (fi_getname_ok x) as [Hname Hlen]. destruct ((fi_getname x).1.1.1 =? 0) eqn:E0; [|left; left; left; by right]. apply Z.eqb_eq in E0.
  apply wp_ret, wp_bind, wp_guard; [apply Z.leb_le; by apply Hlen|]. apply wp_bind, wp_modify.
  match goal with |- wp _ _ _ ?t => change t with (named s) end.
  assert (ready cb_holds (named s)) as Hr1 by by destruct Hr.
  assert (patient_for (Z.of_nat turns + 1 + k) (named s)) as Hp1 by (unfold patient_for; rewrite Hep; exact Hp).
  apply wp_bind. eapply wp_weaken; [intros f Hf'; left; left; exact Hf'|]. unfold sendMessageNoPollWakeup. eapply wp_mono.
  { eapply wp_also; [|apply settles].
    apply (wp_send_new cb_holds fuel G [] [] 0 (named s) (Nop LF_WAIT_LOOP_KEEP_WAITING) IOC_LF_MSG_CONNECT_INIT IOC_LF_SERVER_ID (mkFirstClient (fi_getname x).1.2) (server_address s));
      [done|eapply patient_now; [exact Hc1|exact Hp1|lia]|apply sm_find_insert_eq|by apply (header_wf cb_holds)|simpl; by rewrite Hname|..|constructor];
      rewrite length_app, Nat2Z.inj_add, header_size; [pose proof (re_msg _ _ Hr1)|pose proof (re_recv _ _ Hr1)]; unfold HEADER_SIZE; simpl in *; rewrite app_nil_r, Hname; lia. }
  intros _ s2 [[[Hsn Hpd Hcn Hap Htk] (G2 & HG2 & Hc2)] Hca2].
  assert (recvBuffers (cx_conn s2) = recvBuffers (cx_conn s) /\ recvBuffersSize (cx_conn s2) = recvBuffersSize (cx_conn s)) as [Erb Ers] by (by rewrite Hcn).
  assert (remoteLiAddr (cx_conn s2) = sm_insert IOC_LF_SERVER_ID (server_address s) (remoteLiAddr (cx_conn s))) as Erm by (by rewrite Hcn).
  assert (waiting s2) as Hw.
  { constructor; [|rewrite Hcn; simpl; by rewrite Hh|by rewrite Hcn].
    destruct Hr1. constructor; [by rewrite Hcn|by rewrite Hcn|by rewrite Hcn|by rewrite (ca_size _ _ Hca2)|by rewrite Hcn|by rewrite Hcn]. }
  assert (joining (server_address s) s2 turns k s2) as Hj.
  { constructor; try done; [| |eapply keeping_after; [|exact Hca2]; by eapply keeping_after|exists []; by apply takes_none].
    - exists (remoteLiAddr (cx_conn s2)), []. split; [exists (server_address s); by rewrite Erm, sm_find_insert_eq|].
      split; [|split; [by rewrite app_nil_r|by intros i m Hi]]. assert (nextEndpointId (cx_conn s2) = 0) as E0' by (rewrite Hcn; exact Hu).
      change (u64 _) with 0. rewrite <- E0'. by destruct (cx_conn s2).
    - replace (Z.of_nat turns + k) with (Z.of_nat turns + 1 + k - 1) by lia.
      apply (patient_for_after _ 1 (named s)); [done|done|rewrite Hsn, length_app; simpl; lia|by rewrite Hcn]. }
  eapply wp_mono; [by apply (wp_join_wait (server_address s) s2 turns k G2 s2)|]. intros _ s' (G' & l & _ & [Hc' Hap' Hsn' Hp' Hsz' (w & p & remote & next & (addr & Haddr & Hat0) & Hwe & Hin & Hat & Hv & Hcn')]).
  constructor; [by exists G'|by rewrite Hap', Hap|done|by rewrite Hsz', (ca_size _ _ Hca2), (ca_size _ _ Hca)|].
  assert (last_message s s' IOC_LF_MSG_ASSIGN_ID p) as Hlast.
  { destruct Hin as (id & handled & h & Hb & Ht & Hhd). exists id, handled, h. rewrite <- Erb. split; [done|]. split; [|done].
    apply (takes_trans [] _ _ s2); [|done]. apply (takes_trans [] [] _ (named s)); [by apply takes_none; [rewrite Hep|]|done]. }
  exists l, w, p, remote, next, addr. rewrite <- Ers. split; [by rewrite Hsn', Hsn, Hep, <- app_assoc|]. split; [done|].
  split; [done|]. split; [by rewrite Hcn in Hwe|]. split; [done|]. split; [done|]. split; [done|]. etransitivity; [exact Hcn'|by rewrite Hcn].
Qed.

(** *** The calls *)

(** The actions send messages and wait: they are calm. *)
#[local] Instance settles_unpack {T} `{Message T} name (old : T) st : Settles (A := ioc_client_s) (Hook := option Empty_set) (Cb := Empty_set) (unpack name old st).
Proof. unfold unpack. apply _. Qed.
#[local] Instance settles_open id : Settles (A := ioc_client_s) (Hook := option Empty_set) (Cb := Empty_set) (open_message id).
Proof. unfold open_message. apply _. Qed.
#[local] Instance settles_auth h lf : Settles (A := ioc_client_s) (Hook := option Empty_set) (Cb := Empty_set) (checkAuth fuel h lf).
Proof. unfold checkAuth. apply _. Qed.
#[local] Instance settles_recv id : Settles (A := ioc_client_s) (onRecvMessage (Hook := Empty_set) fuel no_function id).
Proof.
  unfold onRecvMessage. apply settles_bind; [apply _|]. intros r. apply settles_if; [|apply _].
  apply settles_bind; [apply _|]. intros [[]|]. apply _.
Qed.
#[local] Instance settles_poll n t : Settles (A := ioc_client_s) (pollMessage (Hook := Empty_set) fuel no_function n t).
Proof.
  induction n as [|n IH]; [by intros s|]. cbn [pollMessage]. apply settles_bind; [apply _|]. intros passive. apply settles_bind; [apply _|].
  intros [[[] c]|]; [|apply _|done]. apply settles_bind; [apply _|]. intros [q|]; apply _.
Qed.
#[local] Instance settles_request {T} `{Message T} t ack (data : T) : Settles (A := ioc_client_s) (request (Hook := Empty_set) fuel t ack data).
Proof. unfold request. apply _. Qed.
#[local] Instance settles_status q : Settles (A := ioc_client_s) (finish (Hook := Empty_set) q).
Proof. unfold finish. apply _. Qed.
#[local] Instance settles_perform a : Settles (A := ioc_client_s) (perform (Hook := Empty_set) fuel a).
Proof. destruct a; simpl; unfold obj_flush, obj_create, obj_cow, obj_range_register, obj_range_unregister; apply _. Qed.

(** The client between two calls ([free]) or in one: its connection is joined under
    the number [id] to the server at [addr], and has turns for [k] messages. *)
Record session (free : bool) (k id addr : Z) s : Prop := {
  ss_ok : exists G, ok G [] [] 0 s;
  ss_ready : ready cb_holds s;
  ss_auth : checkClientAuth (cx_conn s) = false;
  ss_addr : sm_find IOC_LF_SERVER_ID (remoteLiAddr (cx_conn s)) = Some addr;
  ss_id : clientId (cx_conn s) = id /\ tcpClientId (cx_conn s) = ic_clientId (cx_app s) /\ tcpClientKey (cx_conn s) = ic_key (cx_app s);
  ss_sizes : 128 <= msgBufferSize (s_domain (cx_sys s)) /\ 128 <= recvBuffersSize (cx_conn s);
  ss_patient : patient_for k s;
  ss_used : used (cx_conn s) = negb free /\ has_connection (cx_app s) = true /\
    connections_semaphore (cx_app s) = if free then IOC_CLIENT_MAX_CONN else IOC_CLIENT_MAX_CONN - 1;
}.

(** The request of an action. *)
Definition request_bytes (id tcp key : Z) (a : Client.action) : list byte :=
  m_bytes nowhere (mkHeader (msg_code (types a).1) id tcp key) ++ body nowhere a.

Lemma wire_request free k id addr s a :
  session free k id addr s -> wire s a = request_bytes id (ic_clientId (cx_app s)) (ic_key (cx_app s)) a.
Proof.
  intros Hs. destruct (ss_id _ _ _ _ _ Hs) as (E1 & E2 & E3). unfold wire, request_bytes, fillProtocolHeader.
  rewrite E1, E2, E3. by destruct a.
Qed.

(** A call that is over: its request was sent once, and its status is that of the
    response in the first message that came since, of the awaited type. *)
Definition called (id addr : Z) (a : Client.action) (status : Z) s s' : Prop :=
  ep_sent (ep s') = ep_sent (ep s) ++ [(addr, request_bytes id (ic_clientId (cx_app s)) (ic_key (cx_app s)) a)] /\
  exists p h, first_message s s' p /\ rd (cx_mem s') p HEADER_SIZE = m_bytes (cx_mem s') h /\ hdr_msgType h = msg_code (types a).2 /\
    forall resp, answer_at (cx_mem s') p (recvBuffersSize (cx_conn s)) resp -> status = rsp_status resp.

Lemma wp_perform k id addr a s :
  session false k id addr s -> 1 <= k -> body_wf a ->
  wp pending (perform fuel a) (fun status s' => session false (k - 1) id addr s' /\ called id addr a status s s' /\ cx_app s' = cx_app s) s.
Proof.
  intros Hs Hk Hw. pose proof (wire_request _ _ _ _ _ a Hs) as Hwire. destruct Hs as [[G Hc] Hr Hau Had Hid [Hz1 Hz2] Hp Hus].
  eapply wp_mono; [eapply wp_also; [apply (client_action_correct fuel a G s addr); try done; by eapply patient_now; [exact Hc|exact Hp|lia]|apply settles]|].
  intros status s' [(Hsn & Hap & (G' & _ & Hc') & Hcn & p & h & Hin & Hhd & Hty & Hst) Hca]. split; [|split; [|done]].
  - constructor; [by exists G'| |by rewrite Hcn|by rewrite Hcn|rewrite Hap; by rewrite Hcn|split; [by rewrite (ca_size _ _ Hca)|by rewrite Hcn]| |rewrite Hap; by rewrite Hcn].
    + destruct Hr. constructor; [by rewrite Hcn|by rewrite Hcn|by rewrite Hcn|by rewrite (ca_size _ _ Hca)|by rewrite Hcn|by rewrite Hcn].
    + apply (patient_for_after _ 1 s); [done|done|rewrite Hsn, length_app; simpl; lia|by rewrite Hcn].
  - split; [by rewrite Hsn, Hwire|]. by exists p, h.
Qed.

Lemma run_call_eq c : run_call fuel turns dest_addr c = with_connection fuel turns dest_addr (perform fuel (action_of c)).
Proof. by destruct c. Qed.

(** The end of a call. *)
Lemma wp_call_end k id addr c s :
  session false k id addr s -> 1 <= k -> body_wf (action_of c) ->
  wp pending (let! r := perform fuel (action_of c) in ioc_client_ret_connection ;; ret r)
    (fun status s' => session true (k - 1) id addr s' /\ called id addr (action_of c) status s s' /\
       ic_clientId (cx_app s') = ic_clientId (cx_app s) /\ ic_key (cx_app s') = ic_key (cx_app s)) s.
Proof.
  intros Hs Hk Hw. apply wp_bind. eapply wp_mono; [by apply (wp_perform k id addr)|]. intros status s1 ([[G Hc] Hr Hau Had Hid Hz Hp Hus] & Hca & Hap).
  apply wp_bind, wp_bind, wp_modify, wp_modify, wp_ret. split; [|split; [exact Hca|simpl; by rewrite Hap]].
  constructor; try done; [exists G|by destruct Hr|].
  - assert (ok G [] [] 0 (with_conn (setUsed false) s1)) as [] by by apply ok_conn. by constructor.
  - destruct Hus as (_ & Hh & Hn). split; [done|]. split; [done|]. simpl. rewrite Hn. unfold IOC_CLIENT_MAX_CONN. done.
Qed.

(** A call on the connection that is there. *)
Lemma wp_call_again k id addr c s :
  session true k id addr s -> 1 <= k -> body_wf (action_of c) ->
  wp pending (run_call fuel turns dest_addr c)
    (fun status s' => session true (k - 1) id addr s' /\ called id addr (action_of c) status s s' /\
       ic_clientId (cx_app s') = ic_clientId (cx_app s) /\ ic_key (cx_app s') = ic_key (cx_app s)) s.
Proof.
  intros Hs Hk Hw. rewrite run_call_eq. unfold with_connection, ioc_client_get_connection. destruct Hs as [[G Hc] Hr Hau Had Hid Hz Hp (Hu & Hh & Hn)].
  apply wp_bind, wp_bind, wp_gets, wp_bind, wp_guard; [by rewrite Hn|]. apply wp_bind, wp_modify, wp_bind, wp_gets.
  change (cx_conn _) with (cx_conn s). rewrite Hh, Hu. apply wp_modify. set (s1 := with_conn _ _).
  eapply wp_mono; [apply (wp_call_end k id addr c s1); [|done|done]|by intros status s' H']. constructor; try done; [exists G|by destruct Hr|].
  - assert (ok G [] [] 0 (with_conn (setUsed true) s)) as [] by by apply ok_conn. by constructor.
  - split; [done|]. split; [done|]. simpl. by rewrite Hn.
Qed.

(** A sequence of calls, each from the state the one before left. *)
Inductive served (id addr : Z) : list call -> list Z -> S -> S -> Prop :=
| served_nil s : served id addr [] [] s s
| served_call c l status rest s1 s2 s3 :
    called id addr (action_of c) status s1 s2 -> served id addr l rest s2 s3 -> served id addr (c :: l) (status :: rest) s1 s3.

Lemma wp_run_calls id addr l : forall k s,
  session true k id addr s -> Z.of_nat (length l) <= k -> Forall (fun c => body_wf (action_of c)) l ->
  wp pending (run_calls fuel turns dest_addr l)
    (fun r s' => session true (k - Z.of_nat (length l)) id addr s' /\ served id addr l r s s' /\
       ic_clientId (cx_app s') = ic_clientId (cx_app s) /\ ic_key (cx_app s') = ic_key (cx_app s)) s.
Proof.
  induction l as [|c l IH]; intros k s Hs Hk Hw.
  - apply wp_ret. simpl. rewrite Z.sub_0_r. split; [done|]. split; [constructor|done].
  - apply Forall_cons in Hw as [Hc Hw]. simpl in Hk. simpl run_calls. apply wp_bind. eapply wp_mono; [apply (wp_call_again k id addr c s Hs); [lia|done]|].
    intros status s1 (Hs1 & Hcall & E1 & E2). apply wp_bind. eapply wp_mono; [apply (IH (k - 1) s1 Hs1); [lia|done]|].
    intros r s2 (Hs2 & Hserved & E3 & E4). apply wp_ret. split; [by replace (k - Z.of_nat (length (c :: l))) with (k - 1 - Z.of_nat (length l)) by (simpl; lia)|].
    split; [by econstructor|]. split; congruence.
Qed.

(** *** The first call *)

(** The first message of a connection: it has no number yet. *)
Definition hello_bytes (tcp key : Z) (name : list byte) : list byte :=
  m_bytes nowhere (mkHeader (msg_code IOC_LF_MSG_CONNECT_INIT) (two64 - 1) tcp key) ++ m_bytes nowhere (mkFirstClient name).

(** What opening the connection did: one hello was sent, and the other messages, [l],
    are the answers to the processes that took the client for a server, which get the
    numbers from 0 on.  The last completion handled is that of the answer, of the type
    ASSIGN_ID, which has the number of the connection.  The requests will go to the address of the hello, or, when [l]
    is not empty, to the process that got the number 0. *)
Record opened (k id addr : Z) s s' : Prop := {
  op_session : session false k id addr s';
  op_ids : ic_clientId (cx_app s') = ic_clientId (cx_app s) /\ ic_key (cx_app s') = ic_key (cx_app s);
  op_sent : exists x l, let a := fi_av_insert dest_addr x in
    ep_sent (ep s') = ep_sent (ep s) ++ (a.1.2, hello_bytes (ic_clientId (cx_app s)) (ic_key (cx_app s)) (fi_getname a.2).1.2) :: l /\
    welcomes (two64 - 1) (ic_clientId (cx_app s)) (ic_key (cx_app s)) l /\
    (Z.of_nat (length l) <= 4294967296 -> addr = server_at a.1.2 l);
  op_answer : exists (w : LibfabricFirstHandshake) p b handled h,
    ep_read (ep s') = ep_read (ep s) ++ handled ++ [mkEntry true b] ++ cqEntries (cx_conn s') /\ recvBuffers (cx_conn s') !! Z.to_nat b = Some p /\
    rd (cx_mem s') p HEADER_SIZE = m_bytes (cx_mem s') h /\ hdr_msgType h = msg_code IOC_LF_MSG_ASSIGN_ID /\ message_at (cx_mem s') p (recvBuffersSize (cx_conn s')) w /\
    hs_protocolVersion w = IOC_LF_PROTOCOL_VERSION /\ id = hs_assignLfClientId w;
}.

(** A client that has no connection yet. *)
Record unopened (k : Z) s : Prop := {
  uo_fresh : fresh s;
  uo_domain : exists virt, s_domain (cx_sys s) = mkDomain [] virt IOC_POST_RECEIVE_WRITE [];
  uo_ids : is_u64 (ic_clientId (cx_app s)) /\ is_u64 (ic_key (cx_app s));
  uo_fuel : Z.of_nat turns + k + 3 < Z.of_nat fuel /\ (ep_refusals (ep s) < fuel)%nat;
}.

(** The connection of [postReceives]. *)
Definition new_client_connection (n : Z) (c : ioc_client_s) : Conn (option Empty_set) Empty_set :=
  set_recvBuffers [] n (setTcpClientInfos (ic_clientId c) (ic_key c) (new_Connection (passive_wait c))).

Lemma unopened_posting k n s :
  unopened k s -> posting cb_holds (unregistered (lc_live (s_ext (cx_sys s)))) 0 n (with_conn (fun _ => new_client_connection n (cx_app s)) s).
Proof.
  intros [Hfr [virt Hd] _ _].
  pose proof (fresh_posting cb_holds virt IOC_POST_RECEIVE_WRITE (passive_wait (cx_app s)) n s eq_refl Hfr) as [Hc Hs Hl Hr Hi].
  constructor; try done. destruct s as [[x fa d] m acts nx c ap]. simpl in *. subst d.
  by apply (ok_conn cb_holds _ _ _ _ _ (setTcpClientInfos (ic_clientId ap) (ic_key ap))) in Hc.
Qed.

Lemma posted_unjoined k n s s0 :
  unopened k s -> 4096 <= n -> posts_only n (with_conn (fun _ => new_client_connection n (cx_app s)) s) s0 ->
  Z.of_nat (length (recvBuffers (cx_conn s0))) = 2 -> unjoined k s0.
Proof.
  intros [Hfr [virt Hd] [Hi1 Hi2] [Hf1 Hf2]] Hn [_ Hd0 Ha0 [l Hcn] _ Hrf _] Hl.
  constructor; try (rewrite Hcn; done); [constructor| |].
  - rewrite Hcn. done.
  - rewrite Hcn. exact Hi1.
  - rewrite Hcn. exact Hi2.
  - rewrite Hd0. simpl. rewrite Hd. done.
  - rewrite Hcn. simpl. lia.
  - rewrite Hcn. done.
  - split; [rewrite Hcn; simpl; lia|]. split; [rewrite Hrf; exact Hf2|lia].
  - intros a act. rewrite Ha0. simpl. by rewrite (fr_actions _ Hfr).
Qed.

(** The state in which the first call goes on. *)
Definition established s : S :=
  mkCx (cx_sys s) (cx_mem s) (cx_actions s) (cx_nextAction s) (setUsed true (cx_conn s)) (set_connection true (cx_app s)).

Lemma connected_opened k n s s0 s1 :
  unopened k s -> connections_semaphore (cx_app s) = IOC_CLIENT_MAX_CONN - 1 -> 4096 <= n -> 
  posts_only n (with_conn (fun _ => new_client_connection n (cx_app s)) s) s0 -> connected k s0 s1 ->
  exists id addr, opened k id addr s (established s1).
Proof.
  intros Hun Hsem Hn [Hap0 Hd0 _ [bufs Hcn0] Hsn0 _ Hrd0] [[G Hc] Hap Hp Hsz (l & w & p & remote & next & addr & Hsn & Hf & Hnil & Hwe & Hin & Hat & Hv & Hcn)].
  destruct Hun as [_ [virt Hd] [Hi1 Hi2] _]. simpl in Hap0, Hd0, Hcn0. rewrite Hcn0 in Hcn, Hat, Hwe. rewrite Hap0 in Hap. rewrite Hd0 in Hsz.
  change (ep (with_conn _ s)) with (ep s) in Hsn0.
  exists (hs_assignLfClientId w), addr. constructor.
  - constructor; [exists G| | | | | | |].
    + assert (ok G [] [] 0 (with_conn (setUsed true) s1)) as [] by by apply ok_conn. by constructor.
    + destruct Hat as ((_ & Hwf) & _). constructor; simpl; [by rewrite Hcn|by rewrite Hcn|by rewrite Hcn|by rewrite Hsz, Hd|rewrite Hcn; simpl; lia|by rewrite Hcn].
    + simpl. by rewrite Hcn.
    + simpl. by rewrite Hcn.
    + simpl. rewrite Hcn, Hap. done.
    + simpl. rewrite Hsz, Hcn, Hd. simpl. split; [done|lia].
    + exact Hp.
    + simpl. rewrite Hap, Hsem. done.
  - simpl. by rewrite Hap.
  - exists (s_ext (cx_sys s0)), l. cbv zeta. split; [|by split]. change (ep (established s1)) with (ep s1). rewrite Hsn, Hsn0. do 3 f_equal. unfold hello. by rewrite Hcn0.
  - destruct Hin as (b & handled & h & Hb & (given & Eg & Et) & Hh & Hty). exists w, p, b, handled, h. change (ep (established s1)) with (ep s1).
    rewrite Hcn0 in Hb, Et. change (ep (with_conn _ s)) with (ep s) in Hrd0. rewrite Eg, Hrd0. simpl in Et. subst given.
    rewrite <- app_assoc. simpl. rewrite Hcn. done.
Qed.

Lemma wp_open_connection k s :
  unopened k s -> 0 <= k -> connections_semaphore (cx_app s) = IOC_CLIENT_MAX_CONN - 1 ->
  wp pending (open_connection fuel turns dest_addr) (fun _ s' => exists id addr, opened k id addr s s') s.
Proof.
  intros Hun Hk Hsem. unfold open_connection. change (if IOC_POST_RECEIVE_READ <? 4096 then 4096 else IOC_POST_RECEIVE_READ) with IOC_POST_RECEIVE_READ.
  set (n := IOC_POST_RECEIVE_READ). assert (4096 <= n) as Hn by by vm_compute. clearbody n.
  apply wp_bind, wp_gets, wp_bind, wp_modify, wp_bind, wp_modify, wp_bind. unfold postReceives. apply wp_bind, wp_modify.
  eapply wp_weaken; [intros f Hf; left; left; left; exact Hf|].
  eapply wp_mono; [exact (wp_post_all cb_holds n 2 ltac:(lia) 0 _ _ (unopened_posting k n s Hun))|].
  intros _ s0 [Hps (G & _ & Hpo)]. apply wp_bind. eapply wp_mono.
  { apply (wp_joinServer G k s0); [apply Hpo| |done]. apply (posted_unjoined k n s s0); try done. rewrite (pg_count _ _ _ _ _ Hpo). done. }
  intros u s1 Hco. apply wp_bind, wp_modify, wp_modify. by apply (connected_opened k n s s0 s1).
Qed.

(** C15: a program of one thread that opens a client and makes calls of the five that
    only have a status (flush, create, cow, range register and unregister), one after
    the other, opens one connection, in its first call.  It sends one hello, with its
    name, to the address that libfabric gives for the server; the other messages it
    sends before it has a number give numbers, from 0 on, to processes that took it
    for a server.  Its number is the one in the message of the type ASSIGN_ID that is
    the last one handled.  Then each call sends its request once, with this number and
    the pair of identifiers of the TCP server, to the address of the hello (to the
    process that got the number 0, that of the server, if there was one), and returns
    the status of the answer of the awaited type, the first message that came since;
    the connection and its permit are given back at the end of each.  Until then the
    program waits: the only other ends are an error of the resources, an unexpected
    message and a message from the server that stops the client. *)
Theorem client_session prov tcp key c l s :
  fresh s -> is_u64 tcp -> is_u64 key -> Forall (fun c => body_wf (action_of c)) (c :: l) ->
  (turns + length l + 5 <= fuel)%nat -> (ep_refusals (ep s) < fuel)%nat ->
  wp pending (ioc_client_init prov tcp key ;; run_calls fuel turns dest_addr (c :: l))
    (fun statuses s' => exists id addr s0 s1, ep s0 = ep s /\ ic_clientId (cx_app s0) = tcp /\ ic_key (cx_app s0) = key /\
       opened (Z.of_nat (length (c :: l))) id addr s0 s1 /\ served id addr (c :: l) statuses s1 s' /\ session true 0 id addr s') s.
Proof.
  intros Hfr Ht Hk Hw Hfuel Hrf. unfold ioc_client_init. apply wp_bind, wp_bind, wp_modify, wp_bind. unfold on_sys at 1, modify at 1, wp at 1. simpl.
  apply wp_bind. unfold on_sys at 1, setMsgBufferSize, wp at 1. simpl. apply wp_bind, wp_modify, wp_modify. simpl.
  match goal with |- wp _ _ _ ?t => set (s0 := t) end. apply wp_bind. apply Forall_cons in Hw as [Hc Hw].
  rewrite run_call_eq. unfold with_connection, ioc_client_get_connection.
  apply wp_bind, wp_bind, wp_gets, wp_bind, wp_guard; [done|]. apply wp_bind, wp_modify, wp_bind, wp_gets. simpl.
  match goal with |- wp _ _ _ ?t => set (s1 := t) end. set (k := Z.of_nat (Datatypes.S (length l))).
  assert (unopened k s1) as Hun.
  { destruct Hfr. constructor; [by constructor|by eexists|done|]. split; [unfold k; lia|exact Hrf]. }
  eapply wp_mono; [apply (wp_open_connection k s1); [done|unfold k; lia|done]|]. intros u s2 (id & addr & Hop).
  eapply wp_mono; [apply (wp_call_end k id addr c s2); [apply Hop|unfold k; lia|done]|]. intros status s3 (Hs3 & Hca & _).
  apply wp_bind. eapply wp_mono; [apply (wp_run_calls id addr l (k - 1) s3 Hs3); [unfold k; lia|done]|].
  intros rest s4 (Hs4 & Hserved & _). apply wp_ret. exists id, addr, s1, s2. split; [done|]. split; [done|]. split; [done|]. split; [exact Hop|].
  split; [by econstructor|]. replace (k - 1 - Z.of_nat (length l)) with 0 in Hs4 by (unfold k; lia). done.
Qed.
End sessions.
End ClientSession.
