(* ===== verification/MemoryBackend.v ===== *)
(** * Memory backends

    Model of src/src/server/backends/MemoryBackendMalloc.cpp,
    MemoryBackendNvdimm.cpp and MemoryBackendNvdimmGrow.cpp, the backends that
    take memory from the system and register it for RDMA.  The interface
    [MemoryBackend] is the abstract class of src/src/server/core/MemoryBackend.hpp;
    [MemoryBackendOk] is what its implementations promise. *)

From Stdlib Require Import String.
From S2P Require Import Prelude StdMap Memory IntervalMap System LibfabricDomain.

Module MemoryBackend.
Import LibfabricDomain.

(** ** The interface *)
Class Backend (X B : Type) := {
  mb_allocate : Z -> M (Sys X * B) Z;
  mb_deallocate : Z -> Z -> M (Sys X * B) unit;
}.

(** A call on the system, and one on the fields of the backend. *)
Definition on_sys {X B A} (m : M (Sys X) A) : M (Sys X * B) A := fun sb =>
  match m sb.1 with Ok (a, s) => Ok (a, (s, sb.2)) | Abort f => Abort f end.
Definition fields {X B} (f : B -> B) : M (Sys X * B) unit := modify (fun sb => (sb.1, f sb.2)).

(** [mb_inv b used own]: the blocks [used] are handed out, and the backend holds
    the blocks [own] of the process; [rest] is what belongs to others. *)
Class BackendOk (X B : Type) `{LibcOk X} `{Libfabric X} `{Backend X B} := {
  mb_unit : Z;
  mb_unit_pos : 0 < mb_unit;
  mb_max : Z;
  mb_max_bounds : 2147483648 <= mb_max < two64;
  mb_inv : B -> gmap Z Z -> heap -> Prop;
  mb_own : forall b used own p n, mb_inv b used own -> used !! p = Some n -> exists r, own !! p = Some (n, r);
  mb_allocate_ok : forall s b used own rest n,
    sys_rep s (own ∪ rest) -> own ##ₘ rest -> mb_inv b used own -> 0 < n <= mb_max -> (mb_unit | n) ->
    wp resource (mb_allocate n)
      (fun p sb => used !! p = None /\ exists own', sys_rep sb.1 (own' ∪ rest) /\ own' ##ₘ rest /\
         mb_inv sb.2 (<[p := n]> used) own') (s, b);
  mb_deallocate_ok : forall s b used own rest p n,
    sys_rep s (own ∪ rest) -> own ##ₘ rest -> mb_inv b used own -> used !! p = Some n -> (mb_unit | n) ->
    wp never (mb_deallocate p n)
      (fun _ sb => exists own', sys_rep sb.1 (own' ∪ rest) /\ own' ##ₘ rest /\
         mb_inv sb.2 (delete p used) own') (s, b);
}.

(** ** MemoryBackendMalloc *)
Record Malloc : Type := mkMalloc { ma_lfDomain : bool }.   (** [lfDomain != NULL] *)

(** MemoryBackendMalloc::allocate *)
Definition Malloc_allocate {X} `{Libc X} `{Libfabric X} (size : Z) : M (Sys X * Malloc) Z :=
  assert_ (size >? 0) ;;
  let! ptr := on_sys (malloc size) in
  guard_ FOutOfMemory (negb (ptr =? 0)) ;;
  let! b := gets snd in
  (if ma_lfDomain b then on_sys (registerSegment ptr size true true false) ;; ret tt else ret tt) ;;
  ret ptr.

(** MemoryBackendMalloc::deallocate *)
Definition Malloc_deallocate {X} `{Libc X} `{Libfabric X} (addr size : Z) : M (Sys X * Malloc) unit :=
  assert_ (negb (addr =? 0)) ;;
  assert_ (size >? 0) ;;
  let! b := gets snd in
  (if ma_lfDomain b then on_sys (unregisterSegment addr size) else ret tt) ;;
  on_sys (free addr).

#[export] Instance Malloc_backend {X} `{Libc X} `{Libfabric X} : Backend X Malloc := {
  mb_allocate := Malloc_allocate; mb_deallocate := Malloc_deallocate }.

(** ** MemoryBackendNvdimm *)
Record Nvdimm : Type := mkNvdimm {
  nv_lfDomain : bool;
  nv_directory : string;
  nv_fileFD : Z;
  nv_fileSize : Z;
  nv_chunks : Z;
  nv_fileOffset : Z;
}.

Definition IOC_INITIAL_FACTOR : Z := 8.
Definition IOC_INCREASE_LIMIT : Z := 32 * 1024 * 1024 * 1024.

(** MemoryBackendNvdimm::MemoryBackendNvdimm *)
Definition new_Nvdimm (lfDomain : bool) (directory : string) : Nvdimm := mkNvdimm lfDomain directory 0 0 0 0.

(** The size of the next file in MemoryBackendNvdimm::openNewFile. *)
Definition next_size (fileSize size : Z) : Z :=
  if fileSize =? 0 then size *u IOC_INITIAL_FACTOR
  else
    let nextSize := fileSize *u 2 in
    let nextSize := if nextSize >? IOC_INCREASE_LIMIT then IOC_INCREASE_LIMIT else nextSize in
    if negb (nextSize mod size =? 0) then nextSize +u (size -u nextSize mod size) else nextSize.

(** Creating an unlinked temporary file in a directory. *)
Definition open_temp {X B} `{Libc X} (directory : string) : M (Sys X * B) Z :=
  let ftemplate := (directory ++ "/" ++ "iocatcher-nvdimm-file-XXXXXX")%string in
  let! r := on_sys (fun s => let r := lc_mkstemp ftemplate (s_ext s) in Ok (r.1, set_ext r.2 s)) in
  guard_ FSystem (r.1 >? 0) ;;
  let! status := on_sys (fun s => let r := lc_unlink r.2 (s_ext s) in Ok (r.1, set_ext r.2 s)) in
  guard_ FSystem (status =? 0) ;;
  ret r.1.

Definition ftruncate {X B} `{Libc X} (fd size : Z) : M (Sys X * B) Z :=
  on_sys (fun s => let r := lc_ftruncate fd size (s_ext s) in Ok (r.1, set_ext r.2 s)).
Definition mmap {X B} `{Libc X} (size fd offset : Z) : M (Sys X * B) Z :=
  on_sys (fun s => let r := lc_mmap fd offset size (s_ext s) in Ok (r.1, set_ext r.2 s)).
Definition munmap {X B} `{Libc X} (addr size : Z) : M (Sys X * B) unit :=
  on_sys (modify (fun s => set_ext (lc_munmap addr size (s_ext s)) s)).

(** MemoryBackendNvdimm::openNewFile *)
Definition openNewFile {X} `{Libc X} (size : Z) : M (Sys X * Nvdimm) unit :=
  let! b := gets snd in
  (if negb (nv_fileFD b =? 0) then on_sys (modify (fun s => set_ext (lc_close (nv_fileFD b) (s_ext s)) s)) else ret tt) ;;
  let nextSize := next_size (nv_fileSize b) size in
  let! fd := open_temp (nv_directory b) in
  let! status := ftruncate fd nextSize in
  guard_ FSystem (status =? 0) ;;
  fields (fun b => mkNvdimm (nv_lfDomain b) (nv_directory b) fd nextSize (nv_chunks b) 0).

(** MemoryBackendNvdimm::allocate *)
Definition Nvdimm_allocate {X} `{Libc X} `{Libfabric X} (size : Z) : M (Sys X * Nvdimm) Z :=
  assert_ (size >? 0) ;;
  assert_ (size mod 4096 =? 0) ;;
  let! b := gets snd in
  (if nv_fileOffset b +u size >? nv_fileSize b then openNewFile size else ret tt) ;;
  let! b := gets snd in
  let offset := nv_fileOffset b in
  fields (fun b => mkNvdimm (nv_lfDomain b) (nv_directory b) (nv_fileFD b) (nv_fileSize b) (nv_chunks b) (nv_fileOffset b +u size)) ;;
  let! b := gets snd in
  assert_ (nv_fileOffset b <=? nv_fileSize b) ;;
  let! ptr := mmap size (nv_fileFD b) offset in
  guard_ FOutOfMemory (negb (ptr =? MAP_FAILED)) ;;
  (if nv_lfDomain b then on_sys (registerSegment ptr size true true true) ;; ret tt else ret tt) ;;
  fields (fun b => mkNvdimm (nv_lfDomain b) (nv_directory b) (nv_fileFD b) (nv_fileSize b) (nv_chunks b +u 1) (nv_fileOffset b)) ;;
  ret ptr.

(** MemoryBackendNvdimm::deallocate *)
Definition Nvdimm_deallocate {X} `{Libc X} `{Libfabric X} (addr size : Z) : M (Sys X * Nvdimm) unit :=
  assert_ (negb (addr =? 0)) ;;
  assert_ (size >? 0) ;;
  assert_ (size mod 4096 =? 0) ;;
  let! b := gets snd in
  assert_ (nv_chunks b >? 0) ;;
  (if nv_lfDomain b then on_sys (unregisterSegment addr size) else ret tt) ;;
  munmap addr size ;;
  fields (fun b => mkNvdimm (nv_lfDomain b) (nv_directory b) (nv_fileFD b) (nv_fileSize b) (nv_chunks b -u 1) (nv_fileOffset b)).

(** MemoryBackendNvdimm::~MemoryBackendNvdimm *)
Definition destroy_Nvdimm {X} `{Libc X} : M (Sys X * Nvdimm) unit :=
  let! b := gets snd in
  assert_ (nv_chunks b =? 0) ;;
  on_sys (modify (fun s => set_ext (lc_close (nv_fileFD b) (s_ext s)) s)).

(** MemoryBackendNvdimm::getFileSize and getChunks *)
Definition getFileSize (b : Nvdimm) : Z := nv_fileSize b.
Definition getChunks (b : Nvdimm) : Z := nv_chunks b.

#[export] Instance Nvdimm_backend {X} `{Libc X} `{Libfabric X} : Backend X Nvdimm := {
  mb_allocate := Nvdimm_allocate; mb_deallocate := Nvdimm_deallocate }.

(** ** MemoryBackendNvdimmGrow *)
Record NvdimmGrow : Type := mkGrow {
  ng_lfDomain : bool;
  ng_directory : string;
  ng_fileFD : Z;
  ng_fileSize : Z;
  ng_chunks : Z;
}.

(** MemoryBackendNvdimmGrow::MemoryBackendNvdimmGrow *)
Definition new_NvdimmGrow {X} `{Libc X} (lfDomain : bool) (directory : string) : M (Sys X * unit) NvdimmGrow :=
  let! fd := open_temp directory in
  ret (mkGrow lfDomain directory fd 0 0).

(** MemoryBackendNvdimmGrow::allocate *)
Definition NvdimmGrow_allocate {X} `{Libc X} `{Libfabric X} (size : Z) : M (Sys X * NvdimmGrow) Z :=
  assert_ (size >? 0) ;;
  assert_ (size mod 4096 =? 0) ;;
  let! b := gets snd in
  let offset := ng_fileSize b in
  fields (fun b => mkGrow (ng_lfDomain b) (ng_directory b) (ng_fileFD b) (ng_fileSize b +u size) (ng_chunks b)) ;;
  let! b := gets snd in
  let! status := ftruncate (ng_fileFD b) (ng_fileSize b) in
  guard_ FSystem (status =? 0) ;;
  let! ptr := mmap size (ng_fileFD b) offset in
  guard_ FOutOfMemory (negb (ptr =? MAP_FAILED)) ;;
  (if ng_lfDomain b then on_sys (registerSegment ptr size true true true) ;; ret tt else ret tt) ;;
  fields (fun b => mkGrow (ng_lfDomain b) (ng_directory b) (ng_fileFD b) (ng_fileSize b) (ng_chunks b +u 1)) ;;
  ret ptr.

(** MemoryBackendNvdimmGrow::deallocate *)
Definition NvdimmGrow_deallocate {X} `{Libc X} `{Libfabric X} (addr size : Z) : M (Sys X * NvdimmGrow) unit :=
  assert_ (negb (addr =? 0)) ;;
  assert_ (size >? 0) ;;
  assert_ (size mod 4096 =? 0) ;;
  let! b := gets snd in
  assert_ (ng_chunks b >? 0) ;;
  (if ng_lfDomain b then on_sys (unregisterSegment addr size) else ret tt) ;;
  munmap addr size ;;
  fields (fun b => mkGrow (ng_lfDomain b) (ng_directory b) (ng_fileFD b) (ng_fileSize b) (ng_chunks b -u 1)).

(** MemoryBackendNvdimmGrow::~MemoryBackendNvdimmGrow *)
Definition destroy_NvdimmGrow {X} `{Libc X} : M (Sys X * NvdimmGrow) unit :=
  let! b := gets snd in
  assert_ (ng_chunks b =? 0) ;;
  on_sys (modify (fun s => set_ext (lc_close (ng_fileFD b) (s_ext s)) s)).

#[export] Instance NvdimmGrow_backend {X} `{Libc X} `{Libfabric X} : Backend X NvdimmGrow := {
  mb_allocate := NvdimmGrow_allocate; mb_deallocate := NvdimmGrow_deallocate }.

(** ** Proofs *)
Section proofs.
Context {X : Type} `{LibfabricOk X}.
Implicit Types (s : Sys X) (used : gmap Z Z) (own rest G : heap).

Lemma wp_on_sys F {B A} (m : M (Sys X) A) (Q : A -> Sys X * B -> Prop) s b :
  wp F m (fun a s' => Q a (s', b)) s -> wp F (on_sys m) Q (s, b).
Proof. unfold wp, on_sys. simpl. by destruct (m s) as [[a s']|f]. Qed.

Lemma wp_ext F {B A} (f : X -> A * X) (Q : A -> Sys X * B -> Prop) s b :
  Q (f (s_ext s)).1 (set_ext (f (s_ext s)).2 s, b) ->
  wp F (on_sys (fun s => let r := f (s_ext s) in Ok (r.1, set_ext r.2 s))) Q (s, b).
Proof. done. Qed.

(** Blocks of a backend and of the others. *)
Lemma own_insert own rest p v : (own ∪ rest) !! p = None -> own ##ₘ rest ->
  own !! p = None /\ <[p := v]> own ##ₘ rest /\ <[p := v]> own ∪ rest = <[p := v]> (own ∪ rest).
Proof.
  intros [Hn Hr]%lookup_union_None Hd. split; [done|]. split; [by apply map_disjoint_insert_l|]. symmetry. apply insert_union_l.
Qed.

Lemma own_delete own rest p v : own !! p = Some v -> own ##ₘ rest ->
  delete p own ##ₘ rest /\ delete p own ∪ rest = delete p (own ∪ rest).
Proof.
  intros Hp Hd. split; [by apply map_disjoint_delete_l|]. rewrite delete_union. f_equal. symmetry. apply delete_id.
  by eapply map_disjoint_Some_l.
Qed.

Lemma own_lookup own rest p v : own !! p = Some v -> (own ∪ rest) !! p = Some v.
Proof. apply lookup_union_Some_l. Qed.

(** Registration when the backend has a domain. *)
Lemma wp_register_if {B} (b : B) (lf : bool) s G p n r w pm (Q : unit -> Sys X * B -> Prop) :
  sys_rep s G -> G !! p = Some (n, false) ->
  (forall s', sys_rep s' (<[p := (n, lf)]> G) -> Q tt (s', b)) ->
  wp resource (if lf then on_sys (registerSegment p n r w pm) ;; ret tt else ret tt) Q (s, b).
Proof.
  intros Hr Hp HQ. destruct lf; [|apply wp_ret, HQ; by rewrite insert_id].
  apply wp_bind, wp_on_sys. eapply wp_mono; [by apply (wp_registerSegment s G)|]. intros iov s' [Hr' _]. apply wp_ret. auto.
Qed.

Lemma wp_unregister_if {B} (b : B) (lf : bool) s G p n (Q : unit -> Sys X * B -> Prop) :
  sys_rep s G -> G !! p = Some (n, lf) ->
  (forall s', sys_rep s' (<[p := (n, false)]> G) -> Q tt (s', b)) ->
  wp never (if lf then on_sys (unregisterSegment p n) else ret tt) Q (s, b).
Proof.
  intros Hr Hp HQ. destruct lf; [|apply wp_ret, HQ; by rewrite insert_id].
  apply wp_on_sys. eapply wp_mono; [by apply (wp_unregisterSegment s G p n n)|]. intros [] s' [Hr' _]. auto.
Qed.

(** The blocks of a backend that holds exactly what it handed out. *)
Definition plain (lf : bool) used : heap := (fun n => (n, lf)) <$> used.

Lemma plain_lookup lf used p n : used !! p = Some n -> plain lf used !! p = Some (n, lf).
Proof. intros Hp. unfold plain. by rewrite lookup_fmap, Hp. Qed.

Lemma plain_insert lf used p n : plain lf (<[p := n]> used) = <[p := (n, lf)]> (plain lf used).
Proof. unfold plain. by rewrite fmap_insert. Qed.

Lemma plain_delete lf used p : plain lf (delete p used) = delete p (plain lf used).
Proof. unfold plain. by rewrite fmap_delete. Qed.

Lemma plain_None lf used p : plain lf used !! p = None -> used !! p = None.
Proof. unfold plain. rewrite lookup_fmap. by destruct (used !! p). Qed.

Lemma plain_count lf used s rest :
  sys_rep s (plain lf used ∪ rest) -> plain lf used ##ₘ rest -> Z.of_nat (size used) < two64.
Proof.
  intros Hr Hd. apply rep_count in Hr. rewrite map_size_disj_union in Hr by done.
  unfold plain in Hr. rewrite map_size_fmap in Hr. lia.
Qed.

(** A block taken from the system, then registered. *)
Lemma take_block {B A} (b : B) lf s used rest x p n r w pm (k : M (Sys X * B) A) (Q : A -> Sys X * B -> Prop) :
  sys_rep s (plain lf used ∪ rest) -> plain lf used ##ₘ rest ->
  lc_live (s_ext s) !! p = None -> lc_live x = <[p := n]> (lc_live (s_ext s)) ->
  (forall s', used !! p = None -> sys_rep s' (plain lf (<[p := n]> used) ∪ rest) -> plain lf (<[p := n]> used) ##ₘ rest ->
     wp resource k Q (s', b)) ->
  wp resource ((if lf then on_sys (registerSegment p n r w pm) ;; ret tt else ret tt) ;; k) Q (set_ext x s, b).
Proof.
  intros Hr Hd Hf Hl HQ. destruct (rep_alloc _ _ _ _ _ Hr Hf Hl) as [Hn Hr'].
  destruct (own_insert _ _ p (n, lf) Hn Hd) as (Hp & Hd' & Heq).
  apply wp_bind. eapply (wp_register_if b lf); [exact Hr'|apply lookup_insert_eq|].
  intros s' Hs'. rewrite insert_insert_eq in Hs'.
  apply HQ; rewrite ?plain_insert; [by eapply plain_None|by rewrite Heq|done].
Qed.

(** The return of a block that is not registered any more. *)
Lemma give_block lf s used rest p n (fr : X -> X) :
  sys_rep s (<[p := (n, false)]> (plain lf used ∪ rest)) -> plain lf used ##ₘ rest -> used !! p = Some n ->
  (forall x, lc_live x !! p = Some n -> lc_live (fr x) = delete p (lc_live x)) ->
  sys_rep (set_ext (fr (s_ext s)) s) (plain lf (delete p used) ∪ rest) /\ plain lf (delete p used) ##ₘ rest.
Proof.
  intros Hr Hd Hp Hfr. destruct (own_delete _ _ _ _ (plain_lookup lf _ _ _ Hp) Hd) as [Hd' Heq].
  rewrite plain_delete. split; [|done]. rewrite Heq, <- (delete_insert_eq (plain lf used ∪ rest) p (n, false)).
  eapply rep_free; [exact Hr|apply lookup_insert_eq|]. apply Hfr. eapply rep_live; [exact Hr|apply lookup_insert_eq].
Qed.

(** *** MemoryBackendMalloc *)
Definition Malloc_inv (b : Malloc) used own : Prop := own = plain (ma_lfDomain b) used.

Lemma wp_Malloc_allocate s b used own rest n :
  sys_rep s (own ∪ rest) -> own ##ₘ rest -> Malloc_inv b used own -> 0 < n ->
  wp resource (Malloc_allocate n)
    (fun p sb => used !! p = None /\ exists own', sys_rep sb.1 (own' ∪ rest) /\ own' ##ₘ rest /\
       Malloc_inv sb.2 (<[p := n]> used) own' /\ own ⊆ own') (s, b).
Proof.
  intros Hr Hd Hinv Hn. rewrite Hinv in Hr, Hd. unfold Malloc_allocate. apply wp_bind, wp_guard; [lia|].
  apply wp_bind. unfold malloc. apply (wp_ext resource (lc_malloc n)). pose proof (lc_malloc_ok (s_ext s) n Hn) as Hm.
  set (r := lc_malloc n (s_ext s)) in *. apply wp_bind. unfold guard_. destruct (r.1 =? 0); [by left|].
  destruct Hm as [Hf Hl]. apply wp_ret, wp_bind, wp_gets. cbn [snd].
  apply (take_block b (ma_lfDomain b) s used rest r.2 r.1 n true true false (ret r.1)); try done.
  intros s' Hu Hr' Hd'. apply wp_ret. split; [done|]. eexists. split; [done|]. split; [done|]. split; [done|].
  rewrite Hinv, plain_insert. apply insert_subseteq. unfold plain. by rewrite lookup_fmap, Hu.
Qed.

Lemma wp_Malloc_deallocate s b used own rest p n :
  sys_rep s (own ∪ rest) -> own ##ₘ rest -> Malloc_inv b used own -> used !! p = Some n ->
  wp never (Malloc_deallocate p n)
    (fun _ sb => exists own', sys_rep sb.1 (own' ∪ rest) /\ own' ##ₘ rest /\ Malloc_inv sb.2 (delete p used) own') (s, b).
Proof.
  intros Hr Hd -> Hp. destruct (rep_range _ _ _ _ _ Hr (own_lookup _ rest _ _ (plain_lookup _ _ _ _ Hp))) as (? & ? & _).
  unfold Malloc_deallocate. apply wp_bind, wp_guard; [lia|]. apply wp_bind, wp_guard; [lia|]. apply wp_bind, wp_gets. cbn [snd].
  apply wp_bind. eapply (wp_unregister_if b (ma_lfDomain b)); [exact Hr|by apply own_lookup, plain_lookup|].
  intros s' Hs'. apply wp_on_sys, wp_modify. cbn [fst snd].
  destruct (give_block _ s' used rest p n (lc_free p) Hs' Hd Hp) as [Hr' Hd']; [intros x; apply lc_free_ok|]. eexists. split; [done|]. by split.
Qed.

#[export] Program Instance Malloc_ok : BackendOk X Malloc := {
  mb_unit := 1; mb_max := two64 - 1; mb_inv := Malloc_inv }.
Next Obligation. lia. Qed.
Next Obligation. rewrite two64_eq. lia. Qed.
Next Obligation. intros b used own p n -> Hp. eexists. by apply plain_lookup. Qed.
Next Obligation.
  intros. eapply wp_mono; [by apply wp_Malloc_allocate; try lia|]. intros p sb (Hf & own' & ? & ? & ? & _). split; [done|]. by exists own'.
Qed.
Next Obligation. intros. by eapply wp_Malloc_deallocate. Qed.

(** *** MemoryBackendNvdimm *)

(** A bound on the size of a request under which the sizes of the files do not
    wrap around. *)
Definition nvdimm_max : Z := 1152921504606846976 - 1.   (* 2^60 - 1 *)

Record Nvdimm_inv (b : Nvdimm) used own : Prop := {
  nv_plain : own = plain (nv_lfDomain b) used;
  nv_count : nv_chunks b = Z.of_nat (size used);
  nv_offset : 0 <= nv_fileOffset b <= nv_fileSize b;
  nv_bound : nv_fileSize b <= 8 * nvdimm_max;
}.

Lemma next_size_ok fileSize n :
  0 <= fileSize <= 8 * nvdimm_max -> 0 < n <= nvdimm_max -> n <= next_size fileSize n <= 8 * nvdimm_max.
Proof.
  unfold next_size, nvdimm_max, IOC_INITIAL_FACTOR, IOC_INCREASE_LIMIT. intros Hf Hn.
  destruct (fileSize =? 0) eqn:E0; [rewrite u64_small by (rewrite two64_eq; lia); lia|].
  rewrite (u64_small (fileSize * 2)) by (rewrite two64_eq; lia). cbv zeta. set (m := if _ >? _ then _ else _).
  assert (0 < m <= 34359738368) as Hm by (unfold m; destruct (fileSize * 2 >? _) eqn:E1; lia).
  pose proof (Z.mod_pos_bound m n ltac:(lia)). destruct (m mod n =? 0) eqn:E1; simpl negb; cbn iota.
  - assert (n <= m); [|lia]. apply Z.eqb_eq, Z.mod_divide in E1; [|lia]. by apply Z.divide_pos_le; [lia|].
  - rewrite (u64_small (n - m mod n)), u64_small by (rewrite two64_eq; lia).
    pose proof (Z.mod_le m n). destruct (decide (m < n)); [rewrite Z.mod_small by lia|]; lia.
Qed.

(** What openNewFile leaves. *)
Lemma wp_openNewFile s b G n :
  sys_rep s G ->
  wp (only FSystem) (openNewFile n)
    (fun _ sb => sys_rep sb.1 G /\ exists fd, sb.2 = mkNvdimm (nv_lfDomain b) (nv_directory b) fd (next_size (nv_fileSize b) n) (nv_chunks b) 0) (s, b).
Proof.
  intros Hr. unfold openNewFile. apply wp_bind, wp_gets. cbn [snd]. apply wp_bind.
  apply wp_mono with (P := fun _ sb => sys_rep sb.1 G /\ sb.2 = b).
  { destruct (negb _); [|by apply wp_ret]. apply wp_on_sys, wp_modify. split; [|done]. apply rep_ext; [done|apply lc_close_live]. }
  intros _ [s1 b1] [Hr1 Hb1]. simpl in Hr1, Hb1. subst b1. cbv zeta. unfold open_temp. apply wp_bind, wp_bind.
  apply (wp_ext (only FSystem) (lc_mkstemp _)). apply wp_bind. unfold guard_. case_match; [|done]. apply wp_ret.
  set (s2 := set_ext _ s1). assert (sys_rep s2 G) as Hr2 by (apply rep_ext; [done|apply lc_mkstemp_live]).
  apply wp_bind. apply (wp_ext (only FSystem) (lc_unlink _)). apply wp_bind. case_match; [|done]. apply wp_ret.
  set (s3 := set_ext _ s2). assert (sys_rep s3 G) as Hr3 by (apply rep_ext; [done|apply lc_unlink_live]).
  apply wp_ret, wp_bind. unfold ftruncate. apply (wp_ext (only FSystem) (lc_ftruncate _ _)). apply wp_bind. case_match; [|done].
  apply wp_ret, wp_modify. simpl. split; [apply rep_ext; [done|apply lc_ftruncate_live]|eauto].
Qed.

(** The part of the file a block is mapped on: right after the previous ones in
    the same file, or at the start of a new file, and inside the file. *)
Definition nv_mapped (b b' : Nvdimm) (p n : Z) : Prop := exists off x,
  p = (lc_mmap (nv_fileFD b') off n x).1 /\ nv_fileOffset b' = off + n /\ off + n <= nv_fileSize b' /\
  ((off = nv_fileOffset b /\ nv_fileFD b' = nv_fileFD b /\ nv_fileSize b' = nv_fileSize b) \/
   (off = 0 /\ nv_fileSize b' = next_size (nv_fileSize b) n)).

(** The file used by the next block. *)
Lemma wp_nv_file s b used own rest n :
  sys_rep s (own ∪ rest) -> Nvdimm_inv b used own -> 0 < n <= nvdimm_max ->
  wp resource (if nv_fileOffset b +u n >? nv_fileSize b then openNewFile n else ret tt)
    (fun _ sb => sys_rep sb.1 (own ∪ rest) /\ Nvdimm_inv sb.2 used own /\ nv_fileOffset sb.2 + n <= nv_fileSize sb.2 /\
       (sb.2 = b \/ (nv_fileOffset sb.2 = 0 /\ nv_fileSize sb.2 = next_size (nv_fileSize b) n))) (s, b).
Proof.
  intros Hr [Hp Hc Ho Hb] Hn. assert (8 * nvdimm_max + nvdimm_max < two64) as Hmax by (unfold nvdimm_max; rewrite two64_eq; lia).
  rewrite u64_small by lia. destruct (nv_fileOffset b + n >? nv_fileSize b) eqn:E.
  - eapply wp_mono; [eapply wp_weaken; [|by apply (wp_openNewFile s b (own ∪ rest) n)]; intros f ->; by right|].
    intros _ [s1 b1] (Hr1 & fd & Hb1). simpl in *. subst b1. pose proof (next_size_ok (nv_fileSize b) n ltac:(lia) Hn).
    split; [done|]. split; [constructor; simpl; try done; lia|]. simpl. split; [lia|]. by right.
  - apply wp_ret. split; [done|]. split; [by constructor|]. simpl. split; [lia|]. by left.
Qed.

Lemma wp_Nvdimm_allocate s b used own rest n :
  sys_rep s (own ∪ rest) -> own ##ₘ rest -> Nvdimm_inv b used own -> 0 < n <= nvdimm_max -> (4096 | n) ->
  wp resource (Nvdimm_allocate n)
    (fun p sb => used !! p = None /\ (exists own', sys_rep sb.1 (own' ∪ rest) /\ own' ##ₘ rest /\
       Nvdimm_inv sb.2 (<[p := n]> used) own') /\ nv_mapped b sb.2 p n) (s, b).
Proof.
  intros Hr Hd Hinv Hn Hu. unfold Nvdimm_allocate. apply wp_bind, wp_guard; [lia|].
  apply wp_bind, wp_guard; [apply Z.mod_divide in Hu; lia|]. apply wp_bind, wp_gets. cbn [snd].
  apply wp_bind. eapply wp_mono; [by apply (wp_nv_file s b used own rest n)|].
  intros _ [s1 b1] (Hr1 & Hinv1 & Hfit & Hfile). cbn [fst snd] in *. destruct Hinv1 as [-> Hc Ho Hb].
  assert (8 * nvdimm_max + nvdimm_max < two64) as Hmax by (unfold nvdimm_max; rewrite two64_eq; lia).
  apply wp_bind, wp_gets, wp_bind, wp_modify, wp_bind, wp_gets, wp_bind, wp_guard; cbn [fst snd nv_fileOffset nv_fileSize].
  { rewrite u64_small by lia. lia. }
  unfold mmap. apply wp_bind. cbn [nv_fileFD]. apply (wp_ext resource (lc_mmap _ _ n)).
  pose proof (lc_mmap_ok (s_ext s1) (nv_fileFD b1) (nv_fileOffset b1) n ltac:(lia)) as Hm.
  set (r := lc_mmap _ _ n (s_ext s1)) in *. apply wp_bind. unfold guard_. destruct (r.1 =? MAP_FAILED); [by left|].
  destruct Hm as [Hf Hl]. apply wp_ret. cbn [nv_lfDomain]. eapply take_block; [exact Hr1|done|exact Hf|exact Hl|].
  intros s' Hfresh Hr' Hd'. apply wp_bind, wp_modify, wp_ret. cbn [fst snd]. split; [done|]. split.
  - eexists. split; [exact Hr'|]. split; [done|]. constructor; simpl; try done.
    + rewrite Hc, map_size_insert_None by done. pose proof (plain_count _ _ _ _ Hr' Hd') as Hcnt.
      rewrite map_size_insert_None in Hcnt by done. rewrite u64_small; lia.
    + rewrite u64_small; lia.
  - exists (nv_fileOffset b1), (s_ext s1). simpl. split; [done|]. rewrite u64_small by lia. split; [done|]. split; [done|].
    destruct Hfile as [->|[? ?]]; [by left|by right].
Qed.

(** A block of a backend that counts its chunks. *)
Lemma chunks_pos used p (n : Z) : used !! p = Some n -> (0 < size used)%nat.
Proof. intros Hp. destruct (size used) eqn:E; [|lia]. apply map_size_empty_inv in E. by rewrite E in Hp. Qed.

Lemma wp_Nvdimm_deallocate s b used own rest p n :
  sys_rep s (own ∪ rest) -> own ##ₘ rest -> Nvdimm_inv b used own -> used !! p = Some n -> (4096 | n) ->
  wp never (Nvdimm_deallocate p n)
    (fun _ sb => exists own', sys_rep sb.1 (own' ∪ rest) /\ own' ##ₘ rest /\ Nvdimm_inv sb.2 (delete p used) own') (s, b).
Proof.
  intros Hr Hd [-> Hc Ho Hb] Hp Hu. destruct (rep_range _ _ _ _ _ Hr (own_lookup _ rest _ _ (plain_lookup _ _ _ _ Hp))) as (? & ? & _).
  pose proof (chunks_pos _ _ _ Hp) as Hpos. pose proof (plain_count _ _ _ _ Hr Hd) as Hcnt.
  unfold Nvdimm_deallocate. apply wp_bind, wp_guard; [lia|]. apply wp_bind, wp_guard; [lia|].
  apply wp_bind, wp_guard; [apply Z.mod_divide in Hu; lia|]. apply wp_bind, wp_gets. cbn [snd]. apply wp_bind, wp_guard; [lia|].
  apply wp_bind. eapply (wp_unregister_if b (nv_lfDomain b)); [exact Hr|by apply own_lookup, plain_lookup|].
  intros s' Hs'. unfold munmap. apply wp_bind, wp_on_sys, wp_modify, wp_modify. cbn [fst snd].
  destruct (give_block _ s' used rest p n (lc_munmap p n) Hs' Hd Hp) as [Hr' Hd']; [intros x; apply lc_munmap_ok|].
  eexists. split; [exact Hr'|]. split; [done|]. constructor; simpl; try done.
  rewrite Hc, map_size_delete_Some by eauto. rewrite u64_small; lia.
Qed.

#[export] Program Instance Nvdimm_ok : BackendOk X Nvdimm := {
  mb_unit := 4096; mb_max := nvdimm_max; mb_inv := Nvdimm_inv }.
Next Obligation. lia. Qed.
Next Obligation. unfold nvdimm_max. rewrite two64_eq. lia. Qed.
Next Obligation. intros b used own p n [-> _ _ _] Hp. eexists. by apply plain_lookup. Qed.
Next Obligation.
  intros. eapply wp_mono; [by eapply wp_Nvdimm_allocate|]. intros p sb (? & ? & _). done.
Qed.
Next Obligation. intros. by eapply wp_Nvdimm_deallocate. Qed.

(** *** MemoryBackendNvdimmGrow *)
Definition Grow_inv (b : NvdimmGrow) used own : Prop :=
  own = plain (ng_lfDomain b) used /\ ng_chunks b = Z.of_nat (size used).

Lemma wp_Grow_allocate s b used own rest n :
  sys_rep s (own ∪ rest) -> own ##ₘ rest -> Grow_inv b used own -> 0 < n -> (4096 | n) ->
  wp resource (NvdimmGrow_allocate n)
    (fun p sb => used !! p = None /\ exists own', sys_rep sb.1 (own' ∪ rest) /\ own' ##ₘ rest /\
       Grow_inv sb.2 (<[p := n]> used) own') (s, b).
Proof.
  intros Hr Hd [-> Hc] Hn Hu. unfold NvdimmGrow_allocate. apply wp_bind, wp_guard; [lia|].
  apply wp_bind, wp_guard; [apply Z.mod_divide in Hu; lia|]. apply wp_bind, wp_gets, wp_bind, wp_modify, wp_bind, wp_gets.
  cbn [fst snd ng_fileFD ng_fileSize]. unfold ftruncate. apply wp_bind, (wp_ext resource (lc_ftruncate _ _)).
  set (s1 := set_ext _ s). assert (sys_rep s1 (plain (ng_lfDomain b) used ∪ rest)) as Hr1 by (apply rep_ext; [done|apply lc_ftruncate_live]).
  apply wp_bind. unfold guard_ at 1. case_match; [|by right]. apply wp_ret. unfold mmap. apply wp_bind, (wp_ext resource (lc_mmap _ _ n)).
  pose proof (lc_mmap_ok (s_ext s1) (ng_fileFD b) (ng_fileSize b) n ltac:(lia)) as Hm.
  set (r := lc_mmap _ _ n (s_ext s1)) in *. apply wp_bind. unfold guard_. destruct (r.1 =? MAP_FAILED); [by left|].
  destruct Hm as [Hf Hl]. apply wp_ret. cbn [ng_lfDomain]. eapply take_block; [exact Hr1|done|exact Hf|exact Hl|].
  intros s' Hfresh Hr' Hd'. apply wp_bind, wp_modify, wp_ret. cbn [fst snd]. split; [done|].
  eexists. split; [exact Hr'|]. split; [done|]. split; [done|]. simpl.
  rewrite Hc, map_size_insert_None by done. pose proof (plain_count _ _ _ _ Hr' Hd') as Hcnt.
  rewrite map_size_insert_None in Hcnt by done. rewrite u64_small; lia.
Qed.

Lemma wp_Grow_deallocate s b used own rest p n :
  sys_rep s (own ∪ rest) -> own ##ₘ rest -> Grow_inv b used own -> used !! p = Some n -> (4096 | n) ->
  wp never (NvdimmGrow_deallocate p n)
    (fun _ sb => exists own', sys_rep sb.1 (own' ∪ rest) /\ own' ##ₘ rest /\ Grow_inv sb.2 (delete p used) own') (s, b).
Proof.
  intros Hr Hd [-> Hc] Hp Hu. destruct (rep_range _ _ _ _ _ Hr (own_lookup _ rest _ _ (plain_lookup _ _ _ _ Hp))) as (? & ? & _).
  pose proof (chunks_pos _ _ _ Hp) as Hpos. pose proof (plain_count _ _ _ _ Hr Hd) as Hcnt.
  unfold NvdimmGrow_deallocate. apply wp_bind, wp_guard; [lia|]. apply wp_bind, wp_guard; [lia|].
  apply wp_bind, wp_guard; [apply Z.mod_divide in Hu; lia|]. apply wp_bind, wp_gets. cbn [snd]. apply wp_bind, wp_guard; [lia|].
  apply wp_bind. eapply (wp_unregister_if b (ng_lfDomain b)); [exact Hr|by apply own_lookup, plain_lookup|].
  intros s' Hs'. unfold munmap. apply wp_bind, wp_on_sys, wp_modify, wp_modify. cbn [fst snd].
  destruct (give_block _ s' used rest p n (lc_munmap p n) Hs' Hd Hp) as [Hr' Hd']; [intros x; apply lc_munmap_ok|].
  eexists. split; [exact Hr'|]. split; [done|]. split; [done|]. simpl.
  rewrite Hc, map_size_delete_Some by eauto. rewrite u64_small; lia.
Qed.

#[export] Program Instance Grow_ok : BackendOk X NvdimmGrow := {
  mb_unit := 4096; mb_max := two64 - 1; mb_inv := Grow_inv }.
Next Obligation. lia. Qed.
Next Obligation. rewrite two64_eq. lia. Qed.
Next Obligation. intros b used own p n [-> _] Hp. eexists. by apply plain_lookup. Qed.
Next Obligation. intros. by eapply wp_Grow_allocate; try lia. Qed.
Next Obligation. intros. by eapply wp_Grow_deallocate. Qed.

(** an allocation of the nvdimm backend below 2^60 bytes, a multiple of the
    page, returns a fresh block (or stops for lack of resources): its assertions
    hold, the block is mapped right after the previous ones of the file or at
    the start of a new file, always inside the file, so that no two blocks share
    bytes of a file, and the number of chunks is the number of blocks. *)
Theorem Nvdimm_allocate_correct s b used own rest n :
  sys_rep s (own ∪ rest) -> own ##ₘ rest -> Nvdimm_inv b used own -> 0 < n <= nvdimm_max -> (4096 | n) ->
  wp resource (Nvdimm_allocate n)
    (fun p sb => used !! p = None /\ nv_mapped b sb.2 p n /\ getChunks sb.2 = Z.of_nat (size used) + 1 /\
       exists own', sys_rep sb.1 (own' ∪ rest) /\ own' ##ₘ rest /\ Nvdimm_inv sb.2 (<[p := n]> used) own') (s, b).
Proof.
  intros Hr Hd Hinv Hn Hu. eapply wp_mono; [by apply (wp_Nvdimm_allocate s b used own rest n)|].
  intros p sb (Hf & (own' & Hr' & Hd' & Hinv') & Hm). split; [done|]. split; [done|]. split; [|eauto].
  unfold getChunks. rewrite (nv_count _ _ _ Hinv'), map_size_insert_None by done. lia.
Qed.
End proofs.
End MemoryBackend.
