(* ===== verification/MemoryCache.v ===== *)
(** * MemoryBackendCache

    Model of src/src/server/backends/MemoryBackendCache.cpp: blocks given back are
    kept in a free list per size and handed out again; everything goes back to
    the backend underneath only when the cache is destroyed. *)

From S2P Require Import Prelude StdMap Memory IntervalMap System LibfabricDomain MemoryBackend.

Module MemoryCache.
Import LibfabricDomain MemoryBackend.

(** class MemoryBackendCache *)
Record Cache {B : Type} : Type := mkCache {
  ca_backend : B;
  ca_freeLists : stdmap Z (list Z);
  ca_rangesTracker : stdmap Z Z;
}.
Arguments Cache : clear implicits.
Arguments mkCache {B}.

(** MemoryBackendCache::MemoryBackendCache *)
Definition new_Cache {B} (backend : B) : Cache B := mkCache backend [] [].

Section cache.
Context {X B : Type} `{Backend X B}.
Abbreviation S := (Sys X * Cache B)%type.

(** A call on the backend underneath. *)
Definition on_sub {A} (m : M (Sys X * B) A) : M S A := fun sc =>
  match m (sc.1, ca_backend sc.2) with
  | Ok (a, (s, b)) => Ok (a, (s, mkCache b (ca_freeLists sc.2) (ca_rangesTracker sc.2)))
  | Abort f => Abort f
  end.

(** MemoryBackendCache::isLocalMemory *)
Definition isLocalMemory (ptr size : Z) : M S bool :=
  assert_ (negb (ptr =? 0)) ;;
  assert_ (size >? 0) ;;
  assert_ (size mod 4096 =? 0) ;;
  let! c := gets snd in
  match sm_find ptr (ca_rangesTracker c) with
  | None => ret false
  | Some sz => assert_ (sz =? size) ;; ret true
  end.

(** The list [freeLists[size]], created when there is none. *)
Definition free_list (size : Z) (c : Cache B) : list Z :=
  match sm_find size (ca_freeLists c) with Some l => l | None => [] end.
Definition set_free (size : Z) (l : list Z) (c : Cache B) : Cache B :=
  mkCache (ca_backend c) (sm_insert size l (ca_freeLists c)) (ca_rangesTracker c).

(** MemoryBackendCache::allocate *)
Definition Cache_allocate (size : Z) : M S Z :=
  assert_ (size >? 0) ;;
  let! c := gets snd in
  let freeList := free_list size c in
  fields (set_free size freeList) ;;
  match freeList with
  | [] =>
      let! ptr := on_sub (mb_allocate size) in
      fields (fun c => mkCache (ca_backend c) (ca_freeLists c) (sm_insert ptr size (ca_rangesTracker c))) ;;
      ret ptr
  | ptr :: freeList' =>
      fields (set_free size freeList') ;;
      ret ptr
  end.

(** MemoryBackendCache::deallocate *)
Definition Cache_deallocate (addr size : Z) : M S unit :=
  assert_ (negb (addr =? 0)) ;;
  assert_ (size >? 0) ;;
  let! local := isLocalMemory addr size in
  assert_ local ;;
  fields (fun c => set_free size (addr :: free_list size c) c).

(** MemoryBackendCache::~MemoryBackendCache, but for the destruction of the
    backend underneath *)
Definition destroy_Cache : M S unit :=
  let! c := gets snd in
  let cnt := foldl (fun cnt it => cnt + Z.of_nat (length it.2)) 0 (ca_freeLists c) in
  assert_ (cnt =? Z.of_nat (length (ca_rangesTracker c))) ;;
  for_each (ca_rangesTracker c) (fun it => on_sub (mb_deallocate it.1 it.2)) ;;
  fields (fun c => mkCache (ca_backend c) [] []).

#[export] Instance Cache_backend : Backend X (Cache B) := {
  mb_allocate := Cache_allocate; mb_deallocate := Cache_deallocate }.
End cache.

Section proofs.
Context {X B : Type} `{LibfabricOk X} `{!Backend X B} `{!BackendOk X B}.
Implicit Types (s : Sys X) (c : Cache B) (used : gmap Z Z) (own rest : heap).

Definition cache_unit : Z := Z.lcm 4096 mb_unit.

(** A block waits in the free list of its size. *)
Definition is_free c (p n : Z) : Prop := p ∈ free_list n c.

(** The blocks taken from the backend underneath are those handed out and those
    that wait in the free lists. *)
Record Cache_inv c used own : Prop := {
  ci_sub : exists sub, mb_inv (ca_backend c) sub own /\
    (forall p n, sm_find p (ca_rangesTracker c) = Some n <-> sub !! p = Some n) /\
    (forall p n, sub !! p = Some n <-> used !! p = Some n \/ is_free c p n);
  ci_ranges : sm_ok (ca_rangesTracker c);
  ci_lists : sm_ok (ca_freeLists c);
  ci_nodup : forall n, NoDup (free_list n c);
  ci_apart : forall p n, is_free c p n -> used !! p = None;
  ci_unit : forall p n, sm_find p (ca_rangesTracker c) = Some n -> (cache_unit | n);
}.

(** A cache just made has nothing out. *)
Lemma new_Cache_inv (b : B) own : mb_inv b ∅ own -> Cache_inv (new_Cache b) ∅ own.
Proof.
  intros Hb. constructor; try done.
  - exists ∅. split; [done|]. split; [done|]. intros p n. rewrite !lookup_empty. split; [done|].
    intros [?|Hf]; [done|]. by apply elem_of_nil in Hf.
  - constructor.
  - constructor.
  - intros n. constructor.
Qed.

Lemma wp_on_sub F {A} (m : M (Sys X * B) A) (Q : A -> Sys X * Cache B -> Prop) s c :
  wp F m (fun a sb => Q a (sb.1, mkCache sb.2 (ca_freeLists c) (ca_rangesTracker c))) (s, ca_backend c) ->
  wp F (on_sub m) Q (s, c).
Proof. unfold wp, on_sub. simpl. by destruct (m _) as [[a [s' b]]|f]. Qed.

Lemma free_list_set n l c m : free_list m (set_free n l c) = if decide (m = n) then l else free_list m c.
Proof.
  unfold free_list, set_free. simpl. case_decide as E; [subst; by rewrite sm_find_insert_eq|by rewrite sm_find_insert_ne].
Qed.

(** Creating an empty list changes nothing. *)
Lemma touch_list c n used own : Cache_inv c used own -> Cache_inv (set_free n (free_list n c) c) used own.
Proof.
  intros [Hs Hr Hl Hn Ha Hu].
  assert (forall m, free_list m (set_free n (free_list n c) c) = free_list m c) as Heq.
  { intros m. rewrite free_list_set. by case_decide; subst. }
  constructor; simpl; try done.
  - destruct Hs as (sub & Hi & H3 & H4). exists sub. split; [done|]. split; [done|]. intros p m. unfold is_free. rewrite Heq. apply H4.
  - by apply sm_ok_insert.
  - intros m. rewrite Heq. done.
  - intros p m. unfold is_free. rewrite Heq. apply Ha.
Qed.

(** [K] is what the backend underneath keeps of the system and of its blocks. *)
Lemma wp_Cache_allocate_keeps (K : Sys X -> heap -> Prop) s c used own rest n :
  (forall sub, mb_inv (ca_backend c) sub own -> (mb_unit | n) ->
     wp resource (mb_allocate n)
       (fun p sb => sub !! p = None /\ exists own', sys_rep sb.1 (own' ∪ rest) /\ own' ##ₘ rest /\
          mb_inv sb.2 (<[p := n]> sub) own' /\ K sb.1 own') (s, ca_backend c)) ->
  K s own -> sys_rep s (own ∪ rest) -> own ##ₘ rest -> Cache_inv c used own -> 0 < n -> (cache_unit | n) ->
  wp resource (Cache_allocate n)
    (fun p sb => used !! p = None /\ exists own', sys_rep sb.1 (own' ∪ rest) /\ own' ##ₘ rest /\
       Cache_inv sb.2 (<[p := n]> used) own' /\ K sb.1 own') (s, c).
Proof.
  intros Hsuballoc HK Hr Hd Hinv Hn Hu. unfold Cache_allocate. apply wp_bind, wp_guard; [lia|]. apply wp_bind, wp_gets. cbn [snd].
  apply wp_bind, wp_modify. cbn [fst snd]. pose proof (touch_list c n _ _ Hinv) as [Hs Hrg Hl Hnd Ha Hun]. clear Hinv.
  assert (free_list n (set_free n (free_list n c) c) = free_list n c) as Hfl by (rewrite free_list_set; by rewrite decide_True).
  set (c1 := set_free n (free_list n c) c) in *. rewrite <- Hfl. change (ca_backend c) with (ca_backend c1) in Hsuballoc. clearbody c1. clear Hfl.
  destruct Hs as (sub & Hi & Hsub & Hpart). destruct (free_list n c1) as [|ptr l] eqn:Efl.
  - apply wp_bind, wp_on_sub.
    eapply wp_mono; [eapply (Hsuballoc sub Hi)|].
    { eapply Z.divide_trans; [apply Z.divide_lcm_r|exact Hu]. }
    intros p [s' b'] (Hfresh & own' & Hr' & Hd' & Hi' & HK'). cbn [fst snd] in *. apply wp_bind, wp_modify, wp_ret. cbn [fst snd ca_backend ca_freeLists ca_rangesTracker].
    assert (used !! p = None) as Hup.
    { destruct (used !! p) as [m|] eqn:E; [|done]. assert (sub !! p = Some m) by (apply Hpart; by left). congruence. }
    split; [done|]. exists own'. split; [done|]. split; [done|]. split; [|done].
    assert (forall q m, is_free c1 q m -> q <> p) as Hfp by (intros q m Hq ->; assert (sub !! p = Some m) by (apply Hpart; by right); congruence).
    constructor; simpl; try done.
    + exists (<[p := n]> sub). split; [done|]. split; intros q m.
      * destruct (decide (q = p)) as [->|Hne]; [by rewrite sm_find_insert_eq, lookup_insert_eq|].
        by rewrite sm_find_insert_ne, lookup_insert_ne.
      * destruct (decide (q = p)) as [->|Hne]; [|by rewrite !lookup_insert_ne].
        rewrite !lookup_insert_eq. split; [by left|]. intros [?|Hq]; [done|]. by destruct (Hfp _ _ Hq).
    + by apply sm_ok_insert.
    + intros q m Hq. rewrite lookup_insert_ne; [by eapply Ha|]. apply not_eq_sym. by eapply Hfp.
    + intros q m. destruct (decide (q = p)) as [->|Hne]; [rewrite sm_find_insert_eq; by intros [= <-]|].
      rewrite sm_find_insert_ne by done. apply Hun.
  - assert (is_free c1 ptr n) as Hptr by (unfold is_free; rewrite Efl; by left).
    pose proof (Ha _ _ Hptr) as Hup. pose proof (Hnd n) as Hnd'. rewrite Efl in Hnd'. apply NoDup_cons in Hnd' as [Hnin Hnd'].
    assert (forall q m, is_free (set_free n l c1) q m <-> is_free c1 q m /\ q <> ptr) as Hfree.
    { intros q m. unfold is_free. rewrite free_list_set. case_decide as E; [subst m|].
      - rewrite Efl, elem_of_cons. split; [|tauto]. intros Hq. split; [by right|]. by intros ->.
      - split; [|tauto]. intros Hq. split; [done|]. intros ->.
        assert (sub !! ptr = Some n) by (apply Hpart; by right). assert (sub !! ptr = Some m) by (apply Hpart; by right). congruence. }
    apply wp_bind, wp_modify, wp_ret. cbn [fst snd]. split; [done|]. exists own. split; [done|]. split; [done|]. split; [|done]. constructor; simpl; try done.
    + exists sub. split; [done|]. split; [done|]. intros q m. rewrite Hpart, Hfree. destruct (decide (q = ptr)) as [->|Hne].
      * rewrite lookup_insert_eq, Hup. split.
        -- intros [?|Hq]; [done|]. left. assert (sub !! ptr = Some n) by (apply Hpart; by right).
           assert (sub !! ptr = Some m) by (apply Hpart; by right). congruence.
        -- intros [[= <-]|[_ ?]]; [by right|done].
      * rewrite lookup_insert_ne by done. tauto.
    + by apply sm_ok_insert.
    + intros m. rewrite free_list_set. by case_decide.
    + intros q m [Hq Hne]%Hfree. rewrite lookup_insert_ne by done. by eapply Ha.
Qed.

Lemma wp_Cache_allocate s c used own rest n :
  sys_rep s (own ∪ rest) -> own ##ₘ rest -> Cache_inv c used own -> 0 < n <= mb_max -> (cache_unit | n) ->
  wp resource (Cache_allocate n)
    (fun p sb => used !! p = None /\ exists own', sys_rep sb.1 (own' ∪ rest) /\ own' ##ₘ rest /\
       Cache_inv sb.2 (<[p := n]> used) own') (s, c).
Proof.
  intros Hr Hd Hinv Hn Hu. eapply wp_mono; [apply (wp_Cache_allocate_keeps (fun _ _ => True) s c used own rest n); try done; [|lia]|].
  - intros sub Hi Hu'. eapply wp_mono; [by eapply mb_allocate_ok|]. intros p sb (Hf & own' & ? & ? & ?). split; [done|]. by exists own'.
  - intros p sb (Hf & own' & ? & ? & ? & _). split; [done|]. by exists own'.
Qed.

Lemma wp_Cache_deallocate s c used own rest p n :
  sys_rep s (own ∪ rest) -> own ##ₘ rest -> Cache_inv c used own -> used !! p = Some n -> (cache_unit | n) ->
  wp never (Cache_deallocate p n)
    (fun _ sb => sb.1 = s /\ Cache_inv sb.2 (delete p used) own) (s, c).
Proof.
  intros Hr Hd [Hs Hrg Hl Hnd Ha Hun] Hp Hu. destruct Hs as (sub & Hi & Hsub & Hpart).
  assert (sub !! p = Some n) as Hsp by (apply Hpart; by left). destruct (mb_own _ _ _ _ _ Hi Hsp) as [r Ho].
  destruct (rep_range _ _ _ _ _ Hr (own_lookup _ rest _ _ Ho)) as (? & ? & _).
  assert (n mod 4096 = 0) as H4096.
  { apply Z.mod_divide; [lia|]. eapply Z.divide_trans; [apply Z.divide_lcm_l|exact Hu]. }
  unfold Cache_deallocate, isLocalMemory. apply wp_bind, wp_guard; [lia|]. apply wp_bind, wp_guard; [lia|].
  apply wp_bind, wp_bind, wp_guard; [lia|]. apply wp_bind, wp_guard; [lia|]. apply wp_bind, wp_guard; [lia|]. apply wp_bind, wp_gets. cbn [snd].
  rewrite (proj2 (Hsub p n) Hsp). apply wp_bind, wp_guard; [lia|]. apply wp_ret, wp_bind, wp_guard; [done|]. apply wp_modify. cbn [fst snd].
  assert (forall m, ~ is_free c p m) as Hpf by (intros m Hq%Ha; congruence).
  assert (forall q m, is_free (set_free n (p :: free_list n c) c) q m <-> is_free c q m \/ (q = p /\ m = n)) as Hfree.
  { intros q m. unfold is_free. rewrite free_list_set. case_decide as E; [subst m; rewrite elem_of_cons|]; intuition. }
  split; [done|]. constructor; simpl; try done.
  - exists sub. split; [done|]. split; [done|]. intros q m. rewrite Hpart, Hfree. destruct (decide (q = p)) as [->|Hne].
    + rewrite lookup_delete_eq, Hp. split.
      * intros [[= <-]|Hq]; [tauto|]. by destruct (Hpf m).
      * intros [?|[?|[_ ->]]]; [done|by right|by left].
    + rewrite lookup_delete_ne by done. tauto.
  - by apply sm_ok_insert.
  - intros m. rewrite free_list_set. case_decide; [|done]. apply NoDup_cons. split; [apply (Hpf n)|done].
  - intros q m [Hq|[-> ->]]%Hfree; [|apply lookup_delete_eq]. rewrite lookup_delete_ne; [by eapply Ha|]. intros <-. by destruct (Hpf m).
Qed.

#[export] Program Instance Cache_ok : BackendOk X (Cache B) := {
  mb_unit := cache_unit; mb_max := mb_max; mb_inv := Cache_inv }.
Next Obligation. unfold cache_unit. pose proof (Z.lcm_nonneg 4096 mb_unit). pose proof mb_unit_pos.
  assert (Z.lcm 4096 mb_unit <> 0); [|lia]. rewrite Z.lcm_eq_0. lia. Qed.
Next Obligation. apply mb_max_bounds. Qed.
Next Obligation.
  intros c used own p n [(sub & Hi & _ & Hpart) _ _ _ _ _] Hp. eapply mb_own; [exact Hi|]. apply Hpart. by left.
Qed.
Next Obligation. intros. by eapply wp_Cache_allocate. Qed.
Next Obligation.
  intros s b used own rest p n Hr Hd Hi Hp Hu. eapply wp_mono; [by eapply wp_Cache_deallocate|]. intros _ sb [-> Hi']. by exists own.
Qed.

(** *** Destruction *)
Lemma NoDup_lists (m : stdmap Z (list Z)) :
  sm_ok m -> (forall n l, In (n, l) m -> NoDup l) ->
  (forall n l n' l' p, In (n, l) m -> In (n', l') m -> p ∈ l -> p ∈ l' -> n = n') ->
  NoDup (concat (snd <$> m)).
Proof.
  induction m as [|[n l] m IH]; simpl; [constructor|]. intros [Hok Hall]%sm_ok_cons Hl Hd. apply NoDup_app. split_and!.
  - eapply Hl. by left.
  - intros p Hp Hp'. apply list_elem_of_In, in_concat in Hp' as (l' & Hl' & Hp').
    apply list_elem_of_In, list_elem_of_fmap in Hl' as ([n' l''] & -> & Hin%list_elem_of_In). simpl in Hp'.
    assert (n = n') as <- by (eapply Hd; [by left|right; exact Hin|done|by apply list_elem_of_In]).
    unfold all_greater in Hall. rewrite Forall_forall in Hall. apply list_elem_of_In, Hall in Hin. simpl in Hin. by rewrite less_irrefl in Hin.
  - apply IH; [done|eauto|]. intros. eapply Hd; eauto.
Qed.

Lemma count_lists (m : stdmap Z (list Z)) cnt :
  foldl (fun cnt it => cnt + Z.of_nat (length it.2)) cnt m = cnt + Z.of_nat (length (concat (snd <$> m))).
Proof.
  revert cnt. induction m as [|[n l] m IH]; intros cnt; [simpl; lia|].
  cbn [foldl]. rewrite IH, fmap_cons. cbn [concat snd]. rewrite length_app. lia.
Qed.

(** With nothing handed out, the free lists hold every range. *)
Lemma all_ranges_free c own :
  Cache_inv c ∅ own -> concat (snd <$> ca_freeLists c) ≡ₚ (fst <$> ca_rangesTracker c).
Proof.
  intros [(sub & Hi & Hsub & Hpart) Hr Hl Hnd _ _].
  assert (forall n l, In (n, l) (ca_freeLists c) <-> sm_find n (ca_freeLists c) = Some l) as Hfind by (intros; by rewrite sm_find_In).
  assert (forall p n l, In (n, l) (ca_freeLists c) -> p ∈ l -> is_free c p n) as Hfree.
  { intros p n l Hin%Hfind Hp. unfold is_free, free_list. by rewrite Hin. }
  assert (forall p n, is_free c p n <-> sub !! p = Some n) as Hiff by (intros; rewrite Hpart, lookup_empty; split; [by right|by intros [?|?]]).
  apply NoDup_Permutation.
  - apply NoDup_lists; [done| |].
    + intros n l Hin%Hfind. specialize (Hnd n). unfold free_list in Hnd. by rewrite Hin in Hnd.
    + intros n l n' l' p Hin Hin' Hp Hp'. pose proof (proj1 (Hiff _ _) (Hfree _ _ _ Hin Hp)). pose proof (proj1 (Hiff _ _) (Hfree _ _ _ Hin' Hp')). congruence.
  - clear - Hr. induction (ca_rangesTracker c) as [|[p n] m IH]; simpl; [constructor|]. apply sm_ok_cons in Hr as [Hr Hall].
    apply NoDup_cons. split; [|auto]. intros ([p' n'] & Heq & Hin)%list_elem_of_fmap. simpl in Heq. subst p'.
    unfold all_greater in Hall. rewrite Forall_forall in Hall. apply Hall in Hin. simpl in Hin. by rewrite less_irrefl in Hin.
  - intros p. split.
    + intros Hp. apply list_elem_of_In, in_concat in Hp as (l & Hl' & Hp).
      apply list_elem_of_In, list_elem_of_fmap in Hl' as ([n l'] & -> & Hin%list_elem_of_In).
      apply list_elem_of_In, (Hfree _ _ _ Hin) in Hp. apply Hiff, Hsub, (sm_find_In _ _ _ Hr) in Hp.
      apply list_elem_of_fmap. exists (p, n). split; [done|]. by apply list_elem_of_In.
    + intros ([p' n] & -> & Hin%list_elem_of_In)%list_elem_of_fmap. simpl. apply (sm_find_In _ _ _ Hr), Hsub, Hiff in Hin.
      apply list_elem_of_In, in_concat. unfold is_free, free_list in Hin. destruct (sm_find n (ca_freeLists c)) as [l|] eqn:El; [|by apply not_elem_of_nil in Hin].
      exists l. split; [|by apply list_elem_of_In]. apply list_elem_of_In, list_elem_of_fmap. exists (n, l). split; [done|]. by apply list_elem_of_In, Hfind.
Qed.

(** when every block has come back, the destruction of the cache passes its
    check and gives every block back to the backend underneath, once each. *)
Theorem destroy_Cache_correct s c own rest :
  sys_rep s (own ∪ rest) -> own ##ₘ rest -> Cache_inv c ∅ own ->
  wp never destroy_Cache
    (fun _ sb => exists own', sys_rep sb.1 (own' ∪ rest) /\ own' ##ₘ rest /\ mb_inv (ca_backend sb.2) ∅ own') (s, c).
Proof.
  intros Hr Hd Hinv. pose proof (all_ranges_free _ _ Hinv) as Hperm.
  unfold destroy_Cache. apply wp_bind, wp_gets. cbn [snd]. apply wp_bind, wp_guard.
  { rewrite count_lists, Hperm, length_fmap. lia. }
  destruct Hinv as [(sub & Hi & Hsub & _) Hrg _ _ _ Hu]. apply wp_bind. eapply wp_mono.
  - apply (wp_for_each never (fun l sb => sm_ok l /\ (forall p n, In (p, n) l -> (cache_unit | n)) /\
      exists sub' own', sys_rep sb.1 (own' ∪ rest) /\ own' ##ₘ rest /\ mb_inv (ca_backend sb.2) sub' own' /\
      forall p n, sub' !! p = Some n <-> In (p, n) l)).
    + split; [done|]. split; [intros p n Hin; apply (Hu p), sm_find_In; done|]. exists sub, own. split; [done|]. split; [done|]. split; [done|].
      intros p n. by rewrite <- Hsub, sm_find_In.
    + intros [p n] l [s1 c1] (Hok & Hul & sub1 & own1 & Hr1 & Hd1 & Hi1 & Hiff). cbn [fst snd] in *. apply wp_on_sub.
      assert (sub1 !! p = Some n) as Hp by (apply Hiff; by left).
      eapply wp_mono; [eapply mb_deallocate_ok; [exact Hr1|done|exact Hi1|exact Hp|]|].
      { eapply Z.divide_trans; [apply Z.divide_lcm_r|]. apply (Hul p). by left. }
      intros _ [s2 b2] (own2 & Hr2 & Hd2 & Hi2). cbn [fst snd ca_backend] in *. pose proof Hok as [Hok' Hall]%sm_ok_cons.
      split; [done|]. split; [intros; eapply Hul; by right|]. exists (delete p sub1), own2. split; [done|]. split; [done|]. split; [done|].
      intros q m. rewrite lookup_delete_Some, Hiff. simpl. split.
      * intros [Hne [[= ? ?]|?]]; [congruence|done].
      * intros Hin. split; [|by right]. intros <-. unfold all_greater in Hall. rewrite Forall_forall in Hall.
        apply list_elem_of_In, Hall in Hin. simpl in Hin. by rewrite less_irrefl in Hin.
  - intros _ [s1 c1] (_ & _ & sub1 & own1 & Hr1 & Hd1 & Hi1 & Hiff). apply wp_modify. cbn [fst snd ca_backend] in *.
    exists own1. split; [done|]. split; [done|]. replace ∅ with sub1; [done|]. apply map_empty. intros p.
    apply eq_None_not_Some. intros [n Hn%Hiff]. done.
Qed.

(** a block given back is the next one handed out for its size, without a
    call to the system. *)
Theorem Cache_reuses s c used own rest p n :
  sys_rep s (own ∪ rest) -> own ##ₘ rest -> Cache_inv c used own -> used !! p = Some n -> (cache_unit | n) ->
  exists c', (Cache_deallocate p n ;; Cache_allocate n) (s, c) = Ok (p, (s, c')) /\ Cache_inv c' used own.
Proof.
  intros Hr Hd Hinv Hp Hu.
  destruct Hinv as [(sub & Hi & Hsub & Hpart) Hrg Hl Hnd Ha Hun].
  assert (sub !! p = Some n) as Hsp by (apply Hpart; by left). destruct (mb_own _ _ _ _ _ Hi Hsp) as [r Ho].
  destruct (rep_range _ _ _ _ _ Hr (own_lookup _ rest _ _ Ho)) as (? & ? & _).
  assert (Cache_deallocate p n (s, c) = Ok (tt, (s, set_free n (p :: free_list n c) c))) as Hrun.
  { assert (n mod 4096 = 0) as H4096.
    { apply Z.mod_divide; [lia|]. eapply Z.divide_trans; [apply Z.divide_lcm_l|exact Hu]. }
    assert ((p =? 0) = false) as E0 by lia. assert ((n >? 0) = true) as E1 by lia.
    unfold Cache_deallocate, isLocalMemory, bind, assert_, guard_, gets, ret. rewrite E0, E1, H4096. simpl.
    rewrite (proj2 (Hsub p n) Hsp), Z.eqb_refl. done. }
  unfold bind at 1. rewrite Hrun. unfold Cache_allocate, bind at 1, assert_, guard_. destruct (n >? 0) eqn:En; [|lia].
  unfold bind, gets, fields, modify, ret. cbn [fst snd]. rewrite free_list_set, decide_True by done. eexists. split; [reflexivity|].
  set (c2 := set_free _ _ _).
  assert (forall m, free_list m c2 = free_list m c) as Hsame by (intros m; unfold c2; rewrite !free_list_set; cbn [snd]; repeat case_decide; rewrite ?free_list_set, ?decide_False by done; subst; done).
  constructor; simpl; try done.
  - exists sub. split; [done|]. split; [done|]. intros q m. unfold is_free. rewrite Hsame. apply Hpart.
  - by repeat apply sm_ok_insert.
  - intros m. by rewrite Hsame.
  - intros q m. unfold is_free. rewrite Hsame. apply Ha.
Qed.
End proofs.
End MemoryCache.
