(* ===== verification/MemoryBalance.v ===== *)
(** * MemoryBackendBalance

    Model of src/src/server/backends/MemoryBackendBalance.cpp: the blocks are
    taken from the backend that has handed out the least memory, and go back to
    the one they come from. *)

From S2P Require Import Prelude StdMap Memory IntervalMap System LibfabricDomain MemoryBackend.

Module MemoryBalance.
Import LibfabricDomain MemoryBackend.

(** class MemoryBackendBalance *)
Record Balance {B : Type} : Type := mkBalance {
  ba_backends : list B;
  ba_backendMem : list Z;
  ba_backendOfMem : stdmap Z Z;
}.
Arguments Balance : clear implicits.
Arguments mkBalance {B}.

(** MemoryBackendBalance::MemoryBackendBalance *)
Definition new_Balance {B} : Balance B := mkBalance [] [] [].

(** MemoryBackendBalance::registerBackend *)
Definition registerBackend {B} (backend : B) (c : Balance B) : Balance B :=
  mkBalance (ba_backends c ++ [backend]) (ba_backendMem c ++ [0]) (ba_backendOfMem c).

(** The search of the least used backend: the elements from index [i] on. *)
Fixpoint search_min (mem : list Z) (i id : nat) (min : Z) : nat :=
  match mem with
  | [] => id
  | m :: mem' => if m <? min then search_min mem' (S i) i m else search_min mem' (S i) id min
  end.
Definition least (mem : list Z) : nat :=
  match mem with [] => 0%nat | m :: mem' => search_min mem' 1 0 m end.

(** MemoryBackendBalance::getMem *)
Definition getMem {X B} (id : Z) : M (Sys X * Balance B) Z :=
  let! c := gets snd in
  assert_ (id >=? 0) ;;
  assert_ (id <? Z.of_nat (length (ba_backendMem c))) ;;
  of_option FNullPointer (ba_backendMem c !! Z.to_nat id).

Section balance.
Context {X B : Type} `{Backend X B}.
Abbreviation S' := (Sys X * Balance B)%type.

(** A call on the backend of index [id]. *)
Definition on_nth {A} (id : nat) (m : M (Sys X * B) A) : M S' A := fun sc =>
  match ba_backends sc.2 !! id with
  | None => Abort FNullPointer
  | Some b =>
      match m (sc.1, b) with
      | Ok (a, (s, b')) => Ok (a, (s, mkBalance (<[id := b']> (ba_backends sc.2)) (ba_backendMem sc.2) (ba_backendOfMem sc.2)))
      | Abort f => Abort f
      end
  end.

Definition add_mem (id : nat) (d : Z) (c : Balance B) : Balance B :=
  mkBalance (ba_backends c) (alter (fun m => u64 (m + d)) id (ba_backendMem c)) (ba_backendOfMem c).

(** MemoryBackendBalance::allocate *)
Definition Balance_allocate (size : Z) : M S' Z :=
  let! c := gets snd in
  assert_ (Z.of_nat (length (ba_backends c)) >? 0) ;;
  let id := least (ba_backendMem c) in
  let! ptr := on_nth id (mb_allocate size) in
  fields (add_mem id size) ;;
  fields (fun c => mkBalance (ba_backends c) (ba_backendMem c) (sm_insert ptr (i32 (Z.of_nat id)) (ba_backendOfMem c))) ;;
  ret ptr.

(** MemoryBackendBalance::deallocate *)
Definition Balance_deallocate (addr size : Z) : M S' unit :=
  assert_ (negb (addr =? 0)) ;;
  assert_ (size >? 0) ;;
  let! c := gets snd in
  match sm_find addr (ba_backendOfMem c) with
  | None => abort FAssume
  | Some it =>
      let id := Z.to_nat (u64 it) in
      on_nth id (mb_deallocate addr size) ;;
      fields (fun c => mkBalance (ba_backends c) (ba_backendMem c) (sm_erase addr (ba_backendOfMem c))) ;;
      let! c := gets snd in
      let! m := of_option FNullPointer (ba_backendMem c !! id) in
      assert_ (m >=? size) ;;
      fields (add_mem id (- size))
  end.

#[export] Instance Balance_backend : Backend X (Balance B) := {
  mb_allocate := Balance_allocate; mb_deallocate := Balance_deallocate }.
End balance.

(** ** The search *)
Lemma search_min_spec mem pre id min :
  pre !! id = Some min -> (forall j m, pre !! j = Some m -> min <= m) -> (forall j m, pre !! j = Some m -> (j < id)%nat -> min < m) ->
  exists m, (pre ++ mem) !! search_min mem (length pre) id min = Some m /\
    (forall j m', (pre ++ mem) !! j = Some m' -> m <= m') /\
    (forall j m', (pre ++ mem) !! j = Some m' -> (j < search_min mem (length pre) id min)%nat -> m < m').
Proof.
  revert pre id min. induction mem as [|x mem IH]; intros pre id min Hid Hmin Hfirst; simpl.
  - rewrite app_nil_r. eauto.
  - pose proof (lookup_lt_Some _ _ _ Hid) as Hlt.
    assert (forall y j m', (pre ++ [y]) !! j = Some m' -> pre !! j = Some m' \/ (j = length pre /\ m' = y)) as Hsplit.
    { intros y j m' Hj. apply lookup_app_Some in Hj as [?|[? Hj]]; [by left|]. right.
      apply list_lookup_singleton_Some in Hj as [? ?]. split; [lia|done]. }
    replace (S (length pre)) with (length (pre ++ [x])) by (rewrite length_app; simpl; lia). replace (pre ++ x :: mem) with ((pre ++ [x]) ++ mem) by by rewrite <- app_assoc.
    destruct (x <? min) eqn:E.
    + apply IH.
      * rewrite lookup_app_r, Nat.sub_diag by lia. done.
      * intros j m' [Hj|[_ ->]]%Hsplit; [|lia]. specialize (Hmin _ _ Hj). lia.
      * intros j m' [Hj|[-> _]]%Hsplit; [|lia]. specialize (Hmin _ _ Hj). lia.
    + apply IH.
      * by apply lookup_app_l_Some.
      * intros j m' [Hj|[_ ->]]%Hsplit; [eauto|lia].
      * intros j m' [Hj|[-> _]]%Hsplit; [eauto|lia].
Qed.

Lemma least_spec mem :
  mem <> [] -> exists m, mem !! least mem = Some m /\ (forall j m', mem !! j = Some m' -> m <= m') /\
    (forall j m', mem !! j = Some m' -> (j < least mem)%nat -> m < m').
Proof.
  destruct mem as [|m mem]; [done|]. intros _. apply (search_min_spec mem [m] 0 m); [done| |].
  - intros [|j] m'; simpl; [intros [= <-]; lia|done].
  - intros; lia.
Qed.

(** ** The memory of a backend *)
Definition total (u : gmap Z Z) : Z := map_fold (fun _ n acc => n + acc) 0 u.

Lemma total_insert u p n : u !! p = None -> total (<[p := n]> u) = n + total u.
Proof. intros Hp. unfold total. rewrite map_fold_insert_L; [done| |done]. intros; lia. Qed.

Lemma total_delete u p n : u !! p = Some n -> total u = n + total (delete p u).
Proof. intros Hp. rewrite <- (total_insert (delete p u) p n) by apply lookup_delete_eq. by rewrite insert_delete_id. Qed.

Lemma total_nonneg u : (forall p n, u !! p = Some n -> 0 <= n) -> 0 <= total u.
Proof.
  induction u as [|p n u Hp IH] using map_ind; intros Hn; [done|]. rewrite total_insert by done.
  pose proof (Hn p n (lookup_insert_eq _ _ _)). assert (0 <= total u); [|lia]. apply IH. intros q k Hq. apply (Hn q).
  rewrite lookup_insert_ne; [done|]. intros ->. congruence.
Qed.

Section proofs.
Context {X B : Type} `{LibfabricOk X} `{!Backend X B} `{!BackendOk X B}.
Implicit Types (s : Sys X) (c : Balance B) (u used : gmap Z Z) (own rest : heap).

(** Disjoint blocks have together fewer bytes than there are addresses. *)
Lemma total_cover u :
  (forall p n, u !! p = Some n -> 0 < p /\ 0 < n /\ p + n < two64) ->
  (forall p n q k, u !! p = Some n -> u !! q = Some k -> p <> q -> disjoint p n q k) ->
  exists C : gset Z, Z.of_nat (size C) = total u /\ forall x, x ∈ C <-> exists p n, u !! p = Some n /\ p <= x < p + n.
Proof.
  induction u as [|p n u Hp IH] using map_ind; intros Hr Hd.
  - exists ∅. split; [done|]. intros x. split; [done|]. intros (p & n & Hp & _). by rewrite lookup_empty in Hp.
  - destruct IH as (C & Hs & HC).
    + intros q k Hq. apply Hr. rewrite lookup_insert_ne; [done|]. by intros ->; congruence.
    + intros q k q' k' Hq Hq'. apply Hd; rewrite lookup_insert_ne; try done; by intros ->; congruence.
    + destruct (Hr p n (lookup_insert_eq _ _ _)) as (? & ? & ?).
      exists (list_to_set (seqZ p n) ∪ C). split.
      * rewrite size_union.
        -- rewrite size_list_to_set, length_seqZ by apply NoDup_seqZ. rewrite total_insert by done. lia.
        -- intros x Hx%elem_of_list_to_set%elem_of_seqZ (q & k & Hq & Hx')%HC.
           assert (p <> q) as Hne by (intros ->; congruence).
           assert (disjoint p n q k) as Hdd by (apply (Hd p n q k); [apply lookup_insert_eq|by rewrite lookup_insert_ne|done]).
           unfold disjoint in Hdd. lia.
      * intros x. rewrite elem_of_union, elem_of_list_to_set, elem_of_seqZ, HC. split.
        -- intros [Hx|(q & k & Hq & Hx)]; [exists p, n; by rewrite lookup_insert_eq|]. exists q, k. split; [|done].
           rewrite lookup_insert_ne; [done|]. intros ->; congruence.
        -- intros (q & k & [[<- <-]|[_ Hq]]%lookup_insert_Some & Hx); [by left|]. right. eauto.
Qed.

Lemma total_bound s G u :
  sys_rep s G -> (forall p n, u !! p = Some n -> exists r, G !! p = Some (n, r)) -> total u < two64.
Proof.
  intros Hr Hu. destruct (total_cover u) as (C & <- & HC).
  - intros p n [r Hp]%Hu. by eapply rep_range.
  - intros p n q k [r Hp]%Hu [r' Hq]%Hu. by eapply rep_apart.
  - assert (C ⊆ (list_to_set (seqZ 1 (two64 - 1)) : gset Z)) as Hsub.
    { intros x (p & n & [r Hp]%Hu & Hx)%HC. apply elem_of_list_to_set, elem_of_seqZ. destruct (rep_range _ _ _ _ _ Hr Hp) as (? & ? & ?). lia. }
    apply subseteq_size in Hsub. rewrite size_list_to_set, length_seqZ in Hsub by apply NoDup_seqZ. pose proof two63_two64. lia.
Qed.

(** The blocks of the backends, each its own. *)
Inductive split_own : list heap -> heap -> Prop :=
| split_nil : split_own [] ∅
| split_cons o os own : split_own os own -> o ##ₘ own -> split_own (o :: os) (o ∪ own).

Lemma split_sub os own j o : split_own os own -> os !! j = Some o -> o ⊆ own.
Proof.
  intros Hs. revert j. induction Hs as [|o1 os own Hs IH Hd]; intros j Hj; [done|]. destruct j as [|j]; simpl in Hj.
  - injection Hj as ->. apply map_union_subseteq_l.
  - transitivity own; [eauto|by apply map_union_subseteq_r].
Qed.

Lemma split_nth os own i o :
  split_own os own -> os !! i = Some o -> exists others, own = o ∪ others /\ o ##ₘ others /\
    (forall j oj, j <> i -> os !! j = Some oj -> oj ⊆ others) /\
    forall o', o' ##ₘ others -> split_own (<[i := o']> os) (o' ∪ others).
Proof.
  intros Hs. revert i. induction Hs as [|o1 os own Hs IH Hd]; intros i Hi; [done|]. destruct i as [|i]; simpl in Hi.
  - injection Hi as ->. exists own. split; [done|]. split; [done|]. split; [|intros o' Hd'; by constructor].
    intros [|j] oj Hne Hj; [done|]. simpl in Hj. by eapply split_sub.
  - destruct (IH i Hi) as (others & -> & Hoo & Hsub & Hupd). apply map_disjoint_union_r in Hd as [Hd1 Hd2].
    exists (o1 ∪ others). split_and!.
    + rewrite !map_union_assoc. f_equal. by apply map_union_comm.
    + apply map_disjoint_union_r. done.
    + intros [|j] oj Hne Hj; simpl in Hj; [injection Hj as ->; apply map_union_subseteq_l|].
      transitivity others; [by apply (Hsub j); [lia|]|by apply map_union_subseteq_r].
    + intros o' [Hd3 Hd4]%map_disjoint_union_r. simpl.
      rewrite (map_union_assoc o' o1 others), (map_union_comm o' o1) by done. rewrite <- map_union_assoc. constructor; [auto|].
      apply map_disjoint_union_r. done.
Qed.

(** A block belongs to one backend. *)
Definition block_of (us : list (gmap Z Z)) (i : nat) (p n : Z) : Prop := exists u, us !! i = Some u /\ u !! p = Some n.

Record Balance_inv c used own : Prop := {
  bi_parts : exists us os, length us = length (ba_backends c) /\ length os = length (ba_backends c) /\ split_own os own /\
    (forall i b u o, ba_backends c !! i = Some b -> us !! i = Some u -> os !! i = Some o -> mb_inv b u o) /\
    (forall i m u, ba_backendMem c !! i = Some m -> us !! i = Some u -> m = total u) /\
    (forall p n, used !! p = Some n <-> exists i, block_of us i p n) /\
    (forall p z, sm_find p (ba_backendOfMem c) = Some z <-> exists i n, z = Z.of_nat i /\ block_of us i p n);
  bi_length : length (ba_backendMem c) = length (ba_backends c) /\ 0 < Z.of_nat (length (ba_backends c)) < 2147483648;
  bi_sorted : sm_ok (ba_backendOfMem c);
}.

(** A balance of backends that have nothing out. *)
Lemma registered_lists (bs : list B) c :
  let c' := foldl (fun c b => registerBackend b c) c bs in
  ba_backends c' = ba_backends c ++ bs /\ ba_backendMem c' = ba_backendMem c ++ replicate (length bs) 0 /\ ba_backendOfMem c' = ba_backendOfMem c.
Proof.
  revert c. induction bs as [|b bs IH]; intros c; simpl; [by rewrite !app_nil_r|].
  destruct (IH (registerBackend b c)) as (-> & -> & ->). simpl. by rewrite <- !app_assoc.
Qed.

Lemma split_empty n : split_own (replicate n ∅) ∅.
Proof.
  induction n as [|n IH]; simpl; [constructor|].
  pose proof (split_cons ∅ _ _ IH (map_disjoint_empty_l _)) as Hs. by rewrite map_empty_union in Hs.
Qed.

Lemma new_Balance_inv (bs : list B) :
  Forall (fun b => mb_inv b ∅ ∅) bs -> 0 < Z.of_nat (length bs) < 2147483648 ->
  Balance_inv (foldl (fun c b => registerBackend b c) new_Balance bs) ∅ ∅.
Proof.
  intros Hbs Hlen. destruct (registered_lists bs new_Balance) as (Eb & Em & Eo). simpl in Eb, Em, Eo.
  assert (forall i p n, ~ block_of (replicate (length bs) ∅) i p n) as Hno.
  { intros i p n (u & [-> _]%lookup_replicate & Hp). by rewrite lookup_empty in Hp. }
  constructor; rewrite ?Eb, ?Em, ?Eo; [|by rewrite length_replicate|constructor].
  exists (replicate (length bs) ∅), (replicate (length bs) ∅). rewrite !length_replicate. split; [done|]. split; [done|]. split; [apply split_empty|].
  split_and!.
  - intros i b u o Hb [-> _]%lookup_replicate [-> _]%lookup_replicate. rewrite Forall_lookup in Hbs. eauto.
  - intros i m u [-> _]%lookup_replicate [-> _]%lookup_replicate. done.
  - intros p n. rewrite lookup_empty. split; [done|]. by intros [i ?%Hno].
  - intros p z. split; [done|]. by intros (i & n & _ & ?%Hno).
Qed.

Lemma wp_on_nth F {A} (m : M (Sys X * B) A) id b (Q : A -> Sys X * Balance B -> Prop) s c :
  ba_backends c !! id = Some b ->
  wp F m (fun a sb => Q a (sb.1, mkBalance (<[id := sb.2]> (ba_backends c)) (ba_backendMem c) (ba_backendOfMem c))) (s, b) ->
  wp F (on_nth id m) Q (s, c).
Proof. intros Hb. unfold wp, on_nth. simpl. rewrite Hb. by destruct (m _) as [[a [s' b']]|f]. Qed.

Lemma block_of_update us id u u' i p n :
  us !! id = Some u ->
  block_of (<[id := u']> us) i p n <-> (i = id /\ u' !! p = Some n) \/ (i <> id /\ block_of us i p n).
Proof.
  intros Hu. pose proof (lookup_lt_Some _ _ _ Hu) as Hlt. unfold block_of. destruct (decide (i = id)) as [->|Hne].
  - rewrite list_lookup_insert_eq by done. split; [intros (x & [= <-] & ?); by left|]. intros [[_ ?]|[? _]]; [eauto|done].
  - rewrite list_lookup_insert_ne by done. split; [by right|]. by intros [[? _]|[_ ?]].
Qed.

(** The parts of the backend of index [id]. *)
Lemma parts_at {A D} (l : list A) (l' : list D) i x : length l' = length l -> l !! i = Some x -> exists y, l' !! i = Some y.
Proof. intros Hl Hi. apply lookup_lt_is_Some. rewrite Hl. by eapply lookup_lt_Some. Qed.

(** Replacing the parts of one backend. *)
Lemma Balance_update c us os id b u o (used' : gmap Z Z) u' o' b' m' ofMem' others :
  length us = length (ba_backends c) -> length os = length (ba_backends c) ->
  (forall i b u o, ba_backends c !! i = Some b -> us !! i = Some u -> os !! i = Some o -> mb_inv b u o) ->
  (forall i m u, ba_backendMem c !! i = Some m -> us !! i = Some u -> m = total u) ->
  length (ba_backendMem c) = length (ba_backends c) /\ 0 < Z.of_nat (length (ba_backends c)) < 2147483648 ->
  ba_backends c !! id = Some b -> us !! id = Some u -> os !! id = Some o ->
  split_own (<[id := o']> os) (o' ∪ others) -> mb_inv b' u' o' -> m' = total u' -> sm_ok ofMem' ->
  (forall q k, used' !! q = Some k <-> exists i, block_of (<[id := u']> us) i q k) ->
  (forall q z, sm_find q ofMem' = Some z <-> exists i k, z = Z.of_nat i /\ block_of (<[id := u']> us) i q k) ->
  Balance_inv (mkBalance (<[id := b']> (ba_backends c)) (<[id := m']> (ba_backendMem c)) ofMem') used' (o' ∪ others).
Proof.
  intros Hlu Hlo Hinv Hmem [Hlm Hpos] Hb Hu Ho Hsp Hi' Hm' Hok Hused Hof.
  pose proof (lookup_lt_Some _ _ _ Hb) as Hlt.
  constructor; cbn [ba_backends ba_backendMem ba_backendOfMem]; [|rewrite !length_insert; done|done].
  exists (<[id := u']> us), (<[id := o']> os). rewrite !length_insert. split; [done|]. split; [done|]. split; [done|]. split_and!; try done.
  - intros i b1 u1 o1 E1 E2 E3. destruct (decide (i = id)) as [->|Hne].
    + rewrite list_lookup_insert_eq in E1 by lia. rewrite list_lookup_insert_eq in E2 by lia. rewrite list_lookup_insert_eq in E3 by lia. by simplify_eq.
    + rewrite list_lookup_insert_ne in E1 by done. rewrite list_lookup_insert_ne in E2 by done. rewrite list_lookup_insert_ne in E3 by done. eauto.
  - intros i m1 u1 E1 E2. destruct (decide (i = id)) as [->|Hne].
    + rewrite list_lookup_insert_eq in E1 by lia. rewrite list_lookup_insert_eq in E2 by lia. by simplify_eq.
    + rewrite list_lookup_insert_ne in E1 by done. rewrite list_lookup_insert_ne in E2 by done. eauto.
Qed.

(** Two backends do not hold the same block. *)
Lemma block_unique c us os own i j p n k :
  length os = length (ba_backends c) -> length us = length (ba_backends c) -> split_own os own ->
  (forall i b u o, ba_backends c !! i = Some b -> us !! i = Some u -> os !! i = Some o -> mb_inv b u o) ->
  block_of us i p n -> block_of us j p k -> i = j.
Proof.
  intros Hlo Hlu Hsp Hinv (u & Hu & Hp) (u' & Hu' & Hp'). destruct (decide (i = j)) as [|Hne]; [done|]. exfalso.
  destruct (parts_at us (ba_backends c) i u ltac:(lia) Hu) as [b Hb]. destruct (parts_at us os i u ltac:(lia) Hu) as [o Ho].
  destruct (parts_at us (ba_backends c) j u' ltac:(lia) Hu') as [b' Hb']. destruct (parts_at us os j u' ltac:(lia) Hu') as [o' Ho'].
  destruct (mb_own _ _ _ _ _ (Hinv _ _ _ _ Hb Hu Ho) Hp) as [r Hr]. destruct (mb_own _ _ _ _ _ (Hinv _ _ _ _ Hb' Hu' Ho') Hp') as [r' Hr'].
  destruct (split_nth _ _ _ _ Hsp Ho) as (others & _ & Hd & Hsub & _).
  pose proof (lookup_weaken _ _ _ _ Hr' (Hsub j o' (not_eq_sym Hne) Ho')) as Hx.
  by eapply (map_disjoint_spec o others).
Qed.

(** An allocation, and the backend it came from. *)
Lemma wp_Balance_allocate s c used own rest n :
  sys_rep s (own ∪ rest) -> own ##ₘ rest -> Balance_inv c used own -> 0 < n <= mb_max -> (mb_unit | n) ->
  wp resource (Balance_allocate n)
    (fun p sb => used !! p = None /\ (exists own', sys_rep sb.1 (own' ∪ rest) /\ own' ##ₘ rest /\
       Balance_inv sb.2 (<[p := n]> used) own') /\
       let id := least (ba_backendMem c) in exists m, ba_backendMem c !! id = Some m /\
         ba_backendMem sb.2 = <[id := m + n]> (ba_backendMem c) /\ sm_find p (ba_backendOfMem sb.2) = Some (Z.of_nat id)) (s, c).
Proof.
  intros Hr Hd [Hparts [Hlm Hpos] Hs] Hn Hu. destruct Hparts as (us & os & Hlu & Hlo & Hsp & Hinv & Hmem & Hused & Hof).
  unfold Balance_allocate. apply wp_bind, wp_gets. cbn [snd]. apply wp_bind, wp_guard; [lia|]. cbv zeta.
  destruct (least_spec (ba_backendMem c)) as (m & Hm & _); [intros E; rewrite E in Hlm; simpl in Hlm; lia|].
  set (id := least (ba_backendMem c)) in *. pose proof (lookup_lt_Some _ _ _ Hm) as Hlt.
  destruct (parts_at (ba_backendMem c) (ba_backends c) id m ltac:(lia) Hm) as [b Hb].
  destruct (parts_at (ba_backendMem c) us id m ltac:(lia) Hm) as [u Hui]. destruct (parts_at (ba_backendMem c) os id m ltac:(lia) Hm) as [o Ho].
  destruct (split_nth _ _ _ _ Hsp Ho) as (others & -> & Hdo & Hsub & Hupd). rewrite <- map_union_assoc in Hr.
  apply map_disjoint_union_l in Hd as [Hd1 Hd2]. pose proof (Hinv _ _ _ _ Hb Hui Ho) as Hi.
  apply wp_bind. eapply wp_on_nth; [exact Hb|].
  eapply wp_mono; [eapply mb_allocate_ok; [exact Hr|by apply map_disjoint_union_r|exact Hi|done|done]|].
  intros p [s' b'] (Hfresh & o' & Hr' & [Hdo' Hd1']%map_disjoint_union_r & Hi'). cbn [fst snd] in *.
  apply wp_bind, wp_modify, wp_bind, wp_modify, wp_ret. unfold add_mem. cbn [fst snd ba_backends ba_backendMem ba_backendOfMem].
  rewrite i32_small by lia. destruct (mb_own _ _ _ p n Hi' (lookup_insert_eq _ _ _)) as [r' Hop].
  assert (forall i k, ~ block_of us i p k) as Hno.
  { intros i k (ui & Hui' & Hp). destruct (decide (i = id)) as [->|Hne]; [congruence|].
    destruct (parts_at us (ba_backends c) i ui ltac:(lia) Hui') as [bi Hbi]. destruct (parts_at us os i ui ltac:(lia) Hui') as [oi Hoi].
    destruct (mb_own _ _ _ _ _ (Hinv _ _ _ _ Hbi Hui' Hoi) Hp) as [r Hro].
    pose proof (lookup_weaken _ _ _ _ Hro (Hsub i oi Hne Hoi)) as Hx. by eapply (map_disjoint_spec o' others). }
  assert (used !! p = None) as Hup.
  { destruct (used !! p) as [k|] eqn:E; [|done]. apply Hused in E as [i Hb0]. by destruct (Hno i k). }
  assert (total (<[p := n]> u) < two64) as Htot.
  { eapply total_bound; [exact Hr'|]. intros q k Hq. destruct (mb_own _ _ _ _ _ Hi' Hq) as [r Hro]. exists r. by apply own_lookup. }
  assert (alter (λ m0 : Z, m0 +u n) id (ba_backendMem c) = <[id := m + n]> (ba_backendMem c)) as Halt.
  { pose proof (Hmem _ _ _ Hm Hui) as ->. rewrite total_insert in Htot by done.
    apply list_eq. intros j. destruct (decide (j = id)) as [->|Hne].
    - rewrite list_lookup_alter, decide_True, list_lookup_insert_eq, Hm by (done || lia). simpl.
      rewrite u64_small; [done|]. assert (0 <= total u); [|lia]. apply total_nonneg.
      intros q k Hq. destruct (mb_own _ _ _ _ _ Hi Hq) as [r Hro]. destruct (rep_range _ _ _ _ _ Hr (own_lookup _ _ _ _ Hro)) as (? & ? & _). lia.
    - rewrite list_lookup_alter_ne, list_lookup_insert_ne by done. done. }
  assert (forall i q k, block_of (<[id := <[p := n]> u]> us) i q k <-> (i = id /\ q = p /\ k = n) \/ block_of us i q k) as Hblk.
  { intros i q k. rewrite (block_of_update us id u) by done. rewrite lookup_insert_Some. split.
    - intros [[-> [[<- <-]|[_ Hq]]]|[_ Hb0]]; [by left|right; by exists u|by right].
    - intros [(-> & -> & ->)|Hb0]; [left; split; [done|by left]|]. destruct (decide (i = id)) as [->|Hne]; [|by right].
      left. split; [done|]. right. destruct Hb0 as (u0 & Hu0 & Hq). assert (u0 = u) as -> by congruence.
      split; [|done]. intros <-. congruence. }
  split; [done|]. split; [|exists m; split; [done|]; split; [done|apply sm_find_insert_eq]].
  exists (o' ∪ others). split; [by rewrite <- map_union_assoc|]. split; [by apply map_disjoint_union_l|]. rewrite Halt.
  eapply (Balance_update c us os id b u o); try done; [by apply Hupd| | | |].
  - rewrite total_insert by done. rewrite (Hmem _ _ _ Hm Hui). lia.
  - by apply sm_ok_insert.
  - intros q k. rewrite lookup_insert_Some, Hused. split.
    + intros [[<- <-]|[_ [i Hi0]]]; [exists id; apply Hblk; by left|exists i; apply Hblk; by right].
    + intros [i [(-> & -> & ->)|Hi0]%Hblk]; [by left|]. right. split; [|eauto]. intros <-. by destruct (Hno i k).
  - intros q z. destruct (decide (q = p)) as [->|Hne].
    + rewrite sm_find_insert_eq. split.
      * intros [= <-]. exists id, n. split; [done|]. apply Hblk. by left.
      * intros (i & k & -> & [(-> & _ & ->)|Hi0]%Hblk); [done|]. by destruct (Hno i k).
    + rewrite sm_find_insert_ne, Hof by done. split; intros (i & k & -> & Hi0); exists i, k; (split; [done|]).
      * apply Hblk. by right.
      * by apply Hblk in Hi0 as [(_ & ? & _)|?].
Qed.

Lemma wp_Balance_deallocate s c used own rest p n :
  sys_rep s (own ∪ rest) -> own ##ₘ rest -> Balance_inv c used own -> used !! p = Some n -> (mb_unit | n) ->
  wp never (Balance_deallocate p n)
    (fun _ sb => exists own', sys_rep sb.1 (own' ∪ rest) /\ own' ##ₘ rest /\ Balance_inv sb.2 (delete p used) own') (s, c).
Proof.
  intros Hr Hd [Hparts [Hlm Hpos] Hs] Hp Hu. destruct Hparts as (us & os & Hlu & Hlo & Hsp & Hinv & Hmem & Hused & Hof).
  pose proof (proj1 (Hused p n) Hp) as (id & Hblk). pose proof Hblk as (u & Hui & Hup).
  destruct (parts_at us (ba_backends c) id u ltac:(lia) Hui) as [b Hb]. destruct (parts_at us os id u ltac:(lia) Hui) as [o Ho].
  destruct (parts_at us (ba_backendMem c) id u ltac:(lia) Hui) as [m Hm]. pose proof (lookup_lt_Some _ _ _ Hb) as Hlt.
  pose proof (block_unique c us os own id) as Huniq.
  destruct (split_nth _ _ _ _ Hsp Ho) as (others & -> & Hdo & Hsub & Hupd). rewrite <- map_union_assoc in Hr.
  apply map_disjoint_union_l in Hd as [Hd1 Hd2]. pose proof (Hinv _ _ _ _ Hb Hui Ho) as Hi.
  destruct (mb_own _ _ _ _ _ Hi Hup) as [r Hro]. destruct (rep_range _ _ _ _ _ Hr (own_lookup _ _ _ _ Hro)) as (? & ? & ?).
  assert (0 <= total (delete p u)) as Hnn.
  { apply total_nonneg. intros q k [_ Hq]%lookup_delete_Some. destruct (mb_own _ _ _ _ _ Hi Hq) as [r0 Hr0].
    destruct (rep_range _ _ _ _ _ Hr (own_lookup _ _ _ _ Hr0)) as (? & ? & _). lia. }
  assert (total u < two64) as Htot.
  { eapply total_bound; [exact Hr|]. intros q k Hq. destruct (mb_own _ _ _ _ _ Hi Hq) as [r0 Hr0]. exists r0. by apply own_lookup. }
  pose proof (total_delete _ _ _ Hup) as Htd. pose proof (Hmem _ _ _ Hm Hui) as ->.
  unfold Balance_deallocate. apply wp_bind, wp_guard; [lia|]. apply wp_bind, wp_guard; [lia|]. apply wp_bind, wp_gets. cbn [snd].
  rewrite (proj2 (Hof p (Z.of_nat id))) by eauto. cbv zeta. rewrite u64_small, Nat2Z.id by (rewrite two64_eq; lia).
  apply wp_bind. eapply wp_on_nth; [exact Hb|].
  eapply wp_mono; [eapply mb_deallocate_ok; [exact Hr|by apply map_disjoint_union_r|exact Hi|done|done]|].
  intros _ [s' b'] (o' & Hr' & [Hdo' Hd1']%map_disjoint_union_r & Hi'). cbn [fst snd] in *.
  apply wp_bind, wp_modify, wp_bind, wp_gets. cbn [fst snd ba_backends ba_backendMem ba_backendOfMem]. rewrite Hm. simpl of_option.
  apply wp_bind, wp_ret, wp_bind, wp_guard; [lia|]. apply wp_modify. unfold add_mem. cbn [fst snd ba_backends ba_backendMem ba_backendOfMem].
  assert (alter (λ m0 : Z, m0 +u (- n)) id (ba_backendMem c) = <[id := total (delete p u)]> (ba_backendMem c)) as ->.
  { apply list_eq. intros j. destruct (decide (j = id)) as [->|Hne].
    - rewrite list_lookup_alter, decide_True, list_lookup_insert_eq, Hm by (done || lia). simpl. rewrite u64_small; [|lia]. f_equal. lia.
    - rewrite list_lookup_alter_ne, list_lookup_insert_ne by done. done. }
  assert (forall i q k, block_of (<[id := delete p u]> us) i q k <-> q <> p /\ block_of us i q k) as Hnew.
  { intros i q k. rewrite (block_of_update us id u) by done. rewrite lookup_delete_Some. split.
    - intros [[-> [Hne Hq]]|[Hne Hb0]]; [split; [done|by exists u]|]. split; [|done]. intros ->. apply Hne. symmetry.
      by eapply Huniq.
    - intros [Hne Hb0]. destruct (decide (i = id)) as [->|Hni]; [|by right]. left. split; [done|]. split; [done|].
      destruct Hb0 as (u0 & Hu0 & Hq). congruence. }
  exists (o' ∪ others). split; [by rewrite <- map_union_assoc|]. split; [by apply map_disjoint_union_l|].
  eapply (Balance_update c us os id b u o); try done; [by apply Hupd| | |].
  - by apply sm_ok_erase.
  - intros q k. rewrite lookup_delete_Some, Hused. setoid_rewrite Hnew.
    split; [intros (? & i & ?)|intros (i & ? & ?)]; eauto.
  - intros q z. destruct (decide (q = p)) as [->|Hne].
    + rewrite sm_find_erase_eq by done. split; [done|]. intros (i & k & _ & [? _]%Hnew). done.
    + rewrite sm_find_erase_ne, Hof by done. setoid_rewrite Hnew.
      split; [intros (i & k & ? & ?)|intros (i & k & ? & _ & ?)]; eauto.
Qed.

#[export] Program Instance Balance_ok : BackendOk X (Balance B) := {
  mb_unit := mb_unit; mb_max := mb_max; mb_inv := Balance_inv }.
Next Obligation. apply mb_unit_pos. Qed.
Next Obligation. apply mb_max_bounds. Qed.
Next Obligation.
  intros c used own p n [(us & os & Hlu & Hlo & Hsp & Hinv & _ & Hused & _) _ _] Hp.
  apply Hused in Hp as (i & u & Hu & Hp). destruct (parts_at us (ba_backends c) i u ltac:(lia) Hu) as [b Hb].
  destruct (parts_at us os i u ltac:(lia) Hu) as [o Ho]. destruct (mb_own _ _ _ _ _ (Hinv _ _ _ _ Hb Hu Ho) Hp) as [r Hr].
  exists r. eapply lookup_weaken; [exact Hr|]. by eapply split_sub.
Qed.
Next Obligation. intros. eapply wp_mono; [by eapply wp_Balance_allocate|]. intros p sb (? & ? & _). done. Qed.
Next Obligation. intros. by eapply wp_Balance_deallocate. Qed.

(** an allocation takes the block from the first of the backends that have
    handed out the least memory, charges its size to that backend, and
    remembers where it came from. *)
Theorem Balance_allocate_least s c used own rest n :
  sys_rep s (own ∪ rest) -> own ##ₘ rest -> Balance_inv c used own -> 0 < n <= mb_max -> (mb_unit | n) ->
  wp resource (Balance_allocate n)
    (fun p sb => used !! p = None /\ exists id m, ba_backendMem c !! id = Some m /\
       (forall j m', ba_backendMem c !! j = Some m' -> m <= m') /\
       (forall j m', ba_backendMem c !! j = Some m' -> (j < id)%nat -> m < m') /\
       ba_backendMem sb.2 = <[id := m + n]> (ba_backendMem c) /\
       sm_find p (ba_backendOfMem sb.2) = Some (Z.of_nat id)) (s, c).
Proof.
  intros Hr Hd Hinv Hn Hu. eapply wp_mono; [by apply (wp_Balance_allocate s c used own rest n)|].
  intros p sb (Hf & _ & m & Hm & Hmem & Hof). split; [done|]. exists (least (ba_backendMem c)), m.
  destruct (least_spec (ba_backendMem c)) as (m' & Hm' & Hmin & Hfirst); [intros E; by rewrite E in Hm|].
  assert (m' = m) as -> by congruence. done.
Qed.
End proofs.
End MemoryBalance.
