(* ===== verification/Provider.v ===== *)
(** * The memory backends provide memory to the objects

    Every backend of src/src/server/backends, in any combination the server
    builds (src/src/server/core/Server.cpp: a cache over malloc, or a balance over
    caches over nvdimm files), implements the interface the object cache is
    proved against. *)

From S2P Require Import Prelude StdMap Memory Interfaces System LibfabricDomain MemoryBackend MemoryCache MemoryBalance.

Module Provider.
Import LibfabricDomain MemoryBackend MemoryCache MemoryBalance.

(** The process has one backend, of handle 1. *)
#[export] Instance backend_provider {X B : Type} `{Backend X B} : MemoryProvider (Sys X * B) := {
  mp_allocate h n := if h =? 1 then mb_allocate n else abort FNullPointer;
  mp_deallocate h p n := if h =? 1 then mb_deallocate p n else abort FNullPointer;
}.

(** The backends the server builds. *)
Definition server_malloc (X : Type) : Type := Sys X * Cache Malloc.
Definition server_nvdimm (X : Type) : Type := Sys X * Balance (Cache Nvdimm).

Section provider.
Context {X B : Type} `{LibfabricOk X} `{!Backend X B} `{!BackendOk X B}.

(** Each allocation and each return keeps [K], a property of the system, of the
    blocks of the backend and of those of others. *)
Record keeps_all (K : Sys X -> heap -> heap -> Prop) : Prop := {
  ka_allocate : forall s b used own rest n,
    sys_rep s (own ∪ rest) -> own ##ₘ rest -> mb_inv b used own -> K s own rest -> 0 < n <= mb_max -> (mb_unit | n) ->
    wp resource (mb_allocate n)
      (fun p sb => used !! p = None /\ exists own', sys_rep sb.1 (own' ∪ rest) /\ own' ##ₘ rest /\
         mb_inv sb.2 (<[p := n]> used) own' /\ K sb.1 own' rest) (s, b);
  ka_deallocate : forall s b used own rest p n,
    sys_rep s (own ∪ rest) -> own ##ₘ rest -> mb_inv b used own -> K s own rest -> used !! p = Some n -> (mb_unit | n) ->
    wp never (mb_deallocate p n)
      (fun _ sb => exists own', sys_rep sb.1 (own' ∪ rest) /\ own' ##ₘ rest /\
         mb_inv sb.2 (delete p used) own' /\ K sb.1 own' rest) (s, b);
}.

Definition kept_inv (K : Sys X -> heap -> heap -> Prop) (e : Sys X * B) (used : blocks) : Prop :=
  exists own rest, sys_rep e.1 (own ∪ rest) /\ own ##ₘ rest /\ mb_inv e.2 (fst <$> used) own /\
    (forall p n h, used !! p = Some (n, h) -> n <= mb_max) /\ K e.1 own rest.

Section kept.
Variable K : Sys X -> heap -> heap -> Prop.

Lemma provider_block e used p n h :
  kept_inv K e used -> used !! p = Some (n, h) -> exists G r, sys_rep e.1 G /\ G !! p = Some (n, r) /\
    forall q k h', used !! q = Some (k, h') -> exists r', G !! q = Some (k, r').
Proof.
  intros (own & rest & Hr & Hd & Hi & _) Hp.
  assert (forall q k h', used !! q = Some (k, h') -> exists r', (own ∪ rest) !! q = Some (k, r')) as Hall.
  { intros q k h' Hq. destruct (mb_own e.2 (fst <$> used) own q k Hi) as [r Ho]; [by rewrite lookup_fmap, Hq|].
    exists r. by apply own_lookup. }
  destruct (Hall _ _ _ Hp) as [r Ho]. by exists (own ∪ rest), r.
Qed.

Lemma provider_range e used p n h :
  kept_inv K e used -> used !! p = Some (n, h) -> 0 < p /\ 0 < n <= mb_max /\ p + n <= two64.
Proof.
  intros Hi Hp. destruct (provider_block _ _ _ _ _ Hi Hp) as (G & r & Hr & HG & _).
  destruct (rep_range _ _ _ _ _ Hr HG) as (? & ? & ?). destruct Hi as (_ & _ & _ & _ & _ & Hmax & _). specialize (Hmax _ _ _ Hp). lia.
Qed.

Lemma provider_apart e used p n h q k h' :
  kept_inv K e used -> used !! p = Some (n, h) -> used !! q = Some (k, h') -> p <> q -> disjoint p n q k.
Proof.
  intros Hi Hp Hq Hne. destruct (provider_block _ _ _ _ _ Hi Hp) as (G & r & Hr & HG & Hall).
  destruct (Hall _ _ _ Hq) as [r' HG']. by eapply rep_apart.
Qed.

Lemma wp_provider_allocate e used n :
  keeps_all K -> kept_inv K e used -> 0 < n <= mb_max -> (mb_unit | n) ->
  wp resource (mb_allocate n) (fun p e' => used !! p = None /\ forall h, kept_inv K e' (<[p := (n, h)]> used)) e.
Proof.
  intros HK (own & rest & Hr & Hd & Hi & Hmax & Hk) Hn Hu. destruct e as [s b].
  eapply wp_mono; [by eapply (ka_allocate K HK)|]. intros p [s' b'] (Hf & own' & Hr' & Hd' & Hi' & Hk'). simpl in *.
  rewrite lookup_fmap, fmap_None in Hf. split; [done|]. intros h. exists own', rest. split; [done|]. split; [done|]. split; [|split; [|done]].
  - by rewrite fmap_insert.
  - intros q k h' [[<- [= <- <-]]|[_ Hq]]%lookup_insert_Some; [lia|eauto].
Qed.

Lemma wp_provider_deallocate e used p n h :
  keeps_all K -> kept_inv K e used -> used !! p = Some (n, h) -> (mb_unit | n) ->
  wp never (mb_deallocate p n) (fun _ e' => kept_inv K e' (delete p used)) e.
Proof.
  intros HK (own & rest & Hr & Hd & Hi & Hmax & Hk) Hp Hu. destruct e as [s b].
  eapply wp_mono; [eapply (ka_deallocate K HK); [exact Hr|exact Hd|exact Hi|exact Hk| |done]|].
  { by rewrite lookup_fmap, Hp. }
  intros _ [s' b'] (own' & Hr' & Hd' & Hi' & Hk'). exists own', rest. split; [done|]. split; [done|]. split; [|split; [|done]].
  - simpl in *. by rewrite fmap_delete.
  - intros q k h' [_ Hq]%lookup_delete_Some. eauto.
Qed.

Program Definition kept_provider_ok (HK : keeps_all K) : MemoryProviderOk (Sys X * B) := {|
  mp_unit := mb_unit; mp_max := mb_max; mp_inv := kept_inv K; mp_backend := fun _ h => h = 1 |}.
Next Obligation. intros. apply mb_unit_pos. Qed.
Next Obligation. intros. apply mb_max_bounds. Qed.
Next Obligation. intros. by eapply provider_range. Qed.
Next Obligation. intros. by eapply provider_apart. Qed.
Next Obligation.
  intros HK e used h n Hi -> Hn Hu. simpl. eapply wp_mono; [by apply wp_provider_allocate|].
  intros p e' [Hf Hall]. split; [done|]. split; [apply Hall|done].
Qed.
Next Obligation.
  intros HK e used p n h Hi -> Hp Hu. simpl. eapply wp_mono; [by eapply wp_provider_deallocate|]. done.
Qed.
Next Obligation. done. Qed.
Next Obligation. done. Qed.
End kept.

Lemma keeps_nothing : keeps_all (fun _ _ _ => True).
Proof.
  constructor.
  - intros s b used own rest n Hr Hd Hi _ Hn Hu. eapply wp_mono; [by eapply mb_allocate_ok|].
    intros p sb (Hf & own' & ? & ? & ?). split; [done|]. by exists own'.
  - intros s b used own rest p n Hr Hd Hi _ Hp Hu. eapply wp_mono; [by eapply mb_deallocate_ok|].
    intros _ sb (own' & ? & ? & ?). by exists own'.
Qed.

Definition provider_inv : Sys X * B -> blocks -> Prop := kept_inv (fun _ _ _ => True).
#[export] Instance backend_provider_ok : MemoryProviderOk (Sys X * B) := kept_provider_ok _ keeps_nothing.


(** ** The contract *)

(** The state [b0] of a backend and the operations [allocate] and [deallocate]
    provide memory: there is a relation between the process and the blocks in use
    that holds of [b0] with no block, is kept by both operations, and makes
    [allocate] hand out a block that meets no block in use, unless it stops for lack
    of resources, and [deallocate] take back a block in use without stopping. *)
Definition provides (allocate : Z -> M (Sys X * B) Z) (deallocate : Z -> Z -> M (Sys X * B) unit) (b0 : B) (unit max : Z) : Prop :=
  exists inv : Sys X * B -> blocks -> Prop,
    (forall s G, sys_rep s G -> inv (s, b0) ∅) /\
    forall e used n, inv e used ->
      (0 < n <= max -> (unit | n) ->
         wp resource (allocate n)
           (fun p e' => inv e' (<[p := (n, 1)]> used) /\ 0 < p /\ p + n <= two64 /\
              forall q k h, used !! q = Some (k, h) -> disjoint p n q k) e) /\
      (forall p h, used !! p = Some (n, h) -> (unit | n) ->
         wp never (deallocate p n) (fun _ e' => inv e' (delete p used)) e).

Lemma backend_provides b0 : mb_inv b0 ∅ ∅ -> provides mb_allocate mb_deallocate b0 mb_unit mb_max.
Proof.
  intros Hb0. exists provider_inv. split.
  - intros s G Hr. exists ∅, G. rewrite map_empty_union. split; [done|]. split; [apply map_disjoint_empty_l|].
    split; [by rewrite fmap_empty|]. split; [|done]. intros p n h Hp. by rewrite lookup_empty in Hp.
  - intros e used n Hi. split.
    + intros Hn Hu. eapply wp_mono; [apply (wp_provider_allocate _ e used n keeps_nothing); done|]. intros p e' [Hf Hall].
      specialize (Hall 1). pose proof (lookup_insert_eq used p (n, 1)) as Hp. destruct (provider_range _ _ _ _ _ _ Hall Hp) as (? & ? & ?).
      split; [done|]. split; [done|]. split; [done|]. intros q k h Hq.
      assert (p <> q) as Hne by (intros ->; congruence). eapply provider_apart; [exact Hall|exact Hp| |exact Hne]. by rewrite lookup_insert_ne.
    + intros p h Hp Hu. apply (wp_provider_deallocate _ e used p n h keeps_nothing); done.
Qed.
End provider.

(** ** The backends of the server *)

(** The backend made by Server::setNvdimm *)
Definition setNvdimm (domain : bool) (nvdimmPaths : list string) : Balance (Cache Nvdimm) :=
  foldl (fun backend it => registerBackend (new_Cache (new_Nvdimm domain it)) backend) new_Balance nvdimmPaths.

Section backends.
Context {X : Type} `{LibfabricOk X}.

Lemma setNvdimm_inv domain nvdimmPaths :
  0 < Z.of_nat (length nvdimmPaths) < 2147483648 -> mb_inv (setNvdimm domain nvdimmPaths) ∅ ∅.
Proof.
  intros Hlen. unfold setNvdimm.
  assert (forall c, foldl (fun backend it => registerBackend (new_Cache (new_Nvdimm domain it)) backend) c nvdimmPaths =
    foldl (fun c b => registerBackend b c) c ((fun it => new_Cache (new_Nvdimm domain it)) <$> nvdimmPaths)) as ->.
  { clear Hlen. induction nvdimmPaths as [|d l IH]; intros c; simpl; [done|]. apply IH. }
  apply new_Balance_inv; [|by rewrite length_fmap]. apply Forall_fmap, Forall_true. intros it. by apply new_Cache_inv.
Qed.

(** C19: each memory backend of the server, and the two combinations it builds (a
    cache over malloc; a balance of caches over the files of the directories of
    setNvdimm), provides memory from its construction on: an allocation of up to
    2^64 - 1 bytes (2^60 for nvdimm files), a multiple of 4096 but for malloc, hands
    out a block that meets no block in use or stops for lack of resources, and the
    return of a block in use passes every check. *)
Theorem backends_provide_memory (lfDomain : bool) (directory : string) (fd : Z) (nvdimmPaths : list string) :
  0 < Z.of_nat (length nvdimmPaths) < 2147483648 ->
  provides Malloc_allocate Malloc_deallocate (mkMalloc lfDomain) 1 (two64 - 1) /\
  provides Nvdimm_allocate Nvdimm_deallocate (new_Nvdimm lfDomain directory) 4096 nvdimm_max /\
  provides NvdimmGrow_allocate NvdimmGrow_deallocate (mkGrow lfDomain directory fd 0 0) 4096 (two64 - 1) /\
  provides Cache_allocate Cache_deallocate (new_Cache (mkMalloc lfDomain)) 4096 (two64 - 1) /\
  provides Balance_allocate Balance_deallocate (setNvdimm lfDomain nvdimmPaths) 4096 nvdimm_max.
Proof.
  intros Hlen. split_and!.
  - refine (backend_provides (X := X) (mkMalloc lfDomain) _). done.
  - refine (backend_provides (X := X) (new_Nvdimm lfDomain directory) _). done.
  - refine (backend_provides (X := X) (mkGrow lfDomain directory fd 0 0) _). done.
  - refine (backend_provides (X := X) (new_Cache (mkMalloc lfDomain)) _). by apply new_Cache_inv.
  - refine (backend_provides (X := X) (setNvdimm lfDomain nvdimmPaths) _). by apply setNvdimm_inv.
Qed.
End backends.
End Provider.
