(* ===== verification/ServerMemory.v ===== *)
(** * The memory of the server

    The server has one heap: the message buffers and the receive buffers of the
    connection, and the segments of the objects, which come from a cache over malloc
    (the constructor of src/src/server/core/Server.cpp).  Seen from the objects, the
    blocks of the connection are the rest of the heap: the cache never gives them
    out, never touches the endpoint, and only grows. *)

From S2P Require Import Prelude StdMap Memory Interfaces World Calm System Fabric LibfabricDomain Connection ConnectionInv MemoryBackend MemoryCache Provider.

Module ServerMemory.
Import Calm LibfabricDomain Connection ConnectionInv MemoryBackend MemoryCache Provider.

Section memory.
Context {X : Type} `{Libc X} `{!LibcOk X} `{Libfabric X} `{!LibfabricOk X} `{Fabric X} `{!FabricOk X}.
Abbreviation Backends := (Sys X * Cache Malloc)%type.
Implicit Types (x : Sys X) (own rest : heap).

(** What the objects keep of the process since [x0], when the cache had the blocks
    [own0] and the others [rest0]. *)
Definition framed own0 rest0 x0 x own rest : Prop := rest = rest0 /\ own0 ⊆ own /\ sys_kept x0 x.

Lemma Malloc_allocate_kept n (e : Sys X * Malloc) : wp any (Malloc_allocate n) (fun _ e' => sys_kept e.1 e'.1) e.
Proof.
  destruct e as [x b]. unfold Malloc_allocate. apply wp_bind. unfold assert_, guard_. destruct (n >? 0); [|done].
  apply wp_ret, wp_bind, wp_on_sys. eapply wp_mono; [apply malloc_kept|]. intros p x1 H01.
  apply wp_bind. destruct (negb _); [|done]. apply wp_ret, wp_bind, wp_gets, wp_bind. cbn [snd]. destruct (ma_lfDomain b); [|apply wp_ret, wp_ret; exact H01].
  apply wp_bind, wp_on_sys. eapply wp_mono; [apply registerSegment_kept|]. intros iov x2 [H12 _]. apply wp_ret, wp_ret. etransitivity; [exact H01|exact H12].
Qed.

Lemma framed_keeps own0 rest0 x0 : keeps_all (B := Cache Malloc) (framed own0 rest0 x0).
Proof.
  constructor.
  - intros x c used own rest n Hr Hd Hi (-> & Hsub & Hk) Hn Hu. eapply wp_mono.
    + apply (wp_Cache_allocate_keeps (fun x own => own0 ⊆ own /\ sys_kept x0 x) x c used own rest0 n); try done; [|lia].
      intros sub Hsi _. eapply wp_mono; [eapply wp_also; [by apply (wp_Malloc_allocate x (ca_backend c) sub own rest0 n); try lia|apply Malloc_allocate_kept]|].
      intros p e' [(Hf & own' & Hr' & Hd' & Hi' & Hsub') Hk']. split; [done|]. exists own'. split_and!; try done; by etransitivity.
    + intros p e' (Hf & own' & Hr' & Hd' & Hi' & Hsub' & Hk'). split; [done|]. exists own'. by split_and!.
  - intros x c used own rest p n Hr Hd Hi HK Hp Hu. eapply wp_mono; [by eapply wp_Cache_deallocate|].
    intros _ e' [-> Hi']. by exists own.
Qed.

Definition frame_ok own0 rest0 x0 : MemoryProviderOk Backends := kept_provider_ok _ (framed_keeps own0 rest0 x0).

(** ** The memory of the connection is not written *)
Definition in_block rest (a : Z) : Prop := exists p n r, rest !! p = Some (n, r) /\ p <= a < p + n.

(** The blocks of the cache are live and are not those of others. *)
Record cache_live rest (e : Backends) : Prop := {
  cl_rest : forall p n r, rest !! p = Some (n, r) -> lc_live (s_ext e.1) !! p = Some n;
  cl_tracked : forall p n, sm_find p (ca_rangesTracker e.2) = Some n -> lc_live (s_ext e.1) !! p = Some n /\ rest !! p = None;
  cl_free : forall p n, p ∈ free_list n e.2 -> sm_find p (ca_rangesTracker e.2) = Some n;
}.

Lemma cache_live_apart rest e p n a :
  cache_live rest e -> sm_find p (ca_rangesTracker e.2) = Some n -> in_block rest a -> ~ p <= a < p + n.
Proof.
  intros [Hr Ht _] Hp (q & k & r & Hq & Ha) Hin. destruct (Ht _ _ Hp) as [Hlive Hno].
  assert (p <> q) as Hne by (intros ->; congruence). pose proof (lc_apart _ _ _ _ _ Hlive (Hr _ _ _ Hq) Hne) as Hd. unfold disjoint in Hd. lia.
Qed.

Lemma wp_Malloc_live n (e : Sys X * Malloc) :
  wp any (Malloc_allocate n) (fun p e' => 0 < n /\ lc_live (s_ext e.1) !! p = None /\ lc_live (s_ext e'.1) = <[p := n]> (lc_live (s_ext e.1))) e.
Proof.
  destruct e as [x b]. unfold Malloc_allocate. apply wp_bind. unfold assert_, guard_. destruct (n >? 0) eqn:En; [|done].
  apply wp_ret, wp_bind, wp_on_sys. unfold malloc, wp at 1. pose proof (lc_malloc_ok (s_ext x) n ltac:(lia)) as Hm.
  set (r := lc_malloc n (s_ext x)) in *. apply wp_bind. cbn [fst snd]. destruct (r.1 =? 0); [done|]. destruct Hm as [Hf Hl].
  apply wp_ret, wp_bind, wp_gets, wp_bind. cbn [snd]. destruct (ma_lfDomain b); [|apply wp_ret, wp_ret; split; [lia|done]].
  apply wp_bind, wp_on_sys. eapply wp_mono; [apply registerSegment_kept|]. intros iov x2 [_ H12]. apply wp_ret, wp_ret.
  split; [lia|]. split; [done|]. etransitivity; [exact H12|exact Hl].
Qed.

#[export] Instance cache_shield rest : Shield Backends (cache_live rest) (in_block rest).
Proof.
  constructor.
  - intros e h n He. simpl. destruct (h =? 1); [|done]. destruct e as [x c]. unfold Cache_allocate.
    apply wp_bind. unfold assert_, guard_. destruct (n >? 0) eqn:En; [|done]. apply wp_ret, wp_bind, wp_gets. cbn [snd].
    apply wp_bind, wp_modify. cbn [fst snd]. destruct (free_list n c) as [|p l] eqn:El.
    + apply wp_bind, wp_on_sub. eapply wp_mono; [apply wp_Malloc_live|]. intros p [x' b'] (_ & Hf & Hl). cbn [fst snd] in *.
      apply wp_bind, wp_modify, wp_ret. destruct He as [Hr Ht Hfr]. cbn [fst snd] in *.
      assert (rest !! p = None) as Hp. { destruct (rest !! p) as [[k r]|] eqn:E; [|done]. apply Hr in E. congruence. }
      assert (cache_live rest (x', mkCache b' (sm_insert n [] (ca_freeLists c)) (sm_insert p n (ca_rangesTracker c)))) as He'.
      { constructor; cbn [fst snd ca_rangesTracker].
        - intros q k r Hq. rewrite Hl, lookup_insert_ne by (intros <-; congruence). by eapply Hr.
        - intros q k. destruct (decide (q = p)) as [->|Hne]; [rewrite sm_find_insert_eq; intros [= <-]; by rewrite Hl, lookup_insert_eq|].
          rewrite sm_find_insert_ne by done. intros Hq. rewrite Hl. destruct (Ht _ _ Hq) as [Hlive Hno]. rewrite lookup_insert_ne by done. done.
        - intros q k Hq. change (q ∈ free_list k (set_free n [] c)) in Hq. rewrite free_list_set in Hq. case_decide; [by apply elem_of_nil in Hq|].
          apply Hfr in Hq. rewrite sm_find_insert_ne; [done|]. intros ->. apply Ht in Hq as [Hq _]. congruence. }
      split; [done|]. split; [lia|]. intros a Ha. eapply cache_live_apart; [exact He'| |exact Ha]. apply sm_find_insert_eq.
    + apply wp_bind, wp_modify, wp_ret. cbn [fst snd]. assert (sm_find p (ca_rangesTracker c) = Some n) as Hp.
      { apply (cl_free _ _ He). cbn [snd]. rewrite El. by left. }
      split; [|split; [lia|]]; [|intros a Ha; by eapply (cache_live_apart rest (x, c))].
      destruct He as [Hr Ht Hfr]. constructor; try done. intros q k. cbn [snd]. rewrite !free_list_set. case_decide as E; [|apply Hfr].
      intros Hq. apply Hfr. cbn [snd]. rewrite E, El. by right.
  - intros e h p n He. simpl. destruct (h =? 1); [|done]. destruct e as [x c]. unfold Cache_deallocate, isLocalMemory, assert_, guard_.
    apply wp_bind. destruct (negb _); [|done]. apply wp_ret, wp_bind. destruct (n >? 0); [|done]. apply wp_ret, wp_bind, wp_bind, wp_ret, wp_bind, wp_ret.
    apply wp_bind. destruct (n mod 4096 =? 0); [|done]. apply wp_ret, wp_bind, wp_gets. cbn [snd].
    destruct (sm_find p (ca_rangesTracker c)) as [sz|] eqn:Ep; [|by apply wp_ret, wp_bind]. apply wp_bind. destruct (sz =? n) eqn:Esz; [|done].
    apply wp_ret, wp_ret, wp_bind, wp_ret, wp_modify. destruct He as [Hr Ht Hfr]. constructor; try done. intros q k. cbn [fst snd].
    rewrite free_list_set. case_decide as E; [|apply Hfr]. rewrite elem_of_cons. intros [->|Hq]; [|apply Hfr; by rewrite E].
    cbn [snd]. simpl. rewrite Ep. f_equal. lia.
Qed.

(** The invariant of the cache says that its blocks are live. *)
Lemma framed_live own0 rest x0 e used : kept_inv (framed own0 rest x0) e used -> cache_live rest e.
Proof.
  intros (own & rest' & Hr & Hd & [(sub & Hi & Ht & Hp) _ _ _ _ _] & _ & -> & _ & _). constructor.
  - intros p n r Hq. eapply (rep_live _ _ _ _ r Hr). by rewrite lookup_union_r by (by eapply map_disjoint_Some_r).
  - intros p n Hf. apply Ht in Hf. destruct (mb_own _ _ _ _ _ Hi Hf) as [r Ho]. split; [|by eapply map_disjoint_Some_l].
    eapply (rep_live _ _ _ _ r Hr). by apply own_lookup.
  - intros p n Hf. apply Ht, Hp. by right.
Qed.

(** ** The cache goes on registering its blocks *)
Definition registers (e : Backends) : Prop := ma_lfDomain (ca_backend e.2) = true.

Lemma Malloc_allocate_domain n (e : Sys X * Malloc) : wp any (Malloc_allocate n) (fun _ e' => e'.2 = e.2) e.
Proof.
  destruct e as [x b]. unfold Malloc_allocate. apply wp_bind. unfold assert_, guard_. destruct (n >? 0); [|done].
  apply wp_ret, wp_bind, wp_on_sys. unfold wp at 1. destruct (malloc n x) as [[p x1]|]; [|done]. apply wp_bind. destruct (negb _); [|done].
  apply wp_ret, wp_bind, wp_gets, wp_bind. cbn [snd]. destruct (ma_lfDomain b); [|by apply wp_ret, wp_ret].
  apply wp_bind, wp_on_sys. unfold wp at 1. destruct (registerSegment _ _ _ _ _ _) as [[i x2]|]; [|done]. by apply wp_ret, wp_ret.
Qed.

#[export] Instance registers_shield : Shield Backends registers (fun _ => False).
Proof.
  constructor.
  - intros e h n He. simpl. destruct (h =? 1); [|done]. destruct e as [x c]. unfold Cache_allocate.
    apply wp_bind. unfold assert_, guard_. destruct (n >? 0) eqn:En; [|done]. apply wp_ret, wp_bind, wp_gets. cbn [snd].
    apply wp_bind, wp_modify. cbn [fst snd]. destruct (free_list n c) as [|p l] eqn:El.
    + apply wp_bind, wp_on_sub. eapply wp_mono; [apply Malloc_allocate_domain|]. intros p [x' b'] Eb. cbn [fst snd] in *.
      apply wp_bind, wp_modify, wp_ret. split; [unfold registers in *; simpl in *; by rewrite Eb|]. split; [lia|done].
    + apply wp_bind, wp_modify, wp_ret. split; [done|]. split; [lia|done].
  - intros e h p n He. simpl. destruct (h =? 1); [|done]. destruct e as [x c]. unfold Cache_deallocate, isLocalMemory, assert_, guard_.
    apply wp_bind. destruct (negb _); [|done]. apply wp_ret, wp_bind. destruct (n >? 0); [|done]. apply wp_ret, wp_bind, wp_bind, wp_ret, wp_bind, wp_ret.
    apply wp_bind. destruct (n mod 4096 =? 0); [|done]. apply wp_ret, wp_bind, wp_gets. cbn [snd].
    destruct (sm_find p (ca_rangesTracker c)) as [sz|] eqn:Ep; [|by apply wp_ret, wp_bind]. apply wp_bind. destruct (sz =? n) eqn:Esz; [|done].
    by apply wp_ret, wp_ret, wp_bind, wp_ret, wp_modify.
Qed.
End memory.
End ServerMemory.
