(* ===== verification/ServerHooks.v ===== *)
(** * The server process

    The handlers of src/src/server/hooks on the state of the whole process: the
    connection of [Connection], the container of [Container] and its objects, the
    memory backend and the storage.  There is one memory: the messages, the receive
    buffers and the segments of the objects are blocks of it.  A request is
    unpacked from its receive buffer, runs on the container, and is answered by
    messages and RDMA operations of the connection.

    [Hooks] has the same handlers with the connection as a list of events; the ping
    is in [PingPong]. *)

From Stdlib Require Import String.
From S2P Require Import Prelude StdMap Memory Serializer Protocol ConsistencyTracker Interfaces World Object Container System Fabric LibfabricDomain ClientRegistry Connection Dispatch MemoryBackend MemoryCache Provider Hooks.

Module ServerHooks.
Import Serializer Protocol Object Container LibfabricDomain ClientRegistry Connection Dispatch MemoryBackend MemoryCache Provider.

(** The hooks of the server. *)
Inductive server_hook : Type :=
| HookPingPong | HookFlush | HookRangeRegister | HookRangeUnregister | HookObjectCreate | HookObjectRead | HookObjectWrite | HookObjectCow.

(** What the functions given to rdmaReadv and rdmaWritev capture. *)
Record rdma_done : Type := mkDone {
  rd_kind : rdma_kind;
  rd_lfClientId : Z;
  rd_ops : Z;
  rd_size : Z;
}.

(** What is above the connection: the container, its memory backend and its
    storage, the objects and the shared pointers ([World]), the counters [new int]
    of the RDMA operations, and struct ServerStats. *)
Record App {B St : Type} : Type := mkApp {
  ap_container : Container;
  ap_backend : B;
  ap_store : St;
  ap_shared : gmap Z (ObjectSegmentMemory * Z);
  ap_nextShared : Z;
  ap_objects : gmap Z Object;
  ap_nextObject : Z;
  ap_ops : gmap Z Z;
  ap_nextOps : Z;
  ap_readSize : Z;
  ap_writeSize : Z;
}.
Arguments App : clear implicits.
Arguments mkApp {B St}.

(** The structures of the requests before they are unpacked *)
Definition no_id : LibfabricObjectId := mkObjectId 0 0.
Definition no_flush : LibfabricObjFlushInfos := mkFlush no_id 0 0.
Definition no_create : LibfabricObjCreateInfos := mkCreate no_id.
Definition no_readWrite : LibfabricObjReadWriteInfos := mkReadWrite no_id (mkIov 0 0) 0 0 false 0.
Definition no_register : LibfabricRegisterRange := mkRegister no_id 0 0 false.
Definition no_unregister : LibfabricUnregisterRange := mkUnregister no_id 0 0 0 false.
Definition no_cow : LibfabricObjectCow := mkCow no_id no_id false 0 0.

(** ** What a request does to the container *)
Section requests.
Context {E St : Type} `{MemoryProvider E} `{StorageBackend St}.
Abbreviation C := (Container * World E St)%type.

Definition flush_object (objFlush : LibfabricObjFlushInfos) : M C Z :=
  let! object := getObject (Hooks.of_network (fl_objectId objFlush)) in
  lift (flush object (fl_offset objFlush) (fl_size objFlush)).

Definition create_object (objCreate : LibfabricObjCreateInfos) : M C Z :=
  let! object := getObject (Hooks.of_network (cr_objectId objCreate)) in
  lift (create object).

Definition cow_object (objCow : LibfabricObjectCow) : M C Z :=
  let sourceId := Hooks.of_network (cow_sourceObjectId objCow) in
  let destId := Hooks.of_network (cow_destObjectId objCow) in
  let! status :=
    if cow_rangeSize objCow =? 0 then makeObjectFullCow sourceId destId (cow_allowExist objCow)
    else makeObjectRangeCow sourceId destId (cow_allowExist objCow) (cow_rangeOffset objCow) (cow_rangeSize objCow) in
  ret (if status then 0 else -1).

Definition register_object (consistencyCheck : bool) (client : Z) (v : LibfabricRegisterRange) : M C Z :=
  let! object := getObject (Hooks.of_network (rr_objectId v)) in
  if consistencyCheck then lift (
    let! o := get_obj object in
    let '(status, tracker) := ConsistencyTracker.registerRange client (rr_offset v) (rr_size v)
      (Hooks.access_mode (rr_write v)) (o_consistencyTracker o) in
    update_obj object (set_tracker tracker) ;; ret status)
  else ret 0.

Definition unregister_object (consistencyCheck : bool) (client : Z) (v : LibfabricUnregisterRange) : M C Z :=
  let! object := getObject (Hooks.of_network (ur_objectId v)) in
  if consistencyCheck then lift (
    let! o := get_obj object in
    let '(found, tracker) := ConsistencyTracker.unregisterRange client (ur_id v) (ur_offset v) (ur_size v)
      (Hooks.access_mode (ur_write v)) (o_consistencyTracker o) in
    update_obj object (set_tracker tracker) ;; ret (if found then 0 else -1))
  else ret 0.

Definition read_buffers (v : LibfabricObjReadWriteInfos) : M C (bool * list ObjectSegmentDescr) :=
  let! object := getObject (Hooks.of_network (rw_objectId v)) in
  lift (getBuffers object (rw_offset v) (rw_size v) ACCESS_READ true false).

End requests.

(** ** The handlers *)
Section process.
Context {X B St : Type} `{Libc X} `{Libfabric X} `{Fabric X} `{StringStorage} `{!Backend X B} `{StorageBackend St}.
Abbreviation S := (Cx X (option server_hook) rdma_done (App B St)).
Abbreviation C := (Container * World (Sys X * B) St)%type.
Implicit Types (s : S) (cw : C).
(** The turns a waiting loop can take. *)
Variable fuel : nat.

(** The process seen from the container, and back. *)
Definition cw_of s : C :=
  let a := cx_app s in
  (ap_container a, mkWorld _ _ (cx_mem s) (cx_sys s, ap_backend a) (ap_store a) (ap_shared a) (ap_nextShared a) (ap_objects a) (ap_nextObject a)).
Definition put_cw cw s : S :=
  let a := cx_app s in
  let w := cw.2 in
  mkCx (w_env w).1 (w_mem w) (cx_actions s) (cx_nextAction s) (cx_conn s)
    (mkApp cw.1 (w_env w).2 (w_store w) (w_shared w) (w_nextShared w) (w_objects w) (w_nextObject w)
       (ap_ops a) (ap_nextOps a) (ap_readSize a) (ap_writeSize a)).
Definition on_cw {A} (m : M C A) : M S A := fun s =>
  match m (cw_of s) with Ok (a, cw) => Ok (a, put_cw cw s) | Abort f => Abort f end.
Definition on_world {A} (m : M (World (Sys X * B) St) A) : M S A := on_cw (lift m).

Definition with_app (a : App B St) s : S := mkCx (cx_sys s) (cx_mem s) (cx_actions s) (cx_nextAction s) (cx_conn s) a.
Definition set_ops (m : gmap Z Z) (next : Z) (a : App B St) : App B St :=
  mkApp (ap_container a) (ap_backend a) (ap_store a) (ap_shared a) (ap_nextShared a) (ap_objects a) (ap_nextObject a) m next (ap_readSize a) (ap_writeSize a).
Definition add_stats (rd wr : Z) (a : App B St) : App B St :=
  mkApp (ap_container a) (ap_backend a) (ap_store a) (ap_shared a) (ap_nextShared a) (ap_objects a) (ap_nextObject a) (ap_ops a) (ap_nextOps a)
    (ap_readSize a +u rd) (ap_writeSize a +u wr).
Definition on_app (f : App B St -> App B St) : M S unit := modify (fun s => with_app (f (cx_app s)) s).

(** *** Requests on the container *)

(** The end of a handler: the answer with its status, and the receive buffer *)
Definition answer_status (t : LibfabricMessageType) (request : LibfabricClientRequest) (status : Z) : M S LibfabricActionResult :=
  sendResponse fuel t (lfClientId request) status false ;;
  terminate request ;;
  ret LF_WAIT_LOOP_KEEP_WAITING.

(** HookFlush::onMessage *)
Definition serve_flush (request : LibfabricClientRequest) : M S LibfabricActionResult :=
  let! r := unpack "objFlush" no_flush (deserializer request) in
  let! ret := on_cw (flush_object r.1) in
  answer_status IOC_LF_MSG_OBJ_FLUSH_ACK request ret.

(** HookObjectCreate::onMessage *)
Definition serve_create (request : LibfabricClientRequest) : M S LibfabricActionResult :=
  let! r := unpack "objCreate" no_create (deserializer request) in
  let! ret := on_cw (create_object r.1) in
  answer_status IOC_LF_MSG_OBJ_CREATE_ACK request ret.

(** HookObjectCow::onMessage *)
Definition serve_cow (request : LibfabricClientRequest) : M S LibfabricActionResult :=
  let! r := unpack "objCow" no_cow (deserializer request) in
  let! status := on_cw (cow_object r.1) in
  answer_status IOC_LF_MSG_OBJ_COW_ACK request status.

(** HookRangeRegister::onMessage *)
Definition serve_register (consistencyCheck : bool) (request : LibfabricClientRequest) : M S LibfabricActionResult :=
  let! r := unpack "registerRange" no_register (deserializer request) in
  let! status := on_cw (register_object consistencyCheck (hdr_tcpClientId (header request)) r.1) in
  answer_status IOC_LF_MSG_OBJ_RANGE_REGISTER_ACK request status.

(** HookRangeUnregister::onMessage *)
Definition serve_unregister (consistencyCheck : bool) (request : LibfabricClientRequest) : M S LibfabricActionResult :=
  let! r := unpack "unregisterRange" no_unregister (deserializer request) in
  let! status := on_cw (unregister_object consistencyCheck (hdr_tcpClientId (header request)) r.1) in
  answer_status IOC_LF_MSG_OBJ_RANGE_UNREGISTER_ACK request status.

(** *** Reads *)

(** The loop of objEagerPushToClient; [i] stays 0 in it. *)
Definition push_fragment (dataSize baseOffset : Z) (acc : Z * list (option (Z * Z))) (segment : ObjectSegmentDescr)
    : M S (Z * list (option (Z * Z))) :=
  let i := 0%nat in
  let! piece := Hooks.eager_piece dataSize baseOffset acc.1 segment in
  ret (acc.1 +u piece.2, <[i := Some piece]> acc.2).

(** HookObjectRead::objEagerPushToClient: a fragment that is not set is undefined. *)
Definition objEagerPushToClient (lfClientId : Z) (objReadWrite : LibfabricObjReadWriteInfos) (segments : list ObjectSegmentDescr) : M S unit :=
  let! r := fold_m (push_fragment (rw_size objReadWrite) (rw_offset objReadWrite)) (0, replicate (length segments) None) segments in
  on_app (add_stats (rw_size objReadWrite) 0) ;;
  let! buffers := of_option FOverrun (mapM (fun x => x) r.2) in
  sendResponseFragments fuel IOC_LF_MSG_OBJ_READ_WRITE_ACK lfClientId 0 ((fun v => mkBuffer v.1 v.2) <$> buffers) false.

(** [new int], set to the number of operations to come *)
Definition new_ops (n : Z) : M S Z :=
  let! s := get in
  on_app (set_ops (<[ap_nextOps (cx_app s) := n]> (ap_ops (cx_app s))) (ap_nextOps (cx_app s) + 1)) ;;
  ret (ap_nextOps (cx_app s)).

(** One turn of the loops of objRdmaPushToClient and objRdmaFetchFromClient *)
Definition rdma_group (kind : rdma_kind) (lfClientId : Z) (iov : Iov) (ops size offset : Z) (grp : list (Z * Z)) : M S Z :=
  let addr := iov_addr iov +u offset in
  let f := mkDone kind lfClientId ops size in
  match kind with
  | RDMA_WRITE => rdmaWritev fuel (i32 lfClientId) grp addr (iov_key iov) f
  | RDMA_READ => rdmaReadv fuel (i32 lfClientId) grp addr (iov_key iov) f
  end ;;
  ret (foldl (fun o v => o +u v.2) offset grp).

(** HookObjectRead::objRdmaPushToClient and HookObjectWrite::objRdmaFetchFromClient *)
Definition objRdma (kind : rdma_kind) (lfClientId : Z) (objReadWrite : LibfabricObjReadWriteInfos)
    (segments : list ObjectSegmentDescr) : M S unit :=
  let iov := (buildIovec segments (rw_offset objReadWrite) (rw_size objReadWrite)).2 in
  let l := Hooks.groups (length iov) iov in
  let! ops := new_ops (Z.of_nat (length l)) in
  let! _ := fold_m (rdma_group kind lfClientId (rw_iov objReadWrite) ops (rw_size objReadWrite)) 0 l in
  ret tt.

(** The functions given to rdmaWritev and rdmaReadv *)
Definition onRdmaDone (f : rdma_done) : M S LibfabricActionResult :=
  let! s := get in
  let! ops := of_option FNullPointer (ap_ops (cx_app s) !! rd_ops f) in
  on_app (set_ops (<[rd_ops f := ops - 1]> (ap_ops (cx_app s))) (ap_nextOps (cx_app s))) ;;
  (if ops - 1 =? 0 then
     on_app (match rd_kind f with RDMA_WRITE => add_stats (rd_size f) 0 | RDMA_READ => add_stats 0 (rd_size f) end) ;;
     sendResponse fuel IOC_LF_MSG_OBJ_READ_WRITE_ACK (rd_lfClientId f) 0 false ;;
     let! s := get in
     on_app (set_ops (delete (rd_ops f) (ap_ops (cx_app s))) (ap_nextOps (cx_app s)))
   else ret tt) ;;
  ret LF_WAIT_LOOP_KEEP_WAITING.

(** HookObjectRead::onMessage *)
Definition serve_read (request : LibfabricClientRequest) : M S LibfabricActionResult :=
  let! r := unpack "objReadWrite" no_readWrite (deserializer request) in
  let objReadWrite := r.1 in
  let! b := on_cw (read_buffers objReadWrite) in
  (if b.1 then
     if rw_size objReadWrite <=? IOC_EAGER_MAX_READ
     then objEagerPushToClient (lfClientId request) objReadWrite b.2
     else objRdma RDMA_WRITE (lfClientId request) objReadWrite b.2
   else sendResponse fuel IOC_LF_MSG_OBJ_READ_WRITE_ACK (lfClientId request) (-1) false) ;;
  terminate request ;;
  ret LF_WAIT_LOOP_KEEP_WAITING.

(** *** Writes *)

(** The loop of objEagerExtractFromMessage: the data is copied from the receive
    buffer of the request. *)
Definition extract_fragment (data dataSize baseOffset cur : Z) (segment : ObjectSegmentDescr) : M S Z :=
  let! piece := Hooks.eager_piece dataSize baseOffset cur segment in
  modify (fun s => with_mem (wr (cx_mem s) piece.1 (rd (cx_mem s) (data + cur) piece.2)) s) ;;
  ret (cur +u piece.2).

(** HookObjectWrite::objEagerExtractFromMessage *)
Definition objEagerExtractFromMessage (lfClientId : Z) (objReadWrite : LibfabricObjReadWriteInfos) (segments : list ObjectSegmentDescr) : M S unit :=
  let data := rw_optionalData objReadWrite in
  assert_ (negb (data =? 0)) ;;
  let! cur := fold_m (extract_fragment data (rw_size objReadWrite) (rw_offset objReadWrite)) 0 segments in
  on_app (add_stats 0 cur) ;;
  sendResponse fuel IOC_LF_MSG_OBJ_READ_WRITE_ACK lfClientId 0 false.

(** HookObjectWrite::onMessage *)
Definition serve_write (request : LibfabricClientRequest) : M S LibfabricActionResult :=
  let! r := unpack "objReadWrite" no_readWrite (deserializer request) in
  let objReadWrite := r.1 in
  let! object := on_cw (getObject (Hooks.of_network (rw_objectId objReadWrite))) in
  let! b := on_world (getBuffers object (rw_offset objReadWrite) (rw_size objReadWrite) ACCESS_WRITE true true) in
  (if b.1 then
     if rw_msgHasData objReadWrite
     then objEagerExtractFromMessage (lfClientId request) objReadWrite b.2
     else objRdma RDMA_READ (lfClientId request) objReadWrite b.2
   else sendResponse fuel IOC_LF_MSG_OBJ_READ_WRITE_ACK (lfClientId request) 0 false) ;;
  on_world (markDirty object (rw_offset objReadWrite) (rw_size objReadWrite)) ;;
  terminate request ;;
  ret LF_WAIT_LOOP_KEEP_WAITING.

(** Hook::onMessage of the hooks of the server; [onPing] is the one of HookPingPong *)
Definition server_onMessage (consistencyCheck : bool) (onPing : LibfabricClientRequest -> M S LibfabricActionResult) (h : server_hook) (request : LibfabricClientRequest) : M S LibfabricActionResult :=
  match h with
  | HookFlush => serve_flush request
  | HookRangeRegister => serve_register consistencyCheck request
  | HookRangeUnregister => serve_unregister consistencyCheck request
  | HookObjectCreate => serve_create request
  | HookObjectRead => serve_read request
  | HookObjectWrite => serve_write request
  | HookObjectCow => serve_cow request
  | HookPingPong => onPing request
  end.
End process.
End ServerHooks.
