(* ===== verification/ServerInv.v ===== *)
(** * The invariant of the server process

    The invariant of the connection and the one of the container, on one memory:
    the blocks of the cache ([own]) and the others ([rest]), where the message
    buffers and the receive buffers are.  A step of the container keeps the
    connection, a message keeps what the objects show. *)

From Stdlib Require Import String.
From S2P Require Import Prelude StdMap Memory Serializer Protocol Interfaces World WorldInv View Object Calm Container System Fabric LibfabricDomain ClientRegistry Connection Dispatch ConnectionInv ConnectionSend ConnectionPoll MemoryBackend MemoryCache Provider Hooks Requests ServerMemory ServerHooks.

Module ServerInv.
Import Serializer Protocol Container LibfabricDomain ClientRegistry Connection Dispatch ConnectionInv ConnectionSend ConnectionPoll MemoryBackend MemoryCache Provider Requests ServerMemory ServerHooks.

(** A function of an RDMA operation has no receive buffer to give back. *)
Definition no_holds (f : rdma_done) : list Z := [].

(** The registered blocks of the cache are not message buffers. *)
Definition owned (own : heap) : Users := fun p => is_Some (own !! p).
Abbreviation owned_ok own := (conn_ok (users := owned own) no_holds).

(** The heap is determined by the process. *)
Lemma rep_unique {X} `{LibfabricOk X} (x : Sys X) G G' : sys_rep x G -> sys_rep x G' -> G = G'.
Proof.
  intros [Hl _ Hr] [Hl' _ Hr']. apply map_eq. intros p.
  assert (fst <$> G !! p = fst <$> G' !! p) as Hp by (rewrite <- !lookup_fmap; congruence).
  destruct (G !! p) as [[n b]|] eqn:E, (G' !! p) as [[n' b']|] eqn:E'; simpl in Hp; try done. injection Hp as ->.
  destruct b, b'; try done.
  - apply Hr, Hr' in E. congruence.
  - apply Hr', Hr in E'. congruence.
Qed.

Section inv.
Context {X St : Type} `{Libc X} `{!LibcOk X} `{Libfabric X} `{!LibfabricOk X} `{Fabric X} `{!FabricOk X} `{StorageOk St}.
Abbreviation B := (Cache Malloc).
Abbreviation S := (Cx X (option server_hook) rdma_done (App B St)).
Abbreviation C := (Container * World (Sys X * B) St)%type.
Implicit Types (s : S) (cw : C) (own rest : heap).

(** The container, when the cache has the blocks [own] and at least them. *)
Definition cw_ok own rest (x : Sys X) cw : Prop := @container_ok _ _ _ (frame_ok own rest x) cw.

Record server_ok own rest (held busy : list Z) (d : Z) s : Prop := {
  sv_conn : owned_ok own (own ∪ rest) held busy d s;
  sv_apart : own ##ₘ rest;
  sv_pool : forall p, p ∈ msgBuffers (s_domain (cx_sys s)) -> is_Some (rest !! p);
  sv_acts : forall a act, cx_actions s !! a = Some act -> pa_domainBuffer act = 0 \/ is_Some (rest !! pa_domainBuffer act);
  sv_recv : forall p, p ∈ recvBuffers (cx_conn s) -> is_Some (rest !! p);
  sv_cw : cw_ok own rest (cx_sys s) (cw_of s);
}.

(** The RDMA operations under way write in the objects at the addresses [T] only. *)
Definition fetching (T : Z -> Prop) own s : Prop := forall a, fa_target (s_ext (cx_sys s)) a -> in_block own a -> T a.

(** No RDMA operation is writing in the objects. *)
Definition idle own s : Prop := fetching (fun _ => False) own s.

(** The invariant of the container depends on the heap only through the memory
    backend. *)
Lemma cw_reframe own rest x own' rest' x' c (w : World (Sys X * B) St) f e :
  cw_ok own rest x (c, w) ->
  (forall used, kept_inv (framed own rest x) (w_env w) used -> kept_inv (framed own' rest' x') e used) ->
  cw_ok own' rest' x' (c, World.set_mem f (set_env e w)).
Proof.
  intros [[(used & Hi & Hso) Hcnt Hlive Hnext Hnexto Hmem Hobjs] Hs He Hn Ha Hm] Hk. cbn [fst snd] in *. constructor; try done. constructor; try done.
  - exists used. split; [by apply Hk|done].
  - intros p o Ho. destruct (Hobjs _ _ Ho). by constructor.
Qed.

(** The blocks in use are those of the cache. *)
Lemma cw_used own rest x cw :
  cw_ok own rest x cw -> sys_rep (w_env cw.2).1 (own ∪ rest) -> own ##ₘ rest ->
  exists used, shared_ok (w_shared cw.2) used None /\ mb_inv (w_env cw.2).2 (fst <$> used) own.
Proof.
  intros Hc Hr Hd. destruct (wo_env _ _ _ (co_world _ Hc)) as (used & (own' & rest' & Hr' & Hd' & Hi & Hmax & -> & _) & Hso).
  exists used. assert (own' = own) as ->; [|done].
  pose proof (rep_unique _ _ _ Hr' Hr) as E. by eapply map_union_cancel_r.
Qed.

(** The memory of a segment is a block of the cache. *)
Lemma cw_block own rest x cw id m c :
  cw_ok own rest x cw -> sys_rep (w_env cw.2).1 (own ∪ rest) -> own ##ₘ rest -> w_shared cw.2 !! id = Some (m, c) ->
  exists r, own !! osm_buffer m = Some (osm_size m, r).
Proof.
  intros Hc Hr Hd Hm. destruct (cw_used _ _ _ _ Hc Hr Hd) as (used & Hso & Hi). apply (so_used _ _ _ Hso) in Hm.
  eapply (mb_own _ _ _ _ _ Hi). by rewrite lookup_fmap, Hm.
Qed.

Lemma sv_rep own rest held busy d s : server_ok own rest held busy d s -> sys_rep (cx_sys s) (own ∪ rest).
Proof. intros Hs. apply (po_rep _ _ _ (co_pool _ _ _ _ _ _ (sv_conn _ _ _ _ _ _ Hs))). Qed.

(** ** Steps of the container *)

(** What the container leaves alone in the process. *)
Record beside s s' : Prop := {
  be_conn : cx_conn s' = cx_conn s;
  be_actions : cx_actions s' = cx_actions s;
  be_next : cx_nextAction s' = cx_nextAction s;
  be_sys : sys_kept (cx_sys s) (cx_sys s');
  be_ops : ap_ops (cx_app s') = ap_ops (cx_app s) /\ ap_nextOps (cx_app s') = ap_nextOps (cx_app s);
  be_stats : ap_readSize (cx_app s') = ap_readSize (cx_app s) /\ ap_writeSize (cx_app s') = ap_writeSize (cx_app s);
}.

Lemma beside_ep s s' : beside s s' -> ep s' = ep s.
Proof. intros []. apply (sk_ep _ _ be_sys0). Qed.

Lemma beside_conn_ok own own' G G' held busy d s s' :
  owned_ok own G held busy d s -> beside s s' -> G ⊆ G' -> own ⊆ own' ->
  (forall p v, G' !! p = Some v -> is_Some (own' !! p) \/ G !! p = Some v) ->
  sys_rep (cx_sys s') G' -> owned_ok own' G' held busy d s'.
Proof.
  intros Hc Hb HG Hown Hnew Hr. pose proof (beside_ep _ _ Hb) as He. destruct Hb as [Hcn Ha Hn [Hm Hsz Hep Ht] _ _].
  assert (flight s' = flight s) as Hf by (unfold flight; by rewrite He, Hcn).
  assert (all_bufs s' busy = all_bufs s busy) as Hab by (unfold all_bufs; by rewrite Hm, Hf, Ha).
  destruct Hc. constructor; unfold all_recvs in *; rewrite ?Hf, ?Ha, ?Hn, ?He, ?Hcn; try done.
  - destruct co_pool0 as [_ Hnd Hs Hpos]. constructor; rewrite ?Hm, ?Hsz; try done. intros p Hp. eapply lookup_weaken; [by apply Hs|done].
  - intros a Hta. rewrite Hab. destruct (co_target0 _ (Ht _ Hta)) as (p & n & r & Hp & Hin). exists p, n, r. split; [by eapply lookup_weaken|done].
  - intros p Hp. eapply lookup_weaken; [by apply co_rbufs0|done].
  - intros p n Hp. rewrite Hab. destruct (Hnew _ _ Hp) as [?|Hp']; [by left|]. destruct (co_bufs0 _ _ Hp') as [[v Hv]|?]; [|by right].
    left. exists v. by eapply lookup_weaken.
Qed.

(** A step of the container keeps the connection. *)
Lemma put_cw_ok own rest held busy d s cw :
  server_ok own rest held busy d s -> cw_ok own rest (cx_sys s) cw ->
  beside s (put_cw cw s) /\ exists own', own ⊆ own' /\ server_ok own' rest held busy d (put_cw cw s).
Proof.
  intros Hs Hc. destruct (wo_env _ _ _ (co_world _ Hc)) as (used & (own' & rest' & Hr & Hd & Hi & Hmax & -> & Hsub & Hk) & Hso).
  assert (beside s (put_cw cw s)) as Hb by by constructor. split; [done|]. exists own'. split; [done|].
  assert (cw_of (put_cw cw s) = cw) as Ecw by (destruct cw as [c [? [] ? ? ? ? ?]]; done).
  destruct Hs as [Hcn _ Hp Ha Hrb _]. constructor; try done.
  - eapply beside_conn_ok; [exact Hcn|done|by apply map_union_mono_r|done| |exact Hr]. intros p v. destruct (own' !! p) as [u|] eqn:E; [by left; eexists|].
    rewrite lookup_union_r by done. intros Hv. right. rewrite lookup_union_r; [done|]. by eapply lookup_weaken_None.
  - intros p. change (cx_sys (put_cw cw s)) with (w_env cw.2).1. rewrite (sk_msgs _ _ Hk). apply Hp.
  - rewrite Ecw. destruct cw as [c w]. replace w with (World.set_mem (fun m => m) (set_env (w_env w) w)) by by destruct w.
    eapply cw_reframe; [exact Hc|]. intros used' (o2 & r2 & Hr2 & Hd2 & Hi2 & Hm2 & -> & Hsub2 & Hk2). exists o2, rest. split_and!; try done.
    assert (o2 = own') as ->; [|done]. pose proof (rep_unique _ _ _ Hr2 Hr). by eapply map_union_cancel_r.
Qed.

Lemma wp_container F {A} (m : M C A) (Q : A -> C -> Prop) own rest held busy d s :
  server_ok own rest held busy d s ->
  wp F m (fun a cw => cw_ok own rest (cx_sys s) cw /\ Q a cw) (cw_of s) ->
  wp F (on_cw m) (fun a s' => beside s s' /\ Q a (cw_of s') /\ exists own', own ⊆ own' /\ server_ok own' rest held busy d s') s.
Proof.
  intros Hs. unfold wp, on_cw. destruct (m (cw_of s)) as [[a cw]|f]; [|done]. intros [Hc HQ].
  destruct (put_cw_ok _ _ _ _ _ _ _ Hs Hc) as [Hb Ho]. split; [done|]. split; [|done].
  assert (cw_of (put_cw cw s) = cw) as -> by (destruct cw as [c [? [] ? ? ? ? ?]]; done). done.
Qed.

(** ** Messages *)

(** What a message changes for the container: the memory outside the segments, and
    the memory backend sees other blocks. *)
Record cw_kept cw cw' : Prop := {
  ck_cw : exists f e, cw' = (cw.1, World.set_mem f (set_env e cw.2));
  ck_shown : forall i x, shown cw' i x = shown cw i x;
}.

(** The same while operations write in the segments at the addresses [T]. *)
Definition cw_but (T : Z -> Prop) own cw cw' : Prop :=
  exists f e, cw' = (cw.1, World.set_mem f (set_env e cw.2)) /\ forall a, in_block own a -> ~ T a -> f (w_mem cw.2) a = w_mem cw.2 a.

(** Nothing but the memory of the connection is written. *)
Lemma cw_kept_intro own rest x cw f e :
  cw_ok own rest x cw -> sys_rep (w_env cw.2).1 (own ∪ rest) -> own ##ₘ rest ->
  (forall a, in_block own a -> f (w_mem cw.2) a = w_mem cw.2 a) ->
  cw_kept cw (cw.1, World.set_mem f (set_env e cw.2)).
Proof.
  intros Hc Hr Hd Hm. split; [eauto|]. intros i y. unfold shown. cbn [fst snd]. destruct (sm_find i _) as [p|]; [|done].
  simpl. destruct (w_objects cw.2 !! p) as [o|] eqn:Ho; [|done]. simpl.
  eapply (obj_view_ext (H0 := frame_ok own rest x)); [exact (co_world _ Hc)|exact Ho|done| |done].
  intros id m c a Hid Hsh Ha. simpl. apply Hm. destruct (cw_block _ _ _ _ _ _ _ Hc Hr Hd Hsh) as [r Hb].
  by exists (osm_buffer m), (osm_size m), r.
Qed.

Lemma cw_but_kept own rest held busy d s cw' :
  server_ok own rest held busy d s -> cw_but (fun _ => False) own (cw_of s) cw' -> cw_kept (cw_of s) cw'.
Proof.
  intros Hs (f & e & -> & Hf). eapply cw_kept_intro; [exact (sv_cw _ _ _ _ _ _ Hs)|exact (sv_rep _ _ _ _ _ _ Hs)|exact (sv_apart _ _ _ _ _ _ Hs)|].
  intros a Ha. apply (Hf a Ha). by intros [].
Qed.

Lemma cw_but_refl T own cw : cw_but T own cw cw.
Proof. exists (fun m => m), (w_env cw.2). split; [by destruct cw as [c []]|done]. Qed.

Lemma cw_but_trans T own cw1 cw2 cw3 : cw_but T own cw1 cw2 -> cw_but T own cw2 cw3 -> cw_but T own cw1 cw3.
Proof.
  intros (f & e & -> & Hf) (g & e' & -> & Hg). exists (fun m => g (f m)), e'. split; [done|]. intros a Ha Hn. simpl in *. by rewrite Hg, Hf.
Qed.

Lemma cw_but_weaken (T T' : Z -> Prop) own cw cw' : (forall a, T a -> T' a) -> cw_but T own cw cw' -> cw_but T' own cw cw'.
Proof. intros HT (f & e & -> & Hf). exists f, e. split; [done|]. auto. Qed.

(** The connection has changed, the cache has the same blocks. *)
Lemma server_conn_step T own rest held busy d held' busy' d' s s' G' :
  server_ok own rest held busy d s -> own ∪ rest ⊆ G' -> owned_ok own G' held' busy' d' s' ->
  cx_app s' = cx_app s -> recvBuffers (cx_conn s') = recvBuffers (cx_conn s) ->
  (forall p, p ∈ msgBuffers (s_domain (cx_sys s')) -> is_Some (G' !! p) /\ own !! p = None) ->
  (forall a act, cx_actions s' !! a = Some act -> pa_domainBuffer act = 0 \/
     is_Some (G' !! pa_domainBuffer act) /\ own !! pa_domainBuffer act = None) ->
  (forall a, in_block own a -> ~ T a -> cx_mem s' a = cx_mem s a) ->
  server_ok own (G' ∖ own) held' busy' d' s' /\ cw_but T own (cw_of s) (cw_of s').
Proof.
  intros Hs HG Hc' Happ Hrb Hpool Hacts Hmem. pose proof (sv_rep _ _ _ _ _ _ Hs) as Hr. destruct Hs as [Hc Hd Hp Ha Hrv Hcw].
  assert (own ⊆ G') as Hown by (etransitivity; [apply map_union_subseteq_l|exact HG]).
  assert (own ∪ G' ∖ own = G') as EG by by apply map_difference_union.
  assert (own ##ₘ G' ∖ own) as Hd' by by apply map_disjoint_difference_r1.
  assert (forall p, is_Some (G' !! p) -> own !! p = None -> is_Some ((G' ∖ own) !! p)) as Hin.
  { intros p [v Hv] Ho. exists v. by apply lookup_difference_Some. }
  set (e := (cx_sys s', ap_backend (cx_app s))).
  assert (cw_of s' = ((cw_of s).1, World.set_mem (fun _ => cx_mem s') (set_env e (cw_of s).2))) as Ecw by (unfold cw_of; by rewrite Happ).
  split; [|rewrite Ecw; by exists (fun _ => cx_mem s'), e]. constructor; rewrite ?EG; try done.
  - intros p Hq. destruct (Hpool p Hq). auto.
  - intros a act Hact. destruct (Hacts a act Hact) as [?|[? ?]]; auto.
  - intros p. rewrite Hrb. intros Hq. destruct (Hrv p Hq) as [v Hv].
    pose proof (map_disjoint_Some_r _ _ _ _ Hd Hv) as Ho. apply Hin; [|done]. exists v. eapply lookup_weaken; [|exact HG]. by rewrite lookup_union_r.
  - rewrite Ecw. destruct (cw_of s) as [c w] eqn:E0. eapply cw_reframe; [exact Hcw|].
    intros used (o2 & r2 & Hr2 & Hd2 & Hi2 & Hm2 & -> & _ & _).
    assert (o2 = own) as ->. { injection E0 as _ <-. pose proof (rep_unique _ _ _ Hr2 Hr). by eapply map_union_cancel_r. }
    exists own, (G' ∖ own). injection E0 as _ <-. split_and!; try done.
    rewrite EG. exact (po_rep _ _ _ (co_pool _ _ _ _ _ _ Hc')).
Qed.

Lemma holds_nothing body : body_holds no_holds body = [].
Proof. by destruct body. Qed.

(** The blocks of the connection are not those of the cache. *)
Lemma own_apart own rest held busy d s a p n :
  server_ok own rest held busy d s -> rest !! p = Some n -> p <= a < p + n.1 -> ~ in_block own a.
Proof.
  intros Hs Hp Ha (q & k & r & Hq & Hin). destruct n as [n b]. pose proof (sv_rep _ _ _ _ _ _ Hs) as Hr. pose proof (sv_apart _ _ _ _ _ _ Hs) as Hd.
  assert (q <> p) as Hne by (intros ->; by eapply map_disjoint_spec).
  pose proof (rep_apart _ _ _ _ _ _ _ _ Hr (own_lookup _ rest _ _ Hq) (eq_trans (lookup_union_r _ _ _ (map_disjoint_Some_r _ _ _ _ Hd Hp)) Hp) Hne) as Hda.
  unfold disjoint in Hda. simpl in Ha. lia.
Qed.

Section send.
Variable fuel : nat.

(** A message is sent while operations write at the addresses [U]. *)
Lemma wp_send_under {T} `{MessageOk T} (U : Z -> Prop) own rest held busy d s body msgType dest (data : T) addr :
  let bytes := m_bytes (cx_mem s) (fillProtocolHeader (msg_code msgType) (cx_conn s)) ++ m_bytes (cx_mem s) data in
  server_ok own rest held busy d s -> fetching U own s -> patient fuel s ->
  sm_find dest (remoteLiAddr (cx_conn s)) = Some addr ->
  m_wf (fillProtocolHeader (msg_code msgType) (cx_conn s)) -> m_wf data ->
  blen bytes <= msgBufferSize (s_domain (cx_sys s)) -> blen bytes <= recvBuffersSize (cx_conn s) ->
  Forall (outside (own ∪ rest) (all_bufs s busy)) (m_regions data) ->
  wp pool_fault (let! a := new_action body in sendMessage fuel msgType dest data a)
    (fun _ s' => message_sent s addr bytes s' /\ cw_but U own (cw_of s) (cw_of s') /\ fetching U own s' /\
       exists rest', server_ok own rest' held busy d s') s.
Proof.
  intros bytes Hs Hid Hp Hd Hh Hw Hl1 Hl2 Hreg. eapply wp_mono.
  { apply (wp_send_buffer (users := owned own) no_holds fuel (own ∪ rest) held busy d s body msgType dest data addr); try done.
    rewrite holds_nothing. apply (sv_conn _ _ _ _ _ _ Hs). }
  intros _ s' (Hms & (p & [Hnew Hpl Hacts Hm Ht Hsz Hlive]) & G' & HG & Hc'). split; [done|].
  pose proof (po_rep _ _ _ (co_pool _ _ _ _ _ _ Hc')) as Hrep. pose proof (sv_apart _ _ _ _ _ _ Hs) as Hapart.
  assert (forall q, is_Some (rest !! q) -> is_Some (G' !! q) /\ own !! q = None) as Hrest.
  { intros q [v Hv]. pose proof (map_disjoint_Some_r _ _ _ _ Hapart Hv) as Ho. split; [|done]. exists v.
    eapply lookup_weaken; [|exact HG]. by rewrite lookup_union_r. }
  assert (is_Some (G' !! p) /\ own !! p = None) as Hpin.
  { destruct Hnew as [Hin|Hno]; [by apply Hrest, (sv_pool _ _ _ _ _ _ Hs)|]. apply lookup_union_None in Hno as [Hno _]. split; [|done].
    rewrite (sr_live _ _ Hrep), lookup_fmap in Hlive. by destruct (G' !! p). }
  assert (fetching U own s') as Hid' by (intros a Ha; by apply Hid, Ht).
  destruct (server_conn_step U own rest held busy d held busy d s s' G' Hs HG Hc') as [Hs' Hk].
  - apply (ms_app _ _ _ _ Hms).
  - by rewrite (ms_conn _ _ _ _ Hms).
  - intros q Hq. by apply Hrest, (sv_pool _ _ _ _ _ _ Hs), Hpl.
  - intros b act Hact. destruct (Hacts b act Hact) as [?|[->|(act0 & Hact0 & ->)]]; [by left|by right|].
    destruct (sv_acts _ _ _ _ _ _ Hs _ _ Hact0); [by left|right]. by apply Hrest.
  - intros a Ha Hn. apply Hm; [intros Hta; by apply Hn, Hid|]. clear Hn. intros Hin. destruct Hpin as [[[n b] Hn] Hown].
    destruct Ha as (q & k & r & Hq & Ha). assert (q <> p) as Hne by (intros ->; congruence).
    assert (G' !! q = Some (k, r)) as Hq' by (eapply lookup_weaken; [|exact HG]; by apply own_lookup).
    pose proof (rep_apart _ _ _ _ _ _ _ _ Hrep Hq' Hn Hne) as Hda. unfold disjoint in Hda.
    apply (rep_live _ _ _ _ _ Hrep) in Hn. rewrite Hlive in Hn. injection Hn as <-. lia.
  - split; [done|]. split; [done|]. by exists (G' ∖ own).
Qed.

(** A message is sent: the objects keep what they show. *)
Lemma wp_server_send {T} `{MessageOk T} own rest held busy d s body msgType dest (data : T) addr :
  let bytes := m_bytes (cx_mem s) (fillProtocolHeader (msg_code msgType) (cx_conn s)) ++ m_bytes (cx_mem s) data in
  server_ok own rest held busy d s -> idle own s -> patient fuel s ->
  sm_find dest (remoteLiAddr (cx_conn s)) = Some addr ->
  m_wf (fillProtocolHeader (msg_code msgType) (cx_conn s)) -> m_wf data ->
  blen bytes <= msgBufferSize (s_domain (cx_sys s)) -> blen bytes <= recvBuffersSize (cx_conn s) ->
  Forall (outside (own ∪ rest) (all_bufs s busy)) (m_regions data) ->
  wp pool_fault (let! a := new_action body in sendMessage fuel msgType dest data a)
    (fun _ s' => message_sent s addr bytes s' /\ cw_kept (cw_of s) (cw_of s') /\ idle own s' /\
       exists rest', server_ok own rest' held busy d s') s.
Proof.
  intros bytes Hs Hid Hp Hd Hh Hw Hl1 Hl2 Hreg. eapply wp_mono; [by eapply wp_send_under|].
  intros _ s' (Hms & Hk & Hrest). split; [done|]. split; [by eapply cw_but_kept|done].
Qed.

(** *** The receive buffer of a request *)
Lemma repost_frame id s :
  wp any (repostReceive id) (fun _ s' => s_domain (cx_sys s') = s_domain (cx_sys s) /\
    forall a, fa_target (s_ext (cx_sys s')) a -> fa_target (s_ext (cx_sys s)) a \/
      exists p, p ∈ recvBuffers (cx_conn s) /\ p <= a < p + recvBuffersSize (cx_conn s)) s.
Proof.
  unfold repostReceive. apply wp_bind, wp_gets, wp_bind. destruct (_ !! _) as [p|] eqn:Ep; [|done]. apply wp_ret, wp_bind. unfold fabric, wp at 1.
  pose proof (fi_recv_target (s_ext (cx_sys s)) p (recvBuffersSize (cx_conn s)) id) as Ht. cbv zeta in Ht.
  destruct (fi_recv _ _ _ _) as [err x]. simpl in *. unfold guard_. destruct (err =? 0); [|done]. apply wp_ret. split; [done|].
  intros a [Ha|Ha]%Ht; [by left|right]. exists p. split; [by eapply list_elem_of_lookup_2|done].
Qed.

Lemma wp_repost_under T own rest held busy d s id :
  server_ok own rest (id :: held) busy d s -> fetching T own s ->
  wp resource (repostReceive id) (fun _ s' => ep_sent (ep s') = ep_sent (ep s) /\ cw_but T own (cw_of s) (cw_of s') /\ fetching T own s' /\
    exists rest', server_ok own rest' held busy d s') s.
Proof.
  intros Hs Hid. eapply wp_mono; [eapply wp_also; [apply (wp_repostReceive (users := owned own) no_holds _ _ _ _ _ _ (sv_conn _ _ _ _ _ _ Hs))|apply repost_frame]|].
  intros _ s' [(Hc' & Hcn & Hap & Hm & Hact & Hsent & _) [Hdom Ht]]. split; [done|].
  destruct (server_conn_step T own rest (id :: held) busy d held busy d s s' (own ∪ rest) Hs ltac:(done) Hc') as [Hs' Hk].
  - done.
  - by rewrite Hcn.
  - rewrite Hdom. intros p Hp. destruct (sv_pool _ _ _ _ _ _ Hs p Hp) as [v Hv]. pose proof (map_disjoint_Some_r _ _ _ _ (sv_apart _ _ _ _ _ _ Hs) Hv).
    rewrite lookup_union_r by done. split; [by exists v|done].
  - rewrite Hact. intros a act Ha. destruct (sv_acts _ _ _ _ _ _ Hs a act Ha) as [?|[v Hv]]; [by left|right].
    pose proof (map_disjoint_Some_r _ _ _ _ (sv_apart _ _ _ _ _ _ Hs) Hv). rewrite lookup_union_r by done. split; [by exists v|done].
  - intros a _ _. by rewrite Hm.
  - split; [done|]. split; [|by eexists]. intros a [Ha|(p & Hp & Ha)]%Ht; [by apply Hid|]. intros Hin. exfalso. revert Hin.
    destruct (sv_recv _ _ _ _ _ _ Hs p Hp) as [v Hv]. eapply own_apart; [exact Hs|exact Hv|].
    pose proof (co_rbufs _ _ _ _ _ _ (sv_conn _ _ _ _ _ _ Hs) p Hp) as Hb.
    rewrite lookup_union_r in Hb by (eapply map_disjoint_Some_r; [exact (sv_apart _ _ _ _ _ _ Hs)|exact Hv]). rewrite Hv in Hb. by injection Hb as ->.
Qed.

Lemma wp_server_repost own rest held busy d s id :
  server_ok own rest (id :: held) busy d s -> idle own s ->
  wp resource (repostReceive id) (fun _ s' => ep_sent (ep s') = ep_sent (ep s) /\ cw_kept (cw_of s) (cw_of s') /\ idle own s' /\
    exists rest', server_ok own rest' held busy d s') s.
Proof.
  intros Hs Hid. eapply wp_mono; [by eapply wp_repost_under|]. intros _ s' (Hsent & Hk & Hrest). split; [done|]. split; [by eapply cw_but_kept|done].
Qed.

(** *** Answers *)

(** The bytes of an answer without data. *)
Definition status_bytes (t : LibfabricMessageType) (status : Z) s : list byte :=
  m_bytes (cx_mem s) (fillProtocolHeader (msg_code t) (cx_conn s)) ++ m_bytes (cx_mem s) (mkResponse 0 status false 0 None 0).

Lemma status_size t status s : blen (status_bytes t status s) = 45.
Proof. unfold status_bytes. rewrite length_app, Nat2Z.inj_add, header_size. simpl. rewrite !length_app, !le_split_length. done. Qed.

Lemma cw_kept_refl cw : cw_kept cw cw.
Proof. split; [|done]. exists (fun m => m), (w_env cw.2). by destruct cw as [c []]. Qed.
Lemma cw_kept_trans cw1 cw2 cw3 : cw_kept cw1 cw2 -> cw_kept cw2 cw3 -> cw_kept cw1 cw3.
Proof.
  intros [(f & e & ->) Hsh] [(g & e' & ->) Hsh']. split; [by exists (fun m => g (f m)), e'|]. intros i x. by rewrite Hsh'.
Qed.

(** The client is known and the messages fit. *)
Record answerable s (lf addr : Z) : Prop := {
  an_patient : patient fuel s;
  an_ready : ready no_holds s;
  an_client : sm_find (i32 lf) (remoteLiAddr (cx_conn s)) = Some addr;
}.

Lemma answerable_beside s s' lf addr : beside s s' -> answerable s lf addr -> answerable s' lf addr.
Proof.
  intros Hb [Hp Hr Hc]. pose proof (beside_ep _ _ Hb) as He. destruct Hb as [Hcn _ _ [_ Hsz _ _] _ _]. constructor.
  - unfold patient in *. by rewrite He.
  - destruct Hr. by constructor; rewrite ?Hcn, ?Hsz.
  - by rewrite Hcn.
Qed.

Lemma wp_status_under T own rest held busy d s t lf addr status :
  server_ok own rest held busy d s -> fetching T own s -> answerable s lf addr -> is_i32 status ->
  wp pool_fault (sendResponse fuel t lf status false)
    (fun _ s' => message_sent s addr (status_bytes t status s) s' /\ cw_but T own (cw_of s) (cw_of s') /\ fetching T own s' /\
       exists rest', server_ok own rest' held busy d s') s.
Proof.
  intros Hs Hid [Hp Hr Hd] Hst. pose proof (re_msg _ _ Hr). pose proof (re_recv _ _ Hr). unfold sendResponse, sendNop.
  apply (wp_send_under T own rest); try done; try (by apply (header_wf no_holds)); try constructor; try (fold (status_bytes t status s); rewrite status_size; lia); by split_and!.
Qed.

Lemma wp_sendStatus own rest held busy d s t lf addr status :
  server_ok own rest held busy d s -> idle own s -> answerable s lf addr -> is_i32 status ->
  wp pool_fault (sendResponse fuel t lf status false)
    (fun _ s' => message_sent s addr (status_bytes t status s) s' /\ cw_kept (cw_of s) (cw_of s') /\ idle own s' /\
       exists rest', server_ok own rest' held busy d s') s.
Proof.
  intros Hs Hid Ha Hst. eapply wp_mono; [by eapply wp_status_under|]. intros _ s' (Hms & Hk & Hrest). split; [done|]. split; [by eapply cw_but_kept|done].
Qed.

(** The end of a handler: one message, and the receive buffer is given back. *)
Record answered own held busy d s (addr : Z) (msg : list byte) s' : Prop := {
  aw_sent : ep_sent (ep s') = ep_sent (ep s) ++ [(addr, msg)];
  aw_cw : cw_kept (cw_of s) (cw_of s');
  aw_idle : idle own s';
  aw_ok : exists rest', server_ok own rest' held busy d s';
}.

Lemma wp_answer_status own rest held busy d s t (request : LibfabricClientRequest) addr status :
  server_ok own rest (msgBufferId request :: held) busy d s -> idle own s -> answerable s (lfClientId request) addr -> is_i32 status ->
  wp pool_fault (answer_status fuel t request status)
    (fun r s' => r = LF_WAIT_LOOP_KEEP_WAITING /\ answered own held busy d s addr (status_bytes t status s) s') s.
Proof.
  intros Hs Hid Ha Hst. unfold answer_status. apply wp_bind. eapply wp_mono; [by eapply wp_sendStatus|].
  intros _ s1 (Hms & Hk & Hid1 & rest1 & Hs1). apply wp_bind. eapply wp_weaken; [intros f Hf; left; exact Hf|].
  eapply wp_mono; [by eapply wp_server_repost|]. intros _ s2 (Hsent & Hk2 & Hid2 & Hs2). apply wp_ret. split; [done|].
  constructor; try done; [by rewrite Hsent, (ms_sent _ _ _ _ Hms)|by eapply cw_kept_trans].
Qed.
End send.
End inv.
End ServerInv.
