(* ===== verification/ServerRequests.v ===== *)
(** * Requests, from the message to the answer

    Theorems about the handlers on the whole process: a request that is in its
    receive buffer is unpacked, runs on the objects and is answered once, the
    receive buffer is posted again, and the invariant of the process is kept. *)

From Stdlib Require Import String.
From S2P Require Import Prelude StdMap Memory IntervalMap Serializer Protocol Interfaces World WorldInv View Object Calm ObjectAccess ObjectData ObjectFlush Container System Fabric LibfabricDomain ClientRegistry Connection Dispatch ConnectionInv ConnectionSend ConnectionPoll MemoryBackend MemoryCache Provider Hooks Requests ServerMemory ServerHooks ServerInv.

Module ServerRequests.
Import Serializer Protocol Object Calm ObjectAccess ObjectData ObjectFlush Container LibfabricDomain ClientRegistry Connection Dispatch ConnectionInv ConnectionSend ConnectionPoll MemoryBackend MemoryCache Provider Requests ServerMemory ServerHooks ServerInv.

(** ** On the container *)
Section container.
Context {E St : Type} `{MP : MemoryProvider E} `{MPO : !MemoryProviderOk E} `{StorageOk St}.
Abbreviation C := (Container * World E St)%type.
Implicit Types (c : Container) (w : World E St).

(** The object of a request, which may be new. *)
Lemma wp_getObject c w id :
  container_ok (c, w) ->
  wp never (getObject id) (fun p cw => container_ok cw /\ (forall i x, shown cw i x = shown (c, w) i x) /\ exists o, w_objects cw.2 !! p = Some o) (c, w).
Proof.
  intros Hc. eapply wp_mono; [by apply wp_open_any|]. intros p cw (Hc' & _ & Hsh & o & Ho & _). eauto.
Qed.

(** A storage that is not the one of an object of the container. *)
Lemma other_storage c w p o i :
  container_ok (c, w) -> w_objects w !! p = Some o -> sm_find i (c_objects c) = None ->
  (c_storageBackend c, id_high i, id_low i) <> storage_key o.
Proof.
  intros Hc Ho Hi [= _ Hh Hl]. pose proof (co_named _ Hc _ _ Ho) as Hn. cbn [fst] in Hn.
  assert (o_objectId o = i) as Ei by (destruct (o_objectId o), i; simpl in *; congruence). rewrite Ei in Hn. congruence.
Qed.

(** A flush keeps what is shown. *)
Lemma wp_flush_at c w p o offset size :
  container_ok (c, w) -> w_objects w !! p = Some o -> 0 <= offset -> 0 <= size -> offset + size < two63 ->
  wp never (flush p offset size) (fun r w' => container_ok (c, w') /\ (r = 0 \/ r = -1) /\ shown_le (fun _ _ => False) (c, w) (c, w')) w.
Proof.
  intros Hc Ho Hb Hs He. pose proof (container_own_storage _ _ _ Hc Ho) as Hown. pose proof (co_world _ Hc) as Hw. simpl in Hw, Hown.
  eapply wp_mono; [eapply wp_calm; [eapply wp_also; [by apply (flush_correct w p o offset size)|]|apply keeps_flush]|].
  { eapply wp_weaken; [|by apply (flush_frame w p o offset size)]. done. }
  intros r w' [[(Hw' & Hv & Hr & _) Hfr] Hcalm]. split; [by eapply container_calm|]. split; [done|].
  intros i x b _. unfold shown. cbn [fst snd]. destruct (sm_find i (c_objects c)) as [q|] eqn:Hq.
  - destruct (co_entry _ Hc _ _ Hq) as (oq & Hoq & _). simpl in Hoq. rewrite Hoq. simpl. destruct (Hv _ _ Hoq) as (oq' & -> & _ & Hx). simpl. apply Hx. by intros [].
  - destruct (c_storageBackend c =? 0); [done|]. rewrite Hfr; [done|]. by eapply other_storage.
Qed.

Lemma wp_flush_object c w v :
  container_ok (c, w) -> 0 <= fl_offset v -> 0 <= fl_size v -> fl_offset v + fl_size v < two63 ->
  wp never (flush_object v) (fun r cw => container_ok cw /\ (r = 0 \/ r = -1) /\ shown_le (fun _ _ => False) (c, w) cw) (c, w).
Proof.
  intros Hc Hb Hs He. unfold flush_object. apply wp_bind. eapply wp_mono; [by apply wp_getObject|].
  intros p [c1 w1] (Hc1 & Hsh & o & Ho). apply wp_lift. eapply wp_mono; [by apply (wp_flush_at c1 w1 p o)|].
  intros r w' (Hc' & Hr & Hle). split; [done|]. split; [done|]. intros i x b Hn Hx. apply Hle; [done|]. by rewrite Hsh.
Qed.

(** A flush of a whole object that succeeds makes its dirty bytes durable. *)
Lemma wp_flush_durable c w v p o :
  let id := Hooks.of_network (fl_objectId v) in
  container_ok (c, w) -> sm_find id (c_objects c) = Some p -> w_objects w !! p = Some o ->
  o_storageBackend o <> 0 -> fl_offset v = 0 -> fl_size v = 0 ->
  wp never (flush_object v) (fun r cw => r = 0 -> forall x b, shown (c, w) id x = Some b ->
    dirty_byte w o x \/ sb_contents (w_store w) (o_storageBackend o) (id_high id) (id_low id) x = b ->
    sb_contents (w_store cw.2) (o_storageBackend o) (id_high id) (id_low id) x = b) (c, w).
Proof.
  intros id Hc Hf Ho Hst Hoff Hsz. unfold flush_object, getObject. fold id. apply wp_bind, wp_bind, wp_gets. cbn [fst]. rewrite Hf. apply wp_ret, wp_lift.
  rewrite Hoff, Hsz. destruct (co_entry _ Hc _ _ Hf) as (o' & Ho' & Hid & _). simpl in Ho'. rewrite Ho in Ho'. injection Ho' as <-.
  eapply wp_mono; [apply (wp_flush_all w p o); try done; [apply (co_world _ Hc)|by apply (container_own_storage _ _ _ Hc)]|].
  intros r w' (o' & Ho' & (Hid' & _ & _ & Hsb' & _) & _ & Hdur) -> x b. unfold shown. cbn [fst snd]. rewrite Hf, Ho. simpl. intros Hb Hx.
  specialize (Hdur eq_refl x). rewrite Hb in Hdur. unfold stored in Hdur. rewrite Hsb', Hid', Hid in Hdur.
  destruct (o_storageBackend o =? 0) eqn:E0; [lia|]. assert (forall y z : byte, Some y = Some z -> y = z) as Hinj by congruence.
  apply Hinj, Hdur. destruct Hx as [Hx| <-]; [by left|by right].
Qed.

(** The buffer of a read that is inside one unit of alignement. *)
Definition read_done cw (id : ObjectId) (base size : Z) (r : bool * list ObjectSegmentDescr) (cw' : C) : Prop :=
  shown_le (fun _ _ => False) cw cw' /\
  if r.1 then exists d q i m cnt, r.2 = [d] /\ 0 < q /\ 0 < size /\ (forall T (t : T), Hooks.eager_piece size base 0 d t = Ok ((q, size), t)) /\
    w_shared cw'.2 !! i = Some (m, cnt) /\ osm_buffer m <= q /\ q + size <= osm_buffer m + osm_size m /\
    forall x b, base <= x < base + size -> shown cw id x = Some b -> w_mem cw'.2 (q + (x - base)) = b
  else ~ readable_at cw id base size.

(** A piece of an object is in the memory of a segment. *)
Lemma piece_block w p o mode d :
  world_ok w [] None -> w_objects w !! p = Some o -> piece w o mode d ->
  exists i m cnt, w_shared w !! i = Some (m, cnt) /\ osm_buffer m <= d_ptr d /\ d_ptr d + d_size d <= osm_buffer m + osm_size m.
Proof.
  intros Hw Ho (_ & d0 & (k & seg & Hf & -> & _) & Hlo & Hhi & Hp). simpl in *.
  pose proof (chain_sorted _ _ _ _ (ok_chain _ _ _ (wo_objs _ _ _ Hw _ _ Ho))) as Hsort.
  destruct (seg_live w [] None p o k seg Hw Ho) as (i & m & c & _ & _ & Hm & Hb & Hz & _); [by apply sm_find_In|].
  exists i, m, c. split; [done|]. rewrite Hb in Hp. rewrite Hz in Hhi. lia.
Qed.

Lemma wp_read_object c w v :
  let id := Hooks.of_network (rw_objectId v) in
  container_ok (c, w) ->
  accessible c w id (fun a => fits (rw_offset v) (rw_size v) a /\ one_unit (rw_offset v) (rw_size v) a) ->
  wp resource (read_buffers v) (fun r cw => container_ok cw /\ read_done (c, w) id (rw_offset v) (rw_size v) r cw) (c, w).
Proof.
  intros id Hc Hacc. unfold read_buffers. fold id. set (base := rw_offset v) in *. set (size := rw_size v) in *.
  apply wp_bind. eapply wp_mono; [apply wp_never, (wp_open c w id _ Hc Hacc)|].
  intros p [c1 w1] (Hc1 & Hf & Hsh & Hsr & o & Ho & Hreg & (Hb & Hs & He & Hsm) & Hone). cbn [fst snd] in *.
  pose proof (proj1 (ok_align _ _ _ (wo_objs _ _ _ (co_world _ Hc1) _ _ Ho))) as Ha. apply wp_lift. eapply wp_mono.
  { eapply wp_calm; [|apply keeps_getBuffers]. apply (wp_read_buffers w1 p o base size); try done. apply (co_world _ Hc1). }
  intros [ok ds] w2 [(Hw2 & Hst & Hv & Hr) Hcalm]. cbn [fst snd] in *. split; [by eapply container_calm|].
  assert (shown_le (fun _ _ => False) (c, w) (c1, w2)) as Hle.
  { intros i x b Hn. rewrite <- Hsh. eapply (shown_view (fun _ _ => False)); [exact Hc1|done|exact Hv|by intros (? & _ & ?)]. }
  split; [done|]. destruct ok; [|destruct Hr as [_ Hr]; intros Hx; by apply Hr, (readable_entry c1 w1 id p o base size Hc1 Hf Ho), (readable_same (c, w))]. destruct Hr as (o2 & Ho2 & _ & _ & Ht & Hp & Hsound). cbn [fst snd].
  destruct (one_unit_single (o_alignement o) base size ds) as [d ->]; try done; [lia|].
  apply Forall_cons in Hsound as [Hd _]. apply Forall_cons in Hp as [Hp _]. destruct Ht as (Hat & Hz & Hend). simpl in Hend.
  destruct (piece_block _ _ _ _ _ Hw2 Ho2 Hp) as (i & m & k & Hm & Hlo & Hhi). assert (d_size (clip base size d) = size) as Esz by lia.
  exists d, (d_ptr (clip base size d)), i, m, k. rewrite Esz in Hhi. split; [done|]. split; [|split; [done|split; [|split; [done|split; [done|split; [done|]]]]]].
  - destruct (wo_env _ _ _ Hw2) as (used & Hi & Hso). apply (so_used _ _ _ Hso) in Hm. apply (mp_range _ _ _ _ _ Hi) in Hm. lia.
  - intros T t. rewrite (eager_piece_run (unit_of (o_alignement o)) base size 0 d t); try done; [|lia|lia]. by rewrite Esz.
  - intros x b Hx Hb'. apply Hle in Hb'; [|by intros []]. unfold shown in Hb'. cbn [fst snd] in Hb'. rewrite Hf, Ho2 in Hb'. simpl in Hb'.
    rewrite (piece_view w2 [] None p o2 ACCESS_READ (clip base size d) x) in Hb'; [|done|done|done|lia]. rewrite Hat in Hb'. by injection Hb'.
Qed.
End container.

(** ** On the process *)
Section process.
Context {X St : Type} `{Libc X} `{!LibcOk X} `{Libfabric X} `{!LibfabricOk X} `{Fabric X} `{!FabricOk X} `{StringStorage} `{StorageOk St}.
Abbreviation S := (Cx X (option server_hook) rdma_done (App (Cache Malloc) St)).
Abbreviation C := (Container * World (Sys X * Cache Malloc) St)%type.
Implicit Types (s : S) (cw : C) (own rest : heap) (request : LibfabricClientRequest).
Variable fuel : nat.

(** The message [v] of the request is in its receive buffer. *)
Definition request_at {T} `{Message T} s request (v : T) : Prop :=
  exists p, recvBuffers (cx_conn s) !! Z.to_nat (msgBufferId request) = Some p /\
    message_at (cx_mem s) p (recvBuffersSize (cx_conn s)) v /\ reading s (msgBufferId request) (deserializer request) HEADER_SIZE.

(** The memory that libfabric may write is not in the new blocks of the cache. *)
Lemma fetching_beside T own rest own' held busy d s s' :
  server_ok own rest held busy d s -> fetching T own s -> beside s s' -> server_ok own' rest held busy d s' -> fetching T own' s'.
Proof.
  intros Hs Hid Hb Hs' a Ha Hin'. apply (sk_target _ _ (be_sys _ _ Hb)) in Ha. specialize (Hid _ Ha).
  destruct (co_target _ _ _ _ _ _ (sv_conn _ _ _ _ _ _ Hs) _ Ha) as (p & n & r & Hp & Hin & _).
  apply lookup_union_Some_raw in Hp as [Hp|[_ Hp]]; [apply Hid; by exists p, n, r|]. exfalso. revert Hin'. by eapply own_apart.
Qed.

Lemma idle_beside own rest own' held busy d s s' :
  server_ok own rest held busy d s -> idle own s -> beside s s' -> server_ok own' rest held busy d s' -> idle own' s'.
Proof. apply fetching_beside. Qed.

(** The request is served: [Q] relates the status and the container before the
    answer, which changes nothing the container shows. *)
Definition served (held busy : list Z) (d : Z) s (t : LibfabricMessageType) (addr : Z) (Q : Z -> C -> Prop) (r : LibfabricActionResult) s' : Prop :=
  r = LF_WAIT_LOOP_KEEP_WAITING /\ exists status cw,
    Q status cw /\ cw_kept cw (cw_of s') /\
    ep_sent (ep s') = ep_sent (ep s) ++ [(addr, status_bytes t status s)] /\
    exists own' rest', server_ok own' rest' held busy d s' /\ idle own' s'.

(** A handler that runs on the container and answers with a status. *)
Lemma wp_served {T} `{MessageOk T} F name (old v : T) (m : T -> M C Z) t (Q : Z -> C -> Prop) own rest held busy d s request addr :
  (forall f, pool_fault f -> F f) -> (forall p, m_decoded old v p = v) ->
  server_ok own rest (msgBufferId request :: held) busy d s -> idle own s -> answerable fuel s (lfClientId request) addr -> request_at s request v ->
  wp F (m v) (fun status cw => cw_ok own rest (cx_sys s) cw /\ is_i32 status /\ Q status cw) (cw_of s) ->
  wp F (let! r := unpack name old (deserializer request) in
        let! status := on_cw (m r.1) in answer_status fuel t request status)
    (served held busy d s t addr Q) s.
Proof.
  intros HF Hdec Hs Hid Ha (p & Hp & Hm & Hrd) Hrun.
  destruct (unpack_received no_holds _ _ _ _ _ _ _ _ name old v (sv_conn _ _ _ _ _ _ Hs) (held_in _ _ _ _) Hrd Hp Hm) as (st & E).
  eapply wp_bind, wp_of_Ok; [exact E|]. cbn [fst]. rewrite Hdec. apply wp_bind.
  eapply wp_mono; [apply (wp_container F (m v) _ _ _ _ _ _ _ Hs Hrun)|]. intros status s1 (Hb & (Hst & HQ) & own' & Hsub & Hs1).
  eapply wp_weaken; [exact HF|]. eapply wp_mono.
  { eapply wp_answer_status; [exact Hs1|exact (idle_beside _ _ _ _ _ _ _ _ Hs Hid Hb Hs1)|by eapply answerable_beside|done]. }
  intros r s2 [-> [Hsent Hk Hid2 [rest2 Hs2]]]. split; [done|]. exists status, (cw_of s1). split_and!; try done.
  - rewrite Hsent, (beside_ep _ _ Hb). unfold status_bytes. by rewrite (be_conn _ _ Hb).
  - by exists own', rest2.
Qed.

Lemma status_range r : r = 0 \/ r = -1 -> is_i32 r.
Proof. unfold is_i32. lia. Qed.


(** *** Reads *)

(** The bytes of an answer with data. *)
Definition data_answer s (data : list byte) : list byte :=
  m_bytes (cx_mem s) (fillProtocolHeader (msg_code IOC_LF_MSG_OBJ_READ_WRITE_ACK) (cx_conn s)) ++
  le_split 8 (blen data) ++ le_split 4 0 ++ bool_bytes true ++ data.

(** The counters and the statistics are not in the invariant. *)
Lemma server_ok_app own rest held busy d s a :
  server_ok own rest held busy d s -> cw_of (with_app a s) = cw_of s -> server_ok own rest held busy d (with_app a s).
Proof. intros [[]] Ecw. constructor; try done; by rewrite Ecw. Qed.

(** A block of the cache is not a message buffer. *)
Lemma own_not_buffer own rest held busy d s p v :
  server_ok own rest held busy d s -> own !! p = Some v -> p ∉ all_bufs s busy.
Proof.
  intros Hs Hp Hin. assert (is_Some (rest !! p)) as [u Hu]; [|exact (proj1 (map_disjoint_spec _ _) (sv_apart _ _ _ _ _ _ Hs) _ _ _ Hp Hu)].
  unfold all_bufs in Hin. apply elem_of_app in Hin as [Hin|Hin]; [by apply (sv_pool _ _ _ _ _ _ Hs)|].
  unfold bufs in Hin. apply list_elem_of_bind in Hin as (a & Hin & _). unfold buffer_of in Hin.
  destruct (cx_actions s !! a) as [act|] eqn:Ha; [|by apply elem_of_nil in Hin].
  destruct (pa_domainBuffer act =? 0) eqn:E0; [by apply elem_of_nil in Hin|]. apply list_elem_of_singleton in Hin as ->.
  destruct (sv_acts _ _ _ _ _ _ Hs _ _ Ha); [lia|done].
Qed.

(** Data of the cache is not in a message buffer. *)
Lemma own_outside own rest held busy d s i m c q n :
  server_ok own rest held busy d s -> ap_shared (cx_app s) !! i = Some (m, c) -> osm_buffer m <= q -> q + n <= osm_buffer m + osm_size m ->
  outside (own ∪ rest) (all_bufs s busy) (q, n).
Proof.
  intros Hs Hm Hlo Hhi. pose proof (sv_apart _ _ _ _ _ _ Hs) as Hd.
  destruct (cw_block _ _ _ _ _ _ _ (sv_cw _ _ _ _ _ _ Hs) (sv_rep _ _ _ _ _ _ Hs) Hd Hm) as [r Hr].
  exists (osm_buffer m), (osm_size m), r. split; [by apply own_lookup|]. split; [done|]. split; [done|]. by eapply own_not_buffer.
Qed.

(** The eager answer of a read. *)
Lemma wp_push own rest held busy d s lf addr v dsc q i m c :
  server_ok own rest held busy d s -> idle own s -> answerable fuel s lf addr ->
  (forall t : S, Hooks.eager_piece (rw_size v) (rw_offset v) 0 dsc t = Ok ((q, rw_size v), t)) -> 0 < q -> 0 < rw_size v < two64 ->
  ap_shared (cx_app s) !! i = Some (m, c) -> osm_buffer m <= q -> q + rw_size v <= osm_buffer m + osm_size m ->
  45 + rw_size v <= msgBufferSize (s_domain (cx_sys s)) -> 45 + rw_size v <= recvBuffersSize (cx_conn s) ->
  wp pool_fault (objEagerPushToClient fuel lf v [dsc])
    (fun _ s' => ep_sent (ep s') = ep_sent (ep s) ++ [(addr, data_answer s (rd (cx_mem s) q (rw_size v)))] /\ cw_kept (cw_of s) (cw_of s') /\ idle own s' /\
       exists rest', server_ok own rest' held busy d s') s.
Proof.
  intros Hs Hid [Hp Hr Hc] Hpiece Hq Hz Hm Hlo Hhi Hl1 Hl2. set (size := rw_size v) in *. unfold objEagerPushToClient. fold size. simpl length. simpl replicate. simpl fold_m.
  apply wp_bind, wp_bind. unfold push_fragment. apply wp_bind. eapply wp_of_Ok; [apply Hpiece|]. apply wp_ret, wp_ret.
  apply wp_bind, wp_modify. set (s1 := with_app _ s). assert (server_ok own rest held busy d s1) as Hs1 by by apply server_ok_app.
  apply wp_bind, (wp_of_option _ _ _ [(q, size)]); [done|]. unfold sendResponseFragments. apply wp_bind, wp_guard; [done|].
  assert (foldl (fun n f => n +u lb_size f) 0 ((fun v : Z * Z => mkBuffer v.1 v.2) <$> [(q, size)]) = size) as -> by (simpl; by rewrite u64_small by lia).
  unfold sendNop. set (data := mkResponse size 0 true 0 (Some [mkBuffer q size]) 1).
  assert (m_bytes (cx_mem s1) (fillProtocolHeader (msg_code IOC_LF_MSG_OBJ_READ_WRITE_ACK) (cx_conn s1)) ++ m_bytes (cx_mem s1) data =
    data_answer s (rd (cx_mem s) q size)) as Eb.
  { unfold data_answer. rewrite rd_length by lia. do 4 f_equal. simpl. unfold response_data. simpl. unfold fragments_bytes. simpl. by rewrite !app_nil_r. }
  assert (blen (data_answer s (rd (cx_mem s) q size)) = 45 + size) as El.
  { unfold data_answer. rewrite length_app, Nat2Z.inj_add, header_size, !length_app, !le_split_length, !Nat2Z.inj_add, (rd_length _ q) by lia. unfold HEADER_SIZE. change (blen (bool_bytes true)) with 1. lia. }
  eapply wp_mono; [apply (wp_server_send fuel own rest held busy d s1 _ IOC_LF_MSG_OBJ_READ_WRITE_ACK (i32 lf) data addr Hs1); try done|].
  - change (cx_conn s1) with (cx_conn s). by apply (header_wf no_holds).
  - split; [unfold is_u64; simpl; lia|]. split; [done|]. intros _ l [= <-]. split; [done|]. split; [done|]. split; [|simpl; lia].
    constructor; [simpl; lia|constructor].
  - rewrite Eb, El. done.
  - rewrite Eb, El. done.
  - constructor; [|constructor]. by eapply own_outside.
  - intros _ s2 (Hms & Hk & Hid2 & Hs2). rewrite Eb in Hms. split; [exact (ms_sent _ _ _ _ Hms)|done].
Qed.

(** The end of a handler whose message is sent. *)
Lemma wp_finish_request own held busy d s (m : M S unit) request addr msg :
  wp pool_fault m (fun _ s1 => ep_sent (ep s1) = ep_sent (ep s) ++ [(addr, msg)] /\ cw_kept (cw_of s) (cw_of s1) /\ idle own s1 /\
    exists rest', server_ok own rest' (msgBufferId request :: held) busy d s1) s ->
  wp pool_fault (m ;; terminate request ;; ret LF_WAIT_LOOP_KEEP_WAITING)
    (fun r s' => r = LF_WAIT_LOOP_KEEP_WAITING /\ answered own held busy d s addr msg s') s.
Proof.
  intros Hrun. apply wp_bind. eapply wp_mono; [exact Hrun|]. intros _ s2 (Hsent & Hk & Hid2 & rest2 & Hs2). apply wp_bind.
  eapply wp_weaken; [intros f Hf; left; exact Hf|]. eapply wp_mono; [by eapply wp_server_repost|]. intros _ s3 (Hsent3 & Hk3 & Hid3 & Hs3).
  apply wp_ret. split; [done|]. constructor; try done; [congruence|by eapply cw_kept_trans].
Qed.

(** The handler of a small read *)
Lemma wp_serve_read own rest held s request v addr :
  let id := Hooks.of_network (rw_objectId v) in
  server_ok own rest (msgBufferId request :: held) [] 0 s -> idle own s -> answerable fuel s (lfClientId request) addr -> request_at s request v ->
  rw_size v <= IOC_EAGER_MAX_READ -> 45 + rw_size v <= msgBufferSize (s_domain (cx_sys s)) -> 45 + rw_size v <= recvBuffersSize (cx_conn s) ->
  accessible (cw_of s).1 (cw_of s).2 id (fun a => fits (rw_offset v) (rw_size v) a /\ one_unit (rw_offset v) (rw_size v) a) ->
  wp pool_fault (serve_read fuel request)
    (fun r s' => r = LF_WAIT_LOOP_KEEP_WAITING /\ shown_le (fun _ _ => False) (cw_of s) (cw_of s') /\
       (exists own' rest', server_ok own' rest' held [] 0 s' /\ idle own' s') /\
       exists msg, ep_sent (ep s') = ep_sent (ep s) ++ [(addr, msg)] /\
         ((exists data, msg = data_answer s data /\ blen data = rw_size v /\
             forall x b, rw_offset v <= x < rw_offset v + rw_size v -> shown (cw_of s) id x = Some b ->
               data !! Z.to_nat (x - rw_offset v) = Some b) \/
          (msg = status_bytes IOC_LF_MSG_OBJ_READ_WRITE_ACK (-1) s /\ ~ readable_at (cw_of s) id (rw_offset v) (rw_size v)))) s.
Proof.
  intros id Hs Hid Ha (p & Hp & Hm & Hrd) Hmax Hl1 Hl2 Hacc. unfold serve_read.
  destruct (unpack_received no_holds _ _ _ _ _ _ _ _ "objReadWrite" no_readWrite v (sv_conn _ _ _ _ _ _ Hs) (held_in _ _ _ _) Hrd Hp Hm) as (st & E).
  eapply wp_bind, wp_of_Ok; [exact E|]. cbn [fst]. set (v' := m_decoded _ _ _). apply wp_bind.
  eapply wp_mono; [eapply wp_weaken; [intros f Hf; left; exact Hf|]; apply (wp_container resource (read_buffers v') (read_done (cw_of s) id (rw_offset v') (rw_size v')) _ _ _ _ _ _ Hs)|].
  { pose proof (sv_cw _ _ _ _ _ _ Hs) as Hc. destruct (cw_of s) as [c w]. exact (wp_read_object (MPO := frame_ok own rest (cx_sys s)) c w v' Hc Hacc). }
  intros [ok ds] s1 (Hb & [Hle Hr] & own1 & Hsub & Hs1). cbn [fst snd] in *.
  pose proof (idle_beside _ _ _ _ _ _ _ _ Hs Hid Hb Hs1) as Hid1. pose proof (answerable_beside _ _ _ _ _ Hb Ha) as Ha1.
  pose proof (f_equal ep_sent (beside_ep _ _ Hb)) as Hep.
  assert (forall s', cw_kept (cw_of s1) (cw_of s') -> shown_le (fun _ _ => False) (cw_of s) (cw_of s')) as Hle'.
  { intros s' [_ Hsh] i x b Hn Hx. rewrite Hsh. by apply Hle. }
  destruct ok.
  - destruct Hr as (d & q & i & m & cnt & -> & Hq & Hpos & Hpiece & Hsh & Hlo & Hhi & Hdata). rewrite (proj2 (Z.leb_le (rw_size v') _) Hmax).
    eapply wp_mono; [apply (wp_finish_request own1 held [] 0 s1 _ request addr (data_answer s1 (rd (cx_mem s1) q (rw_size v'))))|].
    + eapply (wp_push own1 rest); try done; [split; [done|]|by rewrite (sk_size _ _ (be_sys _ _ Hb))|by rewrite (be_conn _ _ Hb)].
      change (rw_size v') with (rw_size v). eapply Z.le_lt_trans; [exact Hmax|done].
    + intros r s' (-> & [Hsent Hk Hid' [rest' Hok]]). split; [done|]. split; [by apply Hle'|]. split; [by exists own1, rest'|]. eexists. rewrite Hsent, Hep. split; [done|]. left.
      exists (rd (cx_mem s1) q (rw_size v)). split; [unfold data_answer; by rewrite (be_conn _ _ Hb)|]. split; [apply rd_length; apply Z.lt_le_incl; exact Hpos|].
      intros x b Hx Hb'. rewrite rd_lookup by lia. f_equal. rewrite <- (Hdata x b Hx Hb'). change (rw_offset v') with (rw_offset v). unfold cw_of. simpl. f_equal. lia.
  - eapply wp_mono; [apply (wp_finish_request own1 held [] 0 s1 _ request addr (status_bytes IOC_LF_MSG_OBJ_READ_WRITE_ACK (-1) s1))|].
    + eapply wp_mono; [by eapply wp_sendStatus|]. intros _ s2 (Hms & Hrest). split; [apply (ms_sent _ _ _ _ Hms)|done].
    + intros r s' (-> & [Hsent Hk Hid' [rest' Hok]]). split; [done|]. split; [by apply Hle'|]. split; [by exists own1, rest'|]. eexists. rewrite Hsent, Hep. split; [done|]. right.
      split; [|done]. unfold status_bytes. by rewrite (be_conn _ _ Hb).
Qed.

(** C6: a read request of at most IOC_EAGER_MAX_READ bytes inside one unit of
    alignement that is received is answered once, by a message whose data are
    exactly the bytes the server shows of the range, or with the status -1 when the
    storage cannot be read.  Nothing shown changes, the receive buffer is posted
    again and the invariant of the process is kept. *)
Theorem server_read own rest held s request v addr :
  let id := Hooks.of_network (rw_objectId v) in
  server_ok own rest (msgBufferId request :: held) [] 0 s -> idle own s -> answerable fuel s (lfClientId request) addr -> request_at s request v ->
  rw_size v <= IOC_EAGER_MAX_READ -> 45 + rw_size v <= msgBufferSize (s_domain (cx_sys s)) -> 45 + rw_size v <= recvBuffersSize (cx_conn s) ->
  accessible (cw_of s).1 (cw_of s).2 id (fun a => fits (rw_offset v) (rw_size v) a /\ one_unit (rw_offset v) (rw_size v) a) ->
  wp pool_fault (serve_read fuel request)
    (fun r s' => r = LF_WAIT_LOOP_KEEP_WAITING /\ shown_le (fun _ _ => False) (cw_of s) (cw_of s') /\
       (exists own' rest', server_ok own' rest' held [] 0 s' /\ idle own' s') /\
       exists msg, ep_sent (ep s') = ep_sent (ep s) ++ [(addr, msg)] /\
         ((exists data, msg = data_answer s data /\ blen data = rw_size v /\
             forall x b, rw_offset v <= x < rw_offset v + rw_size v -> shown (cw_of s) id x = Some b ->
               data !! Z.to_nat (x - rw_offset v) = Some b) \/
          (msg = status_bytes IOC_LF_MSG_OBJ_READ_WRITE_ACK (-1) s /\ ~ readable_at (cw_of s) id (rw_offset v) (rw_size v)))) s.
Proof. apply wp_serve_read. Qed.
End process.
End ServerRequests.
