(* ===== verification/ServerWrites.v ===== *)
(** * Writes, from the message to the answer

    The handler of the write requests on the whole process: the data of a request
    that carries them is copied from its receive buffer to the segments of the
    object, which are other blocks of the same memory. *)

From Stdlib Require Import String.
From S2P Require Import Prelude StdMap Memory IntervalMap Serializer Protocol Interfaces World WorldInv View Object Calm ObjectAccess ObjectData ObjectFlush Container System Fabric LibfabricDomain ClientRegistry Connection Dispatch ConnectionInv ConnectionSend ConnectionPoll MemoryBackend MemoryCache Provider Hooks Requests ServerMemory ServerHooks ServerInv ServerRequests.

Module ServerWrites.
Import Serializer Protocol Object Calm ObjectAccess ObjectData ObjectFlush Container LibfabricDomain ClientRegistry Connection Dispatch ConnectionInv ConnectionSend ConnectionPoll MemoryBackend MemoryCache Provider Requests ServerMemory ServerHooks ServerInv ServerRequests.

(** The segments of the range are dirty. *)
Definition dirty_range {E St} (cw : Container * World E St) (id : ObjectId) (base size : Z) : Prop :=
  forall p o k seg, sm_find id (c_objects cw.1) = Some p -> w_objects cw.2 !! p = Some o -> In (k, seg) (o_segmentMap o) ->
    os_offset seg < base + size -> base < os_offset seg + seg_size (w_shared cw.2) seg -> os_dirty seg = true.

Section container.
Context {E St : Type} `{MP : MemoryProvider E} `{MPO : !MemoryProviderOk E} `{StorageOk St}.

Lemma wp_mark c (w : World E St) p base size :
  container_ok (c, w) -> is_Some (w_objects w !! p) -> 0 <= base -> 0 < size -> base + size < two63 ->
  wp never (lift (markDirty p base size)) (fun _ cw => container_ok cw /\
    (forall f i x, shown (cw.1, World.set_mem f cw.2) i x = shown (c, World.set_mem f w) i x) /\
    cw.1 = c /\ w_mem cw.2 = w_mem w /\ forall id, sm_find id (c_objects c) = Some p -> dirty_range cw id base size) (c, w).
Proof.
  intros Hc [o Ho] Hb Hs He. pose proof (co_world _ Hc) as Hw. simpl in Hw. apply wp_lift.
  eapply wp_of_Ok; [apply (markDirty_exec w p o); done || lia|]. set (g := fun seg => _). split.
  { eapply container_calm; [exact Hc|by apply redirty_ok|]. constructor; [|done]. intros q. simpl.
    destruct (decide (q = p)) as [->|Hne]; [by rewrite lookup_insert_eq, Ho|by rewrite lookup_insert_ne]. }
  split; [|split; [done|split; [done|]]].
  - intros f i x. apply (dirtied_shown c (World.set_mem f w) p base size); [|by exists o].
    constructor; try apply Hc. apply world_ok_mem. exact Hw.
  - intros id Hf q oq k seg Hq Hoq Hin H1' H2'. cbn [fst snd] in *. rewrite Hf in Hq. injection Hq as <-. simpl in Hoq.
    rewrite lookup_insert_eq in Hoq. injection Hoq as <-. simpl in Hin. apply redirty_In in Hin as (s0 & Hin & ->). simpl in *.
    apply orb_true_iff. right. apply andb_true_iff. split; [by apply Z.ltb_lt|apply Z.ltb_lt]. exact H2'.
Qed.

(** What is shown once the data is in the buffers. *)
Lemma write_shown (cw : Container * World E St) id base size p ds c1 w1 w2 f data :
  write_ready cw id base size p ds c1 w1 w2 -> Z.of_nat (length data) = size ->
  (forall a, f (w_mem w2) a = scatter (w_mem w2) (buildIovec ds base size).2 data a) ->
  (forall x, base <= x < base + size -> shown (c1, World.set_mem f w2) id x = data !! Z.to_nat (x - base)) /\
  shown_le (fun i x => i = id /\ touched_at cw id base size x) cw (c1, World.set_mem f w2).
Proof.
  intros Hy Hl Hf. destruct (write_ready_dirty _ _ _ _ _ _ _ _ _ f Hy) as (w' & _ & Hd).
  pose proof (write_ready_done _ _ _ _ _ _ _ _ _ f data w' Hy Hl Hf Hd) as [_ Hdata Hrest _ _ _].
  assert (container_ok (c1, World.set_mem f w2)) as Hc.
  { eapply container_calm; [exact (wy_ok _ _ _ _ _ _ _ _ _ Hy)|apply world_ok_mem; exact (wy_world _ _ _ _ _ _ _ _ _ Hy)|]. destruct (wy_calm _ _ _ _ _ _ _ _ _ Hy). by constructor. }
  split.
  - intros x Hx. by rewrite <- (dirtied_shown c1 _ p base size w' id x Hc Hd), Hdata.
  - intros i x b Hn Hb. rewrite <- (dirtied_shown c1 _ p base size w' i x Hc Hd). by apply Hrest.
Qed.
End container.

(** A program that is run before the rest of it. *)
Lemma wp_unbind {S A B} F (m : M S A) (k : A -> M S B) Q s : wp F (bind m k) Q s -> wp F m (fun a s' => wp F (k a) Q s') s.
Proof. unfold wp, bind. by destruct (m s) as [[a s']|f]. Qed.

Section writes.
Context {X St : Type} `{Libc X} `{!LibcOk X} `{Libfabric X} `{!LibfabricOk X} `{Fabric X} `{!FabricOk X} `{StringStorage} `{StorageOk St}.
Abbreviation S := (Cx X (option server_hook) rdma_done (App (Cache Malloc) St)).
Abbreviation C := (Container * World (Sys X * Cache Malloc) St)%type.
Implicit Types (s : S) (cw : C) (own rest : heap) (request : LibfabricClientRequest).
Variable fuel : nat.

(** Two steps of the container are one. *)
Lemma wp_two_steps F {A B D} (m : M C A) (n : A -> M (World (Sys X * Cache Malloc) St) B) (k : A -> B -> M S D) Q s :
  wp F (on_cw (let! a := m in let! b := lift (n a) in ret (a, b))) (fun r s' => wp F (k r.1 r.2) Q s') s ->
  wp F (let! a := on_cw m in let! b := on_world (n a) in k a b) Q s.
Proof.
  unfold wp, bind, on_world, on_cw, ret. destruct (m (cw_of s)) as [[a cw1]|f]; [|done].
  assert (cw_of (put_cw cw1 s) = cw1) as -> by (destruct cw1 as [c [? [] ? ? ? ? ?]]; done).
  by destruct (lift (n a) cw1) as [[b cw2]|f].
Qed.

(** *** The receive buffers are not written *)
Lemma getObject_mem id cw : wp any (getObject id) (fun _ cw' => w_mem cw'.2 = w_mem cw.2 /\ w_env cw'.2 = w_env cw.2) cw.
Proof.
  destruct cw as [c w]. unfold getObject. apply wp_bind, wp_gets. cbn [fst]. destruct (sm_find id _); [by apply wp_ret|].
  unfold new_object. apply wp_bind, wp_lift. unfold wp at 1. apply wp_bind, wp_modify, wp_ret. done.
Qed.

Lemma write_buffers_shield rest cw id base size :
  cache_live rest (w_env cw.2) ->
  wp any (write_buffers id base size) (fun _ cw' => forall a, in_block rest a -> w_mem cw'.2 a = w_mem cw.2 a) cw.
Proof.
  intros Hl. unfold write_buffers. apply wp_bind. eapply wp_mono; [apply getObject_mem|]. intros p [c1 w1] [Hm He]. cbn [snd] in *.
  apply wp_bind, wp_lift. eapply wp_mono.
  { apply (keeps_getBuffers (shield_discipline (cache_live rest) (in_block rest)) p base size ACCESS_WRITE true true w1). simpl. by rewrite He. }
  intros r w2 [_ Hu]. apply wp_ret. intros a Ha. cbn [snd]. by rewrite (Hu a Ha), Hm.
Qed.

(** The memory backend keeps its settings. *)
Lemma write_buffers_registers cw id base size :
  registers (w_env cw.2) -> wp any (write_buffers id base size) (fun _ cw' => registers (w_env cw'.2)) cw.
Proof.
  intros Hr. unfold write_buffers. apply wp_bind. eapply wp_mono; [apply getObject_mem|]. intros p [c1 w1] [Hm He]. cbn [snd] in *.
  apply wp_bind, wp_lift. eapply wp_mono.
  { apply (keeps_getBuffers (shield_discipline registers (fun _ => False)) p base size ACCESS_WRITE true true w1). simpl. by rewrite He. }
  intros r w2 [? _]. by apply wp_ret.
Qed.

(** The first two steps of the handler, on the process. *)
Lemma wp_write_opened own rest held s id base size :
  server_ok own rest held [] 0 s -> accessible (cw_of s).1 (cw_of s).2 id (fits base size) ->
  wp resource (on_cw (write_buffers id base size))
    (fun r s1 => beside s s1 /\ (r.2.1 = true /\
       (exists w1, @write_ready _ _ _ (frame_ok own rest (cx_sys s)) _ _ (cw_of s) id base size r.1 r.2.2 (cw_of s1).1 w1 (cw_of s1).2) /\
       (forall a, in_block rest a -> cx_mem s1 a = cx_mem s a) /\
       (registers (w_env (cw_of s).2) -> registers (w_env (cw_of s1).2))) /\
     exists own1, own ⊆ own1 /\ server_ok own1 rest held [] 0 s1) s.
Proof.
  intros Hs Hacc. pose proof (sv_cw _ _ _ _ _ _ Hs) as Hc.
  apply (wp_container resource (write_buffers id base size) (fun r cw' => r.2.1 = true /\
    (exists w1, @write_ready _ _ _ (frame_ok own rest (cx_sys s)) _ _ (cw_of s) id base size r.1 r.2.2 cw'.1 w1 cw'.2) /\
    (forall a, in_block rest a -> w_mem cw'.2 a = cx_mem s a) /\ (registers (w_env (cw_of s).2) -> registers (w_env cw'.2))) _ _ _ _ _ _ Hs).
  eapply wp_mono; [eapply wp_also; [eapply wp_also; [exact (@wp_write_ready _ _ _ (frame_ok own rest (cx_sys s)) _ _ (cw_of s) id base size Hc Hacc)|]|]|].
  - apply (write_buffers_shield rest). destruct (wo_env _ _ _ (co_world _ Hc)) as (used & Hi & _). exact (framed_live _ _ _ _ _ Hi).
  - pose proof (write_buffers_registers (cw_of s) id base size) as Hk. unfold wp in *. destruct (write_buffers id base size (cw_of s)) as [[r cw']|]; [exact Hk|done].
  - intros r [c2 w2] [[(Hok & w1 & Hy) Hu] Hreg]. split; [|by split_and!; eauto].
    exact (container_calm _ _ _ (wy_ok _ _ _ _ _ _ _ _ _ Hy) (wy_world _ _ _ _ _ _ _ _ _ Hy) (wy_calm _ _ _ _ _ _ _ _ _ Hy)).
Qed.

(** *** The copy *)

(** The segments do not meet the data of the request. *)
Definition clear_of (data size : Z) (ds : list ObjectSegmentDescr) : Prop :=
  Forall (fun d => disjoint (d_ptr d) (d_size d) data size) ds.

Lemma extract_fragments_run u base size data ds cur s :
  0 <= base -> 0 < size -> base + size < two63 -> 0 <= cur -> Forall (sound_cut u base size) ds ->
  tiles (base + cur) (base + size) (clip base size <$> ds) -> clear_of data size (clip base size <$> ds) ->
  fold_m (extract_fragment data size base) cur ds s =
  Ok (size, with_mem (scatter (cx_mem s) (iov_of (clip base size <$> ds)) (drop (Z.to_nat cur) (rd (cx_mem s) data size))) s).
Proof.
  intros Hb Hs He. revert cur s. induction ds as [|d ds IH]; intros cur s Hcur Hds Ht Hcl.
  - simpl in Ht. unfold fold_m, ret. replace cur with size by lia. by destruct s.
  - apply Forall_cons in Hds as [Hd Hds]. rewrite fmap_cons in Hcl. apply Forall_cons in Hcl as [Hcd Hcl].
    destruct Ht as (Hat & Hz & Ht). pose proof (tiles_le _ _ _ Ht) as Hle. pose proof two63_two64.
    simpl fold_m. unfold bind at 1, extract_fragment at 1, bind at 1. rewrite (eager_piece_run u) by done.
    set (n := d_size (clip base size d)) in *. set (q := d_ptr (clip base size d)) in *. unfold bind, modify, ret. cbn [fst snd]. rewrite u64_small by lia.
    set (s1 := with_mem _ s). assert (rd (cx_mem s1) data size = rd (cx_mem s) data size) as Hrd.
    { simpl. apply rd_ext. intros a Ha. apply wr_out. rewrite rd_length by lia. unfold disjoint in Hcd. lia. }
    replace (base + cur + n) with (base + (cur + n)) in Ht by lia. rewrite IH by (done || lia). rewrite Hrd, fmap_cons. unfold iov_of. rewrite fmap_cons. cbn [scatter].
    fold n q. rewrite drop_drop. replace (Z.to_nat (cur + n)) with (Z.to_nat cur + Z.to_nat n)%nat by lia.
    replace (take (Z.to_nat n) (drop (Z.to_nat cur) (rd (cx_mem s) data size))) with (rd (cx_mem s) (data + cur) n); [done|].
    replace size with (cur + (n + (size - cur - n))) by lia. rewrite rd_app by lia. rewrite drop_app_length' by (rewrite rd_length_nat; lia).
    rewrite rd_app by lia. by rewrite take_app_length' by (rewrite rd_length_nat; lia).
Qed.

Lemma server_ok_mem own rest held busy d s m : server_ok own rest held busy d s -> server_ok own rest held busy d (with_mem m s).
Proof.
  intros [Hc Hd Hp Ha Hr Hcw]. constructor; try done; [by apply ok_mem|].
  eapply (cw_reframe own rest (cx_sys s) own rest (cx_sys s) _ (cw_of s).2 (fun _ => m) (w_env (cw_of s).2)); [exact Hcw|done].
Qed.

(** The objects are not in the receive buffers. *)
Lemma pieces_clear own rest held busy d s p o mode (ds : list ObjectSegmentDescr) buffer n b data size :
  server_ok own rest held busy d s -> ap_objects (cx_app s) !! p = Some o -> Forall (piece (cw_of s).2 o mode) ds ->
  rest !! buffer = Some (n, b) -> buffer <= data -> data + size <= buffer + n -> clear_of data size ds.
Proof.
  intros Hs Ho Hp Hbuf Hlo Hhi. pose proof (sv_rep _ _ _ _ _ _ Hs) as Hr. pose proof (sv_apart _ _ _ _ _ _ Hs) as Hd. pose proof (sv_cw _ _ _ _ _ _ Hs) as Hc.
  eapply Forall_impl; [exact Hp|]. intros ds1 Hpc. destruct (piece_block (MPO := frame_ok own rest (cx_sys s)) _ _ _ _ _ (co_world _ Hc) Ho Hpc) as (i & m & c & Hm & Hl & Hh).
  destruct (cw_block _ _ _ _ _ _ _ Hc Hr Hd Hm) as [r Hown]. assert (osm_buffer m <> buffer) as Hne by (intros E; rewrite E in Hown; by eapply map_disjoint_spec).
  pose proof (rep_apart _ _ _ _ _ _ _ _ Hr (own_lookup _ rest _ _ Hown) (eq_trans (lookup_union_r _ _ _ (map_disjoint_Some_r _ _ _ _ Hd Hbuf)) Hbuf) Hne) as Hda.
  unfold disjoint in *. lia.
Qed.

(** *** The mark *)
Lemma wp_mark_dirty own rest held s p base size :
  server_ok own rest held [] 0 s -> is_Some (w_objects (cw_of s).2 !! p) -> 0 <= base -> 0 < size -> base + size < two63 ->
  wp never (on_world (markDirty p base size))
    (fun _ s' => beside s s' /\
       ((forall m i x, shown (cw_of (with_mem m s')) i x = shown (cw_of (with_mem m s)) i x) /\
        cx_mem s' = cx_mem s /\ forall id, sm_find id (c_objects (cw_of s).1) = Some p -> dirty_range (cw_of s') id base size) /\
       exists own', own ⊆ own' /\ server_ok own' rest held [] 0 s') s.
Proof.
  intros Hs Ho Hb Hsz He. eapply wp_mono.
  - apply (wp_container never (lift (markDirty p base size)) (fun _ cw =>
      (forall f i x, shown (cw.1, World.set_mem f cw.2) i x = shown ((cw_of s).1, World.set_mem f (cw_of s).2) i x) /\
      w_mem cw.2 = cx_mem s /\ forall id, sm_find id (c_objects (cw_of s).1) = Some p -> dirty_range cw id base size) _ _ _ _ _ _ Hs).
    pose proof (sv_cw _ _ _ _ _ _ Hs) as Hc. change (cx_mem s) with (w_mem (cw_of s).2). destruct (cw_of s) as [c w].
    eapply wp_mono; [by apply (wp_mark (MPO := frame_ok own rest (cx_sys s)) c w p base size)|]. intros _ cw' (Hc' & Hsh & _ & Hm & Hd). by split_and!.
  - intros _ s' (Hbe & (Hsh & Hm & Hd) & Hs'). split; [done|]. split; [|done]. split; [|done].
    intros m i x. exact (Hsh (fun _ => m) i x).
Qed.

Lemma shown_with_mem s i x : shown (cw_of s) i x = shown (cw_of (with_mem (cx_mem s) s)) i x.
Proof. done. Qed.

(** *** The answer, then the mark *)
Lemma wp_write_tail own rest held s request addr p base size :
  server_ok own rest (msgBufferId request :: held) [] 0 s -> idle own s -> answerable fuel s (lfClientId request) addr ->
  is_Some (ap_objects (cx_app s) !! p) -> 0 <= base -> 0 < size -> base + size < two63 ->
  wp pool_fault (sendResponse fuel IOC_LF_MSG_OBJ_READ_WRITE_ACK (lfClientId request) 0 false ;;
                 on_world (markDirty p base size) ;; terminate request ;; ret LF_WAIT_LOOP_KEEP_WAITING)
    (fun r s' => r = LF_WAIT_LOOP_KEEP_WAITING /\
       ep_sent (ep s') = ep_sent (ep s) ++ [(addr, status_bytes IOC_LF_MSG_OBJ_READ_WRITE_ACK 0 s)] /\
       (forall i x, shown (cw_of s') i x = shown (cw_of s) i x) /\
       (forall id, sm_find id (c_objects (ap_container (cx_app s))) = Some p -> dirty_range (cw_of s') id base size) /\
       exists own' rest', server_ok own' rest' held [] 0 s' /\ idle own' s') s.
Proof.
  intros Hs Hid Ha Ho Hb Hsz He. apply wp_bind. eapply wp_mono; [by eapply wp_sendStatus|].
  intros _ s1 (Hms & [(f & e & Ecw) Hsh] & Hid1 & rest1 & Hs1). apply wp_bind. eapply wp_mono.
  { apply wp_never, (wp_mark_dirty own rest1 _ s1 p base size Hs1); try done. by rewrite Ecw. }
  intros _ s2 (Hb2 & (Hsh2 & Hm2 & Hdirty) & own2 & Hsub & Hs2). apply wp_bind.
  eapply wp_weaken; [intros f' Hf; left; exact Hf|]. eapply wp_mono; [eapply wp_server_repost; [exact Hs2|exact (idle_beside _ _ _ _ _ _ _ _ Hs1 Hid1 Hb2 Hs2)]|].
  intros _ s3 (Hsent3 & [(f3 & e3 & Ecw3) Hsh3] & Hid3 & rest3 & Hs3). apply wp_ret. split; [done|]. split; [|split; [|split; [|by exists own2, rest3]]].
  - rewrite Hsent3, (beside_ep _ _ Hb2). apply (ms_sent _ _ _ _ Hms).
  - intros i x. by rewrite Hsh3, (shown_with_mem s2), Hsh2, Hm2, <- (shown_with_mem s1), Hsh.
  - intros id Hf. rewrite Ecw3. apply (Hdirty id). by rewrite Ecw.
Qed.

(** *** The request *)

(** The data that follow the request in its receive buffer. *)
Lemma request_data own G held busy d s request v p :
  owned_ok own G held busy d s -> p ∈ recvBuffers (cx_conn s) -> message_at (cx_mem s) p (recvBuffersSize (cx_conn s)) v -> rw_msgHasData v = true ->
  let data := rw_optionalData (m_decoded no_readWrite v (p + HEADER_SIZE)) in
  rd (cx_mem s) data (rw_size v) = m_payload (cx_mem s) v /\ p <= data /\ data + rw_size v <= p + recvBuffersSize (cx_conn s) /\ 0 < data /\
  blen (m_payload (cx_mem s) v) = rw_size v.
Proof.
  intros Hc Hin (Hw & Hl & Hrd) Hhas data. pose proof (view_ok (cx_mem s) (cx_mem s) no_readWrite v (p + HEADER_SIZE) Hw Hrd) as Hv.
  pose proof (rep_range _ _ _ _ _ (po_rep _ _ _ (co_pool _ _ _ _ _ _ Hc)) (co_rbufs _ _ _ _ _ _ Hc p Hin)) as Hp.
  assert (data = p + HEADER_SIZE + 49) as Ed by (unfold data; simpl; by rewrite Hhas).
  assert (blen (m_bytes (cx_mem s) v) = 49 + rw_size v) as El.
  { simpl. rewrite Hhas. unfold data_bytes. rewrite !length_app, !le_split_length, !Nat2Z.inj_add, rd_length by (destruct Hw as (_ & _ & _ & Hu); unfold is_u64 in Hu; lia).
    change (blen (bool_bytes true)) with 1. change (blen []) with 0. lia. }
  destruct Hw as (_ & _ & _ & Hu). unfold is_u64 in Hu. unfold HEADER_SIZE in *.
  split; [|split; [lia|split; [lia|split; [lia|]]]].
  - rewrite <- Hv. simpl. unfold data_bytes. rewrite Hhas. unfold data. simpl. by rewrite Hhas.
  - simpl. unfold data_bytes. rewrite Hhas. by apply rd_length; lia.
Qed.

(** The handler of a write that carries its data *)
Lemma wp_serve_write own rest held s request v addr :
  let id := Hooks.of_network (rw_objectId v) in
  server_ok own rest (msgBufferId request :: held) [] 0 s -> idle own s -> answerable fuel s (lfClientId request) addr -> request_at s request v ->
  rw_msgHasData v = true -> accessible (cw_of s).1 (cw_of s).2 id (fits (rw_offset v) (rw_size v)) ->
  wp pool_fault (serve_write fuel request)
    (fun r s' => r = LF_WAIT_LOOP_KEEP_WAITING /\
       ep_sent (ep s') = ep_sent (ep s) ++ [(addr, status_bytes IOC_LF_MSG_OBJ_READ_WRITE_ACK 0 s)] /\
       (forall x, rw_offset v <= x < rw_offset v + rw_size v ->
          shown (cw_of s') id x = m_payload (cx_mem s) v !! Z.to_nat (x - rw_offset v)) /\
       shown_le (fun i x => i = id /\ touched_at (cw_of s) id (rw_offset v) (rw_size v) x) (cw_of s) (cw_of s') /\
       dirty_range (cw_of s') id (rw_offset v) (rw_size v) /\
       exists own' rest', server_ok own' rest' held [] 0 s' /\ idle own' s') s.
Proof.
  intros id Hs Hid Ha (p & Hp & Hm & Hrd) Hhas Hacc. unfold serve_write. pose proof (sv_conn _ _ _ _ _ _ Hs) as Hcn.
  destruct (unpack_received no_holds _ _ _ _ _ _ _ _ "objReadWrite" no_readWrite v Hcn (held_in _ _ _ _) Hrd Hp Hm) as (st & E).
  pose proof (list_elem_of_lookup_2 _ _ _ Hp) as Hpin. destruct (sv_recv _ _ _ _ _ _ Hs p Hpin) as [[n0 b0] Hrest].
  assert ((n0, b0) = (recvBuffersSize (cx_conn s), false)) as [= -> ->].
  { pose proof (co_rbufs _ _ _ _ _ _ Hcn p Hpin) as Hg. rewrite lookup_union_r in Hg by (eapply map_disjoint_Some_r; [exact (sv_apart _ _ _ _ _ _ Hs)|exact Hrest]). congruence. }
  destruct (request_data own _ _ _ _ s request v p Hcn Hpin Hm Hhas) as (Hdata & Hd1 & Hd2 & Hd3 & Hlen).
  eapply wp_bind, wp_of_Ok; [exact E|]. cbn [fst]. set (v' := m_decoded _ _ _) in *. set (data := rw_optionalData v') in *. set (bytes := m_payload (cx_mem s) v) in *.
  change (rw_objectId v') with (rw_objectId v). change (rw_offset v') with (rw_offset v). change (rw_size v') with (rw_size v). fold id.
  set (base := rw_offset v) in *. set (size := rw_size v) in *. apply wp_two_steps.
  eapply wp_mono; [eapply wp_weaken; [intros f Hf; left; exact Hf|]; exact (wp_write_opened own rest _ s id base size Hs Hacc)|].
  intros [q [ok ds]] s1 (Hb & (Hok & (w1 & Hy) & Hu & _) & own1 & Hsub & Hs1). cbn [fst snd] in *. subst ok.
  pose proof (idle_beside _ _ _ _ _ _ _ _ Hs Hid Hb Hs1) as Hid1. pose proof (answerable_beside _ _ _ _ _ Hb Ha) as Ha1.
  destruct (wy_range _ _ _ _ _ _ _ _ _ Hy) as (Hbase & Hsize & Hend). destruct (wy_cut _ _ _ _ _ _ _ _ _ Hy) as (o2 & o3 & Ho3 & _ & _ & Ht & Hpc & Hsound).
  assert (rd (cx_mem s1) data size = bytes) as Hrd1.
  { rewrite <- Hdata. apply rd_ext. intros a Ha'. apply Hu. exists p, (recvBuffersSize (cx_conn s)), false. split; [done|lia]. }
  change (rw_msgHasData v') with (rw_msgHasData v). rewrite Hhas. unfold objEagerExtractFromMessage. fold data. apply wp_bind, wp_bind, wp_guard.
  { by apply negb_true_iff, Z.eqb_neq; lia. }
  change (rw_offset v') with base. change (rw_size v') with size. eapply wp_bind, wp_of_Ok.
  { apply (extract_fragments_run (unit_of (o_alignement o2)) base size data ds 0 s1); try done; [by rewrite Z.add_0_r|].
    eapply (pieces_clear own1 rest); [exact Hs1|exact Ho3|exact Hpc|exact Hrest|lia|lia]. }
  rewrite Hrd1. simpl drop. set (f := fun m => scatter m (buildIovec ds base size).2 bytes).
  apply wp_bind, wp_modify. set (s2 := with_app _ _).
  assert (server_ok own1 rest (msgBufferId request :: held) [] 0 s2) as Hs2 by (apply server_ok_app; [by apply server_ok_mem|done]).
  assert (cw_of s2 = ((cw_of s1).1, World.set_mem f (cw_of s1).2)) as Ecw by done.
  apply wp_unbind. eapply wp_mono; [apply (wp_write_tail own1 rest held s2 request addr q base size Hs2 Hid1); try done; destruct Ha1 as [? [] ?]; by constructor|].
  intros r s' (-> & Hsent & Hsh & Hdirty & Hok). destruct (write_shown (MPO := frame_ok own rest (cx_sys s)) _ _ _ _ _ _ _ _ _ f bytes Hy Hlen) as [Hnew Hold]; [done|].
  split; [done|]. split; [|split; [|split; [|split; [|done]]]].
  - rewrite Hsent. change (ep s2) with (ep s1). rewrite (beside_ep _ _ Hb). unfold status_bytes. change (cx_conn s2) with (cx_conn s1). by rewrite (be_conn _ _ Hb).
  - intros x Hx. rewrite Hsh, Ecw. by apply Hnew.
  - intros i x b Hn Hb'. rewrite Hsh, Ecw. by apply Hold.
  - apply Hdirty. exact (wy_find _ _ _ _ _ _ _ _ _ Hy).
Qed.

End writes.
End ServerWrites.
