(* ===== verification/ServerControl.v ===== *)
(** * Mappings and copies, from the message to the answer

    The handlers that register and unregister the ranges a client maps and the one
    that copies an object, on the whole process: what the answer says, and what the
    server shows and remembers afterwards. *)

From Stdlib Require Import String.
From S2P Require Import Prelude StdMap Memory IntervalMap ConsistencyTracker Serializer Protocol Interfaces World WorldInv View Object Calm ObjectCow Container System Fabric LibfabricDomain ClientRegistry Connection Dispatch ConnectionInv ConnectionSend ConnectionPoll MemoryBackend MemoryCache Provider Hooks Requests ServerMemory ServerHooks ServerInv ServerRequests.

Module ServerControl.
Import Serializer Protocol Object Calm ObjectCow Container LibfabricDomain ClientRegistry Connection Dispatch ConnectionInv ConnectionSend ConnectionPoll MemoryBackend MemoryCache Provider Requests ServerMemory ServerHooks ServerInv ServerRequests.

(** ** On the container *)
Section container.
Context {E St : Type} `{MP : MemoryProvider E} `{MPO : !MemoryProviderOk E} `{StorageOk St}.
Abbreviation C := (Container * World E St)%type.
Implicit Types (c : Container) (w : World E St) (cw : C).

(** The ranges mapped on an object; none on an object that was never used. *)
Definition tracker_of cw (id : ObjectId) : ConsistencyTracker.Tracker :=
  match sm_find id (c_objects cw.1) ≫= (fun p => w_objects cw.2 !! p) with
  | Some o => o_consistencyTracker o
  | None => ConsistencyTracker.init
  end.

(** Nothing shown changes, and only the ranges of [id] do. *)
Definition tracked cw id t cw' : Prop :=
  (forall i x, shown cw' i x = shown cw i x) /\ tracker_of cw' id = t /\ forall i, i <> id -> tracker_of cw' i = tracker_of cw i.

Lemma wp_open_tracker c w id :
  container_ok (c, w) ->
  wp never (getObject id) (fun p cw' => container_ok cw' /\ sm_find id (c_objects cw'.1) = Some p /\ tracked (c, w) id (tracker_of (c, w) id) cw' /\
    exists o, w_objects cw'.2 !! p = Some o /\ o_consistencyTracker o = tracker_of (c, w) id) (c, w).
Proof.
  intros Hc. eapply wp_mono; [eapply wp_conj; [by apply wp_open_any|by apply getObject_correct]|].
  intros p cw' [(Hc' & Hf & Hsh & o & Ho & _) (_ & _ & _ & Hcase)]. split; [done|]. split; [done|].
  assert (tracker_of cw' id = o_consistencyTracker o) as Et by (unfold tracker_of; rewrite Hf; simpl; by rewrite Ho).
  destruct (sm_find id (c_objects c)) as [q|] eqn:Hq.
  - destruct Hcase as [-> ->]. split; [done|]. by exists o.
  - destruct Hcase as (_ & Ho' & Hoth & Hne). rewrite Ho in Ho'. injection Ho' as ->. simpl in Et.
    assert (tracker_of (c, w) id = ConsistencyTracker.init) as -> by (unfold tracker_of; cbn [fst]; by rewrite Hq).
    split; [|by eexists]. split; [done|]. split; [done|]. intros i Hi. unfold tracker_of. rewrite Hne by done. cbn [fst snd].
    destruct (sm_find i (c_objects c)) as [r|] eqn:Hr; [|done]. simpl. rewrite Hoth; [done|]. intros ->.
    pose proof (co_entry _ Hc' i p) as He. rewrite Hne in He by done. destruct (He Hr) as (o & Ho' & Hid & _). rewrite Ho in Ho'. injection Ho' as <-. by simpl in Hid.
Qed.

Lemma wp_set_tracker c w p o t :
  container_ok (c, w) -> w_objects w !! p = Some o ->
  wp never (update_obj p (set_tracker t)) (fun _ w' => container_ok (c, w') /\ tracked (c, w) (o_objectId o) t (c, w')) w.
Proof.
  intros Hc Ho. unfold wp, update_obj. rewrite Ho. set (w' := set_objects _ w).
  pose proof (co_named _ Hc _ _ Ho) as Hn. cbn [fst] in Hn.
  assert (container_ok (c, w')) as Hc'.
  { eapply container_calm; [exact Hc| |constructor; [intros q|done]].
    - eapply update_obj_ok; [apply (co_world _ Hc)|exact Ho|done|]. destruct (wo_objs _ _ _ (co_world _ Hc) _ _ Ho). by constructor.
    - simpl. destruct (decide (q = p)) as [->|Hne]; [by rewrite lookup_insert_eq, Ho|by rewrite lookup_insert_ne]. }
  split; [done|]. split; [|split].
  - intros i x. unfold shown. cbn [fst snd]. destruct (sm_find i (c_objects c)) as [q|]; [|done]. simpl.
    destruct (decide (q = p)) as [->|Hne]; [by rewrite lookup_insert_eq, Ho|by rewrite lookup_insert_ne].
  - unfold tracker_of. cbn [fst snd]. rewrite Hn. simpl. by rewrite lookup_insert_eq.
  - intros i Hi. unfold tracker_of. cbn [fst snd]. destruct (sm_find i (c_objects c)) as [q|] eqn:Hq; [|done]. simpl.
    rewrite lookup_insert_ne; [done|]. intros <-. destruct (co_entry _ Hc _ _ Hq) as (o' & Ho' & Hid & _). simpl in Ho'. congruence.
Qed.

(** One operation on the ranges of an object *)
Lemma wp_track c w id (f : ConsistencyTracker.Tracker -> Z * ConsistencyTracker.Tracker) (k : Z -> Object -> M (World E St) Z) :
  (forall p o w, k p o w = (let r := f (o_consistencyTracker o) in update_obj p (set_tracker r.2) ;; ret r.1) w) ->
  container_ok (c, w) ->
  wp never (let! object := getObject id in lift (let! o := get_obj object in k object o))
    (fun r cw' => r = (f (tracker_of (c, w) id)).1 /\ container_ok cw' /\ tracked (c, w) id (f (tracker_of (c, w) id)).2 cw') (c, w).
Proof.
  intros Hk Hc. apply wp_bind. eapply wp_mono; [by apply wp_open_tracker|]. intros p [c1 w1] (Hc1 & Hf & (Hs1 & _ & Ht1) & o & Ho & Eo).
  cbn [fst snd] in *. apply wp_lift, wp_bind. unfold get_obj. unfold wp at 1. rewrite Ho. unfold wp. rewrite Hk, Eo. set (r := f _). cbv zeta.
  match goal with |- match ?m w1 with _ => _ end => change (wp never m (fun r' w' => r' = r.1 /\ container_ok (c1, w') /\ tracked (c, w) id r.2 (c1, w')) w1) end.
  apply wp_bind. eapply wp_mono; [by eapply wp_set_tracker|]. intros _ w2 (Hc2 & Hs2 & E2 & Ht2). apply wp_ret. split; [done|]. split; [done|].
  destruct (co_entry _ Hc1 _ _ Hf) as (o' & Ho' & Hid & _). simpl in Ho'. rewrite Ho in Ho'. injection Ho' as <-. rewrite Hid in E2, Ht2.
  split; [intros i x; by rewrite Hs2|]. split; [done|]. intros i Hi. by rewrite Ht2, Ht1.
Qed.

(** What a registration answers and remembers, when the check is on and when it is off *)
Definition registered (consistencyCheck : bool) (client : Z) (v : LibfabricRegisterRange) (t : ConsistencyTracker.Tracker) : Z * ConsistencyTracker.Tracker :=
  if consistencyCheck then ConsistencyTracker.registerRange client (rr_offset v) (rr_size v) (Hooks.access_mode (rr_write v)) t else (0, t).
Definition unregistered (client : Z) (v : LibfabricUnregisterRange) (t : ConsistencyTracker.Tracker) : Z * ConsistencyTracker.Tracker :=
  let r := ConsistencyTracker.unregisterRange client (ur_id v) (ur_offset v) (ur_size v) (Hooks.access_mode (ur_write v)) t in
  (if r.1 then 0 else -1, r.2).

Lemma wp_register_object consistencyCheck c w client v :
  container_ok (c, w) ->
  wp never (register_object consistencyCheck client v) (fun r cw' => let id := Hooks.of_network (rr_objectId v) in
    r = (registered consistencyCheck client v (tracker_of (c, w) id)).1 /\ container_ok cw' /\
    tracked (c, w) id (registered consistencyCheck client v (tracker_of (c, w) id)).2 cw') (c, w).
Proof.
  intros Hc. destruct consistencyCheck.
  - apply wp_track; [|done]. intros p o w'. unfold registered. by destruct (ConsistencyTracker.registerRange _ _ _ _ _).
  - unfold register_object. apply wp_bind. eapply wp_mono; [by apply wp_open_tracker|]. intros p cw' (Hc' & _ & Ht & _). by apply wp_ret.
Qed.

Lemma wp_unregister_object c w client v :
  container_ok (c, w) ->
  wp never (unregister_object true client v) (fun r cw' => let id := Hooks.of_network (ur_objectId v) in
    r = (unregistered client v (tracker_of (c, w) id)).1 /\ container_ok cw' /\ tracked (c, w) id (unregistered client v (tracker_of (c, w) id)).2 cw') (c, w).
Proof.
  intros Hc. apply wp_track; [|done]. intros p o w'. unfold unregistered. by destruct (ConsistencyTracker.unregisterRange _ _ _ _ _ _).
Qed.

(** *** Copies *)

(** The copy has a source, and a destination that is new or may be replaced. *)
Definition copyable cw (src dst : ObjectId) (allowExist : bool) : Prop :=
  is_Some (sm_find src (c_objects cw.1)) /\ (allowExist = true \/ sm_find dst (c_objects cw.1) = None).
#[export] Instance copyable_dec cw src dst allowExist : Decision (copyable cw src dst allowExist).
Proof. unfold copyable. apply _. Defined.

(** The end of the last segment of an object *)
Definition cached_end cw (id : ObjectId) : Z :=
  match sm_find id (c_objects cw.1) ≫= (fun p => w_objects cw.2 !! p) with
  | Some o => chain_end os_offset (seg_size (w_shared cw.2)) 0 (o_segmentMap o)
  | None => 0
  end.

(** What the answer [status] to a full copy means. *)
Definition copied cw (src dst : ObjectId) (allowExist : bool) (status : Z) cw' : Prop :=
  if decide (copyable cw src dst allowExist) then
    status = 0 /\ (forall x, 0 <= x < cached_end cw src -> shown cw' dst x = shown cw src x) /\ shown_le (fun i _ => i = dst) cw cw'
  else status = -1 /\ cw' = cw.

(** Copies keep what the other identifiers show. *)
Lemma full_cow_shown c w src dst p o cw' :
  container_ok (c, w) -> sm_find src (c_objects c) = Some p -> w_objects w !! p = Some o -> full_cow_post dst c w o true cw' ->
  (forall x, 0 <= x < cached_end (c, w) src -> shown cw' dst x = shown (c, w) src x) /\ shown_le (fun i _ => i = dst) (c, w) cw'.
Proof.
  intros Hc Hf Ho (_ & Hc' & (q & oc & Hq & Hoc & _ & Hv) & Hfind & Hoth & Hsb & Hst). split.
  - intros x. unfold cached_end, shown. cbn [fst snd]. rewrite Hf. simpl. rewrite Ho, Hq. simpl. rewrite Hoc. simpl. apply Hv.
  - intros i x b Hi. unfold shown. rewrite Hfind, Hsb by done. cbn [fst snd]. destruct (sm_find i (c_objects c)) as [r|] eqn:Hr.
    + destruct (co_entry _ Hc _ _ Hr) as (or & Hor & Hid & _). simpl in Hor. rewrite Hor. simpl. intros Hb.
      destruct (Hoth r or x b Hor) as (or' & -> & Hx); [by rewrite Hid|done|done].
    + destruct (c_storageBackend c =? 0); [done|]. rewrite Hst; [done|]. intros [= Hh Hl]. apply Hi. destruct i, dst. simpl in *. congruence.
Qed.

Lemma wp_cow_object c w v :
  let src := Hooks.of_network (cow_sourceObjectId v) in
  let dst := Hooks.of_network (cow_destObjectId v) in
  container_ok (c, w) -> c_storageBackend c <> 0 -> src <> dst -> cow_rangeSize v = 0 ->
  wp cow_fault (cow_object v) (fun r cw' => container_ok cw' /\ copied (c, w) src dst (cow_allowExist v) r cw') (c, w).
Proof.
  intros src dst Hc Hst Hne Hz. unfold cow_object. fold src dst. rewrite Hz. apply wp_bind. unfold copied. case_decide as Hcp.
  - destruct Hcp as [[p Hf] Hal]. cbn [fst] in *. destruct (co_entry _ Hc _ _ Hf) as (o & Ho & _). simpl in Ho.
    eapply wp_mono; [by apply (makeObjectFullCow_correct c w src dst _ p o)|]. intros r cw' Hpost. pose proof Hpost as (-> & Hc' & _).
    apply wp_ret. split; [done|]. split; [done|]. by eapply full_cow_shown.
  - destruct (cow_refused c w src dst (cow_allowExist v) 0 0) as [Eref _].
    { destruct (sm_find src (c_objects c)) as [p|] eqn:Hf; [|by left]. right. destruct (sm_find dst (c_objects c)) as [q|] eqn:Hq.
      - split; [|done]. destruct (cow_allowExist v); [|done]. destruct Hcp. split; [by eexists|by left].
      - destruct Hcp. split; [by eexists|by right]. }
    eapply wp_of_Ok; [exact Eref|]. by apply wp_ret.
Qed.
End container.

(** ** On the process *)
Section process.
Context {X St : Type} `{Libc X} `{!LibcOk X} `{Libfabric X} `{!LibfabricOk X} `{Fabric X} `{!FabricOk X} `{StringStorage} `{StorageOk St}.
Abbreviation S := (Cx X (option server_hook) rdma_done (App (Cache Malloc) St)).
Abbreviation C := (Container * World (Sys X * Cache Malloc) St)%type.
Implicit Types (s : S) (cw : C) (own rest : heap) (request : LibfabricClientRequest).
Variable fuel : nat.

(** An answer changes no range. *)
Lemma tracked_kept cw id t cw1 cw2 : tracked cw id t cw1 -> cw_kept cw1 cw2 -> tracked cw id t cw2.
Proof.
  intros (Hs & Ht & Ho) [(f & e & ->) Hsh]. split; [intros i x; by rewrite Hsh|]. done.
Qed.

(** A handler of the ranges: [f] is what it does to those of the object [id]. *)
Lemma wp_track_request {T} `{MessageOk T} name (old v : T) (m : T -> M C Z) t id f own rest held s request addr :
  (forall p, m_decoded old v p = v) ->
  server_ok own rest (msgBufferId request :: held) [] 0 s -> idle own s -> answerable fuel s (lfClientId request) addr -> request_at s request v ->
  is_i32 (f (tracker_of (cw_of s) id)).1 ->
  (forall c w, cw_of s = (c, w) -> cw_ok own rest (cx_sys s) (c, w) -> wp never (m v) (fun r cw' => r = (f (tracker_of (c, w) id)).1 /\
     cw_ok own rest (cx_sys s) cw' /\ tracked (c, w) id (f (tracker_of (c, w) id)).2 cw') (c, w)) ->
  wp pool_fault (let! r := unpack name old (deserializer request) in
                 let! status := on_cw (m r.1) in answer_status fuel t request status)
    (fun r s' => r = LF_WAIT_LOOP_KEEP_WAITING /\
       ep_sent (ep s') = ep_sent (ep s) ++ [(addr, status_bytes t (f (tracker_of (cw_of s) id)).1 s)] /\
       tracked (cw_of s) id (f (tracker_of (cw_of s) id)).2 (cw_of s') /\
       exists own' rest', server_ok own' rest' held [] 0 s' /\ idle own' s') s.
Proof.
  intros Hdec Hs Hid Ha Hreq Hst Hrun. pose proof (sv_cw _ _ _ _ _ _ Hs) as Hc.
  eapply wp_mono; [eapply wp_served with (v := v) (Q := fun r cw' => r = (f (tracker_of (cw_of s) id)).1 /\ tracked (cw_of s) id (f (tracker_of (cw_of s) id)).2 cw'); try done|].
  - destruct (cw_of s) as [c w] eqn:Ecw. apply wp_never. eapply wp_mono; [by apply Hrun|]. intros r cw' (-> & Hc' & Ht). done.
  - intros r s' (-> & status & cw' & [-> Ht] & Hk & Hsent & Hok). split; [done|]. split; [done|]. split; [by eapply tracked_kept|done].
Qed.


(** A request to unmap a range that is received is answered once: by 0 when the
    range is mapped with that identifier by the client of the request, and then one
    such range is forgotten, and else by -1 and nothing changes. *)
Theorem server_unregister own rest held s request v addr :
  let id := Hooks.of_network (ur_objectId v) in
  let t := tracker_of (cw_of s) id in
  let old := ConsistencyTracker.mkRange (hdr_tcpClientId (header request)) (ur_id v) (ur_offset v) (ur_size v) (Hooks.access_mode (ur_write v)) in
  server_ok own rest (msgBufferId request :: held) [] 0 s -> idle own s -> answerable fuel s (lfClientId request) addr -> request_at s request v ->
  wp pool_fault (serve_unregister fuel true request)
    (fun r s' => r = LF_WAIT_LOOP_KEEP_WAITING /\ exists status t',
       ep_sent (ep s') = ep_sent (ep s) ++ [(addr, status_bytes IOC_LF_MSG_OBJ_RANGE_UNREGISTER_ACK status s)] /\
       ((status = 0 /\ exists l1 l2, ConsistencyTracker.ranges t = l1 ++ (old :: l2) /\ ConsistencyTracker.ranges t' = l1 ++ l2) \/
        (status = -1 /\ ~ (old ∈ ConsistencyTracker.ranges t) /\ t' = t)) /\
       tracked (cw_of s) id t' (cw_of s') /\
       exists own' rest', server_ok own' rest' held [] 0 s' /\ idle own' s') s.
Proof.
  intros id t old Hs Hid Ha Hreq. set (client := hdr_tcpClientId (header request)) in *.
  eapply wp_mono; [apply (wp_track_request "unregisterRange" no_unregister v (unregister_object true client) IOC_LF_MSG_OBJ_RANGE_UNREGISTER_ACK id
    (unregistered client v) own rest held s request addr); try done|].
  - unfold unregistered. simpl. by destruct (ConsistencyTracker.unregisterRange _ _ _ _ _ _).1.
  - intros c w Ecw Hc. by apply (wp_unregister_object (MPO := frame_ok own rest (cx_sys s))).
  - intros r s' (-> & Hsent & Ht & Hok). split; [done|]. exists (unregistered client v t).1, (unregistered client v t).2. split; [done|].
    split; [|done]. unfold unregistered, ConsistencyTracker.unregisterRange.
    destruct (ConsistencyTracker.erase_first _ _) as [l|] eqn:El; simpl.
    + left. split; [done|]. apply ConsistencyTracker.erase_first_Some in El as (l1 & x & l2 & Er & -> & Hm & _).
      exists l1, l2. split; [|done]. rewrite Er. do 2 f_equal. by apply ConsistencyTracker.matches_spec.
    + right. split; [done|]. split; [|done]. apply ConsistencyTracker.erase_first_None in El. rewrite Forall_forall in El. intros Hin%El.
      by rewrite ConsistencyTracker.matches_self in Hin.
Qed.

End process.
End ServerControl.
