(* ===== verification/ServerRdma.v ===== *)
(** * RDMA operations of the server, from the message to the completions

    A read that does not fit in a message: the handler posts RDMA writes from the
    segments of the object to the memory of the client, and answers when the last of
    them has completed.  The posts and the completions are those of the large writes
    too, whose operations write in the segments ([ServerFetch]). *)

From Stdlib Require Import String.
From S2P Require Import Prelude StdMap Memory IntervalMap Serializer Protocol Interfaces World WorldInv View Object Calm ObjectAccess ObjectData Container System Fabric LibfabricDomain ClientRegistry Connection Dispatch ConnectionInv ConnectionSend ConnectionPoll ConnectionRdma MemoryBackend MemoryCache Provider Hooks Requests Rdma ServerMemory ServerHooks ServerInv ServerRequests.

Module ServerRdma.
Import Serializer Protocol Object Calm ObjectAccess ObjectData Container LibfabricDomain ClientRegistry Connection Dispatch ConnectionInv ConnectionSend ConnectionPoll ConnectionRdma MemoryBackend MemoryCache Provider Requests ServerMemory ServerHooks ServerInv ServerRequests.

(** ** On the container *)
Section container.
Context {E St : Type} `{MP : MemoryProvider E} `{MPO : !MemoryProviderOk E} `{StorageOk St}.
Abbreviation C := (Container * World E St)%type.
Implicit Types (c : Container) (w : World E St).

(** A piece of the memory of a segment *)
Definition in_segment w (v : Z * Z) : Prop :=
  0 < v.2 /\ exists i m cnt, w_shared w !! i = Some (m, cnt) /\ osm_buffer m <= v.1 /\ v.1 + v.2 <= osm_buffer m + osm_size m.

(** The pieces of a read: they hold what is shown of the range. *)
Definition iov_done cw (id : ObjectId) (base size : Z) (r : bool * list ObjectSegmentDescr) (cw' : C) : Prop :=
  shown_le (fun _ _ => False) cw cw' /\
  if r.1 then
    let iov := (buildIovec r.2 base size).2 in
    Forall (in_segment cw'.2) iov /\ Rdma.total_len iov = size /\
    forall x b, base <= x < base + size -> shown cw id x = Some b -> gather (w_mem cw'.2) iov !! Z.to_nat (x - base) = Some b
  else ~ readable_at cw id base size.

Lemma tiles_pos lo hi ds : tiles lo hi ds -> Forall (fun d => 0 < d_size d) ds.
Proof. revert lo. induction ds as [|d ds IH]; intros lo; [constructor|]. intros (_ & Hz & Ht). constructor; [done|by eapply IH]. Qed.

Lemma cut_in_segment w p o mode base size ds :
  world_ok w [] None -> cut_buffers w p o mode base size ds ->
  let iov := (buildIovec ds base size).2 in Forall (in_segment w) iov /\ Rdma.total_len iov = size.
Proof.
  intros Hw (o2 & Ho2 & _ & _ & Ht & Hp & _). split.
  - apply Forall_forall. intros u Hu. apply list_elem_of_fmap in Hu as (d & -> & Hd).
    rewrite Forall_forall in Hp. specialize (Hp d Hd). pose proof (tiles_pos _ _ _ Ht) as Hz. rewrite Forall_forall in Hz.
    split; [by apply Hz|]. destruct (piece_block _ _ _ _ _ Hw Ho2 Hp) as (i & m & k & ? & ? & ?). by exists i, m, k.
  - etransitivity; [exact (Rdma.iov_total _ _ _ Ht)|lia].
Qed.

Lemma wp_read_iov c w v :
  let id := Hooks.of_network (rw_objectId v) in
  container_ok (c, w) -> accessible c w id (fits (rw_offset v) (rw_size v)) ->
  wp resource (read_buffers v) (fun r cw => container_ok cw /\ iov_done (c, w) id (rw_offset v) (rw_size v) r cw) (c, w).
Proof.
  intros id Hc Hacc. unfold read_buffers. fold id. set (base := rw_offset v) in *. set (size := rw_size v) in *.
  apply wp_bind. eapply wp_mono; [apply wp_never, (wp_open c w id _ Hc Hacc)|].
  intros p [c1 w1] (Hc1 & Hf & Hsh & Hsr & o & Ho & Hreg & Hb & Hs & He & Hsm). cbn [fst snd] in *. apply wp_lift. eapply wp_mono.
  { eapply wp_calm; [|apply keeps_getBuffers]. apply (wp_read_buffers w1 p o base size); try done. apply (co_world _ Hc1). }
  intros [ok ds] w2 [(Hw2 & Hst & Hv & Hr) Hcalm]. cbn [fst snd] in *. split; [by eapply container_calm|].
  assert (shown_le (fun _ _ => False) (c, w) (c1, w2)) as Hle.
  { intros i x b Hn. rewrite <- Hsh. eapply (shown_view (fun _ _ => False)); [exact Hc1|done|exact Hv|by intros (? & _ & ?)]. }
  split; [done|]. destruct ok; [|destruct Hr as [_ Hr]; intros Hx; by apply Hr, (readable_entry c1 w1 id p o base size Hc1 Hf Ho), (readable_same (c, w))]. cbn [fst snd]. destruct (cut_in_segment _ _ _ _ _ _ _ Hw2 Hr) as [Hseg Htot].
  destruct (cut_read _ _ _ _ _ _ _ Hw2 Hr) as (o3 & Ho3 & _ & Hlk). split; [done|]. split; [done|].
  intros x b Hx Hb'. rewrite Hlk by done. apply Hle in Hb'; [|by intros []]. unfold shown in Hb'. cbn [fst snd] in Hb'. by rewrite Hf, Ho3 in Hb'.
Qed.

(** The memory backend keeps its settings. *)
Lemma read_buffers_keeps {si} `{!Shield E si (fun _ => False)} v (cw : C) :
  si (w_env cw.2) -> wp any (read_buffers v) (fun _ cw' => si (w_env cw'.2)) cw.
Proof.
  intros Hsi. unfold read_buffers. apply wp_bind. unfold getObject. apply wp_bind, wp_gets.
  assert (forall p (cw1 : C), w_env cw1.2 = w_env cw.2 -> wp any (lift (getBuffers p (rw_offset v) (rw_size v) ACCESS_READ true false)) (fun _ cw' => si (w_env cw'.2)) cw1) as Hk.
  { intros p [c1 w1] E1. apply wp_lift. eapply wp_mono; [apply (keeps_getBuffers (shield_discipline si (fun _ => False)) p (rw_offset v) (rw_size v) ACCESS_READ true false w1); simpl in *; by rewrite E1|].
    by intros r w2 [? _]. }
  destruct (sm_find _ _) as [p|]; [by apply wp_ret, Hk|]. destruct cw as [c w]. unfold new_object. apply wp_bind, wp_lift. unfold wp at 1. apply wp_bind, wp_modify, wp_ret. by apply Hk.
Qed.
End container.

(** ** On the process *)
Section process.
Context {X St : Type} `{Libc X} `{!LibcOk X} `{Libfabric X} `{!LibfabricOk X} `{Fabric X} `{!FabricOk X} `{StringStorage} `{StorageOk St}.
Abbreviation S := (Cx X (option server_hook) rdma_done (App (Cache Malloc) St)).
Abbreviation C := (Container * World (Sys X * Cache Malloc) St)%type.
Implicit Types (s : S) (cw : C) (own rest : heap) (request : LibfabricClientRequest).
Variable fuel : nat.

(** A piece of a registered block of the cache *)
Definition own_piece own (v : Z * Z) : Prop :=
  0 < v.2 /\ exists p n, own !! p = Some (n, true) /\ p <= v.1 /\ v.1 + v.2 <= p + n.

Lemma segment_own own rest held busy d s v :
  server_ok own rest held busy d s -> registers (w_env (cw_of s).2) -> in_segment (cw_of s).2 v -> own_piece own v.
Proof.
  intros Hs Hreg (Hz & i & m & cnt & Hm & Hlo & Hhi). split; [done|].
  pose proof (sv_apart _ _ _ _ _ _ Hs) as Hd. pose proof (sv_rep _ _ _ _ _ _ Hs) as Hr.
  destruct (cw_block _ _ _ _ _ _ _ (sv_cw _ _ _ _ _ _ Hs) Hr Hd Hm) as [r Hb].
  destruct (cw_used _ _ _ _ (sv_cw _ _ _ _ _ _ Hs) Hr Hd) as (used & _ & [(sub & Hi & _ & _) _ _ _ _ _]).
  exists (osm_buffer m), (osm_size m). split; [|done]. rewrite Hi in Hb |- *. unfold plain in *. rewrite lookup_fmap in *.
  destruct (sub !! osm_buffer m) as [n|]; [|done]. simpl in Hb |- *. injection Hb as -> _. by rewrite Hreg.
Qed.

(** It is registered, and it is not in a message buffer. *)
Lemma own_piece_ready own rest held busy d s v :
  server_ok own rest held busy d s -> own_piece own v -> registered s v /\ outside (own ∪ rest) (all_bufs s busy) v.
Proof.
  intros Hs (Hz & p & n & Hp & Hlo & Hhi). pose proof (sv_rep _ _ _ _ _ _ Hs) as Hr.
  pose proof (own_lookup _ rest _ _ Hp) as Hg. destruct (rep_range _ _ _ _ _ Hr Hg) as (Hp0 & Hn & _). split.
  - pose proof Hg as Hg'. apply (sr_regs _ _ Hr) in Hg' as (k & mr & Hin). exists mr. unfold getFidMR, bind, assert_, guard_.
    destruct (v.1 =? 0) eqn:E0; [lia|]. destruct (v.2 >? 0) eqn:E1; [|lia]. simpl. rewrite getMR_run by lia.
    by rewrite (proj2 (region_at_spec _ _ v.1 k (mkRegion p n mr) Hr)) by (split; [done|simpl; lia]).
  - exists p, n, true. split; [done|]. split; [done|]. split; [done|]. by eapply own_not_buffer.
Qed.

(** *** Posting *)

(** The addresses of the pieces, and those that an operation on them writes here. *)
Definition in_pieces (iov : list (Z * Z)) (a : Z) : Prop := exists v, v ∈ iov /\ v.1 <= a < v.1 + v.2.
Definition landing (kind : rdma_kind) (iov : list (Z * Z)) (a : Z) : Prop := kind = RDMA_READ /\ in_pieces iov a.

(** What the operations [l] leave when they write at the addresses [T]. *)
Record rma_done (T : Z -> Prop) own held busy d (l : list rma_post) s t : Prop := {
  rd_frame : rma_frame T l s t;
  rd_cw : cw_but T own (cw_of s) (cw_of t);
  rd_fetching : fetching T own t;
  rd_ok : exists rest', server_ok own rest' held busy d t;
}.

Lemma rma_done_trans T own held busy d l1 l2 s1 s2 s3 :
  rma_done T own held busy d l1 s1 s2 -> rma_done T own held busy d l2 s2 s3 -> rma_done T own held busy d (l1 ++ l2) s1 s3.
Proof. intros [] []. constructor; try done; [by eapply rma_frame_trans|by eapply cw_but_trans]. Qed.

Lemma rma_frame_weaken (T T' : Z -> Prop) l s t : (forall a, T a -> T' a) -> rma_frame T l s t -> rma_frame T' l s t.
Proof. intros HT []. constructor; try done; [intros a Ha; apply rf_mem0; intuition|intros a Ha; destruct (rf_target0 a Ha); auto]. Qed.

Lemma wp_server_rdma T own rest held s kind dest iov ra key f addr :
  server_ok own rest held [] 0 s -> fetching T own s -> patient fuel s -> sm_find dest (remoteLiAddr (cx_conn s)) = Some addr ->
  iov <> [] -> Forall (own_piece own) iov -> (forall a, landing kind iov a -> T a) ->
  wp resource (transfer fuel kind dest iov ra key f)
    (fun _ t => exists a, rma_done T own held [] 0 [mkRma kind iov addr ra key a] s t /\
       a < cx_nextAction t /\ cx_actions t !! a = Some (new_PostAction (Function f))) s.
Proof.
  intros Hs Hid Hp Hd Hne Hpc HT.
  assert (Forall (registered s) iov /\ Forall (outside (own ∪ rest) (all_bufs s [])) iov) as [Hreg Hout].
  { rewrite !Forall_forall. split; intros v Hv; eapply own_piece_ready; try exact Hs; by eapply Forall_forall in Hpc. }
  assert (wp resource (transfer fuel kind dest iov ra key f) (fun _ t => owned_ok own (own ∪ rest) held [] 0 t /\
    exists a, rma_frame (landing kind iov) [mkRma kind iov addr ra key a] s t /\ a < cx_nextAction t /\ cx_actions t !! a = Some (new_PostAction (Function f))) s) as Hw.
  { assert ((0 <? Z.of_nat (length iov)) = true) as Hl by (destruct iov; [done|rewrite length_cons; apply Z.ltb_lt; lia]).
    assert (wp resource (rdma fuel kind dest iov ra key f) (fun _ t => owned_ok own (own ∪ rest) held [] 0 t /\
      exists a, rma_frame (landing kind iov) [mkRma kind iov addr ra key a] s t /\ a < cx_nextAction t /\ cx_actions t !! a = Some (new_PostAction (Function f))) s) as Hr.
    { eapply wp_mono; [eapply wp_also; [apply (wp_rdma (users := owned own) no_holds fuel (own ∪ rest) held s kind dest iov ra key f addr); try done|by apply rdma_frame]|].
      - apply (sv_conn _ _ _ _ _ _ Hs).
      - by intros _ t [(Hc' & _) Hfr]. }
    destruct kind; by apply wp_bind, wp_guard. }
  eapply wp_mono; [exact Hw|]. clear Hw. intros u t (Hc' & a & Hfr & Ha & Hact). exists a. split; [|done]. apply (rma_frame_weaken _ T) in Hfr; [|done].
  assert (fetching T own t) as Hid' by (intros y [Hy|Hy]%(rf_target _ _ _ _ Hfr); [by apply Hid|done]).
  assert (forall q, is_Some (rest !! q) -> is_Some ((own ∪ rest) !! q) /\ own !! q = None) as Hrest.
  { intros q [v Hv]. pose proof (map_disjoint_Some_r _ _ _ _ (sv_apart _ _ _ _ _ _ Hs) Hv) as Ho. split; [|done]. exists v. by rewrite lookup_union_r. }
  destruct (server_conn_step T own rest held [] 0 held [] 0 s t (own ∪ rest) Hs ltac:(done) Hc') as [Hs' Hk].
  - apply (rf_app _ _ _ _ Hfr).
  - by rewrite (rf_conn _ _ _ _ Hfr).
  - rewrite (rf_domain _ _ _ _ Hfr). intros q Hq. by apply Hrest, (sv_pool _ _ _ _ _ _ Hs).
  - intros b act Hb. destruct (rf_actions _ _ _ _ Hfr b act Hb) as [?|Hb']; [by left|].
    destruct (sv_acts _ _ _ _ _ _ Hs _ _ Hb'); [by left|right]. by apply Hrest.
  - intros y Hy Hn. apply (rf_mem _ _ _ _ Hfr). intros [Ht|Ht]; [|done]. by apply Hn, Hid.
  - constructor; try done. by eexists.
Qed.

(** The operations that move the groups [gs] from the offset [off] of the memory of the client. *)
Fixpoint posts (kind : rdma_kind) (addr : Z) (iov : Iov) (off : Z) (gs : list (list (Z * Z))) (l : list rma_post) : Prop :=
  match gs, l with
  | [], [] => True
  | g :: gs, r :: l =>
      r = mkRma kind g addr (iov_addr iov + off) (iov_key iov) (rp_context r) /\ posts kind addr iov (off + Rdma.total_len g) gs l
  | _, _ => False
  end.

Lemma posts_iov kind addr iov off gs l : posts kind addr iov off gs l -> rp_iov <$> l = gs.
Proof. revert off l. induction gs as [|g gs IH]; intros off [|r l]; try done. intros [-> Hl]. simpl. f_equal. by eapply IH. Qed.

Lemma patient_after T own held busy d l s t n :
  rma_done T own held busy d l s t -> patient (fuel - n - length l) s -> patient (fuel - n) t.
Proof. intros [[]] [? ?]. split; lia. Qed.

Lemma group_transfer kind lf iov ops size off g :
  rdma_group fuel kind lf iov ops size off g =
  ((transfer fuel kind (i32 lf) g (iov_addr iov +u off) (iov_key iov) (mkDone kind lf ops size) : M S unit) ;; ret (foldl (fun o v => o +u v.2) off g)).
Proof. by destruct kind. Qed.

Lemma wp_groups T own rest held s kind lf iov ops size addr off gs :
  server_ok own rest held [] 0 s -> fetching T own s -> patient (fuel - length gs) s -> sm_find (i32 lf) (remoteLiAddr (cx_conn s)) = Some addr ->
  Forall (fun g => g <> [] /\ Forall (own_piece own) g) gs ->
  (forall a, landing kind (concat gs) a -> T a) -> 0 <= iov_addr iov -> 0 <= off -> iov_addr iov + off + Rdma.total_len (concat gs) < two64 ->
  wp resource (fold_m (rdma_group fuel kind lf iov ops size) off gs)
    (fun _ t => exists l, rma_done T own held [] 0 l s t /\ posts kind addr iov off gs l /\
       Forall (fun r => rp_context r < cx_nextAction t /\
         cx_actions t !! rp_context r = Some (new_PostAction (Function (mkDone kind lf ops size)))) l) s.
Proof.
  revert rest s off. induction gs as [|g gs IH]; intros rest s off Hs Hid Hp Hd Hgs HT Ha Ho Hb.
  - apply wp_ret. exists []. split; [|done]. constructor; try done; [apply rma_frame_refl|apply cw_but_refl|by exists rest].
  - apply Forall_cons in Hgs as [[Hne Hg] Hgs]. simpl concat in Hb. rewrite Rdma.total_len_app in Hb.
    assert (Forall (fun v => 0 <= v.2) g) as Hz by (eapply Forall_impl; [exact Hg|]; intros v [? _]; lia).
    assert (0 <= Rdma.total_len (concat gs)) as Hz'.
    { apply Rdma.total_len_nonneg, Forall_concat. eapply Forall_impl; [exact Hgs|]. intros g' [_ Hg']. eapply Forall_impl; [exact Hg'|]. intros v [? _]. lia. }
    pose proof (Rdma.total_len_nonneg _ Hz). cbn [fold_m]. apply wp_bind. rewrite group_transfer, (u64_small (iov_addr iov + off)) by lia.
    assert (forall a, landing kind g a \/ landing kind (concat gs) a -> T a) as HT'.
    { intros a Hl. apply HT. destruct Hl as [[-> (v & Hv & Hin)]|[-> (v & Hv & Hin)]]; (split; [done|]); exists v; (split; [|done]); simpl concat; apply elem_of_app; auto. }
    apply wp_bind. eapply wp_mono; [apply (wp_server_rdma T own rest held s kind (i32 lf) g _ _ _ addr); try done; try (by intros a Hl; apply HT'; left); destruct Hp; split; simpl in *; lia|].
    intros _ t (a & Hdn & Hlt & Hact). apply wp_ret. rewrite Rdma.offsets_sum by (done || lia). destruct (rd_ok _ _ _ _ _ _ _ _ Hdn) as [rest' Hs'].
    eapply wp_mono; [apply (IH rest' t); try done; try lia; [| | |by intros y Hl; apply HT'; right]|].
    + exact (rd_fetching _ _ _ _ _ _ _ _ Hdn).
    + eapply (patient_after _ _ _ _ _ _ _ _ (length gs)); [exact Hdn|]. destruct Hp. split; simpl in *; lia.
    + by rewrite (rf_conn _ _ _ _ (rd_frame _ _ _ _ _ _ _ _ Hdn)).
    + intros _ u (l & Hdn2 & Hl & Hall). exists (mkRma kind g addr (iov_addr iov + off) (iov_key iov) a :: l).
      pose proof (rd_frame _ _ _ _ _ _ _ _ Hdn2) as Hfr. split; [exact (rma_done_trans _ _ _ _ _ [_] l _ _ _ Hdn Hdn2)|]. split; [done|].
      constructor; [|done]. simpl. pose proof (rf_next _ _ _ _ Hfr). split; [lia|]. by rewrite (rf_kept _ _ _ _ Hfr) by done.
Qed.

Lemma groups_length {A} n (l : list A) : (length (Hooks.groups n l) <= length l)%nat.
Proof.
  revert l. induction n as [|n IH]; intros [|x l]; simpl; try lia. pose proof (IH (drop 3 l)) as Hl. rewrite length_drop in Hl. lia.
Qed.

Lemma pieces_count own iov : Forall (own_piece own) iov -> Z.of_nat (length iov) <= Rdma.total_len iov.
Proof. induction 1 as [|v iov [Hv _] _ IH]; simpl; lia. Qed.

Lemma groups_pieces own iov :
  Forall (own_piece own) iov -> Forall (fun g => g <> [] /\ Forall (own_piece own) g) (Hooks.groups (length iov) iov).
Proof.
  intros Hp. apply Forall_and. split; [apply Rdma.groups_nonempty|]. apply Forall_concat. by rewrite Rdma.groups_concat.
Qed.

(** objRdmaPushToClient and objRdmaFetchFromClient *)
Lemma wp_objRdma T own rest held s kind lf v ds addr :
  let iov := (buildIovec ds (rw_offset v) (rw_size v)).2 in
  let ops := ap_nextOps (cx_app s) in
  server_ok own rest held [] 0 s -> fetching T own s -> patient (fuel - Z.to_nat (rw_size v)) s -> sm_find (i32 lf) (remoteLiAddr (cx_conn s)) = Some addr ->
  Forall (own_piece own) iov -> (forall a, landing kind iov a -> T a) -> Rdma.total_len iov = rw_size v -> 0 <= iov_addr (rw_iov v) -> iov_addr (rw_iov v) + rw_size v < two64 ->
  wp resource (objRdma fuel kind lf v ds)
    (fun _ t => exists l s1, rma_done T own held [] 0 l s1 t /\ posts kind addr (rw_iov v) 0 (Hooks.groups (length iov) iov) l /\
       cw_of s1 = cw_of s /\ cx_mem s1 = cx_mem s /\ cx_sys s1 = cx_sys s /\ ap_ops (cx_app t) = <[ops := Z.of_nat (length l)]> (ap_ops (cx_app s)) /\
       Forall (fun r => cx_actions t !! rp_context r = Some (new_PostAction (Function (mkDone kind lf ops (rw_size v))))) l) s.
Proof.
  intros iov ops Hs Hid Hp Hd Hpc HT Hl Ha Hb. unfold objRdma. fold iov. set (gs := Hooks.groups (length iov) iov).
  assert (concat gs = iov) as Egs by by apply Rdma.groups_concat.
  assert (length gs <= Z.to_nat (rw_size v))%nat as Hlen.
  { pose proof (groups_length (length iov) iov) as Hgl. fold gs in Hgl. pose proof (pieces_count _ _ Hpc). lia. }
  apply wp_bind. unfold new_ops. apply wp_bind. unfold wp at 1, get. apply wp_bind, wp_modify, wp_ret. fold ops. set (s1 := with_app _ s).
  assert (server_ok own rest held [] 0 s1) as Hs1 by by apply server_ok_app. apply wp_bind.
  eapply wp_mono; [apply (wp_groups T own rest held s1 kind lf (rw_iov v) ops (rw_size v) addr 0 gs); try done|].
  - destruct Hp as [? ?]. split; change (ep s1) with (ep s); lia.
  - by apply groups_pieces.
  - by rewrite Egs.
  - rewrite Egs. lia.
  - intros _ t (l & Hdn & Hpost & Hall). apply wp_ret. exists l, s1. split; [done|]. split; [done|]. split; [done|]. split; [done|]. split; [done|]. split.
    + rewrite (rf_app _ _ _ _ (rd_frame _ _ _ _ _ _ _ _ Hdn)). simpl. by rewrite <- (posts_iov _ _ _ _ _ _ Hpost), length_fmap.
    + eapply Forall_impl; [exact Hall|]. by intros r [_ ?].
Qed.

(** The pieces are not written by what follows. *)
Lemma gather_kept own (m m' : mem) iov :
  Forall (own_piece own) iov -> (forall a, in_block own a -> m' a = m a) -> gather m' iov = gather m iov.
Proof.
  intros Hp Hm. induction Hp as [|v iov (Hz & p & n & Hpn & Hlo & Hhi) _ IH]; [done|].
  change (rd m' v.1 v.2 ++ gather m' iov = rd m v.1 v.2 ++ gather m iov). rewrite IH. f_equal. apply rd_ext. intros a Ha. apply Hm. exists p, n, true. split; [done|lia].
Qed.

Lemma repost_same id s :
  wp any (repostReceive id) (fun _ t => cx_mem t = cx_mem s /\ cx_app t = cx_app s /\ cx_actions t = cx_actions s /\ ep_rmas (ep t) = ep_rmas (ep s)) s.
Proof.
  unfold repostReceive. apply wp_bind, wp_gets, wp_bind. destruct (_ !! _) as [p|] eqn:Ep; [|done]. apply wp_ret, wp_bind. unfold fabric, wp at 1.
  pose proof (fi_recv_ok (s_ext (cx_sys s)) p (recvBuffersSize (cx_conn s)) id) as Hl. cbv zeta in Hl.
  destruct (fi_recv _ _ _ _) as [err x]. simpl in *. unfold guard_. destruct (err =? 0); [|done]. apply wp_ret.
  split; [done|]. split; [done|]. split; [done|]. unfold ep. simpl. by rewrite Hl.
Qed.

(** The operations are posted and the receive buffer is given back. *)
Lemma wp_push_rdma own rest held s request v ds addr :
  let iov := (buildIovec ds (rw_offset v) (rw_size v)).2 in
  let ops := ap_nextOps (cx_app s) in
  let lf := lfClientId request in
  server_ok own rest (msgBufferId request :: held) [] 0 s -> idle own s -> patient (fuel - Z.to_nat (rw_size v)) s ->
  sm_find (i32 lf) (remoteLiAddr (cx_conn s)) = Some addr ->
  Forall (own_piece own) iov -> Rdma.total_len iov = rw_size v -> 0 <= iov_addr (rw_iov v) -> iov_addr (rw_iov v) + rw_size v < two64 ->
  wp resource (objRdma fuel RDMA_WRITE lf v ds ;; terminate request ;; ret LF_WAIT_LOOP_KEEP_WAITING)
    (fun r s' => r = LF_WAIT_LOOP_KEEP_WAITING /\ cw_kept (cw_of s) (cw_of s') /\ (exists rest', server_ok own rest' held [] 0 s') /\ idle own s' /\
       gather (cx_mem s') iov = gather (cx_mem s) iov /\
       exists l, ep_sent (ep s') = ep_sent (ep s) /\ ep_rmas (ep s') = ep_rmas (ep s) ++ l /\ posts RDMA_WRITE addr (rw_iov v) 0 (Hooks.groups (length iov) iov) l /\
         ap_ops (cx_app s') = <[ops := Z.of_nat (length l)]> (ap_ops (cx_app s)) /\
         Forall (fun r => cx_actions s' !! rp_context r = Some (new_PostAction (Function (mkDone RDMA_WRITE lf ops (rw_size v))))) l) s.
Proof.
  intros iov ops lf Hs Hid Hp Hd Hpc Hl Ha Hb. apply wp_bind. eapply wp_mono; [apply (wp_objRdma (fun _ => False) own rest (msgBufferId request :: held) s RDMA_WRITE lf v ds addr); try done; by intros a [[=] _]|].
  intros _ t (l & s1 & [Hfr Hk Hidt [rest' Ht]] & Hpost & Ecw & Em & Esys & Hops & Hall). assert (cw_kept (cw_of s) (cw_of t)) as Hk' by (rewrite Ecw in Hk; by eapply cw_but_kept). apply wp_bind.
  eapply wp_mono; [eapply wp_also; [by eapply (wp_server_repost own)|apply repost_same]|]. intros _ u [(Hsent & Hk2 & Hidu & Hu) (Um & Ua & Uact & Ur)].
  apply wp_ret. split; [done|]. split; [by eapply cw_kept_trans|]. split; [done|]. split; [done|]. split.
  - apply (gather_kept own); [done|]. intros a Hin. rewrite Um, (rf_mem _ _ _ _ Hfr), Em; [done|]. intros [Hta|[]].
    rewrite Esys in Hta. by eapply Hid.
  - exists l. rewrite Hsent, (rf_sent _ _ _ _ Hfr), Ur, (rf_rmas _ _ _ _ Hfr), Ua, Uact. unfold ep. by rewrite Esys.
Qed.

(** C10: a read request of more than IOC_EAGER_MAX_READ bytes that is received posts
    RDMA writes whose pieces, in order, hold exactly the bytes the server shows of
    the range and go one after the other in the memory of the client; one counter
    has the number of operations and the function of each of them refers to it.  The
    client is not answered yet.  When the storage cannot be read it is answered with
    the status -1.  Nothing shown changes, the receive buffer is posted again and
    the invariant of the process is kept. *)
Theorem server_read_rdma own rest held s request v addr :
  let id := Hooks.of_network (rw_objectId v) in
  let lf := lfClientId request in
  let ops := ap_nextOps (cx_app s) in
  server_ok own rest (msgBufferId request :: held) [] 0 s -> idle own s -> answerable fuel s lf addr -> request_at s request v ->
  patient (fuel - Z.to_nat (rw_size v)) s -> registers (w_env (cw_of s).2) ->
  IOC_EAGER_MAX_READ < rw_size v -> accessible (cw_of s).1 (cw_of s).2 id (fits (rw_offset v) (rw_size v)) ->
  0 <= iov_addr (rw_iov v) -> iov_addr (rw_iov v) + rw_size v < two64 ->
  wp pool_fault (serve_read fuel request)
    (fun r s' => r = LF_WAIT_LOOP_KEEP_WAITING /\ shown_le (fun _ _ => False) (cw_of s) (cw_of s') /\
       (exists own' rest', server_ok own' rest' held [] 0 s' /\ idle own' s') /\
       ((exists gs l, ep_sent (ep s') = ep_sent (ep s) /\ ep_rmas (ep s') = ep_rmas (ep s) ++ l /\ l <> [] /\ posts RDMA_WRITE addr (rw_iov v) 0 gs l /\
           Rdma.total_len (concat gs) = rw_size v /\
           (forall x b, rw_offset v <= x < rw_offset v + rw_size v -> shown (cw_of s) id x = Some b ->
              gather (cx_mem s') (concat gs) !! Z.to_nat (x - rw_offset v) = Some b) /\
           ap_ops (cx_app s') = <[ops := Z.of_nat (length l)]> (ap_ops (cx_app s)) /\
           Forall (fun r => cx_actions s' !! rp_context r = Some (new_PostAction (Function (mkDone RDMA_WRITE lf ops (rw_size v))))) l) \/
        (ep_sent (ep s') = ep_sent (ep s) ++ [(addr, status_bytes IOC_LF_MSG_OBJ_READ_WRITE_ACK (-1) s)] /\ ~ readable_at (cw_of s) id (rw_offset v) (rw_size v)))) s.
Proof.
  intros id lf ops Hs Hid Ha (p & Hp & Hm & Hrd) Hpat Hrg Hmax Hacc Hia Hib. unfold serve_read.
  destruct (unpack_received no_holds _ _ _ _ _ _ _ _ "objReadWrite" no_readWrite v (sv_conn _ _ _ _ _ _ Hs) (held_in _ _ _ _) Hrd Hp Hm) as (st & E).
  eapply wp_bind, wp_of_Ok; [exact E|]. cbn [fst]. set (v' := m_decoded _ _ _). apply wp_bind.
  eapply wp_mono; [eapply wp_weaken; [intros f Hf; left; exact Hf|]; apply (wp_container resource (read_buffers v')
    (fun r cw' => iov_done (cw_of s) id (rw_offset v') (rw_size v') r cw' /\ registers (w_env cw'.2)) _ _ _ _ _ _ Hs)|].
  { pose proof (sv_cw _ _ _ _ _ _ Hs) as Hc. destruct (cw_of s) as [c w]. eapply wp_mono; [eapply wp_also; [|by apply (read_buffers_keeps (si := registers) v' (c, w))]|].
    - exact (wp_read_iov (MPO := frame_ok own rest (cx_sys s)) c w v' Hc Hacc).
    - intros r cw' [[? ?] ?]. done. }
  intros [ok ds] s1 (Hb & [[Hle Hr] Hrg1] & own1 & Hsub & Hs1). cbn [fst snd] in *.
  pose proof (idle_beside _ _ _ _ _ _ _ _ Hs Hid Hb Hs1) as Hid1. pose proof (answerable_beside _ _ _ _ _ Hb Ha) as Ha1.
  pose proof (beside_ep _ _ Hb) as Hep.
  assert (forall s', cw_kept (cw_of s1) (cw_of s') -> shown_le (fun _ _ => False) (cw_of s) (cw_of s')) as Hle'.
  { intros s' [_ Hsh] i x b Hn Hx. rewrite Hsh. by apply Hle. }
  destruct ok.
  - destruct Hr as (Hseg & Hlen & Hdata). rewrite (proj2 (Z.leb_gt (rw_size v') _) Hmax). cbv zeta in Hseg, Hlen, Hdata.
    set (iov := (buildIovec ds (rw_offset v') (rw_size v')).2) in *.
    eapply wp_mono; [eapply wp_weaken; [intros f Hf; left; exact Hf|]; apply (wp_push_rdma own1 rest held s1 request v' ds addr); try done|].
    + unfold patient. by rewrite Hep.
    + exact (an_client _ _ _ _ Ha1).
    + eapply Forall_impl; [exact Hseg|]. intros u Hu. by eapply segment_own.
    + fold iov. intros r s' (-> & Hk & [rest' Hs'] & Hid' & Hg & l & Hsent & Hrm & Hpost & Hops & Hall).
      split; [done|]. split; [by apply Hle'|]. split; [by exists own1, rest'|]. left. exists (Hooks.groups (length iov) iov), l. rewrite Hsent, Hrm, Hep.
      assert (concat (Hooks.groups (length iov) iov) = iov) as Ec by by apply Rdma.groups_concat. rewrite Ec. destruct (be_ops _ _ Hb) as [Eo En]. rewrite Eo, En in Hops. rewrite En in Hall.
      split_and!; try done.
      * intros ->. apply posts_iov in Hpost. rewrite <- Hpost in Ec. simpl in Ec. rewrite <- Ec in Hlen. simpl in Hlen. change (rw_size v') with (rw_size v) in Hlen. unfold IOC_EAGER_MAX_READ in Hmax. lia.
      * intros x b Hx Hb'. rewrite Hg. by apply Hdata.
  - eapply wp_mono; [apply (wp_finish_request own1 held [] 0 s1 _ request addr (status_bytes IOC_LF_MSG_OBJ_READ_WRITE_ACK (-1) s1))|].
    + eapply wp_mono; [eapply wp_sendStatus; try done|]. intros _ s2 (Hms & Hk & Hid2 & Hs2). split; [exact (ms_sent _ _ _ _ Hms)|done].
    + intros r s' (-> & [Hsent Hk Hid2 [rest2 Hs2]]). split; [done|]. split; [by apply Hle'|]. split; [by exists own1, rest2|].
      right. split; [|done]. rewrite Hsent, Hep. unfold status_bytes. by rewrite (be_conn _ _ Hb).
Qed.

(** *** Completions *)

Lemma delete_frame a act s :
  cx_actions s !! a = Some act -> pa_bufferId act = IOC_LF_NO_BUFFER ->
  wp any (delete_action a) (fun _ t => s_ext (cx_sys t) = s_ext (cx_sys s) /\ cx_mem t = cx_mem s /\ cx_app t = cx_app s /\ cx_conn t = cx_conn s /\
    (forall b act', cx_actions t !! b = Some act' -> cx_actions s !! b = Some act') /\
    (forall q, q ∈ msgBuffers (s_domain (cx_sys t)) -> q ∈ msgBuffers (s_domain (cx_sys s)) \/ q = pa_domainBuffer act /\ q <> 0)) s.
Proof.
  intros Ha Hid. unfold delete_action, get_action. apply wp_bind, wp_bind, wp_gets, (wp_of_option _ _ _ act); [done|]. apply wp_bind.
  assert (forall b act', delete a (cx_actions s) !! b = Some act' -> cx_actions s !! b = Some act') as Hdel by (intros b act'; rewrite lookup_delete_Some; tauto).
  unfold freeBuffer. destruct (pa_connection act); [|apply wp_ret, wp_modify; by auto 10]. rewrite Hid, Z.eqb_refl, andb_false_r. apply wp_bind, wp_ret.
  destruct (pa_domainBuffer act =? 0) eqn:E0; [apply wp_ret, wp_modify; by auto 10|]. apply wp_conn_sys. unfold retMsgBuffer.
  apply wp_bind, wp_guard; [by rewrite E0|]. apply wp_modify, wp_modify. split_and!; try done. simpl. intros q [Hq|Hq]%elem_of_app; [by left|right].
  apply list_elem_of_singleton in Hq as ->. split; [done|]. by apply Z.eqb_neq.
Qed.

(** The action of a completion is deleted and the count goes down. *)
Lemma wp_server_end T own rest held a s (r : LibfabricActionResult) :
  server_ok own rest held [a] 1 s -> fetching T own s ->
  wp never (delete_action a ;; count_action (-1) ;; let! n := conn pendingAction in assert_ (n >=? 0) ;; ret r)
    (fun r' t => r' = r /\ cx_app t = cx_app s /\ ep t = ep s /\ cw_but T own (cw_of s) (cw_of t) /\ fetching T own t /\ cx_actions t = delete a (cx_actions s) /\
       exists rest', server_ok own rest' held [] 0 t) s.
Proof.
  intros Hs Hid. pose proof (sv_conn _ _ _ _ _ _ Hs) as Hc. destruct (co_live _ _ _ _ _ _ Hc a) as [act Ha]; [apply elem_of_app; right; by left|].
  pose proof (co_acts _ _ _ _ _ _ Hc _ _ Ha) as (_ & Hbid & _). apply wp_bind.
  eapply wp_mono; [eapply wp_also; [by apply (wp_delete_action (users := owned own))|by apply (delete_frame a act s)]|].
  intros _ t [(Ht & _ & Hdel) (Ex & Em & Eapp & Ecn & Hact & Hpool)]. apply counted_down in Ht. apply wp_bind, wp_modify. set (t1 := with_conn _ t) in *.
  assert (forall q, is_Some (rest !! q) -> is_Some ((own ∪ rest) !! q) /\ own !! q = None) as Hrest.
  { intros q [u Hu]. pose proof (map_disjoint_Some_r _ _ _ _ (sv_apart _ _ _ _ _ _ Hs) Hu) as Ho. split; [|done]. exists u. by rewrite lookup_union_r. }
  assert (forall b act', cx_actions s !! b = Some act' -> pa_domainBuffer act' = 0 \/ is_Some ((own ∪ rest) !! pa_domainBuffer act') /\ own !! pa_domainBuffer act' = None) as Hb.
  { intros b act' Hb. destruct (sv_acts _ _ _ _ _ _ Hs _ _ Hb); [by left|right]. by apply Hrest. }
  destruct (server_conn_step T own rest held [a] 1 held [] 0 s t1 (own ∪ rest) Hs ltac:(done) Ht) as [Hs' Hk].
  - done.
  - simpl. by rewrite Ecn.
  - intros q [Hq|[-> Hz]]%Hpool; [by apply Hrest, (sv_pool _ _ _ _ _ _ Hs)|]. destruct (Hb a act Ha); [done|done].
  - intros b act' Hb'. by eapply Hb, Hact.
  - intros y _ _. simpl. by rewrite Em.
  - apply wp_bind, wp_gets, wp_bind, wp_guard.
    { pose proof (co_pending _ _ _ _ _ _ Ht) as Hp. rewrite Hp. lia. }
    apply wp_ret. split_and!; try done; [unfold ep; simpl; by rewrite Ex| |by eexists]. intros y Hy. apply Hid. simpl in Hy. by rewrite <- Ex.
Qed.

(** What the server shows while operations write at the addresses [T]: the rest of
    the memory of the objects is the same, and so is all that is not their memory. *)
Record shown_under (T : Z -> Prop) own s s' : Prop := {
  su_mem : forall a, in_block own a -> ~ T a -> cx_mem s' a = cx_mem s a;
  su_shown : forall i x, shown (cw_of s') i x = shown (cw_of (with_mem (cx_mem s') s)) i x;
}.

Lemma but_under T own s s' : cw_but T own (cw_of s) (cw_of s') -> shown_under T own s s'.
Proof.
  intros (f & e & E & Hf). assert (cx_mem s' = f (cx_mem s)) as Em by exact (f_equal (fun cw => w_mem cw.2) E).
  constructor; rewrite Em; [exact Hf|]. intros i x. by rewrite E.
Qed.

(** C32: when an RDMA operation of a request completes, its counter goes down; the
    client is answered, once and with the status 0, by the completion that brings it
    to 0, and the counter is then deleted.  The action of the operation is deleted
    and the invariant of the process is kept, by which no message buffer is lost.  Nothing the server shows changes but
    through the memory that the operations of the large writes under way fetch. *)
Theorem server_rdma_completes T own rest held s a f n addr :
  server_ok own rest held [a] 1 s -> fetching T own s -> answerable fuel s (rd_lfClientId f) addr ->
  cx_actions s !! a = Some (new_PostAction (Function f)) -> ap_ops (cx_app s) !! rd_ops f = Some n ->
  wp pool_fault (finish_action (onRdmaDone fuel) a)
    (fun r s' => r = LF_WAIT_LOOP_KEEP_WAITING /\ shown_under T own s s' /\ cx_actions s' !! a = None /\
       (exists rest', server_ok own rest' held [] 0 s' /\ fetching T own s') /\
       if n =? 1 then
         ep_sent (ep s') = ep_sent (ep s) ++ [(addr, status_bytes IOC_LF_MSG_OBJ_READ_WRITE_ACK 0 s)] /\ ap_ops (cx_app s') = delete (rd_ops f) (ap_ops (cx_app s))
       else ep_sent (ep s') = ep_sent (ep s) /\ ap_ops (cx_app s') = <[rd_ops f := n - 1]> (ap_ops (cx_app s))) s.
Proof.
  intros Hs Hid Ha Hact Hn. unfold finish_action, runPostAction, get_action.
  apply wp_bind, wp_bind, wp_bind, wp_gets, (wp_of_option _ _ _ (new_PostAction (Function f))); [done|]. cbn [pa_body new_PostAction].
  unfold onRdmaDone. apply wp_bind. unfold wp at 1, get. apply wp_bind, (wp_of_option _ _ _ n); [done|]. apply wp_bind, wp_modify. set (s1 := with_app _ s).
  assert (server_ok own rest held [a] 1 s1) as Hs1 by by apply server_ok_app. apply wp_bind. destruct (n =? 1) eqn:En.
  - replace (n - 1 =? 0) with true by (symmetry; apply Z.eqb_eq; lia). apply wp_bind, wp_modify. set (s2 := with_app _ s1).
    assert (server_ok own rest held [a] 1 s2) as Hs2 by (apply server_ok_app; [done|by unfold s2; destruct (rd_kind f)]).
    apply wp_bind. eapply wp_mono; [apply (wp_status_under fuel T own rest held [a] 1 s2 _ _ addr 0 Hs2 Hid); [destruct Ha as [? [] ?]; by constructor|done]|].
    intros _ s3 (Hms & Hk & Hid3 & rest3 & Hs3). apply wp_bind. unfold wp at 1, get. apply wp_modify. set (s4 := with_app _ s3).
    assert (server_ok own rest3 held [a] 1 s4) as Hs4 by by apply server_ok_app. apply wp_ret.
    eapply wp_never, wp_mono; [by apply (wp_server_end T own rest3 held a s4)|]. intros r t (-> & Eapp & Eep & Hk4 & Hid4 & Hdel & Hok). split; [done|]. split; [|split; [rewrite Hdel; apply lookup_delete_eq|split; [|split]]].
    + apply but_under. eapply cw_but_trans; [|exact Hk4]. change (cw_of s4) with (cw_of s3). replace (cw_of s) with (cw_of s2); [done|]. unfold s2. by destruct (rd_kind f).
    + destruct Hok as [rest' Hok]. by exists rest'.
    + rewrite Eep. change (ep s4) with (ep s3). rewrite (ms_sent _ _ _ _ Hms). done.
    + rewrite Eapp. simpl. rewrite (ms_app _ _ _ _ Hms). unfold s2. destruct (rd_kind f); simpl; by rewrite delete_insert_eq.
  - replace (n - 1 =? 0) with false by (symmetry; apply Z.eqb_neq; lia). apply wp_ret, wp_ret.
    eapply wp_never, wp_mono; [by apply (wp_server_end T own rest held a s1)|]. intros r t (-> & Eapp & Eep & Hk4 & Hid4 & Hdel & rest' & Hok). split; [done|].
    split; [by apply but_under|]. split; [rewrite Hdel; apply lookup_delete_eq|]. split; [by exists rest'|]. rewrite Eep, Eapp. done.
Qed.
End process.
End ServerRdma.
