(* ===== verification/ServerFetch.v ===== *)
(** * Writes by RDMA, from the message to the data

    A write whose data is not in the message: the handler posts RDMA reads that fetch
    it from the memory of the client into the segments of the object.  The memory of
    those segments is then the card's until the operations have completed: the
    theorem is on any memory that differs from the one left by the handler at the
    addresses that are fetched only. *)

From Stdlib Require Import String.
From S2P Require Import Prelude StdMap Memory IntervalMap Serializer Protocol Interfaces World WorldInv View Object Calm ObjectAccess ObjectData ObjectFlush Container System Fabric LibfabricDomain ClientRegistry Connection Dispatch ConnectionInv ConnectionSend ConnectionPoll ConnectionRdma MemoryBackend MemoryCache Provider Hooks Requests Rdma ServerMemory ServerHooks ServerInv ServerRequests ServerWrites ServerRdma.

Module ServerFetch.
Import Serializer Protocol Object Calm ObjectAccess ObjectData ObjectFlush Container LibfabricDomain ClientRegistry Connection Dispatch ConnectionInv ConnectionSend ConnectionPoll ConnectionRdma MemoryBackend MemoryCache Provider Requests ServerMemory ServerHooks ServerInv ServerRequests ServerWrites ServerRdma.

(** ** Pieces of memory *)

#[export] Instance in_pieces_dec iov a : Decision (in_pieces iov a).
Proof.
  refine (cast_if (decide (Exists (fun v : Z * Z => v.1 <= a < v.1 + v.2) iov))).
  - by apply Exists_exists.
  - intros Hp. by apply n, Exists_exists.
Defined.

Lemma gather_total m iov : Forall (fun v => 0 <= v.2) iov -> Z.of_nat (length (gather m iov)) = Rdma.total_len iov.
Proof.
  induction 1 as [|v iov Hv _ IH]; [done|]. change (gather m (v :: iov)) with (rd m v.1 v.2 ++ gather m iov).
  rewrite length_app, Nat2Z.inj_add, IH, rd_length by done. done.
Qed.

(** What is scattered comes from the same addresses of the memory [m]. *)
Lemma scatter_gather m0 m iov a :
  Forall (fun v => 0 <= v.2) iov ->
  (in_pieces iov a -> scatter m0 iov (gather m iov) a = m a) /\ (~ in_pieces iov a -> scatter m0 iov (gather m iov) a = m0 a).
Proof.
  intros Hz. revert m0. induction Hz as [|[p n] iov Hv _ IH]; intros m0; [split; [|done]; intros (v & Hv & _); by apply elem_of_nil in Hv|].
  change (gather m ((p, n) :: iov)) with (rd m p n ++ gather m iov). cbn [scatter fst snd] in *.
  rewrite take_app_length', drop_app_length' by (rewrite rd_length_nat; done).
  destruct (IH (wr m0 p (rd m p n))) as [Hin Hout]. set (m1 := wr m0 p (rd m p n)) in *.
  assert (p <= a < p + n -> m1 a = m a) as Hw.
  { intros Ha. unfold m1. replace a with (p + Z.of_nat (Z.to_nat (a - p))) at 1 by lia. apply wr_in. rewrite rd_lookup by lia. do 2 f_equal. lia. }
  destruct (decide (in_pieces iov a)) as [Hi|Hn].
  - rewrite (Hin Hi). split; [done|]. intros Hno. destruct Hno. destruct Hi as (v & Hv' & Ha). exists v. split; [by right|done].
  - rewrite (Hout Hn). split.
    + intros (v & [->|Hv']%elem_of_cons & Ha); [by apply Hw|]. destruct Hn. by exists v.
    + intros Hno. unfold m1. apply wr_out. rewrite rd_length by done. intros Ha. destruct Hno. exists (p, n). split; [by left|done].
Qed.

Section process.
Context {X St : Type} `{Libc X} `{!LibcOk X} `{Libfabric X} `{!LibfabricOk X} `{Fabric X} `{!FabricOk X} `{StringStorage} `{StorageOk St}.
Abbreviation S := (Cx X (option server_hook) rdma_done (App (Cache Malloc) St)).
Abbreviation C := (Container * World (Sys X * Cache Malloc) St)%type.
Implicit Types (s : S) (cw : C) (own rest : heap) (request : LibfabricClientRequest).
Variable fuel : nat.

Lemma own_pieces_nonneg own iov : Forall (own_piece own) iov -> Forall (fun v => 0 <= v.2) iov.
Proof. intros Hp. eapply Forall_impl; [exact Hp|]. intros v [? _]. lia. Qed.

(** What is shown with the memory [m] does not depend on the connection. *)
Lemma but_any T own s s' m i x : cw_but T own (cw_of s) (cw_of s') -> shown (cw_of (with_mem m s')) i x = shown (cw_of (with_mem m s)) i x.
Proof.
  intros (f & e & E & _). change (cw_of (with_mem m s')) with ((cw_of s').1, World.set_mem (fun _ => m) (cw_of s').2). by rewrite E.
Qed.

(** What is shown once the data is in the segments. *)
Lemma fetched_shown own0 rest0 x0 cw0 own rest held s id base size p ds w1 m :
  let iov := (buildIovec ds base size).2 in
  server_ok own rest held [] 0 s ->
  @write_ready _ _ _ (frame_ok own0 rest0 x0) _ _ cw0 id base size p ds (cw_of s).1 w1 (cw_of s).2 ->
  Forall (own_piece own) iov -> Rdma.total_len iov = size -> (forall a, in_block own a -> ~ in_pieces iov a -> m a = cx_mem s a) ->
  (forall x, base <= x < base + size -> shown (cw_of (with_mem m s)) id x = gather m iov !! Z.to_nat (x - base)) /\
  shown_le (fun i x => i = id /\ touched_at cw0 id base size x) cw0 (cw_of (with_mem m s)).
Proof.
  intros iov Hs Hy Hp Hl Hm. pose proof (own_pieces_nonneg _ _ Hp) as Hz. set (f := fun m0 => scatter m0 iov (gather m iov)).
  destruct (write_shown (MPO := frame_ok own0 rest0 x0) _ _ _ _ _ _ _ _ _ f (gather m iov) Hy) as [Hnew Hold]; [by rewrite gather_total|done|].
  pose proof (server_ok_mem _ _ _ _ _ _ (f (cx_mem s)) Hs) as Hs'.
  assert (forall i x, shown (cw_of (with_mem m s)) i x = shown ((cw_of s).1, World.set_mem f (cw_of s).2) i x) as E.
  { refine (ck_shown _ _ (cw_kept_intro own rest (cx_sys s) (cw_of (with_mem (f (cx_mem s)) s)) (fun _ => m) (w_env (cw_of s).2) _ _ _ _)).
    - exact (sv_cw _ _ _ _ _ _ Hs').
    - exact (sv_rep _ _ _ _ _ _ Hs').
    - exact (sv_apart _ _ _ _ _ _ Hs').
    - intros a Ha. destruct (scatter_gather (cx_mem s) m iov a Hz) as [Hin Hout]. simpl. unfold f.
      destruct (decide (in_pieces iov a)) as [Hi|Hn]; [by rewrite Hin|by rewrite Hout, Hm]. }
  split; [intros x Hx; rewrite E; by apply Hnew|]. intros i x b Hn Hb. rewrite E. by apply Hold.
Qed.

(** The operations of a request that fetch the pieces [iov], and where they are counted *)
Record fetches (addr : Z) (v : LibfabricObjReadWriteInfos) (lf : Z) (gs : list (list (Z * Z))) (l : list rma_post) s s' : Prop := {
  ft_sent : ep_sent (ep s') = ep_sent (ep s);
  ft_rmas : ep_rmas (ep s') = ep_rmas (ep s) ++ l;
  ft_posts : posts RDMA_READ addr (rw_iov v) 0 gs l;
  ft_ops : ap_ops (cx_app s') = <[ap_nextOps (cx_app s) := Z.of_nat (length l)]> (ap_ops (cx_app s));
  ft_actions : Forall (fun r => cx_actions s' !! rp_context r = Some (new_PostAction (Function (mkDone RDMA_READ lf (ap_nextOps (cx_app s)) (rw_size v))))) l;
}.

(** The operations are posted, the segments marked and the receive buffer is given back. *)
Lemma wp_fetch_tail own rest held s request v ds addr p :
  let iov := (buildIovec ds (rw_offset v) (rw_size v)).2 in
  server_ok own rest (msgBufferId request :: held) [] 0 s -> idle own s -> patient (fuel - Z.to_nat (rw_size v)) s ->
  sm_find (i32 (lfClientId request)) (remoteLiAddr (cx_conn s)) = Some addr ->
  Forall (own_piece own) iov -> Rdma.total_len iov = rw_size v -> 0 <= iov_addr (rw_iov v) -> iov_addr (rw_iov v) + rw_size v < two64 ->
  is_Some (w_objects (cw_of s).2 !! p) -> 0 <= rw_offset v -> 0 < rw_size v -> rw_offset v + rw_size v < two63 ->
  wp resource (objRdma fuel RDMA_READ (lfClientId request) v ds ;; on_world (markDirty p (rw_offset v) (rw_size v)) ;;
               terminate request ;; ret LF_WAIT_LOOP_KEEP_WAITING)
    (fun r s' => r = LF_WAIT_LOOP_KEEP_WAITING /\
       (exists l, fetches addr v (lfClientId request) (Hooks.groups (length iov) iov) l s s') /\
       (forall a, in_block own a -> ~ in_pieces iov a -> cx_mem s' a = cx_mem s a) /\
       (forall m i x, shown (cw_of (with_mem m s')) i x = shown (cw_of (with_mem m s)) i x) /\
       (forall id, sm_find id (c_objects (cw_of s).1) = Some p -> dirty_range (cw_of s') id (rw_offset v) (rw_size v)) /\
       exists own' rest', own ⊆ own' /\ server_ok own' rest' held [] 0 s' /\ fetching (in_pieces iov) own' s') s.
Proof.
  intros iov Hs Hid Hp Hd Hpc Hl Ha Hb Ho Hb0 Hsz He. apply wp_bind. eapply wp_mono.
  { apply (wp_objRdma fuel (in_pieces iov) own rest (msgBufferId request :: held) s RDMA_READ (lfClientId request) v ds addr); try done; [|by intros a [_ ?]]. intros a Hta Hin. by destruct (Hid a Hta Hin). }
  intros u t (l & s1 & [Hfr Hk Hft [rest1 Ht]] & Hpost & Ecw & Em & Esys & Hops & Hall). rewrite Ecw in Hk.
  destruct Hk as (f & e & Et & Hf). apply wp_bind. eapply wp_mono.
  { apply wp_never, (wp_mark_dirty own rest1 _ t p (rw_offset v) (rw_size v) Ht); try done. by rewrite Et. }
  intros u' t2 (Hb2 & (Hsh2 & Hm2 & Hdirty) & own2 & Hsub & Ht2). pose proof (fetching_beside _ _ _ _ _ _ _ _ _ Ht Hft Hb2 Ht2) as Hft2.
  apply wp_bind. eapply wp_mono; [eapply wp_also; [by eapply (wp_repost_under (in_pieces iov) own2)|apply repost_same]|].
  intros u'' t3 [(Hsent & Hk3 & Hft3 & rest3 & Ht3) (Um & Ua & Uact & Ur)]. apply wp_ret. split; [done|].
  pose proof (beside_ep _ _ Hb2) as Hep. destruct (be_ops _ _ Hb2) as [Eo _]. split_and!.
  - exists l. constructor; [|rewrite Ur, Hep, (rf_rmas _ _ _ _ Hfr); unfold ep; by rewrite Esys|done|by rewrite Ua, Eo, Hops|rewrite Uact, (be_actions _ _ Hb2); done].
    rewrite Hsent, Hep, (rf_sent _ _ _ _ Hfr). unfold ep. by rewrite Esys.
  - intros a Hin Hn. rewrite Um, Hm2. change (cx_mem t) with (w_mem (cw_of t).2). rewrite Et. simpl. by apply Hf.
  - intros m i x. rewrite (but_any _ _ _ _ m i x Hk3), Hsh2. apply (but_any (in_pieces iov) own). by exists f, e.
  - intros id Hfind. destruct Hk3 as (f3 & e3 & E3 & _). rewrite E3. apply (Hdirty id). by rewrite Et.
  - by exists own2, rest3.
Qed.

End process.
End ServerFetch.
