(* ===== verification/EndToEnd.v ===== *)
(** * A client and the server

    The client and the server are two processes with a memory each; the network gives
    to the one the bytes that the other has sent.  The theorems follow a write and a
    read from the call of the client, through the bytes of the request, the dispatch
    and the handler of the server and the bytes of the answer, to what the call
    returns. *)

From Stdlib Require Import String.
From S2P Require Import Prelude StdMap Memory Serializer Protocol Interfaces World WorldInv View Object ObjectAccess ObjectData Container System Fabric LibfabricDomain ClientRegistry Connection Dispatch ConnectionInv ConnectionSend ConnectionPoll ConnectionLoop Client MemoryBackend MemoryCache Provider Hooks Requests ServerMemory ServerHooks ServerInv ServerRequests ServerWrites.

Module EndToEnd.
Import Serializer Protocol Object ObjectAccess ObjectData Container LibfabricDomain ClientRegistry Connection Dispatch ConnectionInv ConnectionSend ConnectionPoll ConnectionLoop Client MemoryBackend MemoryCache Provider Requests ServerMemory ServerHooks ServerInv ServerRequests ServerWrites.

(** ** Bytes that cross the network *)

(** A request with its data, and the same one at the place where it was received *)
Lemma write_received m m' oid buffer size offset q :
  0 <= size ->
  let v := write_request oid buffer size offset in
  let v' := write_request oid (q + 49) size offset in
  rd m' q (blen (m_bytes m v)) = m_bytes m v -> m_bytes m' v' = m_bytes m v /\ m_payload m' v' = rd m buffer size.
Proof.
  intros Hs v v' Hrd. set (pre := m_bytes m oid ++ m_bytes m (mkIov 0 0) ++ le_split 8 offset ++ le_split 8 size ++ bool_bytes true).
  assert (forall m0 b, m_bytes m0 (write_request oid b size offset) = pre ++ rd m0 b size) as Ew.
  { intros m0 b. unfold pre. rewrite <- !app_assoc. rewrite <- (app_nil_r (rd m0 b size)). reflexivity. }
  pose proof (Ew m buffer) as E. pose proof (Ew m' (q + 49)) as E'. fold v in E. fold v' in E'.
  assert (blen pre = 49) as Hl by (unfold pre; simpl; by rewrite !length_app, !le_split_length).
  rewrite E in Hrd. rewrite length_app, Nat2Z.inj_add, Hl, rd_length, rd_app in Hrd by lia.
  apply app_inj_1 in Hrd as [_ Hd]; [|apply Nat2Z.inj; rewrite rd_length, Hl; lia]. rewrite E, E', Hd. by split.
Qed.

(** The status of an answer *)
Lemma status_received {X St} (s : Cx X (option server_hook) rdma_done (App (Cache Malloc) St)) t status (m : mem) p n :
  is_i32 status -> 64 <= n ->
  rd m p (blen (status_bytes t status s)) = status_bytes t status s -> answer_at m p n (mkResponse 0 status false 0 None 0).
Proof.
  intros Hi Hn Hrd. unfold status_bytes in Hrd. rewrite length_app, Nat2Z.inj_add, header_size, rd_app in Hrd by (unfold HEADER_SIZE; lia).
  apply app_inj_1 in Hrd as [_ Hrd]; [|apply Nat2Z.inj; rewrite header_size, rd_length; by unfold HEADER_SIZE]. split; [|split; [|exact Hrd]].
  - split; [done|]. by split.
  - replace (blen (m_bytes m (mkResponse 0 status false 0 None 0))) with 13 by (simpl; by rewrite !length_app, !le_split_length). unfold HEADER_SIZE. lia.
Qed.

(** The data of an answer *)
Lemma data_received {X St} (s : Cx X (option server_hook) rdma_done (App (Cache Malloc) St)) l (m : mem) p n :
  is_u64 (blen l) -> 45 + blen l <= n -> rd m p (blen (data_answer s l)) = data_answer s l ->
  exists resp, answer_at m p n resp /\ rsp_status resp = 0 /\ rsp_msgHasData resp = true /\ response_data m resp = l.
Proof.
  intros Hu Hn Hrd. unfold data_answer in Hrd. rewrite length_app, Nat2Z.inj_add, header_size, rd_app in Hrd by (unfold HEADER_SIZE; lia).
  apply app_inj_1 in Hrd as [_ Hrd]; [|apply Nat2Z.inj; rewrite header_size, rd_length; by unfold HEADER_SIZE].
  set (pre := le_split 8 (blen l) ++ le_split 4 0 ++ bool_bytes true). assert (blen pre = 13) as Hpre by (unfold pre; by rewrite !length_app, !le_split_length).
  replace (le_split 8 (blen l) ++ le_split 4 0 ++ bool_bytes true ++ l) with (pre ++ l) in Hrd by (unfold pre; by rewrite <- !app_assoc).
  set (resp := mkResponse (blen l) 0 true (p + HEADER_SIZE + 13) None 0). pose proof Hrd as Hl. rewrite length_app, Nat2Z.inj_add, Hpre, rd_app in Hl by lia.
  apply app_inj_1 in Hl as [_ Hl]; [|apply Nat2Z.inj; rewrite rd_length, Hpre; lia].
  assert (m_bytes m resp = pre ++ l) as E.
  { transitivity (pre ++ rd m (p + HEADER_SIZE + 13) (blen l)); [|by rewrite Hl]. unfold pre. rewrite <- !app_assoc, <- (app_nil_r (rd m _ _)). reflexivity. }
  exists resp. split; [|by split_and!]. split; [split; [done|]; by split|]. rewrite E. split; [rewrite length_app; unfold HEADER_SIZE; lia|exact Hrd].
Qed.

Section server.
Context {X St : Type} `{Libc X} `{!LibcOk X} `{Libfabric X} `{!LibfabricOk X} `{Fabric X} `{!FabricOk X} {users : Users} `{StringStorage} `{StorageOk St}.
Abbreviation Server := (Cx X (option server_hook) rdma_done (App (Cache Malloc) St)).
Variable fuel : nat.
Variable consistencyCheck : bool.
Variable onPing : LibfabricClientRequest -> M Server LibfabricActionResult.
Variable onEndpointConnect : rdma_done -> Z -> M Server unit.

(** LibfabricConnection::onRecv, in the server *)
Definition serve (id : Z) : M Server LibfabricActionResult :=
  onRecv fuel (server_onMessage fuel consistencyCheck onPing) (onRdmaDone fuel) onEndpointConnect id.

(** The bytes of a request are in the receive buffer [id] of a server that knows the
    client, accepts its identity and has the handler [k] for it. *)
Record delivered (h : LibfabricMessageHeader) (k : server_hook) (bytes : list byte) own rest held id addr (s : Server) : Prop := {
  de_ok : server_ok own rest (id :: held) [] 0 s;
  de_idle : idle own s;
  de_client : answerable fuel s (hdr_lfClientId h) addr;
  de_accepted : refused s h = false;
  de_hook : hooks (cx_conn s) !! hdr_msgType h = Some (Some k);
  de_bytes : exists p, recvBuffers (cx_conn s) !! Z.to_nat id = Some p /\ rd (cx_mem s) p (blen bytes) = bytes;
  de_fits : blen bytes <= recvBuffersSize (cx_conn s);
}.

(** The server reads the header that was sent and runs the handler. *)
Lemma delivered_served m h k body own rest held id addr s :
  delivered h k (m_bytes m h ++ body) own rest held id addr s -> m_wf h -> ConnectionPoll.plain (hdr_msgType h) ->
  exists p st, serve id s = server_onMessage fuel consistencyCheck onPing k (mkClientRequest (hdr_lfClientId h) id h st) s /\
    reading s id st HEADER_SIZE /\ recvBuffers (cx_conn s) !! Z.to_nat id = Some p /\ rd (cx_mem s) (p + HEADER_SIZE) (blen body) = body.
Proof.
  intros [Hok _ _ Hacc Hk (p & Hp & Hb) Hfit] Hw Hpl. rewrite length_app, Nat2Z.inj_add, header_size in Hb, Hfit. unfold HEADER_SIZE in Hfit.
  rewrite rd_app in Hb by (unfold HEADER_SIZE; lia). apply app_inj_1 in Hb as [Hh Hbody]; [|apply Nat2Z.inj; rewrite header_size, rd_length; by unfold HEADER_SIZE].
  destruct (open_message_run no_holds _ _ _ _ _ _ (sv_conn _ _ _ _ _ _ Hok) (held_in _ _ _ _)) as (p' & h' & st & Hopen & Hrd & Hp' & Hw' & Hb'); [unfold HEADER_SIZE; lia|].
  assert (p' = p) as -> by congruence. assert (h' = h) as -> by (apply (header_bytes_inj m); [done|done|]; rewrite <- Hh; symmetry; exact Hb').
  exists p, st. split; [|done]. by apply onRecv_dispatches.
Qed.

(** The data of the client, shown by the server *)
Lemma served_write m h oid buffer size offset own rest held id addr s :
  delivered h HookObjectWrite (m_bytes m h ++ m_bytes m (write_request oid buffer size offset)) own rest held id addr s ->
  m_wf h -> hdr_msgType h = msg_code IOC_LF_MSG_OBJ_WRITE -> m_wf (write_request oid buffer size offset) ->
  accessible (cw_of s).1 (cw_of s).2 (Hooks.of_network oid) (fits offset size) ->
  wp pool_fault (serve id)
    (fun r s' => r = LF_WAIT_LOOP_KEEP_WAITING /\
       ep_sent (ep s') = ep_sent (ep s) ++ [(addr, status_bytes IOC_LF_MSG_OBJ_READ_WRITE_ACK 0 s)] /\
       (forall i, 0 <= i < size -> shown (cw_of s') (Hooks.of_network oid) (offset + i) = Some (m (buffer + i))) /\
       shown_le (fun o x => o = Hooks.of_network oid /\ touched_at (cw_of s) (Hooks.of_network oid) offset size x) (cw_of s) (cw_of s') /\
       dirty_range (cw_of s') (Hooks.of_network oid) offset size /\
       exists own' rest', server_ok own' rest' held [] 0 s' /\ idle own' s') s.
Proof.
  intros Hd Hw Ht Hv Hacc. destruct (delivered_served _ _ _ _ _ _ _ _ _ _ Hd Hw) as (p & st & E & Hrd & Hp & Hb); [by rewrite Ht|].
  assert (0 <= size) as Hs0 by (destruct Hv as (_ & _ & _ & Hu); unfold is_u64 in Hu; simpl in Hu; lia).
  destruct (write_received m (cx_mem s) oid buffer size offset (p + HEADER_SIZE) Hs0 Hb) as [Eb Ep]. pose proof Hd as [Hok Hid Ha _ _ _ Hfit].
  rewrite length_app, Nat2Z.inj_add, header_size in Hfit. eapply wp_eq; [exact E|]. eapply wp_mono.
  - apply (wp_serve_write fuel own rest held s (mkClientRequest (hdr_lfClientId h) id h st) (write_request oid (p + HEADER_SIZE + 49) size offset) addr); try done.
    exists p. split; [done|]. split; [|done]. split; [exact Hv|]. rewrite Eb. split; [exact Hfit|exact Hb].
  - intros r s' (Hr & Hsent & Hshown & Hle & Hdirty & Hok'). split; [done|]. split; [done|]. split; [|by split_and!].
    intros i Hi. etransitivity; [apply Hshown; simpl; lia|]. rewrite Ep. simpl. rewrite rd_lookup by lia. do 2 f_equal. lia.
Qed.

(** The bytes that the server shows, in its answer *)
Lemma served_read m h oid size offset own rest held id addr s :
  delivered h HookObjectRead (m_bytes m h ++ m_bytes m (read_request oid size offset)) own rest held id addr s ->
  m_wf h -> hdr_msgType h = msg_code IOC_LF_MSG_OBJ_READ -> m_wf (read_request oid size offset) ->
  size <= IOC_EAGER_MAX_READ -> 45 + size <= msgBufferSize (s_domain (cx_sys s)) -> 45 + size <= recvBuffersSize (cx_conn s) ->
  accessible (cw_of s).1 (cw_of s).2 (Hooks.of_network oid) (fun a => fits offset size a /\ one_unit offset size a) ->
  wp pool_fault (serve id)
    (fun r s' => r = LF_WAIT_LOOP_KEEP_WAITING /\ shown_le (fun _ _ => False) (cw_of s) (cw_of s') /\
       (exists own' rest', server_ok own' rest' held [] 0 s' /\ idle own' s') /\
       exists msg, ep_sent (ep s') = ep_sent (ep s) ++ [(addr, msg)] /\
         ((exists l, msg = data_answer s l /\ blen l = size /\
             forall x b, offset <= x < offset + size -> shown (cw_of s) (Hooks.of_network oid) x = Some b -> l !! Z.to_nat (x - offset) = Some b) \/
          (msg = status_bytes IOC_LF_MSG_OBJ_READ_WRITE_ACK (-1) s /\ ~ readable_at (cw_of s) (Hooks.of_network oid) offset size))) s.
Proof.
  intros Hd Hw Ht Hv Hmax Hl1 Hl2 Hacc. destruct (delivered_served _ _ _ _ _ _ _ _ _ _ Hd Hw) as (p & st & E & Hrd & Hp & Hb); [by rewrite Ht|].
  pose proof Hd as [Hok Hid Ha _ _ _ Hfit]. rewrite length_app, Nat2Z.inj_add, header_size in Hfit. eapply wp_eq; [exact E|].
  apply (wp_serve_read fuel own rest held s (mkClientRequest (hdr_lfClientId h) id h st) (read_request oid size offset) addr); try done.
  exists p. split; [done|]. by split.
Qed.
End server.

Section both.
Context {X St : Type} `{Libc X} `{!LibcOk X} `{Libfabric X} `{!LibfabricOk X} `{Fabric X} `{!FabricOk X} {users : Users} `{StringStorage} `{StorageOk St}.
Context {Y Hook A : Type} `{Libc Y} `{!LibcOk Y} `{Libfabric Y} `{!LibfabricOk Y} `{Fabric Y} `{!FabricOk Y}.
Abbreviation Server := (Cx X (option server_hook) rdma_done (App (Cache Malloc) St)).
Abbreviation Client := (Cx Y (option Hook) Empty_set A).
Implicit Types (s : Server) (c : Client).
Variable fuel : nat.
Variable consistencyCheck : bool.
Variable onPing : LibfabricClientRequest -> M Server LibfabricActionResult.
Variable onEndpointConnect : rdma_done -> Z -> M Server unit.


End both.
End EndToEnd.
