(* ===== verification/ServerLife.v ===== *)
(** * The life of the server

    What is left of src/src/server/core/Server.cpp around the handlers: the settings,
    the statistics, the function run before a fatal error, and the destruction of the
    server, which destroys its container, its memory backend, its connection and its
    domain, with the destructors of LibfabricConnection.cpp and LibfabricDomain.cpp. *)

From Stdlib Require Import String.
From S2P Require Import Prelude StdMap Memory Serializer Interfaces World WorldInv View Object Container System Fabric LibfabricDomain FabricObjects ClientRegistry Connection Dispatch ConnectionInv ConnectionSend MemoryBackend MemoryCache Provider ServerMemory ServerHooks ServerInv.

Module ServerLife.
Import Serializer Container LibfabricDomain FabricObjects ClientRegistry Connection Dispatch ConnectionInv ConnectionSend MemoryBackend MemoryCache Provider ServerMemory ServerHooks ServerInv.

(** ** The destructors of the network *)
Section network.
Context {X Hook Cb A : Type} `{Libc X} `{Libfabric X} `{Fabric X} `{FabricObjects X} `{StringStorage}.
Abbreviation S := (Cx X (option Hook) Cb A).
Variable fuel : nat.
Variable onMessage : Hook -> LibfabricClientRequest -> M S LibfabricActionResult.
Variable callback : Cb -> M S LibfabricActionResult.
Variable onEndpointConnect : Cb -> Z -> M S unit.

(** A call that only libfabric sees *)
Definition on_ext {B} (m : M X B) : M (Sys X) B := fun x =>
  match m (s_ext x) with Ok (b, e) => Ok (b, set_ext e x) | Abort f => Abort f end.

(** LibfabricDomain::~LibfabricDomain *)
Definition delete_LibfabricDomain (d : DomainObjects) : M (Sys X) unit :=
  destroy_domain ;;
  on_ext (close_domain d).

(** LibfabricConnection::~LibfabricConnection, but for the memory of the hooks; [turns]
    bounds the wait for the actions that are pending *)
Definition delete_LibfabricConnection (turns : nat) (c : ConnectionObjects) : M S unit :=
  pollAllPendingAction fuel onMessage callback onEndpointConnect turns ;;
  Connection.on_sys (on_ext (close_endpoint c)) ;;
  let! recvBuffers := conn recvBuffers in
  for_each recvBuffers (fun p => Connection.on_sys (free p)).
End network.

(** ** class Server *)
Section server.
Context {X St : Type} `{Libc X} `{Libfabric X} `{Fabric X} `{FabricObjects X} `{StringStorage} `{StorageBackend St}.
Abbreviation S := (Cx X (option server_hook) rdma_done (App (Cache Malloc) St)).
Variable fuel : nat.
Variable consistencyCheck : bool.
Variable onPing : LibfabricClientRequest -> M S LibfabricActionResult.
Variable onEndpointConnect : rdma_done -> Z -> M S unit.

(** Server::setStorageBackend *)
Definition setStorageBackend (storageBackend : Z) : M S unit := on_cw (Container.setStorageBackend storageBackend).

(** One turn of the loop of Server::startStatsThread: what it prints, in bytes *)
Definition stats_turn : M S (Z * Z) :=
  let! s := get in
  on_app (fun a => mkApp (ap_container a) (ap_backend a) (ap_store a) (ap_shared a) (ap_nextShared a) (ap_objects a) (ap_nextObject a) (ap_ops a) (ap_nextOps a) 0 0) ;;
  ret (ap_readSize (cx_app s), ap_writeSize (cx_app s)).

(** The function of Server::Server for a fatal error; [first] is its static variable *)
Definition before_abort (first : bool) (message : list byte) : M S bool :=
  (if first then broadcastErrrorMessage fuel (server_onMessage fuel consistencyCheck onPing) (onRdmaDone fuel) onEndpointConnect message else ret tt) ;;
  ret false.

(** A call on the memory backend *)
Definition on_backend {B} (m : M (Sys X * Cache Malloc) B) : M S B := fun s =>
  match m (cx_sys s, ap_backend (cx_app s)) with
  | Ok (b, (x, c)) =>
      let a := cx_app s in
      Ok (b, with_app (mkApp (ap_container a) c (ap_store a) (ap_shared a) (ap_nextShared a) (ap_objects a) (ap_nextObject a) (ap_ops a) (ap_nextOps a) (ap_readSize a) (ap_writeSize a)) (with_sys x s))
  | Abort f => Abort f
  end.

(** Server::~Server, between the call to stop and the destruction of the TCP server *)
Definition delete_Server (turns : nat) (d : DomainObjects) (c : ConnectionObjects) : M S unit :=
  on_cw destroy_container ;;
  on_backend destroy_Cache ;;
  delete_LibfabricConnection fuel (server_onMessage fuel consistencyCheck onPing) (onRdmaDone fuel) onEndpointConnect turns c ;;
  Connection.on_sys (delete_LibfabricDomain d).
End server.

(** ** Nothing is left *)

(** The heap without the blocks at [l]. *)
Definition without (l : list Z) (G : heap) : heap := filter (fun kv => kv.1 ∉ l) G.

Lemma without_lookup l G p : without l G !! p = if decide (p ∈ l) then None else G !! p.
Proof.
  unfold without. rewrite map_lookup_filter. destruct (G !! p) as [v|]; simpl; [|by case_decide].
  case_decide as Hp; [by rewrite option_guard_False by tauto|by rewrite option_guard_True].
Qed.
Lemma without_nil G : without [] G = G.
Proof. apply map_eq. intros p. rewrite without_lookup. case_decide as Hp; [by apply elem_of_nil in Hp|done]. Qed.
Lemma without_cons p l G : without (p :: l) G = without l (delete p G).
Proof.
  apply map_eq. intros q. rewrite !without_lookup. destruct (decide (q = p)) as [->|Hne].
  - rewrite lookup_delete_eq, decide_True by by left. by case_decide.
  - rewrite lookup_delete_ne by done. repeat case_decide; try done; rewrite elem_of_cons in *; tauto.
Qed.
Lemma without_app l1 l2 G : without (l1 ++ l2) G = without l2 (without l1 G).
Proof. apply map_eq. intros q. rewrite !without_lookup. repeat case_decide; try done; rewrite elem_of_app in *; tauto. Qed.

Section network_ends.
Context {X : Type} `{Libc X} `{!LibcOk X} `{Libfabric X} `{!LibfabricOk X} `{FabricObjects X} `{!FabricObjectsOk X}.
Implicit Types (x : Sys X) (G : heap).

(** The pool and the objects are the same. *)
Record sys_same x x' : Prop := {
  ss_msgs : msgBuffers (s_domain x') = msgBuffers (s_domain x);
  ss_size : msgBufferSize (s_domain x') = msgBufferSize (s_domain x);
  ss_open : fo_open (s_ext x') = fo_open (s_ext x);
  ss_domain : fo_domain (s_ext x') = fo_domain (s_ext x);
  ss_regions : regions_ok x -> regions_ok x';
}.
#[export] Instance sys_same_preorder : PreOrder sys_same.
Proof. split; [by constructor|]. intros x y z [] []. constructor; try congruence. auto. Qed.

(** A call that leaves the domain and the regions alone. *)
Lemma regions_ext x e : fo_regions e = fo_regions (s_ext x) -> regions_ok x -> regions_ok (set_ext e x).
Proof. intros E []. constructor; try done. simpl. by rewrite E. Qed.

Lemma free_same p x : wp any (free p) (fun _ x' => sys_same x x') x.
Proof.
  apply wp_modify. destruct (lc_free_regions (s_ext x) p). constructor; try done; [apply lc_free_open|]. by apply regions_ext.
Qed.
Lemma unregister_same p n x : wp any (unregisterSegment p n) (fun _ x' => sys_same x x') x.
Proof.
  assert (wp any (unregisterSegment p n) (fun _ x' => regions_ok x -> regions_ok x') x) as Hreg.
  { unfold wp. destruct (unregisterSegment p n x) as [[u x']|] eqn:E; [|done]. intros Hr. pose proof (unregistered_regions p n x Hr) as Hw. unfold wp in Hw. by rewrite E in Hw. }
  enough (wp any (unregisterSegment p n) (fun _ x' => msgBuffers (s_domain x') = msgBuffers (s_domain x) /\
    msgBufferSize (s_domain x') = msgBufferSize (s_domain x) /\ fo_open (s_ext x') = fo_open (s_ext x) /\ fo_domain (s_ext x') = fo_domain (s_ext x)) x) as Hsame.
  { eapply wp_mono; [exact (wp_conj _ _ _ _ _ Hsame Hreg)|]. intros u x' [(? & ? & ? & ?) ?]. by constructor. }
  unfold unregisterSegment, assert_, assume_, guard_. apply wp_bind. destruct (negb _); [|done]. apply wp_ret, wp_bind, wp_gets.
  destruct (sm_lower_bound _ _) as [|[k r] l]; [done|]. apply wp_bind. destruct (_ && _); [|done]. apply wp_ret, wp_bind, wp_modify, wp_modify.
  split; [done|]. split; [done|]. split; [apply fi_close_open|apply fi_close_regions].
Qed.

Lemma wp_free x G p n :
  sys_rep x G -> G !! p = Some (n, false) -> wp never (free p) (fun _ x' => sys_rep x' (delete p G) /\ s_domain x' = s_domain x /\ sys_same x x') x.
Proof.
  intros Hr Hp. pose proof (free_same p x) as Hs. unfold wp, free, modify in Hs. apply wp_modify. split; [|split; [done|exact Hs]]. eapply rep_free; [done|exact Hp|]. eapply lc_free_ok, rep_live; [exact Hr|exact Hp].
Qed.

(** The receive buffers *)
Lemma wp_free_all l n x G :
  sys_rep x G -> NoDup l -> (forall p, p ∈ l -> G !! p = Some (n, false)) ->
  wp never (for_each l free) (fun _ x' => sys_rep x' (without l G) /\ s_domain x' = s_domain x /\ sys_same x x') x.
Proof.
  revert x G. induction l as [|p l IH]; intros x G Hr Hnd Hl; [rewrite without_nil; by apply wp_ret|].
  apply NoDup_cons in Hnd as [Hp Hnd]. cbn [for_each]. apply wp_bind. eapply wp_mono; [apply (wp_free x G p n Hr), Hl; by left|].
  intros u x1 (Hr1 & Hd1 & Ho1). rewrite without_cons. eapply wp_mono; [apply (IH x1 (delete p G)); try done|].
  - intros q Hq. rewrite lookup_delete_ne by (intros ->; done). apply Hl. by right.
  - intros u' x2 (Hr2 & Hd2 & Ho2). split; [done|]. split; [congruence|]. by etransitivity.
Qed.

(** The message buffers *)
Lemma wp_free_msgBuffers l n x G :
  sys_rep x G -> NoDup l -> (forall p, p ∈ l -> G !! p = Some (n, true)) ->
  wp never (for_each l (fun it => unregisterSegment it n ;; free it)) (fun _ x' => sys_rep x' (without l G) /\ sys_same x x') x.
Proof.
  revert x G. induction l as [|p l IH]; intros x G Hr Hnd Hl; [rewrite without_nil; by apply wp_ret|].
  apply NoDup_cons in Hnd as [Hp Hnd]. cbn [for_each]. apply wp_bind, wp_bind.
  eapply wp_mono; [eapply wp_also; [apply (wp_unregisterSegment x G p n n Hr), Hl; by left|apply unregister_same]|]. intros u x1 [[Hr1 _] Hs1].
  eapply wp_mono; [eapply wp_also; [apply (wp_free x1 _ p n Hr1), lookup_insert_eq|apply free_same]|]. intros u2 x2 [(Hr2 & _) Hs2].
  rewrite delete_insert_eq in Hr2. rewrite without_cons. eapply wp_mono; [apply (IH x2 (delete p G)); try done|].
  - intros q Hq. rewrite lookup_delete_ne by (intros ->; done). apply Hl. by right.
  - intros u' x3 (Hr3 & Hs3). split; [done|]. etransitivity; [exact Hs1|]. by etransitivity.
Qed.

Lemma wp_on_ext F {B} (m : M X B) Q x : wp F m (fun b e => Q b (set_ext e x)) (s_ext x) -> wp F (on_ext m) Q x.
Proof. unfold wp, on_ext. by destruct (m (s_ext x)) as [[b e]|]. Qed.

(** LibfabricDomain::~LibfabricDomain: the message buffers are freed, and the domain,
    the fabric and the description are closed. *)
Lemma wp_delete_domain d O x G :
  pool_ok x G [] -> closed O -> domain_over d O -> fo_open (s_ext x) = with_domain d O -> regions_ok x ->
  (forall p n, without (msgBuffers (s_domain x)) G !! p <> Some (n, true)) ->
  wp never (delete_LibfabricDomain d)
    (fun _ x' => lc_live (s_ext x') = fst <$> without (msgBuffers (s_domain x)) G /\ fo_open (s_ext x') = O /\ msgBuffers (s_domain x') = []) x.
Proof.
  intros [Hr Hnd Hsz _] Hc Hd Ho Hreg Hno. rewrite app_nil_r in Hnd, Hsz. unfold delete_LibfabricDomain, destroy_domain. apply wp_bind, wp_bind, wp_gets, wp_bind.
  eapply wp_mono; [by apply (wp_free_msgBuffers _ _ x G)|]. intros u x1 [Hr1 [_ _ Ho1 _ Hreg1]]. apply wp_modify. set (x2 := set_domain _ x1).
  apply wp_on_ext. eapply wp_mono; [apply wp_conj; [apply (wp_close_domain d O); [done|done|exact (no_regions x1 _ (Hreg1 Hreg) Hr1 Hno)|by rewrite <- Ho]|apply close_domain_live]|].
  intros _ e [Ho' Hl']. split; [simpl; rewrite Hl'; exact (sr_live _ _ Hr1)|]. split; done.
Qed.

(** The destruction of a cache over malloc *)
Lemma Malloc_deallocate_same p n (e : Sys X * Malloc) : wp any (Malloc_deallocate p n) (fun _ e' => sys_same e.1 e'.1) e.
Proof.
  destruct e as [x b]. unfold Malloc_deallocate, assert_, guard_. apply wp_bind. destruct (negb _); [|done]. apply wp_ret, wp_bind.
  destruct (n >? 0); [|done]. apply wp_ret, wp_bind, wp_gets, wp_bind. cbn [fst snd].
  assert (forall x1, sys_same x x1 -> wp any (on_sys (free p)) (fun _ e' => sys_same x e'.1) (x1, b)) as Hfree.
  { intros x1 H01. apply wp_on_sys. eapply wp_mono; [apply free_same|]. intros u x2 H12. by etransitivity. }
  destruct (ma_lfDomain b); [|by apply wp_ret, Hfree]. apply wp_on_sys. eapply wp_mono; [apply unregister_same|]. intros u x1 H01. by apply Hfree.
Qed.
Lemma destroy_Cache_same (e : Sys X * Cache Malloc) : wp any destroy_Cache (fun _ e' => sys_same e.1 e'.1) e.
Proof.
  destruct e as [x c]. unfold destroy_Cache, assert_, guard_. apply wp_bind, wp_gets, wp_bind. destruct (_ =? _); [|done]. apply wp_ret, wp_bind.
  eapply wp_mono; [apply (wp_for_each any (fun _ e' => sys_same x e'.1)); [done|]|intros u e' H'; by apply wp_modify].
  intros [p n] l [x1 c1] H01. apply wp_on_sub. eapply wp_mono; [apply Malloc_deallocate_same|]. intros u e' H12. cbn [fst] in *. by etransitivity.
Qed.
End network_ends.

(** The destruction of the container makes no call to the system: the blocks wait in
    the cache. *)
Section still.
Context {X St : Type} `{Libc X} `{Libfabric X} `{StorageBackend St}.
Implicit Types (w : World (Sys X * Cache Malloc) St).

Lemma deallocate_still h p n (e : Sys X * Cache Malloc) : wp any (mp_deallocate h p n) (fun _ e' => e'.1 = e.1) e.
Proof.
  simpl. destruct (h =? 1); [|done]. destruct e as [x c]. unfold Cache_deallocate, isLocalMemory, assert_, guard_.
  apply wp_bind. destruct (negb _); [|done]. apply wp_ret, wp_bind. destruct (n >? 0); [|done]. apply wp_ret, wp_bind, wp_bind, wp_ret, wp_bind, wp_ret.
  apply wp_bind. destruct (n mod 4096 =? 0); [|done]. apply wp_ret, wp_bind, wp_gets. cbn [snd].
  destruct (sm_find p (ca_rangesTracker c)) as [sz|]; [|by apply wp_ret, wp_bind]. apply wp_bind. destruct (sz =? n); [|done].
  by apply wp_ret, wp_ret, wp_bind, wp_ret, wp_modify.
Qed.
Lemma release_still m w : wp any (shared_release m) (fun _ w' => (w_env w').1 = (w_env w).1) w.
Proof.
  unfold wp, shared_release. destruct m as [id|]; [|done]. destruct (w_shared w !! id) as [[m k]|]; [|done]. destruct (k =? 1); [|done].
  unfold segmentMemory_destroy. destruct (osm_buffer m =? 0); [done|]. unfold backend_deallocate. destruct (osm_memoryBackend m =? 0); [done|].
  pose proof (deallocate_still (osm_memoryBackend m) (osm_buffer m) (osm_size m) (w_env w)) as Hd. unfold wp in Hd.
  change (w_env (set_shared _ w)) with (w_env w). by destruct (mp_deallocate _ _ _ _) as [[u e']|].
Qed.
Lemma destroy_still (cw : Container * World (Sys X * Cache Malloc) St) : wp any destroy_container (fun _ cw' => (w_env cw'.2).1 = (w_env cw.2).1) cw.
Proof.
  destruct cw as [c w]. unfold destroy_container. apply wp_bind, wp_gets.
  apply (wp_for_each any (fun _ cw' => (w_env cw'.2).1 = (w_env w).1)); [done|]. intros [id p] l [c1 w1] Hs. apply wp_lift. unfold delete_object. cbn [fst snd] in *.
  destruct (p =? 0); [by apply wp_ret|]. apply wp_bind. unfold wp at 1, get_obj. destruct (w_objects w1 !! p) as [o|]; [|done]. apply wp_bind, wp_modify.
  eapply (wp_for_each any (fun _ w' => (w_env w').1 = (w_env w).1)); [done|]. intros [k seg] l' w2 Hs2. eapply wp_mono; [apply release_still|]. intros u w3 H3. congruence.
Qed.
End still.

Section server_ends.
Context {X St : Type} `{Libc X} `{!LibcOk X} `{Libfabric X} `{!LibfabricOk X} `{Fabric X} `{!FabricOk X} `{FabricObjects X} `{!FabricObjectsOk X} `{StringStorage} `{StorageOk St}.
Abbreviation S := (Cx X (option server_hook) rdma_done (App (Cache Malloc) St)).
Variable fuel : nat.
Implicit Types (s : S) (own rest : heap).

Lemma wp_server_cw F {T} (m : M (Container * World (Sys X * Cache Malloc) St) T) (Q : T -> S -> Prop) s :
  wp F m (fun a cw => Q a (put_cw cw s)) (cw_of s) -> wp F (on_cw m) Q s.
Proof. unfold wp, on_cw. by destruct (m (cw_of s)) as [[a cw]|]. Qed.
Lemma wp_on_backend F {T} (m : M (Sys X * Cache Malloc) T) (Q : T -> S -> Prop) s :
  wp F m (fun a e => forall s', cx_sys s' = e.1 -> cx_conn s' = cx_conn s -> ap_objects (cx_app s') = ap_objects (cx_app s) -> ap_shared (cx_app s') = ap_shared (cx_app s) -> Q a s')
    (cx_sys s, ap_backend (cx_app s)) -> wp F (on_backend m) Q s.
Proof. unfold wp, on_backend. destruct (m _) as [[a [x c]]|]; [|done]. intros HQ. by apply HQ. Qed.

Lemma each_on_sys {T} (l : list T) (m : T -> M (Sys X) unit) s : for_each l (fun p => Connection.on_sys (m p)) s = Connection.on_sys (for_each l m) s.
Proof.
  revert s. induction l as [|p l IH]; intros s; [by destruct s|]. cbn [for_each]. unfold bind, Connection.on_sys at 1 3.
  destruct (m p (cx_sys s)) as [[u x]|]; [|done]. rewrite IH. unfold Connection.on_sys. cbn [cx_sys with_sys]. by destruct (for_each l m x) as [[? ?]|].
Qed.

(** LibfabricConnection::~LibfabricConnection: no action is pending. *)
Lemma wp_delete_connection onMessage callback onEndpointConnect turns d c O n s G :
  sys_rep (cx_sys s) G -> pendingAction (cx_conn s) = 0 -> (0 < turns)%nat ->
  NoDup (recvBuffers (cx_conn s)) -> (forall p, p ∈ recvBuffers (cx_conn s) -> G !! p = Some (n, false)) ->
  closed O -> is_Some (O !! FabricObjects.domain d) -> fo_domain (s_ext (cx_sys s)) = FabricObjects.domain d -> regions_ok (cx_sys s) ->
  endpoint_over d c O -> fo_open (s_ext (cx_sys s)) = with_endpoint d c O ->
  wp never (delete_LibfabricConnection fuel onMessage callback onEndpointConnect turns c)
    (fun _ s' => sys_rep (cx_sys s') (without (recvBuffers (cx_conn s)) G) /\ s_domain (cx_sys s') = s_domain (cx_sys s) /\
       fo_open (s_ext (cx_sys s')) = O /\ cx_app s' = cx_app s /\ regions_ok (cx_sys s')) s.
Proof.
  intros Hr Hp Ht Hnd Hrb Hc Hdo Ed Hreg Heo Ho. unfold delete_LibfabricConnection. apply wp_bind. destruct turns as [|t]; [lia|]. cbn [pollAllPendingAction].
  apply wp_bind, wp_gets. rewrite Hp. apply wp_ret, wp_bind, wp_conn_sys, wp_on_ext.
  eapply wp_mono; [apply wp_conj; [by apply (wp_close_endpoint d c O)|apply close_endpoint_live]|]. intros u e [[Ho1 [_ Er1]] Hl1]. apply wp_bind, wp_gets.
  set (x1 := set_ext e (cx_sys s)). assert (sys_rep x1 G) as Hr1 by (destruct Hr; constructor; try done; simpl; congruence).
  unfold wp. rewrite each_on_sys. apply (wp_conn_sys never). eapply wp_mono; [by apply (wp_free_all _ n x1 G)|].
  intros u2 x2 (Hr2 & Hd2 & [_ _ Ho2 _ Hreg2]). split; [done|]. split; [done|]. split; [etransitivity; [exact Ho2|exact Ho1]|]. split; [done|].
  apply Hreg2. by apply regions_ext.
Qed.

(** The container and the memory backend give every block back. *)
Lemma wp_delete_memory own rest (k : M S unit) Q s :
  cw_ok own rest (cx_sys s) (cw_of s) ->
  (forall s2, sys_rep (cx_sys s2) rest -> sys_same (cx_sys s) (cx_sys s2) -> cx_conn s2 = cx_conn s ->
     ap_objects (cx_app s2) = ∅ -> ap_shared (cx_app s2) = ∅ -> wp never k Q s2) ->
  wp never (on_cw destroy_container ;; on_backend destroy_Cache ;; k) Q s.
Proof.
  intros Hcw Hk. apply wp_bind, wp_server_cw.
  destruct (cw_of s) as [c0 w0] eqn:Ecw. assert ((w_env w0).1 = cx_sys s) as Ex by (by injection Ecw as _ <-).
  eapply wp_mono; [eapply wp_also; [apply (destroy_container_no_leak c0 w0 Hcw)|apply destroy_still]|].
  intros u [c1 w1] [(Hobj & Hsh & own1 & rest1 & Hr1 & Hd1 & Hi1 & _ & -> & _ & _) Hst]. cbn [fst snd] in *. rewrite Ex in Hst. rewrite fmap_empty in Hi1.
  apply wp_bind, wp_on_backend. eapply wp_mono; [eapply wp_also; [apply (destroy_Cache_correct _ _ own1 rest Hr1 Hd1 Hi1)|apply destroy_Cache_same]|].
  intros u1 [x2 b2] [(own2 & Hr2 & _ & ->) Hs2] s2 Esys2 Econn2 Eobj2 Esh2. cbn [fst snd] in *. unfold plain in Hr2. rewrite fmap_empty, map_empty_union in Hr2.
  rewrite <- Esys2 in Hr2, Hs2. change (cx_sys (put_cw _ s)) with (w_env w1).1 in Hs2. rewrite Hst in Hs2. apply Hk; try done; [by rewrite <- Hobj|by rewrite <- Hsh].
Qed.

(** The blocks of the connection are not those of the cache. *)
Lemma recv_blocks own rest held busy k s p :
  server_ok own rest held busy k s -> p ∈ recvBuffers (cx_conn s) -> rest !! p = Some (recvBuffersSize (cx_conn s), false).
Proof.
  intros [Hc Hd _ _ Hr _] Hp. pose proof (co_rbufs _ _ _ _ _ _ Hc _ Hp) as Hl. destruct (Hr _ Hp) as [v Hv].
  rewrite lookup_union_r in Hl by (by eapply map_disjoint_Some_r). done.
Qed.
Lemma msg_blocks own rest held busy k s p :
  server_ok own rest held busy k s -> p ∈ msgBuffers (s_domain (cx_sys s)) -> rest !! p = Some (msgBufferSize (s_domain (cx_sys s)), true).
Proof.
  intros [Hc Hd Hr _ _ _] Hp. destruct (Hr _ Hp) as [v Hv]. pose proof (po_size _ _ _ (co_pool _ _ _ _ _ _ Hc) p ltac:(apply elem_of_app; by left)) as Hl.
  rewrite lookup_union_r in Hl by (by eapply map_disjoint_Some_r). done.
Qed.

(** No action is under way: the blocks registered outside of the cache are the message
    buffers of the pool. *)
Lemma nothing_registered own rest held s p n :
  server_ok own rest held [] 0 s -> pendingAction (cx_conn s) = 0 ->
  without (recvBuffers (cx_conn s) ++ msgBuffers (s_domain (cx_sys s))) rest !! p <> Some (n, true).
Proof.
  intros [Hc Hd _ _ _ _] Hp. rewrite without_lookup. case_decide as Hin; [done|]. intros Hr. apply Hin, elem_of_app. right.
  pose proof (co_pending _ _ _ _ _ _ Hc) as Hf. assert (flight s = []) as Ef by (destruct (flight s); [done|simpl in Hf; lia]).
  destruct (co_bufs _ _ _ _ _ _ Hc p n) as [[v Hv]|Hb]; [by apply lookup_union_Some_r| |].
  - exfalso. by eapply (map_disjoint_spec own rest).
  - unfold all_bufs in Hb. rewrite Ef in Hb. simpl in Hb. by rewrite app_nil_r in Hb.
Qed.

(** C25: the destruction of a server that has no action pending ends, passes every
    check, and leaves nothing: the objects and their segments are gone, the memory of
    the cache, the receive buffers and the message buffers are freed once each and
    nothing else is, and the objects of libfabric are closed, in an order in which
    libfabric refuses none: libfabric has only the memory regions that the domain has
    recorded, and each is closed before the domain. *)
Theorem server_deleted consistencyCheck onPing onEndpointConnect turns own rest held d c O s :
  server_ok own rest held [] 0 s -> pendingAction (cx_conn s) = 0 -> NoDup (recvBuffers (cx_conn s)) -> (0 < turns)%nat ->
  closed O -> domain_over d O -> endpoint_over d c (with_domain d O) -> fo_open (s_ext (cx_sys s)) = with_endpoint d c (with_domain d O) ->
  fo_domain (s_ext (cx_sys s)) = FabricObjects.domain d -> regions_ok (cx_sys s) ->
  wp never (delete_Server fuel consistencyCheck onPing onEndpointConnect turns d c)
    (fun _ s' => ap_objects (cx_app s') = ∅ /\ ap_shared (cx_app s') = ∅ /\
       lc_live (s_ext (cx_sys s')) = fst <$> without (recvBuffers (cx_conn s) ++ msgBuffers (s_domain (cx_sys s))) rest /\
       fo_open (s_ext (cx_sys s')) = O) s.
Proof.
  intros Hs Hpend Hnd Ht Hc Hdo Heo Ho Ed Hreg. apply (wp_delete_memory own rest); [apply (sv_cw _ _ _ _ _ _ Hs)|]. intros s2 Hr2 [Em2 Ez2 Eo2 Ed2 Hreg2] Econn2 Eobj2 Esh2.
  assert (closed (with_domain d O)) as Hcd by (destruct Hdo; by repeat apply closed_over).
  apply wp_bind. eapply wp_mono; [apply (wp_delete_connection _ _ _ turns d c (with_domain d O) (recvBuffersSize (cx_conn s)) s2 rest); rewrite ?Econn2; try done|].
  - intros p Hp. by eapply recv_blocks.
  - unfold with_domain. rewrite lookup_insert_eq. by eexists.
  - by rewrite Ed2.
  - auto.
  - by rewrite Eo2.
  - rewrite Econn2. intros u3 s3 (Hr3 & Hd3 & Ho3 & Ea3 & Hreg3). apply wp_conn_sys.
    eapply wp_mono; [apply (wp_delete_domain d O (cx_sys s3) (without (recvBuffers (cx_conn s)) rest)); try done|].
    + pose proof (co_pool _ _ _ _ _ _ (sv_conn _ _ _ _ _ _ Hs)) as [_ Hn _ Hpos]. apply NoDup_app in Hn as (Hn & _ & _).
      constructor; rewrite ?app_nil_r, ?Hd3, ?Em2, ?Ez2; try done. intros p Hp. pose proof (msg_blocks _ _ _ _ _ _ _ Hs Hp) as Hm.
      rewrite without_lookup, decide_False; [done|]. intros Hin. pose proof (recv_blocks _ _ _ _ _ _ _ Hs Hin). congruence.
    + rewrite Hd3, Em2. intros p n. rewrite <- without_app. by eapply nothing_registered.
    + intros u4 x4 (Hl4 & Ho4 & _). simpl. rewrite Ea3. split; [done|]. split; [done|]. split; [|done]. by rewrite without_app, Hl4, Hd3, Em2.
Qed.
End server_ends.
End ServerLife.
