(* ===== verification/Machine.v ===== *)
(** * A concrete machine

    Instances of the parameters of the development: an allocator of fixed slots
    for libc, a trivial libfabric, a disk that serves every request and one that
    refuses every write.  On them, a world with two objects in a container over
    the memory backend the server builds (a cache over malloc).  They show that
    the hypotheses of the theorems can hold together. *)

From Stdlib Require Import String.
From S2P Require Import Prelude StdMap Memory IntervalMap Interfaces ConsistencyTracker World WorldInv View ObjectSegment Object ObjectAccess ObjectData ObjectFlush ObjectCow Container System LibfabricDomain MemoryBackend MemoryCache MemoryBalance Provider.

Module Machine.
Import Container LibfabricDomain MemoryBackend MemoryCache MemoryBalance Provider.

(** ** libc: the slots in the order of their allocation, with the size in use *)
Definition Arena : Type := list Z.
Definition SLOT : Z := 1099511627776.   (* 2^40 *)
Definition slot_addr (i : nat) : Z := (Z.of_nat i + 1) * SLOT.
Definition slot_valid (i : nat) (n : Z) : bool := (0 <? n) && (n <=? SLOT) && (Z.of_nat i <? 16777214).

Fixpoint live_from (i : nat) (x : list Z) : gmap Z Z :=
  match x with
  | [] => ∅
  | n :: x' => if slot_valid i n then <[slot_addr i := n]> (live_from (S i) x') else live_from (S i) x'
  end.

Definition arena_take (failed n : Z) (x : list Z) : Z * list Z :=
  if slot_valid (length x) n then (slot_addr (length x), x ++ [n]) else (failed, x).
Definition arena_drop (p : Z) (x : list Z) : list Z := <[Z.to_nat (p / SLOT - 1) := 0]> x.

Lemma slot_addr_inj i j : slot_addr i = slot_addr j -> i = j.
Proof. unfold slot_addr, SLOT. lia. Qed.
Lemma slot_valid_spec i n : slot_valid i n = true <-> 0 < n <= SLOT /\ Z.of_nat i < 16777214.
Proof. unfold slot_valid. rewrite !andb_true_iff. lia. Qed.

Lemma live_from_spec i x p n :
  live_from i x !! p = Some n <->
  exists j, x !! j = Some n /\ slot_valid (i + j) n = true /\ p = slot_addr (i + j).
Proof.
  revert i. induction x as [|m x IH]; intros i; simpl live_from.
  - rewrite lookup_empty. split; [done|]. by intros (j & ? & _).
  - assert (live_from (S i) x !! p = Some n <-> exists j, (m :: x) !! S j = Some n /\
              slot_valid (i + S j) n = true /\ p = slot_addr (i + S j)) as Htail.
    { rewrite IH. simpl. by setoid_rewrite Nat.add_succ_r. }
    assert (forall P : nat -> Prop, (exists j, P j) <-> P 0%nat \/ exists j, P (S j)) as Hex.
    { intros P. split; [intros [[|j] Hj]; eauto|intros [?|[j Hj]]; eauto]. }
    rewrite Hex. change ((m :: x) !! 0%nat) with (Some m). rewrite Nat.add_0_r.
    destruct (slot_valid i m) eqn:Ev.
    + rewrite lookup_insert_Some, Htail. split.
      * intros [[<- <-]|[_ ?]]; auto.
      * intros [([= ->] & _ & ->)|(j & Hj & Hv & ->)]; [by left|]. right. split; [|eauto]. intros E%slot_addr_inj. lia.
    + rewrite Htail. split; [by right|]. intros [([= ->] & ? & _)|?]; [congruence|done].
Qed.

#[export] Instance arena_libc : Libc Arena := {
  lc_malloc n x := arena_take 0 n x;
  lc_free p x := arena_drop p x;
  lc_mmap _ _ n x := arena_take MAP_FAILED n x;
  lc_munmap p _ x := arena_drop p x;
  lc_mkstemp t x := ((3, t), x);
  lc_unlink _ x := (0, x);
  lc_ftruncate _ _ x := (0, x);
  lc_close _ x := x;
}.

Lemma arena_take_ok failed n x :
  failed = 0 \/ failed = MAP_FAILED ->
  let r := arena_take failed n x in
  if r.1 =? failed then live_from 0 r.2 = live_from 0 x
  else live_from 0 x !! r.1 = None /\ live_from 0 r.2 = <[r.1 := n]> (live_from 0 x).
Proof.
  intros Hf. unfold arena_take. destruct (slot_valid (length x) n) eqn:Ev; simpl; [|by rewrite Z.eqb_refl].
  destruct (slot_addr (length x) =? failed) eqn:E.
  { apply slot_valid_spec in Ev. unfold slot_addr, SLOT, MAP_FAILED in *. pose proof two64_eq. lia. }
  assert (live_from 0 x !! slot_addr (length x) = None) as Hnone.
  { apply eq_None_not_Some. intros [k (j & Hj & _ & Ej%slot_addr_inj)%live_from_spec].
    apply lookup_lt_Some in Hj. simpl in Ej. lia. }
  split; [done|]. apply map_eq. intros p. apply option_eq. intros k.
  rewrite live_from_spec, lookup_insert_Some, live_from_spec. simpl. split.
  - intros (j & [[Hlt Hj]|[-> ->]]%lookup_snoc_Some & Hv & ->).
    + right. split; [|exists j; tauto]. intros E'%slot_addr_inj. simpl in E'. lia.
    + left. by split.
  - intros [[<- <-]|[_ (j & Hj & Hv & ->)]].
    + exists (length x). split; [|done]. apply lookup_snoc_Some. right. done.
    + exists j. split; [|done]. apply lookup_snoc_Some. left. split; [|done]. by eapply lookup_lt_Some.
Qed.

Lemma arena_drop_ok x p n : live_from 0 x !! p = Some n -> live_from 0 (arena_drop p x) = delete p (live_from 0 x).
Proof.
  intros (i & Hi & Hv & ->)%live_from_spec. simpl in *. unfold arena_drop.
  replace (Z.to_nat (slot_addr i / SLOT - 1)) with i; [|unfold slot_addr; rewrite Z.div_mul by done; lia].
  apply map_eq. intros q. apply option_eq. intros k. rewrite live_from_spec, lookup_delete_Some, live_from_spec.
  simpl. split.
  - intros (j & Hj & Hw & ->). destruct (decide (i = j)) as [->|Hne].
    + rewrite list_lookup_insert_eq in Hj by (by eapply lookup_lt_Some). simplify_eq.
    + rewrite list_lookup_insert_ne in Hj by done. split; [by intros ?%slot_addr_inj|eauto].
  - intros [Hne (j & Hj & Hw & ->)]. exists j. split; [|done]. rewrite list_lookup_insert_ne; [done|]. congruence.
Qed.

#[export] Program Instance arena_libc_ok : LibcOk Arena := { lc_live x := live_from 0 x }.
Next Obligation.
  intros x p n (j & _ & Hv%slot_valid_spec & ->)%live_from_spec. unfold slot_addr, SLOT in *. rewrite two64_eq. lia.
Qed.
Next Obligation.
  intros x p n q k (j & _ & Hv%slot_valid_spec & ->)%live_from_spec (j' & _ & Hv'%slot_valid_spec & ->)%live_from_spec Hne.
  unfold disjoint, slot_addr, SLOT in *. assert (j <> j') by congruence. simpl in *. lia.
Qed.
Next Obligation. intros x n _. apply arena_take_ok. by left. Qed.
Next Obligation. intros x p n. apply arena_drop_ok. Qed.
Next Obligation. intros x fd off n _. apply arena_take_ok. by right. Qed.
Next Obligation. intros x p n. apply arena_drop_ok. Qed.
Next Obligation. done. Qed.
Next Obligation. done. Qed.
Next Obligation. done. Qed.
Next Obligation. done. Qed.

(** ** libfabric: every registration succeeds *)
#[export] Instance arena_libfabric : Libfabric Arena := {
  fi_REMOTE_READ := 4096; fi_REMOTE_WRITE := 8192; fi_RMA_PMEM := 16384;
  fi_mr_reg p _ _ _ k x := ((0, p + k), x);
  fi_mr_key mr _ := u64 mr;
  fi_close _ x := x;
}.
#[export] Instance arena_libfabric_ok : LibfabricOk Arena.
Proof. split; try done. intros mr x. apply u64_range. Qed.

(** ** A disk that serves every request *)
Record Disk : Type := mkDisk { disk : contents }.

Definition disk_write (h hi lo : Z) (l : list byte) (off : Z) (d : contents) : contents := fun h' hi' lo' x =>
  if (h' =? h) && (hi' =? hi) && (lo' =? lo) && (off <=? x) && (x <? off + Z.of_nat (length l))
  then nth (Z.to_nat (x - off)) l x00 else d h' hi' lo' x.

#[export] Instance disk_storage : StorageBackend Disk := {
  sb_pread h hi lo n off s :=
    if (0 <=? n) && (n <? two63) then ((n, range_of (disk s h hi lo) off n), s) else ((-1, []), s);
  sb_pwrite h hi lo l off s := (Z.of_nat (length l), mkDisk (disk_write h hi lo l off (disk s)));
  sb_create _ _ _ s := (0, s);
  sb_fresh _ _ := x00;
}.

#[export] Program Instance disk_storage_ok : StorageOk Disk := { sb_contents := disk }.
Next Obligation. intros h hi lo n off s Hn. simpl. case_match; simpl; [rewrite range_of_length|]; lia. Qed.
Next Obligation. intros. simpl. pose proof two63_eq. case_match; simpl; lia. Qed.
Next Obligation. intros. simpl. by case_match. Qed.
Next Obligation. intros h hi lo n off s Hn. simpl. case_match; simpl; [done|lia]. Qed.
Next Obligation.
  intros h hi lo l off s h' hi' lo' x Hx. simpl. unfold disk_write. case_match eqn:E; [|done].
  rewrite !andb_true_iff in E. destruct Hx as [Hx|Hx]; [|lia]. exfalso. apply Hx. repeat f_equal; lia.
Qed.
Next Obligation.
  intros h hi lo l off s _. simpl. apply list_eq. intros i. destruct (decide (i < length l)%nat) as [Hi|Hi].
  - rewrite range_of_lookup by lia. unfold disk_write. rewrite !Z.eqb_refl. simpl.
    replace (off <=? off + Z.of_nat i) with true by lia. replace (off + Z.of_nat i <? _) with true by lia. simpl.
    destruct (lookup_lt_is_Some_2 l i Hi) as [b Hb]. rewrite Hb. f_equal.
    replace (Z.to_nat (off + Z.of_nat i - off)) with i by lia. by apply nth_lookup_Some.
  - rewrite !lookup_ge_None_2; [done|lia|]. rewrite range_of_length. lia.
Qed.
Next Obligation. done. Qed.

(** ** A disk that refuses every write *)
Record BadDisk : Type := mkBadDisk { bad_disk : contents }.

#[export] Instance bad_storage : StorageBackend BadDisk := {
  sb_pread _ _ _ _ _ s := ((-1, []), s);
  sb_pwrite _ _ _ _ _ s := (-1, s);
  sb_create _ _ _ s := (-1, s);
  sb_fresh _ _ := x00;
}.
#[export] Program Instance bad_storage_ok : StorageOk BadDisk := { sb_contents := bad_disk }.
Next Obligation. done. Qed.
Next Obligation. intros. simpl. pose proof two63_eq. lia. Qed.
Next Obligation. done. Qed.
Next Obligation. intros h hi lo n off s Hn E. simpl in E. lia. Qed.
Next Obligation. done. Qed.
Next Obligation. intros h hi lo l off s E. simpl in E. lia. Qed.
Next Obligation. done. Qed.

(** ** The memory backend of the server, before and after one allocation *)
Definition sys0 : Sys Arena := mkSys [] 0 (new_domain "verbs").
Definition mem0 : server_malloc Arena := (sys0, new_Cache (mkMalloc true)).
Definition BLOCK : Z := SLOT.
Definition mem1 : server_malloc Arena :=
  match mp_allocate 1 4096 mem0 with Ok (_, e) => e | Abort _ => mem0 end.

Lemma sys0_ok : sys_rep sys0 ∅.
Proof.
  constructor; [done|done|]. intros p n. split; [done|]. by intros (k & mr & []).
Qed.

Lemma mem0_ok : mp_inv mem0 ∅.
Proof.
  exists ∅, ∅. rewrite map_empty_union. split; [apply sys0_ok|]. split; [apply map_disjoint_empty_l|].
  split; [|split; [by intros p n h Hp|done]]. rewrite fmap_empty. by apply new_Cache_inv.
Qed.

Lemma mem1_run : mp_allocate 1 4096 mem0 = Ok (BLOCK, mem1).
Proof. by vm_compute. Qed.

Lemma mem1_ok : mp_inv mem1 {[BLOCK := (4096, 1)]}.
Proof.
  pose proof (mp_allocate_ok mem0 ∅ 1 4096 mem0_ok eq_refl) as Ha. unfold wp in Ha. rewrite mem1_run in Ha.
  apply Ha; [|done]. pose proof (mp_max_bounds (E := server_malloc Arena)). lia.
Qed.

(** ** Two objects: one with a dirty segment of 4096 bytes, one empty *)
Definition id1 : ObjectId := mkId 1 0.
Definition id2 : ObjectId := mkId 2 0.
Definition seg1 : ObjectSegment := mkSegment (Some 1) 0 true.
Definition obj1 : Object := mkObject id1 [(4095, seg1)] 4096 ConsistencyTracker.init 1 1.
Definition obj2 : Object := mkObject id2 [] 4096 ConsistencyTracker.init 1 1.
Definition world2 {S} (s : S) : World (server_malloc Arena) S :=
  mkWorld _ _ (fun _ => x41) mem1 s {[1 := (mkSegmentMemory BLOCK 4096 1, 1)]} 2 {[1 := obj1; 2 := obj2]} 3.
Definition container2 : Container := mkContainer [(id1, 1); (id2, 2)] 4096 1 1.
Definition blank : contents := fun _ _ _ _ => x00.
Definition w2 : World (server_malloc Arena) Disk := world2 (mkDisk blank).

Lemma objects2 {S} (s : S) p o : w_objects (world2 s) !! p = Some o -> (p = 1 /\ o = obj1) \/ (p = 2 /\ o = obj2).
Proof. simpl. intros [[<- <-]|[_ [<- <-]%lookup_singleton_Some]]%lookup_insert_Some; auto. Qed.
Lemma shared2 {S} (s : S) i v : w_shared (world2 s) !! i = Some v -> i = 1 /\ v = (mkSegmentMemory BLOCK 4096 1, 1).
Proof. simpl. by intros [<- <-]%lookup_singleton_Some. Qed.

Lemma obj1_ok : obj_ok (w_shared w2) mem1 obj1.
Proof.
  constructor.
  - refine (conj _ (conj _ (conj _ I))); by vm_compute.
  - by vm_compute.
  - repeat constructor. by eexists.
  - repeat constructor. apply Z.divide_0_r.
  - split; [done|]. apply Z.divide_refl.
  - done.
Qed.
Lemma obj2_ok sh : obj_ok sh mem1 obj2.
Proof. constructor; try done. split; [done|]. apply Z.divide_refl. Qed.

Lemma world2_ok {S} `{StorageOk S} (s : S) : world_ok (world2 s) [] None.
Proof.
  constructor.
  - exists {[BLOCK := (4096, 1)]}. split; [apply mem1_ok|]. constructor.
    + by intros i m c [-> [= -> ->]]%shared2.
    + intros i i' m m' c c' [-> _]%shared2 [-> _]%shared2. done.
    + done.
    + intros p v [<- _]%lookup_singleton_Some. left. eexists 1, _, _. by split.
  - intros i m c [-> [= -> ->]]%shared2. split; [|done]. by vm_compute.
  - intros i Hi. replace i with 1; [by eexists|]. change (i ∈ [1] ++ []) in Hi. by apply list_elem_of_singleton in Hi.
  - intros i [v [-> _]%shared2]. done.
  - split; [done|]. intros p [o [[-> _]|[-> _]]%objects2]; simpl; lia.
  - intros i m c [-> [= -> ->]]%shared2. split; [apply Z.divide_refl|done].
  - intros p o [[-> ->]|[-> ->]]%objects2; [apply obj1_ok|apply obj2_ok].
Qed.

Lemma container2_ok {S} `{StorageOk S} (s : S) : container_ok (container2, world2 s).
Proof.
  constructor.
  - apply world2_ok.
  - repeat constructor.
  - intros i p Hp. rewrite sm_find_In in Hp by repeat constructor.
    destruct Hp as [[= <- <-]|[[= <- <-]|[]]]; [by exists obj1|by exists obj2].
  - by intros p o [[-> ->]|[-> ->]]%objects2.
  - split; [done|]. apply Z.divide_refl.
  - done.
Qed.
End Machine.
