(* ===== verification/FabricMachine.v ===== *)
(** * A concrete network

    An instance of libfabric for the theorems on the connection: a machine with
    the allocator of [Machine] whose endpoint refuses a given number of posts,
    completes the operations in order and delivers the messages of an inbox in the
    receive buffers. *)

From Stdlib Require Import String.
From S2P Require Import Prelude Memory System Fabric LibfabricDomain FabricObjects Machine.

Module FabricMachine.
Import Machine.

Record Node : Type := mkNode {
  n_arena : Arena;
  n_ops : list Z;
  n_posts : list (Z * (Z * Z));      (** receive buffers: context, address and size *)
  n_sent : list (Z * list byte);
  n_read : list fi_cq_msg_entry;
  n_refusals : nat;
  n_inbox : list (list byte);
  n_targets : list (Z * Z);          (** the pieces of the RDMA reads *)
  n_rmas : list rma_post;
  n_objects : gmap Z (list Z);       (** the objects of libfabric, with those they need *)
  n_domain : Z;                      (** the domain *)
  n_regions : gset Z;                (** the memory regions of the domain *)
}.

Definition with_arena (a : Arena) (x : Node) : Node :=
  mkNode a (n_ops x) (n_posts x) (n_sent x) (n_read x) (n_refusals x) (n_inbox x) (n_targets x) (n_rmas x) (n_objects x) (n_domain x) (n_regions x).

#[export] Instance node_libc : Libc Node := {
  lc_malloc n x := ((lc_malloc n (n_arena x)).1, with_arena (lc_malloc n (n_arena x)).2 x);
  lc_free p x := with_arena (lc_free p (n_arena x)) x;
  lc_mmap fd off n x := ((lc_mmap fd off n (n_arena x)).1, with_arena (lc_mmap fd off n (n_arena x)).2 x);
  lc_munmap p n x := with_arena (lc_munmap p n (n_arena x)) x;
  lc_mkstemp t x := ((3, t), x);
  lc_unlink _ x := (0, x);
  lc_ftruncate _ _ x := (0, x);
  lc_close _ x := x;
}.

#[export] Program Instance node_libc_ok : LibcOk Node := { lc_live x := lc_live (n_arena x) }.
Next Obligation. intros x. apply lc_range. Qed.
Next Obligation. intros x. apply lc_apart. Qed.
Next Obligation. intros x. apply (lc_malloc_ok (n_arena x)). Qed.
Next Obligation. intros x. apply (lc_free_ok (n_arena x)). Qed.
Next Obligation. intros x. apply (lc_mmap_ok (n_arena x)). Qed.
Next Obligation. intros x. apply (lc_munmap_ok (n_arena x)). Qed.
Next Obligation. done. Qed.
Next Obligation. done. Qed.
Next Obligation. done. Qed.
Next Obligation. done. Qed.

(** A region is named by its address and its key, or by a name that is free. *)
Definition with_regions (r : gset Z) (x : Node) : Node :=
  mkNode (n_arena x) (n_ops x) (n_posts x) (n_sent x) (n_read x) (n_refusals x) (n_inbox x) (n_targets x) (n_rmas x) (n_objects x) (n_domain x) r.
Definition region_name (mr : Z) (x : Node) : Z := if decide (mr ∈ n_regions x) then fresh (elements (n_regions x)) else mr.
Lemma region_name_new mr x : region_name mr x ∉ n_regions x.
Proof. unfold region_name. case_decide; [|done]. intros Hin%elem_of_elements. by apply infinite_is_fresh in Hin. Qed.

#[export] Instance node_libfabric : Libfabric Node := {
  fi_REMOTE_READ := 4096; fi_REMOTE_WRITE := 8192; fi_RMA_PMEM := 16384;
  fi_mr_reg p _ _ _ k x := ((0, region_name (p + k) x), with_regions ({[region_name (p + k) x]} ∪ n_regions x) x);
  fi_mr_key mr _ := u64 mr;
  fi_close mr x := with_regions (n_regions x ∖ {[mr]}) x;
}.
#[export] Instance node_libfabric_ok : LibfabricOk Node.
Proof. split; try done. intros mr x. apply u64_range. Qed.

(** A post is refused while there are refusals left. *)
Definition post (c : Z) (msg : list (Z * list byte)) (iov : list (Z * Z)) (rmas : list rma_post) (x : Node) : Z * Node :=
  match n_refusals x with
  | O => (0, mkNode (n_arena x) (c :: n_ops x) (n_posts x) (n_sent x ++ msg) (n_read x) O (n_inbox x) (iov ++ n_targets x) (n_rmas x ++ rmas) (n_objects x) (n_domain x) (n_regions x))
  | S r => (- FI_EAGAIN, mkNode (n_arena x) (n_ops x) (n_posts x) (n_sent x) (n_read x) r (n_inbox x) (n_targets x) (n_rmas x) (n_objects x) (n_domain x) (n_regions x))
  end.

Definition read_entry (e : fi_cq_msg_entry) ops posts inbox (x : Node) : Node :=
  mkNode (n_arena x) ops posts (n_sent x) (n_read x ++ [e]) (n_refusals x) inbox (n_targets x) (n_rmas x) (n_objects x) (n_domain x) (n_regions x).

(** The messages are delivered first, then the operations complete. *)
Definition next_completion (m : mem) (x : Node) : (cq_result * mem) * Node :=
  match n_inbox x, n_posts x, n_ops x with
  | msg :: inbox, (id, (p, n)) :: posts, ops =>
      ((CQ_ENTRY (mkEntry true id), wr m p (take (Z.to_nat n) msg)), read_entry (mkEntry true id) ops posts inbox x)
  | inbox, posts, c :: ops => ((CQ_ENTRY (mkEntry false c), m), read_entry (mkEntry false c) ops posts inbox x)
  | _, _, [] => ((CQ_EAGAIN, m), x)
  end.

#[export] Instance node_fabric : Fabric Node := {
  fi_send a l c x := post c [(a, l)] [] [] x;
  fi_recv p n id x :=
    (0, mkNode (n_arena x) (n_ops x) ((id, (p, n)) :: n_posts x) (n_sent x) (n_read x) (n_refusals x) (n_inbox x) (n_targets x) (n_rmas x) (n_objects x) (n_domain x) (n_regions x));
  fi_rma k iov a ra key c x := post c [] (match k with RDMA_READ => iov | RDMA_WRITE => [] end) [mkRma k iov a ra key c] x;
  fi_cq_read _ m x := next_completion m x;
  fi_av_insert _ x := ((1, 5), x);
  fi_getname x := ((0, 32, repeat x07 32), x);
}.

(** What the network may write. *)
Definition node_target (x : Node) (a : Z) : Prop :=
  exists v, (v ∈ n_targets x \/ v ∈ (n_posts x).*2) /\ v.1 <= a < v.1 + v.2.

Definition node_ep (x : Node) : endpoint := mkEndpoint (n_ops x) (n_posts x).*1 (n_sent x) (n_read x) (n_refusals x) (n_rmas x).

#[export] Program Instance node_fabric_ok : FabricOk Node := { fa_ep := node_ep; fa_target := node_target }.
Next Obligation. intros x a l c. simpl. unfold post, posted. destruct (n_refusals x) as [|r] eqn:E; simpl; rewrite ?E; auto with lia. Qed.
Next Obligation. intros x k iov a ra key c. simpl. unfold post, posted. destruct (n_refusals x) as [|r] eqn:E; simpl; rewrite ?E, ?app_nil_r; auto with lia. Qed.
Next Obligation. done. Qed.
Next Obligation. intros x a l c. simpl. unfold post. destruct (n_refusals x); simpl; by rewrite ?app_nil_r. Qed.
Next Obligation. intros x k iov a ra key c. simpl. unfold post. destruct (n_refusals x); simpl; by rewrite ?app_nil_r. Qed.
Next Obligation. intros x k iov a ra key c. simpl. unfold post. destruct (n_refusals x) eqn:E; simpl; lia. Qed.
Next Obligation. intros x a l c. simpl. unfold post. destruct (n_refusals x) eqn:E; simpl; lia. Qed.
Next Obligation.
  intros x b m. simpl. unfold next_completion. by destruct (n_inbox x) as [|msg inbox], (n_posts x) as [|[id [p n]] posts], (n_ops x) as [|c ops].
Qed.
Next Obligation.
  intros x b m. simpl. unfold next_completion, taken. destruct (n_inbox x) as [|msg inbox], (n_posts x) as [|[id [p n]] posts] eqn:Ep, (n_ops x) as [|c ops] eqn:Eo;
    simpl; unfold node_ep; rewrite ?Ep, ?Eo; simpl; auto.
Qed.
Next Obligation. done. Qed.
Next Obligation. intros x. by split. Qed.
Next Obligation. done. Qed.
Next Obligation.
  intros x b m a Ha. simpl. unfold next_completion. destruct (n_inbox x) as [|msg inbox], (n_posts x) as [|[id [p n]] posts] eqn:Ep, (n_ops x) as [|c ops]; simpl; try done;
    apply wr_out; (destruct (decide (p <= a < p + n)) as [Hin|Hout]; [exfalso; apply Ha; exists (p, n); rewrite Ep; split; [right; by left|done]|]);
    rewrite length_take; lia.
Qed.
Next Obligation.
  intros x b m a. simpl. unfold next_completion. destruct (n_inbox x) as [|msg inbox], (n_posts x) as [|[id [p n]] posts] eqn:Ep, (n_ops x) as [|c ops];
    simpl; try done; intros (v & Hv & Hr); exists v; rewrite Ep; (split; [|done]); simpl in *; rewrite ?elem_of_cons in *; tauto.
Qed.
Next Obligation. intros x d l c a. simpl. unfold post. by destruct (n_refusals x). Qed.
Next Obligation.
  intros x p n id a. simpl. intros (v & Hv & Hr). simpl in Hv. rewrite elem_of_cons in Hv.
  destruct Hv as [Hv|[->|Hv]]; [left; exists v; auto|by right|left; exists v; auto].
Qed.
Next Obligation.
  intros x k iov d ra key c a. simpl. unfold post. destruct (n_refusals x); [|by left]. intros (v & Hv & Hr). simpl in Hv.
  rewrite elem_of_app in Hv. destruct Hv as [[Hv|Hv]|Hv]; [|left; exists v; auto|left; exists v; auto].
  destruct k; [right; split; [done|by exists v]|by apply elem_of_nil in Hv].
Qed.
Next Obligation. done. Qed.
Next Obligation. done. Qed.
Next Obligation. done. Qed.
Next Obligation. done. Qed.
Next Obligation. done. Qed.
Next Obligation. done. Qed.
Next Obligation. done. Qed.
Next Obligation. done. Qed.
Next Obligation. intros x a l c. simpl. unfold post. by destruct (n_refusals x). Qed.
Next Obligation. intros x k iov a ra key c. simpl. unfold post. by destruct (n_refusals x). Qed.
Next Obligation. done. Qed.
Next Obligation.
  intros x b m. simpl. unfold next_completion. by destruct (n_inbox x) as [|msg inbox], (n_posts x) as [|[id [p n]] posts], (n_ops x) as [|c ops].
Qed.
Next Obligation. done. Qed.
Next Obligation. done. Qed.

(** ** The objects of libfabric: nothing is refused but to close an object in use *)
Definition with_objects (m : gmap Z (list Z)) (x : Node) : Node :=
  mkNode (n_arena x) (n_ops x) (n_posts x) (n_sent x) (n_read x) (n_refusals x) (n_inbox x) (n_targets x) (n_rmas x) m (n_domain x) (n_regions x).
Definition with_domain_object (d : Z) (x : Node) : Node :=
  mkNode (n_arena x) (n_ops x) (n_posts x) (n_sent x) (n_read x) (n_refusals x) (n_inbox x) (n_targets x) (n_rmas x) (n_objects x) d (n_regions x).
Definition fresh_object (x : Node) : Z := fresh (elements (dom (n_objects x))).
Definition open_object (needs : list Z) (x : Node) : (Z * Z) * Node :=
  ((0, fresh_object x), with_objects (<[fresh_object x := needs]> (n_objects x)) x).

#[export] Instance node_objects : FabricObjects Node := {
  fi_allocinfo x := (fresh_object x, with_objects (<[fresh_object x := []]> (n_objects x)) x);
  fi_getinfo _ _ _ _ x := open_object [] x;
  fi_freeinfo h x := with_objects (delete h (n_objects x)) x;
  fi_src_addrlen _ _ := 16;
  fi_dest_addrlen _ _ := 16;
  fi_prov_name _ _ := "sockets"%string;
  fi_fabric _ x := open_object [] x;
  fi_domain f _ x := let r := open_object [f] x in (r.1, with_domain_object r.1.2 r.2);
  fi_cq_open d _ x := open_object [d] x;
  fi_av_open d x := open_object [d] x;
  fi_endpoint d _ x := open_object [d] x;
  fi_ep_bind e o x := (0, with_objects (alter (cons o) e (n_objects x)) x);
  fi_enable _ x := (0, x);
  fi_fid_close h x := if decide (map_Exists (fun _ l => h ∈ l) (n_objects x) \/ (h = n_domain x /\ n_regions x <> ∅)) then (-16, x) else (0, with_objects (delete h (n_objects x)) x);
}.

Lemma fresh_object_new x : n_objects x !! fresh_object x = None.
Proof. apply not_elem_of_dom. intros Hd%elem_of_elements. by apply infinite_is_fresh in Hd. Qed.

#[export] Program Instance node_objects_ok : FabricObjectsOk Node := { fo_open := n_objects; fo_domain := n_domain; fo_regions := n_regions }.
Next Obligation. intros x _. split; [apply fresh_object_new|done]. Qed.
Next Obligation. intros x *. split; [apply fresh_object_new|done]. Qed.
Next Obligation. done. Qed.
Next Obligation. intros x *. split; [apply fresh_object_new|done]. Qed.
Next Obligation. intros x *. split; [apply fresh_object_new|done]. Qed.
Next Obligation. intros x *. split; [apply fresh_object_new|done]. Qed.
Next Obligation. intros x *. split; [apply fresh_object_new|done]. Qed.
Next Obligation. intros x *. split; [apply fresh_object_new|done]. Qed.
Next Obligation. intros x e o l He. simpl. apply map_eq. intros k. destruct (decide (k = e)) as [->|Hne]; [by rewrite lookup_alter_eq, lookup_insert_eq, He|by rewrite lookup_alter_ne, lookup_insert_ne]. Qed.
Next Obligation. done. Qed.
Next Obligation. intros x h Hn. simpl. rewrite decide_False; [done|]. intros [(k & l & Hk & Hin)|Hr]; apply Hn; [left; by exists k, l|by right]. Qed.
Next Obligation. intros x h Hu. simpl. rewrite decide_True; [done|]. destruct Hu as [(k & l & Hk & Hin)|Hr]; [left; by exists k, l|by right]. Qed.
Next Obligation. intros x h. simpl. by case_decide. Qed.
Next Obligation. done. Qed.
Next Obligation. done. Qed.
Next Obligation. done. Qed.
Next Obligation. intros x p n a f k. simpl. split; [done|]. split; [apply region_name_new|done]. Qed.
Next Obligation. done. Qed.
Next Obligation. done. Qed.
Next Obligation. done. Qed.
Next Obligation. done. Qed.
Next Obligation. done. Qed.
Next Obligation. done. Qed.
Next Obligation. done. Qed.
Next Obligation. done. Qed.
Next Obligation. done. Qed.
Next Obligation. done. Qed.
Next Obligation. done. Qed.
Next Obligation. intros x h. simpl. by case_decide. Qed.
Next Obligation. done. Qed.

(** A domain and an endpoint, open *)
Definition domain0 : FabricObjects.DomainObjects := FabricObjects.mkDomainObjects 1 2 3.
Definition endpoint0 : FabricObjects.ConnectionObjects := FabricObjects.mkConnectionObjects 4 5 6.
Definition network0 : gmap Z (list Z) := FabricObjects.with_endpoint domain0 endpoint0 (FabricObjects.with_domain domain0 ∅).

Lemma domain0_over : FabricObjects.domain_over domain0 ∅.
Proof. constructor; (split; [done|]); intros k Hk; simpl in Hk; rewrite ?elem_of_cons, ?elem_of_nil in Hk; destruct_or?; simplify_eq; by eexists. Qed.
Lemma endpoint0_over : FabricObjects.endpoint_over domain0 endpoint0 (FabricObjects.with_domain domain0 ∅).
Proof. constructor; (split; [done|]); intros k Hk; simpl in Hk; rewrite ?elem_of_cons, ?elem_of_nil in Hk; destruct_or?; simplify_eq; by eexists. Qed.
End FabricMachine.
