(* ===== verification/TcpWitnesses.v ===== *)
(** * The TCP side on a concrete system

    An instance of the sockets, and the theorems on the TCP server at concrete
    inputs. *)

From S2P Require Import Prelude StdMap Memory Interfaces ConsistencyTracker Protocol World WorldInv View Object Container ClientRegistry Tcp TcpSessions System LibfabricDomain MemoryBackend MemoryCache MemoryBalance Provider Machine.

Module TcpWitnesses.
Import Container ClientRegistry LibfabricDomain MemoryBackend MemoryCache MemoryBalance Provider Machine Tcp TcpSessions.

(** Descriptors and events are numbered in order; [busy] are the ports in use. *)
Record Net (busy : Z -> bool) : Type := mkNet { nt_sockets : sockets; nt_next : Z }.
Arguments mkNet {busy} _ _.
Arguments nt_sockets {busy} _.
Arguments nt_next {busy} _.

(** A number in use is skipped. *)
Fixpoint free_from {A} (fuel : nat) (m : gmap Z A) (n : Z) : option Z :=
  match fuel with
  | O => None
  | S fuel' => match m !! n with None => Some n | Some _ => free_from fuel' m (n + 1) end
  end.
#[local] Arguments free_from : simpl never.
Definition limit : nat := 1000.
Lemma free_from_ok {A} fuel (m : gmap Z A) n k : free_from fuel m n = Some k -> m !! k = None /\ n <= k.
Proof.
  revert n. induction fuel as [|fuel IH]; intros n Hk; [done|]; unfold free_from in Hk; fold (@free_from A) in Hk. destruct (m !! n) eqn:En; [|simplify_eq; split; [done|lia]].
  apply IH in Hk as [? ?]. split; [done|lia].
Qed.

#[export] Instance net_sockets busy : Sockets (Net busy) := {
  sk_socket x := (3, x);
  sk_setsockopt _ _ x := (0, x);
  sk_bind _ p x :=
    let r := if busy p then BIND_INUSE else BIND_OK in
    (r, mkNet (set_binds (so_binds (nt_sockets x) ++ [(p, r)]) (nt_sockets x)) (nt_next x));
  sk_listen _ x := (0, x);
  sk_accept _ x :=
    let o := nt_sockets x in
    match free_from limit (so_conns o) 10 with
    | Some fd => (fd, mkNet (set_conns (<[fd := []]> (so_conns o)) o) (nt_next x))
    | None => (-1, x)
    end;
  sk_write fd l x :=
    let o := nt_sockets x in
    match so_conns o !! fd with
    | Some old => (Z.of_nat (length l), mkNet (set_conns (<[fd := old ++ l]> (so_conns o)) o) (nt_next x))
    | None => (-1, x)
    end;
  sk_read fd n x :=
    let o := nt_sockets x in
    (RD_DATA (take (Z.to_nat n) (so_input o fd)),
     mkNet (mkSockets (so_conns o) (fun d => if d =? fd then drop (Z.to_nat n) (so_input o d) else so_input o d) (so_events o) (so_binds o)) (nt_next x));
  sk_close fd x := (0, mkNet (set_conns (delete fd (so_conns (nt_sockets x))) (nt_sockets x)) (nt_next x));
  ev_new fd p x :=
    let o := nt_sockets x in
    match free_from limit (so_events o) 4096 with
    | Some e => (e, mkNet (set_events (<[e := (fd, p)]> (so_events o)) o) (nt_next x))
    | None => (0, x)
    end;
  ev_add _ x := x;
  ev_del _ x := x;
  ev_free e x := mkNet (set_events (delete e (so_events (nt_sockets x))) (nt_sockets x)) (nt_next x);
  rnd_u64 x := (u64 (nt_next x * 7919), mkNet (nt_sockets x) (nt_next x + 1));
}.

#[export] Program Instance net_sockets_ok busy : SocketsOk (Net busy) := { so := nt_sockets }.
Next Obligation. done. Qed.
Next Obligation. done. Qed.
Next Obligation. done. Qed.
Next Obligation. done. Qed.
Next Obligation.
  intros busy x fd. simpl. destruct (free_from _ _ _) as [k|] eqn:Ek; simpl; [|done]. apply free_from_ok in Ek as [? ?].
  by replace (k <? 0) with false by lia.
Qed.
Next Obligation. intros busy x fd l old Hold. simpl. by rewrite Hold. Qed.
Next Obligation.
  intros busy x fd n. simpl. split; [done|]. split; [done|]. rewrite Z.eqb_refl, take_drop. split; [|done]. rewrite length_take. lia.
Qed.
Next Obligation. done. Qed.
Next Obligation.
  intros busy x fd p. simpl. destruct (free_from _ _ _) as [k|] eqn:Ek; simpl; [|done]. apply free_from_ok in Ek as [? ?].
  by replace (k =? 0) with false by lia.
Qed.
Next Obligation. done. Qed.
Next Obligation. done. Qed.
Next Obligation. done. Qed.
Next Obligation. intros busy x. simpl. split; [apply u64_range|done]. Qed.

Definition TN : Type := Net (fun _ => false).
Definition quiet : TN := mkNet (mkSockets ∅ (fun _ => []) ∅ []) 5.
Definition start : Tcp TN (server_malloc Arena) Disk := mkTcp _ _ _ quiet 3 true ∅ 1 0 ∅ (container2, w2).

Lemma start_served : served 0 start.
Proof. apply served_start; try reflexivity. apply container2_ok. Qed.

(** The state after one connection. *)
Definition one : Tcp TN (server_malloc Arena) Disk :=
  match acceptOneClientCallback 3 start with Ok (_, s) => s | Abort _ => start end.
Lemma accept_one : acceptOneClientCallback 3 start = Ok (tt, one).
Proof.
  assert (match acceptOneClientCallback 3 start with Ok _ => true | Abort _ => false end = true) as Hok by by vm_compute.
  unfold one. destruct (acceptOneClientCallback 3 start) as [[[] s]|f]; [done|discriminate].
Qed.
Lemma one_served : served 1 one.
Proof. apply (served_accept 0 start one start_served accept_one). Qed.
Definition client1 : TcpClientInfo := mkClientInfo 4096 10 0.

Lemma tcp_sessions_witness : tcp_ok one.
Proof. apply (tcp_sessions 1 one); [apply one_served|lia]. Defined.

Lemma disconnect_forgets_witness :
  wp never (recvClientMessageCallback 1 10 1)
    (fun _ s' => forall key, checkIdentification 0 key (tc_registry s') = false) one.
Proof.
  eapply wp_mono.
  - apply (disconnect_forgets 1 one 0 4096 1 client1).
    + apply one_served.
    + lia.
    + by vm_compute.
    + by vm_compute.
    + by vm_compute.
  - intros _ s' (_ & _ & _ & _ & Hk & _). apply Hk.
Defined.

Definition inbox (l : list byte) : TN := mkNet (mkSockets ∅ (fun _ => l) ∅ []) 5.

Lemma handshake_correct_witness :
  wp (only FSystem) (acceptOneClientCallback 3) (fun _ s' => tc_clients s' = tc_clients one \/
    exists c, tc_registry one !! ti_id c = None /\
      forall sent, so_conns (so (tc_net s')) !! ti_fd c = Some sent ->
        wp (short_read (N := TN)) getConnectionInfos (fun infos _ => ci_clientId infos = ti_id c)
          (mkTcpClient 4 (inbox (sent ++ [])))) one.
Proof.
  eapply wp_mono.
  - apply (handshake_correct 1 one); [apply one_served|lia].
  - intros _ s' [?|(p & c & _ & Hnone & Hread)]; [by left|]. right. exists c. split; [done|]. intros sent Hsent.
    eapply wp_mono; [by eapply Hread|]. by intros infos y (? & _).
Defined.

Definition PN : Type := Net (fun p => p <? 8557).
Definition no_ports : PN := mkNet (mkSockets ∅ (fun _ => []) ∅ []) 5.
Lemma createSocketV4_witness :
  wp never (createSocketV4 (N := PN) 40 8556 8560) (fun sock x' => sock = -1 \/ exists q, 8556 <= q <= 8560)
    no_ports.
Proof.
  eapply wp_mono.
  - apply (createSocketV4_correct (N := PN) 40 8556 8560); lia.
  - intros sock x' [?|(q & Hq & _)]; [by left|]. right. by exists q.
Defined.

Definition FN : Type := Net (fun p => negb (p =? 0)).
Definition no_binds : FN := mkNet (mkSockets ∅ (fun _ => []) ∅ []) 5.
Lemma server_port_wraps_witness :
  wp never (new_TcpServer (N := FN) (Z.to_nat 1000) 65500 65500)
    (fun _ x' => so_binds (so x') = in_use 65500 36 ++ [(0, BIND_OK)]) no_binds.
Proof.
  eapply wp_mono.
  - apply (server_port_wraps (N := FN) (Z.to_nat 1000) 65500 no_binds).
    + lia.
    + lia.
    + done.
    + done.
    + done.
    + intros y s p. simpl. by destruct (p =? 0).
  - intros a x' Ht. exact Ht.
Defined.
End TcpWitnesses.
