(* ===== verification/Witnesses.v ===== *)
(** * The theorems at work on the concrete machine

    Each lemma applies one theorem of the development at a concrete input of
    [Machine], where all its hypotheses hold. *)

From Stdlib Require Import String.
From S2P Require Import Prelude StdMap Memory IntervalMap Interfaces ConsistencyTracker World WorldInv View ObjectSegment Object ObjectAccess ObjectData ObjectFlush ObjectCow Container System LibfabricDomain MemoryBackend MemoryCache MemoryBalance Provider Machine.

Module Witnesses.
Import Object Container LibfabricDomain MemoryBackend MemoryCache MemoryBalance Provider Machine.

(** ** The facts the witnesses share *)
Lemma disk_reads (st : Disk) h id lo hi : hi - lo < two63 -> ObjectAccess.reads_in st h id lo hi.
Proof.
  intros Hb n off s Hl Hn Hh _. simpl. by replace ((0 <=? n) && (n <? two63)) with true by lia.
Qed.
Lemma max_ok : 2147483648 <= mp_max (E := server_malloc Arena).
Proof. apply mp_max_bounds. Qed.
Lemma obj1_regular : ObjectData.regular_obj w2 obj1.
Proof. repeat constructor; simpl; [apply Z.divide_0_r|apply Z.divide_refl]. Qed.
Lemma obj1_own {S} (s : S) : ObjectFlush.own_storage (world2 s) 1 obj1.
Proof. intros q oq Hne [[-> ->]|[-> ->]]%objects2; [done|by intros [=]]. Qed.
Lemma free3 : ObjectCow.target_free w2 obj1 (mkId 3 0).
Proof. by intros p op [[-> ->]|[-> ->]]%objects2 [=]. Qed.
Lemma uncut1 : ObjectCow.uncut w2 obj1 0 8192.
Proof. intros k seg [[= <- <-]|[]] _ _. simpl. by vm_compute. Qed.
#[local] Opaque wp.
Ltac bounds := unfold obj1, obj2; simpl; rewrite ?two63_eq; lia.

(** ** Objects *)

(** A read of bytes in the segment and after it. *)
Lemma getBuffers_witness :
  wp resource (getBuffers 1 100 5000 ACCESS_READ true false)
    (fun r w' => world_ok w' [] None /\ sb_contents (w_store w') = sb_contents (w_store w2)) w2.
Proof.
  eapply wp_mono.
  - apply (ObjectAccess.getBuffers_correct w2 1 obj1 100 5000 ACCESS_READ true false true).
    + apply world2_ok.
    + reflexivity.
    + lia.
    + lia.
    + bounds.
    + etrans; [|apply max_ok]. done.
    + intros _. apply disk_reads. by vm_compute.
  - intros r w' (Hw & Hs & _). by split.
Defined.

Lemma object_read_witness :
  wp resource (let! r := getBuffers 1 100 5000 ACCESS_READ true false in
               let! m := gets w_mem in ret (r.1, ObjectData.gather m (buildIovec r.2 100 5000).2))
    (fun r w' => r.1 = true -> r.2 !! 0%nat = Some x41) w2.
Proof.
  eapply wp_mono.
  - apply (ObjectData.object_read w2 1 obj1 100 5000).
    + apply world2_ok.
    + reflexivity.
    + apply obj1_regular.
    + lia.
    + lia.
    + bounds.
    + bounds.
  - intros r w' (_ & _ & Hr) E. rewrite E in Hr. apply (proj2 Hr 100); [lia|by vm_compute].
Defined.


Lemma flush_witness :
  wp never (flush 1 0 100) (fun r w' => (r = 0 \/ r = -1) /\ world_ok w' [] None) w2.
Proof.
  eapply wp_mono.
  - apply (ObjectFlush.flush_correct w2 1 obj1 0 100).
    + apply world2_ok.
    + reflexivity.
    + apply obj1_own.
    + lia.
    + lia.
    + bounds.
  - intros r w' (Hw & _ & Hr & _). by split.
Defined.

Lemma flush_all_witness :
  wp never (flush 1 0 0) (fun r w' => r = 0 -> disk (w_store w') 1 0 1 17 = x41) w2.
Proof.
  eapply wp_mono.
  - apply (ObjectFlush.flush_all_durable w2 1 obj1).
    + apply world2_ok.
    + reflexivity.
    + apply obj1_own.
    + done.
    + intros k seg x [[= <- <-]|[]] Hd. done.
  - intros r w' (o' & Ho & (Hid & _ & _ & Hsb & _) & _ & Hst) Hr. specialize (Hst Hr 17).
    unfold stored in Hst. rewrite Hid, Hsb in Hst. change (o_storageBackend obj1) with 1 in Hst.
    change (obj_view w2 obj1 17) with (Some x41) in Hst. simpl in Hst. congruence.
Defined.

Lemma flush_failure_witness :
  wp never (flush 1 0 0) (fun r w' => r = -1) (world2 (mkBadDisk blank)).
Proof.
  eapply wp_mono.
  - apply (ObjectFlush.flush_failure_forgets (world2 (mkBadDisk blank)) 1 obj1 4095 seg1).
    + apply world2_ok.
    + reflexivity.
    + done.
    + reflexivity.
    + by left.
    + reflexivity.
  - by intros r w' [Hr _].
Defined.

Lemma markDirty_witness :
  wp never (markDirty 1 10 20) (fun _ w' => world_ok w' [] None) w2.
Proof.
  eapply wp_mono.
  - apply (ObjectFlush.markDirty_correct w2 1 obj1 10 20).
    + apply world2_ok.
    + reflexivity.
    + lia.
    + lia.
    + bounds.
  - by intros r w' [Hw _].
Defined.

Lemma makeFullCopyOnWrite_witness :
  wp (ObjectCow.cow_fault (S := Disk)) (makeFullCopyOnWrite 1 (mkId 3 0) false)
    (fun cow w' => exists oc, w_objects w' !! cow = Some oc /\ obj_view w' oc 17 = Some x41) w2.
Proof.
  eapply wp_mono.
  - apply (ObjectCow.makeFullCopyOnWrite_correct w2 1 obj1 (mkId 3 0) false).
    + apply world2_ok.
    + reflexivity.
    + done.
    + apply free3.
  - intros cow w' (_ & _ & _ & oc & Ho & _ & _ & _ & Hv). exists oc. split; [done|]. rewrite Hv; by vm_compute.
Defined.

Lemma drops_tail_witness :
  wp never (makeFullCopyOnWrite 2 (mkId 3 0) true) (fun cow w' => w_store w' = w_store w2) w2.
Proof.
  eapply wp_mono.
  - apply (ObjectCow.makeFullCopyOnWrite_drops_tail w2 2 obj2 (mkId 3 0)); done.
  - by intros cow w' (oc & _ & _ & Hs).
Defined.

Lemma rangeCopyOnWrite_witness :
  wp never (rangeCopyOnWrite 2 1 0 8192)
    (fun _ w' => exists o', w_objects w' !! 2 = Some o' /\ In (4095, seg1) (o_segmentMap o') /\
       obj_view w' o' 17 = Some x41) w2.
Proof.
  eapply wp_mono.
  - apply (ObjectCow.rangeCopyOnWrite_correct w2 2 1 obj2 obj1 0 8192).
    + apply world2_ok.
    + reflexivity.
    + reflexivity.
    + done.
    + done.
    + lia.
    + lia.
    + bounds.
    + apply uncut1.
  - intros _ w' (_ & _ & _ & _ & o' & Ho & _ & Hin & Hv). exists o'. split; [done|].
    assert (In (4095, seg1) (o_segmentMap o')) as Hs by (apply Hin; split; [by left|by vm_compute]).
    split; [done|]. rewrite (Hv 4095 seg1 17 Hs); by vm_compute.
Defined.

(** ** Container *)
Lemma getObject_witness :
  wp never (getObject (mkId 3 0)) (fun p cw => p = 3 -> w_objects cw.2 !! 1 = Some obj1) (container2, w2).
Proof.
  eapply wp_mono.
  - apply (Container.getObject_correct container2 w2 (mkId 3 0)). apply container2_ok.
  - intros p cw (_ & _ & _ & _ & _ & Hq & _) ->. by rewrite Hq.
Defined.

Lemma makeObjectFullCow_witness :
  wp (ObjectCow.cow_fault (S := Disk)) (makeObjectFullCow id1 id2 true)
    (fun r cw => r = true /\ container_ok cw) (container2, w2).
Proof.
  eapply wp_mono.
  - apply (Container.makeObjectFullCow_correct container2 w2 id1 id2 true 1 obj1).
    + apply container2_ok.
    + done.
    + done.
    + reflexivity.
    + reflexivity.
    + by left.
  - intros r cw (Hr & Hc & _). by split.
Defined.

Lemma cow_refused_witness :
  makeObjectFullCow id1 id2 false (container2, w2) = Ok (false, (container2, w2)) /\
  makeObjectRangeCow id1 id2 false 0 10 (container2, w2) = Ok (false, (container2, w2)).
Proof. apply Container.cow_refused. right. split; [done|]. by eexists. Defined.

Lemma makeObjectFullCow_self_witness :
  makeObjectFullCow id1 id1 true (container2, w2) = Abort FNullPointer.
Proof. apply (Container.makeObjectFullCow_self container2 w2 id1 1); [apply container2_ok|done]. Defined.

Lemma makeObjectRangeCow_witness :
  wp never (makeObjectRangeCow id1 (mkId 3 0) false 0 8192) (fun r cw => r = true /\ container_ok cw) (container2, w2).
Proof.
  eapply wp_mono.
  - apply (Container.makeObjectRangeCow_correct container2 w2 id1 (mkId 3 0) false 0 8192 1 obj1).
    + apply container2_ok.
    + reflexivity.
    + reflexivity.
    + reflexivity.
    + lia.
    + lia.
    + bounds.
    + apply uncut1.
  - intros r cw (Hr & Hc & _). by split.
Defined.

Lemma onClientDisconnect_witness :
  wp never (onClientDisconnect 7) (fun _ cw => container_ok cw /\ cw.1 = container2) (container2, w2).
Proof.
  eapply wp_mono.
  - apply (Container.onClientDisconnect_correct container2 w2 7). apply container2_ok.
  - intros _ cw (Hc & He & _). by split.
Defined.

Lemma setMemoryBackend_witness :
  wp never (setMemoryBackend 1) (fun _ cw => container_ok cw /\ c_memoryBackend cw.1 = 1) (container2, w2).
Proof.
  eapply wp_mono.
  - apply (Container.setMemoryBackend_correct container2 w2 1); [apply container2_ok|done|done].
  - intros _ cw (Hc & He & _). by split.
Defined.

Lemma destroy_container_witness :
  wp never destroy_container (fun _ cw => mp_inv (w_env cw.2) ∅) (container2, w2).
Proof.
  eapply wp_mono.
  - apply (Container.destroy_container_no_leak container2 w2). apply container2_ok.
  - by intros _ cw (_ & _ & Hi).
Defined.

(** ** Registered memory: the process after two allocations, one registered *)
Definition sys1 : Sys Arena := mkSys [4096; 8192] 1 (set_segments [(SLOT + 4095, mkRegion SLOT 4096 SLOT)] (new_domain "verbs")).
Definition heap1 : heap := {[SLOT := (4096, true); 2 * SLOT := (8192, false)]}.

Lemma sys1_ok : sys_rep sys1 heap1.
Proof.
  constructor.
  - by vm_compute.
  - refine (conj _ (conj _ (conj _ I))); by vm_compute.
  - intros p n. unfold heap1. rewrite lookup_insert_Some, lookup_singleton_Some. split.
    + intros [[<- [= <-]]|[_ [_ [=]]]]. eexists _, _. by left.
    + intros (k & mr & [[= _ <- <- _]|[]]). by left.
Qed.

Lemma getMR_witness :
  exists r, getMR (SLOT + 17) 8 sys1 = Ok (r, sys1) /\ r <> None.
Proof.
  destruct (LibfabricDomain.getMR_correct sys1 heap1 (SLOT + 17) 8) as (r & Hr & Hs).
  - apply sys1_ok.
  - by vm_compute.
  - lia.
  - exists r. split; [done|]. intros ->. assert (None = Some (mkRegion SLOT 4096 SLOT)) as [=].
    apply Hs. split; [eexists; by left|]. simpl. lia.
Defined.

Lemma register_unregister_segment_witness :
  wp resource (registerSegment (2 * SLOT) 8192 true true false) (fun _ s' => exists G, sys_rep s' G) sys1.
Proof.
  eapply wp_mono.
  - apply (LibfabricDomain.register_unregister_segment sys1 heap1 (2 * SLOT) 8192 true true false).
    + apply sys1_ok.
    + reflexivity.
  - intros _ s' [Hr _]. eauto.
Defined.

Lemma pool0_ok : pool_ok sys0 ∅ [].
Proof. constructor; [apply sys0_ok|apply NoDup_nil_2|by intros p ?%elem_of_nil|done]. Qed.

Lemma msgBuffer_pool_witness :
  wp pool_fault getMsgBuffer (fun p s' => exists G, pool_ok s' G [p]) sys0.
Proof.
  eapply wp_mono.
  - apply (LibfabricDomain.msgBuffer_pool sys0 ∅ []). apply pool0_ok.
  - intros p s' (_ & (G & _ & Hp) & _). eauto.
Defined.

Lemma setMsgBufferSize_stale_witness :
  exists s', (setMsgBufferSize 4096 ;; retMsgBuffer SLOT ;; getMsgBuffer) sys1 = Ok (SLOT, s') /\
    msgBufferSize (s_domain s') = 4096.
Proof.
  destruct (LibfabricDomain.setMsgBufferSize_stale sys1 SLOT 4096) as (s' & Hs & Hm & _); [done|done|]. eauto.
Defined.

(** ** Memory backends *)
Definition nvdimm0 : Nvdimm := new_Nvdimm true "/tmp".
Lemma nvdimm0_ok : Nvdimm_inv nvdimm0 ∅ ∅.
Proof. by constructor. Qed.
Lemma empty_ok : sys_rep sys0 ((∅ : heap) ∪ ∅).
Proof. rewrite map_empty_union. apply sys0_ok. Qed.
Lemma empty_disjoint : (∅ : heap) ##ₘ ∅.
Proof. apply map_disjoint_empty_l. Qed.

Lemma Nvdimm_allocate_witness :
  wp resource (Nvdimm_allocate 4096) (fun p sb => getChunks sb.2 = 1) (sys0, nvdimm0).
Proof.
  eapply wp_mono.
  - apply (MemoryBackend.Nvdimm_allocate_correct sys0 nvdimm0 ∅ ∅ ∅ 4096).
    + apply empty_ok.
    + apply empty_disjoint.
    + apply nvdimm0_ok.
    + unfold nvdimm_max. lia.
    + apply Z.divide_refl.
  - intros p sb (_ & _ & Hc & _). by rewrite Hc.
Defined.

Lemma destroy_Cache_witness :
  wp never destroy_Cache (fun _ sb => exists own, mb_inv (ca_backend sb.2) ∅ own) (sys0, new_Cache nvdimm0).
Proof.
  eapply wp_mono.
  - apply (MemoryCache.destroy_Cache_correct sys0 (new_Cache nvdimm0) ∅ ∅).
    + apply empty_ok.
    + apply empty_disjoint.
    + apply new_Cache_inv, nvdimm0_ok.
  - intros _ sb (own & _ & _ & Hi). eauto.
Defined.

(** A cache over malloc with one block of 4096 bytes in use. *)
Definition cache1 : Cache Malloc := mkCache (mkMalloc true) [(4096, [])] [(SLOT, 4096)].
Definition sys2 : Sys Arena := mkSys [4096] 1 (set_segments [(SLOT + 4095, mkRegion SLOT 4096 SLOT)] (new_domain "verbs")).
Definition heap2 : heap := {[SLOT := (4096, true)]}.

Lemma sys2_ok : sys_rep sys2 (heap2 ∪ ∅).
Proof.
  rewrite map_union_empty. constructor.
  - by vm_compute.
  - refine (conj _ (conj _ (conj _ I))); by vm_compute.
  - intros p n. unfold heap2. rewrite lookup_singleton_Some. split.
    + intros [<- [= <-]]. eexists _, _. by left.
    + by intros (k & mr & [[= _ <- <- _]|[]]).
Qed.

Lemma cache1_free n : free_list n cache1 = [].
Proof. unfold free_list, cache1. simpl. by repeat case_match; simplify_eq. Qed.

Lemma cache1_ok : Cache_inv (X := Arena) cache1 {[SLOT := 4096]} heap2.
Proof.
  assert (forall p n, ~ is_free cache1 p n) as Hf.
  { intros p n. unfold is_free. rewrite cache1_free. apply not_elem_of_nil. }
  constructor.
  - exists {[SLOT := 4096]}. split; [unfold heap2; by vm_compute|]. split.
    + intros p n. rewrite sm_find_In by repeat constructor. rewrite lookup_singleton_Some.
      split; [by intros [[= <- <-]|[]]|intros [<- <-]; by left].
    + intros p n. split; [by left|]. intros [?|Hp]; [done|]. by apply Hf in Hp.
  - repeat constructor.
  - repeat constructor.
  - intros n. rewrite cache1_free. apply NoDup_nil_2.
  - by intros p n Hp%Hf.
  - intros p n. rewrite sm_find_In by repeat constructor. intros [[= <- <-]|[]]. apply Z.divide_refl.
Qed.

Lemma Cache_reuses_witness :
  exists c', (Cache_deallocate SLOT 4096 ;; Cache_allocate 4096) (sys2, cache1) = Ok (SLOT, (sys2, c')).
Proof.
  destruct (MemoryCache.Cache_reuses sys2 cache1 {[SLOT := 4096]} heap2 ∅ SLOT 4096) as (c' & Hc & _).
  - apply sys2_ok.
  - apply map_disjoint_empty_r.
  - apply cache1_ok.
  - reflexivity.
  - apply Z.divide_refl.
  - eauto.
Defined.

(** The balance of two caches over nvdimm files. *)
Definition balance0 : Balance (Cache Nvdimm) :=
  registerBackend (new_Cache nvdimm0) (registerBackend (new_Cache nvdimm0) new_Balance).

Lemma balance0_ok : Balance_inv (X := Arena) balance0 ∅ ∅.
Proof.
  assert (forall p n i, ~ block_of [∅; ∅] i p n) as Hb.
  { intros p n [|[|i]] (u & Hu & Hp); simplify_eq/=; by rewrite lookup_empty in Hp. }
  constructor.
  - exists [∅; ∅], [∅; ∅]. split; [done|]. split; [done|]. split.
    { change (∅ : heap) with (∅ ∪ (∅ ∪ ∅) : heap) at 3. repeat constructor; apply map_disjoint_empty_l. }
    split; [|split; [|split]].
    + intros [|[|i]] b u o Eb Eu Eo; simplify_eq/=; apply new_Cache_inv, nvdimm0_ok.
    + intros [|[|i]] m u Em Eu; by simplify_eq/=.
    + intros p n. rewrite lookup_empty. split; [done|]. by intros [i ?%Hb].
    + intros p z. split; [done|]. by intros (i & n & _ & ?%Hb).
  - done.
  - constructor.
Qed.

Lemma Balance_allocate_least_witness :
  wp resource (Balance_allocate 4096) (fun p sb => exists id : nat, sm_find p (ba_backendOfMem sb.2) = Some (Z.of_nat id))
    (sys0, balance0).
Proof.
  eapply wp_mono.
  - apply (MemoryBalance.Balance_allocate_least sys0 balance0 ∅ ∅ ∅ 4096).
    + apply empty_ok.
    + apply empty_disjoint.
    + apply balance0_ok.
    + split; [lia|]. by vm_compute.
    + apply Z.divide_refl.
  - intros p sb (_ & id & _ & _ & _ & _ & _ & Hf). eauto.
Defined.

Lemma backends_provide_memory_witness :
  provides (X := Arena) Balance_allocate Balance_deallocate (Provider.setNvdimm true ["/mnt/a"; "/mnt/b"]) 4096 nvdimm_max.
Proof. apply (Provider.backends_provide_memory (X := Arena) true "/mnt/a" 0 ["/mnt/a"; "/mnt/b"]). simpl. lia. Defined.
End Witnesses.
