(* ===== verification/RequestWitnesses.v ===== *)
(** * The requests on the concrete machine

    The theorems on the hooks applied to the server of [Machine], and runs of it
    that show the limits of the handlers. *)

From S2P Require Import Prelude StdMap Memory IntervalMap Interfaces ConsistencyTracker Protocol World WorldInv View ObjectSegment Object ObjectAccess ObjectData ObjectFlush ObjectCow Container System Fabric Hooks Requests Rdma LibfabricDomain MemoryBackend MemoryCache MemoryBalance Provider Machine Witnesses.

Module RequestWitnesses.
Import Protocol Object Container Hooks Requests Rdma LibfabricDomain MemoryBackend MemoryCache MemoryBalance Provider Machine Witnesses.

Definition hk0 : Hk (server_malloc Arena) Disk := mkHk _ _ (container2, w2) [] [] ∅ 1 0 0.
Definition hello : list byte := [x48; x65; x6c; x6c; x6f].
Definition request0 (data : list byte) : LibfabricClientRequest := mkRequest 7 9 (mkHeader 0 1 2 3) data.
Definition info_data : LibfabricObjReadWriteInfos := mkReadWrite (mkObjectId 1 0) (mkIov 0 0) 4094 5 true 1.
Definition info_rdma : LibfabricObjReadWriteInfos := mkReadWrite (mkObjectId 1 0) (mkIov 65536 11) 4094 5 false 0.
Definition info_read : LibfabricObjReadWriteInfos := mkReadWrite (mkObjectId 1 0) (mkIov 0 0) 16 5 false 0.
Definition flush_all : LibfabricObjFlushInfos := mkFlush (mkObjectId 1 0) 0 0.

Lemma hk0_accessible (suits : Z -> Prop) : suits 4096 -> accessible container2 w2 id1 suits.
Proof.
  intros Hs o Ho. destruct (objects2 _ _ _ Ho) as [[_ ->]|[[=] _]]. split; [apply obj1_regular|exact Hs].
Qed.

Lemma eager_write_witness :
  wp resource (HookObjectWrite_onMessage (request0 hello) info_data)
    (fun _ s' => shown (hk_cw s') id1 4095 = Some x65) hk0.
Proof.
  eapply wp_mono.
  - apply (Requests.eager_write hk0 (request0 hello) info_data).
    + apply container2_ok.
    + apply hk0_accessible. unfold fits. simpl. rewrite two63_eq. lia.
    + reflexivity.
    + discriminate.
    + reflexivity.
  - intros _ s' ([_ Hd _ _] & _). refine (eq_trans (Hd 4095 _) _); [simpl; lia|reflexivity].
Defined.

Lemma eager_read_witness :
  wp resource (HookObjectRead_onMessage (request0 []) info_read)
    (fun _ s' => exists status data, hk_out s' = [Response IOC_LF_MSG_OBJ_READ_WRITE_ACK 7 status data; Repost 9]) hk0.
Proof.
  eapply wp_mono.
  - apply (Requests.eager_read hk0 (request0 []) info_read).
    + apply container2_ok.
    + by vm_compute.
    + apply hk0_accessible. split; [unfold fits; simpl; rewrite two63_eq; lia|]. split; [lia|reflexivity].
  - intros _ s' (_ & _ & _ & status & data & Ho & _). by exists status, data.
Defined.

Definition info_back : LibfabricObjReadWriteInfos := mkReadWrite (mkObjectId 1 0) (mkIov 0 0) 4096 3 false 0.

Lemma rdma_write_witness :
  wp resource (HookObjectWrite_onMessage (request0 []) info_rdma)
    (fun _ s1 => hk_out s1 = [Repost 9]) hk0.
Proof.
  eapply wp_mono.
  - apply (Rdma.rdma_write hk0 (request0 []) info_rdma).
    + apply container2_ok.
    + reflexivity.
    + apply hk0_accessible. unfold fits. simpl. rewrite two63_eq. lia.
    + reflexivity.
    + simpl. lia.
    + by vm_compute.
  - intros _ s' (Ho & _). exact Ho.
Defined.

(** ** A flush during a write *)
Definition race : M (Hk (server_malloc Arena) Disk) unit :=
  HookObjectWrite_onMessage (request0 []) info_rdma ;;
  HookFlush_onMessage (request0 []) flush_all ;;
  complete_rdma 0 hello ;;
  HookFlush_onMessage (request0 []) flush_all.

(** What can be seen of a run on the byte [x] of the object. *)
Definition observe (r : res (unit * Hk (server_malloc Arena) Disk)) (x : Z) :=
  match r with
  | Ok (_, s) =>
      Some (hk_out s, shown (hk_cw s) id1 x, disk (w_store (hk_cw s).2) 1 0 1 x,
            (fun o => (fun kv => os_dirty kv.2) <$> o_segmentMap o) <$> w_objects (hk_cw s).2 !! 1)
  | Abort _ => None
  end.


(** ** The limits of the handlers *)

(** A read of five bytes on two segments: the second one is created. *)
Definition info_two : LibfabricObjReadWriteInfos := mkReadWrite (mkObjectId 1 0) (mkIov 0 0) 4094 5 false 0.

(** an eager read that meets two segments answers with an array whose second
    entry was never set: objEagerPushToClient stores every piece in the entry 0,
    and what it sends is not defined. *)
Theorem eager_read_two_segments :
  HookObjectRead_onMessage (request0 []) info_two hk0 = Abort FOverrun.
Proof.
  assert (match HookObjectRead_onMessage (request0 []) info_two hk0 with Abort f => Some f | Ok _ => None end = Some FOverrun) as Hf by by vm_compute.
  destruct (HookObjectRead_onMessage _ _ _); [done|]. by injection Hf as ->.
Qed.
End RequestWitnesses.
