(* ===== verification/ConnectionWitnesses.v ===== *)
(** * The connection on the concrete network

    The theorems on the connection applied to an endpoint of [FabricMachine] with
    two receive buffers, and a run that shows what a refused RDMA operation
    leaves. *)

From Stdlib Require Import String.
From S2P Require Import Prelude StdMap Memory Serializer Protocol System Fabric LibfabricDomain ClientRegistry Connection Dispatch ConnectionInv ConnectionSend ConnectionPoll ConnectionLoop Machine FabricMachine Witnesses.

Module ConnectionWitnesses.
Import Serializer Protocol LibfabricDomain ClientRegistry Connection Dispatch ConnectionInv ConnectionSend ConnectionPoll ConnectionLoop Machine FabricMachine.

#[local] Existing Instance some_storage.
#[local] Existing Instance no_users.

(** The only hook gives the buffer back, the only function does nothing. *)
Abbreviation S := (Cx Node (option unit) unit unit).
Definition onMessage (_ : unit) (request : LibfabricClientRequest) : M S LibfabricActionResult :=
  terminate request ;; ret LF_WAIT_LOOP_UNBLOCK.
Definition callback (_ : unit) : M S LibfabricActionResult := ret LF_WAIT_LOOP_KEEP_WAITING.
Definition onEndpointConnect (_ : unit) (_ : Z) : M S unit := ret tt.
Definition cb_holds (_ : unit) : list Z := [].

Definition buf0 : Z := slot_addr 0.
Definition buf1 : Z := slot_addr 1.
Definition G0 : heap := {[buf0 := (1024, false); buf1 := (1024, false)]}.
Definition post0 : Z * (Z * Z) := (0, (buf0, 1024)).
Definition post1 : Z * (Z * Z) := (1, (buf1, 1024)).

(** An endpoint with two receive buffers of 1024 bytes. *)
Section endpoint.
Context {Hook Cb A : Type} (hk : gmap Z (option Hook)) (app : A) (holds : Cb -> list Z) {users : Users}.

Definition conn_with (auth : bool) (remote : stdmap Z Z) (pending : Z) : Conn (option Hook) Cb :=
  mkConn _ _ false [buf0; buf1] 1024 remote 1 None None 0 hk false 3 4 ∅ auth false [] pending.
Definition cx_with posts inbox refusals auth remote pending m : Cx Node (option Hook) Cb A :=
  mkCx (mkSys (mkNode [1024; 1024] [] posts [] [] refusals inbox [] [] network0 3 ∅) 0 (mkDomain [] true 1024 [])) m ∅ 1 (conn_with auth remote pending) app.

Lemma cx_with_ok posts inbox refusals auth remote pending m held :
  NoDup (posts.*1 ++ held) -> (forall id, id ∈ posts.*1 ++ held <-> 0 <= id < 2) ->
  (forall v, v ∈ posts.*2 -> v = (buf0, 1024) \/ v = (buf1, 1024)) ->
  conn_ok holds G0 held [] pending (cx_with posts inbox refusals auth remote pending m).
Proof.
  intros Hnd Hid Hv. assert (forall s, s = cx_with posts inbox refusals auth remote pending m -> all_recvs holds s held = posts.*1 ++ held) as Hall.
  { intros s ->. unfold all_recvs, flight, ep. simpl. by rewrite app_nil_r. }
  constructor; rewrite ?Hall by done; try done.
  - constructor; try done; [|constructor|intros p Hp; by apply elem_of_nil in Hp]. constructor; [by vm_compute|done|].
    intros p n. split; [|by intros (k & mr & [])]. unfold G0.
    by intros [[_ [=]]|[_ [_ [=]]%lookup_singleton_Some]]%lookup_insert_Some.
  - intros a (v & [Hin|Hin] & Hr); simpl in Hin; [by apply elem_of_nil in Hin|].
    destruct (Hv _ Hin) as [->| ->]; simpl in Hr; eexists _, 1024, false; (split; [|split; [exact Hr|by apply not_elem_of_nil]]); by vm_compute.
  - constructor.
  - intros a Ha. by apply elem_of_nil in Ha.
  - intros id. by rewrite Hid.
  - intros p. simpl. rewrite !elem_of_cons. intros [->|[->|Hp]]; [by vm_compute|by vm_compute|by apply elem_of_nil in Hp].
  - intros p n. unfold G0. by intros [[_ [=]]|[_ [_ [=]]%lookup_singleton_Some]]%lookup_insert_Some.
  - intros id. by rewrite Hid.
Qed.

Lemma ready_with posts inbox refusals auth remote pending m : ready holds (cx_with posts inbox refusals auth remote pending m).
Proof. constructor; simpl; try lia; try done. Qed.
Lemma patient_with n posts inbox refusals auth remote pending m :
  (length posts < n)%nat -> (refusals < n)%nat -> patient n (cx_with posts inbox refusals auth remote pending m).
Proof. intros. split; simpl; [|done]. unfold ep, ep_busy. simpl. rewrite length_fmap. lia. Qed.

Lemma both_posted inbox refusals auth remote m :
  conn_ok holds G0 [] [] 0 (cx_with [post0; post1] inbox refusals auth remote 0 m).
Proof.
  apply cx_with_ok.
  - simpl. apply NoDup_cons. split; [|apply NoDup_singleton]. by intros ?%list_elem_of_singleton.
  - intros id. simpl. rewrite !elem_of_cons, elem_of_nil. lia.
  - intros v. simpl. rewrite !elem_of_cons, elem_of_nil. intros [->|[->|[]]]; auto.
Qed.
End endpoint.

Definition hooks0 : gmap Z (option unit) := {[10 := Some tt]}.
Definition cx0 posts inbox refusals auth remote pending m : S := cx_with hooks0 tt posts inbox refusals auth remote pending m.

(** A server that handles the message of the buffer 0, and one that polls. *)
Definition handling auth remote m : S := cx0 [post1] [] 1 auth remote 0 m.
Lemma handling_ok auth remote m : conn_ok cb_holds G0 [0] [] 0 (handling auth remote m).
Proof.
  apply cx_with_ok.
  - simpl. apply NoDup_cons. split; [|apply NoDup_singleton]. by intros ?%list_elem_of_singleton.
  - intros id. simpl. rewrite !elem_of_cons, elem_of_nil. lia.
  - intros v ->%list_elem_of_singleton. by right.
Qed.
Definition polling auth inbox refusals : S := cx0 [post0; post1] inbox refusals auth [(0, 5)] 0 (fun _ => x00).
Lemma polling_ok auth inbox refusals : conn_ok cb_holds G0 [] [] 0 (polling auth inbox refusals).
Proof. apply both_posted. Qed.

(** ** The messages *)
Definition ping (lf : Z) : LibfabricMessageHeader := mkHeader 10 lf 8 9.
Definition received_ping (lf : Z) : mem := wr (fun _ => x00) buf0 (m_bytes (fun _ => x00) (ping lf)).

Definition opened (s : S) : Ser := match open_message 0 s with Ok (r, _) => r.2 | Abort _ => mkSer (cx_mem s) 0 0 0 SERIALIZER_UNSET [] false false end.

Lemma opens auth remote lf :
  is_u64 lf -> let s := handling auth remote (received_ping lf) in open_message 0 s = Ok ((ping lf, opened s), s).
Proof.
  intros Hlf s. destruct (open_message_run cb_holds G0 [0] [] 0 s 0) as (p & h & st & Ho & _ & Hp & Hw & Hb).
  - apply handling_ok.
  - apply held_in.
  - done.
  - injection Hp as <-. assert (h = ping lf) as ->; [|unfold opened; by rewrite Ho].
    eapply header_bytes_inj; [exact Hw|by split_and!|]. rewrite <- Hb.
    change HEADER_SIZE with (Z.of_nat (length (m_bytes (fun _ => x00) (ping lf)))). apply rd_wr.
Qed.

Definition hello0 : list byte := repeat x0a 40.

(** ** The handlers *)
Lemma callback_fine F : callback_ok cb_holds callback F.
Proof. intros f G held busy d s Hc. apply wp_ret. by exists G. Qed.
Lemma hooks_fine : hooks_ok cb_holds onMessage stops.
Proof.
  intros h request G held s Hc. unfold onMessage, terminate. apply wp_bind. eapply wp_weaken; [|eapply wp_mono; [by apply wp_repostReceive|]].
  - intros f Hf. by left; left.
  - intros _ s' [Hc' _]. apply wp_ret. by exists G.
Qed.
Lemma connect_fine F : connect_ok cb_holds onEndpointConnect F.
Proof. intros f id G held s Hc. apply wp_ret. by exists G. Qed.

(** ** The witnesses *)
Definition acting : S := allocated (Nop LF_WAIT_LOOP_UNBLOCK) (cx0 [post0; post1] [] 0 false [] 1 (fun _ => x00)).

Lemma finish_action_correct_witness :
  wp never (finish_action callback 1) (fun r s' => r = LF_WAIT_LOOP_UNBLOCK /\ exists G', conn_ok cb_holds G' [] [] 0 s') acting.
Proof.
  eapply wp_mono.
  - apply (ConnectionPoll.finish_action_correct cb_holds callback never G0 [] 1 (new_PostAction (Nop LF_WAIT_LOOP_UNBLOCK)) acting).
    + apply callback_fine.
    + refine (proj2 (proj2 (conn_ok_new cb_holds G0 [] [] 1 _ _ _))). apply cx_with_ok.
      * simpl. apply NoDup_cons. split; [|apply NoDup_singleton]. by intros ?%list_elem_of_singleton.
      * intros id. simpl. rewrite !elem_of_cons, elem_of_nil. lia.
      * intros v. simpl. rewrite !elem_of_cons, elem_of_nil. intros [->|[->|[]]]; auto.
    + reflexivity.
  - intros r s' [(G' & _ & Hc) [_ Hr]]. split; [by apply Hr|by exists G'].
Defined.

Lemma onRecv_dispatches_witness :
  let s := handling false [] (received_ping 6) in
  onRecv 10 onMessage callback onEndpointConnect 0 s = onMessage tt (mkClientRequest 6 0 (ping 6) (opened s)) s.
Proof.
  apply (ConnectionPoll.onRecv_dispatches 10 onMessage callback onEndpointConnect 0 _ tt (ping 6)).
  - by apply opens.
  - by split_and!.
  - reflexivity.
  - reflexivity.
Defined.


Lemma onRecv_unknown_stops_witness :
  exists f, onRecv 10 onMessage callback onEndpointConnect 0 (handling true [(1, 5)] (received_ping 6)) = Abort f.
Proof.
  eapply (ConnectionPoll.onRecv_unknown_stops 10 onMessage callback onEndpointConnect 0 _ (ping 6)).
  - by apply opens.
  - by split_and!.
  - reflexivity.
  - reflexivity.
Defined.

Lemma completions_in_order_witness :
  wp never (run_queue 10 [PutAside; Take false; Take true; PutAside])
    (fun handled s' => ep_read (ep s') = handled ++ cqEntries (cx_conn s')) (polling false [hello0; hello0] 0).
Proof.
  eapply wp_mono.
  - apply (ConnectionLoop.completions_in_order 10 [PutAside; Take false; Take true; PutAside] (polling false [hello0; hello0] 0)). vm_compute. lia.
  - intros handled s' (read & Hr & He). rewrite Hr. exact He.
Defined.

Lemma pollAllCqInCache_terminates_witness :
  exists s1 s', (forall k, pollAllCqInCache (3 + k) (polling false [hello0] 0) = Ok (tt, s')) /\ queue_step false s1 = (None, s') /\
    drained (polling false [hello0] 0) s'.
Proof. apply (ConnectionLoop.pollAllCqInCache_terminates 3). vm_compute. lia. Defined.

Definition answer : LibfabricResponse := mkResponse 0 0 false 0 None 0.
Lemma sendMessage_correct_witness :
  wp pool_fault (let! a := new_action (Nop LF_WAIT_LOOP_KEEP_WAITING) in sendMessage 10 IOC_LF_MSG_OBJ_FLUSH_ACK 0 answer a)
    (fun _ s' => pendingAction (cx_conn s') = 1) (polling false [] 3).
Proof.
  eapply wp_mono.
  - apply (ConnectionLoop.sendMessage_correct cb_holds 10 G0 [] (polling false [] 3) (Nop LF_WAIT_LOOP_KEEP_WAITING) IOC_LF_MSG_OBJ_FLUSH_ACK 0 answer 5).
    + apply polling_ok.
    + apply patient_with; simpl; lia.
    + reflexivity.
    + apply (header_wf cb_holds IOC_LF_MSG_OBJ_FLUSH_ACK), ready_with.
    + by split_and!.
    + by vm_compute.
    + by vm_compute.
    + constructor.
  - intros _ s' (_ & Hp & _). exact Hp.
Defined.

Lemma poll_turn_ok_witness :
  wp stops (poll_turn 10 onMessage callback onEndpointConnect)
    (fun _ s' => exists G' lost', conn_ok cb_holds G' lost' [] 0 s') (polling false [hello0] 2).
Proof.
  eapply wp_mono.
  - apply (ConnectionLoop.poll_turn_ok cb_holds 10 onMessage callback onEndpointConnect stops G0 [] (polling false [hello0] 2)).
    + done.
    + apply callback_fine.
    + apply hooks_fine.
    + apply connect_fine.
    + apply polling_ok.
    + apply patient_with; simpl; lia.
    + apply ready_with.
    + done.
  - intros _ s' (G' & lost' & _ & Hc & _). by exists G', lost'.
Defined.

(** ** A refused RDMA operation *)

(** One registered region, two refusals. *)
Definition region : Domain := mkDomain [(buf0 + 1023, mkRegion buf0 1024 7)] true 1024 [].
Definition before_read : S :=
  mkCx (mkSys (mkNode [1024; 1024] [] [] [] [] 2 [] [] [] ∅ 0 ∅) 0 region) (fun _ => x00) ∅ 1 (conn_with hooks0 false [(0, 5)] 0) tt.
Definition read_all : M S bool :=
  rdmaRead 10 0 buf0 65536 11 1024 tt ;; poll_turn 10 onMessage callback onEndpointConnect.

Definition seen (r : res (bool * S)) :=
  match r with
  | Ok (b, s) => Some (b, ep_ops (ep s), pendingAction (cx_conn s), base.size (cx_actions s))
  | Abort _ => None
  end.

(** a RDMA operation allocates its action inside the loop on the refusals: the
    actions of the refused turns are never deleted.  After two refusals and the
    completion, nothing is under way, pendingAction is back to 0, and two actions
    are left. *)
Theorem rdma_refusals_leak :
  exists s, read_all before_read = Ok (false, s) /\ ep_ops (ep s) = [] /\ pendingAction (cx_conn s) = 0 /\ base.size (cx_actions s) = 2%nat.
Proof.
  assert (seen (read_all before_read) = Some (false, [], 0, 2%nat)) as Hs by by vm_compute.
  destruct (read_all before_read) as [[b s]|f]; [|done]. simpl in Hs. injection Hs as -> Ho Hp Hz. exists s. split_and!; [done|exact Ho|exact Hp|exact Hz].
Qed.
End ConnectionWitnesses.
