(* ===== verification/ServerWitnesses.v ===== *)
(** * The server on the concrete network

    A server of [FabricMachine] with two receive buffers, an empty cache over malloc
    and one object that has no segment yet; a request has been received in the first
    buffer.  The theorems on the handlers apply to it. *)

From Stdlib Require Import String.
From S2P Require Import Prelude StdMap Memory IntervalMap Serializer Protocol Interfaces ConsistencyTracker World WorldInv View Object ObjectAccess ObjectData ObjectFlush ObjectCow Container System Fabric LibfabricDomain ClientRegistry Connection Dispatch ConnectionInv ConnectionSend ConnectionPoll ConnectionRdma MemoryBackend MemoryCache Provider Hooks Requests ServerMemory ServerHooks ServerInv ServerRequests ServerWrites ServerControl ServerRdma ServerFetch FabricObjects ServerLife Machine FabricMachine Witnesses ConnectionWitnesses.

Module ServerWitnesses.
Import Serializer Protocol Object ObjectData Container LibfabricDomain ClientRegistry Connection Dispatch ConnectionInv ConnectionSend ConnectionPoll ConnectionRdma MemoryBackend MemoryCache Provider Requests ServerMemory ServerHooks ServerInv ServerRequests ServerWrites ServerControl ServerRdma ServerFetch Machine FabricMachine.

#[local] Existing Instance some_storage.
Abbreviation S := (Cx Node (option server_hook) rdma_done (App (Cache Malloc) Disk)).
Abbreviation buf0 := ConnectionWitnesses.buf0.
Abbreviation G0 := ConnectionWitnesses.G0.

(** The object 2 has no segment, the others do not exist. *)
Definition app0 : App (Cache Malloc) Disk :=
  mkApp (mkContainer [(id2, 1)] 4096 1 1) (new_Cache (mkMalloc true)) (mkDisk blank) ∅ 1 {[1 := obj2]} 2 ∅ 1 0 0.

(** The message [l] of the client 6 is in the buffer 0. *)
Definition head (t : LibfabricMessageType) : LibfabricMessageHeader := mkHeader (msg_code t) 6 8 9.
Definition received (t : LibfabricMessageType) (l : list byte) : mem :=
  wr (fun _ => x00) buf0 (m_bytes (fun _ => x00) (head t) ++ l).
Definition server_with hk remote (m : mem) : S := ConnectionWitnesses.cx_with hk app0 [ConnectionWitnesses.post1] [] 1 false remote 0 m.
Definition server (m : mem) : S := server_with ∅ [(6, 5)] m.
Definition request_of (t : LibfabricMessageType) (m : mem) : LibfabricClientRequest :=
  mkClientRequest 6 0 (head t) (mkSer m buf0 1024 32 SERIALIZER_UNPACK [] false true).

Lemma server_conn hk remote m : owned_ok ∅ (∅ ∪ G0) [0] [] 0 (server_with hk remote m).
Proof.
  rewrite map_empty_union. apply ConnectionWitnesses.cx_with_ok.
  - simpl. apply NoDup_cons. split; [|apply NoDup_singleton]. by intros ?%list_elem_of_singleton.
  - intros id. simpl. rewrite !elem_of_cons, elem_of_nil. lia.
  - intros v ->%list_elem_of_singleton. by right.
Qed.

Lemma cw_of_ok (s : S) ops next :
  cx_app s = set_ops ops next app0 -> sys_rep (cx_sys s) (∅ ∪ G0) -> cw_ok ∅ G0 (cx_sys s) (cw_of s).
Proof.
  intros Eapp Hrep. unfold cw_of. rewrite Eapp.
  assert (forall p o, ({[1 := obj2]} : gmap Z Object) !! p = Some o -> p = 1 /\ o = obj2) as Hob by (intros p o [<- <-]%lookup_singleton_Some; done).
  constructor; cbn [fst snd].
  - constructor; try done.
    + exists ∅. split; [|by constructor]. exists ∅, G0. split; [exact Hrep|].
      split; [apply map_disjoint_empty_l|]. split; [rewrite fmap_empty; by apply new_Cache_inv|]. by split_and!.
    + intros i Hi. by apply elem_of_nil in Hi.
    + by intros i [v Hv].
    + split; [done|]. intros p [o [-> _]%Hob]. done.
    + intros p o [-> ->]%Hob. constructor; try done. split; [done|]. apply Z.divide_refl.
  - repeat constructor.
  - intros i p Hp. rewrite sm_find_In in Hp by repeat constructor. destruct Hp as [[= <- <-]|[]]. by exists obj2.
  - by intros p o [-> ->]%Hob.
  - split; [done|]. apply Z.divide_refl.
  - done.
Qed.

Lemma server_with_ok hk remote m : server_ok ∅ G0 [0] [] 0 (server_with hk remote m).
Proof.
  constructor.
  - apply server_conn.
  - apply map_disjoint_empty_l.
  - intros p Hp. by apply elem_of_nil in Hp.
  - done.
  - intros p. simpl. rewrite !elem_of_cons. intros [->|[->|Hp]]; [by eexists; vm_compute|by eexists; vm_compute|by apply elem_of_nil in Hp].
  - apply (cw_of_ok _ ∅ 1); [done|]. exact (po_rep _ _ _ (co_pool _ _ _ _ _ _ (server_conn hk remote m))).
Qed.
Lemma server_is_ok m : server_ok ∅ G0 [0] [] 0 (server m).
Proof. apply server_with_ok. Qed.

Lemma server_idle m : idle ∅ (server m).
Proof. by intros a _ (p & n & r & Hp & _). Qed.
Lemma server_answerable n m : (1 < n)%nat -> answerable n (server m) 6 5.
Proof. intros Hn. constructor; [apply ConnectionWitnesses.patient_with; simpl; lia|apply ConnectionWitnesses.ready_with|done]. Qed.

Lemma server_request {T} `{Message T} t m (v : T) :
  message_at m buf0 1024 v -> request_at (server m) (request_of t m) v.
Proof. intros Hm. exists buf0. split; [done|]. split; [done|]. by exists buf0. Qed.

(** ** A flush *)
Definition flush2 : LibfabricObjFlushInfos := mkFlush (mkObjectId 2 0) 0 0.
Definition flush_mem : mem := received IOC_LF_MSG_OBJ_FLUSH (m_bytes (fun _ => x00) flush2).


(** ** A write that creates its object, and a read *)
Definition hello : list byte := [x48; x65; x6c; x6c; x6f].
Definition write5 : LibfabricObjReadWriteInfos := mkReadWrite (mkObjectId 5 0) (mkIov 0 0) 4094 5 true (buf0 + 81).
Definition write_mem : mem := received IOC_LF_MSG_OBJ_WRITE (m_bytes (wr (fun _ => x00) (buf0 + 81) hello) write5).
Definition read5 : LibfabricObjReadWriteInfos := mkReadWrite (mkObjectId 5 0) (mkIov 0 0) 16 5 false 0.
Definition read_mem : mem := received IOC_LF_MSG_OBJ_READ (m_bytes (fun _ => x00) read5).


Lemma server_read_witness :
  wp pool_fault (serve_read 10 (request_of IOC_LF_MSG_OBJ_READ read_mem))
    (fun r s' => exists msg, ep_sent (ep s') = [(5, msg)]) (server read_mem).
Proof.
  eapply wp_mono.
  - apply (server_read 10 ∅ G0 [] (server read_mem) (request_of IOC_LF_MSG_OBJ_READ read_mem) read5 5).
    + apply server_is_ok.
    + apply server_idle.
    + apply server_answerable. lia.
    + apply server_request. split; [by split_and!; vm_compute|]. split; [by vm_compute|]. by vm_compute.
    + by vm_compute.
    + by vm_compute.
    + by vm_compute.
    + change (fits 16 5 4096 /\ one_unit 16 5 4096). split; [unfold fits; rewrite two63_eq; lia|]. split; [lia|reflexivity].
  - intros r s' (_ & _ & _ & msg & Hs & _). by exists msg.
Defined.

(** ** Mapping a range, unmapping one, copying an object *)
Definition register5 : LibfabricRegisterRange := mkRegister (mkObjectId 5 0) 0 4096 true.
Definition register_mem : mem := received IOC_LF_MSG_OBJ_RANGE_REGISTER (m_bytes (fun _ => x00) register5).
Definition unregister5 : LibfabricUnregisterRange := mkUnregister (mkObjectId 5 0) 0 4096 1 true.
Definition unregister_mem : mem := received IOC_LF_MSG_OBJ_RANGE_UNREGISTER (m_bytes (fun _ => x00) unregister5).
Definition copy23 : LibfabricObjectCow := mkCow (mkObjectId 2 0) (mkObjectId 3 0) false 0 0.
Definition copy_mem : mem := received IOC_LF_MSG_OBJ_COW (m_bytes (fun _ => x00) copy23).


Lemma server_unregister_witness :
  wp pool_fault (serve_unregister 10 true (request_of IOC_LF_MSG_OBJ_RANGE_UNREGISTER unregister_mem))
    (fun r s' => ep_sent (ep s') = [(5, status_bytes IOC_LF_MSG_OBJ_RANGE_UNREGISTER_ACK (-1) (server unregister_mem))]) (server unregister_mem).
Proof.
  eapply wp_mono.
  - apply (server_unregister 10 ∅ G0 [] (server unregister_mem) (request_of IOC_LF_MSG_OBJ_RANGE_UNREGISTER unregister_mem) unregister5 5).
    + apply server_is_ok.
    + apply server_idle.
    + apply server_answerable. lia.
    + apply server_request. split; [by split_and!; vm_compute|]. split; [by vm_compute|]. by vm_compute.
  - intros r s' (_ & status & t' & Hs & [(_ & l1 & l2 & Hr & _)|(-> & _)] & _); [|exact Hs]. by destruct l1.
Defined.


(** ** A read by RDMA, and the completion of its last operation *)
Definition fuel_large : nat := Z.to_nat 50000.
Definition read_large : LibfabricObjReadWriteInfos := mkReadWrite (mkObjectId 5 0) (mkIov 4096 7) 0 40000 false 0.
Definition large_mem : mem := received IOC_LF_MSG_OBJ_READ (m_bytes (fun _ => x00) read_large).

Lemma server_read_rdma_witness :
  wp pool_fault (serve_read fuel_large (request_of IOC_LF_MSG_OBJ_READ large_mem))
    (fun r s' => ep_sent (ep s') = [] /\ exists l, ep_rmas (ep s') = l /\ l <> [] /\ ap_ops (cx_app s') = {[1 := Z.of_nat (length l)]}) (server large_mem).
Proof.
  eapply wp_mono.
  - apply (server_read_rdma fuel_large ∅ G0 [] (server large_mem) (request_of IOC_LF_MSG_OBJ_READ large_mem) read_large 5).
    + apply server_is_ok.
    + apply server_idle.
    + apply server_answerable. unfold fuel_large. lia.
    + apply server_request. split; [by split_and!; vm_compute|]. split; [by vm_compute|]. by vm_compute.
    + apply ConnectionWitnesses.patient_with; unfold fuel_large, read_large; simpl length; simpl rw_size; lia.
    + reflexivity.
    + reflexivity.
    + change (fits 0 40000 4096). unfold fits. rewrite two63_eq. lia.
    + by vm_compute.
    + by vm_compute.
  - intros r s' (_ & _ & _ & [(gs & l & Hs & Hl & Hne & _ & _ & _ & Ho & _)|[_ Hno]]); [|destruct Hno; apply Witnesses.disk_reads; by vm_compute].
    split; [exact Hs|]. exists l. split; [exact Hl|]. split; [exact Hne|]. rewrite Ho. by apply insert_empty.
Defined.

(** ** A write by RDMA: the server shows what is fetched. *)
Definition write_large : LibfabricObjReadWriteInfos := mkReadWrite (mkObjectId 5 0) (mkIov 4096 7) 100 40000 false 0.
Definition fetch_mem : mem := received IOC_LF_MSG_OBJ_WRITE (m_bytes (fun _ => x00) write_large).


Definition last_done : rdma_done := mkDone RDMA_WRITE 6 1 40000.
Definition transferring : S :=
  ConnectionWitnesses.cx_with ∅ (set_ops {[1 := 1]} 2 app0) [ConnectionWitnesses.post0; ConnectionWitnesses.post1] [] 1 false [(6, 5)] 1 (fun _ => x00).
Definition completing : S := allocated (Function last_done) transferring.

Lemma completing_ok : server_ok ∅ G0 [] [1] 1 completing.
Proof.
  assert (owned_ok ∅ (∅ ∪ G0) [] [1] 1 completing) as Hc.
  { rewrite map_empty_union. refine (proj2 (proj2 (conn_ok_new (users := owned ∅) no_holds G0 [] [] 1 transferring (Function last_done) _))). apply ConnectionWitnesses.cx_with_ok.
    - simpl. apply NoDup_cons. split; [|apply NoDup_singleton]. by intros ?%list_elem_of_singleton.
    - intros id. simpl. rewrite !elem_of_cons, elem_of_nil. lia.
    - intros v. simpl. rewrite !elem_of_cons, elem_of_nil. intros [->|[->|[]]]; auto. }
  constructor.
  - exact Hc.
  - apply map_disjoint_empty_l.
  - intros p Hp. by apply elem_of_nil in Hp.
  - intros a act. simpl. rewrite insert_empty. intros [_ <-]%lookup_singleton_Some. by left.
  - intros p. simpl. rewrite !elem_of_cons. intros [->|[->|Hp]]; [by eexists; vm_compute|by eexists; vm_compute|by apply elem_of_nil in Hp].
  - apply (cw_of_ok _ {[1 := 1]} 2); [done|]. exact (po_rep _ _ _ (co_pool _ _ _ _ _ _ Hc)).
Qed.

Lemma server_rdma_completes_witness :
  wp pool_fault (finish_action (onRdmaDone 10) 1)
    (fun r s' => ep_sent (ep s') = [(5, status_bytes IOC_LF_MSG_OBJ_READ_WRITE_ACK 0 completing)] /\ ap_ops (cx_app s') = ∅ /\ cx_actions s' !! 1 = None) completing.
Proof.
  eapply wp_mono.
  - apply (server_rdma_completes 10 (fun _ => False) ∅ G0 [] completing 1 last_done 1 5).
    + apply completing_ok.
    + by intros a _ (p & n & r & Hp & _).
    + constructor; [split; unfold ep, ep_busy; simpl; lia| |done]. destruct (ConnectionWitnesses.ready_with (Hook := server_hook) ∅ (set_ops {[1 := 1]} 2 app0)
        no_holds [ConnectionWitnesses.post0; ConnectionWitnesses.post1] [] 1 false [(6, 5)] 1 (fun _ => x00)). by constructor.
    + reflexivity.
    + reflexivity.
  - intros r s' (_ & _ & Ha & _ & Hs & Ho). split; [exact Hs|]. split; [rewrite Ho; by vm_compute|exact Ha].
Defined.

(** ** The end of the server *)
Lemma server_deleted_witness :
  wp never (ServerLife.delete_Server 10 true (fun _ => ret LF_WAIT_LOOP_KEEP_WAITING) (fun _ _ => ret tt) 1 domain0 endpoint0)
    (fun _ s' => lc_live (s_ext (cx_sys s')) = ∅ /\ n_objects (s_ext (cx_sys s')) = ∅) (server (fun _ => x00)).
Proof.
  eapply wp_mono.
  - apply (ServerLife.server_deleted 10 true (fun _ => ret LF_WAIT_LOOP_KEEP_WAITING) (fun _ _ => ret tt) 1 ∅ G0 [0] domain0 endpoint0 ∅ (server (fun _ => x00))).
    + apply server_is_ok.
    + reflexivity.
    + apply (bool_decide_unpack _). by vm_compute.
    + lia.
    + intros k l h Hk. done.
    + apply domain0_over.
    + apply endpoint0_over.
    + reflexivity.
    + reflexivity.
    + constructor; [constructor|constructor|reflexivity].
  - intros u s' (_ & _ & Hl & Ho). split; [|exact Ho]. refine (eq_trans Hl _). by vm_compute.
Defined.
End ServerWitnesses.
