(* ===== verification/PingWitnesses.v ===== *)
(** * Pings on the concrete network

    The theorems on the RDMA operations and on the ping-pong at concrete inputs, and
    a run that shows what a larger ping does to the one before. *)

From Stdlib Require Import String.
From S2P Require Import Prelude StdMap Memory IntervalMap Serializer Protocol System Fabric LibfabricDomain ClientRegistry Connection Dispatch ConnectionInv ConnectionSend ConnectionPoll ConnectionRdma PingPong Machine FabricMachine Witnesses ConnectionWitnesses.

Module PingWitnesses.
Import Serializer Protocol LibfabricDomain ClientRegistry Connection Dispatch ConnectionInv ConnectionSend ConnectionPoll ConnectionRdma PingPong Machine FabricMachine.

#[local] Existing Instance some_storage.
Abbreviation S := (Cx Node (option unit) pong HookPingPong).
Abbreviation buf0 := ConnectionWitnesses.buf0.
Abbreviation buf1 := ConnectionWitnesses.buf1.

(** Two pings have been received from the client 6, of 8 and of 16 bytes by RDMA. *)
Definition ping_message (n : Z) : list byte :=
  m_bytes (fun _ => x00) (mkHeader (msg_code IOC_LF_MSG_PING) 6 8 9) ++ m_bytes (fun _ => x00) (mkPing n 0 (mkIov 65536 11) 0).
Definition two_pings : mem := wr (wr (fun _ => x00) buf0 (ping_message 8)) buf1 (ping_message 16).
Definition pinged : S := ConnectionWitnesses.cx_with ∅ new_HookPingPong [] [] 0 false [(6, 5)] 0 two_pings.

Definition serve (id : Z) : M S LibfabricActionResult :=
  let! r := open_message id in HookPingPong_onMessage 10 (mkClientRequest (hdr_lfClientId r.1) id r.1 r.2).

(** The memory that libfabric may write, which of it is not allocated any more, and
    the size of the buffer of the hook. *)
Definition written (r : res (LibfabricActionResult * S)) : option (list (Z * Z) * list bool * Z) :=
  match r with
  | Ok (_, s) =>
      let x := s_ext (cx_sys s) in
      Some (n_targets x, (fun v => bool_decide (lc_live x !! v.1 = None)) <$> n_targets x, pp_bufferSize (cx_app s))
  | Abort _ => None
  end.

(** a ping larger than the one before frees the buffer of the hook while the RDMA
    read of the first ping is under way: libfabric still writes in it. *)
Theorem ping_frees_under_rdma :
  written (serve 0 pinged) = Some ([(slot_addr 2, 8)], [false], 8) /\
  written ((serve 0 ;; serve 1) pinged) = Some ([(slot_addr 3, 16); (slot_addr 2, 8)], [false; true], 16).
Proof. split; by vm_compute. Qed.

(** ** A transfer *)

(** An endpoint with a registered block beside its receive buffers, that libfabric
    refuses twice. *)
Definition block : Z := slot_addr 2.
Definition the_block : Users := fun p => p = block.
#[local] Existing Instance the_block.
Definition G1 : heap := <[block := (1024, true)]> ConnectionWitnesses.G0.
Definition fetching : S :=
  mkCx (mkSys (mkNode [1024; 1024; 1024] [] [ConnectionWitnesses.post1] [] [] 2 [] [] [] ∅ 0 ∅) 0 (mkDomain [(block + 1023, mkRegion block 1024 7)] true 1024 []))
    (fun _ => x00) ∅ 1 (ConnectionWitnesses.conn_with ∅ false [(6, 5)] 0) new_HookPingPong.
Definition first_ping : pong := mkPong 6 0 8.

Lemma fetching_ok : conn_ok pong_holds G1 (pong_holds first_ping ++ []) [] 0 fetching.
Proof.
  assert (all_recvs pong_holds fetching (pong_holds first_ping ++ []) = [1; 0]) as Hall by done.
  constructor; rewrite ?Hall; try done.
  - constructor; try done; [|constructor|intros p Hp; by apply elem_of_nil in Hp]. constructor.
    + by vm_compute.
    + simpl. unfold IntervalMap.iend. simpl. split_and!; [by vm_compute|done|lia|done].
    + intros p n. split.
      * unfold G1. intros [[<- [= <-]]|[_ Hg]]%lookup_insert_Some; [exists (block + 1023), 7; by left|]. exfalso. revert Hg. unfold ConnectionWitnesses.G0.
        by intros [[_ [=]]|[_ [_ [=]]%lookup_singleton_Some]]%lookup_insert_Some.
      * intros (k & mr & [[= <- <- <- <-]|[]]). by vm_compute.
  - intros a (v & [Hin|Hin] & Hr); simpl in Hin; [by apply elem_of_nil in Hin|]. apply list_elem_of_singleton in Hin as ->.
    exists buf1, 1024, false. split; [by vm_compute|]. split; [exact Hr|by apply not_elem_of_nil].
  - constructor.
  - intros a Ha. by apply elem_of_nil in Ha.
  - apply NoDup_cons. split; [|apply NoDup_singleton]. by intros ?%list_elem_of_singleton.
  - intros id. rewrite !elem_of_cons, elem_of_nil. simpl. lia.
  - intros p. simpl. rewrite !elem_of_cons. intros [->|[->|Hp]]; [by vm_compute|by vm_compute|by apply elem_of_nil in Hp].
  - intros p n. unfold G1. intros [[<- _]|[_ Hg]]%lookup_insert_Some; [by left|]. exfalso. revert Hg. unfold ConnectionWitnesses.G0.
    by intros [[_ [=]]|[_ [_ [=]]%lookup_singleton_Some]]%lookup_insert_Some.
  - intros id. rewrite !elem_of_cons, elem_of_nil. simpl. lia.
Qed.

Lemma rdma_correct_witness :
  wp resource (transfer 10 RDMA_READ 6 [(block, 8)] 65536 11 first_ping) (fun _ s' => pendingAction (cx_conn s') = 1) fetching.
Proof.
  eapply wp_mono.
  - apply (rdma_correct pong_holds 10 G1 [] fetching RDMA_READ 6 [(block, 8)] 65536 11 first_ping 5).
    + apply fetching_ok.
    + by vm_compute; split; lia.
    + reflexivity.
    + discriminate.
    + apply Forall_singleton. exists 7. reflexivity.
    + apply Forall_singleton. exists block, 1024, true. split; [by vm_compute|]. split; [done|]. split; [simpl; lia|by apply not_elem_of_nil].
  - intros _ s' (_ & Hp & _). exact Hp.
Defined.
End PingWitnesses.
