(* ===== verification/ClientWitnesses.v ===== *)
(** * The client on the concrete network

    The theorems on the actions of the client applied to an endpoint of
    [FabricMachine], and a run of one of them until its answer. *)

From Stdlib Require Import String.
From S2P Require Import Prelude StdMap Memory Serializer Protocol System Fabric LibfabricDomain ClientRegistry Connection Dispatch ConnectionInv ConnectionSend ConnectionOpen ConnectionPoll ConnectionLoop Client ClientRdma ClientSession Machine FabricMachine ConnectionWitnesses.

Module ClientWitnesses.
Import Serializer Protocol LibfabricDomain ClientRegistry Connection Dispatch ConnectionInv ConnectionSend ConnectionPoll ConnectionLoop Machine FabricMachine ConnectionWitnesses.

#[local] Existing Instance some_storage.
#[local] Existing Instance no_users.
Abbreviation S := (Cx Node (option unit) Empty_set unit).

Definition blank : mem := fun _ => x00.
Definition object1 : LibfabricObjectId := mkObjectId 1 0.
(** The answer of the server: the status -5. *)
Definition refusal : list byte :=
  m_bytes blank (mkHeader (msg_code IOC_LF_MSG_OBJ_FLUSH_ACK) 0 0 0) ++ m_bytes blank (mkResponse 0 (-5) false 0 None 0).
(** One refusal of libfabric, then the answer. *)
Definition client0 : S := cx_with ∅ tt [post0; post1] [refusal] 1 false [(0, 5)] 0 blank.

Lemma client_action_correct_witness :
  wp Client.pending (Client.perform 10 (Client.AFlush object1 0 4096))
    (fun _ s' => ep_sent (ep s') = [(5, Client.wire client0 (Client.AFlush object1 0 4096))]) client0.
Proof.
  eapply wp_mono.
  - apply (Client.client_action_correct 10 (Client.AFlush object1 0 4096) G0 client0 5).
    + apply both_posted.
    + apply patient_with; simpl; lia.
    + apply ready_with.
    + reflexivity.
    + reflexivity.
    + by split_and!.
    + simpl. lia.
    + simpl. lia.
  - intros status s' (Hs & _). exact Hs.
Defined.

Lemma client_write_correct_witness :
  wp Client.pending (Client.obj_write 10 object1 buf1 5 4094) (fun _ s' => length (ep_sent (ep s')) = 1%nat) client0.
Proof.
  eapply wp_mono.
  - apply (Client.client_write_correct 10 G0 client0 object1 buf1 5 4094 5).
    + by vm_compute.
    + apply both_posted.
    + apply patient_with; simpl; lia.
    + apply ready_with.
    + reflexivity.
    + reflexivity.
    + by split_and!.
    + exists buf1, 1024, false. split; [reflexivity|]. simpl. split; [lia|]. split; [lia|]. by apply not_elem_of_nil.
    + by vm_compute.
    + by vm_compute.
  - intros status s' (Hs & _). by rewrite Hs.
Defined.

Lemma client_read_correct_witness :
  wp Client.pending (Client.obj_read 10 object1 buf1 5 4094) (fun _ s' => length (ep_sent (ep s')) = 1%nat) client0.
Proof.
  eapply wp_mono.
  - apply (Client.client_read_correct 10 G0 client0 object1 buf1 5 4094 5).
    + by vm_compute.
    + apply both_posted.
    + apply patient_with; simpl; lia.
    + apply ready_with.
    + reflexivity.
    + reflexivity.
    + by split_and!.
    + by vm_compute.
    + by vm_compute.
  - intros status s' (Hs & _). by rewrite Hs.
Defined.

(** A block of 40000 bytes that the caller allocates, and writes. *)
Definition block : Z := slot_addr 2.
Definition client1 : S := with_ext (lc_malloc 40000 (s_ext (cx_sys client0))).2 client0.


(** with an answer on its way, obj_flush returns its status: the request was
    sent once, after one refusal of libfabric, and both receive buffers are posted
    again; the completion of the request is still to come. *)
Theorem client_flush_returns :
  exists s, Client.obj_flush 10 object1 0 4096 client0 = Ok (-5, s) /\
    ep_sent (ep s) = [(5, Client.wire client0 (Client.AFlush object1 0 4096))] /\ ep_recvs (ep s) = [0; 1] /\
    pendingAction (cx_conn s) = 1.
Proof.
  assert (match Client.obj_flush 10 object1 0 4096 client0 with
          | Ok (r, s) => Some (r, ep_sent (ep s), ep_recvs (ep s), pendingAction (cx_conn s)) | Abort _ => None end =
    Some (-5, [(5, Client.wire client0 (Client.AFlush object1 0 4096))], [0; 1], 1)) as Hs by by vm_compute.
  destruct (Client.obj_flush 10 object1 0 4096 client0) as [[r s]|f]; [|done]. injection Hs as -> H1 H2 H3. exists s. split_and!; [done|exact H1|exact H2|exact H3].
Qed.

(** A server that gives the number 3 to the client, then answers its two calls. *)
Definition welcome : list byte := m_bytes blank (mkHeader (msg_code IOC_LF_MSG_ASSIGN_ID) 0 0 0) ++ m_bytes blank (mkHandshake IOC_LF_PROTOCOL_VERSION 3).
Definition created : list byte :=
  m_bytes blank (mkHeader (msg_code IOC_LF_MSG_OBJ_CREATE_ACK) 0 0 0) ++ m_bytes blank (mkResponse 0 0 false 0 None 0).
Definition newcomer : Cx Node (option Empty_set) Empty_set ClientSession.ioc_client_s :=
  mkCx (mkSys (mkNode [] [] [] [] [] 1 [welcome; created; refusal] [] [] ∅ 0 ∅) 0 (new_domain "sockets")) blank ∅ 1 (new_Connection false)
    (ClientSession.mkIocClient 0 0 0 false true).
Abbreviation two_calls := [ClientSession.CCreate 0 1; ClientSession.CFlush 0 1 0 4096].
Abbreviation client_program := (ClientSession.ioc_client_init "tcp;ofi_rxm" 7 42 ;; ClientSession.run_calls 20 10 [] two_calls).
Lemma client_program_returns : match client_program newcomer with Ok (r, _) => Some r | Abort _ => None end = Some [0; -5].
Proof. by vm_compute. Qed.

Lemma client_session_witness :
  exists s' id addr s1, client_program newcomer = Ok ([0; -5], s') /\ ClientSession.served id addr two_calls [0; -5] s1 s' /\
    ClientSession.session 20 true 0 id addr s'.
Proof.
  assert (ConnectionOpen.fresh newcomer) as Hfr by (constructor; try done; intros a (v & [Hv|Hv] & _); by apply elem_of_nil in Hv).
  destruct (wp_returns _ _ _ _ (ClientSession.client_session 20 10 [] "tcp;ofi_rxm" 7 42 (ClientSession.CCreate 0 1) [ClientSession.CFlush 0 1 0 4096] newcomer Hfr
    ltac:(done) ltac:(done) ltac:(repeat constructor; done) ltac:(simpl; lia) ltac:(simpl; lia))) as (r & s' & Hrun & id & addr & s0 & s1 & _ & _ & _ & _ & Hsv & Hss).
  - vm_compute. reflexivity.
  - pose proof client_program_returns as Hr. rewrite Hrun in Hr. injection Hr as ->. exists s', id, addr, s1. split; [exact Hrun|]. split; [exact Hsv|exact Hss].
Defined.
End ClientWitnesses.
