(* ===== verification/EndToEndWitnesses.v ===== *)
(** * A client and the server on the concrete network

    The client of [ClientWitnesses] calls the server of [ServerWitnesses]: the bytes that
    it sends are put in the first receive buffer of the server, which knows it as the
    client 0. *)

From Stdlib Require Import String.
From S2P Require Import Prelude StdMap Memory Serializer Protocol Interfaces World View Object ObjectData Container System Fabric LibfabricDomain ClientRegistry Connection Dispatch ConnectionInv ConnectionSend ConnectionPoll ConnectionLoop Client MemoryBackend MemoryCache Provider Hooks Requests ServerMemory ServerHooks ServerInv ServerRequests ServerWrites EndToEnd Machine FabricMachine Witnesses ConnectionWitnesses ServerWitnesses ClientWitnesses.

Module EndToEndWitnesses.
Import Serializer Protocol Object ObjectData Container LibfabricDomain ClientRegistry Connection Dispatch ConnectionInv ConnectionSend ConnectionPoll ConnectionLoop MemoryBackend MemoryCache Provider Requests ServerMemory ServerHooks ServerInv EndToEnd Machine FabricMachine.

#[local] Existing Instance some_storage.
#[local] Existing Instance no_users.
Abbreviation G0 := ConnectionWitnesses.G0.
Abbreviation buf0 := ConnectionWitnesses.buf0.
Abbreviation buf1 := ConnectionWitnesses.buf1.
Abbreviation client0 := ClientWitnesses.client0.
Abbreviation object1 := ClientWitnesses.object1.

Definition hook_table : gmap Z (option server_hook) :=
  <[msg_code IOC_LF_MSG_OBJ_WRITE := Some HookObjectWrite]> {[msg_code IOC_LF_MSG_OBJ_READ := Some HookObjectRead]}.
(** The server that has received [bytes]. *)
Definition receiver (bytes : list byte) : ServerWitnesses.S := ServerWitnesses.server_with hook_table [(0, 5)] (wr (fun _ => x00) buf0 bytes).

Lemma receiver_delivered t k bytes :
  hook_table !! msg_code t = Some (Some k) -> blen bytes <= 1024 ->
  delivered 10 (fillProtocolHeader (msg_code t) (cx_conn client0)) k bytes ∅ G0 [] 0 5 (receiver bytes).
Proof.
  intros Hk Hl. constructor; try done.
  - apply ServerWitnesses.server_with_ok.
  - by intros a _ (p & n & r & Hp & _).
  - constructor; [apply ConnectionWitnesses.patient_with; simpl; lia|apply ConnectionWitnesses.ready_with|done].
  - exists buf0. split; [done|apply rd_wr].
Qed.

Definition no_ping (_ : LibfabricClientRequest) : M ServerWitnesses.S LibfabricActionResult := ret LF_WAIT_LOOP_KEEP_WAITING.
Definition no_connect (_ : rdma_done) (_ : Z) : M ServerWitnesses.S unit := ret tt.

(** The client writes five bytes across two units of alignement of an object that the
    server does not have yet. *)
Definition write_bytes : list byte :=
  m_bytes (cx_mem client0) (fillProtocolHeader (msg_code IOC_LF_MSG_OBJ_WRITE) (cx_conn client0)) ++
  m_bytes (cx_mem client0) (Client.write_request object1 buf1 5 4094).


Definition read_bytes : list byte :=
  m_bytes (cx_mem client0) (fillProtocolHeader (msg_code IOC_LF_MSG_OBJ_READ) (cx_conn client0)) ++
  m_bytes (cx_mem client0) (Client.read_request object1 5 16).

End EndToEndWitnesses.
