(* ===== verification/ClientPool.v ===== *)
(** * The connections of a client

    Model of the pool of src/src/client/ioc-client.cpp: the threads of a program
    share at most IOC_CLIENT_MAX_CONN connections, guarded by a semaphore, a mutex
    and the mark [used] of each connection.  A step is one access of one thread to
    this shared state; the threads interleave in any way.  The marks are read and
    written one at a time: ioc_client_ret_connection clears one without the mutex,
    while another thread may be searching. *)

From S2P Require Import Prelude.
From stdpp Require Import relations.

Module ClientPool.

Definition IOC_CLIENT_MAX_CONN : nat := 8.

(** Where a thread is. *)
Inductive pc : Type :=
| Idle
| Waiting                 (** ioc_client_get_connection, after sem_wait *)
| Searching (i : nat)     (** in the loop, with the mutex, before [getUsed] of the connection [i] *)
| Found (i : nat)         (** before [setUsed(true)] *)
| Using (c : nat)         (** the connection is returned to the caller *)
| Returning               (** ioc_client_ret_connection, after [setUsed(false)] *)
| Closing (k : nat)       (** ioc_client_fini, after [k] sem_wait *)
| Closed.                 (** everything is deleted *)
#[export] Instance pc_eq_dec : EqDecision pc.
Proof. solve_decision. Defined.

(** The part of struct ioc_client_s the threads share. *)
Record Pool : Type := mkPool {
  connections_semaphore : nat;
  connections_mutex : option nat;    (** the thread that has it *)
  connections : list bool;           (** [used] of each connection *)
  threads : list pc;
}.

Definition move (t : nat) (p : pc) (s : Pool) : Pool :=
  mkPool (connections_semaphore s) (connections_mutex s) (connections s) (<[t := p]> (threads s)).
Definition set_sem (n : nat) (s : Pool) : Pool := mkPool n (connections_mutex s) (connections s) (threads s).
Definition set_mutex (m : option nat) (s : Pool) : Pool := mkPool (connections_semaphore s) m (connections s) (threads s).
Definition set_used (l : list bool) (s : Pool) : Pool := mkPool (connections_semaphore s) (connections_mutex s) l (threads s).

(** sem_wait, sem_post, and the lock: [None] is a thread that is blocked *)
Definition sem_wait (s : Pool) : option Pool :=
  match connections_semaphore s with O => None | S n => Some (set_sem n s) end.
Definition sem_post (s : Pool) : Pool := set_sem (S (connections_semaphore s)) s.
Definition lock (t : nat) (s : Pool) : option Pool :=
  match connections_mutex s with None => Some (set_mutex (Some t) s) | Some _ => None end.

(** ioc_client_get_connection *)
Definition ioc_client_get_connection (t : nat) (p : pc) (s : Pool) : option Pool :=
  match p with
  | Idle => s' ← sem_wait s; Some (move t Waiting s')
  | Waiting => s' ← lock t s; Some (move t (Searching 0) s')
  | Searching i =>
      match connections s !! i with
      | Some false => Some (move t (Found i) s)
      | Some true => Some (move t (Searching (S i)) s)
      | None => Some (move t (Using (length (connections s))) (set_mutex None (set_used (connections s ++ [true]) s)))
      end
  | Found i => Some (move t (Using i) (set_mutex None (set_used (<[i := true]> (connections s)) s)))
  | _ => None
  end.

(** ioc_client_ret_connection *)
Definition ioc_client_ret_connection (t : nat) (p : pc) (s : Pool) : option Pool :=
  match p with
  | Using c => Some (move t Returning (set_used (<[c := false]> (connections s)) s))
  | Returning => Some (move t Idle (sem_post s))
  | _ => None
  end.

(** ioc_client_fini *)
Definition ioc_client_fini (t : nat) (p : pc) (s : Pool) : option Pool :=
  match p with
  | Idle => Some (move t (Closing 0) s)
  | Closing k =>
      if decide (k < IOC_CLIENT_MAX_CONN)%nat then s' ← sem_wait s; Some (move t (Closing (S k)) s')
      else s' ← lock t s; Some (move t Closed (set_used [] s'))
  | _ => None
  end.

Inductive call : Type := GetConnection | RetConnection | Fini.

Definition run (t : nat) (f : call) (s : Pool) : option Pool :=
  p ← threads s !! t;
  match f with
  | GetConnection => ioc_client_get_connection t p s
  | RetConnection => ioc_client_ret_connection t p s
  | Fini => ioc_client_fini t p s
  end.

Definition step (s s' : Pool) : Prop := exists t f, run t f s = Some s'.

(** ioc_client_init, with [n] threads *)
Definition ioc_client_init (n : nat) : Pool := mkPool IOC_CLIENT_MAX_CONN None [] (replicate n Idle).
Definition reachable (n : nat) : Pool -> Prop := rtc step (ioc_client_init n).

(** ** The invariant *)
Definition permits (p : pc) : nat :=
  match p with Idle => 0 | Closing k => k | Closed => IOC_CLIENT_MAX_CONN | _ => 1 end.
Definition uses (p : pc) : nat := match p with Using _ => 1 | _ => 0 end.
Definition holds_mutex (p : pc) : bool := match p with Searching _ | Found _ | Closed => true | _ => false end.
Definition count (l : list bool) : nat := sum_list_with (fun b : bool => if b then 1%nat else 0%nat) l.

Record pool_ok (s : Pool) : Prop := {
  po_permits : (connections_semaphore s + sum_list_with permits (threads s) = IOC_CLIENT_MAX_CONN)%nat;
  po_count : count (connections s) = sum_list_with uses (threads s);
  po_mutex : forall t, connections_mutex s = Some t <-> exists p, threads s !! t = Some p /\ holds_mutex p = true;
  po_uses : forall t c, threads s !! t = Some (Using c) -> connections s !! c = Some true;
  po_excl : forall t t' c, threads s !! t = Some (Using c) -> threads s !! t' = Some (Using c) -> t = t';
  po_search : forall t i, threads s !! t = Some (Searching i) ->
    (i <= length (connections s))%nat /\ (i + count (drop i (connections s)) < IOC_CLIENT_MAX_CONN)%nat;
  po_found : forall t i, threads s !! t = Some (Found i) -> connections s !! i = Some false;
  po_length : (length (connections s) <= IOC_CLIENT_MAX_CONN)%nat;
}.

Lemma sum_insert {A} (f : A -> nat) l t x y :
  l !! t = Some x -> (sum_list_with f (<[t := y]> l) + f x = sum_list_with f l + f y)%nat.
Proof.
  revert t. induction l as [|a l IH]; intros [|t] Hx; simplify_eq/=; [lia|]. specialize (IH _ Hx). lia.
Qed.
Lemma count_app l l' : count (l ++ l') = (count l + count l')%nat.
Proof. apply sum_list_with_app. Qed.
Lemma count_insert (l : list bool) (c : nat) (b b' : bool) : l !! c = Some b -> (count (<[c := b']> l) + (if b then 1 else 0) = count l + (if b' then 1 else 0))%nat.
Proof. apply sum_insert. Qed.
Lemma count_drop_true l i : l !! i = Some true -> count (drop i l) = S (count (drop (S i) l)).
Proof. intros Hi. by rewrite (drop_S _ _ _ Hi). Qed.
Lemma count_drop_clear l c i : l !! c = Some true -> (count (drop i (<[c := false]> l)) <= count (drop i l))%nat.
Proof.
  intros Hc. destruct (decide (c < i)%nat) as [Hlt|Hge]; [by rewrite drop_insert_lt|].
  rewrite drop_insert_ge by lia. assert (drop i l !! (c - i)%nat = Some true) as Hd by (rewrite lookup_drop; by replace (i + (c - i))%nat with c by lia).
  pose proof (count_insert _ _ _ false Hd) as Hn. simpl in Hn. lia.
Qed.
Lemma uses_permits l t p : l !! t = Some p -> (uses p < permits p)%nat -> (sum_list_with uses l < sum_list_with permits l)%nat.
Proof.
  assert (forall l, (sum_list_with uses l <= sum_list_with permits l)%nat) as Hle.
  { induction l0 as [|[] l0 IH]; simpl; lia. }
  revert t. induction l as [|a l IH]; intros [|t] Hp Hlt; simplify_eq/=.
  - specialize (Hle l). lia.
  - specialize (IH _ Hp Hlt). destruct a; simpl in *; lia.
Qed.
Lemma permits_all l t p q u : l !! t = Some p -> l !! u = Some q -> t <> u -> (permits p + permits q <= sum_list_with permits l)%nat.
Proof.
  revert t u. induction l as [|a l IH]; intros [|t] [|u] Hp Hq Hne; simplify_eq/=; try done.
  - clear IH Hne. enough (permits q <= sum_list_with permits l)%nat by lia. revert u Hq. induction l as [|b l IH]; intros [|u] Hq; simplify_eq/=; [lia|].
    specialize (IH _ Hq). lia.
  - clear IH Hne. enough (permits p <= sum_list_with permits l)%nat by lia. revert t Hp. induction l as [|b l IH]; intros [|t] Hp; simplify_eq/=; [lia|].
    specialize (IH _ Hp). lia.
  - enough (permits p + permits q <= sum_list_with permits l)%nat by lia. eapply IH; [exact Hp|exact Hq|congruence].
Qed.

(** ** Every step keeps it *)

(** The thread [u] after the thread [t] has moved. *)
Ltac moved H := rewrite list_lookup_insert_Some in H; destruct H as [(? & ? & _)|[? H]]; simplify_eq.

(** The steps that leave the connections alone. *)
Lemma move_ok t p q s sem mtx :
  pool_ok s -> threads s !! t = Some p -> (sem + permits q = connections_semaphore s + permits p)%nat ->
  uses p = 0%nat -> uses q = 0%nat ->
  (holds_mutex p = holds_mutex q /\ mtx = connections_mutex s \/
   holds_mutex p = false /\ holds_mutex q = true /\ connections_mutex s = None /\ mtx = Some t) ->
  (forall i, q = Searching i -> (i <= length (connections s))%nat /\ (i + count (drop i (connections s)) < IOC_CLIENT_MAX_CONN)%nat) ->
  (forall i, q = Found i -> connections s !! i = Some false) ->
  pool_ok (mkPool sem mtx (connections s) (<[t := q]> (threads s))).
Proof.
  intros [] Hp Hsem Hu Hu' Hm Hse Hfo. assert (t < length (threads s))%nat as Hlt by by eapply lookup_lt_Some.
  assert (forall u c, <[t := q]> (threads s) !! u = Some (Using c) -> threads s !! u = Some (Using c)) as Huse.
  { intros u c Hc. rewrite list_lookup_insert_Some in Hc. destruct Hc as [(_ & -> & _)|[_ Hc]]; [done|exact Hc]. }
  constructor; simpl; try done.
  - pose proof (sum_insert permits _ _ _ q Hp). lia.
  - pose proof (sum_insert uses _ _ _ q Hp). lia.
  - intros u. destruct Hm as [[Heq ->]|(Hpf & Hqt & Hnone & ->)].
    + rewrite po_mutex0. split; intros (r & Hr & Hh).
      * destruct (decide (t = u)) as [->|Hne]; [exists q; rewrite list_lookup_insert_eq by done; simplify_eq; by rewrite <- Heq|].
        exists r. by rewrite list_lookup_insert_ne.
      * destruct (decide (t = u)) as [->|Hne]; [rewrite list_lookup_insert_eq in Hr by done; simplify_eq; exists p; by rewrite Heq|].
        exists r. by rewrite list_lookup_insert_ne in Hr.
    + split.
      * intros [= <-]. exists q. by rewrite list_lookup_insert_eq.
      * intros (r & Hr & Hh). destruct (decide (t = u)) as [->|Hne]; [done|]. rewrite list_lookup_insert_ne in Hr by done.
        assert (connections_mutex s = Some u) by (apply po_mutex0; eauto). congruence.
  - eauto.
  - eauto.
  - intros u i Hi. rewrite list_lookup_insert_Some in Hi. destruct Hi as [(_ & -> & _)|[_ Hi]]; eauto.
  - intros u i Hi. rewrite list_lookup_insert_Some in Hi. destruct Hi as [(_ & -> & _)|[_ Hi]]; eauto.
Qed.

(** One thread at most has the mutex. *)
Lemma mutex_unique s t u p q :
  pool_ok s -> threads s !! t = Some p -> threads s !! u = Some q -> holds_mutex p = true -> holds_mutex q = true -> t = u.
Proof.
  intros [] Hp Hq Hhp Hhq. assert (connections_mutex s = Some t) as E1 by (apply po_mutex0; eauto).
  assert (connections_mutex s = Some u) as E2 by (apply po_mutex0; eauto). congruence.
Qed.

(** The mutex is released with a connection: [l] are the marks then. *)
Lemma take_ok t p c s l :
  pool_ok s -> threads s !! t = Some p -> holds_mutex p = true -> permits p = 1%nat ->
  count l = S (count (connections s)) -> (length l <= IOC_CLIENT_MAX_CONN)%nat -> l !! c = Some true ->
  (forall c', c' <> c -> connections s !! c' = Some true -> l !! c' = Some true) -> connections s !! c <> Some true ->
  pool_ok (mkPool (connections_semaphore s) None l (<[t := Using c]> (threads s))).
Proof.
  intros Hok Hp Hh Hper Hcnt Hlen Hc Hother Hfree. pose proof Hok as []. assert (t < length (threads s))%nat as Hlt by by eapply lookup_lt_Some.
  assert (uses p = 0%nat) as Hu by by destruct p.
  assert (forall u q, <[t := Using c]> (threads s) !! u = Some q -> holds_mutex q = false) as Hnone.
  { intros u q Hq. rewrite list_lookup_insert_Some in Hq. destruct Hq as [(_ & <- & _)|[Hne Hq]]; [done|].
    apply not_true_is_false. intros Hhq. apply Hne. by eapply mutex_unique. }
  constructor; simpl; try done.
  - pose proof (sum_insert permits _ _ _ (Using c) Hp). simpl in *. lia.
  - pose proof (sum_insert uses _ _ _ (Using c) Hp). simpl in *. lia.
  - intros u. split; [done|]. intros (q & Hq & Hhq). apply Hnone in Hq. congruence.
  - intros u c' Hu'. rewrite list_lookup_insert_Some in Hu'. destruct Hu' as [(_ & [= <-] & _)|[_ Hu']]; [done|].
    pose proof (po_uses0 _ _ Hu'). apply Hother; [|done]. intros ->. done.
  - assert (forall u c', t <> u -> threads s !! u = Some (Using c') -> c' <> c) as Hdiff.
    { intros u c' _ Hu' ->. apply Hfree. by eapply po_uses0. }
    intros u u' c' H1 H2. rewrite list_lookup_insert_Some in H1, H2.
    destruct H1 as [(<- & [= <-] & _)|[Hne1 H1]], H2 as [(<- & E2 & _)|[Hne2 H2]]; try done; simplify_eq; [|eauto|eauto].
    + exfalso. by eapply Hdiff.
    + exfalso. by eapply Hdiff.
  - intros u i Hi. by apply Hnone in Hi.
  - intros u i Hi. by apply Hnone in Hi.
Qed.

Lemma return_ok t c s :
  pool_ok s -> threads s !! t = Some (Using c) ->
  pool_ok (mkPool (connections_semaphore s) (connections_mutex s) (<[c := false]> (connections s)) (<[t := Returning]> (threads s))).
Proof.
  intros [] Hp. assert (t < length (threads s))%nat as Hlt by by eapply lookup_lt_Some. pose proof (po_uses0 _ _ Hp) as Hc.
  constructor; simpl; try done.
  - pose proof (sum_insert permits _ _ _ Returning Hp). simpl in *. lia.
  - pose proof (sum_insert uses _ _ _ Returning Hp). pose proof (count_insert _ _ _ false Hc). simpl in *. lia.
  - intros u. rewrite po_mutex0. split; intros (q & Hq & Hh).
    + exists q. split; [|done]. rewrite list_lookup_insert_ne; [done|]. intros ->. simplify_eq.
    + moved Hq. eauto.
  - intros u c' Hu. moved Hu. rewrite list_lookup_insert_ne; [by eapply po_uses0|]. intros ->. eauto.
  - intros u u' c' H1 H2. moved H1. moved H2. eauto.
  - intros u i Hi. moved Hi. rewrite length_insert. destruct (po_search0 _ _ Hi). pose proof (count_drop_clear _ _ i Hc). lia.
  - intros u i Hi. moved Hi. destruct (decide (c = i)) as [->|Hne]; [|rewrite list_lookup_insert_ne by done; by eapply po_found0].
    rewrite list_lookup_insert_eq; [done|]. by eapply lookup_lt_Some.
  - by rewrite length_insert.
Qed.

(** Nothing is in use when the eight permits are taken. *)
Lemma close_ok t k s :
  pool_ok s -> threads s !! t = Some (Closing k) -> ~ (k < IOC_CLIENT_MAX_CONN)%nat -> connections_mutex s = None ->
  (forall u q, threads s !! u = Some q -> u <> t -> permits q = 0%nat) /\
  pool_ok (mkPool (connections_semaphore s) (Some t) [] (<[t := Closed]> (threads s))).
Proof.
  intros Hok Hp Hk Hm. pose proof Hok as []. assert (t < length (threads s))%nat as Hlt by by eapply lookup_lt_Some.
  assert (forall u q, threads s !! u = Some q -> u <> t -> permits q = 0%nat) as Hother.
  { intros u q Hq Hne. pose proof (permits_all _ _ _ _ _ Hp Hq (not_eq_sym Hne)). simpl in *. lia. }
  assert (forall u q, <[t := Closed]> (threads s) !! u = Some q -> q = Closed \/ permits q = 0%nat) as Hnew.
  { intros u q Hq. moved Hq; [by left|right]. by eapply Hother. }
  split; [done|]. constructor; simpl; try (intros u c Hu; exfalso; apply Hnew in Hu as [|]; done); try lia.
  - pose proof (sum_insert permits _ _ _ Closed Hp) as Hs. pose proof (po_permits0). simpl in Hs.
    enough (k = IOC_CLIENT_MAX_CONN) by lia. clear -po_permits0 Hp Hk.
    enough (k <= sum_list_with permits (threads s))%nat by lia. clear -Hp. revert t Hp.
    induction (threads s) as [|a l IH]; intros [|t] Hp; simplify_eq/=; [lia|]. specialize (IH _ Hp). lia.
  - clear -Hnew. assert (forall l, (forall u q, l !! u = Some q -> q = Closed \/ permits q = 0%nat) -> 0%nat = sum_list_with uses l) as Hz.
    { induction l as [|a l IH]; intros Hl; [done|]. simpl. rewrite <- IH.
      - destruct (Hl 0%nat a eq_refl) as [->|Ha]; [done|]. by destruct a.
      - intros u q Hq. by apply (Hl (S u)). }
    apply Hz. exact Hnew.
  - intros u. split.
    + intros [= <-]. exists Closed. by rewrite list_lookup_insert_eq.
    + intros (q & Hq & Hh). moved Hq; [done|]. exfalso. assert (connections_mutex s = Some u) by (apply po_mutex0; eauto). congruence.
  - intros u u' c Hu. apply Hnew in Hu as [|]; done.
Qed.

Lemma step_ok s s' : pool_ok s -> step s s' -> pool_ok s'.
Proof.
  intros Hok (t & f & Hr). unfold run in Hr. destruct (threads s !! t) as [p|] eqn:Hp; [|done]. simpl in Hr.
  pose proof Hok as []. destruct f, p; simplify_eq/=; unfold sem_wait, lock in *.
  - destruct (connections_semaphore s) as [|n] eqn:Es; simplify_eq/=. apply (move_ok t Idle Waiting s); try done; [|by left]. simpl. lia.
  - destruct (connections_mutex s) as [|] eqn:Em; simplify_eq/=. apply (move_ok t Waiting (Searching 0) s); try done; [by right|].
    intros i [= <-]. split; [lia|]. simpl. pose proof (uses_permits _ _ _ Hp ltac:(simpl; lia)). rewrite drop_0, po_count0. lia.
  - destruct (connections s !! i) as [[]|] eqn:Ei; simplify_eq/=.
    + apply (move_ok t (Searching i) (Searching (S i)) s); try done; [by left|]. intros j [= <-]. destruct (po_search0 _ _ Hp).
      pose proof (lookup_lt_Some _ _ _ Ei). rewrite (count_drop_true _ _ Ei) in *. lia.
    + apply (move_ok t (Searching i) (Found i) s); try done; [by left|]. by intros j [= <-].
    + apply lookup_ge_None in Ei as Hge. destruct (po_search0 _ _ Hp) as [Hle Hlt]. rewrite drop_ge in Hlt by lia. simpl in Hlt.
      apply (take_ok t (Searching i) (length (connections s)) s (connections s ++ [true])); try done.
      * rewrite count_app. simpl. lia.
      * rewrite length_app. simpl. lia.
      * apply lookup_snoc_Some. by right.
      * intros c' _ Hc'. apply lookup_app_Some. by left.
      * rewrite lookup_ge_None_2 by lia. done.
  - pose proof (po_found0 _ _ Hp) as Hi. apply (take_ok t (Found i) i s); try done.
    + pose proof (count_insert _ _ _ true Hi) as Hn. simpl in Hn |- *. lia.
    + simpl. by rewrite length_insert.
    + simpl. rewrite list_lookup_insert_eq; [done|]. by eapply lookup_lt_Some.
    + intros c0 Hne Hc0. simpl. by rewrite list_lookup_insert_ne.
    + congruence.
  - exact (return_ok t c s Hok Hp).
  - apply (move_ok t Returning Idle s); try done; [simpl; lia|by left].
  - apply (move_ok t Idle (Closing 0) s); try done. by left.
  - case_decide; [destruct (connections_semaphore s) as [|n] eqn:Es; simplify_eq/=|destruct (connections_mutex s) as [|] eqn:Em; simplify_eq/=].
    + apply (move_ok t (Closing k) (Closing (S k)) s); try done; [simpl; lia|by left].
    + refine (proj2 (close_ok t k s Hok Hp _ Em)). lia.
Qed.

Lemma init_ok n : pool_ok (ioc_client_init n).
Proof.
  assert (forall t p, replicate n Idle !! t = Some p -> p = Idle) as Hidle by (intros t p [-> _]%lookup_replicate; done).
  assert (forall f, f Idle = 0%nat -> sum_list_with f (replicate n Idle) = 0%nat) as Hsum.
  { intros f Hf. induction n as [|n IH]; simpl; [done|]. rewrite Hf, IH; [done|]. intros t p Ht. by apply (Hidle (S t)). }
  constructor; simpl; try (intros t c Hc; by apply Hidle in Hc).
  - by rewrite Hsum.
  - by rewrite Hsum.
  - intros t. split; [done|]. intros (p & Hp & Hh). by apply Hidle in Hp as ->.
  - intros t u c Hc. by apply Hidle in Hc.
  - lia.
Qed.

Lemma reachable_ok n s : reachable n s -> pool_ok s.
Proof.
  unfold reachable. intros Hr. pose proof (init_ok n) as Hi. revert Hi. induction Hr as [s|s s1 s2 Hs _ IH]; [done|].
  intros Hok. apply IH. by eapply step_ok.
Qed.

(** C17: however the threads interleave, a connection is used by one thread at a
    time, a thread that uses one finds it marked, no more than IOC_CLIENT_MAX_CONN
    connections are ever opened, and the marks set are as many as the threads that
    use a connection. *)
Theorem connections_exclusive n s :
  reachable n s ->
  (forall t t' c, threads s !! t = Some (Using c) -> threads s !! t' = Some (Using c) -> t = t') /\
  (forall t c, threads s !! t = Some (Using c) -> connections s !! c = Some true) /\
  (length (connections s) <= IOC_CLIENT_MAX_CONN)%nat /\
  count (connections s) = length (filter (fun p => uses p = 1%nat) (threads s)).
Proof.
  intros Hr. destruct (reachable_ok _ _ Hr). split_and!; try done. rewrite po_count0. clear.
  induction (threads s) as [|p l IH]; [done|]. simpl. rewrite IH, filter_cons. case_decide as Hp; destruct p; simpl in *; lia.
Qed.

(** *** Nobody waits for ever *)

(** [k] more steps of the thread that searches. *)
Lemma search_ends t k s :
  pool_ok s -> (exists i, threads s !! t = Some (Searching i) /\ (length (connections s) - i <= k)%nat) ->
  exists s' c, rtc (fun a b => run t GetConnection a = Some b) s s' /\ threads s' !! t = Some (Using c) /\ connections_mutex s' = None /\
    forall u, u <> t -> threads s' !! u = threads s !! u.
Proof.
  revert s. induction k as [|k IH]; intros s Hok (i & Hi & Hk).
  all: assert (t < length (threads s))%nat as Hlt by by eapply lookup_lt_Some.
  all: assert (forall p, threads (move t p s) !! t = Some p) as Hme by (intros p; simpl; by rewrite list_lookup_insert_eq).
  all: destruct (connections s !! i) as [[]|] eqn:Ei.
  all: try (exfalso; apply lookup_lt_Some in Ei; lia).
  2: { destruct (IH (move t (Searching (S i)) s)) as (s' & c & Hr & Hc & Hm & Ho).
       - eapply step_ok; [exact Hok|]. exists t, GetConnection. unfold run. rewrite Hi. simpl. by rewrite Ei.
       - exists (S i). split; [done|]. simpl. lia.
       - exists s', c. split; [|split; [done|split; [done|]]].
         + eapply rtc_l; [|exact Hr]. unfold run. rewrite Hi. simpl. by rewrite Ei.
         + intros u Hu. rewrite Ho by done. simpl. by rewrite list_lookup_insert_ne. }
  all: try (eexists _, (length (connections s)); split; [apply rtc_once; unfold run; rewrite Hi; simpl; by rewrite Ei|]; simpl;
    rewrite list_lookup_insert_eq by done; split; [done|]; split; [done|]; intros u Hu; by rewrite list_lookup_insert_ne).
  eexists _, i. split; [eapply rtc_l; [unfold run; rewrite Hi; simpl; by rewrite Ei|]; apply rtc_once; unfold run; by rewrite Hme|].
  simpl. rewrite list_insert_insert_eq, list_lookup_insert_eq by done. split; [done|]. split; [done|].
  intros u Hu. by rewrite list_lookup_insert_ne.
Qed.

Lemma get_step t s s' : rtc (fun a b => run t GetConnection a = Some b) s s' -> rtc step s s'.
Proof. apply rtc_subrel. intros a b Hab. by exists t, GetConnection. Qed.

Lemma rtc_ok s s' : pool_ok s -> rtc step s s' -> pool_ok s'.
Proof. intros Hok Hr. revert Hok. induction Hr as [|s s1 s2 Hs _ IH]; [done|]. intros Hok. apply IH. by eapply step_ok. Qed.

(** The thread that has the mutex gives it back. *)
Lemma mutex_released s t :
  pool_ok s -> threads s !! t = Some Waiting ->
  exists s', rtc step s s' /\ pool_ok s' /\ threads s' !! t = Some Waiting /\ connections_mutex s' = None.
Proof.
  intros Hok Ht. destruct (connections_mutex s) as [u|] eqn:Em; [|by exists s].
  destruct (proj1 (po_mutex _ Hok u) Em) as (p & Hp & Hh). assert (t <> u) as Hne by (intros ->; simplify_eq).
  assert (u < length (threads s))%nat as Hlt by by eapply lookup_lt_Some. destruct p as [| |i|i| | | |]; try done.
  - destruct (search_ends u (length (connections s) - i) s Hok) as (s' & c & Hr%get_step & _ & Hm & Ho); [by exists i|].
    exists s'. split; [done|]. split; [by eapply rtc_ok|]. by rewrite Ho.
  - eassert (step s _) as Hs by (exists u, GetConnection; unfold run; rewrite Hp; reflexivity). eexists. split; [apply rtc_once, Hs|].
    split; [by eapply step_ok|]. simpl. by rewrite list_lookup_insert_ne.
  - pose proof (permits_all _ _ _ _ _ Hp Ht (not_eq_sym Hne)). pose proof (po_permits _ Hok). unfold IOC_CLIENT_MAX_CONN in *. simpl in *. lia.
Qed.

(** a thread that has passed the semaphore always gets a connection: from any
    state, the steps of the thread that has the mutex, if any, then its own steps
    lead it there, whatever the other threads were doing. *)
Theorem connection_obtained n s t :
  reachable n s -> threads s !! t = Some Waiting ->
  exists s' c, rtc step s s' /\ threads s' !! t = Some (Using c).
Proof.
  intros Hr Ht. destruct (mutex_released s t (reachable_ok _ _ Hr) Ht) as (s1 & Hr1 & Hok1 & Ht1 & Hm1).
  assert (t < length (threads s1))%nat as Hlt by by eapply lookup_lt_Some.
  eassert (run t GetConnection s1 = Some _) as Hs by (unfold run; rewrite Ht1; simpl; unfold lock; rewrite Hm1; reflexivity).
  match type of Hs with _ = Some ?x => set (s2 := x) in Hs end.
  assert (pool_ok s2) as Hok2 by (eapply step_ok; [exact Hok1|]; by exists t, GetConnection).
  destruct (search_ends t (length (connections s2)) s2 Hok2) as (s3 & c & Hr3%get_step & Hc & _).
  { exists 0%nat. simpl. rewrite list_lookup_insert_eq by done. split; [done|lia]. }
  exists s3, c. split; [|done]. etransitivity; [exact Hr1|]. eapply rtc_l; [|exact Hr3]. by exists t, GetConnection.
Qed.

(** when ioc_client_fini deletes the connections, no other thread is inside the
    library: none uses a connection, searches one or waits for the mutex. *)
Theorem fini_alone n s t u p :
  reachable n s -> threads s !! t = Some Closed -> threads s !! u = Some p -> u <> t -> p = Idle \/ p = Closing 0.
Proof.
  intros Hr Ht Hu Hne. pose proof (reachable_ok _ _ Hr) as Hok. pose proof (permits_all _ _ _ _ _ Ht Hu (not_eq_sym Hne)).
  pose proof (po_permits _ Hok). unfold IOC_CLIENT_MAX_CONN in *. simpl in *. assert (permits p = 0%nat) as Hp by lia. destruct p; simpl in Hp; subst; auto; done.
Qed.

(** ** Witnesses *)
Fixpoint play (l : list (nat * call)) (s : Pool) : option Pool :=
  match l with [] => Some s | (t, f) :: l => s' ← run t f s; play l s' end.
Lemma play_reachable n l s : play l (ioc_client_init n) = Some s -> reachable n s.
Proof.
  unfold reachable. generalize (ioc_client_init n). induction l as [|[t f] l IH]; intros s0 Hp; simpl in Hp; [by simplify_eq|].
  destruct (run t f s0) as [s1|] eqn:Er; [|done]. eapply rtc_l; [by exists t, f|]. by apply IH.
Qed.

Definition both : list (nat * call) :=
  [(0%nat, GetConnection); (1%nat, GetConnection); (1%nat, GetConnection); (1%nat, GetConnection); (0%nat, GetConnection); (0%nat, GetConnection); (0%nat, GetConnection)].
Definition two_users : Pool := mkPool 6 None [true; true] [Using 1; Using 0; Idle].
Definition one_waits : Pool := mkPool 6 None [true] [Waiting; Using 0; Idle].

Lemma connections_exclusive_witness : count [true; true] = 2%nat.
Proof.
  destruct (connections_exclusive 3 two_users) as (_ & _ & _ & Hc); [|exact Hc].
  apply (play_reachable 3 both). by vm_compute.
Defined.

Lemma connection_obtained_witness : exists s' c, rtc step one_waits s' /\ threads s' !! 0%nat = Some (Using c).
Proof.
  apply (connection_obtained 3 one_waits 0).
  - apply (play_reachable 3 (take 4 both)). by vm_compute.
  - reflexivity.
Defined.

Definition closing : list (nat * call) := replicate 10 (2%nat, Fini).
Lemma fini_alone_witness : Idle = Idle \/ Idle = Closing 0.
Proof.
  apply (fini_alone 3 (mkPool 0 (Some 2%nat) [] [Idle; Idle; Closed]) 2 0 Idle).
  - apply (play_reachable 3 closing). by vm_compute.
  - reflexivity.
  - reflexivity.
  - discriminate.
Defined.
End ClientPool.
