(* ===== verification/ServerThreads.v ===== *)
(** * The threads of the server

    Model of Server::poll, Server::startStatsThread, Server::stop and
    TcpServer::loop (src/src/server/core/Server.cpp and
    src/src/base/network/TcpServer.cpp): how the server stops.  The threads share
    the flags pollRunning and statsRunning and the event loop of libevent; a step
    is one access of one thread to them, and the threads interleave in any way. *)

From S2P Require Import Prelude.
From stdpp Require Import relations.

Module ServerThreads.

(** Server::poll *)
Inductive poll_pc : Type :=
| PStart     (** not called yet *)
| PTest      (** before the test of the while *)
| PPoll      (** in connection->poll *)
| PExit      (** out of the loop, before the last assignment *)
| PDone.

(** Server::stop *)
Inductive stop_pc : Type :=
| SStart     (** before the test of pollRunning *)
| SClear     (** before [pollRunning = false] *)
| SWait      (** in the while *)
| SReset     (** before the second [pollRunning = false] *)
| SStats     (** before the test of statsRunning *)
| SStatsClear
| SStatsJoin
| STcp       (** before [tcpServer->stop()] *)
| STcpJoin
| SDone.

(** The thread of the TCP server *)
Inductive tcp_pc : Type :=
| TStart     (** before [ebase = event_base_new()] *)
| TReady     (** before [event_base_dispatch] *)
| TDispatch
| TDone.

(** The thread that prints the statistics *)
Inductive stats_pc : Type := XNone | XTest | XSleep | XDone.

Record Threads : Type := mkThreads {
  pollRunning : bool;
  statsRunning : bool;
  ebase : bool;           (** it is not NULL *)
  th_poll : poll_pc;
  th_stop : stop_pc;
  th_tcp : tcp_pc;
  th_stats : stats_pc;
}.

Definition set_poll (b : bool) (p : poll_pc) (s : Threads) : Threads :=
  mkThreads b (statsRunning s) (ebase s) p (th_stop s) (th_tcp s) (th_stats s).
Definition set_stop (b : bool) (st : stop_pc) (s : Threads) : Threads :=
  mkThreads b (statsRunning s) (ebase s) (th_poll s) st (th_tcp s) (th_stats s).
Definition goto (st : stop_pc) (s : Threads) : Threads := set_stop (pollRunning s) st s.
Definition set_statsRunning (b : bool) (s : Threads) : Threads :=
  mkThreads (pollRunning s) b (ebase s) (th_poll s) (th_stop s) (th_tcp s) (th_stats s).
Definition set_stats (x : stats_pc) (s : Threads) : Threads :=
  mkThreads (pollRunning s) (statsRunning s) (ebase s) (th_poll s) (th_stop s) (th_tcp s) x.
Definition set_tcp (b : bool) (t : tcp_pc) (s : Threads) : Threads :=
  mkThreads (pollRunning s) (statsRunning s) b (th_poll s) (th_stop s) t (th_stats s).

(** Server::poll *)
Definition poll (s : Threads) : option Threads :=
  match th_poll s with
  | PStart => Some (set_poll true PTest s)
  | PTest => Some (set_poll (pollRunning s) (if pollRunning s then PPoll else PExit) s)
  | PPoll => Some (set_poll (pollRunning s) PTest s)
  | PExit => Some (set_poll true PDone s)
  | PDone => None
  end.

(** The thread of Server::startStatsThread *)
Definition stats (s : Threads) : option Threads :=
  match th_stats s with
  | XTest => Some (set_stats (if statsRunning s then XSleep else XDone) s)
  | XSleep => Some (set_stats XTest s)
  | XNone | XDone => None
  end.

(** TcpServer::loop, as long as nobody breaks it *)
Definition loop (s : Threads) : option Threads :=
  match th_tcp s with
  | TStart => Some (set_tcp true TReady s)
  | TReady => Some (set_tcp (ebase s) TDispatch s)
  | TDispatch | TDone => None
  end.

(** event_base_loopbreak: a loop that is running ends; there is no effect on one
    that is not running yet *)
Definition event_base_loopbreak (s : Threads) : Threads :=
  match th_tcp s with TDispatch => set_tcp (ebase s) TDone s | _ => s end.
(** TcpServer::stop *)
Definition tcp_stop (s : Threads) : Threads := if ebase s then event_base_loopbreak s else s.

(** Server::stop; [None] is a join that waits *)
Definition stop (s : Threads) : option Threads :=
  match th_stop s with
  | SStart => Some (goto (if pollRunning s then SClear else SStats) s)
  | SClear => Some (set_stop false SWait s)
  | SWait => Some (goto (if pollRunning s then SReset else SWait) s)
  | SReset => Some (set_stop false SStats s)
  | SStats => Some (goto (if statsRunning s then SStatsClear else STcp) s)
  | SStatsClear => Some (goto SStatsJoin (set_statsRunning false s))
  | SStatsJoin => match th_stats s with XDone => Some (goto STcp s) | _ => None end
  | STcp => Some (goto STcpJoin (tcp_stop s))
  | STcpJoin => match th_tcp s with TDone => Some (goto SDone s) | _ => None end
  | SDone => None
  end.

Inductive step (s : Threads) : Threads -> Prop :=
| step_poll s' : poll s = Some s' -> step s s'
| step_stats s' : stats s = Some s' -> step s s'
| step_tcp s' : loop s = Some s' -> step s s'
| step_stop s' : stop s = Some s' -> step s s'.

(** A server just built, with or without the statistics, and one that is up: its
    polling has begun and its TCP server listens. *)
Definition built (with_stats : bool) : Threads :=
  mkThreads false with_stats false PStart SStart TStart (if with_stats then XTest else XNone).
Definition up (with_stats : bool) : Threads :=
  mkThreads true with_stats true PTest SStart TDispatch (if with_stats then XTest else XNone).

(** ** The invariant of a server that was up when stop was called *)
Definition poll_inv (s : Threads) : Prop :=
  match th_stop s with
  | SStart | SClear => pollRunning s = true /\ (th_poll s = PTest \/ th_poll s = PPoll)
  | SWait => pollRunning s = false /\ (th_poll s = PTest \/ th_poll s = PPoll \/ th_poll s = PExit) \/ pollRunning s = true /\ th_poll s = PDone
  | SReset => th_poll s = PDone
  | _ => th_poll s = PDone /\ pollRunning s = false
  end.
Definition stats_inv (s : Threads) : Prop :=
  match th_stop s with
  | SStart | SClear | SWait | SReset | SStats =>
      statsRunning s = true /\ (th_stats s = XTest \/ th_stats s = XSleep) \/ statsRunning s = false /\ th_stats s = XNone
  | SStatsClear => statsRunning s = true /\ (th_stats s = XTest \/ th_stats s = XSleep)
  | SStatsJoin => statsRunning s = false /\ (th_stats s = XTest \/ th_stats s = XSleep \/ th_stats s = XDone)
  | _ => th_stats s = XDone \/ th_stats s = XNone
  end.
Definition tcp_inv (s : Threads) : Prop :=
  match th_stop s with
  | STcpJoin | SDone => th_tcp s = TDone
  | _ => ebase s = true /\ th_tcp s = TDispatch
  end.
Definition up_inv (s : Threads) : Prop := poll_inv s /\ stats_inv s /\ tcp_inv s.

(** The cases of a step, and what the invariant says in each. *)
Ltac each_case := repeat match goal with
  | H : _ /\ _ |- _ => destruct H
  | H : _ \/ _ |- _ => destruct H
  end; simplify_eq/=; auto 6.

Lemma poll_inv_step s s' : poll_inv s -> step s s' -> poll_inv s'.
Proof.
  unfold poll_inv. destruct s as [pr sr eb p st t x]; simpl. intros Hi [s1 Hs|s1 Hs|s1 Hs|s1 Hs].
  all: unfold poll, stats, loop, stop, tcp_stop, event_base_loopbreak in Hs; simpl in Hs.
  - destruct st, p, pr; each_case.
  - destruct x; each_case.
  - destruct t; each_case.
  - destruct st, pr; each_case; repeat (case_match; each_case).
Qed.

Lemma stats_inv_step s s' : stats_inv s -> step s s' -> stats_inv s'.
Proof.
  unfold stats_inv. destruct s as [pr sr eb p st t x]; simpl. intros Hi [s1 Hs|s1 Hs|s1 Hs|s1 Hs].
  all: unfold poll, stats, loop, stop, tcp_stop, event_base_loopbreak in Hs; simpl in Hs.
  - destruct p; each_case.
  - destruct st, x, sr; each_case.
  - destruct t; each_case.
  - destruct st, sr; each_case; repeat (case_match; each_case).
Qed.

Lemma tcp_inv_step s s' : tcp_inv s -> step s s' -> tcp_inv s'.
Proof.
  unfold tcp_inv. destruct s as [pr sr eb p st t x]; simpl. intros Hi [s1 Hs|s1 Hs|s1 Hs|s1 Hs].
  all: unfold poll, stats, loop, stop, tcp_stop, event_base_loopbreak in Hs; simpl in Hs.
  - destruct p; each_case.
  - destruct x; each_case.
  - destruct st, t; each_case.
  - destruct st, t, eb; each_case; repeat (case_match; each_case).
Qed.

Lemma up_ok b s : rtc step (up b) s -> up_inv s.
Proof.
  assert (up_inv (up b)) as Hup by (destruct b; unfold up_inv, poll_inv, stats_inv, tcp_inv; simpl; auto 8).
  intros Hr. revert Hup. generalize (up b) as s0, Hr. clear. intros s0 Hr. induction Hr as [|s0 s1 s2 Hs _ IH]; [done|].
  intros (Hp & Hx & Ht). apply IH. split; [by eapply poll_inv_step|]. split; [by eapply stats_inv_step|by eapply tcp_inv_step].
Qed.

(** C33: when a server that is up is stopped, stop only goes on once the polling
    thread has left its loop for good, and when it returns every thread has ended:
    the destructor that follows deletes nothing a thread still uses. *)
Theorem stop_waits b s :
  rtc step (up b) s ->
  match th_stop s with
  | SStart | SClear | SWait => True
  | SDone => th_poll s = PDone /\ pollRunning s = false /\ th_tcp s = TDone /\ (th_stats s = XDone \/ th_stats s = XNone)
  | _ => th_poll s = PDone
  end.
Proof.
  intros (Hp & Hx & Ht)%up_ok. unfold poll_inv, stats_inv, tcp_inv in *. by destruct (th_stop s); each_case.
Qed.

(** *** Progress *)
Definition stop_left (st : stop_pc) : nat :=
  match st with
  | SStart => 9 | SClear => 8 | SWait => 7 | SReset => 6 | SStats => 5 | SStatsClear => 4 | SStatsJoin => 3 | STcp => 2 | STcpJoin => 1 | SDone => 0
  end.
Definition poll_left (p : poll_pc) : nat := match p with PStart => 4 | PPoll => 3 | PTest => 2 | PExit => 1 | PDone => 0 end.
Definition stats_left (x : stats_pc) : nat := match x with XSleep => 2 | XTest => 1 | XNone | XDone => 0 end.
Definition left_to_do (s : Threads) : nat := (10 * stop_left (th_stop s) + poll_left (th_poll s) + stats_left (th_stats s))%nat.

Lemma up_progress s : up_inv s -> th_stop s <> SDone -> exists s', step s s' /\ (left_to_do s' < left_to_do s)%nat.
Proof.
  intros (Hp & Hx & Ht) Hne. unfold poll_inv, stats_inv, tcp_inv in *. destruct s as [pr sr eb p st t x]; simpl in *.
  assert (forall s', stop (mkThreads pr sr eb p st t x) = Some s' -> (left_to_do s' < left_to_do (mkThreads pr sr eb p st t x))%nat ->
    exists s', step (mkThreads pr sr eb p st t x) s' /\ (left_to_do s' < left_to_do (mkThreads pr sr eb p st t x))%nat) as Hstop.
  { intros s' Hs Hl. exists s'. split; [by apply step_stop|done]. }
  destruct st; try done.
  - destruct Hp as [-> _]. eapply Hstop; [done|unfold left_to_do; simpl; lia].
  - eapply Hstop; [done|unfold left_to_do; simpl; lia].
  - destruct Hp as [[-> Hp]|[-> ->]]; [|eapply Hstop; [done|unfold left_to_do; simpl; lia]].
    destruct Hp as [->|[->| ->]]; (eexists; split; [by apply step_poll|unfold left_to_do; simpl; lia]).
  - eapply Hstop; [done|unfold left_to_do; simpl; lia].
  - eapply Hstop; [done|unfold left_to_do; destruct sr; simpl; lia].
  - eapply Hstop; [done|unfold left_to_do; simpl; lia].
  - destruct Hx as [-> [->|[->| ->]]]; [eexists; split; [by apply step_stats|unfold left_to_do; simpl; lia]..|].
    eapply Hstop; [done|unfold left_to_do; simpl; lia].
  - destruct Ht as [-> ->]. eapply Hstop; [done|unfold left_to_do; simpl; lia].
  - subst. eapply Hstop; [done|unfold left_to_do; simpl; lia].
Qed.

(** C34: stop never waits for ever on a server that is up: from any state its threads
    may be in, they can go on until stop returns. *)
Theorem stop_completes b s : rtc step (up b) s -> exists s', rtc step s s' /\ th_stop s' = SDone.
Proof.
  intros Hr. remember (left_to_do s) as n eqn:En. revert s Hr En. induction (lt_wf n) as [n _ IH]. intros s Hr ->.
  assert (th_stop s = SDone \/ th_stop s <> SDone) as [Hd|Hd] by (destruct (th_stop s); auto); [by exists s|].
  destruct (up_progress s (up_ok _ _ Hr) Hd) as (s1 & Hs & Hl).
  destruct (IH _ Hl s1) as (s2 & Hr2 & Hd2); [by eapply rtc_r|done|]. exists s2. split; [by eapply rtc_l|done].
Qed.

(** Once stop waits for a TCP server it has not told to end, it waits for ever. *)
Lemma join_for_ever s s' : th_stop s = STcpJoin -> th_tcp s <> TDone -> rtc step s s' -> th_stop s' = STcpJoin.
Proof.
  intros Hs Ht Hr. assert (th_stop s' = STcpJoin /\ th_tcp s' <> TDone) as [? _]; [|done]. revert Hs Ht.
  induction Hr as [|s s1 s2 Hstep _ IH]; [done|]. intros Hs Ht. enough (th_stop s1 = STcpJoin /\ th_tcp s1 <> TDone) as [] by auto. clear IH.
  destruct s as [pr sr eb p st t x]; simpl in *; subst. destruct Hstep as [s1 Hs|s1 Hs|s1 Hs|s1 Hs].
  all: unfold poll, stats, loop, stop in Hs; simpl in Hs; repeat case_match; each_case.
Qed.

(** stopping a server too early does not work: a server whose TCP thread is not
    yet in its event loop is never stopped, and one whose polling has not begun is
    stopped although its polling then begins and goes on. *)
Theorem stop_too_early b :
  (exists s, rtc step (built b) s /\ forall s', rtc step s s' -> th_stop s' <> SDone) /\
  (exists s, rtc step (built b) s /\ th_stop s = SDone /\ th_poll s = PPoll /\ pollRunning s = true).
Proof.
  split.
  - exists (mkThreads false false false PStart STcpJoin TStart (if b then XDone else XNone)). split; [|intros s' Hr].
    + destruct b; (eapply rtc_l; [by apply step_stop|]); (eapply rtc_l; [by apply step_stop|]); [|by apply rtc_once, step_stop].
      eapply rtc_l; [by apply step_stop|]. eapply rtc_l; [by apply step_stats|]. eapply rtc_l; [by apply step_stop|]. by apply rtc_once, step_stop.
    + apply join_for_ever in Hr as ->; done.
  - exists (mkThreads true false true PPoll SDone TDone (if b then XDone else XNone)). split; [|done].
    eapply rtc_l; [by apply step_tcp|]. eapply rtc_l; [by apply step_tcp|]. eapply rtc_l; [by apply step_stop|]. eapply rtc_l; [by apply step_stop|].
    destruct b; [eapply rtc_l; [by apply step_stop|]; eapply rtc_l; [by apply step_stats|]; eapply rtc_l; [by apply step_stop|]|].
    all: eapply rtc_l; [by apply step_stop|]; eapply rtc_l; [by apply step_stop|]; eapply rtc_l; [by apply step_poll|]; by apply rtc_once, step_poll.
Qed.

(** ** Witnesses *)
Lemma up_stops : rtc step (up false) (mkThreads false false true PDone SDone TDone XNone).
Proof.
  eapply rtc_l; [by apply step_stop|]. eapply rtc_l; [by apply step_stop|]. eapply rtc_l; [by apply step_poll|].
  eapply rtc_l; [by apply step_poll|]. do 4 (eapply rtc_l; [by apply step_stop|]). eapply rtc_l; [by apply step_stop|]. apply rtc_refl.
Qed.

Lemma stop_waits_witness : PDone = PDone /\ false = false /\ TDone = TDone /\ (XNone = XDone \/ XNone = XNone).
Proof. exact (stop_waits false _ up_stops). Defined.

Lemma stop_completes_witness : exists s', rtc step (up true) s' /\ th_stop s' = SDone.
Proof. apply (stop_completes true). apply rtc_refl. Defined.
End ServerThreads.
