(* ===== verification/Config.v ===== *)
(** * Config

    Model of src/src/server/core/Config.cpp: the configuration of the server and
    its parsing.  argp is outside the sources: what it gives to the handler, a
    sequence of keys with their arguments, is the input of [parseArgs].  A string
    is the list of its bytes. *)

From S2P Require Import Prelude Memory.

Module Config.

Definition str : Type := list byte.
Definition npos : Z := two64 - 1.
Definition size (s : str) : Z := Z.of_nat (length s).
Definition comma : byte := x2c.

(** std::string::find(c, pos) *)
Fixpoint index (c : byte) (s : str) : option nat :=
  match s with
  | [] => None
  | b :: s' => if decide (b = c) then Some O else Datatypes.S <$> index c s'
  end.
Definition find (s : str) (c : byte) (pos : Z) : Z :=
  match index c (drop (Z.to_nat pos) s) with Some i => pos + Z.of_nat i | None => npos end.
(** std::string::substr(pos, n): what there is of the [n] characters *)
Definition substr (s : str) (pos n : Z) : str := take (Z.to_nat (Z.min n (size s - pos))) (drop (Z.to_nat pos) s).

(** The loop of splitToVector *)
Fixpoint split_loop (fuel : nat) (value : str) (prev_pos pos : Z) (output : list str) : option (list str) :=
  match fuel with
  | O => None
  | S fuel' =>
      let pos := find value comma pos in
      if pos =? npos then Some (output ++ [substr value prev_pos (pos -u prev_pos)])
      else
        let substring := substr value prev_pos (pos -u prev_pos) in
        let output := if decide (substring = []) then output else output ++ [substring] in
        split_loop fuel' value (pos +u 1) (pos +u 1) output
  end.

(** splitToVector *)
Definition splitToVector (value : str) : option (list str) := split_loop (S (length value)) value 0 0 [].

(** ** class Config *)
Record Config : Type := mkConfig {
  listenIP : str;
  nvdimmMountPath : list str;
  meroRcFile : str;
  consistencyCheck : bool;
  clientAuth : bool;
  activePolling : bool;
  broadcastErrorToClients : bool;
}.

Section options.
(** "mero_ressource_file.rc" and "127.0.0.1" *)
Variables default_rc localhost : str.

(** Config::Config *)
Definition new_Config : Config := mkConfig [] [] default_rc true true true false.

(** Config::initForUnitTests *)
Definition initForUnitTests (c : Config) : Config :=
  mkConfig localhost (nvdimmMountPath c) (meroRcFile c) (consistencyCheck c) (clientAuth c) true (broadcastErrorToClients c).

(** The keys of argp *)
Inductive argp_key : Type := KEY (c : byte) | ARGP_KEY_NO_ARGS | ARGP_KEY_ARG | ARGP_OTHER.
(** What the handler answers; argp_usage ends the process *)
Inductive argp_status : Type := PARSED (c : Config) | ARGP_ERR_UNKNOWN | USAGE.

(** parseOptions; setting the verbosity is left out of the state *)
Definition parseOptions (key : argp_key) (arg : str) (c : Config) : argp_status :=
  match key with
  | KEY x6e (* n *) =>
      match splitToVector arg with
      | Some l => PARSED (mkConfig (listenIP c) l (meroRcFile c) (consistencyCheck c) (clientAuth c) (activePolling c) (broadcastErrorToClients c))
      | None => USAGE
      end
  | KEY x6c (* l *) => PARSED (mkConfig arg (nvdimmMountPath c) (meroRcFile c) (consistencyCheck c) (clientAuth c) (activePolling c) (broadcastErrorToClients c))
  | KEY x63 (* c *) => PARSED (mkConfig (listenIP c) (nvdimmMountPath c) (meroRcFile c) false (clientAuth c) (activePolling c) (broadcastErrorToClients c))
  | KEY x70 (* p *) => PARSED (mkConfig (listenIP c) (nvdimmMountPath c) (meroRcFile c) (consistencyCheck c) (clientAuth c) true (broadcastErrorToClients c))
  | KEY x61 (* a *) => PARSED (mkConfig (listenIP c) (nvdimmMountPath c) (meroRcFile c) (consistencyCheck c) false (activePolling c) (broadcastErrorToClients c))
  | KEY x6d (* m *) => PARSED (mkConfig (listenIP c) (nvdimmMountPath c) arg (consistencyCheck c) (clientAuth c) (activePolling c) (broadcastErrorToClients c))
  | KEY x76 (* v *) => PARSED c
  | ARGP_KEY_NO_ARGS => USAGE
  | ARGP_KEY_ARG =>
      if decide (listenIP c = [])
      then PARSED (mkConfig arg (nvdimmMountPath c) (meroRcFile c) (consistencyCheck c) (clientAuth c) (activePolling c) (broadcastErrorToClients c))
      else USAGE
  | _ => ARGP_ERR_UNKNOWN
  end.

(** argp_parse on the keys it finds: a key of its own that the handler does not
    know is ignored, an option it does not know ends the process. *)
Fixpoint argp_parse (l : list (argp_key * str)) (c : Config) : option Config :=
  match l with
  | [] => Some c
  | (key, arg) :: l' =>
      match parseOptions key arg c, key with
      | PARSED c', _ => argp_parse l' c'
      | ARGP_ERR_UNKNOWN, ARGP_OTHER => argp_parse l' c
      | _, _ => None
      end
  end.

(** Config::parseArgs; [None] is the end of the process *)
Definition parseArgs (l : list (argp_key * str)) (c : Config) : option Config :=
  match argp_parse l c with
  | Some c' => if decide (listenIP c' = []) then None else Some c'
  | None => None
  end.
End options.

(** ** Splitting *)

(** The pieces with a comma between them. *)
Fixpoint join (l : list str) (last : str) : str :=
  match l with [] => last | s :: l' => s ++ comma :: join l' last end.

Lemma index_app s s' : comma ∉ s -> index comma (s ++ comma :: s') = Some (length s).
Proof.
  induction s as [|b s IH]; intros Hs; simpl; [done|]. rewrite not_elem_of_cons in Hs. destruct Hs as [Hb Hs].
  rewrite decide_False by congruence. by rewrite IH.
Qed.
Lemma index_none s : comma ∉ s -> index comma s = None.
Proof.
  induction s as [|b s IH]; intros Hs; simpl; [done|]. rewrite not_elem_of_cons in Hs. destruct Hs as [Hb Hs].
  rewrite decide_False by congruence. by rewrite IH.
Qed.

Lemma split_loop_join l last done_ output fuel :
  Forall (fun s => comma ∉ s) l -> comma ∉ last -> (length l < fuel)%nat -> size (done_ ++ join l last) < npos ->
  split_loop fuel (done_ ++ join l last) (size done_) (size done_) output =
  Some (output ++ filter (fun s => s <> []) l ++ [last]).
Proof.
  revert done_ output fuel. induction l as [|s l IH]; intros before output fuel Hl Hlast Hfuel Hsize; (destruct fuel as [|fuel]; [simpl in Hfuel; lia|]).
  all: cbn [split_loop join]; unfold find; assert (Z.to_nat (size before) = length before) as Hb by (unfold size; lia).
  all: rewrite Hb, drop_app_length; unfold npos, size in *; rewrite length_app in Hsize.
  - rewrite index_none by done. rewrite Z.eqb_refl. simpl in Hsize. f_equal. f_equal. f_equal. unfold substr, size. rewrite Hb, drop_app_length, length_app.
    rewrite take_ge; [done|]. rewrite u64_small by u64_arith. u64_arith.
  - apply Forall_cons in Hl as [Hs Hl]. rewrite index_app by done. simpl in Hsize. rewrite length_app in Hsize. simpl in Hsize.
    replace (Z.of_nat (length before) + Z.of_nat (length s) =? two64 - 1) with false by u64_arith.
    replace (substr _ _ _) with s.
    2:{ unfold substr, size. rewrite Hb, drop_app_length, !length_app. simpl. u64_simpl.
        rewrite take_app_le, take_ge; [done| |]; u64_arith. }
    assert (size (before ++ s ++ [comma]) = Z.of_nat (length before) + Z.of_nat (length s) + 1) as Hnext by (unfold size; rewrite !length_app; simpl; lia).
    rewrite u64_small by u64_arith. rewrite <- Hnext. replace (before ++ s ++ comma :: join l last) with ((before ++ s ++ [comma]) ++ join l last) by (by rewrite <- !app_assoc).
    unfold size at 1 2. rewrite filter_cons. 
    rewrite IH; [|done|done|simpl in Hfuel; lia|unfold size; rewrite !length_app; simpl; u64_arith].
    destruct (decide (s = [])) as [->|Hne]; [by rewrite decide_False by (intros Hn; by apply Hn)|].
    rewrite decide_True by done. by rewrite <- app_assoc.
Qed.

(** an argument made of pieces separated by commas is split into its pieces, the
    empty ones left out, except for the last one, which is kept even when it is
    empty. *)
Theorem splitToVector_join l last :
  Forall (fun s => comma ∉ s) l -> comma ∉ last -> size (join l last) < npos ->
  splitToVector (join l last) = Some (filter (fun s => s <> []) l ++ [last]).
Proof.
  intros Hl Hlast Hsize. apply (split_loop_join l last [] []); try done. clear. induction l as [|s l IH]; simpl; [lia|].
  rewrite length_app. simpl. lia.
Qed.

(** Every argument is made of pieces in this way. *)
Lemma join_surj value : exists l last, value = join l last /\ Forall (fun s => comma ∉ s) l /\ comma ∉ last.
Proof.
  induction value as [|b value (l & last & -> & Hl & Hlast)]; [exists [], []; split_and!; [done|done|apply not_elem_of_nil]|].
  destruct (decide (b = comma)) as [->|Hb].
  - exists ([] :: l), last. split_and!; [done| |done]. constructor; [apply not_elem_of_nil|done].
  - destruct l as [|s l].
    + exists [], (b :: last). split_and!; [done|done|]. rewrite not_elem_of_cons. split; [congruence|done].
    + apply Forall_cons in Hl as [Hs Hl]. exists ((b :: s) :: l), last. split_and!; [done| |done]. constructor; [|done].
      rewrite not_elem_of_cons. split; [congruence|done].
Qed.

Lemma splitToVector_join_witness : splitToVector [x61; x2c; x2c; x62; x2c] = Some [[x61]; [x62]; []].
Proof.
  apply (splitToVector_join [[x61]; []; [x62]] []).
  - apply (bool_decide_unpack _). by vm_compute.
  - apply (bool_decide_unpack _). by vm_compute.
  - by vm_compute.
Defined.
End Config.
