(* ===== verification/ServerStart.v ===== *)
(** * The start of the server

    Model of the constructor of Server (src/src/server/core/Server.cpp): the message
    buffers, the receive buffers, the authentication, the container and the table of
    the hooks.  The theorems show that it establishes the invariant of the
    connection, which the polling then keeps. *)

From Stdlib Require Import String.
From S2P Require Import Prelude StdMap Memory Serializer Protocol Interfaces World WorldInv Container System Fabric LibfabricDomain ClientRegistry Connection ConnectionInv ConnectionSend ConnectionOpen MemoryBackend MemoryCache Provider ServerMemory ServerHooks ServerInv Machine FabricMachine Config.

Module ServerStart.
Import Protocol LibfabricDomain MemoryBackend MemoryCache Provider ClientRegistry Connection ConnectionInv ConnectionSend ConnectionOpen ServerMemory ServerHooks ServerInv Machine FabricMachine.

(** What the constructor puts above the connection: an empty container on a cache
    over malloc (of handle 1), without storage; [store] is the world outside. *)
Definition new_App {St} (store : St) : App (Cache Malloc) St :=
  mkApp (Container.new_container 0 1 (8 * 1024 * 1024)) (new_Cache (mkMalloc true)) store ∅ 1 ∅ 1 ∅ 1 0 0.

Section start.
Context {X St : Type} `{Libc X} `{Libfabric X} `{Fabric X}.
Abbreviation S := (Cx X (option server_hook) rdma_done (App (Cache Malloc) St)).

(** The calls to registerHook, in order. *)
Definition register_hooks (c : Conn (option server_hook) rdma_done) : Conn (option server_hook) rdma_done :=
  let c := registerHook (msg_code IOC_LF_MSG_PING) (Some HookPingPong) c in
  let c := registerHook (msg_code IOC_LF_MSG_OBJ_FLUSH) (Some HookFlush) c in
  let c := registerHook (msg_code IOC_LF_MSG_OBJ_RANGE_REGISTER) (Some HookRangeRegister) c in
  let c := registerHook (msg_code IOC_LF_MSG_OBJ_RANGE_UNREGISTER) (Some HookRangeUnregister) c in
  let c := registerHook (msg_code IOC_LF_MSG_OBJ_CREATE) (Some HookObjectCreate) c in
  let c := registerHook (msg_code IOC_LF_MSG_OBJ_READ) (Some HookObjectRead) c in
  let c := registerHook (msg_code IOC_LF_MSG_OBJ_WRITE) (Some HookObjectWrite) c in
  registerHook (msg_code IOC_LF_MSG_OBJ_COW) (Some HookObjectCow) c.

(** Server::Server, without its TCP server ([Tcp]) and the function it leaves for a
    fatal error; the storage is NULL. [prov_name] is the provider that libfabric
    chose. *)
Definition new_Server (prov_name : string) (config : Config.Config) : M S unit :=
  on_sys (modify (set_domain (fun _ => new_domain prov_name))) ;;
  on_sys (setMsgBufferSize IOC_POST_RECEIVE_READ) ;;
  modify (with_conn (fun _ => new_Connection (negb (Config.activePolling config)))) ;;
  assert_ (IOC_POST_RECEIVE_WRITE <? 1024 * 1024) ;;
  postReceives (1024 * 1024) 128 ;;
  (if Config.clientAuth config then modify (with_conn (setCheckClientAuth true)) else ret tt) ;;
  modify (fun s => with_app (new_App (ap_store (cx_app s))) s) ;;
  modify (with_conn register_hooks).
End start.


(** The handler of a message. *)
Definition hook_of (t : LibfabricMessageType) : option server_hook :=
  match t with
  | IOC_LF_MSG_PING => Some HookPingPong
  | IOC_LF_MSG_OBJ_READ => Some HookObjectRead
  | IOC_LF_MSG_OBJ_WRITE => Some HookObjectWrite
  | IOC_LF_MSG_OBJ_FLUSH => Some HookFlush
  | IOC_LF_MSG_OBJ_CREATE => Some HookObjectCreate
  | IOC_LF_MSG_OBJ_RANGE_REGISTER => Some HookRangeRegister
  | IOC_LF_MSG_OBJ_RANGE_UNREGISTER => Some HookRangeUnregister
  | IOC_LF_MSG_OBJ_COW => Some HookObjectCow
  | _ => None
  end.

Section starts.
Context {X St : Type} `{Libc X} `{!LibcOk X} `{Libfabric X} `{!LibfabricOk X} `{Fabric X} `{!FabricOk X} `{StorageOk St}.
Abbreviation S := (Cx X (option server_hook) rdma_done (App (Cache Malloc) St)).
Implicit Types (s : S).

(** Neither the authentication nor the hooks touch what the invariant speaks of. *)
Lemma conn_ok_flags G held busy d s auth a :
  owned_ok ∅ G held busy d s ->
  owned_ok ∅ G held busy d (with_conn register_hooks (with_app a (with_conn (setCheckClientAuth auth) s))).
Proof. intros []. by constructor. Qed.

(** A container without objects. *)
Lemma new_cw_ok G s : sys_rep (cx_sys s) G -> cw_ok ∅ G (cx_sys s) (cw_of (with_app (new_App (ap_store (cx_app s))) s)).
Proof.
  intros Hr. assert (align_ok (H0 := frame_ok ∅ G (cx_sys s)) 8388608) as Ha by (split; [done|]; by exists 2048).
  constructor; try done; cbn [fst snd]; [|constructor]. constructor; try done.
  - exists ∅. split; [|by constructor]. exists ∅, G. split; [by rewrite map_empty_union|]. split; [apply map_disjoint_empty_l|].
    split; [rewrite fmap_empty; by apply new_Cache_inv|]. by split_and!.
  - intros i Hi. by apply elem_of_nil in Hi.
  - by intros i [v Hv].
  - split; [done|]. by intros p [o Ho].
Qed.

Lemma register_hooks_only (c : Conn (option server_hook) rdma_done) k :
  is_Some (hooks (register_hooks c) !! k) -> (exists t, k = msg_code t) \/ is_Some (hooks c !! k).
Proof.
  assert (forall t h (c : Conn (option server_hook) rdma_done), hooks (registerHook (msg_code t) h c) = <[msg_code t := h]> (hooks c)) as Hreg by done.
  unfold register_hooks. rewrite !Hreg. intros Hk.
  do 8 (apply lookup_insert_is_Some in Hk as [<-|[_ Hk]]; [left; by eexists|]). by right.
Qed.

(** The invariant of the process is established. *)
Lemma started_ok G s auth :
  owned_ok ∅ G [] [] 0 s -> msgBuffers (s_domain (cx_sys s)) = [] -> cx_actions s = ∅ ->
  server_ok ∅ G [] [] 0 (with_conn register_hooks (with_app (new_App (ap_store (cx_app s))) (with_conn (setCheckClientAuth auth) s))).
Proof.
  intros Hc Hm Ha. constructor; try done.
  - rewrite map_empty_union. by apply conn_ok_flags.
  - apply map_disjoint_empty_l.
  - intros p. simpl. rewrite Hm. intros Hp. by apply elem_of_nil in Hp.
  - intros a act. simpl. by rewrite Ha.
  - intros p Hp. eexists. by apply (co_rbufs _ _ _ _ _ _ Hc).
  - apply (new_cw_ok G s). apply (po_rep _ _ _ (co_pool _ _ _ _ _ _ Hc)).
Qed.

(** C24: the constructor of the server never breaks an assertion: on a new endpoint it
    either stops for want of memory or because libfabric refuses, or it leaves the
    process in its invariant, ready to poll, with its 128 receive buffers of one
    megabyte posted, the authentication and the polling of the configuration, a
    handler for each of the eight requests and for nothing else, message buffers
    that hold an eager read, and an empty container. *)
Theorem server_starts prov config s :
  fresh s ->
  wp resource (new_Server prov config)
    (fun _ s' =>
       (exists rest, server_ok ∅ rest [] [] 0 s' /\ idle ∅ s') /\
       length (recvBuffers (cx_conn s')) = 128%nat /\ recvBuffersSize (cx_conn s') = 1048576 /\
       ep_recvs (ep s') ≡ₚ seqZ 0 128 /\ ep_ops (ep s') = [] /\
       checkClientAuth (cx_conn s') = Config.clientAuth config /\ passivePolling (cx_conn s') = negb (Config.activePolling config) /\
       (forall t, hooks (cx_conn s') !! msg_code t = Some <$> hook_of t) /\
       (forall k, is_Some (hooks (cx_conn s') !! k) -> exists t, k = msg_code t) /\
       msgBufferSize (s_domain (cx_sys s')) = IOC_POST_RECEIVE_READ /\ cx_app s' = new_App (ap_store (cx_app s))) s.
Proof.
  intros Hfr. unfold new_Server. apply wp_bind. unfold on_sys at 1, modify at 1, wp at 1. simpl.
  apply wp_bind. unfold on_sys at 1, setMsgBufferSize, wp at 1. simpl.
  apply wp_bind, wp_modify, wp_bind, wp_ret, wp_bind. unfold postReceives. apply wp_bind, wp_modify.
  pose proof (fresh_posting (users := owned ∅) no_holds (negb (String.prefix "tcp;" prov)) IOC_POST_RECEIVE_READ (negb (Config.activePolling config)) (1024 * 1024) s eq_refl Hfr) as Hp.
  eapply wp_mono; [eapply (wp_post_all (users := owned ∅) no_holds (1024 * 1024) 128 eq_refl 0); exact Hp|].
  intros _ s' [[Hap Hd Hac [l Hl] _ _] (G & _ & [Hok Hsz Hlen Hrecv [_ Hops]])]. simpl in Hap, Hd, Hac, Hl. rewrite (fr_actions _ Hfr) in Hac.
  apply wp_bind, (wp_mono _ _ (fun _ s1 => s1 = with_conn (setCheckClientAuth (Config.clientAuth config)) s')).
  { destruct (Config.clientAuth config); [by apply wp_modify|]. apply wp_ret. unfold with_conn, setCheckClientAuth, set_flags. rewrite Hl. by destruct s'; simpl in *; subst. }
  intros _ s1 ->. apply wp_bind, wp_modify, wp_modify. split.
  { exists G. split; [apply (started_ok G s'); [done|by rewrite Hd|done]|]. by intros a _ (p & n & r & Hq & _). }
  split; [simpl; lia|]. split; [exact Hsz|]. split; [exact Hrecv|]. split; [exact Hops|]. split; [done|]. split; [simpl; by rewrite Hl|].
  split; [simpl; rewrite Hl; by intros []|]. split; [|split; [simpl; by rewrite Hd|simpl; by rewrite Hap]].
  intros k [Ht|Hk]%register_hooks_only; [done|]. simpl in Hk. rewrite Hl in Hk. by destruct Hk.
Qed.
End starts.

(** On the concrete network the server starts. *)
Definition before : Cx Node (option server_hook) rdma_done (App (Cache Malloc) Disk) :=
  mkCx (mkSys (mkNode [] [] [] [] [] 0 [] [] [] ∅ 0 ∅) 0 (new_domain "sockets")) (fun _ => x00) ∅ 1 (new_Connection false) (new_App (mkDisk blank)).

Lemma server_starts_witness :
  exists u s', new_Server "tcp;ofi_rxm" (Config.new_Config []) before = Ok (u, s') /\
    (exists rest, server_ok ∅ rest [] [] 0 s' /\ idle ∅ s') /\ ep_recvs (ep s') ≡ₚ seqZ 0 128 /\
    forall t, hooks (cx_conn s') !! msg_code t = Some <$> hook_of t.
Proof.
  assert (fresh before) as Hfr by (constructor; try done; intros a (v & [Hv|Hv] & _); by apply elem_of_nil in Hv).
  destruct (wp_returns _ _ _ _ (server_starts "tcp;ofi_rxm" (Config.new_Config []) before Hfr)) as (u & s' & Hrun & Hs).
  - vm_compute. reflexivity.
  - exists u, s'. destruct Hs as (Hok & _ & _ & Hr & _ & _ & _ & Hh & _). split; [exact Hrun|]. split; [exact Hok|]. split; [exact Hr|]. exact Hh.
Defined.
End ServerStart.
