(* ===== verification/Clovis.v ===== *)
(** * The sample application of Mero

    Model of the functions of src/extern-deps/from-clovis-sample-apps/clovis_api.c that
    the Mero storage calls: open_entity, create_object, write_data_to_object and
    read_data_from_object.  The library of Mero itself (the functions m0_...) is not in the
    repository: it is a parameter ([Mero0]) with what its documentation says
    ([Mero0Ok]).  An operation is made, launched and waited for; it ends stable or
    failed, m0_clovis_rc tells which, and [me_failed] counts the failed ones. *)

From S2P Require Import Prelude Memory Interfaces.

Module Clovis.

(** The operations on the object (u_hi, u_lo); an extent is an index and a length. *)
Inductive m0_operation : Type :=
| M0_OPEN (hi lo : Z)
| M0_CREATE (hi lo : Z)
| M0_CLOVIS_OC_WRITE (hi lo : Z) (ext : list (Z * Z)) (data : list (list byte))
| M0_CLOVIS_OC_READ (hi lo : Z) (ext : list (Z * Z)).

(** Deadlines *)
Inductive m0_time : Type := M0_TIME_NEVER | m0_time_from_now (secs ns : Z).

(** The library of Mero *)
Class Mero0 (X : Type) := {
  m0_clovis_layout_id : X -> Z;
  m0_clovis_obj_layout_id_to_unit_size : Z -> X -> Z;
  m0_bufvec_alloc : Z -> Z -> X -> Z * X;               (** count, size: status *)
  m0_indexvec_alloc : Z -> X -> Z * X;
  m0_clovis_obj_init : Z -> Z -> Z -> X -> X;           (** u_hi, u_lo, layout *)
  m0_clovis_entity_fini : Z -> Z -> X -> X;
  (** m0_clovis_entity_open, m0_clovis_entity_create and m0_clovis_obj_op: the status
      and the operation that is made, 0 for none *)
  m0_clovis_op_make : m0_operation -> X -> (Z * Z) * X;
  m0_clovis_op_launch : Z -> X -> X;
  m0_clovis_op_wait : Z -> m0_time -> X -> Z * X;       (** for the states FAILED and STABLE *)
  m0_clovis_rc : Z -> X -> Z;
  m0_clovis_op_data : Z -> X -> list (list byte);       (** the buffers of a read *)
  m0_clovis_op_fini : Z -> X -> X;
  m0_clovis_op_free : Z -> X -> X;
}.

Section api.
Context {X : Type} `{Mero0 X}.

Definition lib {A} (f : X -> A * X) : M X A := fun x => Ok (f x).
(** Launching needs an operation. *)
Definition launch (op : Z) : M X unit := guard_ FNullPointer (negb (op =? 0)) ;; modify (m0_clovis_op_launch op).

Definition open_entity (hi lo : Z) : M X Z :=
  let! r := lib (m0_clovis_op_make (M0_OPEN hi lo)) in
  let op := r.2 in
  launch op ;;
  let! _ := lib (m0_clovis_op_wait op M0_TIME_NEVER) in
  let! rc := gets (m0_clovis_rc op) in
  modify (m0_clovis_op_fini op) ;;
  modify (m0_clovis_op_free op) ;;
  ret rc.

Definition create_object (hi lo : Z) : M X Z :=
  let! layout := gets m0_clovis_layout_id in
  modify (m0_clovis_obj_init hi lo layout) ;;
  let! rc := open_entity hi lo in
  if negb (rc <? 0) then ret 1
  else
    let! r := lib (m0_clovis_op_make (M0_CREATE hi lo)) in
    if r.1 <? 0 then ret 2
    else
      let op := r.2 in
      launch op ;;
      let! rc := lib (m0_clovis_op_wait op (m0_time_from_now 3 0)) in
      modify (m0_clovis_op_fini op) ;;
      modify (m0_clovis_op_free op) ;;
      modify (m0_clovis_entity_fini hi lo) ;;
      ret 0.

Definition write_data_to_object (hi lo : Z) (ext : list (Z * Z)) (data : list (list byte)) : M X Z :=
  let! layout := gets m0_clovis_layout_id in
  modify (m0_clovis_obj_init hi lo layout) ;;
  let! _ := open_entity hi lo in
  let! r := lib (m0_clovis_op_make (M0_CLOVIS_OC_WRITE hi lo ext data)) in
  let op := r.2 in
  launch op ;;
  let! rc := lib (m0_clovis_op_wait op M0_TIME_NEVER) in
  modify (m0_clovis_op_fini op) ;;
  modify (m0_clovis_op_free op) ;;
  modify (m0_clovis_entity_fini hi lo) ;;
  ret rc.

(** The status, and what the buffers hold *)
Definition read_data_from_object (hi lo : Z) (ext : list (Z * Z)) : M X (Z * list (list byte)) :=
  let! layout := gets m0_clovis_layout_id in
  modify (m0_clovis_obj_init hi lo layout) ;;
  let! _ := open_entity hi lo in
  let! r := lib (m0_clovis_op_make (M0_CLOVIS_OC_READ hi lo ext)) in
  let op := r.2 in
  launch op ;;
  let! rc := lib (m0_clovis_op_wait op M0_TIME_NEVER) in
  let! rc' := gets (m0_clovis_rc op) in
  let rc := if rc =? 0 then rc' else rc in
  let! data := gets (m0_clovis_op_data op) in
  modify (m0_clovis_op_fini op) ;;
  modify (m0_clovis_op_free op) ;;
  modify (m0_clovis_entity_fini hi lo) ;;
  ret (rc, data).
End api.

(** ** What the library does *)

(** The bytes of the objects that an operation may change. *)
Definition touches (q : m0_operation) (hi lo y : Z) : Prop :=
  match q with
  | M0_CREATE h l => (hi, lo) = (h, l)
  | M0_CLOVIS_OC_WRITE h l ext _ => (hi, lo) = (h, l) /\ exists v, v ∈ ext /\ v.1 <= y < v.1 + v.2
  | _ => False
  end.

(** The buffers [data] stored at the extents [ext], one after the other. *)
Definition stored (ext : list (Z * Z)) (data : list (list byte)) (f : Z -> byte) : Z -> byte :=
  foldl (fun f v => wr f v.1 v.2) f (zip ext.*1 data).
Definition fits (ext : list (Z * Z)) (data : list (list byte)) : Prop := ext.*2 = (fun l => Z.of_nat (length l)) <$> data.
#[export] Instance fits_dec ext data : Decision (fits ext data).
Proof. unfold fits. apply _. Defined.

Class Mero0Ok (X : Type) `{Mero0 X} := {
  me_contents : X -> Z -> Z -> Z -> byte;              (** high, low, offset *)
  me_ops : X -> gmap Z m0_operation;                   (** the operations *)
  me_failed : X -> Z;                                  (** how many have failed *)
  (** calls that run no operation *)
  bufvec_quiet : forall x n k, me_contents (m0_bufvec_alloc n k x).2 = me_contents x /\ me_failed (m0_bufvec_alloc n k x).2 = me_failed x;
  indexvec_quiet : forall x n, me_contents (m0_indexvec_alloc n x).2 = me_contents x /\ me_failed (m0_indexvec_alloc n x).2 = me_failed x;
  obj_init_quiet : forall x hi lo l, me_contents (m0_clovis_obj_init hi lo l x) = me_contents x /\ me_failed (m0_clovis_obj_init hi lo l x) = me_failed x;
  entity_fini_quiet : forall x hi lo, me_contents (m0_clovis_entity_fini hi lo x) = me_contents x /\ me_failed (m0_clovis_entity_fini hi lo x) = me_failed x;
  op_fini_quiet : forall x op, me_contents (m0_clovis_op_fini op x) = me_contents x /\ me_failed (m0_clovis_op_fini op x) = me_failed x;
  op_free_quiet : forall x op, me_contents (m0_clovis_op_free op x) = me_contents x /\ me_failed (m0_clovis_op_free op x) = me_failed x;
  op_make_ok : forall x q, let r := m0_clovis_op_make q x in
    me_contents r.2 = me_contents x /\ me_failed r.2 = me_failed x /\ (r.1.2 <> 0 -> me_ops r.2 !! r.1.2 = Some q);
  (** an operation under way changes what it is for, and nothing else *)
  op_launch_ok : forall x op q, me_ops x !! op = Some q -> let x' := m0_clovis_op_launch op x in
    me_ops x' !! op = Some q /\ me_failed x' = me_failed x /\ forall hi lo y, ~ touches q hi lo y -> me_contents x' hi lo y = me_contents x hi lo y;
  op_wait_frame : forall x op q d, me_ops x !! op = Some q ->
    forall hi lo y, ~ touches q hi lo y -> me_contents (m0_clovis_op_wait op d x).2 hi lo y = me_contents x hi lo y;
  (** an open and a read change nothing *)
  op_still : forall x op q d, me_ops x !! op = Some q -> match q with M0_OPEN _ _ | M0_CLOVIS_OC_READ _ _ _ => True | _ => False end ->
    me_contents (m0_clovis_op_launch op x) = me_contents x /\ me_contents (m0_clovis_op_wait op d x).2 = me_contents x;
  (** after the wait it is stable: a write is stored, a read has the bytes; or it has
      failed, or the wait itself has *)
  op_wait_ok : forall x op q d, me_ops x !! op = Some q -> let r := m0_clovis_op_wait op d x in
    if (r.1 =? 0) && (m0_clovis_rc op r.2 =? 0) then
      me_failed r.2 = me_failed x /\
      match q with
      | M0_CLOVIS_OC_WRITE hi lo ext data => fits ext data -> forall y, me_contents r.2 hi lo y = stored ext data (me_contents x hi lo) y
      | M0_CLOVIS_OC_READ hi lo ext => m0_clovis_op_data op r.2 = (fun v => range_of (me_contents x hi lo) v.1 v.2) <$> ext
      | _ => True
      end
    else me_failed r.2 = me_failed x + 1;
}.

(** Storing does not depend on what was there before. *)
Lemma stored_ext ext data f g y :
  fits ext data -> (f y = g y \/ exists v, v ∈ ext /\ v.1 <= y < v.1 + v.2) -> stored ext data f y = stored ext data g y.
Proof.
  unfold stored. revert f g data. induction ext as [|[i n] ext IH]; intros f g [|b data] Hf Hy; try done.
  - destruct Hy as [Hy|(v & Hv & _)]; [done|by apply elem_of_nil in Hv].
  - injection Hf as -> Hf. simpl. apply IH; [done|]. destruct (decide (i <= y < i + Z.of_nat (length b))) as [Hin|Hout].
    + left. destruct (lookup_lt_is_Some_2 b (Z.to_nat (y - i)) ltac:(lia)) as [c Hc]. replace y with (i + Z.of_nat (Z.to_nat (y - i))) by lia.
      by rewrite !(wr_in _ _ _ _ c).
    + rewrite !wr_out by done. destruct Hy as [Hy|(v & Hv & Hyv)]; [by left|].
      apply elem_of_cons in Hv as [->|Hv]; [done|]. right. by exists v.
Qed.
Lemma stored_out ext data f y :
  fits ext data -> (forall v, v ∈ ext -> ~ v.1 <= y < v.1 + v.2) -> stored ext data f y = f y.
Proof.
  unfold stored. revert f data. induction ext as [|[i n] ext IH]; intros f [|b data]; try done. intros [= -> Hlen] Hout. simpl.
  rewrite IH; [|done|intros v Hv; apply Hout; by right]. apply wr_out. apply (Hout (i, _)). by left.
Qed.

Section correct.
Context {X : Type} `{Mero0Ok X}.
Implicit Types x : X.

(** The objects are the same and [n] operations have failed. *)
Definition idle x x' : Prop := me_contents x' = me_contents x /\ me_failed x' = me_failed x.
#[export] Instance idle_preorder : PreOrder idle.
Proof. split; [done|]. intros x y z [] []. split; congruence. Qed.

(** The operation is made and launched, unless there is none. *)
Lemma wp_launched {B} q (k : Z * Z -> M X B) Q x :
  (forall r x', me_ops x' !! r.2 = Some q -> me_failed x' = me_failed x ->
     (forall hi lo y, ~ touches q hi lo y -> me_contents x' hi lo y = me_contents x hi lo y) ->
     (match q with M0_OPEN _ _ | M0_CLOVIS_OC_READ _ _ _ => True | _ => False end -> me_contents x' = me_contents x) ->
     wp (only FNullPointer) (k r) Q x') ->
  wp (only FNullPointer) (let! r := lib (m0_clovis_op_make q) in launch r.2 ;; k r) Q x.
Proof.
  intros Hk. apply wp_bind. unfold lib, wp at 1. destruct (op_make_ok x q) as (Hc & Hf & Hop). destruct (m0_clovis_op_make q x) as [r x']. simpl in *.
  apply wp_bind. unfold launch. apply wp_bind. unfold guard_. destruct (r.2 =? 0) eqn:E; [done|]. apply Z.eqb_neq in E. specialize (Hop E). apply wp_ret, wp_modify.
  destruct (op_launch_ok x' r.2 q Hop) as (Hop' & Hf' & Hc'). apply Hk; [done|congruence| |].
  - intros hi lo y Hy. rewrite Hc', Hc by done. done.
  - intros Hq. destruct (op_still x' r.2 q M0_TIME_NEVER Hop Hq) as [-> _]. done.
Qed.

(** The wait *)
Definition ended (op : Z) (q : m0_operation) (rc : Z) x x' : Prop :=
  if (rc =? 0) && (m0_clovis_rc op x' =? 0) then
    me_failed x' = me_failed x /\
    match q with
    | M0_CLOVIS_OC_WRITE hi lo ext data => fits ext data -> forall y, me_contents x' hi lo y = stored ext data (me_contents x hi lo) y
    | M0_CLOVIS_OC_READ hi lo ext => m0_clovis_op_data op x' = (fun v => range_of (me_contents x hi lo) v.1 v.2) <$> ext
    | _ => True
    end
  else me_failed x' = me_failed x + 1.

Lemma wp_wait {B} F op q d (k : Z -> M X B) Q x :
  me_ops x !! op = Some q ->
  (forall rc x', (forall hi lo y, ~ touches q hi lo y -> me_contents x' hi lo y = me_contents x hi lo y) ->
     (match q with M0_OPEN _ _ | M0_CLOVIS_OC_READ _ _ _ => True | _ => False end -> me_contents x' = me_contents x) ->
     ended op q rc x x' -> wp F (k rc) Q x') ->
  wp F (let! rc := lib (m0_clovis_op_wait op d) in k rc) Q x.
Proof.
  intros Hop Hk. apply wp_bind. unfold lib, wp at 1. pose proof (op_wait_frame x op q d Hop) as Hc. pose proof (op_wait_ok x op q d Hop) as He.
  pose proof (op_still x op q d Hop) as Hs. cbv zeta in He. destruct (m0_clovis_op_wait op d x) as [rc x']. apply Hk; [done|by intros Hq; apply Hs|done].
Qed.

Lemma idle_fini op x : idle x (m0_clovis_op_free op (m0_clovis_op_fini op x)).
Proof. destruct (op_fini_quiet x op), (op_free_quiet (m0_clovis_op_fini op x) op). split; congruence. Qed.
Lemma idle_end op hi lo x : idle x (m0_clovis_entity_fini hi lo (m0_clovis_op_free op (m0_clovis_op_fini op x))).
Proof. destruct (entity_fini_quiet (m0_clovis_op_free op (m0_clovis_op_fini op x)) hi lo), (idle_fini op x). split; congruence. Qed.

(** Opening changes no object. *)
Lemma wp_open_entity hi lo x :
  wp (only FNullPointer) (open_entity hi lo) (fun _ x' => me_contents x' = me_contents x /\ me_failed x <= me_failed x') x.
Proof.
  unfold open_entity. cbv zeta. apply wp_launched. intros r x1 Hop Hf1 _ Hc1. eapply wp_wait; [exact Hop|]. intros rc x2 _ Hc2 He.
  apply wp_bind, wp_gets, wp_bind, wp_modify, wp_bind, wp_modify, wp_ret. destruct (idle_fini r.2 x2) as [-> ->].
  rewrite Hc2, Hc1 by done. split; [done|]. unfold ended in He. destruct (_ && _); lia.
Qed.

(** The beginning of a read and of a write. *)
Lemma wp_opened {B} hi lo (k : M X B) Q x :
  (forall x', me_contents x' = me_contents x -> me_failed x <= me_failed x' -> wp (only FNullPointer) k Q x') ->
  wp (only FNullPointer) (let! layout := gets m0_clovis_layout_id in modify (m0_clovis_obj_init hi lo layout) ;; let! _ := open_entity hi lo in k) Q x.
Proof.
  intros Hk. apply wp_bind, wp_gets, wp_bind, wp_modify, wp_bind. set (x1 := m0_clovis_obj_init _ _ _ x).
  destruct (obj_init_quiet x hi lo (m0_clovis_layout_id x)) as [Hc1 Hf1]. fold x1 in Hc1, Hf1.
  eapply wp_mono; [apply wp_open_entity|]. intros _ x2 [Hc2 Hf2]. apply Hk; [congruence|lia].
Qed.

(** write_data_to_object changes nothing outside its extents; when no operation fails
    it answers 0 and its buffers are stored.  An operation that fails is not seen: the
    answer is that of the wait. *)
Theorem write_data_correct hi lo ext data x :
  fits ext data ->
  wp (only FNullPointer) (write_data_to_object hi lo ext data)
    (fun rc x' =>
       (forall hi' lo' y, (hi', lo') <> (hi, lo) \/ (forall v, v ∈ ext -> ~ v.1 <= y < v.1 + v.2) -> me_contents x' hi' lo' y = me_contents x hi' lo' y) /\
       me_failed x <= me_failed x' /\
       (me_failed x' = me_failed x -> rc = 0 /\ forall y, me_contents x' hi lo y = stored ext data (me_contents x hi lo) y)) x.
Proof.
  intros Hfit. unfold write_data_to_object. cbv zeta. apply wp_opened. intros x1 Hc1 Hf1. apply wp_launched. intros r x2 Hop Hf2 Hc2 _.
  eapply wp_wait; [exact Hop|]. intros rc x3 Hc3 _ He. apply wp_bind, wp_modify, wp_bind, wp_modify, wp_bind, wp_modify, wp_ret.
  destruct (idle_end r.2 hi lo x3) as [-> ->]. unfold ended in He.
  assert (forall hi' lo' y, ~ touches (M0_CLOVIS_OC_WRITE hi lo ext data) hi' lo' y -> me_contents x3 hi' lo' y = me_contents x hi' lo' y) as Hframe.
  { intros hi' lo' y Hy. rewrite Hc3, Hc2, Hc1 by done. done. }
  split; [|split; [destruct (_ && _); lia|]].
  - intros hi' lo' y Hy. apply Hframe. intros [E (v & Hv & Hin)]. destruct Hy as [Hne|Hy]; [done|]. by apply (Hy v).
  - intros Hnone. destruct (_ && _) eqn:E; [|lia]. apply andb_true_iff in E as [E _]. split; [by apply Z.eqb_eq|].
    destruct He as [_ He]. intros y. rewrite He by done. apply stored_ext; [done|].
    destruct (decide (Exists (fun v => v.1 <= y < v.1 + v.2) ext)) as [Hex|Hno]; [right; by apply Exists_exists|left].
    rewrite Hc2, Hc1; [done|]. intros [_ Hv]. apply Hno, Exists_exists. done.
Qed.

(** read_data_from_object changes nothing; an answer 0 comes with the bytes of the
    extents, and it is 0 when no operation fails. *)
Theorem read_data_correct hi lo ext x :
  wp (only FNullPointer) (read_data_from_object hi lo ext)
    (fun r x' => me_contents x' = me_contents x /\ me_failed x <= me_failed x' /\ (me_failed x' = me_failed x -> r.1 = 0) /\
       (r.1 = 0 -> r.2 = (fun v => range_of (me_contents x hi lo) v.1 v.2) <$> ext)) x.
Proof.
  unfold read_data_from_object. cbv zeta. apply wp_opened. intros x1 Hc1 Hf1. apply wp_launched. intros r x2 Hop Hf2 _ Hc2.
  eapply wp_wait; [exact Hop|]. intros rc x3 _ Hc3 He. apply wp_bind, wp_gets, wp_bind, wp_gets, wp_bind, wp_modify, wp_bind, wp_modify, wp_bind, wp_modify, wp_ret.
  destruct (idle_end r.2 hi lo x3) as [-> ->]. cbn [fst snd]. rewrite Hc3, Hc2, Hc1 by done. unfold ended in He. split; [done|].
  destruct (rc =? 0) eqn:E1; simpl in He; [destruct (m0_clovis_rc r.2 x3 =? 0) eqn:E2|].
  - destruct He as [Hf3 Hd]. rewrite Hc2, Hc1 in Hd by done. split; [lia|]. split; [intros _; by apply Z.eqb_eq|done].
  - apply Z.eqb_neq in E2. split; [lia|]. split; [lia|done].
  - apply Z.eqb_neq in E1. split; [lia|]. split; [lia|done].
Qed.

(** create_object changes nothing of the other objects.  It answers 1 for an object
    that exists, and 0 for one that it has asked for, made or not. *)
Theorem create_correct hi lo x :
  wp (only FNullPointer) (create_object hi lo)
    (fun rc x' => (rc = 0 \/ rc = 1 \/ rc = 2) /\ forall hi' lo' y, (hi', lo') <> (hi, lo) -> me_contents x' hi' lo' y = me_contents x hi' lo' y) x.
Proof.
  unfold create_object. apply wp_bind, wp_gets, wp_bind, wp_modify, wp_bind. set (x1 := m0_clovis_obj_init _ _ _ x).
  assert (me_contents x1 = me_contents x) as Hc1 by apply obj_init_quiet.
  eapply wp_mono; [apply wp_open_entity|]. intros rc x2 [Hc2 _]. destruct (negb _); [apply wp_ret; split; [auto|]; intros; by rewrite Hc2, Hc1|].
  apply wp_bind. unfold lib at 1, wp at 1. destruct (op_make_ok x2 (M0_CREATE hi lo)) as (Hc3 & _ & Hop). destruct (m0_clovis_op_make _ x2) as [r x3]. cbn [fst snd] in *.
  destruct (r.1 <? 0); [apply wp_ret; split; [auto|]; intros; by rewrite Hc3, Hc2, Hc1|]. cbv zeta. apply wp_bind. unfold launch. apply wp_bind. unfold guard_.
  destruct (r.2 =? 0) eqn:E; [done|]. apply Z.eqb_neq in E. specialize (Hop E). apply wp_ret, wp_modify.
  destruct (op_launch_ok x3 r.2 _ Hop) as (Hop4 & _ & Hc4). eapply wp_wait; [exact Hop4|]. intros rc' x5 Hc5 _ _.
  apply wp_bind, wp_modify, wp_bind, wp_modify, wp_bind, wp_modify, wp_ret. split; [auto|]. intros hi' lo' y Hne.
  destruct (idle_end r.2 hi lo x5) as [-> _]. rewrite Hc5, Hc4, Hc3, Hc2, Hc1 by done. done.
Qed.
End correct.
End Clovis.
