(* ===== verification/Mero.v ===== *)
(** * The Mero storage

    Model of src/src/server/backends/StorageBackendMero.cpp in two of its three
    builds: without storage (NOMERO) and over Mero (HAVE_MERO), with the functions of
    [Clovis].  The build over Motr (HAVE_MOTR) is not modelled.  Over Mero an access
    is cut in groups of at most 50 data units and its index is an int; the theorems say
    which byte of the buffer goes to which byte of the object, that it is the right one
    below 2 GiB for a whole number of groups and for a single group, and what happens
    otherwise. *)

From S2P Require Import Prelude Memory Interfaces Clovis.

Module Mero.
Import Clovis.

Definition CLOVIS_MAX_DATA_UNIT_PER_OPS : Z := 50.

(** The macros NOMERO and HAVE_MERO *)
Inductive build : Type := NOMERO | HAVE_MERO.

(** The process: [me_vectors] counts the vectors of Mero that are not freed. *)
Record Mero {X : Type} : Type := mkMero { me_mem : mem; me_ext : X; me_vectors : Z }.
Arguments Mero : clear implicits.
Arguments mkMero {X}.

Section mero.
Context {X : Type} `{Mero0 X}.
Abbreviation St := (Mero X).

(** A function of [Clovis], and one of the library *)
Definition on_lib {A} (m : M X A) : M St A := fun s =>
  match m (me_ext s) with Ok (a, x) => Ok (a, mkMero (me_mem s) x (me_vectors s)) | Abort f => Abort f end.
Definition call {A} (f : X -> A * X) : M St A := fun s =>
  let r := f (me_ext s) in Ok (r.1, mkMero (me_mem s) r.2 (me_vectors s)).
Definition count_vectors (n : Z) : M St unit := modify (fun s => mkMero (me_mem s) (me_ext s) (me_vectors s + n)).
Definition set_memory (f : mem -> mem) : M St unit := modify (fun s => mkMero (f (me_mem s)) (me_ext s) (me_vectors s)).

(** The vectors data, attr and ext of a group. The status of the allocation is not
    looked at: a vector that is missing is a null pointer for the loop that fills
    it. *)
Definition alloc_vectors (block_size data_units_size : Z) : M St unit :=
  let! data := call (m0_bufvec_alloc block_size data_units_size) in
  let! attr := call (m0_bufvec_alloc block_size 1) in
  let! ext := call (m0_indexvec_alloc block_size) in
  guard_ FNullPointer ((data =? 0) && (attr =? 0) && (ext =? 0)) ;;
  count_vectors 3.
Definition free_vectors : M St unit := count_vectors (-3).

(** The extents of [n] blocks and the next value of last_index, an int *)
Fixpoint fill (n : nat) (last_index data_units_size : Z) : list (Z * Z) * Z :=
  match n with
  | O => ([], last_index)
  | S n' =>
      let r := fill n' (i32 (last_index +u data_units_size)) data_units_size in
      ((u64 last_index, data_units_size) :: r.1, r.2)
  end.

(** char_buf + i*data_units_size + j*block_size*data_units_size *)
Definition piece_addr (char_buf i j block_size data_units_size : Z) : Z :=
  u64 (char_buf + u64 (i * data_units_size) + u64 (i32 (j * block_size) * data_units_size)).

Definition group_size (total_blocks : Z) : Z :=
  if total_blocks >? CLOVIS_MAX_DATA_UNIT_PER_OPS then CLOVIS_MAX_DATA_UNIT_PER_OPS else total_blocks.

(** The loop of StorageBackendMero::pwrite *)
Fixpoint write_loop (fuel : nat) (high low char_buf data_units_size total_blocks_to_write last_index j : Z) : M St Z :=
  match fuel with
  | O => abort FFuel
  | S fuel' =>
      if total_blocks_to_write >? 0 then
        let block_size := group_size total_blocks_to_write in
        alloc_vectors block_size data_units_size ;;
        let! m := gets me_mem in
        let data := (fun i => rd m (piece_addr char_buf i j block_size data_units_size) data_units_size) <$> seqZ 0 block_size in
        let '(ext, last_index) := fill (Z.to_nat block_size) last_index data_units_size in
        let! ret_ := on_lib (write_data_to_object high low ext data) in
        free_vectors ;;
        if negb (ret_ =? 0) then ret ret_
        else write_loop fuel' high low char_buf data_units_size (total_blocks_to_write - block_size) last_index (j + 1)
      else ret 0
  end.

(** The loop of StorageBackendMero::pread *)
Fixpoint read_loop (fuel : nat) (high low char_buf data_units_size total_blocks_to_read last_index j : Z) : M St Z :=
  match fuel with
  | O => abort FFuel
  | S fuel' =>
      if total_blocks_to_read >? 0 then
        let block_size := group_size total_blocks_to_read in
        alloc_vectors block_size data_units_size ;;
        let '(ext, last_index) := fill (Z.to_nat block_size) last_index data_units_size in
        let! r := on_lib (read_data_from_object high low ext) in
        if negb (r.1 =? 0) then ret r.1
        else
          for_each (zip (seqZ 0 block_size) r.2) (fun '(i, ov_buf) =>
            set_memory (fun m => wr m (piece_addr char_buf i j block_size data_units_size) ov_buf)) ;;
          free_vectors ;;
          read_loop fuel' high low char_buf data_units_size (total_blocks_to_read - block_size) last_index (j + 1)
      else ret 0
  end.

(** The size of the data units of the default layout *)
Definition unit_size (x : X) : Z := u64 (m0_clovis_obj_layout_id_to_unit_size (m0_clovis_layout_id x) x).

(** The size and the number of the blocks of an access *)
Definition blocks_of (size : Z) : M St (Z * Z) :=
  let! data_units_size := gets (fun s => unit_size (me_ext s)) in
  assert_ (data_units_size >? 0) ;;
  if data_units_size >? size then ret (size, 1)
  else
    assert_ (size mod data_units_size =? 0) ;;
    ret (data_units_size, i32 (size / data_units_size)).

Variable config : build.

(** StorageBackendMero::create *)
Definition create (high low : Z) : M St Z :=
  match config with
  | NOMERO => ret 0
  | HAVE_MERO => on_lib (create_object (u64 high) (u64 low))
  end.

(** StorageBackendMero::pread *)
Definition pread (high low buffer size offset : Z) : M St Z :=
  assert_ (negb (buffer =? 0)) ;;
  match config with
  | NOMERO => ret (i64 size)
  | HAVE_MERO =>
      let! b := blocks_of size in
      let '(data_units_size, total_blocks_to_read) := b in
      let! r := read_loop (S (Z.to_nat total_blocks_to_read)) (u64 high) (u64 low) buffer data_units_size total_blocks_to_read (i32 offset) 0 in
      ret (if r =? 0 then i64 size else -1)
  end.

(** StorageBackendMero::pwrite *)
Definition pwrite (high low buffer size offset : Z) : M St Z :=
  assert_ (negb (buffer =? 0)) ;;
  match config with
  | NOMERO => ret (i64 size)
  | HAVE_MERO =>
      let! b := blocks_of size in
      let '(data_units_size, total_blocks_to_write) := b in
      let! r := write_loop (S (Z.to_nat total_blocks_to_write)) (u64 high) (u64 low) buffer data_units_size total_blocks_to_write (i32 offset) 0 in
      ret (if r =? 0 then i64 size else -1)
  end.
End mero.

Lemma wp_library {X A} F (f : X -> A * X) (Q : A -> Mero X -> Prop) s :
  Q (f (me_ext s)).1 (mkMero (me_mem s) (f (me_ext s)).2 (me_vectors s)) -> wp F (call f) Q s.
Proof. done. Qed.
Lemma wp_on_lib {X A} F (m : M X A) (Q : A -> Mero X -> Prop) s :
  wp F m (fun a x => Q a (mkMero (me_mem s) x (me_vectors s))) (me_ext s) -> wp F (on_lib m) Q s.
Proof. unfold wp, on_lib. by destruct (m (me_ext s)) as [[a x]|]. Qed.

(** ** The groups *)

(** The index of [n] bytes from [i] on stays of the same sign: the blocks are at
    consecutive indexes from the 64-bit value of [i] on. *)
Definition one_run (i n : Z) : Prop := (0 <= i /\ i + n < 2147483648) \/ (-2147483648 <= i < 0 /\ i + n <= 0).

Lemma u64_run i n : one_run i n -> 0 <= n -> u64 i = if i <? 0 then i + two64 else i.
Proof.
  intros Hr Hn. destruct (i <? 0) eqn:E; [|rewrite u64_small; [done|rewrite two64_eq; destruct Hr; lia]].
  unfold u64. rewrite <- (Z_mod_plus_full i 1), Z.mod_small; [done|]. destruct Hr; rewrite two64_eq; lia.
Qed.
Lemma u64_step i k n : one_run i n -> 0 <= k < n -> u64 (i + k) = u64 i + k.
Proof.
  intros Hr Hk. rewrite (u64_run i n), (u64_run (i + k) (n - k)); [|destruct Hr; [left|right]; lia|lia|done|lia].
  destruct Hr; destruct (i <? 0) eqn:E1, (i + k <? 0) eqn:E2; lia.
Qed.
Lemma i32_u64 i d : -2147483648 <= i + d < 2147483648 -> i32 (i +u d) = i + d.
Proof.
  intros Hr. unfold i32, swrap, u64. change (2 ^ 32) with 4294967296. change (2 ^ (32 - 1)) with 2147483648.
  pose proof (Z.div_mod (i + d) two64 ltac:(rewrite two64_eq; lia)) as Hdm. rewrite two64_eq in *.
  replace ((i + d) mod 18446744073709551616 + 2147483648) with (i + d + 2147483648 + (- ((i + d) / 18446744073709551616) * 4294967296) * 4294967296) by lia.
  rewrite Z_mod_plus_full, Z.mod_small; lia.
Qed.

(** The extents of a group. *)
Lemma fill_spec n u i :
  0 <= u -> one_run i (Z.of_nat n * u) ->
  fill n i u = ((fun k => (u64 i + k * u, u)) <$> seqZ 0 (Z.of_nat n), i + Z.of_nat n * u).
Proof.
  intros Hu. revert i. induction n as [|n IH]; intros i Hr; simpl fill.
  - f_equal. lia.
  - assert (one_run (i + u) (Z.of_nat n * u)) as Hr' by (destruct Hr; [left; nia|]; destruct (decide (i + u = 0)); [left|right]; nia).
    rewrite i32_u64 by (destruct Hr; nia). rewrite (IH _ Hr'). simpl fst. simpl snd. f_equal; [|lia].
    rewrite (seqZ_cons 0 (Z.of_nat (S n))) by lia. rewrite fmap_cons. f_equal; [f_equal; lia|].
    replace (Z.pred (Z.of_nat (S n))) with (Z.of_nat n) by lia. change (Z.succ 0) with (0 + 1). rewrite <- (fmap_add_seqZ 1 0), <- list_fmap_compose.
    apply list_fmap_ext. intros k z [-> Hz]%lookup_seqZ. simpl. f_equal.
    destruct (decide (u = 0)) as [->|Hne]; [rewrite Z.add_0_r; lia|]. rewrite (u64_step i u (Z.of_nat (S n) * u)) by (done || nia). lia.
Qed.

Lemma zip_fmap {A B C} (f : A -> B) (g : A -> C) l : zip (f <$> l) (g <$> l) = (fun x => (f x, g x)) <$> l.
Proof. induction l as [|x l IH]; [done|]. simpl. by f_equal. Qed.

(** Blocks stored one after the other are one piece of memory. *)
Lemma store_blocks m f A i u n y :
  0 <= u ->
  foldl (fun f v => wr f v.1 v.2) f (zip ((fun k => i + k * u) <$> seqZ 0 (Z.of_nat n)) ((fun k => rd m (A + k * u) u) <$> seqZ 0 (Z.of_nat n))) y =
  wr f i (rd m A (Z.of_nat n * u)) y.
Proof.
  intros Hu. revert y. induction n as [|n IH]; intros y.
  - simpl. symmetry. apply wr_out. simpl. lia.
  - replace (Z.of_nat (S n)) with (Z.of_nat n + 1) by lia. rewrite seqZ_app by lia. rewrite !fmap_app, zip_with_app by (by rewrite !length_fmap).
    rewrite foldl_app. simpl. rewrite Z.add_0_l. replace ((Z.of_nat n + 1) * u) with (Z.of_nat n * u + u) by lia.
    rewrite rd_app by lia. rewrite wr_app, rd_length by lia. by apply wr_ext.
Qed.

(** Where the byte number [z] of an access of [N] blocks of [u] bytes is in the
    buffer. *)
Definition source (N u z : Z) : Z :=
  let q := N / CLOVIS_MAX_DATA_UNIT_PER_OPS in
  let r := N mod CLOVIS_MAX_DATA_UNIT_PER_OPS in
  if z <? CLOVIS_MAX_DATA_UNIT_PER_OPS * q * u then z else q * r * u + (z - CLOVIS_MAX_DATA_UNIT_PER_OPS * q * u).

Lemma group_size_bounds T : 0 < T -> 0 < group_size T <= 50 /\ group_size T <= T /\ (group_size T = 50 \/ group_size T = T).
Proof. unfold group_size, CLOVIS_MAX_DATA_UNIT_PER_OPS. destruct (T >? 50) eqn:E; lia. Qed.

(** A group is contiguous in the buffer. *)
Lemma source_group T j u w :
  0 < T -> 0 <= j -> 0 <= w < group_size T * u ->
  source (50 * j + T) u (50 * j * u + w) = j * group_size T * u + w.
Proof.
  intros HT Hj Hw. unfold source, group_size, CLOVIS_MAX_DATA_UNIT_PER_OPS in *. cbv zeta.
  assert ((50 * j + T) / 50 = j + T / 50) as -> by (rewrite Z.mul_comm, Z.div_add_l; lia).
  replace ((50 * j + T) mod 50) with (T mod 50) by (rewrite Z.add_comm, Z.mul_comm, Z_mod_plus_full; done).
  destruct (T >? 50) eqn:E.
  - assert (1 <= T / 50) by (apply Z.div_le_lower_bound; lia). case_match; nia.
  - destruct (decide (T = 50)) as [->|].
    + change (50 / 50) with 1. case_match; nia.
    + rewrite (Z.div_small T), (Z.mod_small T) by lia. case_match; nia.
Qed.

Lemma piece_addr_exact buf i j b u :
  0 <= buf -> 0 <= i -> 0 <= j -> 0 <= b -> 0 <= u -> j * b < 2147483648 -> buf + (j * b + i) * u < two64 ->
  piece_addr buf i j b u = buf + j * b * u + i * u.
Proof.
  intros. unfold piece_addr. assert (0 <= j * b) by nia. assert (0 <= j * b * u) by nia. assert (0 <= i * u) by nia.
  rewrite i32_small, !(u64_small (_ * _)) by nia. rewrite u64_small; nia.
Qed.

Section correct.
Context {X : Type} `{Mero0Ok X}.
Abbreviation St := (Mero X).
Implicit Types s : St.
Abbreviation data s := (me_contents (me_ext s)).
Abbreviation failed s := (me_failed (me_ext s)).

Lemma wp_alloc_vectors n u s :
  wp (only FNullPointer) (alloc_vectors n u)
    (fun _ s' => me_mem s' = me_mem s /\ data s' = data s /\ failed s' = failed s /\ me_vectors s' = me_vectors s + 3) s.
Proof.
  unfold alloc_vectors. do 3 apply wp_bind, wp_library. simpl. apply wp_bind. unfold guard_. destruct (_ && _); [|done]. apply wp_ret, wp_modify. simpl.
  set (x1 := (m0_bufvec_alloc n u (me_ext s)).2). set (x2 := (m0_bufvec_alloc n 1 x1).2).
  pose proof (bufvec_quiet (me_ext s) n u) as [C1 F1]. pose proof (bufvec_quiet x1 n 1) as [C2 F2]. pose proof (indexvec_quiet x2 n) as [C3 F3].
  fold x1 in C1, F1. fold x2 in C2, F2. split; [done|]. split; [congruence|]. split; [congruence|done].
Qed.

(** One group of a write. *)
Lemma write_group hi lo s n A i u ext blocks :
  0 <= n -> ext = (fun k => (i + k * u, u)) <$> seqZ 0 n -> blocks = (fun k => rd (me_mem s) (A + k * u) u) <$> seqZ 0 n -> 0 <= u ->
  wp (only FNullPointer) (write_data_to_object hi lo ext blocks)
    (fun r x =>
       (forall hi' lo' y, (hi', lo') <> (hi, lo) \/ ~ i <= y < i + n * u -> me_contents x hi' lo' y = data s hi' lo' y) /\
       failed s <= me_failed x /\
       (me_failed x = failed s -> r = 0 /\ forall w, 0 <= w < n * u -> me_contents x hi lo (i + w) = me_mem s (A + w))) (me_ext s).
Proof.
  intros Hn -> -> Hu. apply Z_of_nat_complete in Hn as [k ->]. eapply wp_mono; [apply write_data_correct|].
  - unfold fits. rewrite <- !list_fmap_compose. apply list_fmap_ext. intros k0 z _. simpl. by rewrite rd_length.
  - intros r x (Hframe & Hle & Hdone). split; [|split; [done|]].
    + intros hi' lo' y Hy. apply Hframe. destruct Hy as [Hy|Hy]; [by left|right].
      intros v (k' & -> & Hk%elem_of_seqZ)%list_elem_of_fmap. simpl. nia.
    + intros Hf. destruct (Hdone Hf) as [Hr Hst]. split; [done|]. intros w Hw. rewrite Hst. unfold stored.
      rewrite <- list_fmap_compose. change (fst ∘ (fun k => (i + k * u, u))) with (fun k => i + k * u). rewrite store_blocks by done.
      rewrite <- (Z2Nat.id w) at 1 by lia. apply wr_in. rewrite rd_lookup by lia. do 2 f_equal. lia.
Qed.

Variables (hi lo buf u off N : Z).
Hypothesis Hu : 0 <= u.
Hypothesis Hoff : one_run off (N * u).
Hypothesis Hbuf : 0 <= buf < two64 /\ buf + N * u <= two64.
Hypothesis HN : N < 2147483648.

(** The index of the first byte. *)
Abbreviation base := (u64 off).

Lemma base_step T : 0 < T <= N -> one_run (off + (N - T) * u) (T * u) /\ (0 < u -> u64 (off + (N - T) * u) = base + (N - T) * u).
Proof.
  intros HT. assert ((N - T) * u + T * u = N * u) as E by lia. assert (0 <= (N - T) * u) by nia. assert (0 <= T * u) by nia.
  assert (u = 0 \/ 0 < T * u) as Hz by nia. split; [destruct Hoff as [Ho|Ho]; [left; lia|right; destruct Hz as [E0|Hz]; [rewrite E0 in *|]; lia]|]. intros Hu0. apply (u64_step _ _ _ Hoff). nia.
Qed.
Lemma run_part i n n' : one_run i n -> 0 <= n' <= n -> one_run i n'.
Proof. intros [?|?] ?; [left|right]; lia. Qed.

(** What a write of [N] blocks leaves when the last [T] of them are still to do. *)
Definition writes (T : Z) s (r : Z) s' : Prop :=
  me_mem s' = me_mem s /\ me_vectors s' = me_vectors s /\
  (forall hi' lo' y, (hi', lo') <> (hi, lo) \/ ~ base + (N - T) * u <= y < base + N * u -> data s' hi' lo' y = data s hi' lo' y) /\
  failed s <= failed s' /\
  (failed s' = failed s -> r = 0 /\ forall z, (N - T) * u <= z < N * u -> data s' hi lo (base + z) = me_mem s (buf + source N u z)).

Lemma write_loop_spec fuel T j i s :
  0 <= T <= N -> 0 <= j -> (Z.to_nat T < fuel)%nat -> (0 < T -> N = 50 * j + T /\ i = off + (N - T) * u) ->
  wp (only FNullPointer) (write_loop fuel hi lo buf u T i j) (writes T s) s.
Proof.
  revert T j i s. induction fuel as [|fuel IH]; intros T j i s HT Hj Hfuel Hpos; [lia|]. simpl write_loop.
  destruct (T >? 0) eqn:ET; [|apply wp_ret; split_and!; try done; split; [done|]; intros; lia]. destruct (Hpos ltac:(lia)) as [HNj ->].
  pose proof (group_size_bounds T ltac:(lia)) as (Hb & HbT & Hlast). set (b := group_size T) in *.
  destruct (base_step T ltac:(lia)) as [Hrun Hbase].
  apply wp_bind. eapply wp_mono; [apply wp_alloc_vectors|]. intros _ s1 (Hm & Hd & Hfl & Hv). apply wp_bind, wp_gets.
  rewrite fill_spec by (lia || (eapply run_part; [exact Hrun|rewrite Z2Nat.id by lia; nia])). rewrite Z2Nat.id by lia. apply wp_bind, wp_on_lib. rewrite Hm.
  assert ((fun k => rd (me_mem s) (piece_addr buf k j b u) u) <$> seqZ 0 b = (fun k => rd (me_mem s1) (buf + j * b * u + k * u) u) <$> seqZ 0 b) as ->.
  { apply list_fmap_ext. intros k z [-> Hz]%lookup_seqZ. assert (j * b + (Z.of_nat k + 1) <= N) by nia. rewrite Hm, piece_addr_exact; [done|lia..|nia]. }
  eapply wp_mono; [apply (write_group hi lo s1 b (buf + j * b * u) (u64 (off + (N - T) * u)) u); [lia|done|done|done]|].
  intros r x (Hframe & Hle & Hdone). rewrite Hd, Hfl in *. rewrite Hm in *. set (s2 := mkMero (me_mem s) x (me_vectors s1)).
  assert (forall hi' lo' y, (hi', lo') <> (hi, lo) \/ ~ base + (N - T) * u <= y < base + N * u -> me_contents x hi' lo' y = data s hi' lo' y) as Hout.
  { intros hi' lo' y Hy. apply Hframe. destruct Hy as [?|Hy]; [by left|right]. destruct (decide (u = 0)); [nia|]. rewrite Hbase by lia. nia. }
  apply wp_bind, wp_modify. destruct (r =? 0) eqn:Er; simpl negb; cbv iota.
  - eapply wp_mono; [apply IH; [lia|lia|lia|]|].
    { intros HT'. destruct Hlast as [Hb50| ->]; [|lia]. rewrite Hb50. nia. }
    intros r' s' (Hm' & Hv' & Hf' & Hfl' & Hr'). simpl in *. split_and!; [congruence|lia| |lia|].
    + intros hi' lo' y Hy. rewrite Hf' by (destruct Hy; [by left|right; nia]). by apply Hout.
    + intros Hnone. destruct (Hr' ltac:(lia)) as [-> Hrest]. destruct (Hdone ltac:(lia)) as [_ Hgroup]. split; [done|].
      intros z Hz. destruct (decide (z < (N - (T - b)) * u)) as [Hlt|Hge]; [|rewrite Hrest by nia; done].
      assert (0 < u) as Hu0 by nia. rewrite Hf' by (right; nia). rewrite Hbase in Hgroup by done.
      replace (base + z) with (base + (N - T) * u + (z - (N - T) * u)) by lia.
      rewrite Hgroup by (lia || nia). f_equal. rewrite HNj in Hz |- *. replace z with (50 * j * u + (z - 50 * j * u)) at 2 by lia.
      rewrite source_group by (fold b; nia). fold b. nia.
  - apply wp_ret. split_and!; simpl; [done|lia|exact Hout|done|]. intros Hnone. destruct (Hdone Hnone). lia.
Qed.

(** ** The reads *)
Lemma copy_blocks l (g : Z -> Z) s :
  for_each l (fun '(i, ov_buf) => set_memory (fun m => wr m (g i) ov_buf)) s =
  Ok (tt, mkMero (foldl (fun f v => wr f v.1 v.2) (me_mem s) ((fun v => (g v.1, v.2)) <$> l)) (me_ext s) (me_vectors s)).
Proof.
  revert s. induction l as [|[i b] l IH]; intros s; simpl; [by destruct s|]. unfold bind at 1, set_memory at 1, modify at 1. by rewrite IH.
Qed.

(** One group of a read. *)
Lemma read_group b j i s x :
  0 <= b -> 0 <= j -> j * b + b <= N ->
  let bufs := (fun v => range_of (me_contents x hi lo) v.1 v.2) <$> ((fun k => (i + k * u, u)) <$> seqZ 0 b) in
  exists m, for_each (zip (seqZ 0 b) bufs) (fun '(k, ov_buf) => set_memory (fun m => wr m (piece_addr buf k j b u) ov_buf)) s =
      Ok (tt, mkMero m (me_ext s) (me_vectors s)) /\
    (forall w, 0 <= w < b * u -> m (buf + j * b * u + w) = me_contents x hi lo (i + w)) /\
    (forall a, ~ buf + j * b * u <= a < buf + j * b * u + b * u -> m a = me_mem s a).
Proof.
  intros Hb Hj HjN bufs. rewrite copy_blocks. eexists. split; [reflexivity|].
  assert (forall a, foldl (fun f v => wr f v.1 v.2) (me_mem s) ((fun v => (piece_addr buf v.1 j b u, v.2)) <$> zip (seqZ 0 b) bufs) a =
    wr (me_mem s) (buf + j * b * u) (rd (me_contents x hi lo) i (b * u)) a) as Hmem.
  { intros a. apply Z_of_nat_complete in Hb as [n ->]. rewrite <- store_blocks by done. f_equal. unfold bufs. rewrite <- list_fmap_compose.
    rewrite <- (list_fmap_id (seqZ 0 (Z.of_nat n))) at 1. rewrite !zip_fmap, <- list_fmap_compose. apply list_fmap_ext.
    intros k z [-> Hz]%lookup_seqZ. simpl. rewrite piece_addr_exact; [done|nia..]. }
  split.
  - intros w Hw. rewrite Hmem. rewrite <- (Z2Nat.id w) at 1 by lia. apply wr_in. rewrite rd_lookup by lia. do 2 f_equal. lia.
  - intros a Ha. rewrite Hmem. apply wr_out. by rewrite rd_length by nia.
Qed.

(** The whole groups, and where the last one, if it is not whole, is put. *)
Definition whole : Z := CLOVIS_MAX_DATA_UNIT_PER_OPS * (N / CLOVIS_MAX_DATA_UNIT_PER_OPS) * u.
Definition tail_at : Z := N / CLOVIS_MAX_DATA_UNIT_PER_OPS * (N mod CLOVIS_MAX_DATA_UNIT_PER_OPS) * u.
Definition tail_size : Z := N mod CLOVIS_MAX_DATA_UNIT_PER_OPS * u.
Definition in_tail (z : Z) : Prop := tail_at <= z < tail_at + tail_size.

Record reads (T : Z) s (r : Z) s' : Prop := {
  rd_data : data s' = data s;
  rd_vectors : me_vectors s' = me_vectors s + (if r =? 0 then 0 else 3);
  rd_none : T = 0 -> me_mem s' = me_mem s;
  rd_frame : forall z, ~ (N - T) * u <= z < whole -> ~ in_tail z -> me_mem s' (buf + z) = me_mem s (buf + z);
  rd_whole : r = 0 -> forall z, (N - T) * u <= z < whole -> ~ in_tail z -> me_mem s' (buf + z) = data s hi lo (base + z);
  rd_tail : r = 0 -> 0 < T -> forall w, 0 <= w < tail_size -> me_mem s' (buf + tail_at + w) = data s hi lo (base + whole + w);
  rd_failed : failed s <= failed s' /\ (failed s' = failed s -> r = 0);
}.

(** The three shapes of a group: one that is followed by another, a last one that is
    whole, and a last one that is not. *)
Lemma groups_cases T j :
  0 < T -> 0 <= j -> N = 50 * j + T ->
  (group_size T = 50 /\ 50 < T /\ 50 * (j + 1) * u <= whole) \/
  (group_size T = 50 /\ T = 50 /\ tail_size = 0 /\ whole = N * u) \/
  (group_size T = T /\ T < 50 /\ whole = 50 * j * u /\ tail_at = j * T * u /\ tail_size = T * u).
Proof.
  intros HT Hj HNj. unfold whole, tail_at, tail_size, group_size, CLOVIS_MAX_DATA_UNIT_PER_OPS.
  assert (N / 50 = j + T / 50) as -> by (rewrite HNj, Z.mul_comm, Z.div_add_l; lia).
  assert (N mod 50 = T mod 50) as -> by (rewrite HNj, Z.add_comm, Z.mul_comm, Z_mod_plus_full; done).
  destruct (T >? 50) eqn:E.
  - left. assert (1 <= T / 50) by (apply Z.div_le_lower_bound; lia). split_and!; [done|lia|nia].
  - right. destruct (decide (T = 50)) as [->|].
    + left. change (50 / 50) with 1. change (50 mod 50) with 0. split_and!; lia.
    + right. rewrite (Z.div_small T), (Z.mod_small T) by lia. split_and!; lia.
Qed.

Lemma whole_le : 0 <= N -> whole <= N * u.
Proof.
  intros H0N. unfold whole, CLOVIS_MAX_DATA_UNIT_PER_OPS. pose proof (Z.mul_div_le N 50). nia.
Qed.

(** A group, then the rest. *)
Lemma reads_step T j s s2 r s' :
  0 < T -> 0 <= j -> N = 50 * j + T -> let b := group_size T in
  data s2 = data s -> me_vectors s2 = me_vectors s -> failed s <= failed s2 ->
  (forall w, 0 <= w < b * u -> me_mem s2 (buf + j * b * u + w) = data s hi lo (base + 50 * j * u + w)) ->
  (forall a, ~ buf + j * b * u <= a < buf + j * b * u + b * u -> me_mem s2 a = me_mem s a) ->
  reads (T - b) s2 r s' -> reads T s r s'.
Proof.
  intros HT Hj HNj b Hd Hv Hfl Hin Hout [Hd' Hv' Hn' Hf' Hw' Ht' [Hl1 Hl2]]. assert ((N - T) * u = 50 * j * u) as Hstart by (rewrite HNj; lia).
  assert ((N - (T - b)) * u = 50 * j * u + b * u) as Hnext by (rewrite HNj; lia).
  rewrite Hd in *. rewrite Hv in *. constructor; try done; try lia; try (split; [lia|intros; apply Hl2; lia]); rewrite ?Hstart.
  all: destruct (groups_cases T j HT Hj HNj) as [(Hb & HT50 & Hwh)|[(Hb & HT50 & Hts & Hwh)|(Hb & HT50 & Hwh & Hta & Hts)]];
    fold b in Hb; rewrite Hb in *; rewrite Hnext in *.
  - intros z Hz Ht. rewrite Hf' by (done || lia). apply Hout. lia.
  - intros z Hz Ht. rewrite Hn' by lia. apply Hout. subst T. lia.
  - intros z Hz Ht. rewrite Hn' by lia. apply Hout. unfold in_tail in Ht. lia.
  - intros Hr z Hz Ht. destruct (decide (50 * j * u + 50 * u <= z)); [apply Hw'; lia || done|]. rewrite Hf' by (done || lia).
    replace (buf + z) with (buf + j * 50 * u + (z - 50 * j * u)) by lia. rewrite Hin by lia. f_equal. lia.
  - intros Hr z Hz Ht. rewrite Hn' by lia.
    replace (buf + z) with (buf + j * 50 * u + (z - 50 * j * u)) by lia. rewrite Hin by (subst T; lia). f_equal. lia.
  - lia.
  - intros Hr _. apply Ht'; lia.
  - lia.
  - intros Hr _ w Hw. rewrite Hn', Hta, Hwh by lia. rewrite Hin by lia. done.
Qed.

Lemma read_loop_spec fuel T j i s :
  0 <= T <= N -> 0 <= j -> (Z.to_nat T < fuel)%nat -> (0 < T -> N = 50 * j + T /\ i = off + (N - T) * u) ->
  wp (only FNullPointer) (read_loop fuel hi lo buf u T i j) (reads T s) s.
Proof.
  revert T j i s. induction fuel as [|fuel IH]; intros T j i s HT Hj Hfuel Hpos; [lia|]. simpl read_loop.
  destruct (T >? 0) eqn:ET.
  2: { apply wp_ret. pose proof (whole_le ltac:(lia)). assert (T = 0) as -> by lia. constructor; try done; simpl; lia. }
  destruct (Hpos ltac:(lia)) as [HNj ->].
  pose proof (group_size_bounds T ltac:(lia)) as (Hb & HbT & Hlast). set (b := group_size T) in *.
  destruct (base_step T ltac:(lia)) as [Hrun Hbase].
  apply wp_bind. eapply wp_mono; [apply wp_alloc_vectors|]. intros _ s1 (Hm & Hd & Hfl & Hv).
  rewrite fill_spec by (lia || (eapply run_part; [exact Hrun|rewrite Z2Nat.id by lia; nia])). rewrite Z2Nat.id by lia. apply wp_bind, wp_on_lib.
  eapply wp_mono; [apply read_data_correct|]. intros [r bufs] x (Hframe & Hle & Hnone & Hbufs). cbn [fst snd] in *. rewrite Hd, Hfl in *.
  destruct (r =? 0) eqn:Er; simpl negb; cbv iota.
  2: { apply wp_ret. constructor; simpl; rewrite ?Er, ?Hm; try done; lia. }
  rewrite Hbufs by lia. apply wp_bind. set (s2 := mkMero _ x _).
  destruct (read_group b j (u64 (off + (N - T) * u)) s2 (me_ext s1)) as (m & Hcopy & Hin & Hout); [lia|lia|nia|]. rewrite Hd in Hcopy.
  eapply wp_of_Ok; [exact Hcopy|]. apply wp_bind, wp_modify. eapply wp_mono.
  - apply IH; [lia|lia|lia|]. intros HT'. destruct Hlast as [Hb50| ->]; [|lia]. rewrite Hb50. nia.
  - intros r' s' Hrest. refine (reads_step T j s _ r' s' ltac:(lia) Hj HNj _ _ _ _ _ Hrest); simpl; [done|lia|done| |].
    + intros w Hw. rewrite Hin, Hd by done. f_equal. rewrite Hbase by nia. nia.
    + intros a Ha. rewrite Hout by done. unfold s2. simpl. by rewrite Hm.
Qed.
End correct.

Section backend.
Context {X : Type} `{Mero0Ok X}.
Abbreviation St := (Mero X).
Implicit Types s : St.
Abbreviation data s := (me_contents (me_ext s)).
Abbreviation failed s := (me_failed (me_ext s)).

(** The size of the blocks of an access: a data unit, or the access if it is smaller. *)
Definition block (s : St) (size : Z) : Z := if unit_size (me_ext s) >? size then size else unit_size (me_ext s).
Definition count (s : St) (size : Z) : Z := if unit_size (me_ext s) >? size then 1 else size / unit_size (me_ext s).

(** An access that the Mero build takes: the size is below a data unit or a multiple
    of it, and the buffer is in the address space. *)
Record access_ok s (buffer size : Z) : Prop := {
  ac_unit : 0 < unit_size (me_ext s);
  ac_size : 0 <= size < 2147483648;
  ac_multiple : unit_size (me_ext s) <= size -> (unit_size (me_ext s) | size);
  ac_buffer : 0 < buffer < two64 /\ buffer + size <= two64;
}.

Lemma block_count s buffer size :
  access_ok s buffer size -> 0 <= block s size /\ 1 <= count s size <= 2147483647 /\ count s size * block s size = size.
Proof.
  intros [Hu Hs Hm Hb]. unfold block, count. destruct (_ >? size) eqn:E; [lia|]. assert (unit_size (me_ext s) <= size) as Hle by lia.
  destruct (Hm Hle) as [k ->]. rewrite Z.div_mul by lia. nia.
Qed.

Lemma wp_blocks_of F s buffer size (Q : Z * Z -> St -> Prop) :
  access_ok s buffer size -> Q (block s size, count s size) s -> wp F (blocks_of size) Q s.
Proof.
  intros Ha HQ. pose proof (block_count s buffer size Ha) as (_ & Hc & _). destruct Ha as [Hu Hs Hm Hb]. unfold blocks_of. apply wp_bind, wp_gets, wp_bind.
  apply wp_guard; [lia|]. unfold block, count in *. destruct (_ >? size) eqn:E; [by apply wp_ret|].
  apply wp_bind, wp_guard; [|apply wp_ret; rewrite i32_small by lia; done].
  apply Z.eqb_eq, Z.mod_divide; [lia|apply Hm; lia].
Qed.

(** A write of the Mero build, of fewer than 2^31 bytes, at an offset whose low 32
    bits are [o], as an int, always ends; it answers its size or -1 and frees its
    vectors; it changes no other object and nothing outside the [size] bytes from the
    64-bit value of [o]; and when no operation of Mero failed, it answers its size and
    the byte number [z] of the range holds the byte of the buffer that [source] says. *)
Lemma mero_pwrite_exact high low buffer size offset o s :
  access_ok s buffer size -> o = i32 offset -> one_run o size ->
  wp (only FNullPointer) (pwrite HAVE_MERO high low buffer size offset)
    (fun r s' =>
       (r = size \/ r = -1) /\ me_mem s' = me_mem s /\ me_vectors s' = me_vectors s /\
       (forall hi lo y, (hi, lo) <> (u64 high, u64 low) \/ ~ u64 o <= y < u64 o + size -> data s' hi lo y = data s hi lo y) /\
       failed s <= failed s' /\
       (failed s' = failed s -> r = size /\ forall z, 0 <= z < size ->
          data s' (u64 high) (u64 low) (u64 o + z) = me_mem s (buffer + source (count s size) (block s size) z))) s.
Proof.
  intros Ha -> Ho. pose proof (block_count s buffer size Ha) as (Hbl & Hc & Hcb). pose proof (ac_buffer _ _ _ Ha) as [Hb1 Hb2].
  pose proof (ac_size _ _ _ Ha) as Hsz. unfold pwrite. apply wp_bind, wp_guard; [lia|]. apply wp_bind, (wp_blocks_of _ s buffer); [done|].
  apply wp_bind. eapply wp_mono.
  - apply (write_loop_spec (u64 high) (u64 low) buffer (block s size) (i32 offset) (count s size)); rewrite ?Hcb; try lia; done.
  - intros r s' (Hm & Hv & Hf & Hle & Hw). apply wp_ret. rewrite Z.sub_diag, Z.mul_0_l, Z.add_0_r, Hcb in *. rewrite i64_small by lia. split_and!; try done.
    + destruct (r =? 0); auto.
    + intros Hnone. destruct (Hw Hnone) as [-> Hz]. split; [done|]. intros z Hzs. apply Hz; lia.
Qed.

(** The same for a read: the whole groups are in place but for what the last group
    writes over when it is not whole. A read that fails leaves its vectors. *)
Lemma mero_pread_exact high low buffer size offset o s :
  access_ok s buffer size -> o = i32 offset -> one_run o size ->
  wp (only FNullPointer) (pread HAVE_MERO high low buffer size offset)
    (fun r s' => exists r0, r = (if r0 =? 0 then size else -1) /\
       reads (u64 high) (u64 low) buffer (block s size) o (count s size) (count s size) s r0 s') s.
Proof.
  intros Ha -> Ho. pose proof (block_count s buffer size Ha) as (Hbl & Hc & Hcb). pose proof (ac_buffer _ _ _ Ha) as [Hb1 Hb2].
  pose proof (ac_size _ _ _ Ha) as Hsz. unfold pread. apply wp_bind, wp_guard; [lia|]. apply wp_bind, (wp_blocks_of _ s buffer); [done|].
  apply wp_bind. eapply wp_mono.
  - apply (read_loop_spec (u64 high) (u64 low) buffer (block s size) (i32 offset) (count s size)); rewrite ?Hcb; try lia; done.
  - intros r s' Hr. apply wp_ret. exists r. by rewrite i64_small by lia.
Qed.

(** The accesses that the Mero build serves well: one group or whole groups. *)
Definition whole_groups s (size : Z) : Prop :=
  count s size <= CLOVIS_MAX_DATA_UNIT_PER_OPS \/ (CLOVIS_MAX_DATA_UNIT_PER_OPS | count s size).

(** What the groups come to then. *)
Lemma whole_groups_cases s buffer size :
  access_ok s buffer size -> whole_groups s size ->
  let N := count s size in let u := block s size in
  (whole u N = size /\ tail_size u N = 0) \/ (whole u N = 0 /\ tail_at u N = 0 /\ tail_size u N = size).
Proof.
  intros Ha Hw N u. destruct (block_count s buffer size Ha) as (Hu & Hc & Hcb). unfold whole_groups, whole, tail_at, tail_size, CLOVIS_MAX_DATA_UNIT_PER_OPS in *.
  fold N in Hc, Hcb, Hw. fold u in Hu, Hcb. destruct (decide (N mod 50 = 0)) as [Hq0|Hnd]; [apply Z.mod_divide in Hq0 as [q Hq]; [|done]|].
  - left. rewrite Hq, Z.div_mul, Z.mod_mul by lia. rewrite Hq in Hcb. lia.
  - right. assert (N < 50) as HN. { destruct Hw as [Hw|Hw]; [|by apply Z.mod_divide in Hw]. assert (N <> 50); [|lia]. intros HN. apply Hnd. by rewrite HN. }
    rewrite Z.div_small, Z.mod_small by lia. lia.
Qed.

Lemma whole_groups_source s buffer size z :
  access_ok s buffer size -> whole_groups s size -> 0 <= z < size -> source (count s size) (block s size) z = z.
Proof.
  intros Ha Hw Hz. destruct (whole_groups_cases s buffer size Ha Hw) as [[Hwh _]|(Hwh & Ht & _)]; unfold source; cbv zeta;
    unfold whole, tail_at in *; rewrite Hwh; case_match; lia.
Qed.


(** a read of the Mero storage, under the same conditions, changes nothing of the
    storage and nothing outside its buffer; it answers its size, with the bytes of
    the range in the buffer and its vectors freed, or -1, and then the three vectors
    of the group that failed are never freed; this happens only when an operation of
    Mero failed. *)
Theorem mero_pread_correct high low buffer size offset s :
  access_ok s buffer size -> whole_groups s size -> 0 <= offset -> offset + size < 2147483648 ->
  wp (only FNullPointer) (pread HAVE_MERO high low buffer size offset)
    (fun r s' =>
       data s' = data s /\ (forall a, ~ buffer <= a < buffer + size -> me_mem s' a = me_mem s a) /\
       ((r = size /\ rd (me_mem s') buffer size = range_of (data s (u64 high) (u64 low)) offset size /\ me_vectors s' = me_vectors s) \/
        (r = -1 /\ me_vectors s' = me_vectors s + 3 /\ failed s < failed s'))) s.
Proof.
  intros Ha Hw Ho Hos. pose proof (ac_size _ _ _ Ha) as Hsz. pose proof (whole_groups_cases s buffer size Ha Hw) as Hg. cbv zeta in Hg.
  pose proof (block_count s buffer size Ha) as (_ & Hc & _).
  assert (u64 offset = offset) as Eo by (apply u64_small; rewrite two64_eq; lia).
  eapply wp_mono; [eapply (mero_pread_exact high low buffer size offset offset s); [done|by rewrite i32_small by lia|left; lia]|].
  intros r s' (r0 & -> & [Hd Hv _ Hf Hwh Ht [Hle Hfl]]). rewrite Eo in *. unfold in_tail in *. rewrite Z.sub_diag, Z.mul_0_l in *. split; [done|]. split.
  - intros a Hout. replace a with (buffer + (a - buffer)) by lia. apply Hf; lia.
  - destruct (r0 =? 0) eqn:Er; [left|right; split; [done|]; split; [done|]; lia]. split; [done|]. split; [|lia]. apply list_fmap_ext. intros i z [-> Hz]%lookup_seqZ.
    destruct Hg as [[Hgw Hgt]|(Hgw & Hga & Hgs)]; [apply Hwh; lia|]. specialize (Ht ltac:(lia) ltac:(lia) (0 + Z.of_nat i) ltac:(lia)).
    rewrite Hga, Hgw, !Z.add_0_r in Ht. exact Ht.
Qed.

(** The index and the range that was asked for are apart. *)
Lemma wrapped_index offset size :
  one_run (i32 offset) size ->
  u64 (i32 offset) = offset mod 4294967296 + (if offset mod 4294967296 <? 2147483648 then 0 else two64 - 4294967296).
Proof.
  intros Hrun. assert (i32 offset = offset mod 4294967296 - (if offset mod 4294967296 <? 2147483648 then 0 else 4294967296)) as Ei.
  { unfold i32, swrap. change (2 ^ 32) with 4294967296. change (2 ^ (32 - 1)) with 2147483648.
    pose proof (Z.mod_pos_bound offset 4294967296 ltac:(lia)) as Hm. rewrite <- Zplus_mod_idemp_l. destruct (_ <? _) eqn:E.
    - rewrite Z.mod_small; lia.
    - rewrite <- (Z_mod_plus_full _ (-1)), Z.mod_small; lia. }
  pose proof (Z.mod_pos_bound offset 4294967296 ltac:(lia)) as Hm. rewrite Ei. destruct (_ <? _) eqn:E.
  - rewrite u64_small; rewrite ?two64_eq; lia.
  - unfold u64. rewrite <- (Z_mod_plus_full _ 1), Z.mod_small; rewrite two64_eq; lia.
Qed.
Lemma index_elsewhere offset size k :
  0 <= size < 2147483648 -> 2147483648 <= offset -> offset + size <= two63 -> one_run (i32 offset) size -> 0 <= k < size ->
  let b := offset mod 4294967296 + (if offset mod 4294967296 <? 2147483648 then 0 else two64 - 4294967296) in ~ b <= offset + k < b + size.
Proof.
  intros Hs Ho Hos Hrun Hk b. unfold b. pose proof (Z.div_mod offset 4294967296 ltac:(lia)) as Hdm. pose proof (Z.mod_pos_bound offset 4294967296 ltac:(lia)) as Hm.
  pose proof two63_two64. rewrite two64_eq. change two63 with 9223372036854775808 in *. destruct (_ <? _) eqn:E; [|lia].
  assert (1 <= offset / 4294967296); [|lia]. destruct (decide (offset / 4294967296 = 0)) as [E0|]; [lia|]. assert (0 <= offset / 4294967296) by (apply Z.div_pos; lia). lia.
Qed.

(** C39: a write below 2 GiB that is more than 50 data units and not whole groups of 50,
    when no operation of Mero failed, answers its size and yet stores in the blocks of
    its last group other bytes of the buffer: those from the block number (number of
    groups) * (blocks of the last group). *)
Theorem mero_pwrite_misplaces high low buffer size offset q r s :
  access_ok s buffer size -> 0 <= offset -> offset + size < 2147483648 -> count s size = 50 * q + r -> 0 < q -> 0 < r < 50 ->
  wp (only FNullPointer) (pwrite HAVE_MERO high low buffer size offset)
    (fun res s' => failed s' = failed s -> res = size /\
       forall w, 0 <= w < r * block s size ->
         data s' (u64 high) (u64 low) (offset + 50 * q * block s size + w) = me_mem s (buffer + q * r * block s size + w)) s.
Proof.
  intros Ha Ho Hos Hcnt Hq Hr. pose proof (ac_size _ _ _ Ha) as Hsz. destruct (block_count s buffer size Ha) as (Hu & Hc & Hcb).
  assert (u64 offset = offset) as Eo by (apply u64_small; rewrite two64_eq; lia).
  eapply wp_mono; [eapply (mero_pwrite_exact high low buffer size offset offset s); [done|by rewrite i32_small by lia|left; lia]|].
  intros res s' (_ & _ & _ & _ & _ & Hd) Hnone. rewrite Eo in Hd. destruct (Hd Hnone) as [Hres Hz]. split; [done|]. intros w Hw.
  rewrite <- Z.add_assoc, Hz by nia. f_equal.
  pose proof (source_group r q (block s size) w) as Hsrc. rewrite <- Hcnt in Hsrc.
  assert (group_size r = r) as Hg by (unfold group_size, CLOVIS_MAX_DATA_UNIT_PER_OPS; case_match; lia). rewrite Hg in Hsrc.
  rewrite Hsrc by lia. lia.
Qed.

End backend.

(** ** A storage in memory, with data units of two bytes

    The operations run when they are waited for; a write fails when [d_broken]. *)
Record Disk : Type := mkDisk {
  d_contents : Z -> Z -> Z -> byte;
  d_ops : gmap Z m0_operation;
  d_next : Z;
  d_read : gmap Z (list (list byte));
  d_rc : gmap Z Z;
  d_failed : Z;
  d_broken : bool;
}.
Definition disk_put (hi lo : Z) (f : Z -> byte) (c : Z -> Z -> Z -> byte) : Z -> Z -> Z -> byte :=
  fun hi' lo' => if (hi' =? hi) && (lo' =? lo) then f else c hi' lo'.

Definition disk_run (op : Z) (x : Disk) : Disk :=
  match d_ops x !! op with
  | Some (M0_CLOVIS_OC_WRITE hi lo ext data) =>
      if d_broken x then mkDisk (d_contents x) (d_ops x) (d_next x) (d_read x) (<[op := -5]> (d_rc x)) (d_failed x + 1) (d_broken x)
      else if decide (fits ext data) then
        mkDisk (disk_put hi lo (stored ext data (d_contents x hi lo)) (d_contents x)) (d_ops x) (d_next x) (d_read x) (<[op := 0]> (d_rc x)) (d_failed x) (d_broken x)
      else mkDisk (d_contents x) (d_ops x) (d_next x) (d_read x) (<[op := 0]> (d_rc x)) (d_failed x) (d_broken x)
  | Some (M0_CLOVIS_OC_READ hi lo ext) =>
      mkDisk (d_contents x) (d_ops x) (d_next x) (<[op := (fun v => range_of (d_contents x hi lo) v.1 v.2) <$> ext]> (d_read x)) (<[op := 0]> (d_rc x)) (d_failed x) (d_broken x)
  | _ => mkDisk (d_contents x) (d_ops x) (d_next x) (d_read x) (<[op := 0]> (d_rc x)) (d_failed x) (d_broken x)
  end.

#[export] Instance disk_mero : Mero0 Disk := {
  m0_clovis_layout_id _ := 9;
  m0_clovis_obj_layout_id_to_unit_size _ _ := 2;
  m0_bufvec_alloc _ _ x := (0, x);
  m0_indexvec_alloc _ x := (0, x);
  m0_clovis_obj_init _ _ _ x := x;
  m0_clovis_entity_fini _ _ x := x;
  m0_clovis_op_make q x := ((0, d_next x),
    mkDisk (d_contents x) (<[d_next x := q]> (d_ops x)) (d_next x + 1) (d_read x) (d_rc x) (d_failed x) (d_broken x));
  m0_clovis_op_launch _ x := x;
  m0_clovis_op_wait op _ x := (0, disk_run op x);
  m0_clovis_rc op x := default 0 (d_rc x !! op);
  m0_clovis_op_data op x := default [] (d_read x !! op);
  m0_clovis_op_fini _ x := x;
  m0_clovis_op_free op x := mkDisk (d_contents x) (delete op (d_ops x)) (d_next x) (d_read x) (d_rc x) (d_failed x) (d_broken x);
}.

Lemma disk_put_same hi lo f c : disk_put hi lo f c hi lo = f.
Proof. unfold disk_put. by rewrite !Z.eqb_refl. Qed.
Lemma disk_put_other hi lo f c hi' lo' : (hi', lo') <> (hi, lo) -> disk_put hi lo f c hi' lo' = c hi' lo'.
Proof. intros Hne. unfold disk_put. destruct (hi' =? hi) eqn:E1, (lo' =? lo) eqn:E2; simpl; try done. exfalso. apply Hne. f_equal; lia. Qed.

#[export] Instance disk_mero_ok : Mero0Ok Disk.
Proof.
  refine {| me_contents := d_contents; me_ops := d_ops; me_failed := d_failed |}; try done.
  - intros x q. simpl. split; [done|]. split; [done|]. intros _. apply lookup_insert_eq.
  - intros x op q d Hop hi lo y Hy. simpl. unfold disk_run. rewrite Hop. destruct q as [| |h l ext data|]; try done.
    destruct (d_broken x); [done|]. case_decide as Hfit; [|done]. simpl. destruct (decide ((hi, lo) = (h, l))) as [[= -> ->]|Hne]; [|by rewrite disk_put_other].
    rewrite disk_put_same. apply stored_out; [done|]. intros v Hv Hin. apply Hy. split; [done|]. by exists v.
  - intros x op q d Hop Hq. split; [done|]. simpl. unfold disk_run. rewrite Hop. by destruct q.
  - intros x op q d Hop. simpl. unfold disk_run. rewrite Hop. destruct q as [| |h l ext data|h l ext]; simpl; rewrite ?lookup_insert_eq; try done.
    destruct (d_broken x); simpl; [by rewrite lookup_insert_eq|]. case_decide as Hfit; simpl; rewrite lookup_insert_eq; simpl; [|done].
    split; [done|]. intros _ y. by rewrite disk_put_same.
Defined.

(** A buffer at 4096 whose byte at [a] is the low byte of [a], and an empty disk. *)
Definition disk (broken : bool) : Disk := mkDisk (fun _ _ _ => x00) ∅ 1 ∅ ∅ 0 broken.
Definition host : Mero Disk := mkMero byte_of_Z (disk false) 0.
Lemma host_access size : 2 <= size < 1000 -> size mod 2 = 0 -> access_ok host 4096 size.
Proof.
  intros Hs Hm. assert (unit_size (me_ext host) = 2) as Eu by done. constructor; rewrite ?Eu; try lia; [|rewrite two64_eq; lia]. intros _. by apply Z.mod_divide.
Qed.


Lemma mero_pwrite_misplaces_witness :
  wp (only FNullPointer) (pwrite HAVE_MERO 1 2 4096 102 0)
    (fun r s' => me_failed (me_ext s') = 0 -> r = 102 /\ me_contents (me_ext s') 1 2 100 = byte_of_Z (4096 + 2)) host.
Proof.
  eapply wp_mono; [apply (mero_pwrite_misplaces 1 2 4096 102 0 1 1 host); [by apply host_access|lia|lia|reflexivity|lia|lia]|].
  intros r s' Hd Hn. destruct (Hd Hn) as [Hr Hb]. split; [exact Hr|]. exact (Hb 0 ltac:(vm_compute; split; congruence)).
Defined.


Lemma mero_pread_correct_witness :
  wp (only FNullPointer) (pread HAVE_MERO 1 2 4096 10 6)
    (fun r s' => r = 10 \/ r = -1) host.
Proof.
  eapply wp_mono; [apply (mero_pread_correct 1 2 4096 10 6 host); [by apply host_access|by left|lia|lia]|].
  intros r s' (_ & _ & [[Hr _]|[Hr _]]); auto.
Defined.

(** The write of 51 data units does answer its size, with the wrong bytes: the last
    unit of the object is the second of the buffer. *)
Example misplaced_run :
  match pwrite HAVE_MERO 1 2 4096 102 0 host with
  | Ok (r, s') => (r, me_contents (me_ext s') 1 2 100, me_mem s' (4096 + 100))
  | Abort _ => (0, x00, x00)
  end = (102, x02, x64).
Proof. vm_compute. reflexivity. Qed.

(** A write that fails in Mero answers its size too: write_data_to_object does not look
    at the status of the operation. *)
Example failed_run :
  match pwrite HAVE_MERO 1 2 4096 10 6 (mkMero byte_of_Z (disk true) 0) with
  | Ok (r, s') => (r, me_failed (me_ext s'), rd (me_contents (me_ext s') 1 2) 6 10)
  | Abort _ => (0, 0, [])
  end = (10, 1, repeat x00 10).
Proof. vm_compute. reflexivity. Qed.
End Mero.
